(* ===== verification/_CoqProject ===== *)
-Q . S2P
Prelude.v
Params.v
Ring.v
Spinlock.v
Sched.v
Bio.v
Log.v
Crash.v
Logop.v
Txn.v
CString.v
Fs.v
FsBlocks.v
FsFile.v
FsData.v
FsInode.v
FsIcache.v
FsDir.v
FsIalloc.v
FsPath.v
FsTree.v
FsAbs.v
FsOps.v
FsDemo.v
FsProps.v
Mkfs.v
MkfsFile.v
MkfsRun.v
MkfsProps.v
Kalloc.v
Vm.v
VmMap.v
VmUser.v
VmCopy.v
VmOut.v
VmProps.v
Io.v
Seg.v
Start.v
User.v
Asm.v
Console.v
ConsoleOut.v
ConsoleIn.v
Mp.v
Ata.v
Boot.v
Ide.v
IdeMem.v
Umalloc.v
Grep.v
Sh.v
ShRound.v
ShRun.v
Kernel.v
Pipe.v
FileC.v
ProcC.v
Exec.v
Sysfile.v
FsCalls.v
Syscall.v
KernDemo.v
PipeProps.v
ProcProps.v
ExecProps.v
