(* ===== verification/Prelude.v ===== *)
(** * Prelude: shared vocabulary of the xv6 development

    This library models the kernel of xv6 (src/xv6-public), a small Unix for
    32-bit x86 in C, with its drivers and boot loader, the program that makes
    its disk image, the memory allocator of user programs, the shell and
    [grep], and proves what the parts promise to each other and to user
    programs.

    ** The program and the model

    The kernel is a tower of components.  Spinlocks are at the bottom; the
    process table uses them; the buffer cache, the log and the file system are
    built in this order on both; the page allocator and the page tables are
    beside them; pipes, open files, processes, [exec] and the system calls
    combine everything.  The drivers are below: the disk driver serves the
    buffer cache, the console stands on the scheduler and on the screen, the
    keyboard and the serial line, and all of them act on devices through ports.
    The state of the model is the same tower: each layer is a record that
    contains the state of the layer below, and calls the layer's routines
    through a [lens].

    Code is written in the monad [M]: a routine returns a value and a state,
    stops the machine ([Panic], for the C [panic] and for null pointers), or
    gives the processor away ([Blocked]).  A loop that sleeps until a condition
    holds is modelled up to the sleep: when the process is scheduled again it
    repeats the loop from the state it then finds.  Four judgements are used:
    [wp] (returns, with a property: total correctness), [panics], [halts]
    (returns or panics) and [runs] (returns or sleeps).  Integers are in [Z]
    with the truncation of their C type written out; memory is a function from
    addresses to bytes; C pointers into tables are indices.

    - Prelude: the monad, its laws, lenses, integers, lists.  Params: constants
      of memlayout.h, traps.h, param.h and elf.h that several parts share.
    - Ring: a doubly linked ring of pointers and the list it stands for.
    - Spinlock (spinlock.c, x86.h): one processor; Module [SMP]: any number of
      processors, one memory access per step.
    - Sched (proc.c: sleep, wakeup, sched, yield, kill; proc.h).
    - Bio (bio.c, memide.c), Log (log.c), Crash (log.c with power failures),
      Txn and Logop (the log as atomic transactions).
    - CString (string.c, ulib.c).
    - Fs (fs.c, fs.h, stat.h): the definitions.  FsBlocks, FsFile, FsData,
      FsInode, FsIcache, FsDir, FsIalloc, FsPath: laws of block allocation,
      file contents, inodes, the inode cache, directories, inode allocation
      and paths.  FsDemo: a disk made by hand.  FsProps: the theorems.
    - Mkfs (mkfs.c): the definitions; MkfsFile: one file of the image and
      [iappend]; MkfsRun: the whole image; MkfsProps: the theorem.
    - Kalloc (kalloc.c); Vm (vm.c, mmu.h, memlayout.h); VmMap, VmUser, VmCopy,
      VmOut: laws of page tables, user pages, [copyuvm], [copyout]; VmProps:
      the theorems.
    - Kernel (the whole state, user memory, syscall.c: arguments), Pipe
      (pipe.c), FileC (file.c), ProcC (proc.c: allocproc, userinit, growproc,
      fork, exit, wait, scheduler, forkret; vm.c: switchuvm), Exec (exec.c,
      elf.h, vm.c: loaduvm), Sysfile (sysfile.c), Syscall (syscall.c,
      sysproc.c, trap.c).  KernDemo: a concrete kernel.  PipeProps, ProcProps,
      ExecProps: the theorems.
    - Io (x86.h: in and out; picirq.c, ioapic.c, timer.c, lapic.c, date.h): the
      devices as a parameter, every register the code touches, the clock.  Mp
      (mp.c, mp.h, ioapic.c: ioapicinit): the tables of the firmware.
    - Console (console.c, kbd.c, kbd.h, uart.c, proc.c: procdump): the
      definitions; ConsoleOut: numbers, formats, the screen as a terminal;
      ConsoleIn: the input buffer, scan codes, reading and writing.
    - Ata: what ide.c and bootmain.c rely on of a disk, with a disk that has it;
      Boot (bootmain.c); Ide (ide.c): the driver and its invariant; IdeMem: the
      driver against memide.c.
    - Umalloc (umalloc.c).
    - Grep (grep.c); Sh, ShRound, ShRun (sh.c, ulib.c: gets).

    ** What is proved

    - Locks: mutual exclusion on many processors under every interleaving of
      memory accesses; [holding] is exact.
    - Scheduling: no wakeup is lost between [sleep] and [wakeup]; [kill], the
      hand-over of [exit], [wait] giving all memory back, [fork] copying.
    - Log: a crash between any two disk writes of a commit recovers to all or
      nothing; recovery may crash and be repeated; any interleaving of admitted
      calls with crashes refines atomic transactions.
    - Files: allocation, reading and writing (round trip, bounds, errors), the
      inode cache, reclaiming, directories, path resolution against the tree
      on the disk.
    - Memory: the allocator refines a set of pages; [setupkvm] builds the
      documented map as the processor translates it; copying, freeing and
      writing address spaces.
    - Pipes: a bounded queue whose counters wrap.
    - Devices: the IDE driver, with requests and interrupts in any order, does
      to buffers and disk what the memory disk does ([ide_refines_memide]); the
      boot loader loads every segment; [mpinit] reads the processor table to
      its end; [cmostime] never mixes two dates.
    - Console: [consolewrite] refines a terminal with scrolling; a typed line
      is what [consoleread] returns; printed numbers read back.
    - Image: [mkfs] makes a disk on which the invariant of the file system
      holds, with the given files in the root directory.
    - User memory: [malloc] and [free] refine a heap of disjoint live blocks,
      for every client that frees only what it holds.
    - Shell: the parser terminates, inverts printing, and commands run with the
      right descriptors.  [grep]: the matcher decides the pattern's language.
    - Theorems that show a defect say so: [admission_panics],
      [allocuvm_unmapped], [kill_zero_poisons], [segment_overwrites_kernel],
      [grep_loses], [cd_chops], [malloc_wraps], [malloc_beyond],
      [unknown_entry_hangs], [mkfs_root_hole].

    ** Bounds and fuel

    Loops over tables and counters recurse on the number of remaining rounds.
    The others have fuel from the data: page loops one round more than the
    pages of the range, [copyout] three more than the pages touched, strings
    their length, the parser more than the length of the line ([parsecmd_total]
    proves that it is enough), the walk of [malloc] and [free] the size of
    the process, which bounds the number of blocks.  Loops that wait for a device have a bound [spins]; the
    device is assumed to become ready within it ([Patient], and the age of the
    clock in [cmostime_untorn]).  Wherever a theorem says [wp], enough fuel is
    part of what is proved.  Reference counts and lock depths are assumed below
    the limits of [int] where the C code would overflow.

    ** Parameters

    The linker's addresses ([end], [data], [forkret]), the bytes of [initcode],
    the device switch, the interrupt handlers of devices, and the contents of
    an uninitialised variable in [exec] are arguments of the definitions.  A
    machine's devices are an instance of the class [Device]; [PcPorts],
    [AtaPorts], [Patient], [Reliable] and [Rtc] state what the drivers rely on
    of screen, keyboard, serial line, disk and clock, each with an instance.
    Whether the kernel grants an [sbrk] is a function of its arguments.

    ** Not modelled

    main.c and the assembler files start the processors and call the
    initialisers.  printf.c has the code of [cprintf]; the tests and the small
    user programs call the kernel in a fixed order.  Of modelled files,
    [seginit], [kvmalloc], [switchkvm], [tvinit], [idtinit], [ideinit] of
    memide.c, [fileinit] and [cpunum] are left out: they load registers and
    tables of the processor, or initialise a lock.  The trap frame is a field
    of the process, not the top of its kernel stack. *)

From Stdlib Require Export ZifyBool.
From stdpp Require Export base numbers strings sets gmap relations functions list.

#[global] Open Scope Z_scope.

(** ** Machine integers

    The sources are compiled for the 32-bit x86: [uchar], [ushort] and [uint]
    are 8, 16 and 32 bits wide and wrap around; [char], [short] and [int] are
    their signed counterparts.  A C integer is a [Z] in the range of its type
    and every operation that can leave the range is followed by one of the
    truncations below. *)

Definition u8 (z : Z) : Z := z mod 256.
Definition u16 (z : Z) : Z := z mod 65536.
Definition u32 (z : Z) : Z := z mod 4294967296.
Definition s8 (z : Z) : Z := (z + 128) mod 256 - 128.
Definition s16 (z : Z) : Z := (z + 32768) mod 65536 - 32768.
Definition s32 (z : Z) : Z := (z + 2147483648) mod 4294967296 - 2147483648.

Definition is_u8 (z : Z) : Prop := 0 <= z < 256.
Definition is_u32 (z : Z) : Prop := 0 <= z < 4294967296.
Definition is_s32 (z : Z) : Prop := -2147483648 <= z < 2147483648.

#[global] Instance is_u8_dec z : Decision (is_u8 z).
Proof. unfold is_u8. apply _. Defined.
#[global] Instance is_u32_dec z : Decision (is_u32 z).
Proof. unfold is_u32. apply _. Defined.

(** [zlia]: linear arithmetic with [div]/[mod] by constants turned into
    equations and the integer truncations unfolded. *)
Ltac zlia :=
  unfold is_u8, is_u32, is_s32, u8, u16, u32, s8, s16, s32 in *;
  try (Z.to_euclidean_division_equations; lia).

Create HintDb word.
Create Rewrite HintDb word.

Lemma u32_small z : is_u32 z -> u32 z = z.
Proof. intros; unfold u32; apply Z.mod_small; done. Qed.
Lemma s32_small z : is_s32 z -> s32 z = z.
Proof. zlia. Qed.
Lemma u32_range z : is_u32 (u32 z).
Proof. zlia. Qed.
Lemma s32_range z : is_s32 (s32 z).
Proof. zlia. Qed.
Lemma u32_s32 z : u32 (s32 z) = u32 z.
Proof. zlia. Qed.
Lemma s32_u32 z : s32 (u32 z) = s32 z.
Proof. zlia. Qed.
Lemma u32_idem z : u32 (u32 z) = u32 z.
Proof. apply u32_small, u32_range. Qed.

#[export] Hint Resolve u32_range s32_range : word.
#[export] Hint Rewrite u32_s32 s32_u32 u32_idem : word.

(** ** Bit masks

    Flag words are manipulated with [|], [&] and [& ~].  [has f m] is the C
    condition [f & m]. *)

Definition has (f m : Z) : bool := negb (Z.land f m =? 0).
Definition set_flag (f m : Z) : Z := Z.lor f m.
Definition clear_flag (f m : Z) : Z := Z.land f (Z.lnot m).

(** Equations between bitwise expressions, bit by bit. *)
Ltac zbits :=
  apply Z.bits_inj'; intros ? ?;
  rewrite ?Z.land_spec, ?Z.lor_spec, ?Z.lnot_spec, ?Z.bits_0 by done;
  repeat match goal with |- context [Z.testbit ?f ?i] => destruct (Z.testbit f i) end;
  done.

Lemma has_set_same f m : (m =? 0) = false -> has (set_flag f m) m = true.
Proof.
  intros Hm. unfold has, set_flag.
  replace (Z.land (Z.lor f m) m) with m by zbits. by rewrite Hm.
Qed.
Lemma has_set_other f m m' : Z.land m m' = 0 -> has (set_flag f m) m' = has f m'.
Proof.
  intros Hm. unfold has, set_flag. by rewrite Z.land_lor_distr_l, Hm, Z.lor_0_r.
Qed.
Lemma has_clear_same f m : has (clear_flag f m) m = false.
Proof.
  unfold has, clear_flag.
  by replace (Z.land (Z.land f (Z.lnot m)) m) with 0 by zbits.
Qed.
Lemma has_clear_other f m m' : Z.land m m' = 0 -> has (clear_flag f m) m' = has f m'.
Proof.
  intros Hm. unfold has, clear_flag.
  replace (Z.land (Z.land f (Z.lnot m)) m') with (Z.land f m'); [done|].
  apply Z.bits_inj'; intros i Hi. apply (f_equal (fun z => Z.testbit z i)) in Hm.
  rewrite !Z.land_spec, ?Z.lnot_spec, ?Z.bits_0 in * by done.
  destruct (Z.testbit f i), (Z.testbit m i), (Z.testbit m' i); done.
Qed.

(** A shifted number and bits below the shift do not overlap. *)
Lemma lor_shiftl a k f : 0 <= k -> 0 <= f < 2 ^ k -> Z.lor (Z.shiftl a k) f = a * 2 ^ k + f.
Proof.
  intros Hk Hf. rewrite <- Z.shiftl_mul_pow2 by done. symmetry. rewrite <- Z.add_lor_land.
  assert (Z.land (Z.shiftl a k) f = 0) as ->; [|lia].
  replace f with (Z.land f (Z.ones k)) by (rewrite Z.land_ones by lia; by apply Z.mod_small).
  apply Z.bits_inj'. intros n Hn. rewrite !Z.land_spec, Z.bits_0.
  destruct (decide (n < k)); [by rewrite Z.shiftl_spec_low|].
  rewrite Z.ones_spec_high by lia. by rewrite !andb_false_r.
Qed.

Create Rewrite HintDb flags.
#[export] Hint Rewrite has_set_same has_set_other has_clear_same has_clear_other
  using (vm_compute; reflexivity) : flags.

(** ** The state and panic monad

    A kernel routine is a function of the state it may change.  It returns a
    value ([Ok]), stops the machine ([Panic]), or gives up the processor in
    [sleep] ([Blocked], with the state in which the scheduler takes over). *)

Inductive res (S A : Type) : Type :=
| Ok (a : A) (s : S)
| Panic (msg : string) (s : S)
| Blocked (s : S).
Arguments Ok {S A} a s.
Arguments Panic {S A} msg s.
Arguments Blocked {S A} s.

Definition M (S A : Type) : Type := S -> res S A.

#[global] Instance M_ret {S} : MRet (M S) := fun _ a s => Ok a s.
#[global] Instance M_bind {S} : MBind (M S) := fun _ _ k m s =>
  match m s with
  | Ok a s' => k a s'
  | Panic msg s' => Panic msg s'
  | Blocked s' => Blocked s'
  end.

Definition get {S} : M S S := fun s => Ok s s.
Definition gets {S A} (f : S -> A) : M S A := fun s => Ok (f s) s.
Definition modify {S} (f : S -> S) : M S unit := fun s => Ok () (f s).
Definition panic {S A} (msg : string) : M S A := fun s => Panic msg s.
Definition blocked {S A} : M S A := fun s => Blocked s.
Definition when {S} (b : bool) (m : M S unit) : M S unit :=
  if b then m else mret ().

(** A routine over a part of the state runs on the whole through a lens. *)
Record lens (S T : Type) := Lens { lget : S -> T; lset : T -> S -> S }.
Arguments Lens {S T}.
Arguments lget {S T}.
Arguments lset {S T}.

Class LensOk {S T} (l : lens S T) := {
  lget_lset : forall t s, lget l (lset l t s) = t;
  lset_lset : forall t t' s, lset l t (lset l t' s) = lset l t s;
  lset_lget : forall s, lset l (lget l s) s = s
}.

Definition lift {S T A} (l : lens S T) (m : M T A) : M S A := fun s =>
  match m (lget l s) with
  | Ok a t => Ok a (lset l t s)
  | Panic msg t => Panic msg (lset l t s)
  | Blocked t => Blocked (lset l t s)
  end.

(** ** Weakest preconditions

    [wp m Q s]: from [s], [m] returns (it neither panics nor sleeps) with a
    value and a state that satisfy [Q]. *)

Definition wp {S A} (m : M S A) (Q : A -> S -> Prop) (s : S) : Prop :=
  match m s with Ok a s' => Q a s' | _ => False end.

Section wp.
Context {S : Type}.

Lemma wp_ret {A} (a : A) (Q : A -> S -> Prop) s : Q a s -> wp (mret a) Q s.
Proof. done. Qed.

Lemma wp_bind {A B} (m : M S A) (k : A -> M S B) Q s :
  wp m (fun a => wp (k a) Q) s -> wp (m ≫= k) Q s.
Proof. unfold wp, mbind, M_bind. by destruct (m s). Qed.

Lemma wp_result {A} (m : M S A) Q s : wp m Q s -> exists a s', m s = Ok a s' /\ Q a s'.
Proof. unfold wp. destruct (m s) as [a s'| |]; [eauto|done..]. Qed.

Lemma wp_mono {A} (m : M S A) (Q Q' : A -> S -> Prop) s :
  wp m Q s -> (forall a s', Q a s' -> Q' a s') -> wp m Q' s.
Proof. unfold wp. destruct (m s); naive_solver. Qed.

Lemma wp_seq {A B} (m : M S A) (k : A -> M S B) Q R s :
  wp m R s -> (forall a s', R a s' -> wp (k a) Q s') -> wp (m ≫= k) Q s.
Proof. intros Hm Hk. apply wp_bind. eauto using wp_mono. Qed.

Lemma wp_gets {A} (f : S -> A) (Q : A -> S -> Prop) s : Q (f s) s -> wp (gets f) Q s.
Proof. done. Qed.
Lemma wp_get (Q : S -> S -> Prop) s : Q s s -> wp get Q s.
Proof. done. Qed.
Lemma wp_modify (f : S -> S) (Q : unit -> S -> Prop) s : Q () (f s) -> wp (modify f) Q s.
Proof. done. Qed.

Lemma wp_when b (m : M S unit) (Q : unit -> S -> Prop) s :
  (b = true -> wp m Q s) -> (b = false -> Q () s) -> wp (when b m) Q s.
Proof. destruct b; simpl; eauto using wp_ret. Qed.

Lemma wp_ok {A} (m : M S A) Q s :
  wp m Q s <-> exists a s', m s = Ok a s' /\ Q a s'.
Proof. unfold wp. destruct (m s); naive_solver. Qed.

Lemma wp_lift {T A} (l : lens S T) (m : M T A) (Q : A -> S -> Prop) s :
  wp m (fun a t => Q a (lset l t s)) (lget l s) -> wp (lift l m) Q s.
Proof. unfold wp, lift. by destruct (m (lget l s)). Qed.

Lemma bind_assoc {A B C} (m : M S A) (f : A -> M S B) (g : B -> M S C) s :
  ((m ≫= f) ≫= g) s = (m ≫= (fun a => f a ≫= g)) s.
Proof. unfold mbind, M_bind. by destruct (m s). Qed.

Lemma bind_assoc_wp {A B C} (m : M S A) (f : A -> M S B) (g : B -> M S C) Q s :
  wp ((m ≫= f) ≫= g) Q s = wp (m ≫= (fun a => f a ≫= g)) Q s.
Proof. unfold wp. by rewrite bind_assoc. Qed.
End wp.

(** [halts m Q s]: from [s], [m] returns with [Q], or panics; it is not
    blocked. *)
Definition halts {S A} (m : M S A) (Q : A -> S -> Prop) (s : S) : Prop :=
  match m s with Ok a s' => Q a s' | Panic _ _ => True | Blocked _ => False end.

Lemma halts_ret {S A} (a : A) (Q : A -> S -> Prop) s : Q a s -> halts (mret a) Q s.
Proof. done. Qed.
Lemma halts_panic {S A} msg (Q : A -> S -> Prop) s : halts (panic msg) Q s.
Proof. done. Qed.
Lemma halts_mono {S A} (m : M S A) (Q Q' : A -> S -> Prop) s :
  halts m Q s -> (forall a s', Q a s' -> Q' a s') -> halts m Q' s.
Proof. unfold halts. destruct (m s); naive_solver. Qed.
Lemma halts_seq {S A B} (m : M S A) (k : A -> M S B) Q R s :
  halts m R s -> (forall a s', R a s' -> halts (k a) Q s') -> halts (m ≫= k) Q s.
Proof. unfold halts, mbind, M_bind. destruct (m s); naive_solver. Qed.
Lemma wp_halts {S A} (m : M S A) Q s : wp m Q s -> halts m Q s.
Proof. unfold wp, halts. by destruct (m s). Qed.
Lemma halts_wp {S A} (m : M S A) Q R s : halts m Q s -> wp m R s -> wp m (fun a s' => Q a s' /\ R a s') s.
Proof. unfold wp, halts. by destruct (m s). Qed.

(** [runs m Q B s]: from [s], [m] returns with [Q], or sleeps with [B]; it
    does not panic. *)
Definition runs {S A} (m : M S A) (Q : A -> S -> Prop) (B : S -> Prop) (s : S) : Prop :=
  match m s with Ok a s' => Q a s' | Panic _ _ => False | Blocked s' => B s' end.

Lemma runs_wp {S A} (m : M S A) Q B s : wp m Q s -> runs m Q B s.
Proof. unfold wp, runs. by destruct (m s). Qed.
Lemma runs_mono {S A} (m : M S A) (Q Q' : A -> S -> Prop) (B B' : S -> Prop) s :
  runs m Q B s -> (forall a s', Q a s' -> Q' a s') -> (forall s', B s' -> B' s') -> runs m Q' B' s.
Proof. unfold runs. destruct (m s); naive_solver. Qed.
Lemma runs_seq {S A T} (m : M S A) (k : A -> M S T) Q R B s :
  runs m R B s -> (forall a s', R a s' -> runs (k a) Q B s') -> runs (m ≫= k) Q B s.
Proof. unfold runs, mbind, M_bind. destruct (m s); naive_solver. Qed.
Lemma runs_call {S A T} (m : M S A) (k : A -> M S T) Q R B s :
  wp m R s -> (forall a s', R a s' -> runs (k a) Q B s') -> runs (m ≫= k) Q B s.
Proof. intros Hm. apply runs_seq. by apply runs_wp. Qed.

Lemma runs_gets {S A T} (f : S -> A) (k : A -> M S T) Q B s : runs (k (f s)) Q B s -> runs (gets f ≫= k) Q B s.
Proof. done. Qed.
Lemma runs_lift {S T A} (l : lens S T) (m : M T A) (Q : A -> S -> Prop) (B : S -> Prop) s :
  runs m (fun a t => Q a (lset l t s)) (fun t => B (lset l t s)) (lget l s) -> runs (lift l m) Q B s.
Proof. unfold runs, lift. by destruct (m (lget l s)). Qed.

(** From [s], [m] stops the machine with the message [msg]. *)
Definition panics {S A} (msg : string) (m : M S A) (s : S) : Prop :=
  exists s', m s = Panic msg s'.

Lemma panics_bind {S A B} msg (m : M S A) (k : A -> M S B) R s :
  wp m R s -> (forall a s', R a s' -> panics msg (k a) s') -> panics msg (m ≫= k) s.
Proof.
  unfold wp, panics, mbind, M_bind. intros Hm Hk. destruct (m s) as [a s'| |]; [|done|done].
  by apply Hk.
Qed.
Lemma panics_now {S A} msg (s : S) : panics msg (panic msg : M S A) s.
Proof. by eexists. Qed.
Lemma panics_first {S A B} msg (m : M S A) (k : A -> M S B) s :
  panics msg m s -> panics msg (m ≫= k) s.
Proof. intros [s' E]. exists s'. unfold mbind, M_bind. by rewrite E. Qed.
Lemma panics_lift {S T A} (l : lens S T) msg (m : M T A) s :
  panics msg m (lget l s) -> panics msg (lift l m) s.
Proof. intros [t E]. unfold panics, lift. rewrite E. by eexists. Qed.

(** [wp_step] runs the routine up to its next call that needs a
    specification. *)
Ltac wp_step :=
  lazymatch goal with
  | |- wp (mret _) _ _ => apply wp_ret
  | |- wp (gets _) _ _ => apply wp_gets
  | |- wp get _ _ => apply wp_get
  | |- wp (modify _) _ _ => apply wp_modify
  | |- wp (mret _ ≫= _) _ _ => apply wp_bind
  | |- wp (gets _ ≫= _) _ _ => apply wp_bind
  | |- wp (get ≫= _) _ _ => apply wp_bind
  | |- wp (modify _ ≫= _) _ _ => apply wp_bind
  | |- wp ((_ ≫= _) ≫= _) _ _ => apply wp_bind
  | |- wp ((if _ then _ else _) ≫= _) _ _ => apply wp_bind
  | |- wp (if ?b then _ else _) _ _ => destruct b eqn:?
  | |- wp (let _ := _ in _) _ _ => cbv zeta
  end.
Ltac wp_steps := repeat wp_step.
(** [wp_call H]: use the specification [H] of the routine called next. *)
Tactic Notation "wp_call" uconstr(H) :=
  lazymatch goal with
  | |- wp (_ ≫= _) _ _ => eapply wp_seq; [eapply H | cbv beta]
  | |- wp _ _ _ => eapply wp_mono; [eapply H | cbv beta]
  end.

(** ** Bytes and little-endian words *)

Definition bytes_ok (l : list Z) : Prop := Forall is_u8 l.

Fixpoint le_bytes (n : nat) (z : Z) : list Z :=
  match n with
  | O => []
  | S n => z mod 256 :: le_bytes n (z / 256)
  end.

Fixpoint le_val (l : list Z) : Z :=
  match l with
  | [] => 0
  | b :: l => b + 256 * le_val l
  end.

Lemma length_le_bytes n z : length (le_bytes n z) = n.
Proof. revert z; induction n; intros; simpl; auto. Qed.

Lemma le_bytes_ok n z : bytes_ok (le_bytes n z).
Proof.
  revert z; induction n; intros; simpl; constructor; [zlia|apply IHn].
Qed.

Lemma le_val_le_bytes n z : le_val (le_bytes n z) = z mod 256 ^ Z.of_nat n.
Proof.
  revert z; induction n as [|n IH]; intros z; simpl le_val.
  - by rewrite Z.mod_1_r.
  - rewrite IH, Nat2Z.inj_succ, Z.pow_succ_r by lia.
    rewrite Z.rem_mul_r by lia. lia.
Qed.

Lemma le_bytes_le_val l : bytes_ok l -> le_bytes (length l) (le_val l) = l.
Proof.
  induction 1 as [|b l Hb _ IH]; [done|]; simpl.
  replace ((b + 256 * le_val l) / 256) with (le_val l) by zlia.
  rewrite IH. f_equal. zlia.
Qed.

Lemma le_val_range l : bytes_ok l -> 0 <= le_val l < 256 ^ Z.of_nat (length l).
Proof.
  induction 1 as [|b l Hb _ IH]; simpl le_val; [done|].
  rewrite length_cons, Nat2Z.inj_succ, Z.pow_succ_r by lia. unfold is_u8 in *. lia.
Qed.

(** The bytes of a string literal. *)
Definition chars (s : string) : list Z := (fun a => Z.of_N (Ascii.N_of_ascii a)) <$> String.list_ascii_of_string s.

(** ** Overwriting a part of a list

    [splice off d l] is [l] with the [length d] elements from [off] replaced
    by [d]: a [memmove] into the middle of an array. *)

Definition splice {A} (off : nat) (d l : list A) : list A :=
  take off l ++ d ++ drop (off + length d) l.

Definition slice {A} (off n : nat) (l : list A) : list A := take n (drop off l).

Section splice.
Context {A : Type}.
Implicit Types (l d : list A).

Lemma length_splice off d l :
  (off + length d <= length l)%nat -> length (splice off d l) = length l.
Proof. intros. unfold splice. rewrite !length_app, length_take, length_drop. lia. Qed.

Lemma lookup_splice off d l i :
  (off + length d <= length l)%nat ->
  splice off d l !! i =
    if decide (off <= i < off + length d)%nat then d !! (i - off)%nat else l !! i.
Proof.
  intros Hlen. unfold splice. case_decide.
  - rewrite lookup_app_r by (rewrite length_take; lia).
    rewrite lookup_app_l by (rewrite length_take; lia).
    f_equal. rewrite length_take. lia.
  - destruct (decide (i < off)%nat).
    + rewrite lookup_app_l by (rewrite length_take; lia). by apply lookup_take_lt.
    + rewrite lookup_app_r by (rewrite length_take; lia).
      rewrite lookup_app_r by (rewrite length_take; lia).
      rewrite lookup_drop. f_equal. rewrite length_take. lia.
Qed.

Lemma slice_splice_eq off d l :
  (off + length d <= length l)%nat -> slice off (length d) (splice off d l) = d.
Proof.
  intros. unfold slice, splice.
  rewrite drop_app_length' by (rewrite length_take; lia). by apply take_app_length.
Qed.

Lemma slice_splice_ne off d l off' n :
  (off + length d <= length l)%nat ->
  (off' + n <= off \/ off + length d <= off')%nat ->
  slice off' n (splice off d l) = slice off' n l.
Proof.
  intros Hlen Hd. apply list_eq; intros i. unfold slice.
  destruct (decide (i < n)%nat) as [Hi|Hi].
  - rewrite !lookup_take_lt, !lookup_drop, lookup_splice by lia.
    by rewrite decide_False by lia.
  - by rewrite !lookup_take_ge by lia.
Qed.

Lemma length_slice off n l :
  (off + n <= length l)%nat -> length (slice off n l) = n.
Proof. intros. unfold slice. rewrite length_take, length_drop. lia. Qed.

Lemma Forall_splice (P : A -> Prop) off d l :
  Forall P d -> Forall P l -> Forall P (splice off d l).
Proof.
  intros. unfold splice. rewrite !Forall_app. eauto using Forall_take, Forall_drop.
Qed.

Lemma Forall_slice (P : A -> Prop) off n l : Forall P l -> Forall P (slice off n l).
Proof. intros. unfold slice. eauto using Forall_take, Forall_drop. Qed.
End splice.

Lemma prefix_app_cases {A} (p l1 l2 : list A) :
  p `prefix_of` l1 ++ l2 ->
  p `prefix_of` l1 \/ exists q, p = l1 ++ q /\ q `prefix_of` l2.
Proof.
  revert p. induction l1 as [|x l1 IH]; intros p Hp; simpl in *; [by right; exists p|].
  destruct p as [|y p]; [left; apply prefix_nil|].
  pose proof (prefix_cons_inv_1 _ _ _ _ Hp) as ->. apply prefix_cons_inv_2 in Hp.
  apply IH in Hp as [Hp|(q & -> & Hq)]; [left; by apply prefix_cons|right; by exists q].
Qed.

#[export] Hint Resolve Forall_splice Forall_slice le_bytes_ok : word.

Lemma size_insert_le `{Countable A} (n : A) (L : gset A) :
  (base.size ({[n]} ∪ L) <= S (base.size L))%nat.
Proof.
  rewrite size_union_alt, size_singleton.
  assert (base.size (L ∖ {[n]}) <= base.size L)%nat by (apply subseteq_size; set_solver). lia.
Qed.

(** ** Byte memory

    Kernel and user memory is a total map from addresses to bytes.  Two
    memories are the same when they agree at every address. *)

Definition mem := Z -> Z.

Definition mem_eq (m1 m2 : mem) : Prop := forall a, m1 a = m2 a.
#[global] Instance mem_eq_equiv : Equivalence mem_eq.
Proof.
  split; unfold mem_eq; [done|by intros ??|]. intros ??? H1 H2 a. by rewrite H1.
Qed.

Definition upd (m : mem) (a v : Z) : mem := fun x => if x =? a then v else m x.

(** [fill m a v n]: the [n] bytes from [a] hold [v] ([rep stosb]). *)
Definition fill (m : mem) (a v n : Z) : mem :=
  fun x => if (a <=? x) && (x <? a + n) then v else m x.

Fixpoint store (m : mem) (a : Z) (l : list Z) : mem :=
  match l with
  | [] => m
  | b :: l => store (upd m a b) (a + 1) l
  end.

Fixpoint loadn (m : mem) (a : Z) (n : nat) : list Z :=
  match n with
  | O => []
  | S n => m a :: loadn m (a + 1) n
  end.

Definition load32 (m : mem) (a : Z) : Z := le_val (loadn m a 4).
Definition store32 (m : mem) (a v : Z) : mem := store m a (le_bytes 4 v).

#[global] Instance upd_proper : Proper (mem_eq ==> eq ==> eq ==> mem_eq) upd.
Proof. intros m m' H a ? <- v ? <- x. unfold upd. by rewrite H. Qed.

#[global] Instance store_proper : Proper (mem_eq ==> eq ==> eq ==> mem_eq) store.
Proof.
  intros m m' H a ? <- l ? <-. revert a m m' H.
  induction l; intros; simpl; [done|]. apply IHl. by rewrite H.
Qed.

Lemma upd_eq m a v : upd m a v a = v.
Proof. unfold upd. by rewrite Z.eqb_refl. Qed.
Lemma upd_ne m a v x : x <> a -> upd m a v x = m x.
Proof. unfold upd. intros. by rewrite (proj2 (Z.eqb_neq x a)). Qed.

Lemma store_lookup l : forall m a x,
  store m a l x =
    if decide (a <= x < a + Z.of_nat (length l))
    then default 0 (l !! Z.to_nat (x - a)) else m x.
Proof.
  induction l as [|b l IH]; intros m a x; simpl.
  - by rewrite decide_False by lia.
  - rewrite IH. destruct (decide (x = a)) as [->|].
    + rewrite decide_False, decide_True by lia. by rewrite Z.sub_diag, upd_eq.
    + repeat case_decide; try lia; [|by rewrite upd_ne].
      replace (Z.to_nat (x - a)) with (S (Z.to_nat (x - (a + 1)))) by lia. done.
Qed.

Lemma length_loadn m a n : length (loadn m a n) = n.
Proof. revert a; induction n; intros; simpl; auto. Qed.

Lemma lookup_loadn m n : forall a i, (i < n)%nat -> loadn m a n !! i = Some (m (a + Z.of_nat i)).
Proof.
  induction n as [|n IH]; intros a [|i] Hi; simpl; try lia.
  - f_equal. f_equal. lia.
  - rewrite IH by lia. f_equal. f_equal. lia.
Qed.

Lemma loadn_ext m m' a n :
  (forall x, a <= x < a + Z.of_nat n -> m x = m' x) -> loadn m a n = loadn m' a n.
Proof.
  intros H. apply list_eq_same_length with n; [by rewrite length_loadn..|].
  intros i x y Hi. rewrite !lookup_loadn by done. intros [= <-] [= <-]. apply H. lia.
Qed.

Lemma loadn_store m a l : loadn (store m a l) a (length l) = l.
Proof.
  apply list_eq_same_length with (length l); [done|by rewrite length_loadn|].
  intros i x y Hi Hm Hl. rewrite lookup_loadn in Hm by done. injection Hm as <-.
  rewrite store_lookup, decide_True by lia.
  replace (Z.to_nat _) with i by lia. by rewrite Hl.
Qed.

Lemma load32_store32 m a v : load32 (store32 m a v) a = u32 v.
Proof.
  unfold load32, store32.
  change 4%nat with (length (le_bytes 4 v)) at 1.
  by rewrite loadn_store, le_val_le_bytes.
Qed.

Lemma load32_store32_ne m a v a' :
  a' + 4 <= a \/ a + 4 <= a' -> load32 (store32 m a v) a' = load32 m a'.
Proof.
  intros. unfold load32, store32. f_equal. apply loadn_ext. intros x Hx.
  rewrite store_lookup, decide_False; [done|]. rewrite length_le_bytes. lia.
Qed.

Lemma store32_other m a v b : b < a \/ a + 4 <= b -> store32 m a v b = m b.
Proof. intros Hb. unfold store32. rewrite store_lookup, length_le_bytes. by rewrite decide_False by lia. Qed.

Lemma load32_ext m m' a :
  (forall x, a <= x < a + 4 -> m x = m' x) -> load32 m a = load32 m' a.
Proof. intros. unfold load32. f_equal. by apply loadn_ext. Qed.

(** Bounded quantifiers by evaluation. *)
Lemma forall_range (P : Z -> bool) a n : forallb P (seqZ a n) = true -> forall k, a <= k < a + n -> P k = true.
Proof.
  intros H k Hk. apply (proj1 (forallb_forall _ _) H). apply list_elem_of_In, elem_of_seqZ. done.
Qed.
