(* ===== verification/Params.v ===== *)
(** Constants of the headers that several parts of the kernel share:
    memlayout.h, traps.h, param.h and the magic number of elf.h. *)

From S2P Require Import Prelude.

(** memlayout.h *)
Definition KERNBASE : Z := 0x80000000.
Definition v2p (a : Z) : Z := u32 (a - KERNBASE).
Definition p2v (a : Z) : Z := u32 (a + KERNBASE).

(** traps.h *)
Definition T_SYSCALL : Z := 64.
Definition T_IRQ0 : Z := 32.
Definition IRQ_TIMER : Z := 0.
Definition IRQ_KBD : Z := 1.
Definition IRQ_COM1 : Z := 4.
Definition IRQ_IDE : Z := 14.
Definition IRQ_ERROR : Z := 19.
Definition IRQ_SPURIOUS : Z := 31.

(** fs.h, stat.h *)
Definition DIRSIZ : nat := 14.
Definition T_DIR : Z := 1.
Definition T_FILE : Z := 2.
Definition T_DEV : Z := 3.

(** fcntl.h *)
Definition O_RDONLY : Z := 0.
Definition O_WRONLY : Z := 1.
Definition O_RDWR : Z := 2.
Definition O_CREATE : Z := 0x200.

(** mmu.h *)
Definition SEG_KCODE : Z := 1.
Definition SEG_KDATA : Z := 2.
Definition SEG_KCPU : Z := 3.
Definition SEG_UCODE : Z := 4.
Definition SEG_UDATA : Z := 5.
Definition SEG_TSS : Z := 6.
Definition DPL_USER : Z := 3.
Definition FL_IF : Z := 0x200.

(** param.h *)
Definition KSTACKSIZE : Z := 4096.
Definition FSSIZE : Z := 1000.
Definition NCPU : Z := 8.

(** elf.h: "\x7FELF" in little endian *)
Definition ELF_MAGIC : Z := 0x464C457F.
