(* ===== verification/Ring.v ===== *)
(** * Circular doubly linked lists

    The LRU list of the buffer cache is threaded through the [prev] and
    [next] fields of the buffers and closed by a head node.  [links nx pv x l
    y] says that following [nx] from [x] visits [l] and then reaches [y], and
    [pv] leads back.  The lemmas below justify the pointer updates of
    bio.c: unlinking a node, inserting one after the head, and walking the
    list in either direction. *)

From S2P Require Import Prelude Params.

Fixpoint links (nx pv : nat -> nat) (x : nat) (l : list nat) (y : nat) : Prop :=
  match l with
  | [] => nx x = y /\ pv y = x
  | z :: l => nx x = z /\ pv z = x /\ links nx pv z l y
  end.

Lemma links_ext nx pv nx' pv' l : forall x y,
  (forall i, i ∈ x :: l -> nx' i = nx i) ->
  (forall i, i ∈ l ++ [y] -> pv' i = pv i) ->
  links nx pv x l y -> links nx' pv' x l y.
Proof.
  induction l as [|z l IH]; intros x y Hn Hp; simpl.
  - intros [Hx Hy]. rewrite Hn, Hp by set_solver. done.
  - intros (Hx & Hz & Hl). rewrite Hn, Hp by set_solver. split_and!; [done..|].
    apply IH; [set_solver..|done].
Qed.

Lemma links_app nx pv z l2 y l1 : forall x,
  links nx pv x (l1 ++ z :: l2) y <-> links nx pv x l1 z /\ links nx pv z l2 y.
Proof. induction l1 as [|a l1 IH]; intros x; simpl; [tauto|]. rewrite IH. tauto. Qed.

Lemma links_pv_in nx pv l : forall x y, links nx pv x l y -> pv y ∈ x :: l.
Proof.
  induction l as [|z l IH]; simpl; intros x y H; [set_solver|].
  destruct H as (_ & _ & H%IH). set_solver.
Qed.

Lemma links_nx_in nx pv l x y : links nx pv x l y -> nx x ∈ l ++ [y].
Proof. destruct l; simpl; intros H; set_solver. Qed.

(** [b->next->prev = b->prev; b->prev->next = b->next]. *)
Lemma links_unlink nx pv b l2 y l1 : forall x,
  links nx pv x (l1 ++ b :: l2) y -> NoDup (x :: l1 ++ b :: l2) -> y ∉ l1 ++ b :: l2 ->
  links (<[pv b := nx b]> nx) (<[nx b := pv b]> pv) x (l1 ++ l2) y.
Proof.
  induction l1 as [|a l1 IH]; intros x Hl Hnd Hy; simpl in *.
  - destruct Hl as (Hx & Hb & Hl). rewrite Hb.
    destruct l2 as [|z l2]; simpl in *.
    + destruct Hl as [-> _]. by rewrite !fn_lookup_insert.
    + destruct Hl as (-> & Hz & Hl). rewrite !fn_lookup_insert. split_and!; [done..|].
      apply NoDup_cons in Hnd as [Hx' Hnd]. rewrite !NoDup_cons in Hnd.
      eapply links_ext; [..|exact Hl]; intros i Hi; apply fn_lookup_insert_ne; set_solver.
  - destruct Hl as (Hx & Ha & Hl). apply NoDup_cons in Hnd as [Hx' Hnd].
    pose proof Hl as Hl'. apply links_app in Hl' as [H1%links_pv_in H2%links_nx_in].
    apply NoDup_cons in Hnd as Hnd'. destruct Hnd' as [Ha' _].
    assert (pv b <> x) by (intros <-; apply Hx'; set_solver).
    assert (nx b <> a) by (intros <-; set_solver).
    rewrite !fn_lookup_insert_ne by done.
    split_and!; [done..|]. apply IH; [done..|set_solver].
Qed.

(** [b->next = head.next; b->prev = &head; head.next->prev = b; head.next = b]. *)
Lemma links_insert nx pv h l b :
  links nx pv h l h -> b ∉ h :: l -> NoDup (h :: l) ->
  links (<[h := b]> (<[b := nx h]> nx)) (<[nx h := b]> (<[b := h]> pv)) h (b :: l) h.
Proof.
  intros Hl Hb Hnd. apply not_elem_of_cons in Hb as [Hbh Hb]. simpl.
  rewrite fn_lookup_insert. split; [done|].
  assert (Hnx : nx h <> b) by (apply links_nx_in in Hl; set_solver).
  rewrite fn_lookup_insert_ne, fn_lookup_insert by done. split; [done|].
  apply NoDup_cons in Hnd as [Hh Hnd].
  destruct l as [|z l]; simpl in *.
  - destruct Hl as [-> _].
    by rewrite fn_lookup_insert_ne, !fn_lookup_insert by done.
  - destruct Hl as (-> & Hz & Hl).
    rewrite fn_lookup_insert_ne, !fn_lookup_insert by done. split_and!; [done..|].
    rewrite NoDup_cons in Hnd.
    eapply links_ext; [..|exact Hl]; intros i Hi;
      rewrite !fn_lookup_insert_ne by set_solver; done.
Qed.

(** ** Walking the list

    [for(b = head.next; b != &head; b = b->next) if(P b) return b]. *)
Fixpoint walk (fuel : nat) (nx : nat -> nat) (h b : nat) (P : nat -> bool) : option nat :=
  match fuel with
  | O => None
  | S fuel =>
      if decide (b = h) then None
      else if P b then Some b else walk fuel nx h (nx b) P
  end.

#[global] Arguments walk : simpl never.

Definition find_first (P : nat -> bool) (l : list nat) : option nat :=
  snd <$> list_find (fun i => P i = true) l.

Lemma find_first_cons P a l :
  find_first P (a :: l) = if P a then Some a else find_first P l.
Proof.
  unfold find_first. simpl. destruct (decide (P a = true)) as [->|HP]; [done|].
  apply not_true_is_false in HP as ->. by destruct (list_find _ l) as [[]|].
Qed.

Lemma find_first_Some P l i : find_first P l = Some i -> i ∈ l /\ P i = true.
Proof.
  unfold find_first. intros ([j x] & Hf & ->)%fmap_Some.
  apply list_find_Some in Hf as (Hl & HP & _). simpl. eauto using list_elem_of_lookup_2.
Qed.

Lemma find_first_None P l : find_first P l = None -> forall i, i ∈ l -> P i = false.
Proof.
  unfold find_first. intros Hf i Hi. apply fmap_None, list_find_None in Hf.
  rewrite Forall_forall in Hf. apply not_true_is_false, Hf, Hi.
Qed.

Lemma walk_next nx pv h P l : forall x fuel,
  links nx pv x l h -> h ∉ l -> (length l < fuel)%nat ->
  walk fuel nx h (nx x) P = find_first P l.
Proof.
  induction l as [|a l IH]; intros x fuel Hl Hh Hf; (destruct fuel as [|fuel]; [simpl in *; lia|]).
  - destruct Hl as [-> _]. unfold walk. by rewrite decide_True.
  - destruct Hl as (-> & _ & Hl). unfold walk; fold walk. rewrite find_first_cons.
    rewrite decide_False by set_solver. destruct (P a); [done|].
    apply IH; [done|set_solver|simpl in *; lia].
Qed.

Lemma walk_prev nx pv h P l : forall y fuel,
  links nx pv h l y -> h ∉ l -> (length l < fuel)%nat ->
  walk fuel pv h (pv y) P = find_first P (reverse l).
Proof.
  induction l as [|a l IH] using rev_ind; intros y fuel Hl Hh Hf;
    (destruct fuel as [|fuel]; [simpl in *; lia|]).
  - destruct Hl as [_ ->]. unfold walk. by rewrite decide_True.
  - apply links_app in Hl as [Hl (_ & Hy)]. rewrite Hy, reverse_snoc, find_first_cons.
    unfold walk; fold walk. rewrite decide_False by set_solver. destruct (P a); [done|].
    rewrite length_app in Hf. apply IH; [done|set_solver|simpl in *; lia].
Qed.
