(* ===== verification/Spinlock.v ===== *)
(** * Spinlocks (spinlock.c, spinlock.h)

    [pushcli]/[popcli] nesting, [acquire], [release], [holding] and
    [getcallerpcs].  The first part is the code as run by one processor and
    is what the rest of the kernel model calls.  The second part is the
    machine with several processors: each processor advances through the
    individual memory accesses of [acquire] and [release], interleaved
    arbitrarily, and mutual exclusion is proved of every reachable state. *)

From S2P Require Import Prelude Params.

(** Every lock of the kernel.  A lock embedded in an allocated object carries
    the address of the object. *)
Inductive lockid :=
| Lptable | Lkmem | Lbcache | Lide | Llog | Licache | Lftable | Ltime
| Lcons | Linput
| Lpipe (p : Z).

#[global] Instance lockid_eq_dec : EqDecision lockid.
Proof. solve_decision. Defined.

(** ** Data *)

(** The part of [struct cpu] the lock code uses, with the interrupt-enable
    bit of [eflags]. *)
Record cpu := Cpu { ncli : Z; intena : bool; fl_if : bool }.

(** [struct spinlock]; [lk_cpu] is the holder, [None] for a null pointer. *)
Record spinlock := Spinlock {
  locked : Z; lk_name : string; lk_cpu : option nat; lk_pcs : list Z }.

(** ** Operations on one processor's registers and on one lock *)

Definition initlock (name : string) (lk : spinlock) : spinlock :=
  Spinlock 0 name None (lk_pcs lk).

Definition pushcli (c : cpu) : cpu :=
  let eflags := fl_if c in
  Cpu (s32 (ncli c + 1)) (if ncli c =? 0 then eflags else intena c) false.

Definition popcli (c : cpu) : string + cpu :=
  if fl_if c then inl "popcli - interruptible"%string
  else
    let n := s32 (ncli c - 1) in
    if n <? 0 then inl "popcli"%string
    else inr (Cpu n (intena c) ((n =? 0) && intena c)).

Definition holding (me : nat) (lk : spinlock) : bool :=
  negb (locked lk =? 0) && bool_decide (lk_cpu lk = Some me).

(** [xchg(&lk->locked, v)]: the old value and the updated lock. *)
Definition xchg (lk : spinlock) (v : Z) : Z * spinlock :=
  (locked lk, Spinlock v (lk_name lk) (lk_cpu lk) (lk_pcs lk)).

Definition set_cpu (o : option nat) (lk : spinlock) : spinlock :=
  Spinlock (locked lk) (lk_name lk) o (lk_pcs lk).
Definition set_pcs (l : list Z) (lk : spinlock) : spinlock :=
  Spinlock (locked lk) (lk_name lk) (lk_cpu lk) l.

(** The walk along the saved frame pointers; [fuel] entries remain. *)
Fixpoint getcallerpcs_loop (m : mem) (fuel : nat) (ebp : Z) : list Z :=
  match fuel with
  | O => []
  | S fuel =>
      if (ebp =? 0) || (ebp <? KERNBASE) || (ebp =? 0xffffffff)
      then replicate (S fuel) 0
      else load32 m (u32 (ebp + 4)) :: getcallerpcs_loop m fuel (load32 m ebp)
  end.
Definition getcallerpcs (m : mem) (v : Z) : list Z :=
  getcallerpcs_loop m 10 (u32 (v - 8)).

(** ** The locks as one processor sees them

    [argp] is the address of [acquire]'s argument in its stack frame and
    [stk] the memory the frame-pointer chain is read from. *)
Record machine := Machine {
  me : nat;
  mcpu : cpu;
  locks : lockid -> spinlock;
  stk : mem;
  argp : Z }.

Definition set_mcpu (c : cpu) (s : machine) : machine :=
  Machine (me s) c (locks s) (stk s) (argp s).
Definition upd_lock (l : lockid) (lk : spinlock) (s : machine) : machine :=
  Machine (me s) (mcpu s) (fun l' => if decide (l' = l) then lk else locks s l')
    (stk s) (argp s).

(** The spin loop does not end while another processor holds the lock: the
    caller makes no progress, which the model reports as [Blocked]. *)
Definition acquire (l : lockid) : M machine unit :=
  modify (fun s => set_mcpu (pushcli (mcpu s)) s) ;;
  s ← get;
  if holding (me s) (locks s l) then panic "acquire"
  else
    let (old, lk) := xchg (locks s l) 1 in
    if old =? 0 then
      let lk := set_cpu (Some (me s)) lk in
      let lk := set_pcs (getcallerpcs (stk s) (argp s)) lk in
      modify (upd_lock l lk)
    else blocked.

Definition release (l : lockid) : M machine unit :=
  s ← get;
  if negb (holding (me s) (locks s l)) then panic "release"
  else
    let lk := set_pcs (<[0%nat := 0]> (lk_pcs (locks s l))) (locks s l) in
    let lk := set_cpu None lk in
    let (_, lk) := xchg lk 0 in
    modify (upd_lock l lk) ;;
    match popcli (mcpu s) with
    | inl msg => panic msg
    | inr c => modify (set_mcpu c)
    end.

(** ** The lock discipline

    [lockstate ie L s]: exactly the locks of [L] are held, by this processor;
    interrupts were enabled ([ie]) before the first of them was taken. *)
Definition lock_free (lk : spinlock) : Prop := locked lk = 0 /\ lk_cpu lk = None.
Definition lock_mine (me : nat) (lk : spinlock) : Prop :=
  locked lk = 1 /\ lk_cpu lk = Some me.

Record lockstate (ie : bool) (L : list lockid) (s : machine) : Prop := {
  ls_nodup : NoDup L;
  ls_mine : forall l, l ∈ L -> lock_mine (me s) (locks s l);
  ls_free : forall l, l ∉ L -> lock_free (locks s l);
  ls_ncli : ncli (mcpu s) = Z.of_nat (length L);
  ls_if : fl_if (mcpu s) = match L with [] => ie | _ => false end;
  ls_intena : L <> [] -> intena (mcpu s) = ie;
  ls_small : Z.of_nat (length L) < 2147483647 }.

(** A processor with interrupts on and every lock free. *)
Definition boot_machine : machine :=
  Machine 0 (Cpu 0 false true) (fun _ => Spinlock 0 EmptyString None []) (fun _ => 0) 0.

Lemma boot_lockstate : lockstate true [] boot_machine.
Proof. split; try done; [constructor|]. by intros l Hl%elem_of_nil. Qed.

Lemma locks_upd_eq l lk s : locks (upd_lock l lk s) l = lk.
Proof. simpl. by rewrite decide_True. Qed.
Lemma locks_upd_ne l lk s l' : l' <> l -> locks (upd_lock l lk s) l' = locks s l'.
Proof. intros. simpl. by rewrite decide_False. Qed.

Lemma holding_mine me lk : lock_mine me lk -> holding me lk = true.
Proof. intros [H1 H2]. unfold holding. by rewrite H1, H2, bool_decide_eq_true_2. Qed.
Lemma holding_free me lk : lock_free lk -> holding me lk = false.
Proof. intros [H1 _]. unfold holding. by rewrite H1. Qed.

(** The locks held determine the rest of the processor's lock state. *)
Lemma lockstate_unique ie L ie' L' m : lockstate ie L m -> lockstate ie' L' m -> L ≡ₚ L' /\ ie' = ie.
Proof.
  intros H1 H2. assert (Hp : L ≡ₚ L').
  { assert (Hsub : forall i1 i2 K1 K2, lockstate i1 K1 m -> lockstate i2 K2 m -> forall l, l ∈ K1 -> l ∈ K2).
    { intros i1 i2 K1 K2 A B l Hl. destruct (decide (l ∈ K2)) as [|Hn]; [done|]. exfalso.
      destruct (ls_mine _ _ _ A l Hl) as [E _], (ls_free _ _ _ B l Hn) as [E' _]. lia. }
    apply NoDup_Permutation; [apply H1|apply H2|]. split; by eapply Hsub. }
  split; [done|]. destruct L as [|l L].
  - apply Permutation_nil_l in Hp as <-. pose proof (ls_if _ _ _ H1). pose proof (ls_if _ _ _ H2). simpl in *. congruence.
  - rewrite <- (ls_intena _ _ _ H1) by done. symmetry. apply (ls_intena _ _ _ H2). intros ->. by apply Permutation_nil_r in Hp.
Qed.

Lemma lockstate_perm ie L L' m : L ≡ₚ L' -> lockstate ie L m -> lockstate ie L' m.
Proof.
  intros Hp [Hnd Hm Hf Hn Hif Hin Hs]. split; rewrite <- ?Hp; try done.
  - intros l Hl. apply Hm. by rewrite Hp.
  - intros l Hl. apply Hf. by rewrite Hp.
  - rewrite Hif. destruct L, L'; try done; [by apply Permutation_nil_l in Hp|by apply Permutation_nil_r in Hp].
  - intros Hne. apply Hin. intros ->. by apply Permutation_nil_l in Hp.
Qed.
Lemma lockstate_initlock ie L l name s :
  lockstate ie L s -> l ∉ L -> lockstate ie L (upd_lock l (initlock name (locks s l)) s).
Proof.
  intros [] Hl. split; try done.
  - intros l' Hl'. rewrite locks_upd_ne by congruence. auto.
  - intros l' Hl'. destruct (decide (l' = l)) as [->|]; [by rewrite locks_upd_eq|].
    rewrite locks_upd_ne by done. auto.
Qed.

(** Frame of the lock operations: everything but locks and [mcpu]. *)
Definition same_cpu (s s' : machine) : Prop :=
  me s' = me s /\ stk s' = stk s /\ argp s' = argp s.

(** Taking a free lock succeeds and adds it to the held ones. *)
Lemma wp_spin_acquire ie L l s :
  lockstate ie L s -> l ∉ L -> Z.of_nat (length L) + 1 < 2147483647 ->
  wp (acquire l) (fun _ s' => lockstate ie (l :: L) s' /\ same_cpu s s') s.
Proof.
  intros [Hnd Hm Hf Hn Hif Hie Hsm] Hl Hlen. unfold acquire. wp_steps; simpl in *.
  { rewrite (holding_free _ _ (Hf l Hl)) in *. done. }
  destruct (Hf l Hl) as [-> Hc]. simpl. wp_steps. split; [|done].
  split; simpl.
  - by constructor.
  - intros l' Hin. destruct (decide (l' = l)) as [->|]; [done|].
    apply Hm. set_solver.
  - intros l' Hin. rewrite decide_False by set_solver. apply Hf. set_solver.
  - rewrite Hn, s32_small; zlia.
  - done.
  - intros _. rewrite Hn. destruct L as [|x L']; simpl; [done|by apply Hie].
  - lia.
Qed.

(** Releasing a held lock succeeds; when it was the last one, the interrupt
    flag is what it was before the first [acquire]. *)
Lemma wp_spin_release ie L1 L2 l s :
  lockstate ie (L1 ++ l :: L2) s ->
  wp (release l) (fun _ s' => lockstate ie (L1 ++ L2) s' /\ same_cpu s s') s.
Proof.
  intros [Hnd Hm Hf Hn Hif Hie Hsm].
  assert (Hl : l ∈ L1 ++ l :: L2) by set_solver.
  unfold release. wp_steps; rewrite (holding_mine _ _ (Hm l Hl)) in *; try done.
  unfold popcli. rewrite Hif. rewrite length_app in *; simpl in *.
  replace (match L1 ++ l :: L2 with [] => ie | _ => false end) with false
    by by destruct L1.
  rewrite Hn, s32_small by zlia.
  destruct (_ <? 0) eqn:E; [lia|]. wp_steps. split; [|done].
  assert (Hnd' : NoDup (L1 ++ L2) /\ l ∉ L1 ++ L2).
  { rewrite NoDup_app, NoDup_cons in *. set_solver. }
  destruct Hnd' as [Hnd' Hl'].
  split; simpl.
  - done.
  - intros l' Hin. rewrite decide_False by set_solver. apply Hm. set_solver.
  - intros l' Hin. destruct (decide (l' = l)) as [->|]; [done|]. apply Hf. set_solver.
  - rewrite length_app. lia.
  - rewrite Hie by (by destruct L1).
    destruct (L1 ++ L2) eqn:EL; apply (f_equal length) in EL; rewrite length_app in EL;
      simpl in EL.
    + by replace (_ =? 0) with true by lia.
    + by replace (_ =? 0) with false by lia.
  - intros _. apply Hie. by destruct L1.
  - rewrite length_app. lia.
Qed.

(** ** Several processors

    A processor is between two instructions of [acquire] or [release], or
    outside of them ([Idle]).  Each constructor names the next shared-memory
    access.  [taken] lists the locks whose critical sections the processor is
    in: from the moment [acquire] returns until [release] has exchanged 0
    into the lock word. *)
Module SMP.

Inductive act :=
| Idle
| AcqCheck (l : lockid)   (** [pushcli] done, [holding] not yet evaluated *)
| AcqSpin (l : lockid)    (** at the exchange of the spin loop *)
| AcqMark (l : lockid)    (** exchange returned 0, [lk->cpu] not yet set *)
| RelCheck (l : lockid)   (** entered [release] *)
| RelClear (l : lockid)   (** about to clear [pcs[0]] and [lk->cpu] *)
| RelXchg (l : lockid)    (** about to exchange 0 into the lock word *)
| RelPop (l : lockid)     (** about to call [popcli] *)
| Halted (msg : string).

Record smp := Smp {
  acts : nat -> act; cpus : nat -> cpu; taken : nat -> list lockid;
  lks : lockid -> spinlock }.

Definition fupd {A} (f : nat -> A) (c : nat) (x : A) : nat -> A :=
  fun c' => if decide (c' = c) then x else f c'.
Definition lupd (f : lockid -> spinlock) (l : lockid) (x : spinlock) :=
  fun l' => if decide (l' = l) then x else f l'.

Definition goto (c : nat) (a : act) (s : smp) : smp :=
  Smp (fupd (acts s) c a) (cpus s) (taken s) (lks s).

Definition remove_lock (l : lockid) (L : list lockid) : list lockid :=
  filter (fun l' => l' <> l) L.

(** One memory access of processor [c].  [pcs] is what [getcallerpcs] records. *)
Definition access (c : nat) (pcs : list Z) (s : smp) : option smp :=
  match acts s c with
  | Idle | Halted _ => None
  | AcqCheck l =>
      Some (goto c (if holding c (lks s l) then Halted "acquire" else AcqSpin l) s)
  | AcqSpin l =>
      let (old, lk) := xchg (lks s l) 1 in
      Some (Smp (fupd (acts s) c (if old =? 0 then AcqMark l else AcqSpin l))
              (cpus s) (taken s) (lupd (lks s) l lk))
  | AcqMark l =>
      Some (Smp (fupd (acts s) c Idle) (cpus s) (fupd (taken s) c (l :: taken s c))
              (lupd (lks s) l (set_pcs pcs (set_cpu (Some c) (lks s l)))))
  | RelCheck l =>
      Some (goto c (if negb (holding c (lks s l)) then Halted "release" else RelClear l) s)
  | RelClear l =>
      let lk := set_pcs (<[0%nat := 0]> (lk_pcs (lks s l))) (lks s l) in
      Some (Smp (fupd (acts s) c (RelXchg l)) (cpus s) (taken s)
              (lupd (lks s) l (set_cpu None lk)))
  | RelXchg l =>
      let (_, lk) := xchg (lks s l) 0 in
      Some (Smp (fupd (acts s) c (RelPop l)) (cpus s)
              (fupd (taken s) c (remove_lock l (taken s c))) (lupd (lks s) l lk))
  | RelPop l =>
      match popcli (cpus s c) with
      | inl msg => Some (goto c (Halted msg) s)
      | inr k => Some (Smp (fupd (acts s) c Idle) (fupd (cpus s) c k) (taken s) (lks s))
      end
  end.

(** A processor outside of the lock code may call either function, for any
    lock; a processor inside performs its next access. *)
Inductive step : smp -> smp -> Prop :=
| step_acquire c l s :
    acts s c = Idle ->
    step s (Smp (fupd (acts s) c (AcqCheck l)) (fupd (cpus s) c (pushcli (cpus s c)))
              (taken s) (lks s))
| step_release c l s :
    acts s c = Idle -> step s (goto c (RelCheck l) s)
| step_access c pcs s s' :
    access c pcs s = Some s' -> step s s'.

Definition boot (ie : nat -> bool) (names : lockid -> string) : smp :=
  Smp (fun _ => Idle) (fun c => Cpu 0 false (ie c)) (fun _ => [])
    (fun l => Spinlock 0 (names l) None []).

(** [c] has exchanged 1 into the lock word and not yet 0. *)
Definition owns (s : smp) (c : nat) (l : lockid) : Prop :=
  acts s c = AcqMark l \/ l ∈ taken s c.

Record inv (s : smp) : Prop := {
  i_locked : forall c l, owns s c l -> locked (lks s l) <> 0;
  i_unique : forall c c' l, owns s c l -> owns s c' l -> c = c';
  i_cpu : forall c l, lk_cpu (lks s l) = Some c <->
                      l ∈ taken s c /\ acts s c <> RelXchg l;
  i_rel : forall c l, acts s c = RelClear l \/ acts s c = RelXchg l -> l ∈ taken s c;
  i_mark : forall c l, acts s c = AcqMark l -> l ∉ taken s c }.

Lemma fupd_eq {A} (f : nat -> A) c x : fupd f c x c = x.
Proof. unfold fupd. by rewrite decide_True. Qed.
Lemma fupd_ne {A} (f : nat -> A) c x c' : c' <> c -> fupd f c x c' = f c'.
Proof. intros. unfold fupd. by rewrite decide_False. Qed.
Lemma lupd_eq f l x : lupd f l x l = x.
Proof. unfold lupd. by rewrite decide_True. Qed.
Lemma lupd_ne f l x l' : l' <> l -> lupd f l x l' = f l'.
Proof. intros. unfold lupd. by rewrite decide_False. Qed.

Lemma elem_of_remove_lock l l' L : l' ∈ remove_lock l L <-> l' ∈ L /\ l' <> l.
Proof. unfold remove_lock. rewrite list_elem_of_filter. tauto. Qed.

(** Splits on which processor and which lock an updated map is read at. *)
Ltac split_upd :=
  unfold owns, fupd, lupd in *; simpl in *;
  repeat match goal with
  | H : context [decide (?a = ?b)] |- _ => destruct (decide (a = b)); subst
  | |- context [decide (?a = ?b)] => destruct (decide (a = b)); subst
  end; simpl in *.

(** A step that changes only the program counter of [c], between positions at
    which it holds nothing extra, preserves the invariant. *)
Lemma inv_goto c a s k :
  inv s ->
  (forall l, acts s c <> AcqMark l) -> (forall l, acts s c <> RelXchg l) ->
  (forall l, a <> AcqMark l) -> (forall l, a <> RelXchg l) ->
  (forall l, a = RelClear l -> l ∈ taken s c) ->
  inv (Smp (fupd (acts s) c a) k (taken s) (lks s)).
Proof.
  intros [H1 H2 H3 H4 H5] Hn1 Hn2 Ha1 Ha2 Hcl. split.
  - intros c' l. split_upd; naive_solver.
  - intros c1 c2 l. split_upd; naive_solver.
  - intros c' l. split_upd; naive_solver.
  - intros c' l. split_upd; naive_solver.
  - intros c' l. split_upd; naive_solver.
Qed.

(** The facts an invariant gives about one processor and one lock. *)
Lemma inv_at s c l : inv s ->
  (owns s c l -> locked (lks s l) <> 0) /\
  (lk_cpu (lks s l) = Some c <-> l ∈ taken s c /\ acts s c <> RelXchg l) /\
  (acts s c = RelClear l \/ acts s c = RelXchg l -> l ∈ taken s c) /\
  (acts s c = AcqMark l -> l ∉ taken s c).
Proof. intros [H1 H2 H3 H4 H5]. split_and!; eauto. Qed.

(** Closes the goals about processor [c'] and lock [l'] left by a step of [c]
    on [l], from the invariant's instances at those. *)
Ltac by_inv_at Hi c l c' l' :=
  pose proof (inv_at _ c l Hi); pose proof (inv_at _ c l' Hi);
  pose proof (inv_at _ c' l Hi); pose proof (inv_at _ c' l' Hi); clear Hi;
  destruct (decide (l' = l)) as [->|];
  split_upd; rewrite ?elem_of_cons, ?elem_of_remove_lock in *;
  try done; intuition congruence.

Lemma inv_spin c l s :
  inv s -> acts s c = AcqSpin l ->
  inv (Smp (fupd (acts s) c (if locked (lks s l) =? 0 then AcqMark l else AcqSpin l))
         (cpus s) (taken s) (lupd (lks s) l (snd (xchg (lks s l) 1)))).
Proof.
  intros Hi Hc. pose proof (i_unique _ Hi) as Hu.
  destruct (Z.eqb_spec (locked (lks s l)) 0) as [E|E]; split.
  all: try (intros c' l'; by_inv_at Hi c l c' l').
  all: intros c1 c2 l'; specialize (Hu c1 c2 l'); pose proof (inv_at _ c1 l' Hi);
    by_inv_at Hi c l c2 l'.
Qed.

Lemma inv_mark c l pcs s :
  inv s -> acts s c = AcqMark l ->
  inv (Smp (fupd (acts s) c Idle) (cpus s) (fupd (taken s) c (l :: taken s c))
         (lupd (lks s) l (set_pcs pcs (set_cpu (Some c) (lks s l))))).
Proof.
  intros Hi Hc. pose proof (i_unique _ Hi) as Hu. split.
  2: { intros c1 c2 l'. specialize (Hu c1 c2 l'). by_inv_at Hi c l c2 l'. }
  all: intros c' l'; pose proof (Hu c c' l); by_inv_at Hi c l c' l'.
Qed.

Lemma inv_clear c l lk s :
  inv s -> acts s c = RelClear l -> locked lk = locked (lks s l) ->
  inv (Smp (fupd (acts s) c (RelXchg l)) (cpus s) (taken s)
         (lupd (lks s) l (set_cpu None lk))).
Proof.
  intros Hi Hc Hlk. pose proof (i_unique _ Hi) as Hu. split.
  2: { intros c1 c2 l'. specialize (Hu c1 c2 l'). by_inv_at Hi c l c2 l'. }
  all: intros c' l'; pose proof (Hu c c' l); by_inv_at Hi c l c' l'.
Qed.

Lemma inv_relxchg c l s :
  inv s -> acts s c = RelXchg l ->
  inv (Smp (fupd (acts s) c (RelPop l)) (cpus s)
         (fupd (taken s) c (remove_lock l (taken s c)))
         (lupd (lks s) l (snd (xchg (lks s l) 0)))).
Proof.
  intros Hi Hc. pose proof (i_unique _ Hi) as Hu. split.
  2: { intros c1 c2 l'. specialize (Hu c1 c2 l'). by_inv_at Hi c l c2 l'. }
  all: intros c' l'; pose proof (Hu c c' l); by_inv_at Hi c l c' l'.
Qed.

Lemma holding_taken s c l :
  inv s -> holding c (lks s l) = true <-> l ∈ taken s c /\ acts s c <> RelXchg l.
Proof.
  intros [H1 H2 H3 H4 H5]. unfold holding.
  rewrite andb_true_iff, bool_decide_eq_true, H3, negb_true_iff, Z.eqb_neq.
  split; [tauto|]. intros [Ht Ha]. split; [|done]. apply (H1 c). by right.
Qed.

Lemma inv_boot ie names : inv (boot ie names).
Proof. split; unfold owns; simpl; set_solver. Qed.

Lemma inv_access c pcs s s' : inv s -> access c pcs s = Some s' -> inv s'.
Proof.
  intros Hi. unfold access. destruct (acts s c) eqn:Ha; intros Hs; simplify_eq/=.
  - destruct (holding c (lks s l)); apply inv_goto; try done; intros; congruence.
  - by apply inv_spin.
  - by apply inv_mark.
  - destruct (holding c (lks s l)) eqn:Hh; simpl; apply inv_goto; try done; try (intros; congruence).
    intros l' [= ->]. by apply (holding_taken _ _ _ Hi) in Hh as [? _].
  - by apply inv_clear.
  - by apply inv_relxchg.
  - destruct (popcli _) as [msg|k]; simplify_eq/=; apply inv_goto; try done; intros; congruence.
Qed.

Lemma inv_step s s' : inv s -> step s s' -> inv s'.
Proof.
  intros Hi. destruct 1 as [c l s Ha|c l s Ha|c pcs s s' Ha].
  - apply inv_goto; try done; intros; congruence.
  - apply inv_goto; try done; intros; congruence.
  - eauto using inv_access.
Qed.

Lemma inv_reachable ie names s : rtc step (boot ie names) s -> inv s.
Proof.
  intros Hr. remember (boot ie names) as s0 eqn:E.
  assert (Hi : inv s0) by (subst; apply inv_boot). clear E.
  induction Hr; eauto using inv_step.
Qed.

(** C6 Mutual exclusion: in every state the processors can reach by any
    interleaving of the memory accesses of [acquire] and [release], no two
    processors are in critical sections of the same lock. *)
Theorem mutual_exclusion ie names s l c c' :
  rtc step (boot ie names) s -> l ∈ taken s c -> l ∈ taken s c' -> c = c'.
Proof.
  intros Hr%inv_reachable H H'. apply (i_unique _ Hr c c' l); by right.
Qed.

(** [holding] never gives a stale answer: although it reads two fields
    without the lock, on every reachable state it is true exactly for the
    processor inside the critical section that has not started to give the
    lock up.  Hence the panics of [acquire] and [release] are reached only by
    a real recursive acquisition or a release of a lock not held. *)
Theorem holding_exact ie names s l c :
  rtc step (boot ie names) s ->
  (holding c (lks s l) = true <-> l ∈ taken s c /\ acts s c <> RelXchg l).
Proof. intros Hr%inv_reachable. by apply holding_taken. Qed.

(** A run in which processor 0 takes a lock. *)
Definition demo0 : smp := boot (fun _ => true) (fun _ => ""%string).
Definition demo1 : smp :=
  Smp (fupd (acts demo0) 0 (AcqCheck Lbcache))
      (fupd (cpus demo0) 0 (pushcli (cpus demo0 0%nat))) (taken demo0) (lks demo0).
Definition run_access (n c : nat) (s : smp) : smp :=
  Nat.iter n (fun s => default s (access c [] s)) s.

Lemma run_access_rtc n c s0 s : rtc step s0 s -> rtc step s0 (run_access n c s).
Proof.
  intros Hr. induction n as [|n IH]; simpl; [done|].
  destruct (access c [] (run_access n c s)) eqn:E; simpl; [|done].
  eapply rtc_r; [done|]. by eapply step_access.
Qed.

Lemma demo_reachable : rtc step demo0 (run_access 3 0 demo1).
Proof. apply run_access_rtc, rtc_once, step_acquire. done. Qed.

Lemma mutual_exclusion_witness :
  Lbcache ∈ taken (run_access 3 0 demo1) 0%nat /\ (0 = 0)%nat.
Proof.
  split; [by vm_compute; left|].
  apply (mutual_exclusion (fun _ => true) (fun _ => ""%string)
           (run_access 3 0 demo1) Lbcache 0 0);
    [apply demo_reachable|by vm_compute; left..].
Defined.

Lemma holding_exact_witness :
  holding 0 (lks (run_access 3 0 demo1) Lbcache) = true.
Proof.
  apply (holding_exact (fun _ => true) (fun _ => ""%string) (run_access 3 0 demo1));
    [apply demo_reachable|]. split; [by vm_compute; left|done].
Defined.

End SMP.
