(* ===== verification/Sched.v ===== *)
(** * Processes, sleep and wakeup (proc.h, and sleep/wakeup of proc.c)

    The process table, the sleep channels, and the routines every blocking
    kernel service is built from: [wakeup1], [wakeup], [sched], [sleep],
    [yield] and [kill].  This is the bottom of the kernel state: the layers
    above contain a [sched_st] and call these operations through a lens. *)

From S2P Require Import Prelude Params Spinlock.

Definition NPROC : nat := 64.
Definition NOFILE : nat := 16.

(** ** Data (proc.h, x86.h) *)

Inductive procstate := UNUSED | EMBRYO | SLEEPING | RUNNABLE | RUNNING | ZOMBIE.
#[global] Instance procstate_eq_dec : EqDecision procstate.
Proof. solve_decision. Defined.

(** Sleep channels are kernel addresses; each constructor is the address of
    the object it names, [CNull] the null pointer. *)
Inductive chan :=
| CNull
| CBuf (i : nat) | CInode (i : nat) | CLog | CProc (i : nat) | CTicks
| CNread (p : Z) | CNwrite (p : Z) | CInput.
#[global] Instance chan_eq_dec : EqDecision chan.
Proof. solve_decision. Defined.

Record trapframe := Trapframe {
  tf_edi : Z; tf_esi : Z; tf_ebp : Z; tf_oesp : Z; tf_ebx : Z; tf_edx : Z;
  tf_ecx : Z; tf_eax : Z; tf_gs : Z; tf_fs : Z; tf_es : Z; tf_ds : Z;
  tf_trapno : Z; tf_err : Z; tf_eip : Z; tf_cs : Z; tf_eflags : Z;
  tf_esp : Z; tf_ss : Z }.

Record context := Context_ {
  cx_edi : Z; cx_esi : Z; cx_ebx : Z; cx_ebp : Z; cx_eip : Z }.

(** [struct proc].  Pointers to other processes, open files and cached inodes
    are indices into [ptable.proc], [ftable.file] and [icache.inode]. *)
Record proc := Proc {
  sz : Z; pgdir : Z; kstack : Z; state : procstate; pid : Z;
  parent : option nat; tf : trapframe; p_context : context; pchan : chan;
  killed : Z; ofile : list (option nat); cwd : option nat; pname : list Z }.

Record sched_st := SchedSt {
  mach : machine;             (** this processor and the locks *)
  procs : list proc;          (** [ptable.proc] *)
  curproc : option nat;       (** [proc], the process running here *)
  nextpid : Z;
  initproc : option nat }.

Definition set_state (x : procstate) (p : proc) : proc :=
  Proc (sz p) (pgdir p) (kstack p) x (pid p) (parent p) (tf p) (p_context p)
    (pchan p) (killed p) (ofile p) (cwd p) (pname p).
Definition set_chan (x : chan) (p : proc) : proc :=
  Proc (sz p) (pgdir p) (kstack p) (state p) (pid p) (parent p) (tf p) (p_context p)
    x (killed p) (ofile p) (cwd p) (pname p).
Definition set_killed (x : Z) (p : proc) : proc :=
  Proc (sz p) (pgdir p) (kstack p) (state p) (pid p) (parent p) (tf p) (p_context p)
    (pchan p) x (ofile p) (cwd p) (pname p).

Definition mach_lens : lens sched_st machine :=
  Lens mach (fun m s => SchedSt m (procs s) (curproc s) (nextpid s) (initproc s)).
Definition set_procs (ps : list proc) (s : sched_st) : sched_st :=
  SchedSt (mach s) ps (curproc s) (nextpid s) (initproc s).

(** ** Operations *)

Definition acquire (l : lockid) : M sched_st unit := lift mach_lens (Spinlock.acquire l).
Definition release (l : lockid) : M sched_st unit := lift mach_lens (Spinlock.release l).

(** The loop body of [wakeup1]. *)
Definition wake (c : chan) (p : proc) : proc :=
  if bool_decide (state p = SLEEPING) && bool_decide (pchan p = c)
  then set_state RUNNABLE p else p.

Definition wakeup1 (c : chan) : M sched_st unit :=
  modify (fun s => set_procs (wake c <$> procs s) s).

Definition wakeup (c : chan) : M sched_st unit :=
  acquire Lptable ;; wakeup1 c ;; release Lptable.

(** [proc->f = x] for the current process; a null [proc] faults. *)
Definition upd_cur (f : proc -> proc) : M sched_st unit :=
  o ← gets curproc;
  match o with
  | None => panic "null proc"
  | Some i => modify (fun s => set_procs (alter f i (procs s)) s)
  end.

Definition cur_state : M sched_st (option procstate) :=
  gets (fun s => i ← curproc s; state <$> procs s !! i).

(** Up to the [swtch] to the scheduler's context. *)
Definition sched : M sched_st unit :=
  m ← gets mach;
  if negb (holding (me m) (locks m Lptable)) then panic "sched ptable.lock"
  else if negb (ncli (mcpu m) =? 1) then panic "sched locks"
  else
    st ← cur_state;
    if bool_decide (st = Some RUNNING) then panic "sched running"
    else if fl_if (mcpu m) then panic "sched interruptible"
    else blocked.

Definition sleep (c : chan) (lk : option lockid) : M sched_st unit :=
  o ← gets curproc;
  match o, lk with
  | None, _ => panic "sleep"
  | Some _, None => panic "sleep without lk"
  | Some _, Some lk =>
      (if decide (lk = Lptable) then mret ()
       else acquire Lptable ;; release lk) ;;
      upd_cur (set_chan c) ;;
      upd_cur (set_state SLEEPING) ;;
      sched ;;
      upd_cur (set_chan CNull) ;;
      if decide (lk = Lptable) then mret ()
      else release Lptable ;; acquire lk
  end.

Definition yield : M sched_st unit :=
  acquire Lptable ;; upd_cur (set_state RUNNABLE) ;; sched ;; release Lptable.

(** The scan of [kill]: the first process with the pid is marked and, when
    asleep, made runnable. *)
Definition kill_proc (p : proc) : proc :=
  let p := set_killed 1 p in
  if bool_decide (state p = SLEEPING) then set_state RUNNABLE p else p.

Definition kill (id : Z) : M sched_st Z :=
  acquire Lptable ;;
  ps ← gets procs;
  match list_find (fun p => pid p = id) ps with
  | Some (i, _) =>
      modify (fun s => set_procs (alter kill_proc i (procs s)) s) ;;
      release Lptable ;; mret 0
  | None => release Lptable ;; mret (-1)
  end.

(** ** Specifications *)

Definition locked_by (ie : bool) (L : list lockid) (s : sched_st) : Prop :=
  lockstate ie L (mach s).

(** Everything but the processor and its locks is as before. *)
Definition same_procs (s s' : sched_st) : Prop :=
  procs s' = procs s /\ curproc s' = curproc s /\
  nextpid s' = nextpid s /\ initproc s' = initproc s /\ same_cpu (mach s) (mach s').

Lemma same_procs_refl s : same_procs s s.
Proof. done. Qed.

Lemma wp_acquire ie L l s :
  locked_by ie L s -> l ∉ L -> Z.of_nat (length L) < 1000 ->
  wp (acquire l) (fun _ s' => locked_by ie (l :: L) s' /\ same_procs s s') s.
Proof.
  intros HL Hl Hlen. apply wp_lift.
  eapply wp_mono; [apply wp_spin_acquire; [done..|lia]|].
  intros _ t [? ?]. split; [done|]. by repeat split; apply H0.
Qed.

Lemma wp_release ie L1 L2 l s :
  locked_by ie (L1 ++ l :: L2) s ->
  wp (release l) (fun _ s' => locked_by ie (L1 ++ L2) s' /\ same_procs s s') s.
Proof.
  intros HL. apply wp_lift.
  eapply wp_mono; [by apply wp_spin_release|].
  intros _ t [? ?]. split; [done|]. by repeat split; apply H0.
Qed.

Lemma wp_release_hd ie L l s :
  locked_by ie (l :: L) s ->
  wp (release l) (fun _ s' => locked_by ie L s' /\ same_procs s s') s.
Proof. apply (wp_release ie []). Qed.

(** [wakeup] makes exactly the sleepers on the channel runnable and leaves
    the locks as it found them. *)
Definition woken (c : chan) (s s' : sched_st) : Prop :=
  procs s' = wake c <$> procs s /\ curproc s' = curproc s /\
  nextpid s' = nextpid s /\ initproc s' = initproc s /\ same_cpu (mach s) (mach s').

Lemma wp_wakeup ie L c s :
  locked_by ie L s -> Lptable ∉ L -> Z.of_nat (length L) < 1000 ->
  wp (wakeup c) (fun _ s' => locked_by ie L s' /\ woken c s s') s.
Proof.
  intros HL Hl Hlen. unfold wakeup.
  wp_call wp_acquire; [done..|]. intros _ s1 [HL1 Hs1].
  unfold wakeup1. wp_steps.
  eapply wp_mono; [by apply (wp_release_hd ie L)|].
  intros _ s2 [HL2 Hs2]. split; [done|].
  unfold same_procs, woken, same_cpu in *; simpl in *.
  destruct Hs1 as (Hp1 & ? & ? & ? & ? & ? & ?), Hs2 as (-> & ? & ? & ? & ? & ? & ?).
  rewrite Hp1. repeat split; congruence.
Qed.

Lemma same_procs_trans s1 s2 s3 : same_procs s1 s2 -> same_procs s2 s3 -> same_procs s1 s3.
Proof.
  unfold same_procs, same_cpu.
  intros (-> & -> & -> & -> & -> & -> & ->) (-> & -> & -> & -> & -> & -> & ->). done.
Qed.

(** What [sleep] does to the process that calls it. *)
Definition asleep (c : chan) (p : proc) : proc := set_state SLEEPING (set_chan c p).

Lemma wp_sleep_locks ie lk s :
  locked_by ie [lk] s ->
  wp (if decide (lk = Lptable) then mret () else acquire Lptable ;; release lk)
    (fun _ s' => locked_by ie [Lptable] s' /\ same_procs s s') s.
Proof.
  intros HL. destruct (decide (lk = Lptable)) as [->|Hne]; [by wp_step|].
  wp_call wp_acquire; [done|set_solver|simpl; lia|]. intros _ s1 [HL1 Hs1].
  eapply wp_mono; [by apply (wp_release ie [Lptable] [])|].
  intros _ s2 [HL2 Hs2]. eauto using same_procs_trans.
Qed.

Lemma sched_blocked ie s i p :
  locked_by ie [Lptable] s -> curproc s = Some i -> procs s !! i = Some p ->
  state p <> RUNNING -> sched s = Blocked s.
Proof.
  intros [Hnd Hm Hf Hn Hif Hie Hsm] Hc Hp Hr.
  unfold sched, cur_state, gets, mbind, M_bind.
  rewrite (holding_mine _ _ (Hm Lptable ltac:(set_solver))). simpl.
  rewrite Hn. simpl. rewrite Hc. simpl. rewrite Hp. simpl.
  rewrite bool_decide_eq_false_2 by congruence. by rewrite Hif.
Qed.

Lemma sleep_blocks ie c lk s i p :
  locked_by ie [lk] s -> curproc s = Some i -> procs s !! i = Some p ->
  exists s', sleep c (Some lk) s = Blocked s' /\ locked_by ie [Lptable] s' /\
    procs s' = alter (asleep c) i (procs s) /\ curproc s' = Some i.
Proof.
  intros HL Hc Hp. unfold sleep, gets at 1. unfold mbind at 1, M_bind at 1. rewrite Hc.
  pose proof (wp_sleep_locks ie lk s HL) as ([] & s1 & Hs1 & HL1 & Hp1)%wp_ok.
  unfold mbind at 1, M_bind at 1. rewrite Hs1.
  destruct Hp1 as (Hps & Hcs & _).
  unfold upd_cur, gets, modify, mbind, M_bind; simpl. rewrite Hcs, Hc; simpl. rewrite Hcs, Hc.
  set (s' := set_procs _ _).
  assert (Hps' : procs s' = alter (asleep c) i (procs s)).
  { unfold s'; simpl. by rewrite Hps, list_alter_alter_eq. }
  exists s'. split_and!; try done; [|by unfold s'; simpl; rewrite Hcs].
  erewrite (sched_blocked ie s' i (asleep c p)); try done.
  - by unfold s'; simpl; rewrite Hcs.
  - rewrite Hps'. by rewrite list_lookup_alter_eq, Hp.
Qed.


Lemma wp_kill ie id s :
  locked_by ie [] s ->
  wp (kill id) (fun r s' => locked_by ie [] s' /\ curproc s' = curproc s /\ nextpid s' = nextpid s /\
    match list_find (fun p => pid p = id) (procs s) with
    | Some (i, p) => r = 0 /\ procs s' = alter kill_proc i (procs s)
    | None => r = -1 /\ procs s' = procs s
    end) s.
Proof.
  intros HL. unfold kill.
  wp_call wp_acquire; [done|set_solver|simpl; lia|]. intros _ s1 [HL1 (Hps1 & Hc1 & Hn1 & _)].
  wp_steps. rewrite Hps1.
  destruct (list_find _ (procs s)) as [[i p]|].
  - wp_steps. wp_call (wp_release_hd ie []); [done|].
    intros _ s2 [HL2 (Hps2 & Hc2 & Hn2 & _)]. simpl in *. wp_steps. split_and!; try done; try congruence.
  - wp_call (wp_release_hd ie []); [done|].
    intros _ s2 [HL2 (Hps2 & Hc2 & Hn2 & _)]. wp_steps. split_and!; try done; congruence.
Qed.

(** [kill] marks the first process with the given pid, wakes it if it is
    asleep, touches no other process, and reports failure exactly when there
    is no such process. *)
Theorem kill_spec ie id s :
  locked_by ie [] s ->
  wp (kill id) (fun r s' => locked_by ie [] s' /\
    match list_find (fun p => pid p = id) (procs s) with
    | Some (i, p) => r = 0 /\ procs s' = alter kill_proc i (procs s) /\
        killed (kill_proc p) = 1 /\ state (kill_proc p) <> SLEEPING
    | None => r = -1 /\ procs s' = procs s
    end) s.
Proof.
  intros HL. eapply wp_mono; [by apply (wp_kill ie)|]. intros r s' (HL' & _ & _ & Hr). split; [done|].
  destruct (list_find _ (procs s)) as [[i p]|]; [|done]. destruct Hr as [-> Hp]. split; [done|]. split; [done|].
  unfold kill_proc; simpl. by case_bool_decide.
Qed.

(** ** What other kernel services may do to the process table

    A service that only wakes processes up relates the process tables before
    and after by [wakes]: sleepers may have become runnable, nothing else
    changed. *)
Definition wakes1 (p p' : proc) : Prop :=
  p' = p \/ (state p = SLEEPING /\ p' = set_state RUNNABLE p).

Record wakes (s s' : sched_st) : Prop := {
  wk_procs : Forall2 wakes1 (procs s) (procs s');
  wk_cur : curproc s' = curproc s;
  wk_nextpid : nextpid s' = nextpid s;
  wk_init : initproc s' = initproc s;
  wk_cpu : same_cpu (mach s) (mach s') }.

#[global] Instance wakes1_refl : Reflexive wakes1.
Proof. by left. Qed.
#[global] Instance wakes1_trans : Transitive wakes1.
Proof.
  intros p1 p2 p3 [->|[H ->]]; [done|]. intros [->|[H' ->]]; [by right|]. done.
Qed.
#[global] Instance wakes_refl : Reflexive wakes.
Proof. intros s. split; done. Qed.
#[global] Instance wakes_trans : Transitive wakes.
Proof.
  intros s1 s2 s3 [Hp ? ? ? (?&?&?)] [Hp' ? ? ? (?&?&?)].
  split; try congruence; [by etrans|]. repeat split; congruence.
Qed.

Lemma wakes_same_procs s s' : same_procs s s' -> wakes s s'.
Proof. intros (H1 & ? & ? & ? & ?). split; try done. by rewrite H1. Qed.

Lemma wakes_woken c s s' : woken c s s' -> wakes s s'.
Proof.
  intros (H & ? & ? & ? & ?). split; try done. rewrite H.
  apply Forall2_fmap_r, Forall_Forall2_diag, Forall_true. intros p.
  unfold compose, wake, wakes1. destruct (_ && _) eqn:E; [right|by left].
  rewrite andb_true_iff, !bool_decide_eq_true in E. naive_solver.
Qed.

(** A running service: no spinlock held, the process table as left by
    wakeups since [s0]. *)
Definition quiet (ie : bool) (s0 s : sched_st) : Prop :=
  locked_by ie [] s /\ wakes s0 s.

Lemma wp_acquire_quiet ie s0 l s :
  quiet ie s0 s ->
  wp (acquire l) (fun _ s' => locked_by ie [l] s' /\ wakes s0 s') s.
Proof.
  intros [HL Hw]. wp_call wp_acquire; [done|set_solver|simpl; lia|].
  intros _ s1 [HL1 Hs1%wakes_same_procs]. split; [done|by etrans].
Qed.

Lemma wp_release_quiet ie s0 l s :
  locked_by ie [l] s -> wakes s0 s ->
  wp (release l) (fun _ s' => quiet ie s0 s') s.
Proof.
  intros HL Hw. wp_call wp_release_hd; [done|].
  intros _ s1 [HL1 Hs1%wakes_same_procs]. split; [done|by etrans].
Qed.

Lemma wp_wakeup_quiet ie s0 l c s :
  locked_by ie [l] s -> l <> Lptable -> wakes s0 s ->
  wp (wakeup c) (fun _ s' => locked_by ie [l] s' /\ wakes s0 s') s.
Proof.
  intros HL Hl Hw. wp_call wp_wakeup; [done|set_solver|simpl; lia|].
  intros _ s1 [HL1 Hs1%wakes_woken]. split; [done|by etrans].
Qed.

Lemma quiet_initlock ie s0 l name s :
  quiet ie s0 s ->
  quiet ie s0 (lset mach_lens (upd_lock l (initlock name (locks (mach s) l)) (mach s)) s).
Proof.
  intros [HL Hw]. split; [|by destruct Hw; split].
  apply lockstate_initlock; [done|]. set_solver.
Qed.

(** ** A system with one running process *)

Definition tf0 : trapframe := Trapframe 0 0 0 0 0 0 0 0 0 0 0 0 0 0 0 0 0 0 0.
Definition proc1 : proc :=
  Proc 4096 0 0 RUNNING 1 None tf0 (Context_ 0 0 0 0 0) CNull 0 [] None [].
Definition boot_sched : sched_st := SchedSt boot_machine [proc1] (Some 0%nat) 2 (Some 0%nat).

Lemma boot_quiet : quiet true boot_sched boot_sched.
Proof. split; [apply boot_lockstate|done]. Qed.

Lemma kill_spec_witness :
  wp (kill 1) (fun r s' => locked_by true [] s' /\
    match list_find (fun p => pid p = 1) (procs boot_sched) with
    | Some (i, p) => r = 0 /\ procs s' = alter kill_proc i (procs boot_sched) /\
        killed (kill_proc p) = 1 /\ state (kill_proc p) <> SLEEPING
    | None => r = -1 /\ procs s' = procs boot_sched
    end) boot_sched.
Proof. apply (kill_spec true 1 boot_sched). apply boot_lockstate. Defined.

(** The state in which process 1 holds the log lock. *)
Definition locked_sched : sched_st :=
  match acquire Llog boot_sched with Ok _ s => s | _ => boot_sched end.

Lemma locked_sched_ok : locked_by true [Llog] locked_sched.
Proof.
  destruct (proj1 (wp_ok _ _ _) (wp_acquire_quiet true boot_sched Llog boot_sched boot_quiet))
    as (a & s' & E & HL & _).
  unfold locked_sched. by rewrite E.
Qed.

