(* ===== verification/Bio.v ===== *)
(** * The buffer cache (buf.h, bio.c) over the memory disk (memide.c)

    [bcache] is an array of [NBUF] buffers on a circular LRU list; index
    [NBUF] stands for [bcache.head].  The disk driver is the synchronous one
    of memide.c.  Every block written to the disk is also appended to
    [wtrace], so that the disk contents at any earlier moment (a crash) can be
    recovered from the initial contents and a prefix of the trace.

    The specification of the cache is [bio_rep]: a reader sees a map [v] from
    block numbers to contents, [D] is the set of blocks pinned by B_DIRTY and
    [H] maps each held (B_BUSY) buffer to its block. *)

From S2P Require Import Prelude Params Spinlock Sched Ring.

Definition BSIZE : nat := 512.
Definition NBUF : nat := 30.
Definition B_BUSY : Z := 0x1.
Definition B_VALID : Z := 0x2.
Definition B_DIRTY : Z := 0x4.

#[global] Arguments NBUF : simpl never.
#[global] Arguments BSIZE : simpl never.

(** ** Data *)

Record buf := Buf {
  b_flags : Z; b_dev : Z; b_blockno : Z; b_prev : nat; b_next : nat;
  b_qnext : option nat; b_data : list Z }.

Definition set_b_flags x b :=
  Buf x (b_dev b) (b_blockno b) (b_prev b) (b_next b) (b_qnext b) (b_data b).
Definition set_b_dev x b :=
  Buf (b_flags b) x (b_blockno b) (b_prev b) (b_next b) (b_qnext b) (b_data b).
Definition set_b_blockno x b :=
  Buf (b_flags b) (b_dev b) x (b_prev b) (b_next b) (b_qnext b) (b_data b).
Definition set_b_prev x b :=
  Buf (b_flags b) (b_dev b) (b_blockno b) x (b_next b) (b_qnext b) (b_data b).
Definition set_b_next x b :=
  Buf (b_flags b) (b_dev b) (b_blockno b) (b_prev b) x (b_qnext b) (b_data b).
Definition set_b_data x b :=
  Buf (b_flags b) (b_dev b) (b_blockno b) (b_prev b) (b_next b) (b_qnext b) x.

Record bio_st := BioSt {
  bsched : sched_st;
  bufs : nat -> buf;
  disk : Z -> list Z;
  disksize : Z;
  wtrace : list (Z * list Z) }.

Definition bsched_lens : lens bio_st sched_st :=
  Lens bsched (fun x s => BioSt x (bufs s) (disk s) (disksize s) (wtrace s)).
Definition set_bufs (x : nat -> buf) (s : bio_st) : bio_st :=
  BioSt (bsched s) x (disk s) (disksize s) (wtrace s).
Definition write_disk (n : Z) (d : list Z) (s : bio_st) : bio_st :=
  BioSt (bsched s) (bufs s) (<[n := d]> (disk s)) (disksize s) (wtrace s ++ [(n, d)]).

(** ** Operations *)

Definition upd_buf (i : nat) (f : buf -> buf) : M bio_st unit :=
  modify (fun s => set_bufs (alter f i (bufs s)) s).
Definition buf_at (i : nat) : M bio_st buf := gets (fun s => bufs s i).

Definition acquire (l : lockid) : M bio_st unit := lift bsched_lens (Sched.acquire l).
Definition release (l : lockid) : M bio_st unit := lift bsched_lens (Sched.release l).
Definition wakeup (c : chan) : M bio_st unit := lift bsched_lens (Sched.wakeup c).
Definition sleep (c : chan) (l : lockid) : M bio_st unit :=
  lift bsched_lens (Sched.sleep c (Some l)).

(** memide.c: transfer between the buffer and the disk. *)
Definition iderw (i : nat) : M bio_st unit :=
  b ← buf_at i;
  n ← gets disksize;
  if negb (has (b_flags b) B_BUSY) then panic "iderw: buf not busy"
  else if Z.land (b_flags b) (Z.lor B_VALID B_DIRTY) =? B_VALID
    then panic "iderw: nothing to do"
  else if negb (b_dev b =? 1) then panic "iderw: request not for disk 1"
  else if u32 n <=? b_blockno b then panic "iderw: block out of range"
  else
    (if has (b_flags b) B_DIRTY then
       upd_buf i (fun b => set_b_flags (clear_flag (b_flags b) B_DIRTY) b) ;;
       modify (write_disk (b_blockno b) (b_data b))
     else
       d ← gets disk;
       upd_buf i (set_b_data (d (b_blockno b)))) ;;
    upd_buf i (fun b => set_b_flags (set_flag (b_flags b) B_VALID) b).

(** The pointer updates that put [b] behind [bcache.head]. *)
Definition link_head (i : nat) : M bio_st unit :=
  h ← gets (fun s => b_next (bufs s NBUF));
  upd_buf i (set_b_next h) ;;
  upd_buf i (set_b_prev NBUF).
Definition link_head2 (i : nat) : M bio_st unit :=
  h ← gets (fun s => b_next (bufs s NBUF));
  upd_buf h (set_b_prev i) ;;
  upd_buf NBUF (set_b_next i).

Fixpoint binit_loop (l : list nat) : M bio_st unit :=
  match l with
  | [] => mret ()
  | i :: l =>
      link_head i ;; upd_buf i (set_b_dev (u32 (-1))) ;; link_head2 i ;; binit_loop l
  end.

Definition initlock (l : lockid) (name : string) : M bio_st unit :=
  lift bsched_lens (lift mach_lens (modify (fun m =>
    upd_lock l (Spinlock.initlock name (locks m l)) m))).

Definition binit : M bio_st unit :=
  initlock Lbcache "bcache" ;;
  upd_buf NBUF (set_b_prev NBUF) ;;
  upd_buf NBUF (set_b_next NBUF) ;;
  binit_loop (seq 0 NBUF).

(** Look for the block, else recycle the least recently used clean buffer.
    When the block is held by another process, the caller sleeps; it starts
    over when it is woken. *)
Definition bget (dev n : Z) : M bio_st nat :=
  acquire Lbcache ;;
  bs ← gets bufs;
  match walk (S NBUF) (fun i => b_next (bs i)) NBUF (b_next (bs NBUF))
          (fun i => (b_dev (bs i) =? dev) && (b_blockno (bs i) =? n)) with
  | Some i =>
      if negb (has (b_flags (bs i)) B_BUSY) then
        upd_buf i (fun b => set_b_flags (set_flag (b_flags b) B_BUSY) b) ;;
        release Lbcache ;;
        mret i
      else sleep (CBuf i) Lbcache ;; blocked
  | None =>
      match walk (S NBUF) (fun i => b_prev (bs i)) NBUF (b_prev (bs NBUF))
              (fun i => negb (has (b_flags (bs i)) B_BUSY) &&
                        negb (has (b_flags (bs i)) B_DIRTY)) with
      | Some i =>
          upd_buf i (set_b_dev dev) ;;
          upd_buf i (set_b_blockno n) ;;
          upd_buf i (set_b_flags B_BUSY) ;;
          release Lbcache ;;
          mret i
      | None => panic "bget: no buffers"
      end
  end.

Definition bread (dev n : Z) : M bio_st nat :=
  i ← bget dev n;
  b ← buf_at i;
  when (negb (has (b_flags b) B_VALID)) (iderw i) ;;
  mret i.

Definition bwrite (i : nat) : M bio_st unit :=
  b ← buf_at i;
  if negb (has (b_flags b) B_BUSY) then panic "bwrite"
  else
    upd_buf i (fun b => set_b_flags (set_flag (b_flags b) B_DIRTY) b) ;;
    iderw i.

Definition brelse (i : nat) : M bio_st unit :=
  b ← buf_at i;
  if negb (has (b_flags b) B_BUSY) then panic "brelse"
  else
    acquire Lbcache ;;
    b ← buf_at i;
    upd_buf (b_next b) (set_b_prev (b_prev b)) ;;
    b ← buf_at i;
    upd_buf (b_prev b) (set_b_next (b_next b)) ;;
    link_head i ;; link_head2 i ;;
    upd_buf i (fun b => set_b_flags (clear_flag (b_flags b) B_BUSY) b) ;;
    wakeup (CBuf i) ;;
    release Lbcache.

(** ** The abstract state of the cache *)

Definition busy (b : buf) : bool := has (b_flags b) B_BUSY.
Definition valid (b : buf) : bool := has (b_flags b) B_VALID.
Definition dirty (b : buf) : bool := has (b_flags b) B_DIRTY.

Definition block_ok (d : list Z) : Prop := length d = BSIZE /\ bytes_ok d.

Definition ring (bf : nat -> buf) (l : list nat) : Prop :=
  links (fun i => b_next (bf i)) (fun i => b_prev (bf i)) NBUF l NBUF /\
  l ≡ₚ seq 0 NBUF.

Section rep.
Context (bf : nat -> buf) (dk : Z -> list Z) (dsz : Z).
Context (v : Z -> list Z) (D : gset Z) (H : gmap nat Z).

(** [v]: contents as seen by readers; [D]: blocks pinned dirty; [H]: the
    buffers handed out by [bread] and the blocks they hold. *)
Record cache_rep : Prop := {
  r_size : 0 <= dsz < 2147483648;
  r_disk : forall n, 0 <= n < dsz -> block_ok (dk n);
  r_view : forall n, 0 <= n < dsz -> block_ok (v n);
  r_uniq : forall i j, (i < NBUF)%nat -> (j < NBUF)%nat ->
    b_dev (bf i) = 1 -> b_dev (bf j) = 1 -> b_blockno (bf i) = b_blockno (bf j) -> i = j;
  r_valid : forall i, (i < NBUF)%nat -> valid (bf i) = true ->
    b_dev (bf i) = 1 /\ 0 <= b_blockno (bf i) < dsz /\ b_data (bf i) = v (b_blockno (bf i));
  r_dirty : forall i, (i < NBUF)%nat -> dirty (bf i) = true -> valid (bf i) = true;
  r_busy : forall i, (i < NBUF)%nat -> busy (bf i) = true -> valid (bf i) = true;
  r_H : forall i n, H !! i = Some n <->
    (i < NBUF)%nat /\ busy (bf i) = true /\ b_blockno (bf i) = n;
  r_D : forall n, n ∈ D <->
    exists i, (i < NBUF)%nat /\ dirty (bf i) = true /\ b_blockno (bf i) = n;
  r_coh : forall n, 0 <= n < dsz -> n ∉ D -> (forall i, H !! i <> Some n) -> v n = dk n }.

Definition bio_rep : Prop := cache_rep /\ exists l, ring bf l.
End rep.

Notation brep s := (bio_rep (bufs s) (disk s) (disksize s)).

(** Two buffers that differ at most in their list pointers. *)
Definition same_core (b b' : buf) : Prop :=
  b_flags b' = b_flags b /\ b_dev b' = b_dev b /\
  b_blockno b' = b_blockno b /\ b_data b' = b_data b.
Definition same_links (b b' : buf) : Prop :=
  b_next b' = b_next b /\ b_prev b' = b_prev b.

Lemma ring_ext bf bf' l : (forall i, same_links (bf i) (bf' i)) -> ring bf l -> ring bf' l.
Proof.
  intros He [Hl Hp]. split; [|done].
  eapply links_ext; [..|exact Hl]; intros i _; apply He.
Qed.

Lemma cache_rep_core bf bf' dk dsz v D H :
  (forall i, (i < NBUF)%nat -> same_core (bf i) (bf' i)) ->
  cache_rep bf dk dsz v D H -> cache_rep bf' dk dsz v D H.
Proof.
  intros He [H1 H2 H3 H4 H5 H6 H7 H8 H9 H10].
  split; try done; unfold busy, valid, dirty in *.
  - intros i j Hi Hj. destruct (He i Hi) as (_ & -> & -> & _), (He j Hj) as (_ & -> & -> & _).
    by apply H4.
  - intros i Hi. destruct (He i Hi) as (-> & -> & -> & ->). by apply H5.
  - intros i Hi. destruct (He i Hi) as (-> & _). by apply H6.
  - intros i Hi. destruct (He i Hi) as (-> & _). by apply H7.
  - intros i n. rewrite H8. split; intros (Hi & ?);
      destruct (He i Hi) as (Hf & _ & Hb & _); rewrite ?Hf, ?Hb in *; done.
  - intros n. rewrite H9. f_equiv; intros i. split; intros (Hi & ?);
      destruct (He i Hi) as (Hf & _ & Hb & _); rewrite ?Hf, ?Hb in *; done.
Qed.

(** *** The cache has room

    A buffer that is neither held nor pinned exists as long as fewer than
    [NBUF] blocks are held or pinned. *)
Lemma free_buffer bf dk dsz v D H :
  cache_rep bf dk dsz v D H -> (size D + size H < NBUF)%nat ->
  exists i, (i < NBUF)%nat /\ busy (bf i) = false /\ dirty (bf i) = false.
Proof.
  intros [H1 H2 H3 H4 H5 H6 H7 H8 H9 H10] Hsz.
  destruct (decide (Exists (fun i => busy (bf i) = false /\ dirty (bf i) = false) (seq 0 NBUF)))
    as [Hex|Hno].
  { apply Exists_exists in Hex as (i & Hi%elem_of_seq & Hb). exists i. split; [lia|done]. }
  exfalso. rewrite <-Forall_Exists_neg, Forall_forall in Hno.
  set (dirt := filter (fun i => dirty (bf i) = true) (seq 0 NBUF)).
  assert (Hdirt : forall i, i ∈ dirt <-> (i < NBUF)%nat /\ dirty (bf i) = true).
  { intros i. unfold dirt. rewrite list_elem_of_filter, elem_of_seq. naive_solver lia. }
  assert (length dirt <= size D)%nat.
  { rewrite <-(length_fmap (fun i => b_blockno (bf i)) dirt).
    rewrite <-(size_list_to_set (C:=gset Z)).
    - apply subseteq_size. intros n. rewrite elem_of_list_to_set, list_elem_of_fmap.
      intros (i & -> & [Hi Hd]%Hdirt). apply H9. eauto.
    - apply NoDup_fmap_2_strong; [|apply NoDup_filter, NoDup_seq].
      intros i j [Hi Hdi]%Hdirt [Hj Hdj]%Hdirt He. apply H4; try done; by apply H5, H6. }
  assert (Hsub : (set_seq 0 NBUF : gset nat) ⊆ dom H ∪ list_to_set dirt).
  { intros i Hi%elem_of_set_seq. rewrite elem_of_union, elem_of_dom, elem_of_list_to_set, Hdirt.
    destruct (dirty (bf i)) eqn:Ed; [right; split; [lia|done]|].
    destruct (busy (bf i)) eqn:Eb.
    - left. exists (b_blockno (bf i)). apply H8. split; [lia|done].
    - exfalso. apply (Hno i); [apply elem_of_seq; lia|done]. }
  apply subseteq_size in Hsub. rewrite size_set_seq in Hsub.
  pose proof (size_union_alt (dom H) (list_to_set dirt : gset nat)) as Hu.
  pose proof (subseteq_size (list_to_set dirt ∖ dom H) (list_to_set dirt : gset nat) ltac:(set_solver)).
  rewrite size_list_to_set in * by apply NoDup_filter, NoDup_seq.
  rewrite size_dom in *. lia.
Qed.

(** *** Handing a buffer out

    [i] now holds block [n]: its contents are what readers see, its pin is as
    before. *)
Lemma cache_rep_hold bf bf' dk dsz v D H i n :
  cache_rep bf dk dsz v D H ->
  (i < NBUF)%nat -> 0 <= n < dsz -> H !! i = None ->
  (forall j, j <> i -> bf' j = bf j) ->
  (forall j, (j < NBUF)%nat -> j <> i -> b_dev (bf j) = 1 -> b_blockno (bf j) <> n) ->
  b_dev (bf' i) = 1 -> b_blockno (bf' i) = n -> b_data (bf' i) = v n ->
  busy (bf' i) = true -> valid (bf' i) = true -> dirty (bf' i) = dirty (bf i) ->
  (dirty (bf i) = true -> b_blockno (bf i) = n) ->
  cache_rep bf' dk dsz v D (<[i := n]> H).
Proof.
  intros [H1 H2 H3 H4 H5 H6 H7 H8 H9 H10] Hi Hn HH He Hne Hdev Hb Hd Hbusy Hval Hdirt Hdn.
  split; try done.
  - intros j k Hj Hk. destruct (decide (j = i)) as [->|], (decide (k = i)) as [->|];
      rewrite ?(He j), ?(He k) by done; intros; try done.
    + exfalso. apply (Hne k Hk); [done..|congruence].
    + exfalso. apply (Hne j Hj); [done..|congruence].
    + by apply H4.
  - intros j Hj. destruct (decide (j = i)) as [->|]; [|rewrite He by done; by apply H5].
    intros _. by rewrite Hdev, Hb, Hd.
  - intros j Hj. destruct (decide (j = i)) as [->|]; [done|rewrite He by done; by apply H6].
  - intros j Hj. destruct (decide (j = i)) as [->|]; [done|rewrite He by done; by apply H7].
  - intros j m. destruct (decide (j = i)) as [->|].
    + rewrite lookup_insert_eq, Hb. naive_solver.
    + rewrite lookup_insert_ne, He by done. apply H8.
  - intros m. rewrite H9. split; intros (j & Hj & Hdj & Hm).
    + exists j. destruct (decide (j = i)) as [->|]; [|by rewrite He].
      rewrite Hdirt, Hb. split_and!; [done..|]. by rewrite <-Hdn.
    + exists j. destruct (decide (j = i)) as [->|]; [|by rewrite He in Hdj, Hm].
      rewrite Hdirt in Hdj. rewrite Hb in Hm. split_and!; [done..|]. by rewrite Hdn.
  - intros m Hm HmD HmH. apply H10; [done..|]. intros j Hj.
    apply (HmH j). rewrite lookup_insert_ne; [done|]. by intros ->; rewrite HH in Hj.
Qed.

Lemma wp_upd_buf i f (Q : unit -> bio_st -> Prop) s :
  Q () (set_bufs (alter f i (bufs s)) s) -> wp (upd_buf i f) Q s.
Proof. done. Qed.

Lemma wp_sched {A} (m : M sched_st A) (R : A -> sched_st -> Prop) s :
  wp m R (bsched s) ->
  wp (lift bsched_lens m) (fun a s' => exists sc, s' = lset bsched_lens sc s /\ R a sc) s.
Proof. intros Hm. apply wp_lift. eapply wp_mono; [exact Hm|]. eauto. Qed.

(** *** [bget]

    The block is found, or the least recently used clean buffer is recycled. *)
Definition recycled (n : Z) (b : buf) : buf :=
  set_b_flags B_BUSY (set_b_blockno n (set_b_dev 1 b)).
Definition marked (b : buf) : buf := set_b_flags (set_flag (b_flags b) B_BUSY) b.

Definition is_block (n : Z) (b : buf) : bool := (b_dev b =? 1) && (b_blockno b =? n).
Lemma is_block_true n b : is_block n b = true <-> b_dev b = 1 /\ b_blockno b = n.
Proof. unfold is_block. rewrite andb_true_iff, !Z.eqb_eq. done. Qed.

Definition clean (b : buf) : bool := negb (busy b) && negb (dirty b).
Lemma clean_true b : clean b = true <-> busy b = false /\ dirty b = false.
Proof. unfold clean. rewrite andb_true_iff, !negb_true_iff. done. Qed.

(** What [bget] does to the buffers: [find_first] along the LRU list [l] from
    its most recently used end, then from its other end. *)
Definition bget_pick (n : Z) (bf : nat -> buf) (l : list nat) : option (nat * (nat -> buf)) :=
  match find_first (fun i => is_block n (bf i)) l with
  | Some i => Some (i, alter marked i bf)
  | None =>
      i ← find_first (fun i => clean (bf i)) (reverse l);
      Some (i, alter (recycled n) i bf)
  end.

Lemma ring_facts bf l : ring bf l -> NBUF ∉ l /\ length l = NBUF /\
  forall i, i ∈ l <-> (i < NBUF)%nat.
Proof.
  intros [_ Hp].
  assert (Hin : forall i, i ∈ l <-> (i < NBUF)%nat) by (intros i; rewrite Hp, elem_of_seq; lia).
  split_and!; [rewrite Hin; lia|by rewrite Hp, length_seq|done].
Qed.

Definition same_disk (s s' : bio_st) : Prop :=
  disk s' = disk s /\ disksize s' = disksize s /\ wtrace s' = wtrace s.

Lemma walk_bufs_next bf l P :
  ring bf l ->
  walk (S NBUF) (fun i => b_next (bf i)) NBUF (b_next (bf NBUF)) P = find_first P l.
Proof.
  intros Hr. pose proof (ring_facts _ _ Hr) as (Hh & Hlen & _). destruct Hr as [Hl _].
  apply (walk_next _ _ _ _ _ _ _ Hl); [done|lia].
Qed.

Lemma walk_bufs_prev bf l P :
  ring bf l ->
  walk (S NBUF) (fun i => b_prev (bf i)) NBUF (b_prev (bf NBUF)) P = find_first P (reverse l).
Proof.
  intros Hr. pose proof (ring_facts _ _ Hr) as (Hh & Hlen & _). destruct Hr as [Hl _].
  apply (walk_prev _ _ _ _ _ _ _ Hl); [done|lia].
Qed.

Lemma wp_release_b ie s0 l s :
  locked_by ie [l] (bsched s) -> wakes s0 (bsched s) ->
  wp (release l) (fun _ s' => quiet ie s0 (bsched s') /\ bufs s' = bufs s /\ same_disk s s') s.
Proof.
  intros HL Hw. wp_call wp_sched; [by apply wp_release_quiet|].
  intros _ s' (sc & -> & Hq). done.
Qed.

Lemma wp_bget ie s0 n l s i bf' :
  ring (bufs s) l -> quiet ie s0 (bsched s) ->
  bget_pick n (bufs s) l = Some (i, bf') ->
  (is_block n (bufs s i) = true -> busy (bufs s i) = false) ->
  wp (bget 1 n) (fun j s' => j = i /\ quiet ie s0 (bsched s') /\
    (forall k, bufs s' k = bf' k) /\ same_disk s s') s.
Proof.
  intros Hr Hq Hpick Hnb. unfold bget, upd_buf.
  wp_call wp_sched; [by apply wp_acquire_quiet|].
  intros _ s1 (sc & -> & HL & Hw). wp_steps. simpl.
  rewrite (walk_bufs_next _ _ _ Hr), (walk_bufs_prev _ _ _ Hr).
  unfold bget_pick in Hpick. fold (is_block n) in *.
  change (fun i => (b_dev (bufs s i) =? 1) && (b_blockno (bufs s i) =? n))
    with (fun i => is_block n (bufs s i)).
  destruct (find_first _ l) as [k|] eqn:Ef.
  - simplify_eq. apply find_first_Some in Ef as [_ Hb].
    specialize (Hnb Hb). unfold busy in Hnb. rewrite Hnb. simpl. wp_steps.
    wp_call wp_release_b; [done..|]. intros _ s2 (Hq2 & Hb2 & Hd2). wp_steps.
    rewrite Hb2. done.
  - change (fun i => negb (has (b_flags (bufs s i)) B_BUSY) && negb (has (b_flags (bufs s i)) B_DIRTY))
      with (fun i => clean (bufs s i)).
    destruct (find_first _ (reverse l)) as [k|] eqn:Eg; simplify_eq/=. wp_steps.
    wp_call wp_release_b; [done..|]. intros _ s2 (Hq2 & Hb2 & Hd2). wp_steps.
    rewrite Hb2. split_and!; try done. intros k. simpl.
    destruct (decide (i = k)) as [->|].
    + by rewrite !fn_lookup_alter.
    + by rewrite !fn_lookup_alter_ne.
Qed.

(** *** The driver *)

Lemma iderw_nothing_to_do f :
  (Z.land f (Z.lor B_VALID B_DIRTY) =? B_VALID) = has f B_VALID && negb (has f B_DIRTY).
Proof.
  unfold has. rewrite Z.land_lor_distr_r.
  assert (H2 : Z.land f B_VALID = if Z.testbit f 1 then 2 else 0).
  { apply Z.bits_inj'; intros i Hi. rewrite Z.land_spec. change B_VALID with (2 ^ 1).
    rewrite Z.pow2_bits_eqb by done. destruct (Z.eqb_spec 1 i) as [<-|Hne].
    - by destruct (Z.testbit f 1).
    - rewrite andb_false_r. destruct (Z.testbit f 1); [|by rewrite Z.bits_0].
      change 2 with (2 ^ 1). by rewrite Z.pow2_bits_false by lia. }
  assert (H4 : Z.land f B_DIRTY = if Z.testbit f 2 then 4 else 0).
  { apply Z.bits_inj'; intros i Hi. rewrite Z.land_spec. change B_DIRTY with (2 ^ 2).
    rewrite Z.pow2_bits_eqb by done. destruct (Z.eqb_spec 2 i) as [<-|Hne].
    - by destruct (Z.testbit f 2).
    - rewrite andb_false_r. destruct (Z.testbit f 2); [|by rewrite Z.bits_0].
      change 4 with (2 ^ 2). by rewrite Z.pow2_bits_false by lia. }
  rewrite H2, H4. by destruct (Z.testbit f 1), (Z.testbit f 2).
Qed.

Definition loaded (d : list Z) (b : buf) : buf :=
  set_b_flags (set_flag (b_flags b) B_VALID) (set_b_data d b).
Definition synced (b : buf) : buf :=
  set_b_flags (set_flag (clear_flag (b_flags b) B_DIRTY) B_VALID) b.

Lemma wp_iderw i s :
  busy (bufs s i) = true -> valid (bufs s i) && negb (dirty (bufs s i)) = false ->
  b_dev (bufs s i) = 1 -> 0 <= b_blockno (bufs s i) < disksize s ->
  disksize s < 2147483648 ->
  wp (iderw i) (fun _ s' => bsched s' = bsched s /\ disksize s' = disksize s /\
    let b := bufs s i in
    if dirty b then
      (forall k, bufs s' k = alter synced i (bufs s) k) /\
      disk s' = <[b_blockno b := b_data b]> (disk s) /\
      wtrace s' = wtrace s ++ [(b_blockno b, b_data b)]
    else
      (forall k, bufs s' k = alter (loaded (disk s (b_blockno b))) i (bufs s) k) /\
      disk s' = disk s /\ wtrace s' = wtrace s) s.
Proof.
  unfold busy, valid, dirty, iderw, buf_at, upd_buf. intros Hbusy Hvd Hdev Hn Hsz.
  apply wp_bind, wp_gets, wp_bind, wp_gets. rewrite Hbusy, iderw_nothing_to_do, Hvd, Hdev. simpl.
  rewrite u32_small by zlia. destruct (_ <=? _) eqn:E; [lia|]. clear E.
  destruct (has (b_flags (bufs s i)) B_DIRTY) eqn:Ed; wp_steps; simpl; split_and!; try done;
    intros k; destruct (decide (i = k)) as [->|];
    by rewrite ?fn_lookup_alter, ?fn_lookup_alter_ne.
Qed.

Lemma bget_pick_some bf dk dsz v D H l n :
  cache_rep bf dk dsz v D H -> ring bf l ->
  n ∈ D \/ (size D + size H < NBUF)%nat ->
  exists i bf', bget_pick n bf l = Some (i, bf').
Proof.
  intros Hc Hr Hroom. unfold bget_pick.
  pose proof (ring_facts _ _ Hr) as (_ & _ & Hin).
  destruct (find_first (fun i => is_block n (bf i)) l) eqn:E1; [eauto|].
  destruct (find_first _ (reverse l)) eqn:E2; simpl; [eauto|]. exfalso.
  destruct Hroom as [HD|Hsz].
  - apply (r_D _ _ _ _ _ _ Hc) in HD as (i & Hi & Hd & Hb).
    pose proof (find_first_None _ _ E1 i (proj2 (Hin i) Hi)) as Hf. simpl in Hf.
    apply not_true_iff_false in Hf. apply Hf, is_block_true. split; [|done].
    by apply (r_valid _ _ _ _ _ _ Hc), (r_dirty _ _ _ _ _ _ Hc).
  - destruct (free_buffer _ _ _ _ _ _ Hc Hsz) as (i & Hi & Hcl).
    pose proof (find_first_None _ _ E2 i) as Hf. rewrite elem_of_reverse, Hin in Hf.
    specialize (Hf Hi). simpl in Hf. apply not_true_iff_false in Hf.
    by apply Hf, clean_true.
Qed.

Lemma bget_pick_inv n bf l i bf' :
  ring bf l -> bget_pick n bf l = Some (i, bf') ->
  (i < NBUF)%nat /\
  ((is_block n (bf i) = true /\ bf' = alter marked i bf) \/
   ((forall j, (j < NBUF)%nat -> is_block n (bf j) = false) /\ clean (bf i) = true /\
    bf' = alter (recycled n) i bf)).
Proof.
  intros Hr. pose proof (ring_facts _ _ Hr) as (_ & _ & Hin). unfold bget_pick.
  destruct (find_first (fun i => is_block n (bf i)) l) as [j|] eqn:E1.
  - intros [= <- <-]. apply find_first_Some in E1 as [Hj Hb]. rewrite Hin in Hj. by auto.
  - destruct (find_first _ (reverse l)) as [j|] eqn:E2; simpl; [|done]. intros [= <- <-].
    apply find_first_Some in E2 as [Hj Hb]. rewrite elem_of_reverse, Hin in Hj.
    split; [done|]. right. split_and!; try done. intros k Hk.
    apply (find_first_None _ _ E1). by apply Hin.
Qed.

Lemma ring_alter bf bf' f i l :
  (forall b, same_links b (f b)) -> (forall k, bf' k = alter f i bf k) ->
  ring bf l -> ring bf' l.
Proof.
  intros Hf He. apply ring_ext. intros k. rewrite He.
  destruct (decide (i = k)) as [->|].
  - rewrite fn_lookup_alter. apply Hf.
  - by rewrite fn_lookup_alter_ne.
Qed.

(** A block that is not pinned and not held has its disk contents. *)
Lemma coh_not_dirty bf dk dsz v D H i n :
  cache_rep bf dk dsz v D H -> (i < NBUF)%nat -> 0 <= n < dsz ->
  (forall j, H !! j <> Some n) ->
  (forall j, (j < NBUF)%nat -> j <> i -> is_block n (bf j) = false) ->
  dirty (bf i) = false -> v n = dk n.
Proof.
  intros Hc Hi Hn HH Hne Hd. apply (r_coh _ _ _ _ _ _ Hc); [done| |done].
  rewrite (r_D _ _ _ _ _ _ Hc). intros (j & Hj & Hdj & Hbj).
  destruct (decide (j = i)) as [->|Hji]; [congruence|].
  specialize (Hne j Hj Hji). apply not_true_iff_false in Hne. apply Hne, is_block_true.
  split; [|done]. by apply (r_valid _ _ _ _ _ _ Hc), (r_dirty _ _ _ _ _ _ Hc).
Qed.

(** The buffer [bread] hands out has been changed by some [f] that leaves it
    with the block's contents, busy and valid, its pin as it was. *)
Lemma bio_rep_hold bf bf' dk dsz v D H i n f :
  bio_rep bf dk dsz v D H -> (i < NBUF)%nat -> 0 <= n < dsz -> H !! i = None ->
  (forall j, (j < NBUF)%nat -> j <> i -> is_block n (bf j) = false) ->
  (forall k, bf' k = alter f i bf k) -> (forall b, same_links b (f b)) ->
  is_block n (f (bf i)) = true -> b_data (f (bf i)) = v n ->
  busy (f (bf i)) = true -> valid (f (bf i)) = true ->
  dirty (f (bf i)) = dirty (bf i) ->
  (dirty (bf i) = true -> b_blockno (bf i) = n) ->
  bio_rep bf' dk dsz v D (<[i := n]> H).
Proof.
  intros [Hc (l & Hr)] Hi Hn HH Hne Hbf Hlk [Hdev Hbn]%is_block_true Hd Hbu Hva Hdi Hdn.
  split; [|exists l; by eapply ring_alter].
  assert (Hbi : bf' i = f (bf i)) by (by rewrite Hbf, fn_lookup_alter).
  apply (cache_rep_hold bf); rewrite ?Hbi; try done.
  - intros j Hj. by rewrite Hbf, fn_lookup_alter_ne.
  - intros j Hj Hji Hdv Hb. specialize (Hne j Hj Hji). apply not_true_iff_false in Hne.
    by apply Hne, is_block_true.
Qed.

(** How [bget] changed the buffer it returns. *)
Record taken_by (n : Z) (v : Z -> list Z) (b : buf) (g : buf -> buf) : Prop := {
  t_links : forall b', same_links b' (g b');
  t_block : is_block n (g b) = true;
  t_busy : busy (g b) = true;
  t_dirty : dirty (g b) = dirty b;
  t_pin : dirty b = true -> b_blockno b = n /\ valid (g b) = true;
  t_data : valid (g b) = true -> b_data (g b) = v n }.

Lemma taken_by_pick bf dk dsz v D H l n i bf' :
  cache_rep bf dk dsz v D H -> ring bf l -> bget_pick n bf l = Some (i, bf') ->
  exists g, bf' = alter g i bf /\ taken_by n v (bf i) g.
Proof.
  intros Hc Hr Hpick.
  destruct (bget_pick_inv _ _ _ _ _ Hr Hpick) as (Hi & [[Hib ->]|(_ & [_ Hd]%clean_true & ->)]).
  - exists marked. split; [done|]. pose proof Hib as [Hdev Hbn]%is_block_true.
    split; unfold busy, valid, dirty, marked in *; simpl; autorewrite with flags; try done.
    + intros Hd. split; [done|]. by apply (r_dirty _ _ _ _ _ _ Hc).
    + intros Hv. rewrite <-Hbn. by apply (r_valid _ _ _ _ _ _ Hc).
  - exists (recycled n). split; [done|].
    split; try done; [by apply is_block_true|..]; rewrite Hd; done.
Qed.

Lemma wp_bget_rep ie s0 n s v D H :
  brep s v D H -> quiet ie s0 (bsched s) ->
  (forall i, H !! i <> Some n) -> n ∈ D \/ (size D + size H < NBUF)%nat ->
  wp (bget 1 n) (fun i s' => quiet ie s0 (bsched s') /\ same_disk s s' /\
    (i < NBUF)%nat /\ H !! i = None /\
    (forall j, (j < NBUF)%nat -> j <> i -> is_block n (bufs s j) = false) /\
    exists g, (forall k, bufs s' k = alter g i (bufs s) k) /\ taken_by n v (bufs s i) g) s.
Proof.
  intros [Hc (l & Hr)] Hq HH Hroom.
  destruct (bget_pick_some _ _ _ _ _ _ _ _ Hc Hr Hroom) as (i & bf' & Hpick).
  pose proof (bget_pick_inv _ _ _ _ _ Hr Hpick) as (Hi & Hcase).
  assert (Hnb : is_block n (bufs s i) = true -> busy (bufs s i) = false).
  { intros [_ Hb]%is_block_true. apply not_true_iff_false. intros Hbusy.
    apply (HH i), (r_H _ _ _ _ _ _ Hc). done. }
  assert (Hnb' : busy (bufs s i) = false).
  { destruct Hcase as [[? _]|(_ & [? _]%clean_true & _)]; auto. }
  wp_call wp_bget; [done..|]. intros j s1 (-> & Hq1 & Hb1 & Hd1).
  destruct (taken_by_pick _ _ _ _ _ _ _ _ _ _ Hc Hr Hpick) as (g & -> & Hg).
  split_and!; try done; [..|by exists g].
  - apply eq_None_not_Some. intros [m Hm].
    apply (r_H _ _ _ _ _ _ Hc) in Hm as (_ & ? & _). congruence.
  - intros j Hj Hji. destruct Hcase as [[Hib _]|(Hall & _)]; [|by apply Hall].
    apply not_true_iff_false. intros Hjb. apply Hji.
    apply is_block_true in Hib as [??], Hjb as [??].
    apply (r_uniq _ _ _ _ _ _ Hc); [done..|congruence].
Qed.

(** [bread] returns the block's current contents in a buffer held for the
    caller, whatever the cache contains, and changes nothing a reader or the
    disk can see. *)
Lemma wp_bread ie s0 n s v D H :
  brep s v D H -> quiet ie s0 (bsched s) -> 0 <= n < disksize s ->
  (forall i, H !! i <> Some n) -> n ∈ D \/ (size D + size H < NBUF)%nat ->
  wp (bread 1 n) (fun i s' => quiet ie s0 (bsched s') /\ brep s' v D (<[i := n]> H) /\
    H !! i = None /\ same_disk s s') s.
Proof.
  intros Hrep Hq Hn HH Hroom. pose proof Hrep as [Hc _]. unfold bread, buf_at.
  wp_call wp_bget_rep; [done..|].
  intros i s1 (Hq1 & (Hdk & Hsz & Htr) & Hi & HHi & Hne & g & Hg & [Tl Tb Tu Td Tp Tv]).
  assert (Hs1i : bufs s1 i = g (bufs s i)) by (by rewrite Hg, fn_lookup_alter).
  wp_steps. rewrite Hs1i. fold (valid (g (bufs s i))).
  apply wp_bind. apply wp_when; intros Hv; [apply negb_true_iff in Hv|apply negb_false_iff in Hv].
  - assert (Hnd : dirty (bufs s i) = false).
    { apply not_true_iff_false. intros [_ ?]%Tp. congruence. }
    pose proof (coh_not_dirty _ _ _ _ _ _ i n Hc Hi Hn HH Hne Hnd) as Hvn.
    pose proof Tb as [Tdev Tbn]%is_block_true.
    wp_call wp_iderw; rewrite ?Hs1i, ?Tbn, ?Hsz; try done; [by rewrite Hv|by apply (r_size _ _ _ _ _ _ Hc)|].
    intros _ s2 (Hsc2 & Hsz2 & H2). cbv zeta in H2. rewrite Td, Hnd in H2. destruct H2 as (Hb2 & Hdk2 & Htr2).
    wp_steps. split_and!; [by rewrite Hsc2| |done|unfold same_disk; split_and!; congruence].
    rewrite Hdk2, Hsz2, Hdk, ?Hsz.
    eapply (bio_rep_hold _ _ _ _ _ _ _ i n (fun b => loaded (disk s n) (g b))); try done.
    + intros k. rewrite Hb2, Tbn. destruct (decide (i = k)) as [<-|].
      * by rewrite !fn_lookup_alter, Hs1i, ?Hdk.
      * by rewrite fn_lookup_alter_ne, Hg, !fn_lookup_alter_ne.
    + unfold busy, loaded in *; simpl; by autorewrite with flags.
    + unfold valid, loaded in *; simpl; by autorewrite with flags.
    + unfold dirty, loaded in *; simpl; by autorewrite with flags.
    + intros Hd. congruence.
  - wp_steps. split_and!; [done| |done..]. rewrite Hdk, Hsz.
    eapply (bio_rep_hold _ _ _ _ _ _ _ i n g); try done; [by apply Tv|by intros [? _]%Tp].
Qed.

(** *** Using a held buffer *)

Lemma held_facts bf dk dsz v D H i n :
  bio_rep bf dk dsz v D H -> H !! i = Some n ->
  (i < NBUF)%nat /\ 0 <= n < dsz /\ busy (bf i) = true /\ valid (bf i) = true /\
  b_dev (bf i) = 1 /\ b_blockno (bf i) = n /\ b_data (bf i) = v n.
Proof.
  intros [Hc _] HH. apply (r_H _ _ _ _ _ _ Hc) in HH as (Hi & Hb & Hn).
  pose proof (r_busy _ _ _ _ _ _ Hc i Hi Hb) as Hv.
  destruct (r_valid _ _ _ _ _ _ Hc i Hi Hv) as (Hd & Hr & Hdata).
  rewrite Hn in *. done.
Qed.

(** A held buffer changes: its contents, pin and hold, and the disk block
    behind it, in step with the abstract state. *)
Lemma cache_rep_upd bf bf' dk dk' dsz v v' D D' H H' i n :
  bio_rep bf dk dsz v D H -> H !! i = Some n ->
  (forall j, j <> i -> bf' j = bf j) ->
  b_dev (bf' i) = b_dev (bf i) -> b_blockno (bf' i) = b_blockno (bf i) ->
  valid (bf' i) = true -> b_data (bf' i) = v' n ->
  (forall m, m <> n -> v' m = v m /\ dk' m = dk m /\ (m ∈ D' <-> m ∈ D)) ->
  block_ok (v' n) -> block_ok (dk' n) ->
  (forall j, j <> i -> H' !! j = H !! j) ->
  H' !! i = (if busy (bf' i) then Some n else None) ->
  (n ∈ D' <-> dirty (bf' i) = true) ->
  (n ∉ D' -> H' !! i = None -> v' n = dk' n) ->
  cache_rep bf' dk' dsz v' D' H'.
Proof.
  intros Hrep HH He Hdev Hbn Hva Hda Hm Hok Hok' HH' HHi HDi Hcoh.
  pose proof (held_facts _ _ _ _ _ _ _ _ Hrep HH) as (Hi & Hn & Hbusy & Hv & Hd1 & Hb1 & Hd).
  destruct Hrep as [Hc _]. pose proof Hc as [H1 H2 H3 H4 H5 H6 H7 H8 H9 H10].
  assert (Hother : forall j, (j < NBUF)%nat -> j <> i -> b_dev (bf j) = 1 -> b_blockno (bf j) <> n).
  { intros j Hj Hji Hdj Hbj. apply Hji, H4; congruence. }
  split; try done.
  - intros m Hm'. destruct (decide (m = n)) as [->|Hmn]; [done|].
    destruct (Hm m Hmn) as (_ & -> & _). by apply H2.
  - intros m Hm'. destruct (decide (m = n)) as [->|Hmn]; [done|].
    destruct (Hm m Hmn) as (-> & _). by apply H3.
  - intros j k Hj Hk. destruct (decide (j = i)) as [->|], (decide (k = i)) as [->|];
      rewrite ?(He j), ?(He k), ?Hdev, ?Hbn by done; by apply H4.
  - intros j Hj. destruct (decide (j = i)) as [->|].
    + intros _. rewrite Hdev, Hbn, Hda, Hb1. done.
    + rewrite He by done. intros Hvj. destruct (H5 j Hj Hvj) as (? & ? & Hdj).
      split; [done|split; [done|]]. destruct (Hm (b_blockno (bf j))) as (-> & _); [by apply Hother|done].
  - intros j Hj. destruct (decide (j = i)) as [->|]; [done|]. rewrite He by done. by apply H6.
  - intros j Hj. destruct (decide (j = i)) as [->|]; [done|]. rewrite He by done. by apply H7.
  - intros j m. destruct (decide (j = i)) as [->|].
    + rewrite HHi, Hbn, Hb1. destruct (busy (bf' i)); naive_solver.
    + rewrite HH', He by done. apply H8.
  - intros m. destruct (decide (m = n)) as [->|Hmn].
    + rewrite HDi. split; [|intros (j & Hj & Hdj & Hbj)].
      * intros Hdi. exists i. by rewrite Hbn.
      * destruct (decide (j = i)) as [->|Hji]; [done|]. rewrite He in Hdj, Hbj by done.
        exfalso. apply (Hother j); try done. by apply H5, H6.
    + destruct (Hm m Hmn) as (_ & _ & ->). rewrite H9. split; intros (j & Hj & Hdj & Hbj); exists j;
        (destruct (decide (j = i)) as [->|Hji]; [exfalso; congruence|]).
      * by rewrite He.
      * by rewrite He in Hdj, Hbj.
  - intros m Hm' HmD HmH. destruct (decide (m = n)) as [->|Hmn].
    + apply Hcoh; [done|]. destruct (busy (bf' i)); [|done]. exfalso. by apply (HmH i).
    + destruct (Hm m Hmn) as (-> & -> & HD). apply H10; [done|by rewrite <-HD|].
      intros j Hj. apply (HmH j). rewrite HH'; [done|]. intros ->. congruence.
Qed.

Lemma alter_at {A} (f : A -> A) (g : nat -> A) i : alter f i g i = f (g i).
Proof. apply fn_lookup_alter. Qed.
Lemma alter_off {A} (f : A -> A) (g : nat -> A) i j : j <> i -> alter f i g j = g j.
Proof. intros. by apply fn_lookup_alter_ne. Qed.

Lemma dirty_held bf dk dsz v D H i n :
  bio_rep bf dk dsz v D H -> H !! i = Some n -> n ∈ D <-> dirty (bf i) = true.
Proof.
  intros Hrep HH.
  pose proof (held_facts _ _ _ _ _ _ _ _ Hrep HH) as (Hi & Hn & _ & Hv & Hd1 & Hb1 & _).
  destruct Hrep as [Hc _]. rewrite (r_D _ _ _ _ _ _ Hc). split; [|by exists i].
  intros (j & Hj & Hdj & Hbj). assert (j = i) as ->; [|done].
  apply (r_uniq _ _ _ _ _ _ Hc); try done; [|congruence].
  by apply (r_valid _ _ _ _ _ _ Hc), (r_dirty _ _ _ _ _ _ Hc).
Qed.

Lemma wp_set_data i n d s v D H :
  brep s v D H -> H !! i = Some n -> block_ok d ->
  wp (upd_buf i (set_b_data d))
    (fun _ s' => bsched s' = bsched s /\ brep s' (<[n := d]> v) D H /\ same_disk s s') s.
Proof.
  intros Hrep HH Hok. apply wp_upd_buf. split; [done|split; [|done]]. simpl.
  pose proof (held_facts _ _ _ _ _ _ _ _ Hrep HH) as (Hi & Hn & Hbusy & Hv & Hd1 & Hb1 & Hd).
  pose proof Hrep as [Hc (l & Hr)].
  split; [|exists l; by eapply (ring_alter _ _ (set_b_data d) i)].
  eapply (cache_rep_upd _ _ _ _ _ v _ D _ H _ i n); try done; rewrite ?alter_at; try done.
  - intros j Hj. by apply alter_off.
  - by rewrite fn_lookup_insert.
  - intros m Hm. by rewrite fn_lookup_insert_ne.
  - by rewrite fn_lookup_insert.
  - by apply (r_disk _ _ _ _ _ _ Hc).
  - unfold busy in *. simpl. by rewrite Hbusy.
  - by apply (dirty_held _ _ _ _ _ _ _ _ Hrep).
  - congruence.
Qed.

(** [b->flags |= B_DIRTY], the pin of log.c. *)
Definition pin (i : nat) : M bio_st unit :=
  upd_buf i (fun b => set_b_flags (set_flag (b_flags b) B_DIRTY) b).

Lemma wp_pin i n s v D H :
  brep s v D H -> H !! i = Some n ->
  wp (pin i) (fun _ s' => bsched s' = bsched s /\ brep s' v ({[n]} ∪ D) H /\ same_disk s s') s.
Proof.
  intros Hrep HH. apply wp_upd_buf. split; [done|split; [|done]]. simpl.
  pose proof (held_facts _ _ _ _ _ _ _ _ Hrep HH) as (Hi & Hn & Hbusy & Hv & Hd1 & Hb1 & Hd).
  pose proof Hrep as [Hc (l & Hr)].
  split; [|exists l; by eapply (ring_alter _ _ (fun b => set_b_flags (set_flag (b_flags b) B_DIRTY) b) i)].
  eapply (cache_rep_upd _ _ _ _ _ v _ D _ H _ i n); try done; rewrite ?alter_at; try done.
  - intros j Hj. by apply alter_off.
  - unfold valid in *; simpl. by autorewrite with flags.
  - set_solver.
  - by apply (r_view _ _ _ _ _ _ Hc).
  - by apply (r_disk _ _ _ _ _ _ Hc).
  - unfold busy in *; simpl. autorewrite with flags. by rewrite Hbusy.
  - unfold dirty; simpl. autorewrite with flags. set_solver.
  - congruence.
Qed.

(** [bwrite] writes the buffer's contents to its block and unpins it. *)
Lemma wp_bwrite i n s v D H :
  brep s v D H -> H !! i = Some n ->
  wp (bwrite i) (fun _ s' => bsched s' = bsched s /\ brep s' v (D ∖ {[n]}) H /\
    disk s' = <[n := v n]> (disk s) /\ disksize s' = disksize s /\
    wtrace s' = wtrace s ++ [(n, v n)]) s.
Proof.
  intros Hrep HH. pose proof Hrep as [Hc (l & Hr)].
  pose proof (held_facts _ _ _ _ _ _ _ _ Hrep HH) as (Hi & Hn & Hbusy & Hv & Hd1 & Hb1 & Hd).
  unfold bwrite, buf_at, upd_buf. apply wp_bind, wp_gets. fold (busy (bufs s i)).
  rewrite Hbusy. simpl. wp_steps.
  set (b1 := set_b_flags (set_flag (b_flags (bufs s i)) B_DIRTY) (bufs s i)).
  assert (Hb1' : dirty b1 = true) by (unfold dirty, b1; simpl; by autorewrite with flags).
  wp_call wp_iderw; simpl; rewrite ?alter_at; fold b1; simpl; try done.
  - unfold busy, b1 in *; simpl. by autorewrite with flags.
  - rewrite Hb1'. apply andb_false_r.
  - by rewrite Hb1.
  - by apply (r_size _ _ _ _ _ _ Hc).
  - intros _ s' (Hsc & Hsz & Hrest). fold b1 in Hrest. rewrite Hb1' in Hrest.
    simpl in Hrest. rewrite Hb1, Hd in Hrest. destruct Hrest as (Hbf & Hdk & Htr).
    split_and!; try done.
    assert (Hbf' : forall k, bufs s' k = alter (fun b => synced (set_b_flags (set_flag (b_flags b) B_DIRTY) b)) i (bufs s) k).
    { intros k. rewrite Hbf. destruct (decide (k = i)) as [->|].
      - by rewrite !alter_at.
      - by rewrite !alter_off. }
    split; [|exists l; by eapply ring_alter; [|exact Hbf'|]].
    rewrite Hdk, Hsz.
    eapply (cache_rep_upd _ _ _ _ _ v _ D _ H _ i n); try done; rewrite ?Hbf', ?alter_at; try done.
    + intros j Hj. by rewrite Hbf', alter_off.
    + unfold valid, synced in *; simpl. by autorewrite with flags.
    + intros m Hm. rewrite fn_lookup_insert_ne by done. set_solver.
    + by apply (r_view _ _ _ _ _ _ Hc).
    + rewrite fn_lookup_insert. by apply (r_view _ _ _ _ _ _ Hc).
    + unfold busy, synced in *; simpl. autorewrite with flags. by rewrite Hbusy.
    + unfold dirty, synced; simpl. autorewrite with flags. set_solver.
    + congruence.
Qed.

(** *** Releasing a buffer: the LRU list *)

Definition unlinked (i : nat) (bf : nat -> buf) : nat -> buf :=
  let bf1 := alter (set_b_prev (b_prev (bf i))) (b_next (bf i)) bf in
  alter (set_b_next (b_next (bf1 i))) (b_prev (bf1 i)) bf1.
Definition linked (i : nat) (bf : nat -> buf) : nat -> buf :=
  let bf1 := alter (set_b_prev NBUF) i (alter (set_b_next (b_next (bf NBUF))) i bf) in
  alter (set_b_next i) NBUF (alter (set_b_prev i) (b_next (bf1 NBUF)) bf1).

Lemma next_set_prev x j (bf : nat -> buf) k : b_next (alter (set_b_prev x) j bf k) = b_next (bf k).
Proof. destruct (decide (k = j)) as [->|]; by rewrite ?alter_at, ?alter_off. Qed.
Lemma prev_set_next x j (bf : nat -> buf) k : b_prev (alter (set_b_next x) j bf k) = b_prev (bf k).
Proof. destruct (decide (k = j)) as [->|]; by rewrite ?alter_at, ?alter_off. Qed.
Lemma next_set_next x j (bf : nat -> buf) k :
  b_next (alter (set_b_next x) j bf k) = (<[j := x]> (fun i => b_next (bf i))) k.
Proof.
  destruct (decide (k = j)) as [->|].
  - by rewrite alter_at, fn_lookup_insert.
  - by rewrite alter_off, fn_lookup_insert_ne.
Qed.
Lemma prev_set_prev x j (bf : nat -> buf) k :
  b_prev (alter (set_b_prev x) j bf k) = (<[j := x]> (fun i => b_prev (bf i))) k.
Proof.
  destruct (decide (k = j)) as [->|].
  - by rewrite alter_at, fn_lookup_insert.
  - by rewrite alter_off, fn_lookup_insert_ne.
Qed.

(** Both updates touch only the list pointers. *)
Lemma core_set_next x j (bf : nat -> buf) k : same_core (bf k) (alter (set_b_next x) j bf k).
Proof. destruct (decide (k = j)) as [->|]; by rewrite ?alter_at, ?alter_off. Qed.
Lemma core_set_prev x j (bf : nat -> buf) k : same_core (bf k) (alter (set_b_prev x) j bf k).
Proof. destruct (decide (k = j)) as [->|]; by rewrite ?alter_at, ?alter_off. Qed.
Lemma same_core_trans b1 b2 b3 : same_core b1 b2 -> same_core b2 b3 -> same_core b1 b3.
Proof. intros (?&?&?&?) (?&?&?&?). repeat split; congruence. Qed.

Lemma core_unlinked i bf k : same_core (bf k) (unlinked i bf k).
Proof. unfold unlinked. eauto using same_core_trans, core_set_next, core_set_prev. Qed.
Lemma core_linked i bf k : same_core (bf k) (linked i bf k).
Proof.
  unfold linked. do 3 (eapply same_core_trans; [|first [apply core_set_next|apply core_set_prev]]).
  apply core_set_next.
Qed.

Notation nexts bf := (fun k => b_next (bf k)).
Notation prevs bf := (fun k => b_prev (bf k)).

Lemma links_unlinked i bf l1 l2 :
  links (nexts bf) (prevs bf) NBUF (l1 ++ i :: l2) NBUF ->
  NoDup (NBUF :: l1 ++ i :: l2) ->
  links (nexts (unlinked i bf)) (prevs (unlinked i bf)) NBUF (l1 ++ l2) NBUF.
Proof.
  intros Hl Hnd. pose proof Hnd as [Hh Hnd']%NoDup_cons.
  pose proof Hl as [H1 H2]%links_app. apply links_nx_in in H2.
  assert (Hni : b_next (bf i) <> i).
  { intros He. simpl in H2. rewrite He in H2.
    apply NoDup_app in Hnd' as (_ & _ & [Hi _]%NoDup_cons).
    apply elem_of_app in H2 as [?|?%list_elem_of_singleton]; [done|]. subst. set_solver. }
  eapply links_ext; [..|apply (links_unlink _ _ i l2 NBUF l1 _ Hl Hnd Hh)];
    intros k _; unfold unlinked; cbv zeta.
  - rewrite next_set_next, alter_off by done.
    unfold insert, fn_insert. case_decide; [done|]. by rewrite next_set_prev.
  - rewrite prev_set_next. by rewrite prev_set_prev.
Qed.

Lemma links_linked i bf l :
  links (nexts bf) (prevs bf) NBUF l NBUF -> i ∉ NBUF :: l -> NoDup (NBUF :: l) ->
  links (nexts (linked i bf)) (prevs (linked i bf)) NBUF (i :: l) NBUF.
Proof.
  intros Hl Hi Hnd.
  assert (Hni : NBUF <> i) by set_solver.
  eapply links_ext; [..|apply (links_insert _ _ _ _ _ Hl Hi Hnd)];
    intros k _; unfold linked; cbv zeta.
  - rewrite next_set_next. unfold insert, fn_insert. case_decide; [done|].
    rewrite next_set_prev. rewrite next_set_prev, next_set_next. done.
  - rewrite prev_set_next, prev_set_prev. unfold insert, fn_insert.
    rewrite next_set_prev, next_set_next. unfold insert, fn_insert.
    rewrite (decide_False (P := i = NBUF)) by done. case_decide; [done|].
    rewrite prev_set_prev. unfold insert, fn_insert. case_decide; [done|].
    by rewrite prev_set_next.
Qed.

(** [brelse] moves the buffer to the front of the LRU list. *)
Lemma ring_brelse i bf l :
  ring bf l -> (i < NBUF)%nat ->
  exists l1 l2, l = l1 ++ i :: l2 /\ ring (linked i (unlinked i bf)) (i :: l1 ++ l2).
Proof.
  intros Hr Hi. pose proof (ring_facts _ _ Hr) as (Hh & _ & Hin). destruct Hr as [Hl Hp].
  destruct (list_elem_of_split l i) as (l1 & l2 & ->); [by apply Hin|].
  assert (Hnd : NoDup (NBUF :: l1 ++ i :: l2)).
  { apply NoDup_cons. split; [done|]. rewrite Hp. apply NoDup_seq. }
  exists l1, l2. split; [done|]. split.
  - apply links_linked; [by apply links_unlinked|..].
    + rewrite NoDup_cons, <-Permutation_middle, NoDup_cons in Hnd. set_solver.
    + rewrite NoDup_cons, <-Permutation_middle, NoDup_cons in Hnd. apply NoDup_cons.
      set_solver.
  - by rewrite <-Hp, Permutation_middle.
Qed.

Definition unmarked (b : buf) : buf := set_b_flags (clear_flag (b_flags b) B_BUSY) b.

(** The buffers after [brelse i]. *)
Definition released (i : nat) (bf : nat -> buf) : nat -> buf :=
  alter unmarked i (linked i (unlinked i bf)).

Lemma wp_brelse_bufs ie s0 i s :
  quiet ie s0 (bsched s) -> busy (bufs s i) = true ->
  wp (brelse i) (fun _ s' => quiet ie s0 (bsched s') /\ bufs s' = released i (bufs s) /\
    same_disk s s') s.
Proof.
  intros Hq Hb. unfold brelse, link_head, link_head2, buf_at, upd_buf.
  apply wp_bind, wp_gets. fold (busy (bufs s i)). rewrite Hb. simpl.
  wp_call wp_sched; [by apply wp_acquire_quiet|]. intros _ s1 (sc & -> & HL & Hw). simpl.
  wp_steps. simpl.
  wp_call wp_sched; [by apply wp_wakeup_quiet|]. intros _ s2 (sc2 & -> & HL2 & Hw2).
  wp_call wp_release_b; [done..|]. intros _ s3 (Hq3 & Hb3 & Hd3).
  split; [done|]. split; [by rewrite Hb3|done].
Qed.

Lemma ring_released i bf l :
  ring bf l -> (i < NBUF)%nat ->
  exists l1 l2, l = l1 ++ i :: l2 /\ ring (released i bf) (i :: l1 ++ l2).
Proof.
  intros Hr Hi. destruct (ring_brelse i bf l Hr Hi) as (l1 & l2 & -> & Hr').
  exists l1, l2. split; [done|]. eapply (ring_alter _ _ unmarked i); [|done|exact Hr']. done.
Qed.

Lemma wp_brelse ie s0 i n s v D H :
  brep s v D H -> quiet ie s0 (bsched s) -> H !! i = Some n ->
  n ∈ D \/ v n = disk s n ->
  wp (brelse i) (fun _ s' => quiet ie s0 (bsched s') /\ brep s' v D (delete i H) /\
    same_disk s s') s.
Proof.
  intros Hrep Hq HH Hcoh. pose proof Hrep as [Hc (l & Hr)].
  pose proof (held_facts _ _ _ _ _ _ _ _ Hrep HH) as (Hi & Hn & Hbusy & Hv & Hd1 & Hb1 & Hd).
  wp_call wp_brelse_bufs; [done..|]. intros _ s' (Hq' & Hbf & Hdk & Hsz & Htr).
  split; [done|split; [|done]].
  destruct (ring_released i _ _ Hr Hi) as (l1 & l2 & _ & Hr').
  split; [|rewrite Hbf; eauto]. rewrite Hdk, Hsz, Hbf.
  eapply cache_rep_core with (alter unmarked i (bufs s)).
  { intros k Hk. unfold released. destruct (decide (k = i)) as [->|].
    - rewrite !alter_at. destruct (same_core_trans _ _ _ (core_unlinked i (bufs s) i)
        (core_linked i (unlinked i (bufs s)) i)) as (Hf & ? & ? & ?).
      unfold unmarked. repeat split; simpl; try done. by rewrite Hf.
    - rewrite !alter_off by done. eapply same_core_trans; [apply core_unlinked|apply core_linked]. }
  eapply (cache_rep_upd _ _ _ _ _ v _ D _ H _ i n); try done; rewrite ?alter_at; try done.
  - intros j Hj. by apply alter_off.
  - unfold valid, unmarked in *; simpl. by autorewrite with flags.
  - by apply (r_view _ _ _ _ _ _ Hc).
  - by apply (r_disk _ _ _ _ _ _ Hc).
  - intros j Hj. by rewrite lookup_delete_ne.
  - unfold busy, unmarked; simpl. autorewrite with flags. apply lookup_delete_eq.
  - unfold unmarked, dirty; simpl. autorewrite with flags. by apply (dirty_held _ _ _ _ _ _ _ _ Hrep).
  - by destruct Hcoh.
Qed.

(** *** Boot *)

Lemma dev_set_dev x j (bf : nat -> buf) k :
  alter (set_b_dev x) j bf k = (if decide (k = j) then set_b_dev x (bf k) else bf k).
Proof. case_decide; subst; by rewrite ?alter_at, ?alter_off. Qed.

Lemma next_set_dev x j (bf : nat -> buf) k : b_next (alter (set_b_dev x) j bf k) = b_next (bf k).
Proof. rewrite dev_set_dev. by case_decide. Qed.
Lemma prev_set_dev x j (bf : nat -> buf) k : b_prev (alter (set_b_dev x) j bf k) = b_prev (bf k).
Proof. rewrite dev_set_dev. by case_decide. Qed.

(** One round of the loop of [binit]: as [linked], with the device reset. *)
Definition fresh (i : nat) (bf : nat -> buf) : nat -> buf :=
  let bf1 := alter (set_b_dev (u32 (-1))) i
               (alter (set_b_prev NBUF) i (alter (set_b_next (b_next (bf NBUF))) i bf)) in
  alter (set_b_next i) NBUF (alter (set_b_prev i) (b_next (bf1 NBUF)) bf1).

Lemma links_fresh i bf l :
  links (nexts bf) (prevs bf) NBUF l NBUF -> i ∉ NBUF :: l -> NoDup (NBUF :: l) ->
  links (nexts (fresh i bf)) (prevs (fresh i bf)) NBUF (i :: l) NBUF.
Proof.
  intros Hl Hi Hnd. assert (Hni : NBUF <> i) by set_solver.
  eapply links_ext; [..|apply (links_linked _ _ _ Hl Hi Hnd)];
    intros k _; unfold fresh, linked; cbv zeta; rewrite next_set_dev.
  - rewrite !next_set_next. unfold insert, fn_insert. case_decide; [done|].
    by rewrite !next_set_prev, next_set_dev, ?next_set_prev.
  - rewrite !prev_set_next, !prev_set_prev. unfold insert, fn_insert. case_decide; [done|].
    by rewrite prev_set_dev.
Qed.

Lemma fresh_flags i bf k :
  b_flags (fresh i bf k) = b_flags (bf k) /\ b_data (fresh i bf k) = b_data (bf k) /\
  b_dev (fresh i bf k) = if decide (k = i) then u32 (-1) else b_dev (bf k).
Proof.
  unfold fresh; cbv zeta.
  set (bf0 := alter (set_b_prev NBUF) i _).
  set (bf1 := alter (set_b_dev _) i bf0).
  destruct (same_core_trans _ _ _ (core_set_prev i (b_next (bf1 NBUF)) bf1 k)
    (core_set_next i NBUF _ k)) as (-> & -> & _ & ->).
  unfold bf1. rewrite dev_set_dev.
  destruct (same_core_trans _ _ _ (core_set_next (b_next (bf NBUF)) i bf k)
    (core_set_prev NBUF i _ k)) as (Hf & Hd & _ & Hda). fold bf0 in Hf, Hd, Hda.
  case_decide; simpl; by rewrite ?Hf, ?Hda, ?Hd.
Qed.

Lemma wp_binit_loop l : forall s l0,
  links (nexts (bufs s)) (prevs (bufs s)) NBUF l0 NBUF -> NoDup (NBUF :: l ++ l0) ->
  wp (binit_loop l) (fun _ s' => bsched s' = bsched s /\ same_disk s s' /\
    links (nexts (bufs s')) (prevs (bufs s')) NBUF (reverse l ++ l0) NBUF /\
    forall k, b_flags (bufs s' k) = b_flags (bufs s k) /\
      b_dev (bufs s' k) = if decide (k ∈ l) then u32 (-1) else b_dev (bufs s k)) s.
Proof.
  induction l as [|i l IH]; intros s l0 Hl Hnd; simpl.
  { wp_steps. by split_and!. }
  unfold link_head, link_head2, upd_buf.
  wp_steps. cbn [bufs set_bufs bsched disk disksize wtrace].
  assert (Hnd' : i ∉ NBUF :: l0 /\ NoDup (NBUF :: l ++ i :: l0) /\ NoDup (NBUF :: l0)).
  { clear -Hnd. simpl in Hnd.
    rewrite !NoDup_cons, <-?Permutation_middle, ?NoDup_cons, NoDup_app in *. set_solver. }
  destruct Hnd' as (Hi & Hnd1 & Hnd2).
  wp_call (IH _ (i :: l0)); [by apply (links_fresh i (bufs s) l0)|done|].
  intros _ s' (Hsc & Hsd & Hl' & Hk). split; [done|]. split; [done|].
  rewrite reverse_cons, <-app_assoc. split; [done|].
  intros k. destruct (Hk k) as [-> ->].
  destruct (fresh_flags i (bufs s) k) as (Hff & _ & Hfd).
  split; [exact Hff|].
  destruct (decide (k ∈ l)).
  - by rewrite decide_True by (apply elem_of_cons; auto).
  - etrans; [exact Hfd|]. destruct (decide (k = i)) as [->|].
    + by rewrite decide_True by (apply elem_of_cons; auto).
    + by rewrite decide_False by by intros [?|?]%elem_of_cons.
Qed.

Lemma wp_binit s :
  (forall i, b_flags (bufs s i) = 0) ->
  0 <= disksize s < 2147483648 -> (forall n, 0 <= n < disksize s -> block_ok (disk s n)) ->
  wp binit (fun _ s' => brep s' (disk s) ∅ ∅ /\ ring (bufs s') (reverse (seq 0 NBUF)) /\
    same_disk s s' /\ forall ie s0, quiet ie s0 (bsched s) -> quiet ie s0 (bsched s')) s.
Proof.
  intros Hfl Hsz Hdk. unfold binit, initlock, upd_buf.
  apply wp_bind, wp_lift, wp_lift, wp_modify. wp_steps. cbn [bufs set_bufs].
  wp_call (wp_binit_loop _ _ []).
  - cbn [links bufs set_bufs lset bsched_lens].
    split; [by rewrite next_set_next, fn_lookup_insert|].
    by rewrite prev_set_next, prev_set_prev, fn_lookup_insert.
  - rewrite app_nil_r. apply NoDup_cons. split; [|apply NoDup_seq].
    rewrite elem_of_seq. lia.
  - intros _ s' (Hsc & (Hdk' & Hsz' & Htr') & Hl & Hk).
    rewrite app_nil_r in Hl. simpl in Hdk', Hsz', Htr'.
    assert (Hfl' : forall k, b_flags (bufs s' k) = 0).
    { intros k. destruct (Hk k) as [-> _]. cbn [bufs set_bufs lset bsched_lens].
      destruct (core_set_next NBUF NBUF (alter (set_b_prev NBUF) NBUF (bufs s)) k) as (-> & _).
      destruct (core_set_prev NBUF NBUF (bufs s) k) as (-> & _). apply Hfl. }
    assert (Hr : ring (bufs s') (reverse (seq 0 NBUF))).
    { split; [done|]. by rewrite reverse_Permutation. }
    split; [|split_and!; try done].
    2:{ intros ie s0 Hq. rewrite Hsc. by apply quiet_initlock. }
    split; [|eauto]. rewrite Hdk', Hsz'.
    split; try done; unfold busy, valid, dirty; intros i; rewrite ?Hfl'; try done.
    + intros j Hi Hj. destruct (Hk i) as [_ ->]. rewrite decide_True; [done|].
      apply elem_of_seq. lia.
    + intros n. split; [by rewrite lookup_empty|by intros (_ & ? & _)].
    + split; [set_solver|]. intros (j & _ & Hd & _). by rewrite Hfl' in Hd.
Qed.

(** After [binit] on a cache full of zeroed buffers the buffers form a
    circular LRU list, no block is held or pinned, and every reader sees the
    disk's contents. *)
Theorem binit_establishes s :
  (forall i, b_flags (bufs s i) = 0) ->
  0 <= disksize s < 2147483648 -> (forall n, 0 <= n < disksize s -> block_ok (disk s n)) ->
  wp binit (fun _ s' => brep s' (disk s) ∅ ∅ /\ ring (bufs s') (reverse (seq 0 NBUF)) /\
    same_disk s s') s.
Proof.
  intros H1 H2 H3. eapply wp_mono; [by apply wp_binit|]. intros _ s' (? & ? & ? & _). done.
Qed.

(** A machine with zeroed buffers and a disk of [n] blocks. *)
Definition boot_bio (dk : Z -> list Z) (n : Z) : bio_st :=
  BioSt boot_sched (fun _ => Buf 0 0 0 0 0 None (replicate BSIZE 0)) dk n [].
Definition blank : Z -> list Z := fun _ => replicate BSIZE 0.

Lemma blank_ok n : block_ok (blank n).
Proof. split; [apply length_replicate|]. by apply Forall_replicate. Qed.

Lemma binit_establishes_witness :
  wp binit (fun _ s' => brep s' blank ∅ ∅ /\ ring (bufs s') (reverse (seq 0 NBUF)) /\
    same_disk (boot_bio blank 1000) s') (boot_bio blank 1000).
Proof.
  apply (binit_establishes (boot_bio blank 1000)); [done|simpl; lia|]. intros n _. apply blank_ok.
Defined.
