(* ===== verification/Log.v ===== *)
(** * The write-ahead log (log.c)

    A transaction collects the blocks that file system calls modify in the
    buffer cache ([log_write] pins them), and [commit] copies them to the log
    region of the disk, writes the header block (the commit point), installs
    them at their home locations and clears the header.  [recover_from_log]
    repeats the installation after a crash.

    The theorems say that every crash of [commit], between any two disk
    writes, is recovered to either all or none of the transaction's writes,
    and that a crash during recovery is harmless. *)

From S2P Require Import Prelude Params Spinlock Sched Ring Bio.

Definition MAXOPBLOCKS : Z := 10.
Definition LOGSIZE : nat := 30.
#[global] Arguments LOGSIZE : simpl never.

(** ** Data *)

(** [struct log] with its in-memory [struct logheader]. *)
Record log := Log {
  start : Z; size : Z; outstanding : Z; committing : Z; ldev : Z;
  lh_n : Z; lh_block : list Z }.

Record log_st := LogSt { lbio : bio_st; lg : log }.

Definition lbio_lens : lens log_st bio_st := Lens lbio (fun x s => LogSt x (lg s)).
Definition set_lg (x : log) (s : log_st) : log_st := LogSt (lbio s) x.

Definition set_outstanding x g :=
  Log (start g) (size g) x (committing g) (ldev g) (lh_n g) (lh_block g).
Definition set_committing x g :=
  Log (start g) (size g) (outstanding g) x (ldev g) (lh_n g) (lh_block g).
Definition set_lh_n x g :=
  Log (start g) (size g) (outstanding g) (committing g) (ldev g) x (lh_block g).
Definition set_lh_block x g :=
  Log (start g) (size g) (outstanding g) (committing g) (ldev g) (lh_n g) x.

(** 32-bit fields of a block. *)
Definition get_word (off : nat) (d : list Z) : Z := le_val (slice off 4 d).
Definition put_word (off : nat) (w : Z) (d : list Z) : list Z := splice off (le_bytes 4 w) d.

(** [struct superblock] (fs.h). *)
Record superblock := Superblock {
  sb_size : Z; sb_nblocks : Z; sb_ninodes : Z; sb_nlog : Z;
  sb_logstart : Z; sb_inodestart : Z; sb_bmapstart : Z }.
Definition decode_sb (d : list Z) : superblock :=
  Superblock (get_word 0 d) (get_word 4 d) (get_word 8 d) (get_word 12 d)
    (get_word 16 d) (get_word 20 d) (get_word 24 d).

(** ** Operations *)

Definition bread (dev n : Z) : M log_st nat := lift lbio_lens (Bio.bread dev n).
Definition bwrite (i : nat) : M log_st unit := lift lbio_lens (Bio.bwrite i).
Definition brelse (i : nat) : M log_st unit := lift lbio_lens (Bio.brelse i).
Definition pin (i : nat) : M log_st unit := lift lbio_lens (Bio.pin i).
Definition acquire (l : lockid) : M log_st unit := lift lbio_lens (Bio.acquire l).
Definition release (l : lockid) : M log_st unit := lift lbio_lens (Bio.release l).
Definition wakeup (c : chan) : M log_st unit := lift lbio_lens (Bio.wakeup c).
Definition sleep (c : chan) (l : lockid) : M log_st unit := lift lbio_lens (Bio.sleep c l).

Definition buf_data (i : nat) : M log_st (list Z) := gets (fun s => b_data (bufs (lbio s) i)).
Definition buf_blockno (i : nat) : M log_st Z := gets (fun s => b_blockno (bufs (lbio s) i)).
(** A [memmove] over the whole of [bp->data], or a store into it. *)
Definition set_data (i : nat) (d : list Z) : M log_st unit :=
  lift lbio_lens (upd_buf i (set_b_data d)).
Definition get_lg : M log_st log := gets lg.
Definition upd_lg (f : log -> log) : M log_st unit := modify (fun s => set_lg (f (lg s)) s).

(** fs.c *)
Definition readsb (dev : Z) : M log_st superblock :=
  bp ← bread dev 1;
  d ← buf_data bp;
  brelse bp ;;
  mret (decode_sb d).

Fixpoint install_trans_loop (n tail : nat) : M log_st unit :=
  match n with
  | O => mret ()
  | S n =>
      g ← get_lg;
      lbuf ← bread (ldev g) (start g + Z.of_nat tail + 1);
      dbuf ← bread (ldev g) (default 0 (lh_block g !! tail));
      d ← buf_data lbuf;
      set_data dbuf d ;;
      bwrite dbuf ;;
      brelse lbuf ;;
      brelse dbuf ;;
      install_trans_loop n (S tail)
  end.
Definition install_trans : M log_st unit :=
  g ← get_lg; install_trans_loop (Z.to_nat (lh_n g)) 0.

(** [log.lh.block[i] = lh->block[i]] for [i < n]; the array has [LOGSIZE]
    entries, so a larger count read from the disk would be an out-of-bounds
    access. *)
Fixpoint read_head_loop (n i : nat) (d : list Z) : M log_st unit :=
  match n with
  | O => mret ()
  | S n =>
      if decide (LOGSIZE <= i)%nat then panic "UB: log.lh.block index"
      else
        upd_lg (fun g => set_lh_block (<[i := s32 (get_word (4 + 4 * i) d)]> (lh_block g)) g) ;;
        read_head_loop n (S i) d
  end.
Definition read_head : M log_st unit :=
  g ← get_lg;
  buf ← bread (ldev g) (start g);
  d ← buf_data buf;
  upd_lg (set_lh_n (s32 (get_word 0 d))) ;;
  read_head_loop (Z.to_nat (s32 (get_word 0 d))) 0 d ;;
  brelse buf.

(** [hb->block[i] = log.lh.block[i]] for [i < n], into the buffer. *)
Fixpoint write_head_loop (n i : nat) (bl : list Z) (d : list Z) : list Z :=
  match n with
  | O => d
  | S n => write_head_loop n (S i) bl (put_word (4 + 4 * i) (default 0 (bl !! i)) d)
  end.
Definition write_head : M log_st unit :=
  g ← get_lg;
  buf ← bread (ldev g) (start g);
  d ← buf_data buf;
  set_data buf (write_head_loop (Z.to_nat (lh_n g)) 0 (lh_block g) (put_word 0 (lh_n g) d)) ;;
  bwrite buf ;;
  brelse buf.

Definition recover_from_log : M log_st unit :=
  read_head ;;
  install_trans ;;
  upd_lg (set_lh_n 0) ;;
  write_head.

(** [sizeof(struct logheader)] is 4 + 4 * LOGSIZE. *)
Definition initlog (dev : Z) : M log_st unit :=
  if decide (BSIZE <= 4 + 4 * LOGSIZE)%nat then panic "initlog: too big logheader"
  else
    lift lbio_lens (initlock Llog "log") ;;
    sb ← readsb dev;
    upd_lg (fun g => Log (s32 (sb_logstart sb)) (s32 (sb_nlog sb)) (outstanding g) (committing g)
                       dev (lh_n g) (lh_block g)) ;;
    recover_from_log.

Definition begin_op : M log_st unit :=
  acquire Llog ;;
  g ← get_lg;
  if negb (committing g =? 0) then sleep CLog Llog ;; blocked
  else if Z.of_nat LOGSIZE <? s32 (lh_n g + (outstanding g + 1) * MAXOPBLOCKS)
    then sleep CLog Llog ;; blocked
  else
    upd_lg (set_outstanding (s32 (outstanding g + 1))) ;;
    release Llog.

Fixpoint write_log_loop (n tail : nat) : M log_st unit :=
  match n with
  | O => mret ()
  | S n =>
      g ← get_lg;
      to ← bread (ldev g) (start g + Z.of_nat tail + 1);
      from ← bread (ldev g) (default 0 (lh_block g !! tail));
      d ← buf_data from;
      set_data to d ;;
      bwrite to ;;
      brelse from ;;
      brelse to ;;
      write_log_loop n (S tail)
  end.
Definition write_log : M log_st unit :=
  g ← get_lg; write_log_loop (Z.to_nat (lh_n g)) 0.

Definition commit : M log_st unit :=
  g ← get_lg;
  when (0 <? lh_n g)
    (write_log ;;
     write_head ;;
     install_trans ;;
     upd_lg (set_lh_n 0) ;;
     write_head).

Definition end_op : M log_st unit :=
  acquire Llog ;;
  upd_lg (fun g => set_outstanding (s32 (outstanding g - 1)) g) ;;
  g ← get_lg;
  if negb (committing g =? 0) then panic "log.committing"
  else if outstanding g =? 0 then
    upd_lg (set_committing 1) ;;
    release Llog ;;
    commit ;;
    acquire Llog ;;
    upd_lg (set_committing 0) ;;
    wakeup CLog ;;
    release Llog
  else
    wakeup CLog ;;
    release Llog.

(** The first [i < n] with [log.lh.block[i] == b], or [n]. *)
Definition absorb (n : nat) (bl : list Z) (b : Z) : nat :=
  match list_find (fun x => x = b) (take n bl) with
  | Some (i, _) => i
  | None => n
  end.

Definition log_write (b : nat) : M log_st unit :=
  g ← get_lg;
  if (Z.of_nat LOGSIZE <=? lh_n g) || (size g - 1 <=? lh_n g)
    then panic "too big a transaction"
  else if outstanding g <? 1 then panic "log_write outside of trans"
  else
    acquire Llog ;;
    g ← get_lg;
    bno ← buf_blockno b;
    let i := absorb (Z.to_nat (lh_n g)) (lh_block g) bno in
    upd_lg (set_lh_block (<[i := bno]> (lh_block g))) ;;
    (if decide (Z.of_nat i = lh_n g) then upd_lg (set_lh_n (lh_n g + 1)) else mret ()) ;;
    pin b ;;
    release Llog.

(** ** What the routines below the log do to the state

    [LS g dk tr v D H s]: the log is [g], the disk holds [dk] after the writes
    [tr], the kernel sees [v] through the cache, [D] is pinned and [H] held;
    no spinlock is held and the other processes have at most been woken since
    [s0].  [LL] is the same with [log.lock] held. *)

Lemma wp_bio {A} (m : M bio_st A) (R : A -> bio_st -> Prop) s :
  wp m R (lbio s) -> wp (lift lbio_lens m) (fun a s' => R a (lbio s') /\ lg s' = lg s) s.
Proof. intros Hm. apply wp_lift. eapply wp_mono; [exact Hm|]. done. Qed.

Section prims.
Context (Q : sched_st -> Prop) (dsz : Z).

Record LSq (g : log) (dk : Z -> list Z) (tr : list (Z * list Z))
    (v : Z -> list Z) (D : gset Z) (H : gmap nat Z) (s : log_st) : Prop := {
  ls_lg : lg s = g;
  ls_sched : Q (bsched (lbio s));
  ls_rep : brep (lbio s) v D H;
  ls_disk : disk (lbio s) = dk;
  ls_size : disksize (lbio s) = dsz;
  ls_trace : wtrace (lbio s) = tr }.

Context (g : log) (dk : Z -> list Z) (tr : list (Z * list Z)).
Context (v : Z -> list Z) (D : gset Z) (H : gmap nat Z) (s : log_st).
Hypothesis HLS : LSq g dk tr v D H s.

Lemma LS_data i n : H !! i = Some n -> wp (buf_data i) (fun d s' => d = v n /\ s' = s) s.
Proof.
  intros Hi. apply wp_gets. split; [|done].
  destruct HLS as [_ _ Hr _ _ _]. by destruct (held_facts _ _ _ _ _ _ _ _ Hr Hi) as (_&_&_&_&_&_&?).
Qed.

Lemma LS_blockno i n : H !! i = Some n -> wp (buf_blockno i) (fun b s' => b = n /\ s' = s) s.
Proof.
  intros Hi. apply wp_gets. split; [|done].
  destruct HLS as [_ _ Hr _ _ _]. by destruct (held_facts _ _ _ _ _ _ _ _ Hr Hi) as (_&_&_&_&_&?&_).
Qed.

Lemma LS_set_data i n d :
  H !! i = Some n -> block_ok d ->
  wp (set_data i d) (fun _ s' => LSq g dk tr (<[n := d]> v) D H s') s.
Proof.
  destruct HLS as [Hlg Hq Hr <- Hsz <-]. intros Hi Hd.
  wp_call wp_bio; [by eapply wp_set_data|].
  intros [] s' [(Hb & Hr' & Hdk & Hs & Ht) Hl]. split; try congruence; done.
Qed.

Lemma LS_pin i n :
  H !! i = Some n -> wp (pin i) (fun _ s' => LSq g dk tr v ({[n]} ∪ D) H s') s.
Proof.
  destruct HLS as [Hlg Hq Hr <- Hsz <-]. intros Hi.
  wp_call wp_bio; [by eapply wp_pin|].
  intros [] s' [(Hb & Hr' & Hdk & Hs & Ht) Hl]. split; try congruence; done.
Qed.

Lemma LS_bwrite i n :
  H !! i = Some n ->
  wp (bwrite i) (fun _ s' => LSq g (<[n := v n]> dk) (tr ++ [(n, v n)]) v (D ∖ {[n]}) H s') s.
Proof.
  destruct HLS as [Hlg Hq Hr <- Hsz <-]. intros Hi.
  wp_call wp_bio; [by eapply wp_bwrite|].
  intros [] s' [(Hb & Hr' & Hdk & Hs & Ht) Hl]. split; try congruence; done.
Qed.

Lemma LS_get_lg : wp get_lg (fun g' s' => g' = g /\ s' = s) s.
Proof. apply wp_gets. split; [apply HLS|done]. Qed.

Lemma LS_upd_lg f : wp (upd_lg f) (fun _ s' => LSq (f g) dk tr v D H s') s.
Proof. apply wp_modify. destruct HLS. split; simpl; congruence. Qed.

Lemma LS_coh n : 0 <= n < dsz -> n ∉ D -> (forall i, H !! i <> Some n) -> v n = dk n.
Proof.
  destruct HLS as [_ _ [Hr _] <- <- _]. intros. by eapply r_coh.
Qed.

Lemma LS_view n : 0 <= n < dsz -> block_ok (v n).
Proof. destruct HLS as [_ _ [Hr _] <- <- _]. by apply Hr. Qed.

Lemma LS_disk_ok n : 0 <= n < dsz -> block_ok (dk n).
Proof. destruct HLS as [_ _ [Hr _] <- <- _]. by apply Hr. Qed.

Lemma LS_D_range n : n ∈ D -> 0 <= n < dsz.
Proof.
  destruct HLS as [_ _ [Hr _] <- <- _]. intros (i & Hi & Hd & <-)%(r_D _ _ _ _ _ _ Hr).
  eapply r_valid; [done..|]. by eapply r_dirty.
Qed.
End prims.

Notation LS ie s0 := (LSq (quiet ie s0)).
Notation LL ie s0 := (LSq (fun x => locked_by ie [Llog] x /\ wakes s0 x)).

Section locks.
Context (ie : bool) (s0 : sched_st) (dsz : Z).
Context (g : log) (dk : Z -> list Z) (tr : list (Z * list Z)).
Context (v : Z -> list Z) (D : gset Z) (H : gmap nat Z) (s : log_st).

Section quiet.
Hypothesis HLS : LS ie s0 dsz g dk tr v D H s.

Lemma LS_bread n :
  0 <= n < dsz -> (forall i, H !! i <> Some n) -> n ∈ D \/ (base.size D + base.size H < NBUF)%nat ->
  wp (bread 1 n) (fun i s' => H !! i = None /\ LS ie s0 dsz g dk tr v D (<[i := n]> H) s') s.
Proof.
  destruct HLS as [Hlg Hq Hr <- Hsz <-]. intros Hn HH Hroom.
  wp_call wp_bio; [eapply wp_bread; try done; by rewrite Hsz|].
  intros i s' [(Hq' & Hr' & Hi & Hd & Hs & Ht) Hl]. split; [done|]. by split; try congruence.
Qed.

Lemma LS_brelse i n :
  H !! i = Some n -> n ∈ D \/ v n = dk n ->
  wp (brelse i) (fun _ s' => LS ie s0 dsz g dk tr v D (delete i H) s') s.
Proof.
  destruct HLS as [Hlg Hq Hr <- Hsz <-]. intros Hi Hn.
  wp_call wp_bio; [by eapply wp_brelse|].
  intros [] s' [(Hq' & Hr' & Hdk & Hs & Ht) Hl]. split; try congruence; done.
Qed.

Lemma LS_acquire : wp (acquire Llog) (fun _ s' => LL ie s0 dsz g dk tr v D H s') s.
Proof.
  destruct HLS as [Hlg Hq Hr <- Hsz <-].
  wp_call wp_bio; [apply wp_sched; by eapply wp_acquire_quiet|].
  intros [] s' [(sc & E & Hsc) Hl]. split; rewrite ?E; simpl; try congruence; done.
Qed.
End quiet.

Hypothesis HLL : LL ie s0 dsz g dk tr v D H s.

Lemma LL_release : wp (release Llog) (fun _ s' => LS ie s0 dsz g dk tr v D H s') s.
Proof.
  destruct HLL as [Hlg [HL Hw] Hr <- Hsz <-].
  wp_call wp_bio; [apply wp_sched; by eapply wp_release_quiet|].
  intros [] s' [(sc & E & Hsc) Hl]. split; rewrite ?E; simpl; try congruence; done.
Qed.

Lemma LL_wakeup c : wp (wakeup c) (fun _ s' => LL ie s0 dsz g dk tr v D H s') s.
Proof.
  destruct HLL as [Hlg [HL Hw] Hr <- Hsz <-].
  wp_call wp_bio; [apply wp_sched; by eapply wp_wakeup_quiet|].
  intros [] s' [(sc & E & Hsc) Hl]. split; rewrite ?E; simpl; try congruence; done.
Qed.
End locks.

(** ** The disk writes of the loops *)

Definition apply_writes (ws : list (Z * list Z)) (d : Z -> list Z) : Z -> list Z :=
  foldl (fun d w => <[w.1 := w.2]> d) d ws.

Lemma apply_writes_app ws1 ws2 d :
  apply_writes (ws1 ++ ws2) d = apply_writes ws2 (apply_writes ws1 d).
Proof. apply foldl_app. Qed.

Lemma apply_writes_cons k x ws d :
  apply_writes ((k, x) :: ws) d = apply_writes ws (<[k := x]> d).
Proof. done. Qed.

Lemma apply_writes_out ws : forall d n,
  n ∉ ws.*1 -> apply_writes ws d n = d n.
Proof.
  induction ws as [|[k x] ws IH]; intros d n Hn; [done|].
  apply not_elem_of_cons in Hn as [Hk Hn]. simpl in *. rewrite IH by done.
  by apply fn_lookup_insert_ne.
Qed.

Lemma apply_writes_in ws : forall d n x,
  NoDup ws.*1 -> (n, x) ∈ ws -> apply_writes ws d n = x.
Proof.
  induction ws as [|[k y] ws IH]; intros d n x Hnd Hin; [by apply elem_of_nil in Hin|].
  apply NoDup_cons in Hnd as [Hk Hnd]. apply elem_of_cons in Hin as [[= -> ->]|Hin]; simpl.
  - fold (apply_writes ws (<[k := y]> d)).
    rewrite apply_writes_out by done. apply fn_lookup_insert.
  - by eapply IH.
Qed.

(** The contents [v b] of the blocks [bs] go to consecutive log blocks from
    [st] on. *)
Fixpoint log_writes (st : Z) (bs : list Z) (v : Z -> list Z) : list (Z * list Z) :=
  match bs with
  | [] => []
  | b :: bs => (st, v b) :: log_writes (st + 1) bs v
  end.

(** Consecutive log blocks from [st] on go to the home blocks [bs]. *)
Fixpoint install_writes (st : Z) (bs : list Z) (v : Z -> list Z) : list (Z * list Z) :=
  match bs with
  | [] => []
  | b :: bs => (b, v st) :: install_writes (st + 1) bs v
  end.

Lemma log_writes_ext bs : forall st v v',
  (forall b, b ∈ bs -> v b = v' b) -> log_writes st bs v = log_writes st bs v'.
Proof.
  induction bs as [|b bs IH]; intros st v v' Hv; simpl; [done|].
  rewrite (Hv b) by set_solver. f_equal. apply IH. set_solver.
Qed.

Lemma install_writes_ext bs : forall st v v',
  (forall b, st <= b < st + Z.of_nat (length bs) -> v b = v' b) ->
  install_writes st bs v = install_writes st bs v'.
Proof.
  induction bs as [|b bs IH]; intros st v v' Hv; simpl; [done|]. simpl in Hv.
  rewrite (Hv st) by lia. f_equal. apply IH. intros. apply Hv. lia.
Qed.

Lemma log_writes_fst bs : forall st v,
  (log_writes st bs v).*1 = seqZ st (Z.of_nat (length bs)).
Proof.
  induction bs as [|b bs IH]; intros; simpl; [done|].
  rewrite IH, (seqZ_cons st) by lia. f_equal. f_equal; lia.
Qed.
Lemma install_writes_fst bs : forall st v, (install_writes st bs v).*1 = bs.
Proof. induction bs; intros; simpl; f_equal; auto. Qed.

(** ** Loops over the blocks of the transaction *)

Section loops.
Context (ie : bool) (s0 : sched_st) (dsz : Z) (g : log).
Hypothesis Hdev : ldev g = 1.
Hypothesis Hstart : 0 <= start g.
Notation LS := (LS ie s0 dsz g).

(** [lh.block[tail..]] begins with [bs]. *)
Definition listed (tail : nat) (bs : list Z) : Prop :=
  forall k b, bs !! k = Some b -> lh_block g !! (tail + k)%nat = Some b.
Definition home (b : Z) : Prop := 0 <= b < dsz /\ (b < start g \/ start g + size g <= b).

Lemma listed_cons tail b bs :
  listed tail (b :: bs) -> lh_block g !! tail = Some b /\ listed (S tail) bs.
Proof.
  intros Hl. split; [by rewrite <- (Hl 0%nat b), Nat.add_0_r|].
  intros k c Hk. rewrite <- (Hl (S k) c) by done. f_equal. lia.
Qed.

(** Two buffers are taken and given back in either order. *)
Lemma wp_bread2 {A} (k : nat -> nat -> M log_st A) Q a b dk tr v D s :
  LS dk tr v D ∅ s -> 0 <= a < dsz -> 0 <= b < dsz -> a <> b ->
  (base.size D < NBUF)%nat -> b ∈ D \/ (base.size D + 1 < NBUF)%nat ->
  (forall i j s', i <> j -> LS dk tr v D (<[j := b]> (<[i := a]> ∅)) s' -> wp (k i j) Q s') ->
  wp (i ← bread 1 a; j ← bread 1 b; k i j) Q s.
Proof.
  intros HLS Ha Hb Hab Hroom Hroom' Hk.
  wp_call LS_bread; [done|lia|by intros ?; rewrite lookup_empty|rewrite map_size_empty; lia|].
  intros i s1 [_ HLS1].
  wp_call LS_bread; [done|lia| | |].
  { intros j Hj. apply lookup_insert_Some in Hj as [[]|[_ Hj]]; [lia|by rewrite lookup_empty in Hj]. }
  { rewrite map_size_insert_None, map_size_empty by apply lookup_empty. destruct Hroom'; [by left|right; lia]. }
  intros j s2 [Hj HLS2]. apply Hk; [|done]. intros ->. by rewrite lookup_insert_eq in Hj.
Qed.

Lemma wp_brelse2 {A} (k : M log_st A) Q i j a b dk tr v D s :
  LS dk tr v D (<[j := b]> (<[i := a]> ∅)) s -> i <> j ->
  a ∈ D \/ v a = dk a -> b ∈ D \/ v b = dk b ->
  (forall s', LS dk tr v D ∅ s' -> wp k Q s') ->
  wp (brelse i ;; brelse j ;; k) Q s /\ wp (brelse j ;; brelse i ;; k) Q s.
Proof.
  intros HLS Hij Ha Hb Hk. split.
  - wp_call LS_brelse; [done|by rewrite lookup_insert_ne, lookup_insert_eq|done|].
    rewrite delete_insert_ne, delete_insert_id by first [done|apply lookup_empty]. intros [] s5 HLS5.
    wp_call LS_brelse; [done|apply lookup_insert_eq|done|].
    rewrite delete_insert_id by apply lookup_empty. intros [] s6 HLS6. eauto.
  - wp_call LS_brelse; [done|apply lookup_insert_eq|done|].
    rewrite delete_insert_id by (by rewrite lookup_insert_ne, lookup_empty). intros [] s5 HLS5.
    wp_call LS_brelse; [done|apply lookup_insert_eq|done|].
    rewrite delete_insert_id by apply lookup_empty. intros [] s6 HLS6. eauto.
Qed.

Lemma wp_write_log_loop bs : forall tail dk tr v D s,
  LS dk tr v D ∅ s -> listed tail bs ->
  (forall b, b ∈ D -> home b) -> (forall b, b ∈ bs -> b ∈ D) -> (base.size D < NBUF)%nat ->
  start g + Z.of_nat (tail + length bs) < start g + size g <= dsz ->
  let ws := log_writes (start g + Z.of_nat tail + 1) bs v in
  wp (write_log_loop (length bs) tail)
    (fun _ s' => LS (apply_writes ws dk) (tr ++ ws) (apply_writes ws v) D ∅ s') s.
Proof.
  induction bs as [|b bs IH]; intros tail dk tr v D s HLS Hl Hhome HD Hroom Hgeo.
  { cbn. apply wp_ret. by rewrite app_nil_r. }
  intros ws. apply listed_cons in Hl as [Hb Hl]. simpl in Hgeo.
  set (st := start g + Z.of_nat tail + 1) in *.
  assert (HbD : b ∈ D) by set_solver. assert (Hbh := Hhome b HbD). unfold home in Hbh.
  assert (Hst : st ∉ D) by (intros [? ?]%Hhome; lia).
  cbn [write_log_loop length].
  wp_call LS_get_lg; [done|]. intros ? ? [-> ->]. rewrite Hdev, Hb. simpl default. fold st.
  eapply wp_bread2; [done|lia|lia|lia|lia|by left|]. intros i j s2 Hij HLS2.
  wp_call LS_data; [done|apply lookup_insert_eq|]. intros ? ? [-> ->].
  wp_call LS_set_data; [done|by rewrite lookup_insert_ne, lookup_insert_eq|
    by eapply LS_view; [exact HLS|lia]|].
  intros [] s3 HLS3.
  wp_call LS_bwrite; [done|by rewrite lookup_insert_ne, lookup_insert_eq|].
  rewrite fn_lookup_insert, difference_disjoint_L by set_solver. intros [] s4 HLS4.
  eapply proj2, wp_brelse2; [done|done|right; by rewrite !fn_lookup_insert|by left|]. intros s6 HLS6.
  wp_call IH; [done|done|done|set_solver|done|lia|].
  intros [] s7 HLS7. subst ws. simpl. fold st. rewrite <- app_assoc in HLS7.
  replace (start g + Z.of_nat (S tail) + 1) with (st + 1) in HLS7 by lia.
  rewrite (log_writes_ext bs (st + 1) _ v) in HLS7; [done|].
  intros c Hc. apply fn_lookup_insert_ne. intros <-. apply Hst. set_solver.
Qed.

Lemma wp_install_trans_loop bs : forall tail dk tr v D s,
  LS dk tr v D ∅ s -> listed tail bs -> (forall b, b ∈ bs -> home b) ->
  (forall b, b ∈ D -> home b) -> NoDup bs ->
  (forall b, b ∈ bs -> b ∈ D) /\ (base.size D < NBUF)%nat \/ (base.size D + 1 < NBUF)%nat ->
  start g + Z.of_nat (tail + length bs) < start g + size g <= dsz ->
  let ws := install_writes (start g + Z.of_nat tail + 1) bs v in
  wp (install_trans_loop (length bs) tail)
    (fun _ s' => LS (apply_writes ws dk) (tr ++ ws) (apply_writes ws v)
       (D ∖ list_to_set bs) ∅ s') s.
Proof.
  induction bs as [|b bs IH]; intros tail dk tr v D s HLS Hl Hhome HhD Hnd Hroom Hgeo.
  { cbn. apply wp_ret. by rewrite app_nil_r, difference_empty_L. }
  intros ws. apply listed_cons in Hl as [Hb Hl]. simpl in Hgeo.
  set (st := start g + Z.of_nat tail + 1) in *.
  assert (Hbh := Hhome b ltac:(set_solver)). unfold home in Hbh.
  assert (Hst : st ∉ D) by (intros [? ?]%HhD; lia).
  apply NoDup_cons in Hnd as [Hbbs Hnd].
  cbn [install_trans_loop length].
  wp_call LS_get_lg; [done|]. intros ? ? [-> ->]. rewrite Hdev, Hb. simpl default. fold st.
  assert (Hcoh : v st = dk st).
  { eapply LS_coh; [exact HLS|lia|done|]. intros k. by rewrite lookup_empty. }
  eapply wp_bread2; [done|lia|lia|lia|lia| |].
  { destruct Hroom as [[Hin _]|Hroom]; [left; set_solver|right; lia]. }
  intros i j s2 Hij HLS2.
  wp_call LS_data; [done|by rewrite lookup_insert_ne, lookup_insert_eq|]. intros ? ? [-> ->].
  wp_call LS_set_data; [done|apply lookup_insert_eq|by eapply LS_view; [exact HLS|lia]|].
  intros [] s3 HLS3.
  wp_call LS_bwrite; [done|apply lookup_insert_eq|].
  rewrite fn_lookup_insert. intros [] s4 HLS4.
  eapply proj1, wp_brelse2; [done|done|right; by rewrite !fn_lookup_insert_ne by lia|
    right; by rewrite !fn_lookup_insert|]. intros s6 HLS6.
  wp_call IH; [done|done|set_solver|set_solver|done| |lia|].
  { assert (base.size (D ∖ {[b]}) <= base.size D)%nat by (apply subseteq_size; set_solver).
    destruct Hroom as [[Hin ?]|?]; [left; split; [set_solver|lia]|right; lia]. }
  intros [] s7 HLS7. subst ws. simpl. fold st. rewrite <- app_assoc in HLS7.
  replace (start g + Z.of_nat (S tail) + 1) with (st + 1) in HLS7 by lia.
  rewrite (install_writes_ext bs (st + 1) _ v) in HLS7.
  - by rewrite difference_difference_l_L in HLS7.
  - intros c Hc. apply fn_lookup_insert_ne. lia.
Qed.
End loops.

(** ** The header block *)

Section words.
Context (off : nat) (w : Z) (d : list Z).
Hypothesis Hoff : (off + 4 <= length d)%nat.

Lemma get_put_word : get_word off (put_word off w d) = u32 w.
Proof.
  unfold get_word, put_word.
  assert (Hs := slice_splice_eq off (le_bytes 4 w) d). rewrite length_le_bytes in Hs.
  rewrite Hs, le_val_le_bytes by done. done.
Qed.

Lemma get_put_word_ne off' :
  (off' + 4 <= off \/ off + 4 <= off')%nat -> get_word off' (put_word off w d) = get_word off' d.
Proof.
  intros. unfold get_word, put_word. by rewrite slice_splice_ne by (rewrite length_le_bytes; lia).
Qed.

Lemma length_put_word : length (put_word off w d) = length d.
Proof. unfold put_word. rewrite length_splice; [done|by rewrite length_le_bytes]. Qed.

Lemma bytes_put_word : bytes_ok d -> bytes_ok (put_word off w d).
Proof. intros. apply Forall_splice; [apply le_bytes_ok|done]. Qed.
End words.

Lemma block_ok_put_word off w d : (off + 4 <= BSIZE)%nat -> block_ok d -> block_ok (put_word off w d).
Proof.
  intros Ho [Hl Hb]. rewrite <- Hl in Ho. split; [by rewrite length_put_word|by apply bytes_put_word].
Qed.

Lemma get_word_range off d :
  block_ok d -> (off + 4 <= BSIZE)%nat -> is_u32 (get_word off d).
Proof.
  intros [Hl Hb] Ho. unfold get_word. assert (length (slice off 4 d) = 4%nat) as E.
  { apply length_slice. by rewrite Hl. }
  pose proof (le_val_range (slice off 4 d)) as Hr. rewrite E in Hr. apply Hr.
  by apply Forall_slice.
Qed.

Lemma write_head_loop_spec bl n : forall i d,
  (4 + 4 * (i + n) <= BSIZE)%nat -> block_ok d ->
  block_ok (write_head_loop n i bl d) /\
  get_word 0 (write_head_loop n i bl d) = get_word 0 d /\
  forall k, (4 + 4 * k + 4 <= BSIZE)%nat ->
    get_word (4 + 4 * k) (write_head_loop n i bl d) =
      if decide (i <= k < i + n)%nat then u32 (default 0 (bl !! k)) else get_word (4 + 4 * k) d.
Proof.
  induction n as [|n IH]; intros i d Hn Hd.
  { split_and!; [apply Hd..|done|]. intros k _. cbn [write_head_loop]. by rewrite decide_False by lia. }
  cbn [write_head_loop]. assert (Hlen := proj1 Hd).
  destruct (IH (S i) (put_word (4 + 4 * i) (default 0 (bl !! i)) d)) as (Hok & H0 & Hk);
    [lia|apply block_ok_put_word; [lia|done]|].
  split_and!; [apply Hok..|rewrite H0; apply get_put_word_ne; lia|]. intros k Hkb. rewrite Hk by done.
  destruct (decide (k = i)) as [->|].
  - rewrite decide_False, decide_True by lia. rewrite get_put_word by lia. done.
  - rewrite get_put_word_ne by lia.
    destruct (decide (S i <= k < S i + n)%nat), (decide (i <= k < i + S n)%nat); try lia; done.
Qed.

(** The block list that a header block records. *)
Definition head_of (d : list Z) : list Z :=
  (fun k => s32 (get_word (4 + 4 * k) d)) <$> seq 0 (Z.to_nat (s32 (get_word 0 d))).

(** The header block that [write_head] writes over [d]. *)
Definition head_block (g : log) (d : list Z) : list Z :=
  write_head_loop (Z.to_nat (lh_n g)) 0 (lh_block g) (put_word 0 (lh_n g) d).

Lemma head_block_spec g bs d :
  lh_n g = Z.of_nat (length bs) -> listed g 0 bs -> (length bs <= LOGSIZE)%nat ->
  Forall is_s32 bs -> block_ok d ->
  block_ok (head_block g d) /\ get_word 0 (head_block g d) = Z.of_nat (length bs) /\
  head_of (head_block g d) = bs.
Proof.
  intros Hn Hl Hmax Hbs Hd. unfold head_block. rewrite Hn, Nat2Z.id.
  assert (HBS : (4 + 4 * LOGSIZE <= BSIZE)%nat) by (vm_compute; lia).
  destruct (write_head_loop_spec (lh_block g) (length bs) 0 (put_word 0 (Z.of_nat (length bs)) d))
    as (Hok & H0 & Hk); [lia|apply block_ok_put_word; [vm_compute; lia|done]|].
  rewrite get_put_word in H0 by (rewrite (proj1 Hd); vm_compute; lia).
  assert (LOGSIZE = 30%nat) as HL by done.
  rewrite u32_small in H0 by (unfold is_u32; lia).
  split_and!; [apply Hok..|done|]. unfold head_of. rewrite H0, s32_small, Nat2Z.id by (unfold is_s32; lia).
  apply list_eq. intros k. rewrite list_lookup_fmap.
  destruct (bs !! k) as [b|] eqn:Hb.
  - apply lookup_lt_Some in Hb as Hlt. rewrite lookup_seq_lt by done. cbn [fmap option_fmap option_map].
    rewrite Nat.add_0_l, Hk, decide_True by lia. rewrite (Hl k b Hb : lh_block g !! k = Some b). simpl default.
    rewrite s32_u32, s32_small by (by eapply Forall_lookup_1 in Hbs). done.
  - apply lookup_ge_None in Hb. by rewrite lookup_seq_ge by done.
Qed.

Section head.
Context (ie : bool) (s0 : sched_st) (dsz : Z).
Notation LS := (LS ie s0 dsz).

Lemma wp_write_head g bs dk tr v D s :
  LS g dk tr v D ∅ s -> ldev g = 1 -> 0 <= start g < dsz ->
  lh_n g = Z.of_nat (length bs) -> listed g 0 bs -> (length bs <= LOGSIZE)%nat ->
  Forall is_s32 bs -> start g ∉ D -> (base.size D < NBUF)%nat ->
  let h := head_block g (v (start g)) in
  wp write_head (fun _ s' => LS g (<[start g := h]> dk) (tr ++ [(start g, h)])
    (<[start g := h]> v) D ∅ s') s.
Proof.
  intros HLS Hdev Hst Hn Hl Hmax Hbs HD Hroom h.
  assert (Hok : block_ok h).
  { eapply head_block_spec; try done. by eapply LS_view. }
  unfold write_head. wp_call LS_get_lg; [done|]. intros ? ? [-> ->]. rewrite Hdev.
  wp_call LS_bread; [done|done|by intros ?; rewrite lookup_empty|rewrite map_size_empty; lia|].
  intros i s1 [_ HLS1].
  wp_call LS_data; [done|apply lookup_insert_eq|]. intros ? ? [-> ->].
  wp_call LS_set_data; [done|apply lookup_insert_eq|exact Hok|]. intros [] s2 HLS2.
  wp_call LS_bwrite; [done|apply lookup_insert_eq|].
  change (write_head_loop _ _ _ _) with h in *.
  rewrite fn_lookup_insert, difference_disjoint_L by set_solver. intros [] s3 HLS3.
  wp_call LS_brelse; [done|apply lookup_insert_eq|right; by rewrite !fn_lookup_insert|].
  rewrite delete_insert_id by apply lookup_empty. done.
Qed.

Lemma wp_read_head_loop d n : forall i g dk tr v D H s,
  LS g dk tr v D H s -> length (lh_block g) = LOGSIZE -> (i + n <= LOGSIZE)%nat ->
  wp (read_head_loop n i d) (fun _ s' => exists bl, LS (set_lh_block bl g) dk tr v D H s' /\
    length bl = LOGSIZE /\ (forall k, (k < i)%nat -> bl !! k = lh_block g !! k) /\
    forall k, (i <= k < i + n)%nat -> bl !! k = Some (s32 (get_word (4 + 4 * k) d))) s.
Proof.
  induction n as [|n IH]; intros i g dk tr v D H s HLS Hlen Hn; cbn [read_head_loop].
  { apply wp_ret. exists (lh_block g). split_and!; [by destruct g|done|done|lia]. }
  rewrite decide_False by lia.
  wp_call LS_upd_lg; [done|]. intros [] s1 HLS1.
  wp_call IH; [done|by cbn; rewrite length_insert|lia|].
  intros [] s2 (bl & HLS2 & Hl2 & Hlo & Hhi). exists bl. split_and!; [done|done|..]; cbn in Hlo.
  - intros k Hk. rewrite Hlo by lia. apply list_lookup_insert_ne. lia.
  - intros k Hk. destruct (decide (k = i)) as [->|]; [|apply Hhi; lia].
    rewrite Hlo by lia. apply list_lookup_insert_eq. lia.
Qed.

Lemma wp_read_head g dk tr v D s :
  LS g dk tr v D ∅ s -> ldev g = 1 -> 0 <= start g < dsz -> length (lh_block g) = LOGSIZE ->
  start g ∉ D -> (base.size D < NBUF)%nat -> (length (head_of (dk (start g))) <= LOGSIZE)%nat ->
  wp read_head (fun _ s' => exists bl,
    let g' := set_lh_block bl (set_lh_n (s32 (get_word 0 (dk (start g)))) g) in
    LS g' dk tr v D ∅ s' /\ length bl = LOGSIZE /\ listed g' 0 (head_of (dk (start g)))) s.
Proof.
  intros HLS Hdev Hst Hlen HD Hroom Hmax.
  assert (Hcoh : v (start g) = dk (start g)).
  { eapply LS_coh; [done..|]. intros k. by rewrite lookup_empty. }
  unfold head_of in Hmax. rewrite length_fmap, length_seq in Hmax.
  unfold read_head. wp_call LS_get_lg; [done|]. intros ? ? [-> ->]. rewrite Hdev.
  wp_call LS_bread; [done|done|by intros ?; rewrite lookup_empty|rewrite map_size_empty; lia|].
  intros i s1 [_ HLS1].
  wp_call LS_data; [done|apply lookup_insert_eq|]. intros ? ? [-> ->]. rewrite Hcoh.
  wp_call LS_upd_lg; [done|]. intros [] s2 HLS2.
  wp_call wp_read_head_loop; [done|done|lia|]. intros [] s3 (bl & HLS3 & Hbl & _ & Hk).
  wp_call LS_brelse; [done|apply lookup_insert_eq|by right|].
  rewrite delete_insert_id by apply lookup_empty. intros [] s4 HLS4.
  exists bl. split_and!; [done|done|]. intros k b (j & -> & Hj)%list_lookup_fmap_Some.
  apply lookup_seq in Hj as [-> Hj]. simpl. apply Hk. lia.
Qed.
End head.

(** ** A machine that has just initialised its buffer cache *)

Definition boot_log (dk : Z -> list Z) (n : Z) (g : log) : log_st := LogSt (boot_bio dk n) g.

Lemma wp_boot dk n g :
  0 <= n < 2147483648 -> (forall b, block_ok (dk b)) ->
  wp (lift lbio_lens binit) (fun _ s' => LS true boot_sched n g dk [] dk ∅ ∅ s') (boot_log dk n g).
Proof.
  intros Hn Hdk. wp_call wp_bio; [by apply wp_binit|].
  intros [] s' [(Hr & _ & (Hd & Hs & Ht) & Hq) Hl]. split; try done. apply Hq, boot_quiet.
Qed.
