(* ===== verification/Crash.v ===== *)
(** * Crash safety of the log

    [commit] is a fixed sequence of disk writes.  [recovered] is the disk that
    recovery makes of a given disk.  The theorems compare, for a crash after
    any prefix of the writes, what [recover_from_log] restores with the disk
    before the transaction and with the transaction's contents. *)

From S2P Require Import Prelude Params Spinlock Sched Ring Bio Log.

(** What installing the committed transaction recorded on a disk gives. *)
Definition recovered (st : Z) (d : Z -> list Z) : Z -> list Z :=
  apply_writes (install_writes (st + 1) (head_of (d st)) d) d.

(** The writes of [commit], for the logged blocks [bs] with contents [v] and
    [h0] in the header block before it. *)
Definition commit_writes (g : log) (bs : list Z) (v : Z -> list Z) (h0 : list Z)
    : list (Z * list Z) :=
  let h := head_block g h0 in
  log_writes (start g + 1) bs v ++ (start g, h) ::
  ((fun b => (b, v b)) <$> bs) ++ [(start g, head_block (set_lh_n 0 g) h)].

(** A log whose header lists [bs], with room for them. *)
Record log_ok (dsz : Z) (g : log) (bs : list Z) : Prop := {
  lo_dev : ldev g = 1;
  lo_start : 0 <= start g;
  lo_size : start g + Z.of_nat (length bs) < start g + size g <= dsz;
  lo_dsz : dsz < 2147483648;
  lo_n : lh_n g = Z.of_nat (length bs);
  lo_max : (length bs <= LOGSIZE)%nat;
  lo_block : length (lh_block g) = LOGSIZE;
  lo_listed : listed g 0 bs;
  lo_nodup : NoDup bs;
  lo_home : forall b, b ∈ bs -> home dsz g b }.

Section pure.
Context (dsz : Z) (g : log) (bs : list Z).
Hypothesis Hok : log_ok dsz g bs.

Lemma bs_s32 : Forall is_s32 bs.
Proof.
  apply Forall_forall. intros b [Hb _]%(lo_home _ _ _ Hok).
  pose proof (lo_dsz _ _ _ Hok). unfold is_s32. lia.
Qed.

Lemma log_ok_clear : log_ok dsz (set_lh_n 0 g) [].
Proof.
  destruct Hok. split; cbn; try done; try lia; [apply NoDup_nil_2|]. intros b Hb. by apply elem_of_nil in Hb.
Qed.

Lemma home_not_log b : home dsz g b -> b <> start g /\
  b ∉ seqZ (start g + 1) (Z.of_nat (length bs)).
Proof.
  intros [_ Hb]. destruct Hok as [_ _ Hs _ _ _ _ _ _ _].
  split; [lia|]. rewrite elem_of_seqZ. lia.
Qed.

Lemma log_writes_lookup v : forall st k b,
  bs !! k = Some b -> (st + Z.of_nat k, v b) ∈ log_writes st bs v.
Proof.
  clear Hok. induction bs as [|c bs' IH]; intros st k b Hk; [done|].
  destruct k as [|k]; simpl in *; apply elem_of_cons.
  - left. injection Hk as ->. f_equal. lia.
  - right. replace (st + Z.of_nat (S k)) with (st + 1 + Z.of_nat k) by lia. by apply IH.
Qed.

Lemma install_writes_map st (d v : Z -> list Z) :
  (forall k b, bs !! k = Some b -> d (st + Z.of_nat k) = v b) ->
  install_writes st bs d = (fun b => (b, v b)) <$> bs.
Proof.
  clear Hok. revert st. induction bs as [|c bs' IH]; intros st Hk; [done|]. simpl.
  rewrite <- (Hk 0%nat c), Z.add_0_r by done. f_equal. apply IH.
  intros k b Hb. rewrite <- (Hk (S k) b) by done. f_equal. lia.
Qed.

(** Log blocks hold the contents after the first phase. *)
Lemma logged v d k b :
  bs !! k = Some b ->
  apply_writes (log_writes (start g + 1) bs v) d (start g + 1 + Z.of_nat k) = v b.
Proof.
  intros Hk. apply apply_writes_in; [|by apply log_writes_lookup].
  rewrite log_writes_fst. apply NoDup_seqZ.
Qed.

Lemma apply_map_in v d (q : list Z) b :
  NoDup q -> b ∈ q -> apply_writes ((fun b => (b, v b)) <$> q) d b = v b.
Proof.
  intros Hq Hb. apply apply_writes_in.
  - rewrite <- list_fmap_compose. by rewrite list_fmap_id.
  - apply list_elem_of_fmap. eauto.
Qed.
Lemma apply_map_out v d (q : list Z) b :
  b ∉ q -> apply_writes ((fun b => (b, v b)) <$> q) d b = d b.
Proof.
  intros Hb. apply apply_writes_out. rewrite <- list_fmap_compose. by rewrite list_fmap_id.
Qed.

(** A disk whose header is clear recovers to itself. *)
Lemma recovered_clear st d : head_of (d st) = [] -> recovered st d = d.
Proof. unfold recovered. by intros ->. Qed.

(** A disk that holds the committed transaction recovers to its contents,
    however many blocks are already installed. *)
Lemma recovered_committed v d b :
  head_of (d (start g)) = bs ->
  (forall k b, bs !! k = Some b -> d (start g + 1 + Z.of_nat k) = v b) ->
  recovered (start g) d b = if decide (b ∈ bs) then v b else d b.
Proof.
  intros Hh Hk. unfold recovered. rewrite Hh, (install_writes_map _ d v) by done.
  case_decide; [apply apply_map_in; [apply Hok|done]|by apply apply_map_out].
Qed.
End pure.

(** ** Commit *)

Section commit.
Context (ie : bool) (s0 : sched_st) (dsz : Z) (g : log) (bs : list Z).
Hypothesis Hok : log_ok dsz g bs.

Lemma start_not_logged : start g ∉ (list_to_set bs : gset Z).
Proof.
  rewrite elem_of_list_to_set. intros Hb%(lo_home _ _ _ Hok)%(home_not_log _ _ _ Hok).
  by destruct Hb.
Qed.

Lemma size_logged : (base.size (list_to_set bs : gset Z) <= LOGSIZE)%nat.
Proof. rewrite size_list_to_set by apply Hok. apply Hok. Qed.

(** The common end of [commit] and [recover_from_log]. *)
Lemma wp_install_clear dk1 tr1 v1 (D : gset Z) s :
  LS ie s0 dsz g dk1 tr1 v1 D ∅ s -> D ⊆ list_to_set bs ->
  list_to_set bs ⊆ D /\ (base.size D < NBUF)%nat \/ (base.size D + 1 < NBUF)%nat ->
  let ws := install_writes (start g + 1) bs v1 ++
              [(start g, head_block (set_lh_n 0 g) (v1 (start g)))] in
  wp (install_trans ;; upd_lg (set_lh_n 0) ;; write_head) (fun _ s' =>
    LS ie s0 dsz (set_lh_n 0 g) (apply_writes ws dk1) (tr1 ++ ws) (apply_writes ws v1)
      (D ∖ list_to_set bs) ∅ s') s.
Proof.
  intros HLS HD Hroom ws.
  assert (Hst := start_not_logged). assert (Hsz := lo_size _ _ _ Hok).
  assert (0 <= start g) by apply Hok. assert (Hn := lo_n _ _ _ Hok).
  unfold install_trans. rewrite bind_assoc_wp.
  wp_call LS_get_lg; [done|]. intros ? ? [-> ->]. rewrite Hn, Nat2Z.id.
  wp_call wp_install_trans_loop; [apply Hok|apply Hok|done|apply Hok|apply Hok| |apply Hok|..].
  { intros b Hb%HD%elem_of_list_to_set. by apply Hok. }
  { destruct Hroom as [[? ?]|?]; [left; set_solver|by right]. }
  { lia. }
  intros [] s3 HLS3. rewrite Z.add_0_r in HLS3.
  wp_call LS_upd_lg; [done|]. intros [] s4 HLS4.
  pose proof (log_ok_clear _ _ _ Hok) as Hok0.
  assert (base.size (D ∖ list_to_set bs) < NBUF)%nat.
  { replace (D ∖ list_to_set bs) with (∅ : gset Z) by set_solver. rewrite size_empty. vm_compute. lia. }
  wp_call wp_write_head; [done|apply Hok0|simpl; lia|apply Hok0|apply Hok0|apply Hok0|
    constructor|cbn; set_solver|done|].
  intros [] s5 HLS5. cbn [start set_lh_n] in HLS5. subst ws.
  rewrite apply_writes_out in HLS5
    by (rewrite install_writes_fst, <- (elem_of_list_to_set (C := gset Z)); done).
  by rewrite !apply_writes_app, <- ?app_assoc in *.
Qed.

Context (dk : Z -> list Z) (tr : list (Z * list Z)) (v : Z -> list Z).

(** The writes of [commit] after the header is written install [v]. *)
Lemma installed_writes :
  let v1 := apply_writes (log_writes (start g + 1) bs v) v in
  install_writes (start g + 1) bs (<[start g := head_block g (v1 (start g))]> v1) =
  (fun b => (b, v b)) <$> bs.
Proof.
  intros v1. apply install_writes_map. intros k b Hk.
  rewrite fn_lookup_insert_ne by lia. by apply logged.
Qed.

Lemma header_untouched d : apply_writes (log_writes (start g + 1) bs v) d (start g) = d (start g).
Proof. apply apply_writes_out. rewrite log_writes_fst, elem_of_seqZ. lia. Qed.

Lemma wp_commit s :
  LS ie s0 dsz g dk tr v (list_to_set bs) ∅ s -> (length bs < NBUF)%nat ->
  wp commit (fun _ s' =>
    let ws := if decide (bs = []) then [] else commit_writes g bs v (dk (start g)) in
    LS ie s0 dsz (set_lh_n 0 g) (apply_writes ws dk) (tr ++ ws) (apply_writes ws v) ∅ ∅ s') s.
Proof.
  intros HLS Hroom. unfold commit. wp_call LS_get_lg; [done|]. intros ? ? [-> ->].
  assert (Hn := lo_n _ _ _ Hok). apply wp_when; intros Hpos.
  2:{ assert (bs = []) as -> by (apply length_zero_iff_nil; lia). simpl. rewrite app_nil_r.
      replace (set_lh_n 0 g) with g; [done|]. destruct g; cbn in *. by subst. }
  rewrite decide_False by (intros ->; simpl in *; lia).
  assert (Hst := start_not_logged). assert (Hsz := lo_size _ _ _ Hok).
  assert (0 <= start g) by apply Hok.
  assert (base.size (list_to_set bs : gset Z) < NBUF)%nat.
  { rewrite size_list_to_set by apply Hok. done. }
  assert (v (start g) = dk (start g)) as Hc.
  { eapply LS_coh; [done|lia|done|]. intros ?. by rewrite lookup_empty. }
  unfold write_log. rewrite bind_assoc_wp.
  wp_call LS_get_lg; [done|]. intros ? ? [-> ->]. rewrite Hn, Nat2Z.id.
  wp_call wp_write_log_loop; [apply Hok|apply Hok|done|apply Hok|..].
  { intros b Hb%elem_of_list_to_set. by apply Hok. }
  { intros b. by rewrite elem_of_list_to_set. }
  { done. } { lia. }
  intros [] s1 HLS1. rewrite Z.add_0_r in HLS1.
  wp_call wp_write_head; [done|apply Hok|lia|apply Hok|apply Hok|apply Hok|eapply bs_s32, Hok|done|done|].
  intros [] s2 HLS2.
  eapply wp_mono; [eapply wp_install_clear; [done|done|by left]|]. intros [] s5 HLS5.
  rewrite installed_writes, difference_diag_L, fn_lookup_insert, header_untouched, Hc in HLS5.
  unfold commit_writes. rewrite !apply_writes_app, !apply_writes_cons.
  rewrite <- !app_assoc in HLS5. done.
Qed.
End commit.

(** ** Crashes during commit *)

(** The header block [h] records the transaction [bs]. *)
Definition reads (h : list Z) (bs : list Z) : Prop :=
  s32 (get_word 0 h) = Z.of_nat (length bs) /\ head_of h = bs.

Section crash.
Context (dsz : Z) (g : log) (bs : list Z) (dk v : Z -> list Z).
Hypothesis Hok : log_ok dsz g bs.
Hypothesis Hhead : reads (dk (start g)) [].
Hypothesis Hdisk : block_ok (dk (start g)).
Hypothesis Hcoh : forall b, home dsz g b -> b ∉ bs -> v b = dk b.
Notation st := (start g).

(** Before the commit point the home blocks hold the old contents. *)
Definition before (d : Z -> list Z) : Prop :=
  reads (d st) [] /\ forall b, home dsz g b -> d b = dk b.
(** After it the log holds the new ones. *)
Definition committed (d : Z -> list Z) : Prop :=
  reads (d st) bs /\ (forall k b, bs !! k = Some b -> d (st + 1 + Z.of_nat k) = v b) /\
  forall b, home dsz g b -> b ∉ bs -> d b = v b.
(** At the end they are in place. *)
Definition finished (d : Z -> list Z) : Prop :=
  reads (d st) [] /\ forall b, home dsz g b -> d b = v b.

Lemma head_block_reads : reads (head_block g (dk st)) bs /\
  reads (head_block (set_lh_n 0 g) (head_block g (dk st))) [].
Proof.
  destruct (head_block_spec g bs (dk st)) as (Hb & Hn & Hh);
    [apply Hok|apply Hok|apply Hok|by eapply bs_s32|done|].
  assert (LOGSIZE = 30%nat) as HL by reflexivity. pose proof (lo_max _ _ _ Hok).
  pose proof (log_ok_clear _ _ _ Hok) as Hok0.
  destruct (head_block_spec (set_lh_n 0 g) [] (head_block g (dk st))) as (_ & Hn' & Hh');
    [apply Hok0|apply Hok0|apply Hok0|constructor|done|].
  unfold reads. rewrite Hn, Hn', Hh, Hh', !s32_small by (unfold is_s32; simpl; lia). auto.
Qed.

Lemma crash_logging p : p `prefix_of` log_writes (st + 1) bs v -> before (apply_writes p dk).
Proof.
  intros [q Hq]. assert (Hout : forall n, n ∉ seqZ (st + 1) (Z.of_nat (length bs)) -> n ∉ p.*1).
  { intros n Hn Hp. apply Hn. rewrite <- (log_writes_fst _ _ v), Hq, fmap_app. set_solver. }
  split.
  - rewrite apply_writes_out; [apply Hhead|]. apply Hout. rewrite elem_of_seqZ. lia.
  - intros b Hb. apply apply_writes_out, Hout. by apply (home_not_log _ _ _ Hok).
Qed.

Lemma prefix_map_fst (f : Z -> list Z) p (l : list Z) :
  p `prefix_of` (fun b => (b, f b)) <$> l -> exists q, q `prefix_of` l /\ p = (fun b => (b, f b)) <$> q.
Proof.
  intros [r (q1 & q2 & -> & -> & ->)%fmap_app_inv]. exists q1. split; [by exists q2|done].
Qed.

Lemma committed_at q :
  q `prefix_of` bs ->
  committed (apply_writes ((fun b => (b, v b)) <$> q)
    (<[st := head_block g (dk st)]> (apply_writes (log_writes (st + 1) bs v) dk))).
Proof.
  intros [r Hr]. assert (Hqh : forall b, b ∈ q -> home dsz g b).
  { intros b Hb. apply Hok. rewrite Hr. set_solver. }
  assert (Hst : st ∉ q) by (intros Hb%Hqh%(home_not_log _ _ _ Hok); by destruct Hb).
  split_and!.
  - rewrite apply_map_out, fn_lookup_insert by auto. apply head_block_reads.
  - intros k b Hk. rewrite apply_map_out, fn_lookup_insert_ne by
      (first [lia | intros [_ Hb]%Hqh; apply lookup_lt_Some in Hk; pose proof (lo_size _ _ _ Hok); lia]).
    by apply logged.
  - intros b Hb Hbs. destruct (home_not_log _ _ _ Hok b Hb) as [? Hnl].
    rewrite apply_map_out by (intros Hq; apply Hbs; rewrite Hr; set_solver).
    rewrite fn_lookup_insert_ne by auto.
    rewrite apply_writes_out by (by rewrite log_writes_fst). by rewrite Hcoh.
Qed.

Lemma commit_done : finished (apply_writes (commit_writes g bs v (dk st)) dk).
Proof.
  unfold commit_writes. rewrite !apply_writes_app, apply_writes_cons, apply_writes_app.
  destruct (committed_at bs) as (_ & _ & Hc); [by exists []; rewrite app_nil_r|]. simpl.
  split; [rewrite fn_lookup_insert; apply head_block_reads|].
  intros b Hb. rewrite fn_lookup_insert_ne by (destruct (home_not_log _ _ _ Hok b Hb); congruence).
  destruct (decide (b ∈ bs)); [|by apply Hc]. apply apply_map_in; [apply Hok|done].
Qed.

Lemma crash_commit p :
  p `prefix_of` commit_writes g bs v (dk st) ->
  let d := apply_writes p dk in
  (length p <= length bs)%nat /\ before d \/ (length bs < length p)%nat /\ (committed d \/ finished d).
Proof.
  assert (Hlen : length (log_writes (st + 1) bs v) = length bs).
  { rewrite <- (length_fmap fst), log_writes_fst, length_seqZ. lia. }
  intros Hp d. unfold commit_writes in Hp.
  apply prefix_app_cases in Hp as [Hp|([|w q] & Ep & Hq)].
  - left. split; [|by apply crash_logging]. apply prefix_length in Hp. lia.
  - left. rewrite app_nil_r in Ep. split; [by rewrite Ep, Hlen|]. apply crash_logging. by rewrite Ep.
  - right. split; [rewrite Ep, length_app; simpl; lia|].
    pose proof (prefix_cons_inv_1 _ _ _ _ Hq) as ->. apply prefix_cons_inv_2 in Hq.
    apply prefix_app_cases in Hq as [Hq|([|w' q'] & Eq & Hq)].
    + left. destruct (prefix_map_fst _ _ _ Hq) as (q' & Hq' & ->).
      subst d. rewrite Ep, apply_writes_app, apply_writes_cons. by apply committed_at.
    + left. subst d. rewrite Ep, Eq, app_nil_r, apply_writes_app, apply_writes_cons.
      by apply committed_at.
    + right. subst d. rewrite Ep, Eq. pose proof (prefix_cons_inv_1 _ _ _ _ Hq) as ->.
      apply prefix_cons_inv_2, prefix_nil_inv in Hq as ->. apply commit_done.
Qed.
End crash.

(** ** Recovery *)

(** The log that [initlog] has set up when it calls [recover_from_log]. *)
Record log_geo (dsz : Z) (g : log) (bs : list Z) : Prop := {
  lg_dev : ldev g = 1;
  lg_start : 0 <= start g;
  lg_size : start g + Z.of_nat (length bs) < start g + size g <= dsz;
  lg_dsz : dsz < 2147483648;
  lg_max : (length bs <= LOGSIZE)%nat;
  lg_block : length (lh_block g) = LOGSIZE;
  lg_nodup : NoDup bs;
  lg_home : forall b, b ∈ bs -> home dsz g b }.

Lemma log_geo_ok dsz g bs bl n :
  log_geo dsz g bs -> length bl = LOGSIZE -> n = Z.of_nat (length bs) ->
  listed (set_lh_block bl (set_lh_n n g)) 0 bs ->
  log_ok dsz (set_lh_block bl (set_lh_n n g)) bs.
Proof. intros [] ???. by split. Qed.

Lemma log_ok_geo dsz g bs : log_ok dsz g bs -> log_geo dsz g bs.
Proof. intros []. by split. Qed.

Section recovery.
Context (dsz : Z) (g : log) (bs : list Z) (dk : Z -> list Z).
Hypothesis Hgeo : log_geo dsz g bs.
Hypothesis Hreads : reads (dk (start g)) bs.
Notation st := (start g).
Notation new := (recovered st dk).

(** The writes of recovery: install, then a clear header [h]. *)
Definition recover_writes (h : list Z) : list (Z * list Z) :=
  install_writes (st + 1) bs dk ++ [(st, h)].

Lemma wp_recover ie s0 tr v s :
  LS ie s0 dsz g dk tr v ∅ ∅ s ->
  wp recover_from_log (fun _ s' => exists h g' v',
    LS ie s0 dsz g' (apply_writes (recover_writes h) dk) (tr ++ recover_writes h) v' ∅ ∅ s' /\
    reads h [] /\ start g' = st /\ size g' = size g /\ log_geo dsz g' [] /\ lh_n g' = 0) s.
Proof.
  intros HLS. destruct Hreads as [Hn Hh]. destruct Hgeo as [? ? ? ? ? ? ? ?].
  assert (Hv : forall n, 0 <= n < dsz -> v n = dk n).
  { intros n Hnr. eapply LS_coh; [done|done|set_solver|]. intros ?. by rewrite lookup_empty. }
  assert (NBUF = 30%nat) as HN by done.
  unfold recover_from_log.
  wp_call wp_read_head; [done|done|lia|done|set_solver|rewrite size_empty; lia|by rewrite Hh|].
  rewrite Hn, Hh. intros [] s1 (bl & HLS1 & Hbl & Hlst).
  pose proof (log_geo_ok _ _ _ _ _ Hgeo Hbl eq_refl Hlst) as Hok.
  pose proof (log_ok_clear _ _ _ Hok) as Hok0.
  eapply wp_mono; [eapply (wp_install_clear _ _ _ _ _ Hok); [done|set_solver|right; rewrite size_empty; lia]|].
  cbn [start set_lh_block set_lh_n]. replace (∅ ∖ list_to_set bs) with (∅ : gset Z) by set_solver. intros [] s2 HLS2.
  rewrite (install_writes_ext bs _ v dk) in HLS2 by (intros; apply Hv; lia).
  eexists _, _, _. split; [exact HLS2|]. split_and!; [|done|done|by apply log_ok_geo|done].
  destruct (head_block_spec (set_lh_n 0 (set_lh_block bl (set_lh_n (Z.of_nat (length bs)) g))) [] (v st))
    as (_ & Hn0 & Hh0); [apply Hok0|apply Hok0|apply Hok0|constructor|by eapply LS_view; [exact HLS|lia]|].
  split; [|done]. rewrite Hn0. done.
Qed.

Lemma home_not_log' b : home dsz g b -> b <> st /\
  ~ st + 1 <= b < st + 1 + Z.of_nat (length bs).
Proof. intros [_ Hb]. destruct Hgeo. lia. Qed.

Lemma new_entry k b : bs !! k = Some b -> new b = dk (st + 1 + Z.of_nat k).
Proof.
  intros Hk. unfold recovered. rewrite (proj2 Hreads).
  apply apply_writes_in; [rewrite install_writes_fst; apply Hgeo|].
  clear -Hk. revert k Hk. generalize (st + 1) as s. induction bs as [|c l IH]; intros s k Hk; [done|].
  destruct k as [|k]; simpl in *; apply elem_of_cons.
  - left. injection Hk as ->. by rewrite Z.add_0_r.
  - right. replace (s + Z.of_nat (S k)) with (s + 1 + Z.of_nat k) by lia. by apply IH.
Qed.
Lemma new_other b : b ∉ bs -> new b = dk b.
Proof.
  intros Hb. unfold recovered. rewrite (proj2 Hreads). apply apply_writes_out.
  by rewrite install_writes_fst.
Qed.

Lemma install_new : install_writes (st + 1) bs dk = (fun b => (b, new b)) <$> bs.
Proof. apply install_writes_map. intros k b Hk. symmetry. by apply new_entry. Qed.

Lemma recover_done h :
  reads h [] -> finished dsz g new (apply_writes (recover_writes h) dk).
Proof.
  intros Hh. unfold recover_writes. rewrite install_new, apply_writes_app. simpl.
  split; [by rewrite fn_lookup_insert|].
  intros b Hb. rewrite fn_lookup_insert_ne by (destruct (home_not_log' b Hb); congruence).
  destruct (decide (b ∈ bs)); [apply apply_map_in; [apply Hgeo|done]|].
  by rewrite apply_map_out, new_other.
Qed.

(** A crash during recovery leaves a disk with the same recovered contents. *)
Lemma crash_recover h p :
  reads h [] -> p `prefix_of` recover_writes h ->
  let d := apply_writes p dk in
  committed dsz g bs new d \/ finished dsz g new d.
Proof.
  intros Hh Hp. pose proof (recover_done h Hh) as Hdone.
  unfold recover_writes in *. rewrite install_new in *.
  assert (Hst : st ∉ bs) by (intros Hb%Hgeo%home_not_log'; lia).
  assert (Hin : forall q, q `prefix_of` bs ->
    committed dsz g bs new (apply_writes ((fun b => (b, new b)) <$> q) dk)).
  { intros q [r Hr]. assert (Hq : forall b, b ∉ bs -> b ∉ q) by (rewrite Hr; set_solver).
    split_and!.
    - rewrite apply_map_out by auto. apply Hreads.
    - intros k b Hk. rewrite apply_map_out; [by rewrite (new_entry k b)|]. apply Hq.
      intros Hb%Hgeo%home_not_log'. apply lookup_lt_Some in Hk. lia.
    - intros b _ Hb. rewrite apply_map_out by auto. by rewrite new_other. }
  apply prefix_app_cases in Hp as [Hp|([|w q] & -> & Hq)].
  - left. destruct (prefix_map_fst _ _ _ Hp) as (q & Hq & ->). auto.
  - left. rewrite app_nil_r. by apply Hin.
  - right. pose proof (prefix_cons_inv_1 _ _ _ _ Hq) as ->.
    apply prefix_cons_inv_2, prefix_nil_inv in Hq as ->. done.
Qed.

(** What a disk with the transaction in its log recovers to. *)
Lemma recovered_is (v : Z -> list Z) b :
  committed dsz g bs v dk -> home dsz g b -> new b = v b.
Proof.
  intros (_ & Hk & Ho) Hb. destruct (decide (b ∈ bs)) as [[k Hbs]%list_elem_of_lookup|Hbs].
  - by rewrite (new_entry k b), Hk with (b := b).
  - rewrite new_other by done. auto.
Qed.
End recovery.

(** ** The theorems *)

(** The machine has rebooted on disk [d]: the cache is empty and coherent, and
    [initlog] has read the geometry of the log [g] from the superblock. *)
Definition booted (dsz : Z) (g : log) (d : Z -> list Z) (s : log_st) : Prop :=
  exists ie s0 g0 tr v, LS ie s0 dsz g0 d tr v ∅ ∅ s /\ ldev g0 = 1 /\
    start g0 = start g /\ size g0 = size g /\ length (lh_block g0) = LOGSIZE.

Lemma booted_geo dsz g g0 bs :
  log_geo dsz g bs -> ldev g0 = 1 -> start g0 = start g -> size g0 = size g ->
  length (lh_block g0) = LOGSIZE -> log_geo dsz g0 bs.
Proof. intros [] ? Hs Hz ?. split; unfold home in *; rewrite ?Hs, ?Hz; done. Qed.

Lemma finished_ext dsz g g0 v v' d :
  start g0 = start g -> size g0 = size g -> (forall b, home dsz g b -> v b = v' b) ->
  finished dsz g0 v d -> finished dsz g v' d.
Proof.
  unfold finished, home. intros -> -> Hv [Hr Hb]. split; [done|]. intros b Hh.
  rewrite Hb by done. auto.
Qed.

(** Recovery on a disk in one of the states a crash leaves. *)
Lemma recover_before dsz g bs dk d s :
  log_geo dsz g bs -> before dsz g dk d -> booted dsz g d s ->
  wp recover_from_log (fun _ r => finished dsz g dk (disk (lbio r))) s.
Proof.
  intros Hg [Hr Hb] (ie & s0 & g0 & tr & v & HLS & Hd & Hs & Hz & Hl).
  assert (Hg0 : log_geo dsz g0 []).
  { eapply booted_geo; try done. destruct Hg. split; simpl; try lia; try done; [apply NoDup_nil_2|].
    intros b Hn. by apply elem_of_nil in Hn. }
  rewrite <- Hs in Hr. eapply wp_mono; [by eapply wp_recover|].
  intros [] r (h & g' & v' & HLS' & Hh & _). rewrite (ls_disk _ _ _ _ _ _ _ _ _ HLS').
  eapply finished_ext; [done|done| |by apply recover_done].
  intros b Hbh. rewrite (new_other g0 [] d) by (try done; apply not_elem_of_nil). auto.
Qed.

Lemma recover_committed dsz g bs v d s :
  log_geo dsz g bs -> committed dsz g bs v d -> booted dsz g d s ->
  wp recover_from_log (fun _ r => finished dsz g v (disk (lbio r))) s.
Proof.
  intros Hg Hc (ie & s0 & g0 & tr & v0 & HLS & Hd & Hs & Hz & Hl).
  assert (Hg0 : log_geo dsz g0 bs) by (by eapply booted_geo).
  assert (Hr : reads (d (start g0)) bs) by (rewrite Hs; apply Hc).
  eapply wp_mono; [by eapply wp_recover|].
  intros [] r (h & g' & v' & HLS' & Hh & _). rewrite (ls_disk _ _ _ _ _ _ _ _ _ HLS').
  eapply finished_ext; [done|done| |by apply recover_done].
  intros b Hbh. eapply recovered_is; try done; unfold committed, home in *; by rewrite Hs, ?Hz.
Qed.

(** Recovery after a crash in the middle of [commit]. *)
Lemma commit_recovers dsz g bs dk v p crash :
  log_ok dsz g bs -> reads (dk (start g)) [] -> block_ok (dk (start g)) -> (forall b, home dsz g b -> b ∉ bs -> v b = dk b) ->
  p `prefix_of` commit_writes g bs v (dk (start g)) -> booted dsz g (apply_writes p dk) crash ->
  wp recover_from_log (fun _ r => finished dsz g (if decide (length p <= length bs)%nat then dk else v) (disk (lbio r))) crash.
Proof.
  intros Hok Hreads Hblk Hcoh Hp Hboot. apply log_ok_geo in Hok as Hgeo.
  destruct (crash_commit dsz g bs dk v Hok Hreads Hblk Hcoh p Hp) as [[Hl Hd]|[Hl [Hd|Hd]]].
  - rewrite decide_True by done. by eapply recover_before.
  - rewrite decide_False by lia. by eapply recover_committed.
  - rewrite decide_False by lia. by eapply recover_before.
Qed.

(** C1 A crash of [commit] between any two of its disk writes is atomic: after
    a reboot, [recover_from_log] returns, clears the header and leaves every
    block outside the log with its contents before the transaction if the
    crash came before the header write, and with the transaction's contents
    if it came after.  Without a crash, [commit] returns with the new
    contents in place and a clear header. *)
Theorem commit_crash_safe ie s0 dsz g bs dk tr v s :
  log_ok dsz g bs -> bs <> [] -> (length bs < NBUF)%nat ->
  reads (dk (start g)) [] ->
  LS ie s0 dsz g dk tr v (list_to_set bs) ∅ s ->
  wp commit (fun _ s' =>
    finished dsz g v (disk (lbio s')) /\
    exists ws, wtrace (lbio s') = tr ++ ws /\
    forall p crash, p `prefix_of` ws -> booted dsz g (apply_writes p dk) crash ->
      wp recover_from_log (fun _ r =>
        finished dsz g (if decide (length p <= length bs)%nat then dk else v) (disk (lbio r)))
        crash) s.
Proof.
  intros Hok Hne Hroom Hreads HLS.
  assert (Hblk : block_ok (dk (start g))).
  { eapply LS_disk_ok; [done|]. destruct Hok. lia. }
  assert (Hcoh : forall b, home dsz g b -> b ∉ bs -> v b = dk b).
  { intros b [Hb _] Hbs. eapply LS_coh; [done|done|by rewrite elem_of_list_to_set|].
    intros ?. by rewrite lookup_empty. }
  eapply wp_mono; [by eapply wp_commit|]. rewrite decide_False by done. intros [] s' HLS'.
  rewrite (ls_disk _ _ _ _ _ _ _ _ _ HLS'), (ls_trace _ _ _ _ _ _ _ _ _ HLS').
  split; [by apply commit_done|]. eexists. split; [done|]. intros p crash Hp Hboot. by apply commit_recovers.
Qed.

(** C7 A crash during recovery is harmless: recovery returns with the logged
    blocks installed, and if it is itself cut short after any of its disk
    writes, running it again after the next reboot restores the same blocks. *)
Theorem recovery_idempotent ie s0 dsz g bs dk tr v s :
  log_geo dsz g bs -> reads (dk (start g)) bs ->
  LS ie s0 dsz g dk tr v ∅ ∅ s ->
  wp recover_from_log (fun _ s' =>
    finished dsz g (recovered (start g) dk) (disk (lbio s')) /\
    exists ws, wtrace (lbio s') = tr ++ ws /\
    forall p crash, p `prefix_of` ws -> booted dsz g (apply_writes p dk) crash ->
      wp recover_from_log (fun _ r =>
        finished dsz g (recovered (start g) dk) (disk (lbio r))) crash) s.
Proof.
  intros Hgeo Hreads HLS. eapply wp_mono; [by eapply wp_recover|].
  intros [] s' (h & g' & v' & HLS' & Hh & _).
  rewrite (ls_disk _ _ _ _ _ _ _ _ _ HLS'), (ls_trace _ _ _ _ _ _ _ _ _ HLS').
  split; [by apply recover_done|]. eexists. split; [done|]. intros p crash Hp Hboot.
  destruct (crash_recover dsz g bs dk Hgeo Hreads h p Hh Hp) as [Hd|Hd].
  - by eapply recover_committed.
  - by eapply recover_before.
Qed.

(** ** An instance: one block is logged on a disk of 1000 blank blocks *)

Definition demo_log : log := Log 2 30 0 0 1 1 (40 :: replicate 29 0).
Definition seven : list Z := replicate BSIZE 7.
Definition demo_setup : M log_st unit :=
  lift lbio_lens binit ;;
  b ← bread 1 40;
  set_data b seven ;;
  pin b ;;
  brelse b.

Lemma demo_log_ok : log_ok 1000 demo_log [40].
Proof.
  split; try done; try (simpl; unfold LOGSIZE; lia).
  - intros k b Hk. apply list_lookup_singleton_Some in Hk as [-> <-]. done.
  - apply NoDup_singleton.
  - intros b ->%list_elem_of_singleton. unfold home. simpl. lia.
Qed.

Lemma demo_reads : reads (blank 2) [].
Proof. split; vm_compute; reflexivity. Qed.

Lemma wp_demo_setup :
  wp demo_setup (fun _ s => LS true boot_sched 1000 demo_log blank [] (<[40 := seven]> blank)
    (list_to_set [40]) ∅ s) (boot_log blank 1000 demo_log).
Proof.
  assert (seven_ok : block_ok seven) by (split; [apply length_replicate|by apply Forall_replicate]).
  unfold demo_setup. wp_call wp_boot; [lia|apply blank_ok|]. intros [] s1 H1.
  wp_call LS_bread; [done|lia|by intros ?; rewrite lookup_empty|
    rewrite map_size_empty, size_empty; right; vm_compute; lia|]. intros i s2 [_ H2].
  wp_call LS_set_data; [done|apply lookup_insert_eq|done|]. intros [] s3 H3.
  wp_call LS_pin; [done|apply lookup_insert_eq|]. intros [] s4 H4.
  wp_call LS_brelse; [done|apply lookup_insert_eq|left; set_solver|].
  rewrite delete_insert_id by apply lookup_empty. done.
Qed.

Lemma commit_crash_safe_witness :
  wp demo_setup (fun _ s => wp commit (fun _ s' =>
    finished 1000 demo_log (<[40 := seven]> blank) (disk (lbio s')) /\
    exists ws, wtrace (lbio s') = [] ++ ws /\
    forall p crash, p `prefix_of` ws -> booted 1000 demo_log (apply_writes p blank) crash ->
      wp recover_from_log (fun _ r => finished 1000 demo_log
        (if decide (length p <= length [40%Z])%nat then blank else <[40 := seven]> blank)
        (disk (lbio r))) crash) s) (boot_log blank 1000 demo_log).
Proof.
  eapply wp_mono; [apply wp_demo_setup|]. intros [] s HLS.
  apply (commit_crash_safe true boot_sched 1000 demo_log [40] blank [] (<[40 := seven]> blank) s);
    [apply demo_log_ok|done|vm_compute; lia|apply demo_reads|done].
Defined.

(** A disk whose log holds a committed transaction on block 40. *)
Definition demo_disk : Z -> list Z :=
  <[2 := put_word 0 1 (put_word 4 40 (blank 2))]> (<[3 := seven]> blank).

Lemma demo_disk_ok b : block_ok (demo_disk b).
Proof.
  unfold demo_disk. destruct (decide (b = 2)) as [->|]; [rewrite fn_lookup_insert|rewrite fn_lookup_insert_ne by done].
  - apply block_ok_put_word; [vm_compute; lia|]. apply block_ok_put_word; [vm_compute; lia|apply blank_ok].
  - destruct (decide (b = 3)) as [->|]; [rewrite fn_lookup_insert|rewrite fn_lookup_insert_ne by done].
    + split; [apply length_replicate|by apply Forall_replicate].
    + apply blank_ok.
Qed.

Lemma recovery_idempotent_witness :
  wp (lift lbio_lens binit) (fun _ s => wp recover_from_log (fun _ s' =>
    finished 1000 demo_log (recovered 2 demo_disk) (disk (lbio s')) /\
    exists ws, wtrace (lbio s') = [] ++ ws /\
    forall p crash, p `prefix_of` ws -> booted 1000 demo_log (apply_writes p demo_disk) crash ->
      wp recover_from_log (fun _ r => finished 1000 demo_log (recovered 2 demo_disk) (disk (lbio r)))
        crash) s) (boot_log demo_disk 1000 demo_log).
Proof.
  eapply wp_mono; [apply wp_boot; [lia|apply demo_disk_ok]|]. intros [] s HLS.
  apply (recovery_idempotent true boot_sched 1000 demo_log [40] demo_disk [] demo_disk s);
    [apply log_ok_geo, demo_log_ok|split; vm_compute; reflexivity|done].
Defined.
