(* ===== verification/Logop.v ===== *)
(** * File system operations as transactions (log.c)

    [begin_op], [log_write] and [end_op] bracket a file system call.  The
    specifications below carry the log from one call to the next; the
    admission theorems relate the reservation of [begin_op] to the space that
    [log_write] checks. *)

From S2P Require Import Prelude Params Spinlock Sched Ring Bio Log Crash.

(** The blocks of the transaction after [b] is logged. *)
Definition log_add (b : Z) (bs : list Z) : list Z :=
  if decide (b ∈ bs) then bs else bs ++ [b].

Lemma log_ok_take dsz g bs : log_ok dsz g bs -> take (length bs) (lh_block g) = bs.
Proof.
  intros Hok. apply list_eq. intros k. destruct (bs !! k) as [b|] eqn:Hb.
  - apply lookup_lt_Some in Hb as Hk. rewrite lookup_take_lt by done.
    by apply (lo_listed _ _ _ Hok).
  - apply lookup_ge_None in Hb. by rewrite lookup_take_ge.
Qed.

Lemma absorb_spec dsz g bs b :
  log_ok dsz g bs ->
  let i := absorb (length bs) (lh_block g) b in
  b ∈ bs /\ bs !! i = Some b /\ (i < length bs)%nat \/ b ∉ bs /\ i = length bs.
Proof.
  intros Hok. unfold absorb. rewrite (log_ok_take _ _ _ Hok).
  destruct (list_find (fun x => x = b) bs) as [[i x]|] eqn:Hf.
  - apply list_find_Some in Hf as (Hi & -> & _). left. split_and!; [|done|].
    + by eapply list_elem_of_lookup_2.
    + by eapply lookup_lt_Some.
  - right. split; [|done]. intros Hb. by eapply list_find_None, Forall_forall in Hf.
Qed.

(** The log record that [log_write] leaves. *)
Definition log_entry (b : Z) (g : log) : log :=
  let i := absorb (Z.to_nat (lh_n g)) (lh_block g) b in
  let g := set_lh_block (<[i := b]> (lh_block g)) g in
  if decide (Z.of_nat i = lh_n g) then set_lh_n (lh_n g + 1) g else g.

Lemma log_entry_ok dsz g bs b :
  log_ok dsz g bs -> home dsz g b -> lh_n g < Z.of_nat LOGSIZE -> lh_n g < size g - 1 ->
  log_ok dsz (log_entry b g) (log_add b bs).
Proof.
  intros Hok Hb Hn Hs. unfold log_entry, log_add. rewrite (lo_n _ _ _ Hok), Nat2Z.id in *.
  destruct (absorb_spec _ _ _ b Hok) as [(Hin & Hi & Hlt)|[Hin Hi]]; cbn [lh_n set_lh_block].
  - rewrite (lo_n _ _ _ Hok), decide_False, decide_True by (done || lia).
    rewrite list_insert_id by (by apply (lo_listed _ _ _ Hok)). by destruct g.
  - rewrite Hi, (lo_n _ _ _ Hok), decide_True, decide_False by done. destruct Hok.
    split; cbn; rewrite ?length_app, ?length_insert; simpl length; try lia; try done.
    + intros k c Hk. cbn. apply lookup_app_Some in Hk as [Hk|[Hge Hk]].
      * rewrite list_lookup_insert_ne by (apply lookup_lt_Some in Hk; lia). by apply lo_listed.
      * apply list_lookup_singleton_Some in Hk as [? <-]. simpl.
        replace k with (length bs) by lia. apply list_lookup_insert_eq. lia.
    + apply NoDup_app. split_and!; [done| |apply NoDup_singleton].
      intros c Hc ->%list_elem_of_singleton. done.
    + intros c [Hc| ->%list_elem_of_singleton]%elem_of_app; [|done]. by apply lo_home.
Qed.

Lemma log_add_set b bs : (list_to_set (log_add b bs) : gset Z) = {[b]} ∪ list_to_set bs.
Proof. unfold log_add. case_decide; set_solver. Qed.

Section ops.
Context (ie : bool) (s0 : sched_st) (dsz : Z).
Context (g : log) (dk : Z -> list Z) (tr : list (Z * list Z)).
Context (v : Z -> list Z) (D : gset Z) (H : gmap nat Z) (s : log_st).
Hypothesis HLS : LS ie s0 dsz g dk tr v D H s.
Notation LS := (LS ie s0 dsz).

Lemma wp_begin_op :
  committing g = 0 -> 0 <= lh_n g -> 0 <= outstanding g ->
  lh_n g + (outstanding g + 1) * MAXOPBLOCKS <= Z.of_nat LOGSIZE ->
  wp begin_op (fun _ s' => LS (set_outstanding (outstanding g + 1) g) dk tr v D H s') s.
Proof.
  intros Hc Hn Ho Hsum. unfold MAXOPBLOCKS in *. assert (LOGSIZE = 30%nat) as HL by done.
  unfold begin_op, MAXOPBLOCKS. wp_call LS_acquire; [done|]. intros [] s1 H1.
  wp_call LS_get_lg; [done|]. intros ? ? [-> ->]. rewrite Hc. simpl negb. cbv iota.
  rewrite !s32_small by (unfold is_s32; lia).
  replace (_ <? _) with false by (symmetry; lia).
  wp_call LS_upd_lg; [done|]. intros [] s2 H2. by wp_call LL_release.
Qed.

Lemma wp_log_write i b bs :
  log_ok dsz g bs -> D = list_to_set bs -> H !! i = Some b -> home dsz g b ->
  lh_n g < Z.of_nat LOGSIZE -> lh_n g < size g - 1 -> 1 <= outstanding g ->
  wp (log_write i) (fun _ s' =>
    LS (log_entry b g) dk tr v (list_to_set (log_add b bs)) H s') s.
Proof.
  intros Hok HD Hi Hb Hn Hs Ho. unfold log_write.
  wp_call LS_get_lg; [done|]. intros ? ? [-> ->].
  replace (_ || _) with false by (symmetry; lia).
  replace (_ <? 1) with false by (symmetry; lia).
  wp_call LS_acquire; [done|]. intros [] s1 H1.
  wp_call LS_get_lg; [done|]. intros ? ? [-> ->].
  wp_call LS_blockno; [done..|]. intros ? ? [-> ->]. cbv zeta.
  wp_call LS_upd_lg; [done|]. intros [] s2 H2.
  eapply (wp_seq _ _ _ (fun _ s' => LL ie s0 dsz (log_entry b g) dk tr v D H s')).
  { unfold log_entry. cbn [lh_n set_lh_block]. case_decide; [|by apply wp_ret].
    wp_call LS_upd_lg; [done|]. done. }
  intros [] s3 H3. wp_call LS_pin; [done..|]. intros [] s4 H4.
  rewrite log_add_set, <- HD. by wp_call LL_release.
Qed.

(** [log_write] refuses a block when the header or the log is full, even one
    that is already logged. *)
Lemma log_write_full i :
  Z.of_nat LOGSIZE <= lh_n g \/ size g - 1 <= lh_n g ->
  log_write i s = Panic "too big a transaction" s.
Proof.
  intros Hf. unfold log_write, get_lg, gets, mbind, M_bind. rewrite (ls_lg _ _ _ _ _ _ _ _ _ HLS).
  by replace (_ || _) with true by (symmetry; lia).
Qed.

Lemma wp_end_op_more :
  committing g = 0 -> 2 <= outstanding g < 1000 ->
  wp end_op (fun _ s' => LS (set_outstanding (outstanding g - 1) g) dk tr v D H s') s.
Proof.
  intros Hc Ho. unfold end_op. wp_call LS_acquire; [done|]. intros [] s1 H1.
  wp_call LS_upd_lg; [done|]. intros [] s2 H2. wp_call LS_get_lg; [done|]. intros ? ? [-> ->].
  rewrite s32_small in * by (unfold is_s32; lia). cbn [committing outstanding set_outstanding].
  rewrite Hc. simpl negb. cbv iota. replace (_ =? 0) with false by (symmetry; lia).
  wp_call LL_wakeup; [done|]. intros [] s3 H3. by wp_call LL_release.
Qed.
End ops.

(** The last operation of a transaction commits it. *)
Lemma wp_end_op_last ie s0 dsz g dk tr v bs s :
  LS ie s0 dsz g dk tr v (list_to_set bs) ∅ s -> log_ok dsz g bs -> (length bs < NBUF)%nat ->
  committing g = 0 -> outstanding g = 1 ->
  let ws := if decide (bs = []) then [] else commit_writes g bs v (dk (start g)) in
  wp end_op (fun _ s' => exists g', LS ie s0 dsz g' (apply_writes ws dk) (tr ++ ws)
    (apply_writes ws v) ∅ ∅ s' /\ start g' = start g /\ size g' = size g /\
    log_ok dsz g' [] /\ committing g' = 0 /\ outstanding g' = 0) s.
Proof.
  intros HLS Hok Hroom Hc Ho ws. unfold end_op.
  wp_call LS_acquire; [done|]. intros [] s1 H1.
  wp_call LS_upd_lg; [done|]. intros [] s2 H2. wp_call LS_get_lg; [done|]. intros ? ? [-> ->].
  rewrite Ho in *. change (s32 (1 - 1)) with 0 in *.
  cbn [committing outstanding set_outstanding]. rewrite Hc. simpl negb. simpl Z.eqb. cbv iota.
  wp_call LS_upd_lg; [done|]. intros [] s3 H3. wp_call LL_release; [done|]. intros [] s4 H4.
  set (g1 := set_committing 1 (set_outstanding 0 g)) in *.
  assert (Hok1 : log_ok dsz g1 bs) by (destruct Hok; by split).
  wp_call wp_commit; [done|done|done|]. intros [] s5 H5.
  wp_call LS_acquire; [exact H5|]. intros [] s6 H6.
  wp_call LS_upd_lg; [done|]. intros [] s7 H7.
  wp_call LL_wakeup; [done|]. intros [] s8 H8. wp_call LL_release; [done|]. intros [] s9 H9.
  eexists. split; [exact H9|]. apply log_ok_clear in Hok. split_and!; try done.
  destruct Hok; by split.
Qed.

(** ** Operations as atomic transactions

    The abstract specification of the log: file system calls run against
    [view]; the disk holds [durable] until the last call of the transaction
    ends, which makes [view] durable at once.  [credits] counts the blocks
    that each outstanding call has logged. *)

Record atx := Atx {
  durable : Z -> list Z; view : Z -> list Z; logged : list Z; credits : list nat }.

Inductive label :=
| LBegin
| LWrite (k : nat) (b : Z) (d : list Z)
| LEnd (k : nat).

(** The typical use in log.c's comment: read, modify, log, release. *)
Definition write_block (b : Z) (d : list Z) : M log_st unit :=
  bp ← bread 1 b;
  set_data bp d ;;
  log_write bp ;;
  brelse bp.

Definition code (l : label) : M log_st unit :=
  match l with
  | LBegin => begin_op
  | LWrite _ b d => write_block b d
  | LEnd _ => end_op
  end.

Fixpoint run (ls : list label) : M log_st unit :=
  match ls with
  | [] => mret ()
  | l :: ls => code l ;; run ls
  end.

#[global] Instance home_dec dsz g b : Decision (home dsz g b).
Proof. unfold home. apply _. Defined.
#[global] Instance block_ok_dec d : Decision (block_ok d).
Proof. unfold block_ok, bytes_ok. apply _. Defined.

Section spec.
(** [per_op]: the number of blocks a call may log. *)
Context (dsz : Z) (geo : log) (per_op : nat).

Definition astep (a : atx) (l : label) : option atx :=
  match l with
  | LBegin =>
      if decide (length (logged a) + (length (credits a) + 1) * 10 <= 30)%nat
      then Some (Atx (durable a) (view a) (logged a) (credits a ++ [0%nat])) else None
  | LWrite k b d =>
      c ← credits a !! k;
      if decide ((c < per_op)%nat /\ home dsz geo b /\ block_ok d)
      then Some (Atx (durable a) (<[b := d]> (view a)) (log_add b (logged a))
             (<[k := S c]> (credits a)))
      else None
  | LEnd k =>
      _ ← credits a !! k;
      match delete k (credits a) with
      | [] => Some (Atx (view a) (view a) [] [])
      | cr => Some (Atx (durable a) (view a) (logged a) cr)
      end
  end.

Fixpoint arun (a : atx) (ls : list label) : option atx :=
  match ls with
  | [] => Some a
  | l :: ls => a' ← astep a l; arun a' ls
  end.

(** The blocks that the outstanding calls may still log. *)
Fixpoint reserved (cr : list nat) : nat :=
  match cr with
  | [] => 0
  | c :: cr => (per_op - c) + reserved cr
  end.

Definition arep (a : atx) (s : log_st) : Prop :=
  exists ie s0 g dk tr v,
    LS ie s0 dsz g dk tr v (list_to_set (logged a)) ∅ s /\
    log_ok dsz g (logged a) /\ start g = start geo /\ size g = size geo /\
    committing g = 0 /\ outstanding g = Z.of_nat (length (credits a)) /\
    (length (credits a) <= 3)%nat /\ reads (dk (start g)) [] /\
    (forall b, home dsz geo b -> dk b = durable a b /\ v b = view a b) /\
    (length (logged a) + reserved (credits a) < LOGSIZE)%nat.

Lemma reserved_app cr c : reserved (cr ++ [c]) = (reserved cr + (per_op - c))%nat.
Proof. induction cr as [|x cr IH]; simpl in *; lia. Qed.

Lemma reserved_at cr k c :
  cr !! k = Some c -> (reserved cr = reserved (delete k cr) + (per_op - c))%nat.
Proof.
  revert k. induction cr as [|x cr IH]; intros k Hk; [done|].
  destruct k as [|k]; simpl in *; [injection Hk as ->; lia|].
  rewrite (IH k Hk). lia.
Qed.
Lemma reserved_insert cr k c x :
  cr !! k = Some c -> (reserved (<[k := x]> cr) + (per_op - c) = reserved cr + (per_op - x))%nat.
Proof.
  revert k. induction cr as [|y cr IH]; intros k Hk; [done|].
  destruct k as [|k]; simpl in *; [injection Hk as ->; lia|].
  pose proof (IH k Hk). lia.
Qed.
Lemma reserved_le cr : (reserved cr <= per_op * length cr)%nat.
Proof. induction cr as [|c cr IH]; simpl in *; lia. Qed.

Hypothesis Hper : (per_op < 10)%nat.
Hypothesis Hsize : Z.of_nat LOGSIZE <= size geo.

Lemma sim_begin a a' s :
  arep a s -> astep a LBegin = Some a' -> wp begin_op (fun _ s' => arep a' s') s.
Proof.
  intros (ie & s0 & g & dk & tr & v & HLS & Hok & Hst & Hsz & Hc & Ho & Hb & Hr & Hv & Hres) Ha.
  simpl in Ha. case_decide as Hadm; [|done]. injection Ha as <-.
  pose proof (lo_n _ _ _ Hok) as Hn. assert (LOGSIZE = 30%nat) as HL by done.
  wp_call wp_begin_op; [done|done|lia|lia|unfold MAXOPBLOCKS; lia|]. intros [] s' HLS'.
  exists ie, s0, (set_outstanding (outstanding g + 1) g), dk, tr, v.
  split; [done|]. split; [by destruct Hok; split|].
  do 3 (split; [done|]). do 2 (split; [simpl; rewrite length_app; simpl; lia|]).
  do 2 (split; [done|]).
  simpl. pose proof (reserved_le (credits a)). rewrite reserved_app. nia.
Qed.

Lemma log_entry_fields b g : start (log_entry b g) = start g /\ size (log_entry b g) = size g /\
  committing (log_entry b g) = committing g /\ outstanding (log_entry b g) = outstanding g.
Proof. unfold log_entry. cbn. case_decide; done. Qed.

Lemma log_add_length b bs : (length (log_add b bs) <= S (length bs))%nat.
Proof. unfold log_add. case_decide; rewrite ?length_app; simpl; lia. Qed.

Lemma sim_write k b d a a' s :
  arep a s -> astep a (LWrite k b d) = Some a' -> wp (write_block b d) (fun _ s' => arep a' s') s.
Proof.
  intros (ie & s0 & g & dk & tr & v & HLS & Hok & Hst & Hsz & Hc & Ho & Hb & Hr & Hv & Hres) Ha.
  simpl in Ha. apply bind_Some in Ha as (c & Hk & Ha). case_decide as Hd; [|done].
  destruct Hd as (Hlt & Hhome & Hd). injection Ha as <-.
  pose proof (lo_n _ _ _ Hok) as Hn. assert (LOGSIZE = 30%nat) as HL by done.
  assert (NBUF = 30%nat) as HN by done.
  pose proof (reserved_at _ _ _ Hk). pose proof (reserved_insert _ _ _ (S c) Hk).
  apply lookup_lt_Some in Hk as Hkl.
  assert (Hhome' : home dsz g b) by (unfold home in *; by rewrite Hst, Hsz).
  unfold write_block.
  wp_call LS_bread; [done|apply Hhome|by intros ?; rewrite lookup_empty|
    right; rewrite size_list_to_set, map_size_empty by apply Hok; lia|]. intros i s1 [_ HLS1].
  wp_call LS_set_data; [done|apply lookup_insert_eq|done|]. intros [] s2 HLS2.
  wp_call wp_log_write; [done|done|done|apply lookup_insert_eq|done|lia|lia|lia|]. intros [] s3 HLS3.
  wp_call LS_brelse; [done|apply lookup_insert_eq|left; rewrite log_add_set; set_solver|].
  rewrite delete_insert_id by apply lookup_empty. intros [] s4 HLS4.
  destruct (log_entry_fields b g) as (E1 & E2 & E3 & E4).
  exists ie, s0, (log_entry b g), dk, tr, (<[b := d]> v). rewrite E1, E2, E3, E4. cbn [logged credits view durable].
  split; [done|]. split; [apply log_entry_ok; [done|done|lia|lia]|].
  do 3 (split; [done|]). do 2 (split; [by rewrite length_insert|]). split; [done|].
  split; [|pose proof (log_add_length b (logged a)); lia].
  intros x Hx. split; [by apply Hv|]. destruct (decide (x = b)) as [->|].
  - by rewrite !fn_lookup_insert.
  - rewrite !fn_lookup_insert_ne by done. by apply Hv.
Qed.

Lemma sim_end k a a' s :
  arep a s -> astep a (LEnd k) = Some a' -> wp end_op (fun _ s' => arep a' s') s.
Proof.
  intros (ie & s0 & g & dk & tr & v & HLS & Hok & Hst & Hsz & Hc & Ho & Hb & Hr & Hv & Hres) Ha.
  simpl in Ha. apply bind_Some in Ha as (c & Hk & Ha).
  pose proof (lo_n _ _ _ Hok) as Hn. assert (LOGSIZE = 30%nat) as HL by done.
  assert (NBUF = 30%nat) as HN by done. pose proof (reserved_at _ _ _ Hk) as Hrk.
  apply lookup_lt_Some in Hk as Hkl. pose proof (length_delete (credits a) k) as Hdel.
  rewrite lookup_lt_is_Some in Hdel. specialize (Hdel Hkl).
  assert (Hcoh : forall b, home dsz g b -> b ∉ logged a -> v b = dk b).
  { intros b [Hbr _] Hbs. eapply LS_coh; [done|done|by rewrite elem_of_list_to_set|].
    intros ?. by rewrite lookup_empty. }
  assert (Hhome : forall b, home dsz geo b -> home dsz g b).
  { unfold home. by rewrite Hst, Hsz. }
  destruct (delete k (credits a)) as [|c' cr] eqn:Hdk; injection Ha as <-; simpl in *.
  - wp_call wp_end_op_last; [done|done|lia|done|lia|].
    intros [] s' (g' & HLS' & Hst' & Hsz' & Hok' & Hc' & Ho').
    set (ws := if decide _ then _ else _) in *.
    assert (Hfin : finished dsz g v (apply_writes ws dk)).
    { subst ws. case_decide as Hnil; [|eapply commit_done; try done; eapply LS_disk_ok; [done|destruct Hok; lia]].
      split; [done|]. intros b Hbh. simpl. rewrite Hcoh; [done|done|]. rewrite Hnil. apply not_elem_of_nil. }
    eexists ie, s0, g', _, _, _. split; [exact HLS'|]. rewrite Hst', Hsz'.
    do 5 (split; [done|]). split; [simpl; lia|]. split; [apply Hfin|].
    split; [|simpl; lia]. intros b Hbh. cbn [durable view]. rewrite (proj2 Hfin b) by auto.
    split; [by apply Hv|]. rewrite (LS_coh _ _ _ _ _ _ _ _ _ HLS' b), (proj2 Hfin b) by
      first [by auto | apply Hbh | set_solver | intros ?; by rewrite lookup_empty].
    by apply Hv.
  - wp_call wp_end_op_more; [done|done|lia|]. intros [] s' HLS'.
    exists ie, s0, (set_outstanding (outstanding g - 1) g), dk, tr, v.
    split; [done|]. split; [by destruct Hok; split|].
    do 3 (split; [done|]). do 2 (split; [simpl; lia|]). do 2 (split; [done|]). simpl. lia.
Qed.
End spec.

Lemma sim_run dsz geo per_op ls : forall a a' s,
  (per_op < 10)%nat -> Z.of_nat LOGSIZE <= size geo ->
  arep dsz geo per_op a s -> arun dsz geo per_op a ls = Some a' ->
  wp (run ls) (fun _ s' => arep dsz geo per_op a' s') s.
Proof.
  induction ls as [|l ls IH]; intros a a' s Hp Hs Hrep Hrun.
  { injection Hrun as <-. by apply wp_ret. }
  simpl in Hrun. apply bind_Some in Hrun as (a1 & Hstep & Hrun).
  cbn [run]. eapply (wp_seq _ _ _ (fun _ s' => arep dsz geo per_op a1 s')); [|by intros [] s1 H1; apply (IH a1)].
  destruct l as [|k b d|k]; [by eapply sim_begin|by eapply sim_write|by eapply sim_end].
Qed.

(** Between operations the disk recovers to the durable contents. *)
Lemma arep_crash dsz geo per_op a s crash :
  arep dsz geo per_op a s -> booted dsz geo (disk (lbio s)) crash ->
  wp recover_from_log (fun _ r => finished dsz geo (durable a) (disk (lbio r))) crash.
Proof.
  intros (ie & s0 & g & dk & tr & v & HLS & Hok & Hst & Hsz & _ & _ & _ & Hr & Hv & _) Hboot.
  rewrite (ls_disk _ _ _ _ _ _ _ _ _ HLS) in Hboot.
  assert (Hboot' : booted dsz g dk crash) by (unfold booted in *; by rewrite Hst, Hsz).
  eapply wp_mono; [eapply (recover_before dsz g (logged a) dk); [by apply log_ok_geo|by split|done]|].
  intros [] r Hfin. eapply finished_ext; [..|exact Hfin]; [done|done|].
  intros b Hb. by apply Hv.
Qed.


(** The log that mkfs lays out: 30 blocks, the first of them the header. *)
Definition mkfs_log : log := Log 2 30 0 0 1 0 (replicate 30 0).
Definition idle : atx := Atx blank blank [] [].

Lemma wp_idle per_op :
  wp (lift lbio_lens binit) (fun _ s => arep 1000 mkfs_log per_op idle s) (boot_log blank 1000 mkfs_log).
Proof.
  eapply wp_mono; [apply wp_boot; [lia|apply blank_ok]|]. intros [] s HLS.
  exists true, boot_sched, mkfs_log, blank, [], blank. split; [done|].
  split; [split; try done; try (simpl; unfold LOGSIZE; lia); [constructor|]; by intros b Hb%elem_of_nil|].
  do 4 (split; [done|]). split; [simpl; lia|]. split; [apply demo_reads|]. split; [done|].
  simpl. unfold LOGSIZE. lia.
Qed.


(** C22 The reservation of [begin_op] is one block too generous for the log
    that mkfs lays out (30 blocks including the header): three calls that
    each stay within MAXOPBLOCKS are admitted together, and the last block
    they log stops the machine. *)
Theorem admission_panics :
  let op k := (fun i => LWrite k (40 + 10 * Z.of_nat k + Z.of_nat i) seven) <$> seq 0 10 in
  let ls := [LBegin; LBegin; LBegin] ++ op 0%nat ++ op 1%nat ++ op 2%nat in
  is_Some (arun 1000 mkfs_log 10 idle ls) /\
  exists s', (lift lbio_lens binit ;; run ls) (boot_log blank 1000 mkfs_log) =
    Panic "too big a transaction" s'.
Proof.
  cbv zeta. split; [apply (bool_decide_unpack (is_Some _)); vm_compute; constructor|].
  match goal with |- exists s', ?r = _ => assert (match r with Panic m _ => m = "too big a transaction"%string | _ => False end)
    by (vm_compute; reflexivity) end.
  destruct (_ ≫= _) as [| m s'|]; [done| |done]. exists s'. by subst.
Qed.
