(* ===== verification/Txn.v ===== *)
(** * What a transaction offers to the file system

    fs.c works on blocks through [bread], [log_write] and [brelse].  The class
    [TxnStore] states what it relies on: [T L v H s] says that inside a
    transaction the disk reads as [v], the blocks [L] are logged and the
    buffers [H] are held.  [txn] is the log's implementation of the class. *)

From S2P Require Import Prelude Params Spinlock Sched Ring Bio Log Crash Logop.

Class TxnStore (dsz : Z) (cap : nat) (writable : Z -> Prop)
    (T : gset Z -> (Z -> list Z) -> gmap nat Z -> log_st -> Prop)
    (TL : lockid -> gset Z -> (Z -> list Z) -> gmap nat Z -> log_st -> Prop) := {
  txn_bread L v H s n :
    T L v H s -> 0 <= n < dsz -> (forall i, H !! i <> Some n) ->
    n ∈ L \/ (base.size L + base.size H < NBUF)%nat ->
    wp (bread 1 n) (fun i s' => H !! i = None /\ T L v (<[i := n]> H) s') s;
  txn_data L v H s i n :
    T L v H s -> H !! i = Some n -> wp (buf_data i) (fun d s' => d = v n /\ s' = s) s;
  (** Modify a held buffer and log it. *)
  txn_update L v H s i n d :
    T L v H s -> H !! i = Some n -> block_ok d -> writable n -> (base.size L < cap)%nat ->
    wp (set_data i d ;; log_write i) (fun _ s' => T ({[n]} ∪ L) (<[n := d]> v) H s') s;
  txn_brelse L v H s i n :
    T L v H s -> H !! i = Some n -> wp (brelse i) (fun _ s' => T L v (delete i H) s') s;
  txn_view L v H s n : T L v H s -> 0 <= n < dsz -> block_ok (v n);
  txn_acquire l L v H s :
    T L v H s -> wp (acquire l) (fun _ s' => TL l L v H s') s;
  txn_wakeup l c L v H s :
    TL l L v H s -> l <> Lptable -> wp (wakeup c) (fun _ s' => TL l L v H s') s;
  txn_release l L v H s :
    TL l L v H s -> wp (release l) (fun _ s' => T L v H s') s
}.

(** ** The log's implementation *)

(** The current directory of the running process. *)
Definition cur_dir (s : sched_st) : option nat :=
  match curproc s with
  | None => None
  | Some i => match procs s !! i with Some p => cwd p | None => None end
  end.

Lemma cur_dir_wakes s s' : wakes s s' -> cur_dir s' = cur_dir s.
Proof.
  intros Hw. unfold cur_dir. rewrite (wk_cur _ _ Hw). destruct (curproc s) as [i|]; [|done].
  pose proof (wk_procs _ _ Hw) as Hp. destruct (procs s !! i) as [p|] eqn:E.
  - destruct (Forall2_lookup_l _ _ _ _ _ Hp E) as (p' & -> & [->|[_ ->]]); done.
  - apply lookup_ge_None in E. by rewrite (proj2 (lookup_ge_None (procs s') i)) by (by rewrite <- (Forall2_length _ _ _ Hp)).
Qed.

(** Transactions of a process whose current directory is [c]. *)
Class AtDir (c : option nat) (T : gset Z -> (Z -> list Z) -> gmap nat Z -> log_st -> Prop) :=
  at_dir : forall L v H s, T L v H s -> cur_dir (bsched (lbio s)) = c.

(** The disk and the writes that it had seen are [dk] and [tr] when the
    transaction began. *)
Section txn.
Context (dsz : Z) (geo : log) (c : option nat) (dk : Z -> list Z) (tr : list (Z * list Z)).

Definition txn_q (Q : bool -> sched_st -> sched_st -> Prop)
    (L : gset Z) (v : Z -> list Z) (H : gmap nat Z) (s : log_st) : Prop :=
  exists ie s0 g bs,
    LSq (Q ie s0) dsz g dk tr v (list_to_set bs) H s /\ L = list_to_set bs /\ cur_dir s0 = c /\
    log_ok dsz g bs /\ start g = start geo /\ size g = size geo /\
    committing g = 0 /\ outstanding g = 1 /\ reads (dk (start g)) [] /\
    (forall i n, H !! i = Some n -> n ∈ bs \/ v n = dk n).

Definition txn := txn_q (fun ie s0 => quiet ie s0).
Definition txn_locked (l : lockid) :=
  txn_q (fun ie s0 x => locked_by ie [l] x /\ wakes s0 x).

Hypothesis Hcap : size geo - 1 <= Z.of_nat LOGSIZE.

#[global] Instance txn_store :
  TxnStore dsz (Z.to_nat (size geo - 1)) (home dsz geo) txn txn_locked.
Proof.
  split.
  - intros L v H s n (ie & s0 & g & bs & HLS & -> & Hcd & Hok & Hst & Hsz & Hc & Ho & Hr & HH) Hn Hh Hroom.
    wp_call LS_bread; [done|done|done|done|]. intros i s' [Hi HLS']. split; [done|].
    exists ie, s0, g, bs. do 9 (split; [done|]).
    intros j m [[<- <-]|[_ Hj]]%lookup_insert_Some; [|by eapply HH].
    destruct (decide (n ∈ bs)) as [|Hbs]; [by left|right].
    eapply LS_coh; [exact HLS|done|by rewrite elem_of_list_to_set|done].
  - intros L v H s i n (ie & s0 & g & bs & HLS & _) Hi. by eapply LS_data.
  - intros L v H s i n d (ie & s0 & g & bs & HLS & -> & Hcd & Hok & Hst & Hsz & Hc & Ho & Hr & HH) Hi Hdok Hw Hroom.
    rewrite size_list_to_set in Hroom by apply Hok. pose proof (lo_n _ _ _ Hok) as Hn.
    assert (Hw' : home dsz g n) by (unfold home in *; by rewrite Hst, Hsz).
    wp_call LS_set_data; [done|done|done|]. intros [] s1 HLS1.
    wp_call wp_log_write; [done|done|done|done|done|lia|lia|lia|]. intros [] s2 HLS2.
    destruct (log_entry_fields n g) as (E1 & E2 & E3 & E4).
    exists ie, s0, (log_entry n g), (log_add n bs). rewrite E1, E2, E3, E4.
    split; [done|]. split; [by rewrite log_add_set|]. split; [done|]. split; [apply log_entry_ok; [done|done|lia|lia]|].
    do 5 (split; [done|]). intros j m Hj.
    rewrite <- (elem_of_list_to_set (C := gset Z)), log_add_set.
    destruct (decide (m = n)) as [->|]; [left; set_solver|]. rewrite fn_lookup_insert_ne by done.
    destruct (HH j m Hj); [left; set_solver|by right].
  - intros L v H s i n (ie & s0 & g & bs & HLS & -> & Hcd & Hok & Hst & Hsz & Hc & Ho & Hr & HH) Hi.
    wp_call LS_brelse; [done|done|by destruct (HH i n Hi); [left; rewrite elem_of_list_to_set|right]|].
    intros [] s1 HLS1. exists ie, s0, g, bs. do 9 (split; [done|]).
    intros j m [_ Hj]%lookup_delete_Some. by eapply HH.
  - intros L v H s n (ie & s0 & g & bs & HLS & _) Hn. by eapply LS_view.
  - intros l L v H s (ie & s0 & g & bs & [Hlg Hq Hrep Hdk Hs Htr] & Hrest).
    wp_call wp_bio; [apply wp_sched; by eapply wp_acquire_quiet|].
    intros [] s' [(sc & E & Hsc) Hl]. eexists ie, s0, g, bs. split; [|done].
    split; rewrite ?E; simpl; try congruence; done.
  - intros l ch L v H s (ie & s0 & g & bs & [Hlg [HL Hw] Hrep Hdk Hs Htr] & Hrest) Hne.
    wp_call wp_bio; [apply wp_sched; by eapply wp_wakeup_quiet|].
    intros [] s' [(sc & E & Hsc) Hl]. eexists ie, s0, g, bs. split; [|done].
    split; rewrite ?E; simpl; try congruence; done.
  - intros l L v H s (ie & s0 & g & bs & [Hlg [HL Hw] Hrep Hdk Hs Htr] & Hrest).
    wp_call wp_bio; [apply wp_sched; by eapply wp_release_quiet|].
    intros [] s' [(sc & E & Hsc) Hl]. eexists ie, s0, g, bs. split; [|done].
    split; rewrite ?E; simpl; try congruence; done.
Qed.

#[global] Instance txn_at_dir : AtDir c txn.
Proof.
  intros L v H s (ie & s0 & g & bs & HLS & _ & <- & _). apply cur_dir_wakes, (ls_sched _ _ _ _ _ _ _ _ _ HLS).
Qed.
End txn.

(** ** A file system call as one transaction *)

Section op.
Context (dsz : Z) (geo : log) (c : option nat).

(** No call is outstanding and the disk reads as [v]. *)
Definition resting (v : Z -> list Z) (s : log_st) : Prop :=
  exists ie s0 g dk tr,
    LS ie s0 dsz g dk tr v ∅ ∅ s /\ cur_dir s0 = c /\ log_ok dsz g [] /\ start g = start geo /\
    size g = size geo /\ committing g = 0 /\ outstanding g = 0 /\ reads (dk (start g)) [].

Lemma resting_disk v s b : resting v s -> home dsz geo b -> disk (lbio s) b = v b.
Proof.
  intros (ie & s0 & g & dk & tr & HLS & _) [Hb _]. rewrite (ls_disk _ _ _ _ _ _ _ _ _ HLS).
  symmetry. eapply LS_coh; [done|done|set_solver|]. intros i. by rewrite lookup_empty.
Qed.

Lemma wp_begin_txn v s : resting v s -> wp begin_op (fun _ s' => txn dsz geo c (disk (lbio s)) (wtrace (lbio s)) ∅ v ∅ s') s.
Proof.
  intros (ie & s0 & g & dk & tr & HLS & Hcd & Hok & Hst & Hsz & Hc & Ho & Hr).
  rewrite (ls_disk _ _ _ _ _ _ _ _ _ HLS), (ls_trace _ _ _ _ _ _ _ _ _ HLS). pose proof (lo_n _ _ _ Hok) as Hn. simpl in Hn.
  wp_call wp_begin_op; [done|done|lia|lia|rewrite Hn, Ho; vm_compute; discriminate|]. intros [] s1 HLS1.
  rewrite Ho in HLS1. simpl in HLS1.
  exists ie, s0, (set_outstanding 1 g), []. split; [done|]. split; [done|]. split; [done|].
  split; [by destruct Hok; split|]. do 5 (split; [done|]). by intros ?? ?%lookup_empty_Some.
Qed.

(** A crash after any of the disk writes since [dk] recovers to the contents
    [v0] or to the contents [v]. *)
Definition atomic (dk : Z -> list Z) (tr : list (Z * list Z)) (v0 v : Z -> list Z) (s : log_st) : Prop :=
  exists ws, wtrace (lbio s) = tr ++ ws /\
  forall p crash, p `prefix_of` ws -> booted dsz geo (apply_writes p dk) crash ->
    wp recover_from_log (fun _ r => finished dsz geo v0 (disk (lbio r)) \/ finished dsz geo v (disk (lbio r))) crash.

(** The end of the last outstanding call installs the view on the disk, at once
    as far as a crash can tell. *)
Lemma wp_end_txn dk tr L v s : txn dsz geo c dk tr L v ∅ s -> (base.size L < NBUF)%nat ->
  wp end_op (fun _ s' => (exists v', resting v' s' /\ forall b, home dsz geo b -> v' b = v b) /\ atomic dk tr dk v s') s.
Proof.
  intros (ie & s0 & g & bs & HLS & -> & Hcd & Hok & Hst & Hsz & Hc & Ho & Hr & HH) Hroom.
  rewrite size_list_to_set in Hroom by apply Hok.
  wp_call wp_end_op_last; [done|done|done|done|done|].
  intros [] s3 (g3 & HLS3 & Hst3 & Hsz3 & Hok3 & Hc3 & Ho3).
  assert (Hcoh : forall b, home dsz g b -> b ∉ bs -> v b = dk b).
  { intros b [Hbr _] Hbs. eapply LS_coh; [done|done|by rewrite elem_of_list_to_set|].
    intros ?. by rewrite lookup_empty. }
  assert (Hblk : block_ok (dk (start g))) by (eapply LS_disk_ok; [done|destruct Hok; lia]).
  set (ws := if decide _ then _ else _) in *.
  assert (Hfin : finished dsz g v (apply_writes ws dk)).
  { subst ws. case_decide as Hnil; [|by eapply commit_done].
    split; [done|]. intros b Hbh. simpl. rewrite Hcoh; [done|done|]. rewrite Hnil. apply not_elem_of_nil. }
  split.
  - eexists. split.
    + exists ie, s0, g3. eexists _, _. split; [exact HLS3|]. rewrite Hst3, Hsz3.
      do 6 (split; [done|]). apply Hfin.
    + intros b Hb. rewrite (LS_coh _ _ _ _ _ _ _ _ _ HLS3 b) by
        first [apply Hb | set_solver | intros ?; by rewrite lookup_empty].
      apply Hfin. unfold home in *. by rewrite Hst, Hsz.
  - exists ws. split; [apply (ls_trace _ _ _ _ _ _ _ _ _ HLS3)|]. intros p crash Hp Hboot.
    assert (Hboot' : booted dsz g (apply_writes p dk) crash) by (unfold booted in *; by rewrite Hst, Hsz).
    assert (Hext : forall u d, finished dsz g u d -> finished dsz geo u d) by (unfold finished, home; by rewrite Hst, Hsz).
    subst ws. case_decide as Hnil.
    + apply prefix_nil_inv in Hp as ->. eapply wp_mono; [eapply (recover_before dsz g bs dk); [by apply log_ok_geo|by split|done]|].
      intros [] r' Hr'. left. by apply Hext.
    + eapply wp_mono; [apply (commit_recovers dsz g bs dk v p crash); done|]. intros [] r' Hr'. case_decide; [left|right]; by apply Hext.
Qed.

Lemma atomic_ext dk tr v0 v v' s : (forall b, home dsz geo b -> v' b = v b) -> atomic dk tr v0 v s -> atomic dk tr v0 v' s.
Proof.
  intros E (ws & Ew & H). exists ws. split; [done|]. intros p crash Hp Hb. eapply wp_mono; [by apply (H p)|].
  intros [] r [?|[? Hv]]; [by left|right]. split; [done|]. intros b Hh. by rewrite Hv, E.
Qed.

(** Run [m] between [begin_op] and [end_op]: its effect on the disk is all of
    its effect on the view. *)
Lemma wp_op {A} (m : M log_st A) (R : A -> (Z -> list Z) -> Prop) v s :
  resting v s -> let T := txn dsz geo c (disk (lbio s)) (wtrace (lbio s)) in
  (forall s', T ∅ v ∅ s' -> wp m (fun a s'' => exists L v', T L v' ∅ s'' /\ R a v' /\ (base.size L < NBUF)%nat) s') ->
  wp (begin_op ;; a ← m; end_op ;; mret a)
    (fun a s' => exists v' v'', R a v' /\ resting v'' s' /\ forall b, home dsz geo b -> v'' b = v' b) s.
Proof.
  intros Hrest T Hm. wp_call wp_begin_txn; [done|]. intros [] s1 H1. apply wp_bind. eapply wp_mono; [by apply Hm|].
  intros a s2 (L & v' & H2 & HR & Hroom). wp_call wp_end_txn; [done|done|].
  intros [] s3 [(v'' & H3 & E) _]. apply wp_ret. by exists v', v''.
Qed.
End op.
