(* ===== verification/CString.v ===== *)
(** * Memory and string routines (string.c, ulib.c)

    The kernel's and the user library's block and string functions over byte
    memory.  Loops that the code bounds by a count recurse on it; loops that
    run to a NUL take fuel and return [None] when it runs out.

    [memmove] is proved right for every overlap; the user library's version
    only where the destination does not lie inside the source, with a
    counterexample otherwise. *)

From S2P Require Import Prelude Params.

(** ** string.c *)

(** [rep stosb] and [rep stosl]. *)
Fixpoint stosb (m : mem) (a data : Z) (cnt : nat) : mem :=
  match cnt with
  | O => m
  | S cnt => stosb (upd m a (u8 data)) (a + 1) data cnt
  end.
Fixpoint stosl (m : mem) (a data : Z) (cnt : nat) : mem :=
  match cnt with
  | O => m
  | S cnt => stosl (store32 m a data) (a + 4) data cnt
  end.

Definition memset (m : mem) (dst c n : Z) : mem :=
  if (Z.rem (s32 dst) 4 =? 0) && (n mod 4 =? 0) then
    let c := Z.land c 0xFF in
    stosl m dst (Z.lor (Z.lor (Z.lor (Z.shiftl c 24) (Z.shiftl c 16)) (Z.shiftl c 8)) c)
      (Z.to_nat (n / 4))
  else stosb m dst c (Z.to_nat n).

Fixpoint memcmp (m : mem) (s1 s2 : Z) (n : nat) : Z :=
  match n with
  | O => 0
  | S n => if negb (m s1 =? m s2) then m s1 - m s2 else memcmp m (s1 + 1) (s2 + 1) n
  end.

(** [while(n-- > 0) *d++ = *s++] and [while(n-- > 0) *--d = *--s]. *)
Fixpoint copy_up (m : mem) (d s : Z) (n : nat) : mem :=
  match n with
  | O => m
  | S n => copy_up (upd m d (m s)) (d + 1) (s + 1) n
  end.
Fixpoint copy_down (m : mem) (d s : Z) (n : nat) : mem :=
  match n with
  | O => m
  | S n => copy_down (upd m (d - 1) (m (s - 1))) (d - 1) (s - 1) n
  end.

Definition memmove (m : mem) (dst src : Z) (n : nat) : mem :=
  if (src <? dst) && (dst <? src + Z.of_nat n)
  then copy_down m (dst + Z.of_nat n) (src + Z.of_nat n) n
  else copy_up m dst src n.

Definition memcpy := memmove.

Fixpoint strncmp (m : mem) (p q : Z) (n : nat) : Z :=
  match n with
  | O => 0
  | S n' => if negb (m p =? 0) && (m p =? m q) then strncmp m (p + 1) (q + 1) n'
            else m p - m q
  end.

Fixpoint strncpy (m : mem) (s t : Z) (n : nat) : mem :=
  match n with
  | O => m
  | S n => if m t =? 0 then stosb m s 0 (S n)
           else strncpy (upd m s (m t)) (s + 1) (t + 1) n
  end.

(** The loop [while(--n > 0 && ( *s++ = *t++ ) != 0);  *s = 0], entered with
    [n] positive. *)
Fixpoint safestrcpy_loop (m : mem) (s t : Z) (n : nat) : mem :=
  match n with
  | O => m
  | S O => upd m s 0
  | S n => if m t =? 0 then upd (upd m s 0) (s + 1) 0
           else safestrcpy_loop (upd m s (m t)) (s + 1) (t + 1) n
  end.
Definition safestrcpy (m : mem) (s t n : Z) : mem :=
  if n <=? 0 then m else safestrcpy_loop m s t (Z.to_nat n).

Fixpoint strlen (fuel : nat) (m : mem) (s : Z) : option Z :=
  match fuel with
  | O => None
  | S fuel => if m s =? 0 then Some 0 else n ← strlen fuel m (s + 1); Some (n + 1)
  end.

(** ** ulib.c *)

Fixpoint strcpy (fuel : nat) (m : mem) (s t : Z) : option mem :=
  match fuel with
  | O => None
  | S fuel => let m' := upd m s (m t) in
              if m t =? 0 then Some m' else strcpy fuel m' (s + 1) (t + 1)
  end.

Fixpoint strcmp (fuel : nat) (m : mem) (p q : Z) : option Z :=
  match fuel with
  | O => None
  | S fuel => if negb (m p =? 0) && (m p =? m q) then strcmp fuel m (p + 1) (q + 1)
              else Some (m p - m q)
  end.

(** Null is [Some 0]. *)
Fixpoint strchr (fuel : nat) (m : mem) (s c : Z) : option Z :=
  match fuel with
  | O => None
  | S fuel => if m s =? 0 then Some 0 else if m s =? c then Some s else strchr fuel m (s + 1) c
  end.

Fixpoint atoi_loop (fuel : nat) (m : mem) (s n : Z) : option Z :=
  match fuel with
  | O => None
  | S fuel => if (48 <=? m s) && (m s <=? 57)
              then atoi_loop fuel m (s + 1) (s32 (n * 10 + m s - 48))
              else Some n
  end.
Definition atoi (fuel : nat) (m : mem) (s : Z) : option Z := atoi_loop fuel m s 0.

Definition u_memset (m : mem) (dst c n : Z) : mem := stosb m dst c (Z.to_nat n).
Definition u_memmove (m : mem) (dst src : Z) (n : nat) : mem := copy_up m dst src n.

(** ** Block operations *)

Lemma stosb_fill cnt : forall m a c, mem_eq (stosb m a c cnt) (fill m a (u8 c) (Z.of_nat cnt)).
Proof.
  induction cnt as [|n IH]; intros m a c x; cbn [stosb]; unfold fill in *.
  - by replace (_ && _) with false by lia.
  - rewrite IH. unfold upd. repeat case_match; lia || done.
Qed.

Lemma word_of_bytes c : is_u8 c ->
  le_bytes 4 (Z.lor (Z.lor (Z.lor (Z.shiftl c 24) (Z.shiftl c 16)) (Z.shiftl c 8)) c) = [c; c; c; c].
Proof.
  intros Hc. assert (Hall : Forall (fun c => le_bytes 4 (Z.lor (Z.lor (Z.lor (Z.shiftl c 24)
    (Z.shiftl c 16)) (Z.shiftl c 8)) c) = [c; c; c; c]) (seqZ 0 256)).
  { apply (bool_decide_unpack _). vm_compute. done. }
  rewrite Forall_forall in Hall. apply Hall, elem_of_seqZ. unfold is_u8 in Hc. lia.
Qed.

Lemma stosl_fill cnt : forall m a c w, le_bytes 4 w = [c; c; c; c] ->
  mem_eq (stosl m a w cnt) (fill m a c (4 * Z.of_nat cnt)).
Proof.
  induction cnt as [|n IH]; intros m a c w Hw x; cbn [stosl].
  - unfold fill. by replace (_ && _) with false by lia.
  - rewrite (IH _ _ c) by done. unfold fill, store32. rewrite Hw. cbn [store]. unfold upd.
    repeat case_match; lia || done.
Qed.

(** [memset] fills exactly the [n] bytes, whichever of its two loops runs. *)
Lemma memset_fill m dst c n : 0 <= n -> mem_eq (memset m dst c n) (fill m dst (u8 c) n).
Proof.
  intros Hn. unfold memset. destruct (_ && _) eqn:E; [|rewrite stosb_fill, Z2Nat.id by done; done].
  change 0xFF with (Z.ones 8). rewrite Z.land_ones by lia. change (c mod 2 ^ 8) with (u8 c).
  rewrite stosl_fill by (apply word_of_bytes; zlia).
  replace (4 * Z.of_nat (Z.to_nat (n / 4))) with n; [done|]. zlia.
Qed.

Lemma copy_up_lookup n : forall m d s x, d <= s \/ s + Z.of_nat n <= d ->
  copy_up m d s n x = if decide (d <= x < d + Z.of_nat n) then m (s + (x - d)) else m x.
Proof.
  induction n as [|n IH]; intros m d s x Hd; cbn [copy_up].
  - by rewrite decide_False by lia.
  - rewrite IH by lia. unfold upd. destruct (decide (x = d)) as [->|].
    + rewrite decide_False, decide_True, Z.eqb_refl by lia. f_equal. lia.
    + repeat case_decide; try lia; [|by rewrite (proj2 (Z.eqb_neq x d))].
      rewrite (proj2 (Z.eqb_neq (s + 1 + (x - (d + 1))) d)) by lia. f_equal. lia.
Qed.

Lemma copy_down_lookup n : forall m d s x, s <= d ->
  copy_down m d s n x = if decide (d - Z.of_nat n <= x < d) then m (s + (x - d)) else m x.
Proof.
  induction n as [|n IH]; intros m d s x Hd; cbn [copy_down].
  - by rewrite decide_False by lia.
  - rewrite IH by lia. unfold upd. destruct (decide (x = d - 1)) as [->|].
    + rewrite decide_False, decide_True, Z.eqb_refl by lia. f_equal. lia.
    + repeat case_decide; try lia; [|by rewrite (proj2 (Z.eqb_neq x (d - 1)))].
      rewrite (proj2 (Z.eqb_neq (s - 1 + (x - (d - 1))) (d - 1))) by lia. f_equal. lia.
Qed.

Lemma memmove_store m dst src n : mem_eq (memmove m dst src n) (store m dst (loadn m src n)).
Proof.
  intros x. rewrite store_lookup, length_loadn. unfold memmove.
  replace (if decide _ then default 0 _ else _)
    with (if decide (dst <= x < dst + Z.of_nat n) then m (src + (x - dst)) else m x).
  - destruct (_ && _) eqn:E; [rewrite copy_down_lookup by lia|rewrite copy_up_lookup by lia].
    + replace (dst + Z.of_nat n - Z.of_nat n) with dst by lia.
      case_decide; [f_equal; lia|done].
    + done.
  - case_decide; [|done]. rewrite lookup_loadn by lia. simpl. f_equal. lia.
Qed.

(** The kernel's [memmove] copies the [n] bytes that the source held
    before the call, for every overlap of source and destination, and
    changes no other byte. *)
Theorem memmove_copies m dst src n x :
  memmove m dst src n x = if decide (dst <= x < dst + Z.of_nat n) then m (src + (x - dst)) else m x.
Proof.
  rewrite (memmove_store m dst src n x), store_lookup, length_loadn. case_decide; [|done].
  rewrite lookup_loadn by lia. simpl. f_equal. lia.
Qed.

(** The user library's [memmove] copies upwards only: it is right where the
    destination starts at or below the source or beyond its end, and
    otherwise it corrupts the copy. *)
Theorem u_memmove_copies m dst src n :
  (dst <= src \/ src + Z.of_nat n <= dst ->
   mem_eq (u_memmove m dst src n) (store m dst (loadn m src n))) /\
  u_memmove (store (fun _ => 0) 100 [1; 2; 3]) 101 100 3 103 = 1.
Proof.
  split; [|reflexivity]. intros Hd x. rewrite store_lookup, length_loadn. unfold u_memmove.
  rewrite copy_up_lookup by lia. case_decide; [|done]. rewrite lookup_loadn by lia. simpl. f_equal. lia.
Qed.

(** ** C strings *)

(** The bytes at [a] before the first NUL, at most [n]. *)
Fixpoint cstr_take (m : mem) (a : Z) (n : nat) : list Z :=
  match n with
  | O => []
  | S n => if m a =? 0 then [] else m a :: cstr_take m (a + 1) n
  end.

(** [l] is the NUL-terminated string at [a]. *)
Definition cstr (m : mem) (a : Z) (l : list Z) : Prop :=
  loadn m a (length l) = l /\ Forall (fun b => b <> 0) l /\ m (a + Z.of_nat (length l)) = 0.

Lemma cstr_nil m a : cstr m a [] <-> m a = 0.
Proof. unfold cstr. simpl. rewrite Z.add_0_r. split; [naive_solver|]. by intros. Qed.
Lemma cstr_cons m a b l : cstr m a (b :: l) <-> m a = b /\ b <> 0 /\ cstr m (a + 1) l.
Proof.
  unfold cstr. simpl. rewrite Forall_cons.
  replace (a + Z.of_nat (S (length l))) with (a + 1 + Z.of_nat (length l)) by lia.
  split; [intros ([= -> E] & [? ?] & ?)|intros (-> & ? & E & ? & ?)]; rewrite ?E; auto.
Qed.

Lemma length_cstr_take m n : forall a, (length (cstr_take m a n) <= n)%nat.
Proof. induction n as [|n IH]; intros a; simpl; [done|]. case_match; simpl; [lia|]. specialize (IH (a + 1)). lia. Qed.

(** [strncmp] returns 0 exactly when the two strings, cut at the first NUL
    or after [n] characters, are equal. *)
Theorem strncmp_zero m n : forall p q,
  strncmp m p q n = 0 <-> cstr_take m p n = cstr_take m q n.
Proof.
  induction n as [|n IH]; intros p q; simpl; [done|].
  destruct (Z.eqb_spec (m p) 0), (Z.eqb_spec (m p) (m q)), (Z.eqb_spec (m q) 0); simpl;
    try (split; [lia|]; intros [=]; congruence || lia); try (split; [done|lia]); try lia; try done.
  rewrite IH. split; [by intros ->; f_equal|]. by intros [=].
Qed.

Lemma strlen_cstr m l : forall a fuel, cstr m a l -> (length l < fuel)%nat ->
  strlen fuel m a = Some (Z.of_nat (length l)).
Proof.
  induction l as [|b l IH]; intros a [|fuel] Hc Hf; simpl in *; try lia.
  - apply cstr_nil in Hc. by rewrite Hc.
  - apply cstr_cons in Hc as (-> & Hb & Hc). rewrite (proj2 (Z.eqb_neq b 0) Hb).
    rewrite (IH _ fuel) by (done || lia). simpl. f_equal. lia.
Qed.

Lemma cstr_take_full m l n : forall a, cstr m a l -> (length l <= n)%nat -> cstr_take m a n = l.
Proof.
  revert n. induction l as [|b l IH]; intros n a Hc Hn.
  - apply cstr_nil in Hc. destruct n; simpl; [done|]. by rewrite Hc.
  - apply cstr_cons in Hc as (Ha & Hb & Hc). destruct n as [|n]; simpl in *; [lia|].
    rewrite Ha, (proj2 (Z.eqb_neq b 0) Hb). f_equal. apply IH; [done|lia].
Qed.

Lemma cstr_take_ext m m' n : forall a,
  (forall x, a <= x < a + Z.of_nat n -> m x = m' x) -> cstr_take m a n = cstr_take m' a n.
Proof.
  induction n as [|n IH]; intros a Hx; simpl; [done|]. rewrite (Hx a) by lia.
  case_match; [done|]. f_equal. apply IH. intros. apply Hx. lia.
Qed.

Lemma strncpy_lookup n : forall m s t x,
  s + Z.of_nat n <= t \/ t + Z.of_nat n <= s ->
  strncpy m s t n x =
    if decide (s <= x < s + Z.of_nat n)
    then default 0 (cstr_take m t n !! Z.to_nat (x - s)) else m x.
Proof.
  induction n as [|n IH]; intros m s t x Hd; cbn [strncpy cstr_take].
  { by rewrite decide_False by lia. }
  destruct (Z.eqb_spec (m t) 0) as [E|E].
  - rewrite stosb_fill. unfold fill. change (u8 0) with 0. repeat case_match; lia || done.
  - rewrite IH by lia. rewrite (cstr_take_ext (upd m s (m t)) m) by (intros; apply upd_ne; lia).
    destruct (decide (x = s)) as [->|].
    + rewrite decide_False, decide_True, upd_eq, Z.sub_diag by lia. done.
    + repeat case_decide; try lia; [|by rewrite upd_ne].
      replace (Z.to_nat (x - s)) with (S (Z.to_nat (x - (s + 1)))) by lia. done.
Qed.

(** [strncpy] into a buffer apart from the source writes exactly [n] bytes:
    the string up to its NUL or [n] characters, padded with NULs. *)
Theorem strncpy_pads m s t n :
  s + Z.of_nat n <= t \/ t + Z.of_nat n <= s ->
  let l := cstr_take m t n in
  mem_eq (strncpy m s t n) (store m s (l ++ replicate (n - length l) 0)).
Proof.
  intros Hd l x. rewrite strncpy_lookup by done. fold l.
  rewrite store_lookup, length_app, length_replicate.
  pose proof (length_cstr_take m n t) as Hl. fold l in Hl.
  replace (length l + (n - length l))%nat with n by lia. case_decide; [|done].
  destruct (decide (Z.to_nat (x - s) < length l)%nat).
  - by rewrite lookup_app_l by lia.
  - rewrite lookup_app_r, lookup_ge_None_2, lookup_replicate_2 by lia. done.
Qed.

Lemma safestrcpy_loop_spec n : forall m s t,
  s + Z.of_nat n < t \/ t + Z.of_nat n <= s ->
  cstr (safestrcpy_loop m s t (S n)) s (cstr_take m t n) /\
  forall x, x < s \/ s + Z.of_nat n < x -> safestrcpy_loop m s t (S n) x = m x.
Proof.
  induction n as [|n IH]; intros m s t Hd.
  { cbn. split; [apply cstr_nil, upd_eq|]. intros x Hx. apply upd_ne. lia. }
  cbn [cstr_take]. change (safestrcpy_loop m s t (S (S n))) with
    (if m t =? 0 then upd (upd m s 0) (s + 1) 0
     else safestrcpy_loop (upd m s (m t)) (s + 1) (t + 1) (S n)).
  destruct (Z.eqb_spec (m t) 0) as [E|E].
  - split; [apply cstr_nil; rewrite upd_ne by lia; apply upd_eq|].
    intros x Hx. by rewrite !upd_ne by lia.
  - destruct (IH (upd m s (m t)) (s + 1) (t + 1)) as [Hc Ho]; [lia|]. split.
    + apply cstr_cons. split; [by rewrite Ho, upd_eq by lia|]. split; [done|].
      rewrite (cstr_take_ext (upd m s (m t)) m) in Hc; [done|]. intros x Hx. apply upd_ne. lia.
    + intros x Hx. rewrite Ho by lia. apply upd_ne. lia.
Qed.

(** [safestrcpy] always leaves a NUL-terminated string in the first [n]
    bytes: the source cut after [n - 1] characters; nothing beyond the [n]
    bytes is touched. *)
Theorem safestrcpy_terminates m s t n :
  0 < n -> s + n <= t \/ t + n <= s ->
  cstr (safestrcpy m s t n) s (cstr_take m t (Z.to_nat (n - 1))) /\
  forall x, x < s \/ s + n <= x -> safestrcpy m s t n x = m x.
Proof.
  intros Hn Hd. unfold safestrcpy. rewrite (proj2 (Z.leb_gt n 0)) by lia.
  replace (Z.to_nat n) with (S (Z.to_nat (n - 1))) by lia.
  destruct (safestrcpy_loop_spec (Z.to_nat (n - 1)) m s t) as [Hc Ho]; [lia|].
  split; [done|]. intros x Hx. apply Ho. lia.
Qed.

(** *** The user library's string functions *)

Lemma strcpy_cstr l : forall m s t fuel,
  cstr m t l -> (length l < fuel)%nat ->
  s + Z.of_nat (length l) < t \/ t + Z.of_nat (length l) < s ->
  exists m', strcpy fuel m s t = Some m' /\ mem_eq m' (store m s (l ++ [0])).
Proof.
  induction l as [|b l IH]; intros m s t [|fuel] Hc Hf Hd; simpl in *; try lia.
  - apply cstr_nil in Hc. rewrite Hc. by eexists.
  - apply cstr_cons in Hc as (Hb & Hb0 & Hc). rewrite Hb, (proj2 (Z.eqb_neq b 0) Hb0).
    apply IH; [|lia|lia]. destruct Hc as (H1 & H2 & H3). split_and!; [|done|by rewrite upd_ne by lia].
    rewrite <- H1 at 2. apply loadn_ext. intros x Hx. apply upd_ne. lia.
Qed.

Lemma strcmp_zero l1 : forall m p q l2 fuel,
  cstr m p l1 -> cstr m q l2 -> (length l1 < fuel)%nat ->
  exists z, strcmp fuel m p q = Some z /\ (z = 0 <-> l1 = l2).
Proof.
  induction l1 as [|b l1 IH]; intros m p q l2 [|fuel] H1 H2 Hf; simpl in *; try lia.
  - apply cstr_nil in H1. rewrite H1. simpl. eexists; split; [done|]. destruct l2 as [|c l2].
    + apply cstr_nil in H2. rewrite H2. done.
    + apply cstr_cons in H2 as (-> & ? & _). split; [lia|done].
  - apply cstr_cons in H1 as (-> & Hb & H1). rewrite (proj2 (Z.eqb_neq b 0) Hb). simpl.
    destruct l2 as [|c l2].
    + apply cstr_nil in H2. rewrite H2, (proj2 (Z.eqb_neq b 0) Hb). eexists; split; [done|]. split; [lia|done].
    + apply cstr_cons in H2 as (-> & Hc & H2). destruct (Z.eqb_spec b c) as [->|Hne].
      * destruct (IH m (p + 1) (q + 1) l2 fuel) as (z & Hz & Hiff); [done|done|lia|].
        exists z. split; [done|]. rewrite Hiff. split; [by intros ->|by intros [=]].
      * eexists; split; [done|]. split; [lia|by intros [=]].
Qed.

(** The value of a decimal numeral. *)
Definition dec_val (l : list Z) : Z := foldl (fun n b => n * 10 + (b - 48)) 0 l.
Definition is_digit (b : Z) : Prop := 48 <= b <= 57.

Lemma dec_val_mono l : forall n, 0 <= n -> Forall is_digit l ->
  n <= foldl (fun n b => n * 10 + (b - 48)) n l.
Proof.
  induction l as [|b l IH]; intros n Hn Hl; simpl; [lia|].
  apply Forall_cons in Hl as [Hb Hl]. unfold is_digit in Hb.
  specialize (IH (n * 10 + (b - 48))). lia || (etrans; [|apply IH]; [lia..|done]).
Qed.

(** [atoi] reads the digits up to the first other character. *)
Lemma atoi_digits l : forall m a fuel n,
  Forall is_digit l -> loadn m a (length l) = l -> ~ is_digit (m (a + Z.of_nat (length l))) ->
  (length l < fuel)%nat -> 0 <= n -> foldl (fun n b => n * 10 + (b - 48)) n l < 2147483648 ->
  atoi_loop fuel m a n = Some (foldl (fun n b => n * 10 + (b - 48)) n l).
Proof.
  induction l as [|b l IH]; intros m a [|fuel] n Hd Hl He Hf Hn Hv; simpl in *; try lia.
  - rewrite Z.add_0_r in He. unfold is_digit in He. by replace (_ && _) with false by lia.
  - apply Forall_cons in Hd as [Hb Hd]. injection Hl as -> Hl. unfold is_digit in Hb.
    replace (_ && _) with true by lia.
    pose proof (dec_val_mono l (n * 10 + (b - 48)) ltac:(lia) Hd).
    rewrite s32_small by (unfold is_s32; lia).
    replace (n * 10 + b - 48) with (n * 10 + (b - 48)) by lia. apply IH; try done; try lia.
    by replace (a + 1 + Z.of_nat (length l)) with (a + Z.of_nat (S (length l))) by lia.
Qed.

Definition hello : mem := store (fun _ => 0) 200 [104; 101; 108; 108; 111].

Lemma strncpy_pads_witness :
  mem_eq (strncpy hello 100 200 8) (store hello 100 ([104; 101; 108; 108; 111] ++ replicate 3 0)).
Proof. apply (strncpy_pads hello 100 200 8). lia. Defined.

Lemma safestrcpy_terminates_witness :
  cstr (safestrcpy hello 100 200 4) 100 [104; 101; 108] /\
  forall x, x < 100 \/ 104 <= x -> safestrcpy hello 100 200 4 x = hello x.
Proof. apply (safestrcpy_terminates hello 100 200 4); lia. Defined.

(** ** Strings as lists

    The file system model works on the bytes of name buffers.  A list stands
    for the bytes from a pointer on; past its end there are NULs. *)

Definition byte0 (l : list Z) : Z := default 0 (head l).

Fixpoint strncmp_l (p q : list Z) (n : nat) : Z :=
  match n with
  | O => 0
  | S n => if negb (byte0 p =? 0) && (byte0 p =? byte0 q) then strncmp_l (tail p) (tail q) n
           else byte0 p - byte0 q
  end.

(** The string in [l], cut at its first NUL or after [n] bytes. *)
Fixpoint str_take (n : nat) (l : list Z) : list Z :=
  match n, l with
  | S n, b :: l => if b =? 0 then [] else b :: str_take n l
  | _, _ => []
  end.

(** The [n] bytes that [strncpy] writes. *)
Definition strncpy_l (l : list Z) (n : nat) : list Z :=
  let t := str_take n l in t ++ replicate (n - length t) 0.

Lemma strncmp_list n : forall m p q, strncmp m p q n = strncmp_l (loadn m p n) (loadn m q n) n.
Proof. induction n as [|n IH]; intros m p q; simpl; [done|]. by rewrite IH. Qed.

Lemma cstr_take_list m n : forall a, cstr_take m a n = str_take n (loadn m a n).
Proof. induction n as [|n IH]; intros a; simpl; [done|]. by rewrite IH. Qed.

Lemma strncmp_l_zero n : forall p q, strncmp_l p q n = 0 <-> str_take n p = str_take n q.
Proof.
  induction n as [|n IH]; intros p q; simpl; [done|].
  destruct p as [|a p], q as [|b q]; simpl; unfold byte0; simpl; try done.
  - destruct (Z.eqb_spec b 0); split; intros; try done; lia.
  - destruct (Z.eqb_spec a 0); simpl; split; intros; try done; try lia; case_match; simpl in *; try done; lia.
  - destruct (Z.eqb_spec a 0), (Z.eqb_spec a b), (Z.eqb_spec b 0); simpl; subst; try lia; try done;
      try (split; [lia|done]); try (split; [lia|by intros [=]]).
    rewrite IH. split; [by intros ->|by intros [=]].
Qed.

Lemma length_str_take n : forall l, (length (str_take n l) <= n)%nat.
Proof. induction n as [|n IH]; intros [|b l]; simpl; try lia. case_match; simpl; [lia|]. specialize (IH l). lia. Qed.

Lemma length_strncpy_l l n : length (strncpy_l l n) = n.
Proof. unfold strncpy_l. rewrite length_app, length_replicate. pose proof (length_str_take n l). lia. Qed.

Lemma str_take_ok n : forall l, bytes_ok l -> bytes_ok (str_take n l).
Proof.
  induction n as [|n IH]; intros l Hl; [constructor|]. destruct Hl as [|b l Hb Hl]; [constructor|].
  cbn [str_take]. destruct (b =? 0); constructor; [done|by apply IH].
Qed.
Lemma strncpy_l_ok l n : bytes_ok l -> bytes_ok (strncpy_l l n).
Proof.
  intros Hl. apply Forall_app. split; [by apply str_take_ok|]. apply Forall_replicate. done.
Qed.

Lemma str_take_nz n : forall l, Forall (fun b => b <> 0) (str_take n l).
Proof.
  induction n as [|n IH]; intros [|b l]; simpl; try constructor.
  destruct (Z.eqb_spec b 0); [constructor|]. by constructor.
Qed.

Lemma str_take_app n : forall l r, Forall (fun b => b <> 0) l -> (length l <= n)%nat ->
  str_take n (l ++ replicate r 0) = l.
Proof.
  induction n as [|n IH]; intros [|b l] r Hl Hn; simpl in *; try lia; try done.
  - destruct r; done.
  - apply Forall_cons in Hl as [Hb Hl]. rewrite (proj2 (Z.eqb_neq b 0) Hb). f_equal. apply IH; [done|lia].
Qed.

(** A name stored with [strncpy] reads back as the same name. *)
Lemma str_take_strncpy l n : str_take n (strncpy_l l n) = str_take n l.
Proof. apply str_take_app; [apply str_take_nz|apply length_str_take]. Qed.
