(* ===== verification/Fs.v ===== *)
(** * The file system (fs.c): blocks, inodes, contents, directories, paths

    The routines of fs.c over the log.  An inode pointer is the index of its
    entry in [icache.inode], so it is never null; where the code returns a
    null pointer the model returns [None].  A pointer into a buffer's data is
    the buffer's index with a byte offset.

    A C string is the list of its bytes before the NUL; a name buffer is the
    list of its [DIRSIZ] bytes. *)

From S2P Require Import Prelude Params CString Spinlock Sched Ring Bio Log.

Definition NINODE : nat := 50.
Definition NDEV : Z := 10.
Definition ROOTDEV : Z := 1.
Definition ROOTINO : Z := 1.
Definition NDIRECT : nat := 12.
Definition NINDIRECT : nat := 128.
Definition MAXFILE : nat := 140.
Definition IPB : Z := 8.
Definition BPB : Z := 4096.
Definition I_BUSY : Z := 0x1.
Definition I_VALID : Z := 0x2.
#[global] Arguments NINODE : simpl never.
#[global] Arguments NDIRECT : simpl never.
#[global] Arguments NINDIRECT : simpl never.
#[global] Arguments DIRSIZ : simpl never.

(** ** Data *)

(** [struct inode] (file.h). *)
Record inode := Inode {
  i_dev : Z; i_inum : Z; i_ref : Z; i_flags : Z;
  i_type : Z; i_major : Z; i_minor : Z; i_nlink : Z; i_size : Z; i_addrs : list Z }.

Definition set_i_ref x i := Inode (i_dev i) (i_inum i) x (i_flags i) (i_type i) (i_major i)
  (i_minor i) (i_nlink i) (i_size i) (i_addrs i).
Definition set_i_flags x i := Inode (i_dev i) (i_inum i) (i_ref i) x (i_type i) (i_major i)
  (i_minor i) (i_nlink i) (i_size i) (i_addrs i).
Definition set_i_type x i := Inode (i_dev i) (i_inum i) (i_ref i) (i_flags i) x (i_major i)
  (i_minor i) (i_nlink i) (i_size i) (i_addrs i).
Definition set_i_nlink x i := Inode (i_dev i) (i_inum i) (i_ref i) (i_flags i) (i_type i) (i_major i)
  (i_minor i) x (i_size i) (i_addrs i).
Definition set_i_size x i := Inode (i_dev i) (i_inum i) (i_ref i) (i_flags i) (i_type i) (i_major i)
  (i_minor i) (i_nlink i) x (i_addrs i).
Definition set_i_addrs x i := Inode (i_dev i) (i_inum i) (i_ref i) (i_flags i) (i_type i) (i_major i)
  (i_minor i) (i_nlink i) (i_size i) x.

(** [struct dinode] (fs.h), 64 bytes on disk. *)
Record dinode := Dinode {
  d_type : Z; d_major : Z; d_minor : Z; d_nlink : Z; d_size : Z; d_addrs : list Z }.

Definition get_half (off : nat) (d : list Z) : Z := s16 (le_val (slice off 2 d)).
Definition put_half (off : nat) (w : Z) (d : list Z) : list Z := splice off (le_bytes 2 w) d.

Definition decode_dinode (off : nat) (d : list Z) : dinode :=
  Dinode (get_half off d) (get_half (off + 2) d) (get_half (off + 4) d) (get_half (off + 6) d)
    (get_word (off + 8) d) ((fun k => get_word (off + 12 + 4 * k) d) <$> seq 0 (S NDIRECT)).

Fixpoint put_words (off : nat) (l : list Z) (d : list Z) : list Z :=
  match l with
  | [] => d
  | w :: l => put_words (off + 4) l (put_word off w d)
  end.
Definition encode_dinode (off : nat) (x : dinode) (d : list Z) : list Z :=
  put_words (off + 12) (d_addrs x)
    (put_word (off + 8) (d_size x)
      (put_half (off + 6) (d_nlink x)
        (put_half (off + 4) (d_minor x)
          (put_half (off + 2) (d_major x)
            (put_half off (d_type x) d))))).

(** [struct stat] (stat.h). *)
Record stat := Stat { st_type : Z; st_dev : Z; st_ino : Z; st_nlink : Z; st_size : Z }.

Record fs_st := FsSt { flog : log_st; icache : nat -> inode; sb : superblock }.

Definition flog_lens : lens fs_st log_st := Lens flog (fun x s => FsSt x (icache s) (sb s)).
Definition set_icache (x : nat -> inode) (s : fs_st) : fs_st := FsSt (flog s) x (sb s).
Definition set_sb (x : superblock) (s : fs_st) : fs_st := FsSt (flog s) (icache s) x.

(** ** The log's routines on this state *)

Definition fs_bread (dev n : Z) : M fs_st nat := lift flog_lens (bread dev n).
Definition fs_brelse (i : nat) : M fs_st unit := lift flog_lens (brelse i).
Definition fs_data (i : nat) : M fs_st (list Z) := lift flog_lens (buf_data i).
(** A change of the buffer's data followed by [log_write(bp)]. *)
Definition fs_write (i : nat) (d : list Z) : M fs_st unit :=
  lift flog_lens (set_data i d ;; log_write i).
Definition fs_acquire (l : lockid) : M fs_st unit := lift flog_lens (acquire l).
Definition fs_release (l : lockid) : M fs_st unit := lift flog_lens (release l).
Definition fs_wakeup (c : chan) : M fs_st unit := lift flog_lens (wakeup c).
Definition fs_sleep (c : chan) (l : lockid) : M fs_st unit := lift flog_lens (sleep c l).
Definition fs_begin_op : M fs_st unit := lift flog_lens begin_op.
Definition fs_end_op : M fs_st unit := lift flog_lens end_op.

Definition ino (ip : nat) : M fs_st inode := gets (fun s => icache s ip).
Definition upd_ino (ip : nat) (f : inode -> inode) : M fs_st unit :=
  modify (fun s => set_icache (alter f ip (icache s)) s).
Definition get_sb : M fs_st superblock := gets sb.

Definition IBLOCK (i : Z) (sb : superblock) : Z := u32 (i / IPB + sb_inodestart sb).
Definition BBLOCK (b : Z) (sb : superblock) : Z := u32 (b / BPB + sb_bmapstart sb).

Definition fs_readsb (dev : Z) : M fs_st unit :=
  x ← lift flog_lens (readsb dev); modify (set_sb x).

(** ** Blocks *)

Definition bzero (dev bno : Z) : M fs_st unit :=
  bp ← fs_bread dev bno;
  fs_write bp (replicate BSIZE 0) ;;
  fs_brelse bp.

(** [bp->data[bi/8] & (1 << (bi % 8))]. *)
Definition bit_used (d : list Z) (bi : Z) : bool :=
  has (default 0 (d !! Z.to_nat (bi / 8))) (Z.shiftl 1 (bi mod 8)).
Definition bit_set (d : list Z) (bi : Z) : list Z :=
  alter (fun x => set_flag x (Z.shiftl 1 (bi mod 8))) (Z.to_nat (bi / 8)) d.
Definition bit_clear (d : list Z) (bi : Z) : list Z :=
  alter (fun x => clear_flag x (Z.shiftl 1 (bi mod 8))) (Z.to_nat (bi / 8)) d.

(** The inner loop from [bi] on: the first free bit of the block. *)
Fixpoint balloc_scan (n : nat) (d : list Z) (size b bi : Z) : option Z :=
  match n with
  | O => None
  | S n => if negb (b + bi <? size) then None
           else if negb (bit_used d bi) then Some bi
           else balloc_scan n d size b (bi + 1)
  end.

(** The outer loop; [n] bounds the bitmap blocks that are left. *)
Fixpoint balloc_loop (n : nat) (dev b : Z) : M fs_st Z :=
  x ← get_sb;
  match n with
  | O => panic "balloc: out of blocks"
  | S n =>
      if negb (b <? sb_size x) then panic "balloc: out of blocks"
      else
        bp ← fs_bread dev (BBLOCK b x);
        d ← fs_data bp;
        match balloc_scan (Z.to_nat BPB) d (sb_size x) b 0 with
        | Some bi =>
            fs_write bp (bit_set d bi) ;;
            fs_brelse bp ;;
            bzero dev (b + bi) ;;
            mret (b + bi)
        | None => fs_brelse bp ;; balloc_loop n dev (b + BPB)
        end
  end.
Definition balloc (dev : Z) : M fs_st Z :=
  x ← get_sb; balloc_loop (Z.to_nat (sb_size x / BPB + 1)) dev 0.

Definition bfree (dev b : Z) : M fs_st unit :=
  fs_readsb dev ;;
  x ← get_sb;
  bp ← fs_bread dev (BBLOCK b x);
  d ← fs_data bp;
  let bi := b mod BPB in
  if negb (bit_used d bi) then panic "freeing free block"
  else
    fs_write bp (bit_clear d bi) ;;
    fs_brelse bp.

(** ** Inodes *)

(** The message that [iinit] prints is not part of the state. *)
Definition iinit (dev : Z) : M fs_st unit :=
  lift flog_lens (lift lbio_lens (initlock Licache "icache")) ;;
  fs_readsb dev.

(** Null is [None]. *)
Definition iget (dev inum : Z) : M fs_st nat :=
  fs_acquire Licache ;;
  ic ← gets icache;
  match list_find (fun i => 0 < i_ref (ic i) /\ i_dev (ic i) = dev /\ i_inum (ic i) = inum)
          (seq 0 NINODE) with
  | Some (_, ip) =>
      upd_ino ip (fun x => set_i_ref (s32 (i_ref x + 1)) x) ;;
      fs_release Licache ;;
      mret ip
  | None =>
      match list_find (fun i => i_ref (ic i) = 0) (seq 0 NINODE) with
      | None => panic "iget: no inodes"
      | Some (_, ip) =>
          upd_ino ip (fun x => Inode dev inum 1 0 (i_type x) (i_major x) (i_minor x)
                                 (i_nlink x) (i_size x) (i_addrs x)) ;;
          fs_release Licache ;;
          mret ip
      end
  end.

(** Byte offset of inode [inum] in its block. *)
Definition dinode_off (inum : Z) : nat := Z.to_nat (64 * (inum mod IPB)).

Fixpoint ialloc_loop (n : nat) (dev type inum : Z) : M fs_st nat :=
  x ← get_sb;
  match n with
  | O => panic "ialloc: no inodes"
  | S n =>
      if negb (inum <? sb_ninodes x) then panic "ialloc: no inodes"
      else
        bp ← fs_bread dev (IBLOCK inum x);
        d ← fs_data bp;
        let off := dinode_off inum in
        if d_type (decode_dinode off d) =? 0 then
          fs_write bp (put_half off type (splice off (replicate 64 0) d)) ;;
          fs_brelse bp ;;
          iget dev inum
        else
          fs_brelse bp ;;
          ialloc_loop n dev type (inum + 1)
  end.
Definition ialloc (dev type : Z) : M fs_st nat :=
  x ← get_sb; ialloc_loop (Z.to_nat (sb_ninodes x)) dev type 1.

Definition to_dinode (i : inode) : dinode :=
  Dinode (i_type i) (i_major i) (i_minor i) (i_nlink i) (i_size i) (i_addrs i).

Definition iupdate (ip : nat) : M fs_st unit :=
  i ← ino ip;
  x ← get_sb;
  bp ← fs_bread (i_dev i) (IBLOCK (i_inum i) x);
  d ← fs_data bp;
  fs_write bp (encode_dinode (dinode_off (i_inum i)) (to_dinode i) d) ;;
  fs_brelse bp.

Definition idup (ip : nat) : M fs_st nat :=
  fs_acquire Licache ;;
  upd_ino ip (fun x => set_i_ref (s32 (i_ref x + 1)) x) ;;
  fs_release Licache ;;
  mret ip.

Definition load_inode (x : dinode) (i : inode) : inode :=
  Inode (i_dev i) (i_inum i) (i_ref i) (i_flags i) (d_type x) (d_major x) (d_minor x)
    (d_nlink x) (d_size x) (d_addrs x).

Definition ilock (ip : nat) : M fs_st unit :=
  i ← ino ip;
  if i_ref i <? 1 then panic "ilock"
  else
    fs_acquire Licache ;;
    i ← ino ip;
    (if has (i_flags i) I_BUSY then fs_sleep (CInode ip) Licache ;; blocked else mret ()) ;;
    upd_ino ip (fun x => set_i_flags (set_flag (i_flags x) I_BUSY) x) ;;
    fs_release Licache ;;
    i ← ino ip;
    when (negb (has (i_flags i) I_VALID))
      (x ← get_sb;
       bp ← fs_bread (i_dev i) (IBLOCK (i_inum i) x);
       d ← fs_data bp;
       upd_ino ip (load_inode (decode_dinode (dinode_off (i_inum i)) d)) ;;
       fs_brelse bp ;;
       upd_ino ip (fun x => set_i_flags (set_flag (i_flags x) I_VALID) x) ;;
       i ← ino ip;
       if i_type i =? 0 then panic "ilock: no type" else mret ()).

Definition iunlock (ip : nat) : M fs_st unit :=
  i ← ino ip;
  if negb (has (i_flags i) I_BUSY) || (i_ref i <? 1) then panic "iunlock"
  else
    fs_acquire Licache ;;
    upd_ino ip (fun x => set_i_flags (clear_flag (i_flags x) I_BUSY) x) ;;
    fs_wakeup (CInode ip) ;;
    fs_release Licache.

(** ** Contents *)

Definition set_addr (k : nat) (a : Z) (i : inode) : inode :=
  set_i_addrs (<[k := a]> (i_addrs i)) i.
Definition addr (k : nat) (i : inode) : Z := default 0 (i_addrs i !! k).

(** The direct block [k], allocated if it is absent. *)
Definition bmap_direct (ip k : nat) : M fs_st Z :=
  i ← ino ip;
  if addr k i =? 0 then
    a ← balloc (i_dev i);
    upd_ino ip (set_addr k a) ;;
    mret a
  else mret (addr k i).

(** Entry [bn] of the indirect block [a], allocated if it is absent. *)
Definition bmap_indirect (ip : nat) (a bn : Z) : M fs_st Z :=
  i ← ino ip;
  bp ← fs_bread (i_dev i) a;
  d ← fs_data bp;
  let a := get_word (Z.to_nat (4 * bn)) d in
  a ← (if a =? 0 then
         a ← balloc (i_dev i);
         d ← fs_data bp;
         fs_write bp (put_word (Z.to_nat (4 * bn)) a d) ;;
         mret a
       else mret a);
  fs_brelse bp ;;
  mret a.

Definition bmap (ip : nat) (bn : Z) : M fs_st Z :=
  if bn <? Z.of_nat NDIRECT then bmap_direct ip (Z.to_nat bn)
  else
    let bn := bn - Z.of_nat NDIRECT in
    if bn <? Z.of_nat NINDIRECT then
      a ← bmap_direct ip NDIRECT;
      bmap_indirect ip a bn
    else panic "bmap: out of range".

Fixpoint itrunc_direct (n k : nat) (ip : nat) : M fs_st unit :=
  match n with
  | O => mret ()
  | S n =>
      i ← ino ip;
      when (negb (addr k i =? 0)) (bfree (i_dev i) (addr k i) ;; upd_ino ip (set_addr k 0)) ;;
      itrunc_direct n (S k) ip
  end.
(** [a[j]] is read from the held buffer [bp] at each turn. *)
Fixpoint itrunc_indirect (n j : nat) (dev : Z) (bp : nat) : M fs_st unit :=
  match n with
  | O => mret ()
  | S n =>
      d ← fs_data bp;
      when (negb (get_word (4 * j) d =? 0)) (bfree dev (get_word (4 * j) d)) ;;
      itrunc_indirect n (S j) dev bp
  end.
Definition itrunc (ip : nat) : M fs_st unit :=
  itrunc_direct NDIRECT 0 ip ;;
  i ← ino ip;
  when (negb (addr NDIRECT i =? 0))
    (bp ← fs_bread (i_dev i) (addr NDIRECT i);
     itrunc_indirect NINDIRECT 0 (i_dev i) bp ;;
     fs_brelse bp ;;
     bfree (i_dev i) (addr NDIRECT i) ;;
     upd_ino ip (set_addr NDIRECT 0)) ;;
  upd_ino ip (set_i_size 0) ;;
  iupdate ip.

Definition iput (ip : nat) : M fs_st unit :=
  fs_acquire Licache ;;
  i ← ino ip;
  (if (i_ref i =? 1) && has (i_flags i) I_VALID && (i_nlink i =? 0) then
     if has (i_flags i) I_BUSY then panic "iput busy"
     else
       upd_ino ip (fun x => set_i_flags (set_flag (i_flags x) I_BUSY) x) ;;
       fs_release Licache ;;
       itrunc ip ;;
       upd_ino ip (set_i_type 0) ;;
       iupdate ip ;;
       fs_acquire Licache ;;
       upd_ino ip (set_i_flags 0) ;;
       fs_wakeup (CInode ip)
   else mret ()) ;;
  upd_ino ip (fun x => set_i_ref (s32 (i_ref x - 1)) x) ;;
  fs_release Licache.

Definition iunlockput (ip : nat) : M fs_st unit := iunlock ip ;; iput ip.

Definition stati (ip : nat) : M fs_st stat :=
  i ← ino ip; mret (Stat (i_type i) (i_dev i) (i_inum i) (i_nlink i) (i_size i)).

Section devsw.
(** [devsw[major].read] and [devsw[major].write]; [None] is a null pointer. *)
Context (dev_read : Z -> option (nat -> Z -> M fs_st (Z * list Z))).
Context (dev_write : Z -> option (nat -> list Z -> M fs_st Z)).

(** The [for] loop of [readi]: the bytes copied to [dst]. *)
Fixpoint readi_loop (fuel ip : nat) (tot n off : Z) : M fs_st (list Z) :=
  match fuel with
  | O => mret []
  | S fuel =>
      if negb (tot <? n) then mret []
      else
        a ← bmap ip (off / Z.of_nat BSIZE);
        i ← ino ip;
        bp ← fs_bread (i_dev i) a;
        let m := Z.min (n - tot) (Z.of_nat BSIZE - off mod Z.of_nat BSIZE) in
        d ← fs_data bp;
        fs_brelse bp ;;
        rest ← readi_loop fuel ip (tot + m) n (off + m);
        mret (slice (Z.to_nat (off mod Z.of_nat BSIZE)) (Z.to_nat m) d ++ rest)
  end.

(** The return value and the bytes stored at [dst]. *)
Definition readi (ip : nat) (off n : Z) : M fs_st (Z * list Z) :=
  i ← ino ip;
  if i_type i =? T_DEV then
    if (i_major i <? 0) || (NDEV <=? i_major i) then mret (-1, [])
    else match dev_read (i_major i) with
         | None => mret (-1, [])
         | Some read => read ip n
         end
  else if (i_size i <? off) || (u32 (off + n) <? off) then mret (-1, [])
  else
    let n := if i_size i <? u32 (off + n) then i_size i - off else n in
    l ← readi_loop (Z.to_nat n) ip 0 n off;
    mret (n, l).

(** The [for] loop of [writei]; returns the final [off]. *)
Fixpoint writei_loop (fuel ip : nat) (src : list Z) (tot n off : Z) : M fs_st Z :=
  match fuel with
  | O => mret off
  | S fuel =>
      if negb (tot <? n) then mret off
      else
        a ← bmap ip (off / Z.of_nat BSIZE);
        i ← ino ip;
        bp ← fs_bread (i_dev i) a;
        let m := Z.min (n - tot) (Z.of_nat BSIZE - off mod Z.of_nat BSIZE) in
        d ← fs_data bp;
        fs_write bp (splice (Z.to_nat (off mod Z.of_nat BSIZE))
                       (slice (Z.to_nat tot) (Z.to_nat m) src) d) ;;
        fs_brelse bp ;;
        writei_loop fuel ip src (tot + m) n (off + m)
  end.

Definition writei (ip : nat) (src : list Z) (off : Z) : M fs_st Z :=
  let n := Z.of_nat (length src) in
  i ← ino ip;
  if i_type i =? T_DEV then
    if (i_major i <? 0) || (NDEV <=? i_major i) then mret (-1)
    else match dev_write (i_major i) with
         | None => mret (-1)
         | Some write => write ip src
         end
  else if (i_size i <? off) || (u32 (off + n) <? off) then mret (-1)
  else if Z.of_nat MAXFILE * Z.of_nat BSIZE <? u32 (off + n) then mret (-1)
  else
    off ← writei_loop (Z.to_nat n) ip src 0 n off;
    i ← ino ip;
    when ((0 <? n) && (i_size i <? off)) (upd_ino ip (set_i_size off) ;; iupdate ip) ;;
    mret n.

(** ** Directories *)

Definition namecmp (s t : list Z) : Z := strncmp_l s t DIRSIZ.

(** [struct dirent]: a 16-bit inode number and a name, 16 bytes. *)
Definition de_inum (de : list Z) : Z := le_val (take 2 de).
Definition de_name (de : list Z) : list Z := drop 2 de.
Definition mk_dirent (inum : Z) (name : list Z) : list Z := le_bytes 2 inum ++ name.
(** The names "." and "..". *)
Definition DOT : list Z := [46].
Definition DOTDOT : list Z := [46; 46].

Fixpoint dirlookup_loop (fuel dp : nat) (name : list Z) (off : Z) : M fs_st (option (nat * Z)) :=
  match fuel with
  | O => mret None
  | S fuel =>
      i ← ino dp;
      if negb (off <? i_size i) then mret None
      else
        r ← readi dp off 16;
        let (n, de) := (r : Z * list Z) in
        if negb (n =? 16) then panic "dirlink read"
        else if de_inum de =? 0 then dirlookup_loop fuel dp name (off + 16)
        else if namecmp name (de_name de) =? 0 then
          i ← ino dp;
          ip ← iget (i_dev i) (de_inum de);
          mret (Some (ip, off))
        else dirlookup_loop fuel dp name (off + 16)
  end.
(** The inode and the offset of its entry. *)
Definition dirlookup (dp : nat) (name : list Z) : M fs_st (option (nat * Z)) :=
  i ← ino dp;
  if negb (i_type i =? T_DIR) then panic "dirlookup not DIR"
  else dirlookup_loop (Z.to_nat (i_size i / 16 + 1)) dp name 0.

(** The offset of the first free entry, or the size. *)
Fixpoint dirlink_loop (fuel dp : nat) (off : Z) : M fs_st Z :=
  match fuel with
  | O => mret off
  | S fuel =>
      i ← ino dp;
      if negb (off <? i_size i) then mret off
      else
        r ← readi dp off 16;
        let (n, de) := (r : Z * list Z) in
        if negb (n =? 16) then panic "dirlink read"
        else if de_inum de =? 0 then mret off
        else dirlink_loop fuel dp (off + 16)
  end.
Definition dirlink (dp : nat) (name : list Z) (inum : Z) : M fs_st Z :=
  r ← dirlookup dp name;
  match (r : option (nat * Z)) with
  | Some (ip, _) => iput ip ;; mret (-1)
  | None =>
      i ← ino dp;
      off ← dirlink_loop (Z.to_nat (i_size i / 16 + 1)) dp 0;
      n ← writei dp (mk_dirent (u16 inum) (strncpy_l name DIRSIZ)) off;
      if negb (n =? 16) then panic "dirlink" else mret 0
  end.

(** ** Paths *)

Fixpoint skip_slashes (path : list Z) : list Z :=
  match path with
  | 47 :: path => skip_slashes path
  | _ => path
  end.
(** The characters up to the next slash, and the rest. *)
Fixpoint span_elem (path : list Z) : list Z * list Z :=
  match path with
  | [] => ([], [])
  | c :: path' => if c =? 47 then ([], path)
                  else let (s, r) := span_elem path' in (c :: s, r)
  end.

(** The rest of the path and the new contents of [name]; null is [None]. *)
Definition skipelem (path name : list Z) : option (list Z * list Z) :=
  match skip_slashes path with
  | [] => None
  | path =>
      let (s, rest) := span_elem path in
      let name := if decide (DIRSIZ <= length s)%nat then splice 0 (take DIRSIZ s) name
                  else splice 0 (s ++ [0]) name in
      Some (skip_slashes rest, name)
  end.

Fixpoint namex_loop (fuel ip : nat) (path : list Z) (parent : bool) (name : list Z)
    : M fs_st (option nat * list Z) :=
  match fuel with
  | O => panic "namex: fuel"
  | S fuel =>
      match skipelem path name with
      | None => if parent then iput ip ;; mret (None, name) else mret (Some ip, name)
      | Some (path, name) =>
          ilock ip ;;
          i ← ino ip;
          if negb (i_type i =? T_DIR) then iunlockput ip ;; mret (None, name)
          else if parent && bool_decide (path = []) then iunlock ip ;; mret (Some ip, name)
          else
            next ← dirlookup ip name;
            match (next : option (nat * Z)) with
            | None => iunlockput ip ;; mret (None, name)
            | Some (next, _) => iunlockput ip ;; namex_loop fuel next path parent name
            end
      end
  end.

(** [proc->cwd]. *)
Definition fs_cwd : M fs_st (option nat) :=
  gets (fun s => let sc := bsched (lbio (flog s)) in
    match curproc sc with
    | None => None
    | Some i => match procs sc !! i with Some p => cwd p | None => None end
    end).

Definition namex (path : list Z) (parent : bool) (name : list Z) : M fs_st (option nat * list Z) :=
  ip ← (if decide (head path = Some 47) then iget ROOTDEV ROOTINO
        else c ← fs_cwd;
             match (c : option nat) with Some ip => idup ip | None => panic "UB: null cwd"%string end);
  namex_loop (S (length path)) ip path parent name.

(** The local array [name] is only written by [namei]. *)
Definition namei (path : list Z) : M fs_st (option nat) :=
  r ← namex path false (replicate DIRSIZ 0); mret (fst (r : option nat * list Z)).
Definition nameiparent (path name : list Z) : M fs_st (option nat * list Z) :=
  namex path true name.
End devsw.
