(* ===== verification/FsBlocks.v ===== *)
(** * Block allocation (fs.c: bzero, balloc, bfree)

    The free bitmap as a set of used blocks, and what [balloc] and [bfree] do
    to it and to the blocks, proved against the transaction interface. *)

From S2P Require Import Prelude Params CString Spinlock Sched Ring Bio Log Crash Logop Txn Fs.

(** ** Bits of a bitmap block *)

(** Setting and clearing bit [k] of a byte, seen at bit [j]. *)
Definition byte_bits_ok (x k j : Z) : bool :=
  let m := Z.shiftl 1 k in let m' := Z.shiftl 1 j in
  (0 <=? set_flag x m) && (set_flag x m <? 256) &&
  (0 <=? clear_flag x m) && (clear_flag x m <? 256) &&
  Bool.eqb (has (set_flag x m) m') ((j =? k) || has x m') &&
  Bool.eqb (has (clear_flag x m) m') (negb (j =? k) && has x m').

Lemma byte_bits x k j : is_u8 x -> 0 <= k < 8 -> 0 <= j < 8 -> byte_bits_ok x k j = true.
Proof.
  intros Hx Hk Hj.
  assert (Hall : forallb (fun x => forallb (fun k => forallb (byte_bits_ok x k) (seqZ 0 8))
    (seqZ 0 8)) (seqZ 0 256) = true) by (vm_compute; reflexivity).
  rewrite forallb_forall in Hall.
  specialize (Hall x). rewrite <- list_elem_of_In, elem_of_seqZ in Hall. unfold is_u8 in Hx.
  specialize (Hall ltac:(lia)). rewrite forallb_forall in Hall.
  specialize (Hall k). rewrite <- list_elem_of_In, elem_of_seqZ in Hall.
  specialize (Hall ltac:(lia)). rewrite forallb_forall in Hall.
  apply Hall. rewrite <- list_elem_of_In, elem_of_seqZ. lia.
Qed.

Section bits.
Context (d : list Z) (bi : Z).
Hypothesis Hd : block_ok d.
Hypothesis Hbi : 0 <= bi < BPB.

Lemma bit_byte : exists x, d !! Z.to_nat (bi / 8) = Some x /\ is_u8 x.
Proof.
  destruct Hd as [Hl Hb]. unfold BPB in Hbi.
  destruct (lookup_lt_is_Some_2 d (Z.to_nat (bi / 8))) as [x Hx]; [rewrite Hl; unfold BSIZE; zlia|].
  exists x. split; [done|]. by eapply Forall_lookup_1 in Hb.
Qed.

Lemma alter_block_ok f :
  (forall x, is_u8 x -> is_u8 (f x)) -> block_ok (alter f (Z.to_nat (bi / 8)) d).
Proof.
  intros Hf. destruct Hd as [Hl Hb]. split; [by rewrite length_alter|].
  apply Forall_alter; [done|]. auto.
Qed.

Lemma bit_set_ok : block_ok (bit_set d bi).
Proof.
  apply alter_block_ok. intros x Hx.
  pose proof (byte_bits x (bi mod 8) 0 Hx ltac:(zlia) ltac:(lia)) as Hb.
  unfold byte_bits_ok in Hb. unfold is_u8. lia.
Qed.
Lemma bit_clear_ok : block_ok (bit_clear d bi).
Proof.
  apply alter_block_ok. intros x Hx.
  pose proof (byte_bits x (bi mod 8) 0 Hx ltac:(zlia) ltac:(lia)) as Hb.
  unfold byte_bits_ok in Hb. unfold is_u8. lia.
Qed.

Lemma bit_used_set bj : 0 <= bj < BPB ->
  bit_used (bit_set d bi) bj = (bj =? bi) || bit_used d bj.
Proof.
  intros Hbj. destruct bit_byte as (x & Hx & Hx8). unfold bit_used, bit_set.
  destruct (decide (bj / 8 = bi / 8)) as [E|E].
  - rewrite E, list_lookup_alter_eq, Hx. simpl.
    pose proof (byte_bits x (bi mod 8) (bj mod 8) Hx8 ltac:(zlia) ltac:(zlia)) as Hb.
    unfold byte_bits_ok in Hb. apply andb_prop in Hb as [Hb _]. apply andb_prop in Hb as [_ Hb].
    apply eqb_prop in Hb. rewrite Hb. f_equal.
    destruct (Z.eqb_spec (bj mod 8) (bi mod 8)), (Z.eqb_spec bj bi); try done; zlia.
  - rewrite list_lookup_alter_ne by zlia. destruct (Z.eqb_spec bj bi); [congruence|done].
Qed.

Lemma bit_used_clear bj : 0 <= bj < BPB ->
  bit_used (bit_clear d bi) bj = negb (bj =? bi) && bit_used d bj.
Proof.
  intros Hbj. destruct bit_byte as (x & Hx & Hx8). unfold bit_used, bit_clear.
  destruct (decide (bj / 8 = bi / 8)) as [E|E].
  - rewrite E, list_lookup_alter_eq, Hx. simpl.
    pose proof (byte_bits x (bi mod 8) (bj mod 8) Hx8 ltac:(zlia) ltac:(zlia)) as Hb.
    unfold byte_bits_ok in Hb. apply andb_prop in Hb as [_ Hb].
    apply eqb_prop in Hb. rewrite Hb. f_equal.
    destruct (Z.eqb_spec (bj mod 8) (bi mod 8)), (Z.eqb_spec bj bi); try done; zlia.
  - rewrite list_lookup_alter_ne by zlia. destruct (Z.eqb_spec bj bi); [congruence|done].
Qed.
End bits.

(** ** The scan of a bitmap block *)

Lemma balloc_scan_some n : forall d size b bi t,
  bi <= t < bi + Z.of_nat n -> b + t < size -> bit_used d t = false ->
  (forall j, bi <= j < t -> bit_used d j = true) -> balloc_scan n d size b bi = Some t.
Proof.
  induction n as [|n IH]; intros d size b bi t Ht Hs Hf Hu; [lia|]. cbn [balloc_scan].
  replace (b + bi <? size) with true by lia. simpl. destruct (decide (t = bi)) as [->|].
  - by rewrite Hf.
  - rewrite Hu by lia. simpl. apply IH; [lia|done|done|]. intros. apply Hu. lia.
Qed.

Lemma balloc_scan_none n : forall d size b bi,
  (forall j, bi <= j < bi + Z.of_nat n -> b + j < size -> bit_used d j = true) ->
  balloc_scan n d size b bi = None.
Proof.
  induction n as [|n IH]; intros d size b bi Hu; [done|]. cbn [balloc_scan].
  destruct (Z.ltb_spec (b + bi) size); [|done]. simpl. rewrite Hu by lia. simpl.
  apply IH. intros. apply Hu; lia.
Qed.

(** ** Layout and bitmap *)

(** The disk regions that mkfs lays out: inode blocks, then the bitmap, then
    data from [nmeta] on; all of them may be written in a transaction. *)
Record layout (dsz : Z) (wr : Z -> Prop) (x : superblock) (nmeta : Z) : Prop := {
  ly_dsz : dsz < 2147483648;
  ly_size : nmeta <= sb_size x <= dsz;
  ly_inodes : 0 < sb_ninodes x < 2147483648;
  ly_ino : 2 <= sb_inodestart x;
  ly_bmap : sb_inodestart x + (sb_ninodes x - 1) / IPB < sb_bmapstart x;
  ly_meta : sb_bmapstart x + (sb_size x - 1) / BPB < nmeta;
  ly_wr : forall n, sb_inodestart x <= n < sb_size x -> wr n }.

(** Block [b] is marked in use. *)
Definition used (x : superblock) (v : Z -> list Z) (b : Z) : bool :=
  bit_used (v (BBLOCK b x)) (b mod BPB).

(** [b] is the block that [balloc] returns. *)
Definition first_free (x : superblock) (v : Z -> list Z) (b : Z) : Prop :=
  0 <= b < sb_size x /\ used x v b = false /\ forall c, 0 <= c < b -> used x v c = true.

Definition is_bitmap (x : superblock) (n : Z) : Prop :=
  sb_bmapstart x <= n <= sb_bmapstart x + (sb_size x - 1) / BPB.

(** What stays true of the metadata: the superblock, and its blocks in use. *)
Record meta_ok (x : superblock) (nmeta : Z) (v : Z -> list Z) : Prop := {
  mo_sb : decode_sb (v 1) = x;
  mo_used : forall b, 0 <= b < nmeta -> used x v b = true }.

Section layout.
Context (dsz : Z) (wr : Z -> Prop) (x : superblock) (nmeta : Z).
Hypothesis Hly : layout dsz wr x nmeta.

Lemma BBLOCK_eq b : 0 <= b < sb_size x -> BBLOCK b x = b / BPB + sb_bmapstart x.
Proof.
  intros Hb. destruct Hly. unfold BBLOCK. apply u32_small. unfold is_u32, BPB, IPB in *. zlia.
Qed.

Lemma BBLOCK_bitmap b : 0 <= b < sb_size x -> is_bitmap x (BBLOCK b x).
Proof. intros Hb. rewrite BBLOCK_eq by done. destruct Hly. unfold is_bitmap, BPB in *. zlia. Qed.

Lemma bitmap_range n : is_bitmap x n -> 2 <= n < nmeta /\ 0 <= n < dsz /\ wr n /\ n <> 1.
Proof.
  intros Hn. destruct Hly. unfold is_bitmap, BPB, IPB in *.
  assert (sb_inodestart x <= n < sb_size x) by zlia. assert (2 <= n < nmeta) by zlia.
  split; [done|]. split; [zlia|]. split; [auto|lia].
Qed.

Lemma used_insert v n d b : ~ is_bitmap x n -> 0 <= b < sb_size x ->
  used x (<[n := d]> v) b = used x v b.
Proof.
  intros Hn Hb. unfold used. rewrite fn_lookup_insert_ne; [done|].
  intros ->. by apply Hn, BBLOCK_bitmap.
Qed.

Definition mark (v : Z -> list Z) (b : Z) : Z -> list Z :=
  <[BBLOCK b x := bit_set (v (BBLOCK b x)) (b mod BPB)]> v.
Definition unmark (v : Z -> list Z) (b : Z) : Z -> list Z :=
  <[BBLOCK b x := bit_clear (v (BBLOCK b x)) (b mod BPB)]> v.

Lemma same_bit b c : 0 <= b < sb_size x -> 0 <= c < sb_size x ->
  BBLOCK c x = BBLOCK b x -> (c mod BPB =? b mod BPB) = (c =? b).
Proof.
  intros Hb Hc. rewrite !BBLOCK_eq by done. intros E. unfold BPB in *.
  destruct (Z.eqb_spec c b) as [->|]; [by rewrite Z.eqb_refl|].
  apply Z.eqb_neq. zlia.
Qed.

Lemma used_mark v b c : block_ok (v (BBLOCK b x)) -> 0 <= b < sb_size x -> 0 <= c < sb_size x ->
  used x (mark v b) c = (c =? b) || used x v c.
Proof.
  intros Hv Hb Hc. unfold used, mark. destruct (decide (BBLOCK c x = BBLOCK b x)) as [E|E].
  - rewrite E, fn_lookup_insert, bit_used_set by (try done; unfold BPB; zlia). by rewrite same_bit.
  - rewrite fn_lookup_insert_ne by congruence. destruct (Z.eqb_spec c b); [congruence|done].
Qed.

Lemma used_unmark v b c : block_ok (v (BBLOCK b x)) -> 0 <= b < sb_size x -> 0 <= c < sb_size x ->
  used x (unmark v b) c = negb (c =? b) && used x v c.
Proof.
  intros Hv Hb Hc. unfold used, unmark. destruct (decide (BBLOCK c x = BBLOCK b x)) as [E|E].
  - rewrite E, fn_lookup_insert, bit_used_clear by (try done; unfold BPB; zlia). by rewrite same_bit.
  - rewrite fn_lookup_insert_ne by congruence. destruct (Z.eqb_spec c b); [congruence|done].
Qed.

Lemma mark_other v b n : ~ is_bitmap x n -> 0 <= b < sb_size x -> mark v b n = v n.
Proof. intros Hn Hb. apply fn_lookup_insert_ne. intros <-. by apply Hn, BBLOCK_bitmap. Qed.
Lemma unmark_other v b n : ~ is_bitmap x n -> 0 <= b < sb_size x -> unmark v b n = v n.
Proof. intros Hn Hb. apply fn_lookup_insert_ne. intros <-. by apply Hn, BBLOCK_bitmap. Qed.

Lemma first_free_data v b : meta_ok x nmeta v -> first_free x v b -> nmeta <= b < sb_size x.
Proof.
  intros [_ Hu] (Hb & Hf & _). destruct (decide (nmeta <= b)); [lia|].
  rewrite Hu in Hf by lia. done.
Qed.

Lemma data_not_bitmap b : nmeta <= b -> ~ is_bitmap x b.
Proof. intros Hb Hm%bitmap_range. lia. Qed.
End layout.

Definition zeros : list Z := replicate BSIZE 0.
Lemma zeros_ok : block_ok zeros.
Proof. split; [apply length_replicate|by apply Forall_replicate]. Qed.

(** ** The routines in a transaction *)

Lemma wp_fl {A} (m : M log_st A) (R : A -> log_st -> Prop) s :
  wp m R (flog s) ->
  wp (lift flog_lens m) (fun a s' => R a (flog s') /\ icache s' = icache s /\ sb s' = sb s) s.
Proof. intros Hm. apply wp_lift. eapply wp_mono; [exact Hm|]. done. Qed.

Section prims.
Context {dsz : Z} {cap : nat} {wr : Z -> Prop} {T TL} {TS : TxnStore dsz cap wr T TL}.

(** [T] with the inode cache [ic] and the superblock [x]. *)
Definition FT (L : gset Z) (v : Z -> list Z) (H : gmap nat Z) (ic : nat -> inode)
    (x : superblock) (s : fs_st) : Prop :=
  T L v H (flog s) /\ icache s = ic /\ sb s = x.

Context (L : gset Z) (v : Z -> list Z) (H : gmap nat Z) (ic : nat -> inode) (x : superblock).
Context (s : fs_st).
Hypothesis HT : FT L v H ic x s.

Lemma FT_bread n :
  0 <= n < dsz -> (forall i, H !! i <> Some n) -> n ∈ L \/ (base.size L + base.size H < NBUF)%nat ->
  wp (fs_bread 1 n) (fun i s' => H !! i = None /\ FT L v (<[i := n]> H) ic x s') s.
Proof.
  destruct HT as (Ht & Hi & Hx). intros Hn Hh Hr.
  wp_call wp_fl; [by eapply txn_bread|]. intros i s' [[Hfree Ht'] [Hi' Hx']].
  split; [done|]. split_and!; congruence || done.
Qed.

Lemma FT_data i n : H !! i = Some n -> wp (fs_data i) (fun d s' => d = v n /\ s' = s) s.
Proof.
  destruct HT as (Ht & Hi & Hx). intros Hh. apply wp_lift. eapply wp_mono; [by eapply txn_data|].
  intros d t [-> ->]. split; [done|]. by destruct s.
Qed.

Lemma FT_write i n d :
  H !! i = Some n -> block_ok d -> wr n -> (base.size L < cap)%nat ->
  wp (fs_write i d) (fun _ s' => FT ({[n]} ∪ L) (<[n := d]> v) H ic x s') s.
Proof.
  destruct HT as (Ht & Hi & Hx). intros Hh Hd Hw Hc.
  wp_call wp_fl; [by eapply txn_update|]. intros [] s' [Ht' [Hi' Hx']].
  split_and!; congruence || done.
Qed.

Lemma FT_brelse i n :
  H !! i = Some n -> wp (fs_brelse i) (fun _ s' => FT L v (delete i H) ic x s') s.
Proof.
  destruct HT as (Ht & Hi & Hx). intros Hh.
  wp_call wp_fl; [by eapply txn_brelse|]. intros [] s' [Ht' [Hi' Hx']].
  split_and!; congruence || done.
Qed.

Lemma FT_sb : wp get_sb (fun y s' => y = x /\ s' = s) s.
Proof. apply wp_gets. split; [apply HT|done]. Qed.
Lemma FT_set_sb y : wp (modify (set_sb y)) (fun _ s' => FT L v H ic y s') s.
Proof. apply wp_modify. destruct HT as (? & ? & ?). by split_and!. Qed.
Lemma FT_ino ip : wp (ino ip) (fun i s' => i = ic ip /\ s' = s) s.
Proof. apply wp_gets. split; [|done]. by destruct HT as (_ & -> & _). Qed.
Lemma FT_upd_ino ip f : wp (upd_ino ip f) (fun _ s' => FT L v H (alter f ip ic) x s') s.
Proof. apply wp_modify. destruct HT as (? & Hi & ?). split_and!; [done|simpl; by rewrite Hi|done]. Qed.
Lemma FT_view n : 0 <= n < dsz -> block_ok (v n).
Proof. apply (txn_view L v H (flog s)), HT. Qed.

Lemma FT_readsb : (forall i, H !! i <> Some 1) -> 1 < dsz -> (base.size L + base.size H < NBUF)%nat ->
  wp (fs_readsb 1) (fun _ s' => FT L v H ic (decode_sb (v 1)) s') s.
Proof.
  intros Hh Hd Hr. unfold fs_readsb, readsb.
  destruct HT as (Ht & Hi & Hx).
  eapply (wp_seq _ _ _ (fun y s' => y = decode_sb (v 1) /\ FT L v H ic x s')).
  { wp_call (wp_fl _ (fun y t => y = decode_sb (v 1) /\ T L v H t)).
    { apply wp_bind. eapply wp_mono; [by eapply (txn_bread (T := T)); [done|lia|done|right]|].
      intros i t [Hf Ht1]. wp_call (txn_data (T := T)); [done|apply lookup_insert_eq|].
      intros ? ? [-> ->]. wp_call (txn_brelse (T := T)); [done|apply lookup_insert_eq|].
      intros [] t2 Ht2. apply wp_ret. rewrite delete_insert_id in Ht2 by done.
      done. }
    intros y s' [[-> Ht'] [Hi' Hx']]. split; [done|]. split_and!; congruence || done. }
  intros y s1 [-> (Ht1 & Hi1 & Hx1)]. apply wp_modify. by split_and!.
Qed.
End prims.

Section alloc.
Context {dsz : Z} {cap : nat} {wr : Z -> Prop} {T TL} {TS : TxnStore dsz cap wr T TL}.
Context (x : superblock) (nmeta : Z).
Hypothesis Hly : layout dsz wr x nmeta.
Notation FT := (FT (T := T)).

(** The view after [b] has been allocated. *)
Definition alloc_view (v : Z -> list Z) (b : Z) : Z -> list Z := <[b := zeros]> (mark x v b).

(** No held buffer is one that the allocator may touch. *)
Definition held_safe (v : Z -> list Z) (H : gmap nat Z) : Prop :=
  forall i n, H !! i = Some n -> ~ is_bitmap x n /\ 0 <= n < sb_size x /\ used x v n = true /\ n <> 1.

Lemma wp_bzero L v H ic b s :
  FT L v H ic x s -> nmeta <= b < sb_size x -> (forall i, H !! i <> Some b) ->
  (base.size L + base.size H < NBUF)%nat -> (base.size L < cap)%nat ->
  wp (bzero 1 b) (fun _ s' => FT ({[b]} ∪ L) (<[b := zeros]> v) H ic x s') s.
Proof.
  intros HT Hb Hh Hr Hc. destruct Hly. unfold bzero.
  assert (0 <= b) by (unfold BPB, IPB in *; zlia).
  wp_call FT_bread; [done|lia|done|by right|]. intros i s1 [Hi H1].
  wp_call FT_write; [done|apply lookup_insert_eq|apply zeros_ok|apply ly_wr0; unfold BPB, IPB in *; zlia|done|].
  intros [] s2 H2. wp_call FT_brelse; [done|apply lookup_insert_eq|]. intros [] s3 H3.
  by rewrite delete_insert_id in H3.
Qed.

Lemma wp_balloc_loop L v H ic t : forall n b s,
  FT L v H ic x s -> meta_ok x nmeta v -> held_safe v H -> first_free x v t ->
  b mod BPB = 0 -> 0 <= b <= t -> t < b + Z.of_nat n * BPB ->
  (base.size L + base.size H + 1 < NBUF)%nat -> (base.size L + 1 < cap)%nat ->
  wp (balloc_loop n 1 b) (fun r s' => r = t /\
    FT ({[t]} ∪ ({[BBLOCK t x]} ∪ L)) (alloc_view v t) H ic x s') s.
Proof.
  intros n. induction n as [|n IH]; intros b s HT Hmo Hheld Hff Hb Hbt Hfuel Hr Hc; [lia|].
  destruct Hff as (Ht & Hfree & Hbefore).
  assert (Hmul : b = BPB * (b / BPB)) by (unfold BPB in *; zlia).
  assert (HbB : 0 <= b < sb_size x) by lia.
  destruct (bitmap_range _ _ _ _ Hly _ (BBLOCK_bitmap _ _ _ _ Hly b HbB)) as (Hm1 & Hm2 & Hm3 & Hm4).
  cbn [balloc_loop]. wp_call FT_sb; [done|]. intros ? ? [-> ->].
  replace (b <? sb_size x) with true by lia. simpl negb. cbv iota.
  wp_call FT_bread; [done|done| |right; lia|].
  { intros i Hi. destruct (Hheld i _ Hi) as [Hnb _]. by apply Hnb, (BBLOCK_bitmap _ _ _ _ Hly). }
  intros i s1 [Hi H1]. wp_call FT_data; [done|apply lookup_insert_eq|]. intros ? ? [-> ->].
  assert (Hbits : forall j, 0 <= j < BPB -> b + j < sb_size x ->
    bit_used (v (BBLOCK b x)) j = used x v (b + j)).
  { intros j Hj Hbj. unfold used. rewrite !(BBLOCK_eq _ _ _ _ Hly) by lia.
    replace ((b + j) / BPB) with (b / BPB) by (unfold BPB in *; zlia).
    replace ((b + j) mod BPB) with j by (unfold BPB in *; zlia). done. }
  destruct (decide (t < b + BPB)) as [Hin|Hout].
  - rewrite (balloc_scan_some _ _ _ _ _ (t - b)).
    2:{ unfold BPB in *. lia. } 2:{ lia. }
    2:{ rewrite Hbits by lia. by replace (b + (t - b)) with t by lia. }
    2:{ intros j Hj. rewrite Hbits by lia. apply Hbefore. lia. }
    assert (E : BBLOCK t x = BBLOCK b x).
    { rewrite !(BBLOCK_eq _ _ _ _ Hly) by lia. f_equal. unfold BPB in *. zlia. }
    assert (E' : t mod BPB = t - b) by (unfold BPB in *; zlia).
    pose proof (first_free_data _ _ _ _ Hmo (conj Ht (conj Hfree Hbefore))) as Hdata.
    assert (Hblk : block_ok (v (BBLOCK b x))) by (by eapply FT_view).
    wp_call FT_write; [done|apply lookup_insert_eq|apply bit_set_ok; [done|lia]|done|lia|].
    intros [] s2 H2. wp_call FT_brelse; [done|apply lookup_insert_eq|].
    rewrite delete_insert_id by done. intros [] s3 H3. replace (b + (t - b)) with t by lia.
    wp_call wp_bzero; [done|done| | | |].
    { intros j Hj. destruct (Hheld j t Hj) as (_ & _ & Hu & _). congruence. }
    { pose proof (size_insert_le (BBLOCK b x) L). lia. }
    { pose proof (size_insert_le (BBLOCK b x) L). lia. }
    intros [] s4 H4. apply wp_ret. split; [done|]. unfold alloc_view, mark. rewrite E, E'. done.
  - rewrite balloc_scan_none.
    2:{ intros j Hj Hs. rewrite Hbits by (unfold BPB in *; lia). apply Hbefore. unfold BPB in *. lia. }
    wp_call FT_brelse; [done|apply lookup_insert_eq|]. rewrite delete_insert_id by done.
    intros [] s2 H2. apply IH; try done; unfold BPB in *; try lia; try zlia.
Qed.

Lemma wp_balloc L v H ic t s :
  FT L v H ic x s -> meta_ok x nmeta v -> held_safe v H -> first_free x v t ->
  (base.size L + base.size H + 1 < NBUF)%nat -> (base.size L + 1 < cap)%nat ->
  wp (balloc 1) (fun r s' => r = t /\
    FT ({[t]} ∪ ({[BBLOCK t x]} ∪ L)) (alloc_view v t) H ic x s') s.
Proof.
  intros HT Hmo Hheld Hff Hr Hc. unfold balloc. wp_call FT_sb; [done|]. intros ? ? [-> ->].
  assert (Ht := proj1 Hff).
  eapply wp_balloc_loop; try done; unfold BPB in *; try lia. rewrite Z2Nat.id by zlia. zlia.
Qed.

Lemma balloc_loop_full L v H ic n : forall b s,
  FT L v H ic x s -> (forall c, 0 <= c < sb_size x -> used x v c = true) -> held_safe v H ->
  b mod BPB = 0 -> 0 <= b -> (base.size L + base.size H < NBUF)%nat ->
  panics "balloc: out of blocks" (balloc_loop n 1 b) s.
Proof.
  induction n as [|n IH]; intros b s HT Hfull Hheld Hb Hb0 Hr; cbn [balloc_loop];
    (eapply panics_bind; [by eapply FT_sb|]; intros ? ? [-> ->]); [apply panics_now|].
  destruct (Z.ltb_spec b (sb_size x)); simpl negb; cbv iota; [|apply panics_now].
  assert (HbB : 0 <= b < sb_size x) by lia.
  destruct (bitmap_range _ _ _ _ Hly _ (BBLOCK_bitmap _ _ _ _ Hly b HbB)) as (Hm1 & Hm2 & Hm3 & Hm4).
  eapply panics_bind; [eapply FT_bread; [done|done| |right; lia]|].
  { intros i Hi. destruct (Hheld i _ Hi) as [Hnb _]. by apply Hnb, (BBLOCK_bitmap _ _ _ _ Hly). }
  intros i s1 [Hi H1]. eapply panics_bind; [eapply FT_data; [done|apply lookup_insert_eq]|].
  intros ? ? [-> ->]. rewrite balloc_scan_none.
  - eapply panics_bind; [eapply FT_brelse; [done|apply lookup_insert_eq]|].
    rewrite delete_insert_id by done. intros [] s2 H2. apply IH; try done; unfold BPB in *; zlia.
  - intros j Hj Hs. rewrite <- (Hfull (b + j)) by lia. unfold used.
    rewrite !(BBLOCK_eq _ _ _ _ Hly) by lia. unfold BPB in *.
    replace ((b + j) / 4096) with (b / 4096) by zlia. replace ((b + j) mod 4096) with j by zlia. done.
Qed.

(** The allocated block was free and is now used; no other block changes
    state, and only the block and its bitmap block change contents. *)
Lemma alloc_view_used v t c :
  meta_ok x nmeta v -> first_free x v t -> block_ok (v (BBLOCK t x)) -> 0 <= c < sb_size x ->
  used x (alloc_view v t) c = (c =? t) || used x v c.
Proof.
  intros Hmo Hff Hblk Hc. pose proof (first_free_data _ _ _ _ Hmo Hff).
  unfold alloc_view. rewrite (used_insert _ _ _ _ Hly) by first [done | eapply data_not_bitmap; [done|lia]].
  eapply used_mark; try done. apply Hff.
Qed.

Lemma alloc_view_other v t n :
  n <> t -> ~ is_bitmap x n -> 0 <= t < sb_size x -> alloc_view v t n = v n.
Proof.
  intros Hn Hb Ht. unfold alloc_view. rewrite fn_lookup_insert_ne by done. by eapply mark_other.
Qed.

Lemma alloc_view_meta v t :
  meta_ok x nmeta v -> first_free x v t -> block_ok (v (BBLOCK t x)) ->
  meta_ok x nmeta (alloc_view v t).
Proof.
  intros Hmo Hff Hblk. pose proof (first_free_data _ _ _ _ Hmo Hff) as Ht.
  assert (2 <= nmeta) by (destruct Hly; unfold BPB, IPB in *; zlia). split.
  - rewrite alloc_view_other; [apply Hmo|lia| |apply Hff].
    intros Hb%(bitmap_range _ _ _ _ Hly). lia.
  - intros b Hb. rewrite alloc_view_used by (try done; lia). rewrite (mo_used _ _ _ Hmo b Hb). apply orb_true_r.
Qed.

Lemma wp_bfree L v H ic b s :
  FT L v H ic x s -> meta_ok x nmeta v -> held_safe v H ->
  0 <= b < sb_size x -> used x v b = true ->
  (base.size L + base.size H < NBUF)%nat -> (base.size L < cap)%nat ->
  wp (bfree 1 b) (fun _ s' => FT ({[BBLOCK b x]} ∪ L) (unmark x v b) H ic x s') s.
Proof.
  intros HT Hmo Hheld Hb Hu Hr Hc. unfold bfree.
  assert (1 < dsz) by (destruct Hly; unfold BPB, IPB in *; zlia).
  destruct (bitmap_range _ _ _ _ Hly _ (BBLOCK_bitmap _ _ _ _ Hly b Hb)) as (Hm1 & Hm2 & Hm3 & Hm4).
  wp_call FT_readsb; [done| |done|done|].
  { intros i Hi. by destruct (Hheld i 1 Hi) as (_ & _ & _ & ?). }
  rewrite (mo_sb _ _ _ Hmo). intros [] s1 H1.
  wp_call FT_sb; [done|]. intros ? ? [-> ->].
  wp_call FT_bread; [done|done| |by right|].
  { intros i Hi. destruct (Hheld i _ Hi) as [Hnb _]. by apply Hnb, (BBLOCK_bitmap _ _ _ _ Hly). }
  intros i s2 [Hi H2]. wp_call FT_data; [done|apply lookup_insert_eq|]. intros ? ? [-> ->].
  unfold used in Hu. rewrite Hu. simpl negb. cbv iota zeta.
  wp_call FT_write; [done|apply lookup_insert_eq| |done|done|].
  { apply bit_clear_ok; [by eapply FT_view|unfold BPB; zlia]. }
  intros [] s3 H3. wp_call FT_brelse; [done|apply lookup_insert_eq|]. intros [] s4 H4.
  rewrite delete_insert_id in H4 by done. done.
Qed.

(** Freeing a free block stops the machine. *)
Lemma bfree_free L v H ic b s :
  FT L v H ic x s -> meta_ok x nmeta v -> held_safe v H ->
  0 <= b < sb_size x -> used x v b = false -> (base.size L + base.size H < NBUF)%nat ->
  panics "freeing free block" (bfree 1 b) s.
Proof.
  intros HT Hmo Hheld Hb Hu Hr. unfold bfree.
  assert (1 < dsz) by (destruct Hly; unfold BPB, IPB in *; zlia).
  destruct (bitmap_range _ _ _ _ Hly _ (BBLOCK_bitmap _ _ _ _ Hly b Hb)) as (Hm1 & Hm2 & Hm3 & Hm4).
  eapply panics_bind; [eapply FT_readsb; [done| |done|done]|].
  { intros i Hi. by destruct (Hheld i 1 Hi) as (_ & _ & _ & ?). }
  rewrite (mo_sb _ _ _ Hmo). intros [] s1 H1.
  eapply panics_bind; [by eapply FT_sb|]. intros ? ? [-> ->].
  eapply panics_bind; [eapply FT_bread; [done|done| |by right]|].
  { intros i Hi. destruct (Hheld i _ Hi) as [Hnb _]. by apply Hnb, (BBLOCK_bitmap _ _ _ _ Hly). }
  intros i s2 [Hi H2]. eapply panics_bind; [eapply FT_data; [done|apply lookup_insert_eq]|].
  intros ? ? [-> ->]. unfold used in Hu. rewrite Hu. apply panics_now.
Qed.
End alloc.
