(* ===== verification/FsFile.v ===== *)
(** * File contents (fs.c: bmap, readi, writei, iupdate)

    A file is the byte sequence that its inode's block map selects from the
    disk.  [bmap] extends the map with fresh zeroed blocks, [readi] returns a
    slice of the sequence and [writei] overwrites or extends it; nothing that
    belongs to another file changes. *)

From S2P Require Import Prelude Params CString Spinlock Sched Ring Bio Log Crash Logop Txn Fs FsBlocks.

(** ** Free blocks *)

Definition nfree (x : superblock) (v : Z -> list Z) : nat :=
  length (filter (fun b => used x v b = false) (seqZ 0 (sb_size x))).

Lemma first_free_ex x v : (0 < nfree x v)%nat -> exists t, first_free x v t.
Proof.
  intros Hn. destruct (list_find (fun b => used x v b = false) (seqZ 0 (sb_size x))) as [[k t]|] eqn:E.
  - apply list_find_Some in E as (Hk & Hf & Hb). apply lookup_seqZ in Hk as [-> Hk].
    exists (0 + Z.of_nat k). split; [lia|]. split; [done|]. intros c Hc.
    destruct (used x v c) eqn:Hu; [done|]. exfalso. apply (Hb (Z.to_nat c) c); [|lia|done].
    apply lookup_seqZ. lia.
  - exfalso. apply list_find_None in E. unfold nfree in Hn.
    rewrite Forall_forall in E. destruct (filter _ _) as [|b l] eqn:Ef; [simpl in Hn; lia|].
    assert (Hb : b ∈ filter (fun b => used x v b = false) (seqZ 0 (sb_size x))) by (rewrite Ef; left).
    apply list_elem_of_filter in Hb as [Hb1 Hb2]. by apply (E b).
Qed.

Lemma filter_ext_in (P Q : Z -> Prop) `{!forall b, Decision (P b), !forall b, Decision (Q b)} (l : list Z) :
  (forall b, b ∈ l -> P b <-> Q b) -> filter P l = filter Q l.
Proof.
  induction l as [|b l IH]; intros HPQ; [done|]. rewrite !filter_cons, IH by (intros; apply HPQ; by right).
  assert (P b <-> Q b) by (apply HPQ; left).
  destruct (decide (P b)), (decide (Q b)); tauto || done.
Qed.

Lemma filter_split_length (P Q : Z -> Prop) `{!forall b, Decision (P b), !forall b, Decision (Q b)} t (l : list Z) :
  NoDup l -> t ∈ l -> P t -> ~ Q t -> (forall b, b ∈ l -> b <> t -> P b <-> Q b) ->
  length (filter P l) = S (length (filter Q l)).
Proof.
  induction l as [|b l IH]; intros Hnd Ht HP HQ HPQ; [by apply elem_of_nil in Ht|].
  apply NoDup_cons in Hnd as [Hb Hnd]. rewrite !filter_cons.
  destruct (decide (b = t)) as [->|Hne].
  - rewrite decide_True, decide_False by done. simpl. do 2 f_equal.
    apply filter_ext_in. intros c Hc. apply HPQ; [by right|congruence].
  - apply elem_of_cons in Ht as [->|Ht]; [done|].
    specialize (IH Hnd Ht HP HQ ltac:(intros c Hc; apply HPQ; by right)).
    assert (P b <-> Q b) as Hiff by (apply HPQ; [left|done]).
    destruct (decide (P b)), (decide (Q b)); simpl; tauto || lia.
Qed.

(** ** The block map of an inode *)

Definition MAXBLK : Z := Z.of_nat MAXFILE.

(** The address of block [k] of the file, 0 if it has none. *)
Definition blk (v : Z -> list Z) (i : inode) (k : Z) : Z :=
  if k <? 12 then addr (Z.to_nat k) i
  else if addr NDIRECT i =? 0 then 0
  else get_word (Z.to_nat (4 * (k - 12))) (v (addr NDIRECT i)).

Section map.
Context (x : superblock) (nmeta : Z).

Definition data_block (v : Z -> list Z) (b : Z) : Prop :=
  nmeta <= b < sb_size x /\ used x v b = true.

(** Every block of the file is a data block in use, no block appears twice,
    and the indirect block is none of them. *)
Record ino_ok (v : Z -> list Z) (i : inode) : Prop := {
  io_dev : i_dev i = 1;
  io_len : length (i_addrs i) = S NDIRECT;
  io_data : forall k, 0 <= k < MAXBLK -> blk v i k <> 0 -> data_block v (blk v i k);
  io_ind : addr NDIRECT i <> 0 -> data_block v (addr NDIRECT i);
  io_inj : forall j k, 0 <= j < MAXBLK -> 0 <= k < MAXBLK -> blk v i j <> 0 ->
    blk v i j = blk v i k -> j = k;
  io_sep : forall k, 0 <= k < MAXBLK -> addr NDIRECT i <> 0 -> blk v i k <> addr NDIRECT i }.
End map.

(** *** Changes of the map *)

Lemma addr_set k a i j : (k < length (i_addrs i))%nat ->
  addr j (set_addr k a i) = if decide (j = k) then a else addr j i.
Proof.
  intros Hk. unfold addr, set_addr. simpl. case_decide as E.
  - subst. by rewrite list_lookup_insert_eq.
  - by rewrite list_lookup_insert_ne.
Qed.

(** The map only depends on the contents of the indirect block. *)
Lemma blk_ext v v' i k :
  (addr NDIRECT i <> 0 -> v' (addr NDIRECT i) = v (addr NDIRECT i)) -> blk v' i k = blk v i k.
Proof.
  intros Hv. unfold blk. destruct (k <? 12); [done|].
  destruct (Z.eqb_spec (addr NDIRECT i) 0); [done|]. by rewrite Hv.
Qed.

Lemma blk_direct v i k a j : length (i_addrs i) = S NDIRECT -> 0 <= k < 12 -> 0 <= j ->
  blk v (set_addr (Z.to_nat k) a i) j = if decide (j = k) then a else blk v i j.
Proof.
  intros Hl Hk Hj. unfold blk. rewrite !addr_set by (rewrite Hl; unfold NDIRECT; lia).
  rewrite (decide_False (P := NDIRECT = Z.to_nat k)) by (unfold NDIRECT; lia).
  destruct (Z.ltb_spec j 12); [|by rewrite decide_False by lia].
  destruct (decide (j = k)) as [->|]; [by rewrite decide_True|by rewrite decide_False by lia].
Qed.

Lemma get_word_zeros off : get_word off zeros = 0.
Proof.
  unfold get_word, slice, zeros. rewrite drop_replicate, take_replicate.
  induction (4 `min` (BSIZE - off))%nat as [|n IH]; simpl; lia.
Qed.

(** A fresh indirect block maps nothing. *)
Lemma blk_new_indirect v i a j : length (i_addrs i) = S NDIRECT -> addr NDIRECT i = 0 ->
  a <> 0 -> v a = zeros -> 0 <= j -> blk v (set_addr NDIRECT a i) j = blk v i j.
Proof.
  intros Hl H0 Ha Hz Hj. unfold blk. rewrite !addr_set by (rewrite Hl; lia).
  rewrite (decide_True (P := NDIRECT = NDIRECT)) by done.
  rewrite (proj2 (Z.eqb_neq a 0)), H0, Hz, get_word_zeros by done. simpl.
  destruct (Z.ltb_spec j 12); [|done]. by rewrite decide_False by (unfold NDIRECT; lia).
Qed.

Lemma blk_indirect v i k a j : addr NDIRECT i <> 0 -> block_ok (v (addr NDIRECT i)) ->
  12 <= k < MAXBLK -> 0 <= j < MAXBLK -> is_u32 a ->
  let n := addr NDIRECT i in
  blk (<[n := put_word (Z.to_nat (4 * (k - 12))) a (v n)]> v) i j =
    if decide (j = k) then a else blk v i j.
Proof.
  intros Hn [Hl _] Hk Hj Ha n. unfold blk. fold n. unfold MAXBLK, MAXFILE in *.
  destruct (Z.ltb_spec j 12); [by rewrite decide_False by lia|].
  rewrite (proj2 (Z.eqb_neq n 0)) by done. rewrite fn_lookup_insert. fold n in Hl.
  assert (BSIZE = 512%nat) as HB by done.
  destruct (decide (j = k)) as [->|].
  - rewrite get_put_word by lia. by apply u32_small.
  - rewrite get_put_word_ne by lia. done.
Qed.

Section grow.
Context (dsz : Z) (wr : Z -> Prop) (x : superblock) (nmeta : Z).
Hypothesis Hly : layout dsz wr x nmeta.
Notation ino_ok := (ino_ok x nmeta).
Notation data_block := (data_block x nmeta).
Notation meta_ok := (meta_ok x nmeta).

(** [t] belongs to no block of the file. *)
Definition fresh_for (v : Z -> list Z) (i : inode) (t : Z) : Prop :=
  t <> 0 /\ (forall k, 0 <= k < MAXBLK -> blk v i k <> t) /\ addr NDIRECT i <> t.

Lemma nmeta_pos : 2 <= nmeta.
Proof. destruct Hly. unfold BPB, IPB in *. zlia. Qed.

Lemma first_free_fresh v i t :
  ino_ok v i -> meta_ok v -> first_free x v t -> fresh_for v i t.
Proof.
  intros Hi Hm Hff. pose proof (first_free_data _ _ _ _ Hm Hff) as Ht. pose proof nmeta_pos.
  destruct Hff as (_ & Hf & _). split_and!; [lia|..].
  - intros k Hk E. destruct (io_data _ _ _ _ Hi k Hk) as [_ Hu]; [lia|congruence].
  - intros E. destruct (io_ind _ _ _ _ Hi) as [_ Hu]; [lia|congruence].
Qed.

(** One more block at position [k]. *)
Lemma ino_ok_add v v' i i' k t :
  ino_ok v i -> i_dev i' = 1 -> length (i_addrs i') = S NDIRECT -> addr NDIRECT i' = addr NDIRECT i ->
  0 <= k < MAXBLK -> blk v i k = 0 ->
  (forall j, 0 <= j < MAXBLK -> blk v' i' j = if decide (j = k) then t else blk v i j) ->
  fresh_for v i t -> data_block v' t -> (forall b, data_block v b -> data_block v' b) ->
  ino_ok v' i'.
Proof.
  intros [] Hd Hl Ha Hk H0 Hblk (Ht0 & Hfr & Hfa) Ht Hmono. split; try done.
  - intros j Hj. rewrite Hblk by done. case_decide; [done|]. intros. auto.
  - rewrite Ha. auto.
  - intros j j' Hj Hj'. rewrite !Hblk by done. repeat case_decide; subst; try done.
    + intros _ E. by destruct (Hfr j' Hj').
    + intros _ E. by destruct (Hfr j Hj).
    + auto.
  - intros j Hj. rewrite Ha, Hblk by done. case_decide; [|auto]. intros _ ->. by apply Hfa.
Qed.

(** A fresh indirect block. *)
Lemma ino_ok_indirect v v' i i' t :
  ino_ok v i -> i_dev i' = 1 -> length (i_addrs i') = S NDIRECT -> addr NDIRECT i' = t ->
  (forall j, 0 <= j < MAXBLK -> blk v' i' j = blk v i j) ->
  fresh_for v i t -> data_block v' t -> (forall b, data_block v b -> data_block v' b) ->
  ino_ok v' i'.
Proof.
  intros [] Hd Hl Ha Hblk (Ht0 & Hfr & Hfa) Ht Hmono. split; try done.
  - intros j Hj. rewrite Hblk by done. auto.
  - by rewrite Ha.
  - intros j j' Hj Hj'. rewrite !Hblk by done. auto.
  - intros j Hj. rewrite Ha, Hblk by done. auto.
Qed.

(** Changing blocks other than the indirect one leaves the file's map alone. *)
Lemma ino_ok_view v v' i :
  ino_ok v i -> (addr NDIRECT i <> 0 -> v' (addr NDIRECT i) = v (addr NDIRECT i)) ->
  (forall b, data_block v b -> data_block v' b) -> ino_ok v' i.
Proof.
  intros [] Hv Hmono. split; try done.
  - intros k Hk. rewrite (blk_ext v v' i k) by done. auto.
  - auto.
  - intros j k Hj Hk. rewrite !(blk_ext v v' i) by done. auto.
  - intros k Hk. rewrite (blk_ext v v' i k) by done. auto.
Qed.

(** The allocation of [t] as the file sees it. *)
Section alloc.
Context (v : Z -> list Z) (i : inode) (t : Z).
Hypothesis Hi : ino_ok v i.
Hypothesis Hm : meta_ok v.
Hypothesis Hff : first_free x v t.
Hypothesis Hblk : block_ok (v (BBLOCK t x)).
Notation v' := (alloc_view x v t).

Lemma alloc_data b : data_block v b -> data_block v' b.
Proof.
  intros [Hb Hu]. split; [done|]. pose proof nmeta_pos.
  rewrite (alloc_view_used _ _ Hly) by (try done; lia). rewrite Hu. apply orb_true_r.
Qed.

Lemma alloc_new : data_block v' t /\ v' t = zeros.
Proof.
  pose proof (first_free_data _ _ _ _ Hm Hff) as Ht. pose proof nmeta_pos. split.
  - split; [done|]. rewrite (alloc_view_used _ _ Hly) by (try done; lia). by rewrite Z.eqb_refl.
  - apply fn_lookup_insert.
Qed.

Lemma alloc_keep n : n <> t -> ~ is_bitmap x n -> v' n = v n.
Proof. intros. apply (alloc_view_other _ _ Hly); try done. apply Hff. Qed.

Lemma data_keep b : data_block v b -> v' b = v b.
Proof.
  intros [Hb Hu]. apply alloc_keep.
  - intros ->. destruct Hff as (_ & Hf & _). congruence.
  - eapply data_not_bitmap; [done|lia].
Qed.

Lemma alloc_ino : ino_ok v' i.
Proof.
  apply (ino_ok_view v); [done| |apply alloc_data]. intros Hn. apply data_keep. by apply Hi.
Qed.

Lemma alloc_blk k : blk v' i k = blk v i k.
Proof. apply blk_ext. intros Hn. apply data_keep. by apply Hi. Qed.

Lemma alloc_nfree : nfree x v = S (nfree x v').
Proof.
  unfold nfree. apply (filter_split_length _ _ t).
  - apply NoDup_seqZ.
  - apply elem_of_seqZ. pose proof (proj1 Hff). lia.
  - apply Hff.
  - rewrite (alloc_view_used _ _ Hly) by (try done; apply Hff). by rewrite Z.eqb_refl.
  - intros b Hb Hne. apply elem_of_seqZ in Hb.
    rewrite (alloc_view_used _ _ Hly) by (try done; lia). by rewrite (proj2 (Z.eqb_neq b t)).
Qed.
End alloc.
End grow.

(** ** bmap *)

Section bmap.
Context {dsz : Z} {cap : nat} {wr : Z -> Prop} {T TL} {TS : TxnStore dsz cap wr T TL}.
Context (x : superblock) (nmeta : Z).
Hypothesis Hly : layout dsz wr x nmeta.
Notation FT := (FT (T := T)).
Notation ino_ok := (ino_ok x nmeta).
Notation data_block := (data_block x nmeta).
Notation meta_ok := (meta_ok x nmeta).

(** What [bmap ip k] did: block [k] has the address [a], fresh and zeroed if
    it had none; every other block and every other file is as before. *)
Record grown (v v' : Z -> list Z) (i i' : inode) (k a : Z) : Prop := {
  gw_inode : i' = set_i_addrs (i_addrs i') i;
  gw_ok : ino_ok v' i';
  gw_meta : meta_ok v';
  gw_at : blk v' i' k = a;
  gw_nz : a <> 0;
  gw_other : forall j, 0 <= j < MAXBLK -> j <> k -> blk v' i' j = blk v i j;
  gw_old : blk v i k <> 0 -> a = blk v i k;
  gw_new : blk v i k = 0 -> v' a = zeros /\ ~ data_block v a;
  gw_data : forall b, data_block v b -> data_block v' b;
  gw_frame : forall n, ~ is_bitmap x n -> n < nmeta \/ data_block v n ->
    (addr NDIRECT i <> 0 -> n <> addr NDIRECT i) -> v' n = v n;
  gw_ind : addr NDIRECT i' = addr NDIRECT i \/
    addr NDIRECT i = 0 /\ addr NDIRECT i' <> 0 /\ ~ data_block v (addr NDIRECT i');
  gw_free : (nfree x v <= nfree x v' + 2)%nat;
  gw_keep : blk v i k <> 0 -> i' = i }.

(** The blocks that the allocation of the indirect block logs. *)
Definition ind_set (i : inode) : gset Z :=
  if addr NDIRECT i =? 0 then ∅ else {[addr NDIRECT i; BBLOCK (addr NDIRECT i) x]}.
(** The blocks that [bmap] may log. *)
Definition logs (L L' : gset Z) (i' : inode) (a : Z) : Prop :=
  L' ⊆ L ∪ ({[a; BBLOCK a x]} ∪ ind_set i').

(** The inode cache after a change of entry [ip]. *)
Definition cache_at (ic ic' : nat -> inode) (ip : nat) (i : inode) : Prop :=
  ic' ip = i /\ forall j, j <> ip -> ic' j = ic j.

Lemma cache_at_alter ic ip f : cache_at ic (alter f ip ic) ip (f (ic ip)).
Proof. split; [apply fn_lookup_alter|]. intros. by apply fn_lookup_alter_ne. Qed.
Lemma cache_at_refl ic ip : cache_at ic ic ip (ic ip).
Proof. done. Qed.
Lemma cache_at_trans ic ic1 ic2 ip i1 i2 :
  cache_at ic ic1 ip i1 -> cache_at ic1 ic2 ip i2 -> cache_at ic ic2 ip i2.
Proof. intros [_ H1] [E H2]. split; [done|]. intros j Hj. by rewrite H2, H1. Qed.

Lemma held_safe_mono v v' H :
  (forall n, 0 <= n < sb_size x -> used x v n = true -> used x v' n = true) ->
  held_safe x v H -> held_safe x v' H.
Proof. intros Hu Hs i n Hi. destruct (Hs i n Hi) as (? & ? & ? & ?). auto. Qed.

Lemma alloc_used_mono v t n : meta_ok v -> first_free x v t -> block_ok (v (BBLOCK t x)) ->
  0 <= n < sb_size x -> used x v n = true -> used x (alloc_view x v t) n = true.
Proof. intros. rewrite (alloc_view_used _ _ Hly) by done. rewrite orb_true_iff. by right. Qed.

Lemma bitmap_ok L v H ic s t : FT L v H ic x s -> 0 <= t < sb_size x -> block_ok (v (BBLOCK t x)).
Proof.
  intros HT Ht. eapply FT_view; [done|].
  destruct (bitmap_range _ _ _ _ Hly _ (BBLOCK_bitmap _ _ _ _ Hly t Ht)) as (_ & ? & _). done.
Qed.

(** [bmap_direct] on an absent entry. *)
Lemma wp_bmap_new L v H ic ip m t s :
  FT L v H ic x s -> i_dev (ic ip) = 1 -> addr m (ic ip) = 0 -> meta_ok v -> held_safe x v H ->
  first_free x v t -> (base.size L + base.size H + 1 < NBUF)%nat -> (base.size L + 1 < cap)%nat ->
  wp (bmap_direct ip m) (fun r s' => r = t /\
    FT ({[t]} ∪ ({[BBLOCK t x]} ∪ L)) (alloc_view x v t) H (alter (set_addr m t) ip ic) x s') s.
Proof.
  intros HT Hd Ha Hm Hh Hff Hr Hc. unfold bmap_direct.
  wp_call FT_ino; [done|]. intros ? ? [-> ->]. rewrite Ha, Hd. simpl Z.eqb. cbv iota.
  wp_call wp_balloc; [done..|]. intros ? s1 [-> H1].
  wp_call FT_upd_ino; [done|]. intros [] s2 H2. by apply wp_ret.
Qed.

Lemma wp_bmap_old L v H ic ip m s :
  FT L v H ic x s -> addr m (ic ip) <> 0 ->
  wp (bmap_direct ip m) (fun r s' => r = addr m (ic ip) /\ s' = s) s.
Proof.
  intros HT Ha. unfold bmap_direct. wp_call FT_ino; [done|]. intros ? ? [-> ->].
  rewrite (proj2 (Z.eqb_neq _ 0) Ha). by apply wp_ret.
Qed.

Lemma size_alloc_le t (L : gset Z) :
  (base.size ({[t]} ∪ ({[BBLOCK t x]} ∪ L)) <= base.size L + 2)%nat.
Proof.
  pose proof (size_insert_le (BBLOCK t x) L).
  pose proof (size_insert_le t ({[BBLOCK t x]} ∪ L)). lia.
Qed.

Lemma grown_refl v i k :
  ino_ok v i -> meta_ok v -> blk v i k <> 0 -> grown v v i i k (blk v i k).
Proof.
  intros Hi Hm Hb. split; try done; [by destruct i|by left|lia].
Qed.

Lemma grown_direct v i k t :
  ino_ok v i -> meta_ok v -> first_free x v t -> block_ok (v (BBLOCK t x)) -> 0 <= k < 12 ->
  blk v i k = 0 -> grown v (alloc_view x v t) i (set_addr (Z.to_nat k) t i) k t.
Proof.
  intros Hi Hm Hff Hb Hk H0. pose proof (first_free_fresh _ _ _ _ Hly _ _ _ Hi Hm Hff) as Hfr.
  pose proof (io_len _ _ _ _ Hi) as Hl. pose proof (alloc_new _ _ _ _ Hly v t Hm Hff Hb) as [Hnew Hz].
  assert (Hblk : forall j, 0 <= j -> blk (alloc_view x v t) (set_addr (Z.to_nat k) t i) j =
    if decide (j = k) then t else blk v i j).
  { intros j Hj. rewrite blk_direct by done. case_decide; [done|].
    by eapply alloc_blk. }
  assert (Ha : addr NDIRECT (set_addr (Z.to_nat k) t i) = addr NDIRECT i).
  { rewrite addr_set by (rewrite Hl; unfold NDIRECT; lia). rewrite decide_False by (unfold NDIRECT; lia). done. }
  split.
  - done.
  - apply (ino_ok_add x nmeta v _ i _ k t); try done; [apply Hi|simpl; by rewrite length_insert|unfold MAXBLK, MAXFILE; lia| |].
    + intros j Hj. apply Hblk. lia.
    + intros b. by eapply alloc_data.
  - by eapply alloc_view_meta.
  - rewrite Hblk by lia. by rewrite decide_True.
  - apply Hfr.
  - intros j Hj Hne. rewrite Hblk by lia. by rewrite decide_False.
  - done.
  - intros _. split; [done|]. intros [_ Hu]. destruct Hff as (_ & Hf & _). congruence.
  - intros b. by eapply alloc_data.
  - intros n Hnb Hn _. eapply alloc_keep; try done. intros ->. pose proof (first_free_data _ _ _ _ Hm Hff).
    destruct Hn as [Hn|[_ Hu]]; [lia|]. destruct Hff as (_ & Hf & _). congruence.
  - by left.
  - rewrite (alloc_nfree _ _ _ _ Hly v t) by done. lia.
  - done.
Qed.

Lemma used_data v n : data_block v n -> ~ is_bitmap x n /\ 0 <= n < sb_size x /\ used x v n = true /\ n <> 1.
Proof.
  intros [Hn Hu]. pose proof (nmeta_pos _ _ _ _ Hly). split_and!; try done; try lia.
  eapply data_not_bitmap; [done|lia].
Qed.

Lemma data_range v n : data_block v n -> wr n /\ 0 <= n < dsz.
Proof.
  intros [Hn _]. pose proof (nmeta_pos _ _ _ _ Hly).
  destruct Hly as [_ Hs Hni Hi Hb Hmm Hwr]. split; [|lia]. apply Hwr. unfold BPB, IPB in *. zlia.
Qed.

Lemma held_safe_insert v H j n :
  held_safe x v H -> data_block v n -> held_safe x v (<[j := n]> H).
Proof. intros Hs Hn i m [[<- <-]|[_ Hi]]%lookup_insert_Some; [by apply used_data|by eapply Hs]. Qed.

(** Writing a data block does not touch the bitmap. *)
Lemma write_used v n d b : data_block v n -> 0 <= b < sb_size x ->
  used x (<[n := d]> v) b = used x v b.
Proof. intros Hn Hb. apply (used_insert _ _ _ _ Hly); [by apply (used_data v)|done]. Qed.

Lemma write_data v n d b : data_block v n -> data_block v b -> data_block (<[n := d]> v) b.
Proof.
  intros Hn [Hb Hu]. split; [done|]. rewrite write_used; [done|done|].
  pose proof (nmeta_pos _ _ _ _ Hly). lia.
Qed.

Lemma write_meta v n d : data_block v n -> meta_ok v -> meta_ok (<[n := d]> v).
Proof.
  intros Hn [Hs Hu]. pose proof (used_data _ _ Hn) as (_ & _ & _ & H1). split.
  - by rewrite fn_lookup_insert_ne.
  - intros b Hb. rewrite write_used; [auto|done|]. destruct Hly. lia.
Qed.

Lemma write_nfree v n d : data_block v n -> nfree x (<[n := d]> v) = nfree x v.
Proof.
  intros Hn. unfold nfree. f_equal. apply filter_ext_in. intros b Hb%elem_of_seqZ.
  rewrite write_used; [done|done|lia].
Qed.

Lemma grown_indirect v i k t :
  ino_ok v i -> meta_ok v -> first_free x v t -> block_ok (v (BBLOCK t x)) -> 12 <= k < MAXBLK ->
  let n := addr NDIRECT i in
  n <> 0 -> block_ok (v n) -> blk v i k = 0 ->
  let v1 := alloc_view x v t in
  grown v (<[n := put_word (Z.to_nat (4 * (k - 12))) t (v1 n)]> v1) i i k t.
Proof.
  intros Hi Hm Hff Hb Hk n Hn Hbn H0 v1.
  pose proof (first_free_fresh _ _ _ _ Hly _ _ _ Hi Hm Hff) as Hfr.
  pose proof (alloc_new _ _ _ _ Hly v t Hm Hff Hb) as [Hnew Hz].
  pose proof (io_ind _ _ _ _ Hi Hn) as Hnd. fold n in Hnd.
  assert (Hnd1 : data_block v1 n) by (by eapply alloc_data).
  assert (Hvn : v1 n = v n) by (by eapply data_keep).
  pose proof (first_free_data _ _ _ _ Hm Hff) as Ht. pose proof (nmeta_pos _ _ _ _ Hly).
  assert (Htu : is_u32 t) by (destruct Hly; unfold is_u32; lia).
  assert (Hnt : t <> n) by (intros E; apply (proj2 (proj2 Hfr)); by rewrite E).
  assert (Hblk : forall j, 0 <= j < MAXBLK ->
    blk (<[n := put_word (Z.to_nat (4 * (k - 12))) t (v1 n)]> v1) i j = if decide (j = k) then t else blk v i j).
  { intros j Hj. pose proof (blk_indirect v1 i k t j) as Hbi. cbv zeta in Hbi. fold n in Hbi.
    rewrite Hbi by (try done; by rewrite Hvn).
    case_decide; [done|]. by eapply alloc_blk. }
  assert (Hdata : forall b, data_block v b ->
    data_block (<[n := put_word (Z.to_nat (4 * (k - 12))) t (v1 n)]> v1) b).
  { intros b Hdb. apply write_data; [done|]. by eapply alloc_data. }
  split; try done.
  - by destruct i.
  - apply (ino_ok_add x nmeta v _ i _ k t); try done; [apply Hi|apply Hi|unfold MAXBLK in *; lia|].
    by apply write_data.
  - apply write_meta; [done|]. by eapply alloc_view_meta.
  - rewrite Hblk by lia. by rewrite decide_True.
  - apply Hfr.
  - intros j Hj Hne. rewrite Hblk by lia. by rewrite decide_False.
  - intros _. split; [by rewrite fn_lookup_insert_ne|]. intros [_ Hu].
    destruct Hff as (_ & Hf & _). congruence.
  - intros b Hnb Hbd Hbn'. rewrite fn_lookup_insert_ne by (intros E; by apply (Hbn' Hn)). eapply alloc_keep; try done.
    intros ->. destruct Hbd as [|[_ Hu]]; [lia|]. destruct Hff as (_ & Hf & _). congruence.
  - by left.
  - rewrite write_nfree by done. rewrite (alloc_nfree _ _ _ _ Hly v t) by done. fold v1. lia.
Qed.

Lemma wp_bmap_indirect L v H ic ip k s :
  FT L v H ic x s -> let i := ic ip in let n := addr NDIRECT i in
  ino_ok v i -> meta_ok v -> held_safe x v H -> n <> 0 -> (forall j, H !! j <> Some n) ->
  12 <= k < MAXBLK -> (0 < nfree x v)%nat ->
  (base.size L + base.size H + 3 < NBUF)%nat -> (base.size L + 2 < cap)%nat ->
  wp (bmap_indirect ip n (k - 12)) (fun a s' => exists L' v',
    FT L' v' H ic x s' /\ grown v v' i i k a /\ logs L L' i a /\
    (nfree x v <= nfree x v' + 1)%nat) s.
Proof.
  intros HT i n Hi Hm Hh Hn Hnh Hk Hfree Hr Hc. unfold bmap_indirect.
  pose proof (io_ind _ _ _ _ Hi Hn) as Hnd. fold n in Hnd.
  assert (0 <= n < dsz) by (by apply (data_range v)).
  wp_call FT_ino; [done|]. intros ? ? [-> ->]. fold i. rewrite (io_dev _ _ _ _ Hi).
  wp_call FT_bread; [done|done|done|right; lia|]. intros bp s1 [Hbp H1].
  wp_call FT_data; [done|apply lookup_insert_eq|]. intros ? ? [-> ->]. cbv zeta.
  assert (Hent : get_word (Z.to_nat (4 * (k - 12))) (v n) = blk v i k).
  { unfold blk. fold n. rewrite (proj2 (Z.ltb_ge k 12)), (proj2 (Z.eqb_neq n 0)) by (done || lia). done. }
  rewrite Hent. destruct (Z.eqb_spec (blk v i k) 0) as [E|E].
  - destruct (first_free_ex _ _ Hfree) as [t Hff].
    assert (Hb : block_ok (v (BBLOCK t x))) by (eapply bitmap_ok; [exact HT|apply Hff]).
    rewrite !bind_assoc_wp. wp_call wp_balloc; [done|done|done|by apply held_safe_insert|done| |lia|].
    { rewrite map_size_insert_None by done. lia. }
    intros ? s2 [-> H2]. rewrite bind_assoc_wp.
    wp_call FT_data; [done|apply lookup_insert_eq|]. intros ? ? [-> ->]. rewrite bind_assoc_wp.
    pose proof (size_alloc_le t L) as Hsz.
    wp_call FT_write; [done|apply lookup_insert_eq| |by apply (data_range v)|lia|].
    { apply block_ok_put_word; [unfold BSIZE, MAXBLK, MAXFILE in *; lia|].
      eapply FT_view; [exact H2|done]. }
    intros [] s3 H3. apply wp_bind, wp_ret.
    wp_call FT_brelse; [done|apply lookup_insert_eq|]. intros [] s4 H4. apply wp_ret.
    rewrite delete_insert_id in H4 by done. eexists _, _. split; [exact H4|]. split_and!.
    + apply grown_indirect; try done. by eapply FT_view.
    + unfold logs, ind_set. fold n. rewrite (proj2 (Z.eqb_neq n 0)) by done. set_solver.
    + rewrite write_nfree by (eapply alloc_data; done). rewrite (alloc_nfree _ _ _ _ Hly v t) by done. lia.
  - apply wp_bind, wp_ret. wp_call FT_brelse; [done|apply lookup_insert_eq|]. intros [] s4 H4. apply wp_ret.
    rewrite delete_insert_id in H4 by done. exists L, v. split; [exact H4|]. split_and!; [|set_solver|lia].
    by apply grown_refl.
Qed.

(** A fresh indirect block followed by a fresh entry. *)
Lemma grown_both v v2 i k t a :
  ino_ok v i -> meta_ok v -> first_free x v t -> block_ok (v (BBLOCK t x)) -> 12 <= k < MAXBLK ->
  addr NDIRECT i = 0 ->
  let v1 := alloc_view x v t in let i1 := set_addr NDIRECT t i in
  grown v1 v2 i1 i1 k a -> (nfree x v1 <= nfree x v2 + 1)%nat -> grown v v2 i i1 k a.
Proof.
  intros Hi Hm Hff Hb Hk Ha v1 i1 [] Hfree.
  pose proof (alloc_new _ _ _ _ Hly v t Hm Hff Hb) as [Hnew Hz].
  pose proof (first_free_fresh _ _ _ _ Hly _ _ _ Hi Hm Hff) as (Ht0 & _ & _).
  pose proof (first_free_data _ _ _ _ Hm Hff) as Ht.
  assert (H0 : blk v i k = 0).
  { unfold blk. rewrite Ha. by destruct (Z.ltb_spec k 12); [lia|]. }
  assert (Hblk : forall j, 0 <= j -> blk v1 i1 j = blk v i j).
  { intros j Hj. unfold i1. rewrite blk_new_indirect by (try done; apply Hi). by eapply alloc_blk. }
  assert (Ha1 : addr NDIRECT i1 = t).
  { unfold i1. rewrite addr_set by (rewrite (io_len _ _ _ _ Hi); lia). by rewrite decide_True. }
  split; try done.
  - intros j Hj Hne. rewrite gw_other0 by done. apply Hblk. lia.
  - intros _. rewrite <- Hblk in H0 by lia. destruct (gw_new0 H0) as [Hza Hnd]. split; [done|].
    intros Hda. apply Hnd. by eapply alloc_data.
  - intros b Hdb. apply gw_data0. by eapply alloc_data.
  - intros n Hnb Hn _. assert (Hnt : n <> t).
    { intros ->. destruct Hn as [|[_ Hu]]; [lia|]. destruct Hff as (_ & Hf & _). congruence. }
    rewrite gw_frame0; [by eapply alloc_keep|done| |by rewrite Ha1].
    destruct Hn as [|Hn]; [by left|right]. by eapply alloc_data.
  - right. rewrite Ha1. split_and!; try done. intros [_ Hu]. destruct Hff as (_ & Hf & _). congruence.
  - rewrite (alloc_nfree _ _ _ _ Hly v t) by done. fold v1. lia.
Qed.

Lemma wp_bmap L v H ic ip k s :
  FT L v H ic x s -> let i := ic ip in
  ino_ok v i -> meta_ok v -> held_safe x v H ->
  (addr NDIRECT i <> 0 -> forall j, H !! j <> Some (addr NDIRECT i)) ->
  0 <= k < MAXBLK -> (2 <= nfree x v)%nat ->
  (base.size L + base.size H + 5 < NBUF)%nat -> (base.size L + 4 < cap)%nat ->
  wp (bmap ip k) (fun a s' => exists L' v' ic' i',
    FT L' v' H ic' x s' /\ cache_at ic ic' ip i' /\ grown v v' i i' k a /\ logs L L' i' a) s.
Proof.
  intros HT i Hi Hm Hh Hnh Hk Hfree Hr Hc. unfold bmap.
  change (Z.of_nat NDIRECT) with 12. change (Z.of_nat NINDIRECT) with 128.
  destruct (first_free_ex x v) as [t Hff]; [lia|].
  assert (Hb : block_ok (v (BBLOCK t x))) by (eapply bitmap_ok; [exact HT|apply Hff]).
  pose proof (size_alloc_le t L) as Hsz. unfold MAXBLK, MAXFILE in Hk.
  destruct (Z.ltb_spec k 12) as [Hlt|Hge].
  - destruct (decide (blk v i k = 0)) as [E|E]; assert (E' := E); unfold blk in E';
      rewrite (proj2 (Z.ltb_lt k 12) Hlt) in E'.
    + wp_call wp_bmap_new; [done|apply Hi|done|done|done|done|lia|lia|].
      intros a s1 [-> H1]. eexists _, _, _, _. split; [exact H1|]. split; [apply cache_at_alter|].
      split; [apply grown_direct; try done; lia|set_solver].
    + wp_call wp_bmap_old; [done|done|]. intros a s1 [-> ->].
      exists L, v, ic, i. split; [done|]. split; [done|]. split; [|set_solver].
      pose proof (grown_refl v i k Hi Hm E) as Hg. unfold blk in Hg.
      by rewrite (proj2 (Z.ltb_lt k 12) Hlt) in Hg.
  - cbv zeta. rewrite (proj2 (Z.ltb_lt (k - 12) 128)) by lia.
    destruct (decide (addr NDIRECT i = 0)) as [E|E].
    + wp_call wp_bmap_new; [done|apply Hi|done|done|done|done|lia|lia|].
      intros a s1 [-> H1]. destruct (cache_at_alter ic ip (set_addr NDIRECT t)) as [Hip Hoth].
      pose proof (first_free_fresh _ _ _ _ Hly _ _ _ Hi Hm Hff) as Hfr.
      pose proof (alloc_new _ _ _ _ Hly v t Hm Hff Hb) as [Hnew Hz].
      assert (Ha1 : addr NDIRECT (set_addr NDIRECT t i) = t).
      { rewrite addr_set by (rewrite (io_len _ _ _ _ Hi); lia). by rewrite decide_True. }
      assert (Hi1 : ino_ok (alloc_view x v t) (set_addr NDIRECT t i)).
      { apply (ino_ok_indirect x nmeta v _ i _ t); try done; [apply Hi|simpl; rewrite length_insert; apply Hi| |].
        - intros j Hj. rewrite blk_new_indirect by (try done; try apply Hi; try apply Hfr; lia). by eapply alloc_blk.
        - intros b. by eapply alloc_data. }
      pose proof (alloc_nfree _ _ _ _ Hly v t Hm Hff Hb) as Hnf.
      pose proof (wp_bmap_indirect ({[t]} ∪ ({[BBLOCK t x]} ∪ L)) (alloc_view x v t) H
        (alter (set_addr NDIRECT t) ip ic) ip k s1 H1) as Hbi. cbv zeta in Hbi.
      fold i in Hip. rewrite Hip, Ha1 in Hbi. eapply wp_mono.
      { apply Hbi; try done; [by eapply alloc_view_meta| |apply Hfr| |unfold MAXBLK, MAXFILE; lia|lia|lia|lia].
        - eapply held_safe_mono; [|done]. intros. by eapply alloc_used_mono.
        - intros j Hj. destruct (Hh j t Hj) as (_ & _ & Hu & _). destruct Hff as (_ & Hf & _). congruence. }
      intros a s2 (L' & v' & H2 & Hg & HL & Hnf'). eexists L', v', _, _.
      split; [exact H2|]. split; [split; [exact Hip|done]|].
      split; [by eapply grown_both; try done; unfold MAXBLK, MAXFILE; lia|].
      unfold logs, ind_set in *. rewrite Ha1, (proj2 (Z.eqb_neq t 0)) in * by apply Hfr. set_solver.
    + wp_call wp_bmap_old; [done|done|]. intros a s1 [-> ->]. fold i.
      wp_call wp_bmap_indirect; try done; try lia; [by apply Hnh|unfold MAXBLK, MAXFILE; lia|].
      intros a s2 (L' & v' & H2 & Hg & HL & _). exists L', v', ic, i. by split_and!.
Qed.
End bmap.
