(* ===== verification/FsData.v ===== *)
(** * Reading and writing file contents (fs.c: readi, writei, iupdate) *)

From S2P Require Import Prelude Params CString Spinlock Sched Ring Bio Log Crash Logop Txn Fs FsBlocks FsFile.

(** ** The bytes of a file *)

(** Byte [o]; 0 where the file has no block. *)
Definition fbyte (v : Z -> list Z) (i : inode) (o : Z) : Z :=
  let b := blk v i (o / 512) in
  if b =? 0 then 0 else default 0 (v b !! Z.to_nat (o mod 512)).

Definition file_data (v : Z -> list Z) (i : inode) : list Z := fbyte v i <$> seqZ 0 (i_size i).

(** The file has a block for every byte below its size. *)
Definition no_holes (v : Z -> list Z) (i : inode) : Prop :=
  0 <= i_size i <= MAXBLK * 512 /\ forall k, 0 <= k -> k * 512 < i_size i -> blk v i k <> 0.

Definition MAXOFF : Z := MAXBLK * 512.

Lemma slice_fbyte v i off m :
  0 <= off -> 0 <= m -> off mod 512 + m <= 512 -> blk v i (off / 512) <> 0 ->
  block_ok (v (blk v i (off / 512))) ->
  slice (Z.to_nat (off mod 512)) (Z.to_nat m) (v (blk v i (off / 512))) = fbyte v i <$> seqZ off m.
Proof.
  intros Ho Hm Hfit Hb [Hl _]. assert (BSIZE = 512%nat) as HB by done.
  apply list_eq_same_length with (Z.to_nat m).
  - by rewrite length_fmap, length_seqZ.
  - rewrite length_slice; [done|zlia].
  - intros k y z Hk Hy Hz. unfold slice in Hy. rewrite lookup_take_lt, lookup_drop in Hy by done.
    apply list_lookup_fmap_Some in Hz as (o & -> & Hoo). apply lookup_seqZ in Hoo as [-> _].
    unfold fbyte. replace ((off + Z.of_nat k) / 512) with (off / 512) by zlia.
    rewrite (proj2 (Z.eqb_neq _ 0) Hb).
    replace (Z.to_nat ((off + Z.of_nat k) mod 512)) with (Z.to_nat (off mod 512) + k)%nat by zlia.
    by rewrite Hy.
Qed.

Section data.
Context {dsz : Z} {cap : nat} {wr : Z -> Prop} {T TL} {TS : TxnStore dsz cap wr T TL}.
Context (x : superblock) (nmeta : Z).
Hypothesis Hly : layout dsz wr x nmeta.
Notation FT := (FT (T := T)).
Notation ino_ok := (ino_ok x nmeta).
Notation data_block := (data_block x nmeta).
Notation meta_ok := (meta_ok x nmeta).
Notation grown := (grown x nmeta).

(** No buffer of the file is held. *)
Definition file_free (v : Z -> list Z) (i : inode) (H : gmap nat Z) : Prop :=
  forall j, (forall k, 0 <= k < MAXBLK -> blk v i k <> 0 -> H !! j <> Some (blk v i k)) /\
    (addr NDIRECT i <> 0 -> H !! j <> Some (addr NDIRECT i)).

(** [bmap] of a block that the file has. *)
Lemma wp_bmap_found L v H ic ip k s :
  FT L v H ic x s -> let i := ic ip in
  ino_ok v i -> file_free v i H -> 0 <= k < MAXBLK -> blk v i k <> 0 ->
  (base.size L + base.size H < NBUF)%nat ->
  wp (bmap ip k) (fun a s' => a = blk v i k /\ FT L v H ic x s') s.
Proof.
  intros HT i Hi Hfree Hk Hb Hr. unfold bmap.
  change (Z.of_nat NDIRECT) with 12. change (Z.of_nat NINDIRECT) with 128. unfold blk in *.
  destruct (Z.ltb_spec k 12) as [Hlt|Hge].
  { wp_call wp_bmap_old; [done|done|]. intros a s1 [-> ->]. done. }
  destruct (Z.eqb_spec (addr NDIRECT i) 0) as [|Hn]; [done|]. unfold MAXBLK, MAXFILE in Hk.
  cbv zeta. rewrite (proj2 (Z.ltb_lt (k - 12) 128)) by lia.
  wp_call wp_bmap_old; [done|done|]. intros a s1 [-> ->]. fold i.
  pose proof (data_range _ _ Hly _ _ (io_ind _ _ _ _ Hi Hn)) as [_ Hrange].
  unfold bmap_indirect. wp_call FT_ino; [done|]. intros ? ? [-> ->]. fold i. rewrite (io_dev _ _ _ _ Hi).
  wp_call FT_bread; [done|done|intros j; by apply (Hfree j)|by right|]. intros bp s1 [Hbp H1].
  wp_call FT_data; [done|apply lookup_insert_eq|]. intros ? ? [-> ->]. cbv zeta.
  rewrite (proj2 (Z.eqb_neq _ 0) Hb). apply wp_bind, wp_ret.
  wp_call FT_brelse; [done|apply lookup_insert_eq|]. intros [] s4 H4. apply wp_ret.
  by rewrite delete_insert_id in H4.
Qed.

(** ** readi *)

Lemma wp_readi_loop L v H ic ip n : forall fuel tot off s,
  FT L v H ic x s -> let i := ic ip in
  ino_ok v i -> file_free v i H -> (base.size L + base.size H < NBUF)%nat ->
  0 <= off -> 0 <= tot <= n -> n - tot <= Z.of_nat fuel -> off + (n - tot) <= MAXOFF ->
  (forall o, off <= o < off + (n - tot) -> blk v i (o / 512) <> 0) ->
  wp (readi_loop fuel ip tot n off)
    (fun l s' => l = (fbyte v i <$> seqZ off (n - tot)) /\ FT L v H ic x s') s.
Proof.
  induction fuel as [|fuel IH]; intros tot off s HT i Hi Hfree Hr Ho Ht Hf Hmax Hhole; cbn [readi_loop].
  { apply wp_ret. replace (n - tot) with 0 by lia. done. }
  change (Z.of_nat BSIZE) with 512. unfold MAXOFF, MAXBLK, MAXFILE in Hmax.
  destruct (Z.ltb_spec tot n) as [Hlt|Hge]; simpl negb; cbv iota.
  2:{ apply wp_ret. replace (n - tot) with 0 by lia. done. }
  set (m := Z.min (n - tot) (512 - off mod 512)).
  assert (Hm : 0 < m /\ off mod 512 + m <= 512 /\ m <= n - tot) by (subst m; zlia).
  assert (Hk : 0 <= off / 512 < MAXBLK) by (unfold MAXBLK, MAXFILE; zlia).
  assert (Hb : blk v i (off / 512) <> 0) by (apply Hhole; lia).
  wp_call wp_bmap_found; [done|done|done|done|done|done|]. intros a s1 [-> H1]. fold i.
  destruct (data_range _ _ Hly _ _ (io_data _ _ _ _ Hi _ Hk Hb)) as [_ Hrange].
  wp_call FT_ino; [done|]. intros ? ? [-> ->]. fold i. rewrite (io_dev _ _ _ _ Hi).
  wp_call FT_bread; [done|done|intros j; by apply (Hfree j)|by right|]. intros bp s2 [Hbp H2].
  wp_call FT_data; [done|apply lookup_insert_eq|]. intros ? ? [-> ->].
  wp_call FT_brelse; [done|apply lookup_insert_eq|]. intros [] s3 H3. rewrite delete_insert_id in H3 by done.
  eapply wp_seq.
  { apply (IH (tot + m) (off + m) s3); try done; try lia.
    - unfold MAXOFF, MAXBLK, MAXFILE. lia.
    - intros o Hoo. apply Hhole. lia. }
  intros l s4 [-> H4]. apply wp_ret. split; [|done]. fold i.
  rewrite slice_fbyte by (try done; try lia; by eapply FT_view).
  rewrite <- fmap_app. f_equal. replace (n - tot) with (m + (n - (tot + m))) by lia.
  rewrite seqZ_app by lia. done.
Qed.

Section readi.
Context (dev_read : Z -> option (nat -> Z -> M fs_st (Z * list Z))).

Lemma wp_readi L v H ic ip off n s :
  FT L v H ic x s -> let i := ic ip in
  ino_ok v i -> file_free v i H -> (base.size L + base.size H < NBUF)%nat -> no_holes v i ->
  i_type i <> T_DEV -> is_u32 off -> is_u32 n ->
  wp (readi dev_read ip off n) (fun r s' => FT L v H ic x s' /\
    r = if (i_size i <? off) || (4294967296 <=? off + n) then (-1, [])
        else let k := Z.min n (i_size i - off) in (k, slice (Z.to_nat off) (Z.to_nat k) (file_data v i))) s.
Proof.
  intros HT i Hi Hfree Hr [Hsz Hholes] Ht Ho Hn. unfold readi.
  wp_call FT_ino; [done|]. intros ? ? [-> ->]. fold i. rewrite (proj2 (Z.eqb_neq _ _) Ht).
  assert (E : (u32 (off + n) <? off) = (4294967296 <=? off + n)) by zlia. rewrite E.
  destruct (_ || _) eqn:Eb; [by apply wp_ret|]. cbv zeta.
  assert (E2 : (if i_size i <? u32 (off + n) then i_size i - off else n) = Z.min n (i_size i - off)).
  { rewrite u32_small by (unfold is_u32 in *; lia). destruct (Z.ltb_spec (i_size i) (off + n)); lia. }
  rewrite E2. set (k := Z.min n (i_size i - off)). unfold is_u32 in *.
  assert (Hk : 0 <= k /\ off + k <= i_size i) by (subst k; lia).
  wp_call wp_readi_loop; try done; try lia; [unfold MAXOFF; lia| |].
  { intros o Hoo. apply Hholes; zlia. }
  intros l s1 [-> H1]. apply wp_ret. split; [done|]. f_equal. fold i.
  unfold file_data, slice. rewrite <- fmap_drop, <- fmap_take. f_equal. rewrite Z.sub_0_r.
  apply list_eq. intros j. destruct (decide (j < Z.to_nat k)%nat).
  - rewrite lookup_take_lt, lookup_drop by lia. rewrite !lookup_seqZ_lt by lia. f_equal. lia.
  - rewrite lookup_take_ge by lia. by rewrite lookup_seqZ_ge by lia.
Qed.
End readi.

(** ** writei *)

(** Block [b] has nothing to do with the file: metadata other than the bitmap,
    or a data block of another file. *)
Definition foreign (v : Z -> list Z) (i : inode) (b : Z) : Prop :=
  ~ is_bitmap x b /\
  (b < nmeta \/ data_block v b /\ (forall k, 0 <= k < MAXBLK -> blk v i k <> b) /\ addr NDIRECT i <> b).

(** The bytes [src] have been stored from [off] on. *)
Record written (v v' : Z -> list Z) (i i' : inode) (off : Z) (src : list Z) : Prop := {
  wn_inode : i' = set_i_addrs (i_addrs i') i;
  wn_ok : ino_ok v' i';
  wn_meta : meta_ok v';
  wn_bytes : forall o, 0 <= o < MAXOFF -> fbyte v' i' o =
    if decide (off <= o < off + Z.of_nat (length src))
    then default 0 (src !! Z.to_nat (o - off)) else fbyte v i o;
  wn_blk : forall k, 0 <= k < MAXBLK ->
    blk v i k <> 0 \/ (exists o, off <= o < off + Z.of_nat (length src) /\ o / 512 = k) ->
    blk v' i' k <> 0;
  wn_foreign : forall b, foreign v i b -> v' b = v b /\ foreign v' i' b;
  wn_data : forall b, data_block v b -> data_block v' b }.

Section grown.
Context (v v' : Z -> list Z) (i i' : inode) (k a : Z).
Hypothesis Hi : ino_ok v i.
Hypothesis Hg : grown v v' i i' k a.
Hypothesis Hk : 0 <= k < MAXBLK.

(** The blocks of the grown file are old or were free. *)
Lemma grown_blk j : 0 <= j < MAXBLK -> blk v' i' j <> 0 ->
  blk v' i' j = blk v i j \/ ~ data_block v (blk v' i' j).
Proof.
  intros Hj Hnz. destruct (decide (j = k)) as [->|]; [|left; by apply (gw_other _ _ _ _ _ _ _ _ Hg)].
  rewrite (gw_at _ _ _ _ _ _ _ _ Hg). destruct (decide (blk v i k = 0)) as [E|E].
  - right. by apply (gw_new _ _ _ _ _ _ _ _ Hg).
  - left. by apply (gw_old _ _ _ _ _ _ _ _ Hg).
Qed.

Lemma grown_fbyte o : 0 <= o < MAXOFF -> fbyte v' i' o = fbyte v i o.
Proof.
  intros Ho. assert (Hj : 0 <= o / 512 < MAXBLK) by (unfold MAXOFF, MAXBLK, MAXFILE in *; zlia).
  unfold fbyte. set (j := o / 512) in *. destruct (decide (blk v i j = 0)) as [E|E].
  - rewrite E. simpl. destruct (decide (j = k)) as [Ejk|Hne].
    + rewrite Ejk, (gw_at _ _ _ _ _ _ _ _ Hg), (proj2 (Z.eqb_neq a 0)) by apply Hg.
      rewrite (proj1 (gw_new _ _ _ _ _ _ _ _ Hg ltac:(by rewrite <- Ejk))).
      unfold zeros. destruct (replicate BSIZE 0 !! _) eqn:El; [|done].
      by apply lookup_replicate in El as [-> _].
    + by rewrite (gw_other _ _ _ _ _ _ _ _ Hg), E.
  - assert (blk v' i' j = blk v i j) as ->.
    { destruct (decide (j = k)) as [->|]; [|by apply (gw_other _ _ _ _ _ _ _ _ Hg)].
      rewrite (gw_at _ _ _ _ _ _ _ _ Hg). by apply (gw_old _ _ _ _ _ _ _ _ Hg). }
    rewrite (gw_frame _ _ _ _ _ _ _ _ Hg); [done| | |intros; by apply (io_sep _ _ _ _ Hi)].
    + by apply (used_data _ _ Hly v), (io_data _ _ _ _ Hi).
    + right. by apply (io_data _ _ _ _ Hi).
Qed.

Lemma grown_foreign b : foreign v i b -> v' b = v b /\ foreign v' i' b.
Proof.
  intros (Hnb & Hb). split.
  { apply (gw_frame _ _ _ _ _ _ _ _ Hg); [done|naive_solver|].
    destruct Hb as [Hb|(_ & _ & Hn)]; [|done]. intros E0 ->. destruct (io_ind _ _ _ _ Hi E0). lia. }
  split; [done|]. destruct Hb as [Hb|(Hd & Hf & Hn)]; [by left|right].
  split; [by apply (gw_data _ _ _ _ _ _ _ _ Hg)|]. split.
  - intros j Hj E. destruct (decide (blk v' i' j = 0)) as [E0|E0].
    + destruct Hd as [? _]. pose proof (nmeta_pos _ _ _ _ Hly). lia.
    + destruct (grown_blk j Hj E0) as [E1|E1]; [by apply (Hf j Hj); congruence|congruence].
  - intros E. destruct (gw_ind _ _ _ _ _ _ _ _ Hg) as [E1|(_ & _ & E1)]; congruence.
Qed.

Lemma grown_held H : held_safe x v H -> held_safe x v' H.
Proof.
  intros Hh j n Hj. destruct (Hh j n Hj) as (Hnb & Hr & Hu & H1). split_and!; try done; try lia.
  destruct (decide (n < nmeta)); [apply (mo_used _ _ _ (gw_meta _ _ _ _ _ _ _ _ Hg)); lia|].
  apply (gw_data _ _ _ _ _ _ _ _ Hg). split; [lia|done].
Qed.

Lemma grown_file_free H : held_safe x v H -> file_free v i H -> file_free v' i' H.
Proof.
  intros Hh Hf j. assert (Hold : forall b, data_block v' b -> H !! j = Some b -> data_block v b).
  { intros b [Hb _] Hj. destruct (Hh j b Hj) as (_ & _ & Hu & _). done. }
  split.
  - intros m Hm Hnz Hj. pose proof (io_data _ _ _ _ (gw_ok _ _ _ _ _ _ _ _ Hg) m Hm Hnz) as Hd.
    destruct (grown_blk m Hm Hnz) as [E|E]; [|by apply E, Hold].
    apply (proj1 (Hf j) m Hm); congruence.
  - intros Hnz Hj. pose proof (io_ind _ _ _ _ (gw_ok _ _ _ _ _ _ _ _ Hg) Hnz) as Hd.
    destruct (gw_ind _ _ _ _ _ _ _ _ Hg) as [E|(_ & _ & E)]; [|by apply E, Hold].
    apply (proj2 (Hf j)); congruence.
Qed.

Lemma grown_written off : meta_ok v -> written v v' i i' off [].
Proof.
  intros Hm. split; try apply Hg.
  - intros o Ho. rewrite decide_False by (simpl; lia). by apply grown_fbyte.
  - intros j Hj [Hb|(o & Ho & _)]; [|simpl in *; lia]. destruct (decide (j = k)) as [->|].
    + rewrite (gw_at _ _ _ _ _ _ _ _ Hg). apply Hg.
    + by rewrite (gw_other _ _ _ _ _ _ _ _ Hg).
  - intros b. apply grown_foreign.
Qed.
End grown.

(** One [memmove] into a block of the file. *)
Lemma written_block v i k p d :
  ino_ok v i -> meta_ok v -> 0 <= k < MAXBLK -> blk v i k <> 0 ->
  0 <= p -> p + Z.of_nat (length d) <= 512 -> length (v (blk v i k)) = 512%nat ->
  written v (<[blk v i k := splice (Z.to_nat p) d (v (blk v i k))]> v) i i (k * 512 + p) d.
Proof.
  intros Hi Hm Hk Hb Hp Hfit Hlen. set (a := blk v i k) in *.
  pose proof (io_data _ _ _ _ Hi k Hk Hb) as Ha. fold a in Ha.
  set (v' := <[a := splice (Z.to_nat p) d (v a)]> v).
  assert (Hn : addr NDIRECT i <> 0 -> v' (addr NDIRECT i) = v (addr NDIRECT i)).
  { intros Hn. apply fn_lookup_insert_ne. by apply (io_sep _ _ _ _ Hi). }
  assert (Hblk : forall j, blk v' i j = blk v i j) by (intros j; by apply blk_ext).
  assert (Hdata : forall b, data_block v b -> data_block v' b) by (intros b; by apply (write_data _ _ Hly)).
  split; try done.
  - by destruct i.
  - by apply (ino_ok_view x nmeta v).
  - by apply (write_meta _ _ Hly).
  - intros o Ho. assert (Hj : 0 <= o / 512 < MAXBLK) by (unfold MAXOFF, MAXBLK, MAXFILE in *; zlia).
    unfold fbyte. rewrite Hblk. destruct (decide (o / 512 = k)) as [E|E].
    + rewrite E. fold a. rewrite (proj2 (Z.eqb_neq a 0) Hb). unfold v'. rewrite fn_lookup_insert.
      rewrite lookup_splice by lia.
      destruct (decide (Z.to_nat p <= Z.to_nat (o mod 512) < Z.to_nat p + length d)%nat).
      * rewrite decide_True by zlia. do 2 f_equal. zlia.
      * rewrite decide_False by zlia. done.
    + rewrite decide_False by zlia. destruct (Z.eqb_spec (blk v i (o / 512)) 0); [done|].
      unfold v'. rewrite fn_lookup_insert_ne; [done|]. intros E'. apply E. symmetry.
      by apply (io_inj _ _ _ _ Hi).
  - intros j Hj [Hnz|(o & Ho & Eo)]; rewrite Hblk; [done|]. replace j with k by zlia. done.
  - intros b (Hnb & Hf). assert (Hba : b <> a).
    { intros ->. destruct Hf as [Hf|(_ & Hf & _)]; [destruct Ha; lia|by apply (Hf k)]. }
    split; [by apply fn_lookup_insert_ne|]. split; [done|].
    destruct Hf as [Hf|(Hd & Hf & Hn')]; [by left|right]. split_and!; [auto| |done].
    intros j Hj. rewrite Hblk. auto.
Qed.

Lemma written_trans v v1 v2 i i1 i2 off s1 s2 :
  written v v1 i i1 off s1 -> written v1 v2 i1 i2 (off + Z.of_nat (length s1)) s2 ->
  written v v2 i i2 off (s1 ++ s2).
Proof.
  intros [] []. split; try done.
  - rewrite wn_inode1, wn_inode0. done.
  - intros o Ho. rewrite wn_bytes1, wn_bytes0 by done. rewrite length_app.
    destruct (decide (off + Z.of_nat (length s1) <= o < off + Z.of_nat (length s1) + Z.of_nat (length s2))).
    + rewrite decide_True by lia. rewrite lookup_app_r by lia. do 2 f_equal. lia.
    + destruct (decide (off <= o < off + Z.of_nat (length s1))).
      * rewrite decide_True by lia. by rewrite lookup_app_l by lia.
      * by rewrite decide_False by lia.
  - intros k Hk [Hb|(o & Ho & E)]; apply wn_blk1; [done|left; apply wn_blk0; auto|done|].
    rewrite length_app in Ho.
    destruct (decide (o < off + Z.of_nat (length s1))).
    + left. apply wn_blk0; [done|]. right. exists o. split; [lia|done].
    + right. exists o. split; [lia|done].
  - intros b Hb. destruct (wn_foreign0 b Hb) as [E1 Hf1]. destruct (wn_foreign1 b Hf1) as [E2 Hf2].
    split; [congruence|done].
  - auto.
Qed.

(** The number of blocks that [r] bytes from [off] touch. *)
Definition nblks (off r : Z) : Z := if r <=? 0 then 0 else (off + r + 511) / 512 - off / 512.

(** The logged blocks, with room for the indirect block. *)
Definition weight (L : gset Z) (i : inode) : nat :=
  (base.size (L ∪ ind_set x i) + if (addr NDIRECT i =? 0)%Z then 2 else 0)%nat.

Lemma weight_size L i : (base.size L <= weight L i)%nat.
Proof.
  unfold weight. assert (base.size L <= base.size (L ∪ ind_set x i))%nat; [|lia].
  apply subseteq_size, union_subseteq_l.
Qed.

Lemma size_union_le (A B : gset Z) : (base.size (A ∪ B) <= base.size A + base.size B)%nat.
Proof.
  rewrite size_union_alt. assert (base.size (B ∖ A) <= base.size B)%nat; [|lia].
  by apply subseteq_size, subseteq_difference_l.
Qed.

Lemma size_pair_le (a b : Z) : (base.size ({[a; b]} : gset Z) <= 2)%nat.
Proof. pose proof (size_union_le {[a]} {[b]}). rewrite !size_singleton in *. lia. Qed.

Lemma weight_logs v v' i i' k a L L' :
  grown v v' i i' k a -> logs x L L' i' a -> (weight ({[a]} ∪ L') i' <= weight L i + 2)%nat.
Proof.
  intros Hg HL. unfold weight, logs in *.
  pose proof (size_pair_le a (BBLOCK a x)) as H2.
  assert (Hsub : {[a]} ∪ L' ∪ ind_set x i' ⊆ (L ∪ ind_set x i') ∪ {[a; BBLOCK a x]}) by set_solver.
  apply subseteq_size in Hsub.
  pose proof (size_union_le (L ∪ ind_set x i') {[a; BBLOCK a x]}) as H3.
  destruct (gw_ind _ _ _ _ _ _ _ _ Hg) as [E|(E1 & E2 & _)].
  - unfold ind_set in *. rewrite E in *. lia.
  - rewrite E1, (proj2 (Z.eqb_neq _ 0) E2). simpl.
    pose proof (size_union_le L (ind_set x i')) as H4.
    unfold ind_set in *. rewrite E1, (proj2 (Z.eqb_neq _ 0) E2) in *. simpl.
    pose proof (size_pair_le (addr NDIRECT i') (BBLOCK (addr NDIRECT i') x)).
    rewrite (union_empty_r_L L). lia.
Qed.

Lemma nblks_step off r :
  0 <= off -> 0 < r -> let m := Z.min r (512 - off mod 512) in
  nblks off r = 1 + nblks (off + m) (r - m).
Proof.
  intros Ho Hr m. subst m. unfold nblks. rewrite (proj2 (Z.leb_gt r 0)) by lia.
  destruct (Z.leb_spec (r - Z.min r (512 - off mod 512)) 0); zlia.
Qed.

Lemma written_nil v i off : ino_ok v i -> meta_ok v -> written v v i i off [].
Proof.
  intros Hi Hm. split; try done; [by destruct i| |].
  - intros o _. by rewrite decide_False by (simpl; lia).
  - intros k _ [?|(o & ? & _)]; [done|simpl in *; lia].
Qed.

Lemma written_held v v' i i' off src H : written v v' i i' off src -> held_safe x v H -> held_safe x v' H.
Proof.
  intros Hw Hh j n Hj. destruct (Hh j n Hj) as (Hnb & Hr & Hu & H1). split_and!; try done; try lia.
  destruct (decide (n < nmeta)); [apply (mo_used _ _ _ (wn_meta _ _ _ _ _ _ Hw)); lia|].
  apply (wn_data _ _ _ _ _ _ Hw). split; [lia|done].
Qed.

Lemma written_file_free v v' i off src H :
  written v v' i i off src -> (forall k, blk v' i k = blk v i k) -> file_free v i H -> file_free v' i H.
Proof. intros Hw Hb Hf j. split; [|apply Hf]. intros k Hk. rewrite Hb. by apply (Hf j). Qed.

Lemma blk_write v i k a d : ino_ok v i -> 0 <= k < MAXBLK -> a = blk v i k -> a <> 0 ->
  forall j, blk (<[a := d]> v) i j = blk v i j.
Proof.
  intros Hi Hk -> Ha j. apply blk_ext. intros Hn. apply fn_lookup_insert_ne.
  by apply (io_sep _ _ _ _ Hi).
Qed.

Lemma slice_drop (tot m : nat) (src : list Z) :
  slice tot m src ++ drop (tot + m) src = drop tot src.
Proof. unfold slice. rewrite <- drop_drop. apply take_drop. Qed.

(** [bmap], which allocates only what is missing. *)
Lemma wp_bmap_any L v H ic ip k s :
  FT L v H ic x s -> let i := ic ip in
  ino_ok v i -> meta_ok v -> held_safe x v H -> file_free v i H -> 0 <= k < MAXBLK -> blk v i k <> 0 \/ (2 <= nfree x v)%nat ->
  (base.size L + base.size H + 5 < NBUF)%nat -> (base.size L + 4 < cap)%nat ->
  wp (bmap ip k) (fun a s' => exists L' v' ic' i',
    FT L' v' H ic' x s' /\ cache_at ic ic' ip i' /\ grown v v' i i' k a /\ logs x L L' i' a) s.
Proof.
  intros HT i Hi Hm Hh Hfree Hk Hor Hr Hc. destruct (decide (blk v i k = 0)) as [E|E].
  - eapply wp_mono; [eapply (wp_bmap x nmeta Hly); try done; [|by destruct Hor]|done]. intros E0 j. by apply (proj2 (Hfree j)).
  - eapply wp_mono; [eapply wp_bmap_found; try done; lia|]. intros a s' [-> H']. exists L, v, ic, i.
    split; [done|]. split; [done|]. split; [by apply grown_refl|]. unfold logs. set_solver.
Qed.

(** One turn of the loop of [writei]. *)
Lemma wp_write_chunk {A} (K : M fs_st A) Q ip d H off L v ic s :
  let i := ic ip in let m := Z.of_nat (length d) in
  FT L v H ic x s -> ino_ok v i -> meta_ok v -> held_safe x v H -> file_free v i H -> bytes_ok d ->
  0 <= off / 512 < MAXBLK -> off mod 512 + m <= 512 -> blk v i (off / 512) <> 0 \/ (2 <= nfree x v)%nat ->
  (weight L i + 2 + base.size H + 5 < NBUF)%nat -> (weight L i + 2 + 4 < cap)%nat ->
  (forall L2 v2 ic1 i1 s4, FT L2 v2 H ic1 x s4 -> cache_at ic ic1 ip i1 -> written v v2 i i1 off d ->
     (weight L2 i1 <= weight L i + 2)%nat -> file_free v2 i1 H -> (nfree x v <= nfree x v2 + 2)%nat ->
     (blk v i (off / 512) <> 0 -> i1 = i) -> wp K Q s4) ->
  wp (a ← bmap ip (off / 512);
      i ← ino ip;
      bp ← fs_bread (i_dev i) a;
      b ← fs_data bp;
      fs_write bp (splice (Z.to_nat (off mod 512)) d b) ;;
      fs_brelse bp ;; K) Q s.
Proof.
  intros i m HT Hi Hm Hh Hfree Hsrc Hk Hfit Hnf Hw1 Hw2 HK. pose proof (weight_size L i) as Hwl.
  wp_call wp_bmap_any; [done|done|done|done|done|done|done|lia|lia|].
  fold i. intros a s1 (L1 & v1 & ic1 & i1 & H1 & Hc1 & Hg & HL1). assert (Hi1 := gw_ok _ _ _ _ _ _ _ _ Hg).
  assert (Ha := gw_at _ _ _ _ _ _ _ _ Hg). assert (Hnz := gw_nz _ _ _ _ _ _ _ _ Hg).
  pose proof (io_data _ _ _ _ Hi1 (off / 512) Hk) as Hda. rewrite Ha in Hda. specialize (Hda Hnz).
  destruct (data_range _ _ Hly _ _ Hda) as [Hwra Hra].
  pose proof (weight_logs _ _ _ _ _ _ _ _ Hg HL1) as Hwt.
  assert (HsL1 : (base.size L1 <= weight L i + 2)%nat).
  { pose proof (weight_size ({[a]} ∪ L1) i1). assert (base.size L1 <= base.size ({[a]} ∪ L1))%nat; [|lia].
    apply subseteq_size. set_solver. }
  pose proof (grown_file_free v v1 i i1 _ _ Hg H Hh Hfree) as Hff1.
  wp_call FT_ino; [done|]. intros ? ? [-> ->]. rewrite (proj1 Hc1), (io_dev _ _ _ _ Hi1).
  wp_call FT_bread; [done|done| |right; lia|].
  { intros j. rewrite <- Ha. apply (Hff1 j); [done|by rewrite Ha]. }
  intros bp s2 [Hbp H2]. wp_call FT_data; [done|apply lookup_insert_eq|]. intros ? ? [-> ->].
  assert (Hblka : block_ok (v1 a)) by (by eapply FT_view).
  wp_call FT_write; [done|apply lookup_insert_eq| |done|lia|].
  { split; [rewrite length_splice; [apply Hblka|rewrite (proj1 Hblka); unfold BSIZE; zlia]|].
    apply Forall_splice; [done|apply Hblka]. }
  intros [] s3 H3. wp_call FT_brelse; [done|apply lookup_insert_eq|]. intros [] s4 H4.
  rewrite delete_insert_id in H4 by done.
  pose proof (written_block v1 i1 (off / 512) (off mod 512) d Hi1 (gw_meta _ _ _ _ _ _ _ _ Hg) Hk) as Hwb.
  rewrite Ha in Hwb. replace (off / 512 * 512 + off mod 512) with off in Hwb by zlia.
  specialize (Hwb Hnz ltac:(zlia) ltac:(lia) (proj1 Hblka)).
  pose proof (grown_written v v1 i i1 _ _ Hi Hg Hk off Hm) as Hwg.
  eapply HK; [exact H4|done| |done| | |].
  - apply (written_trans _ _ _ _ _ _ _ [] _ Hwg). by rewrite Z.add_0_r.
  - eapply written_file_free; [exact Hwb|intros j; by eapply blk_write|done].
  - rewrite (write_nfree _ _ Hly) by done. apply Hg.
  - apply Hg.
Qed.

Lemma wp_writei_loop ip src H : forall fuel tot off L v ic s,
  let n := Z.of_nat (length src) in let i := ic ip in
  FT L v H ic x s -> ino_ok v i -> meta_ok v -> held_safe x v H -> file_free v i H -> bytes_ok src ->
  0 <= off -> 0 <= tot <= n -> n - tot <= Z.of_nat fuel -> off + (n - tot) <= MAXOFF ->
  let nb := Z.to_nat (nblks off (n - tot)) in
  (forall o, off <= o < off + (n - tot) -> blk v i (o / 512) <> 0) \/ (2 * nb <= nfree x v)%nat ->
  (weight L i + 2 * nb + base.size H + 5 < NBUF)%nat -> (weight L i + 2 * nb + 4 < cap)%nat ->
  wp (writei_loop fuel ip src tot n off) (fun off' s' => exists L' v' ic' i',
    off' = off + (n - tot) /\ FT L' v' H ic' x s' /\ cache_at ic ic' ip i' /\
    written v v' i i' off (drop (Z.to_nat tot) src) /\
    (weight L' i' <= weight L i + 2 * nb)%nat /\ file_free v' i' H /\ (nfree x v <= nfree x v' + 2 * nb)%nat /\
    ((forall o, off <= o < off + (n - tot) -> blk v i (o / 512) <> 0) -> i' = i)) s.
Proof.
  induction fuel as [|fuel IH]; intros tot off L v ic s n i HT Hi Hm Hh Hfree Hsrc Ho Ht Hf Hmax nb Hnf Hw1 Hw2;
    cbn [writei_loop].
  { apply wp_ret. exists L, v, ic, i. split_and!; try done; try lia.
    rewrite drop_ge by lia. by apply written_nil. }
  change (Z.of_nat BSIZE) with 512. unfold MAXOFF, MAXBLK, MAXFILE in Hmax.
  destruct (Z.ltb_spec tot n) as [Hlt|Hge]; simpl negb; cbv iota.
  2:{ apply wp_ret. exists L, v, ic, i. split_and!; try done; try lia.
      rewrite drop_ge by lia. by apply written_nil. }
  set (m := Z.min (n - tot) (512 - off mod 512)).
  assert (Hm' : 0 < m /\ off mod 512 + m <= 512 /\ m <= n - tot) by (subst m; zlia).
  pose proof (nblks_step off (n - tot) Ho ltac:(lia)) as Hnb. cbv zeta in Hnb. fold m in Hnb.
  assert (Hnb0 : 0 <= nblks (off + m) (n - tot - m)).
  { unfold nblks. destruct (Z.leb_spec (n - tot - m) 0); zlia. }
  set (d := slice (Z.to_nat tot) (Z.to_nat m) src).
  assert (Hd : length d = Z.to_nat m) by (apply length_slice; lia).
  apply (wp_write_chunk _ _ ip d H off L v ic s); try done; fold i; try lia.
  { by apply Forall_slice. } { unfold MAXBLK, MAXFILE. zlia. }
  { destruct Hnf as [Hall|]; [left; apply Hall; lia|right; lia]. }
  intros L2 v2 ic1 i1 s4 H4 Hc1 Hw12 Hwt Hff2 Hnf2 Hk12.
  pose proof (IH (tot + m) (off + m) L2 v2 ic1 s4) as IH'. cbv zeta in IH'. rewrite (proj1 Hc1) in IH'.
  replace (Z.of_nat (length src) - (tot + m)) with (n - tot - m) in IH' by lia. fold n in IH'.
  eapply wp_mono.
  { apply IH'; try done; try lia; try apply Hw12; [by apply (written_held _ _ _ _ _ _ _ Hw12)|unfold MAXOFF, MAXBLK, MAXFILE; lia|].
    destruct Hnf as [Hall|]; [left|right; lia]. intros o Hoo. assert (i1 = i) as -> by (apply Hk12, Hall; lia).
    apply (wn_blk _ _ _ _ _ _ Hw12); [unfold MAXBLK, MAXFILE; zlia|]. left. apply Hall. lia. }
  intros off' s5 (L' & v' & ic' & i' & -> & H5 & Hc5 & Hw5 & Hwt5 & Hff5 & Hnf5 & Hk5).
  exists L', v', ic', i'. split; [lia|]. split; [done|]. split; [by eapply cache_at_trans|].
  split.
  2:{ split; [lia|]. split; [done|]. split; [lia|]. intros Hall. assert (i1 = i) by (apply Hk12, Hall; lia). subst i1.
      apply Hk5. intros o Hoo. apply (wn_blk _ _ _ _ _ _ Hw12); [unfold MAXBLK, MAXFILE; zlia|].
      left. apply Hall. lia. }
  replace (off + m) with (off + Z.of_nat (length d)) in Hw5 by lia.
  pose proof (written_trans _ _ _ _ _ _ _ _ _ Hw12 Hw5) as Hfin.
  replace (Z.to_nat (tot + m)) with (Z.to_nat tot + Z.to_nat m)%nat in Hfin by lia.
  subst d. by rewrite slice_drop in Hfin.
Qed.
End data.
