(* ===== verification/FsInode.v ===== *)
(** * Inodes on disk (fs.c: iupdate, ilock's read, ialloc) and [writei]

    The 64-byte disk inode round-trips through [encode_dinode] and
    [decode_dinode]; the eight inodes of a block do not disturb each other. *)

From S2P Require Import Prelude Params CString Spinlock Sched Ring Bio Log Crash Logop Txn Fs FsBlocks FsFile FsData.

(** ** Fields *)

Section fields.
Context (off : nat) (w : Z) (d : list Z).

Lemma slice_put_word_ne o n : (off + 4 <= length d)%nat -> (o + n <= off \/ off + 4 <= o)%nat ->
  slice o n (put_word off w d) = slice o n d.
Proof. intros. unfold put_word. apply slice_splice_ne; rewrite length_le_bytes; lia. Qed.

Lemma slice_put_half_ne o n : (off + 2 <= length d)%nat -> (o + n <= off \/ off + 2 <= o)%nat ->
  slice o n (put_half off w d) = slice o n d.
Proof. intros. unfold put_half. apply slice_splice_ne; rewrite length_le_bytes; lia. Qed.

Lemma length_put_half : (off + 2 <= length d)%nat -> length (put_half off w d) = length d.
Proof. intros. unfold put_half. rewrite length_splice; [done|by rewrite length_le_bytes]. Qed.

Lemma get_put_half : (off + 2 <= length d)%nat -> get_half off (put_half off w d) = s16 w.
Proof.
  intros. unfold get_half, put_half.
  assert (Hs := slice_splice_eq off (le_bytes 2 w) d). rewrite length_le_bytes in Hs.
  rewrite Hs, le_val_le_bytes by done. change (256 ^ Z.of_nat 2) with 65536. zlia.
Qed.
End fields.

Lemma put_words_spec l : forall off d, (off + 4 * length l <= length d)%nat ->
  length (put_words off l d) = length d /\
  (forall o n, (o + n <= off \/ off + 4 * length l <= o)%nat ->
     slice o n (put_words off l d) = slice o n d) /\
  (forall k w, l !! k = Some w -> get_word (off + 4 * k) (put_words off l d) = u32 w).
Proof.
  induction l as [|w l IH]; intros off d Hl; simpl in *; [done|].
  destruct (IH (off + 4)%nat (put_word off w d)) as (Hlen & Hsl & Hget).
  { rewrite length_put_word; lia. }
  split_and!.
  - rewrite Hlen, length_put_word; lia.
  - intros o n Ho. rewrite Hsl by lia. apply slice_put_word_ne; lia.
  - intros [|k] u Hk; simpl in Hk.
    + injection Hk as ->. replace (off + _)%nat with off by lia. unfold get_word. rewrite Hsl by lia.
      fold (get_word off (put_word off u d)). apply get_put_word. lia.
    + rewrite <- (Hget k u Hk). f_equal. lia.
Qed.

Definition is_s16 (z : Z) : Prop := -32768 <= z < 32768.
Lemma s16_small z : is_s16 z -> s16 z = z.
Proof. unfold is_s16. zlia. Qed.

(** The fields of a disk inode are in range. *)
Record dinode_ok (x : dinode) : Prop := {
  do_type : is_s16 (d_type x); do_major : is_s16 (d_major x); do_minor : is_s16 (d_minor x);
  do_nlink : is_s16 (d_nlink x); do_size : is_u32 (d_size x);
  do_len : length (d_addrs x) = S NDIRECT; do_addrs : Forall is_u32 (d_addrs x) }.

(** What is read from a block is in range. *)
Lemma decode_dinode_ok off d : bytes_ok d -> dinode_ok (decode_dinode off d).
Proof.
  intros Hd. assert (Hh : forall k, is_s16 (get_half k d)) by (intros; unfold get_half, is_s16; zlia).
  assert (Hw : forall k, is_u32 (get_word k d)).
  { intros k. unfold get_word, is_u32. pose proof (le_val_range (slice k 4 d) ltac:(by apply Forall_slice)) as Hr.
    assert (Hl : (length (slice k 4 d) <= 4)%nat) by (unfold slice; rewrite length_take; lia).
    assert (256 ^ Z.of_nat (length (slice k 4 d)) <= 256 ^ 4) by (apply Z.pow_le_mono_r; lia). change (256 ^ 4) with 4294967296 in *. lia. }
  split; try apply Hh; try apply Hw; [done|].
  apply Forall_fmap, Forall_forall. intros k _. apply Hw.
Qed.

(** Lengths through nested [put_half]s. *)
Ltac half_len := first [ lia | rewrite length_put_half; half_len ].

Section codec.
Context (off : nat) (x : dinode) (d : list Z).
Hypothesis Hx : length (d_addrs x) = S NDIRECT.
Hypothesis Hoff : (off + 64 <= length d)%nat.

Definition halves : list Z :=
  put_half (off + 6) (d_nlink x) (put_half (off + 4) (d_minor x)
    (put_half (off + 2) (d_major x) (put_half off (d_type x) d))).

Lemma halves_length : length halves = length d.
Proof. unfold halves. half_len. Qed.

Lemma halves_slice o n : (o + n <= off \/ off + 8 <= o)%nat -> slice o n halves = slice o n d.
Proof.
  intros Ho. unfold halves. by rewrite !slice_put_half_ne by half_len.
Qed.

Lemma halves_get :
  get_half off halves = s16 (d_type x) /\ get_half (off + 2) halves = s16 (d_major x) /\
  get_half (off + 4) halves = s16 (d_minor x) /\ get_half (off + 6) halves = s16 (d_nlink x).
Proof.
  unfold halves. set (d1 := put_half off (d_type x) d).
  set (d2 := put_half (off + 2) (d_major x) d1). set (d3 := put_half (off + 4) (d_minor x) d2).
  assert (H1 : length d1 = length d) by (apply length_put_half; lia).
  assert (H2 : length d2 = length d) by (unfold d2; rewrite length_put_half; lia).
  assert (H3 : length d3 = length d) by (unfold d3; rewrite length_put_half; lia).
  split_and!.
  - unfold get_half. rewrite slice_put_half_ne by lia. unfold d3. rewrite slice_put_half_ne by lia.
    unfold d2. rewrite slice_put_half_ne by lia. apply get_put_half. lia.
  - unfold get_half. rewrite slice_put_half_ne by lia. unfold d3. rewrite slice_put_half_ne by lia.
    apply get_put_half. lia.
  - unfold get_half. rewrite slice_put_half_ne by lia. apply get_put_half. lia.
  - apply get_put_half. lia.
Qed.

Lemma encode_eq : encode_dinode off x d = put_words (off + 12) (d_addrs x) (put_word (off + 8) (d_size x) halves).
Proof. done. Qed.

Lemma encode_length : length (encode_dinode off x d) = length d.
Proof.
  rewrite encode_eq. destruct (put_words_spec (d_addrs x) (off + 12) (put_word (off + 8) (d_size x) halves)) as (-> & _).
  - rewrite length_put_word, halves_length, Hx; rewrite ?halves_length; unfold NDIRECT; lia.
  - rewrite length_put_word, halves_length; [done|]. rewrite halves_length. lia.
Qed.

Lemma encode_slice o n : (o + n <= off \/ off + 64 <= o)%nat ->
  slice o n (encode_dinode off x d) = slice o n d.
Proof.
  intros Ho. rewrite encode_eq.
  destruct (put_words_spec (d_addrs x) (off + 12) (put_word (off + 8) (d_size x) halves)) as (_ & Hs & _).
  { rewrite length_put_word, Hx; rewrite ?halves_length; unfold NDIRECT; lia. }
  rewrite Hs by (rewrite Hx; unfold NDIRECT; lia).
  rewrite slice_put_word_ne by (rewrite ?halves_length; lia). apply halves_slice. lia.
Qed.

Lemma encode_bytes : bytes_ok d -> bytes_ok (encode_dinode off x d).
Proof.
  intros Hd. rewrite encode_eq.
  assert (Hw : forall l o e, bytes_ok e -> bytes_ok (put_words o l e)).
  { induction l as [|w l IH]; intros o e He; simpl; [done|]. apply IH. by apply bytes_put_word. }
  apply Hw, bytes_put_word. unfold halves, put_half. repeat apply Forall_splice; try apply le_bytes_ok. done.
Qed.

Lemma decode_encode : dinode_ok x -> decode_dinode off (encode_dinode off x d) = x.
Proof.
  intros []. rewrite encode_eq.
  destruct (put_words_spec (d_addrs x) (off + 12) (put_word (off + 8) (d_size x) halves)) as (_ & Hs & Hg).
  { rewrite length_put_word, Hx; rewrite ?halves_length; unfold NDIRECT; lia. }
  set (e := put_words _ _ _) in *.
  assert (Hh : forall o, (o + 2 <= off + 8)%nat -> get_half o e = get_half o halves).
  { intros o Ho. unfold get_half. rewrite Hs by lia. rewrite slice_put_word_ne by (rewrite ?halves_length; lia). done. }
  destruct halves_get as (E0 & E2 & E4 & E6).
  unfold decode_dinode. rewrite !Hh, E0, E2, E4, E6, !s16_small by (done || lia).
  assert (get_word (off + 8) e = d_size x) as ->.
  { unfold get_word. rewrite Hs by lia. fold (get_word (off + 8) (put_word (off + 8) (d_size x) halves)).
    rewrite get_put_word by (rewrite halves_length; lia). by apply u32_small. }
  destruct x as [ty ma mi nl sz ad]. cbn [d_type d_major d_minor d_nlink d_size d_addrs] in *. f_equal. apply list_eq. intros k.
  rewrite list_lookup_fmap. destruct (ad !! k) as [w|] eqn:Ek.
  - apply lookup_lt_Some in Ek as Hk. rewrite lookup_seq_lt by (unfold NDIRECT in *; lia). cbn [fmap option_fmap option_map].
    rewrite Nat.add_0_l. f_equal. rewrite (Hg k w Ek). apply u32_small. by eapply Forall_lookup_1 in do_addrs0.
  - apply lookup_ge_None in Ek. rewrite lookup_seq_ge by (unfold NDIRECT in *; lia). done.
Qed.

Lemma decode_other off' : (off' + 64 <= off \/ off + 64 <= off')%nat ->
  decode_dinode off' (encode_dinode off x d) = decode_dinode off' d.
Proof.
  intros Ho. unfold decode_dinode, get_half, get_word. rewrite !encode_slice by lia. f_equal.
  apply list_fmap_ext. intros k j Hj. apply lookup_seq in Hj as [-> Hj].
  unfold NDIRECT in Hj. by rewrite encode_slice by lia.
Qed.
End codec.

(** ** Inode blocks *)

Section iblocks.
Context (dsz : Z) (wr : Z -> Prop) (x : superblock) (nmeta : Z).
Hypothesis Hly : layout dsz wr x nmeta.

Lemma IBLOCK_range inum : 0 <= inum < sb_ninodes x ->
  let n := IBLOCK inum x in
  n = inum / IPB + sb_inodestart x /\ 2 <= n < nmeta /\ 0 <= n < dsz /\ wr n /\ ~ is_bitmap x n.
Proof.
  intros Hi n. destruct Hly as [Hd Hs Hni Hio Hb Hm Hw]. unfold is_bitmap, IPB, BPB in *.
  assert (E : n = inum / 8 + sb_inodestart x) by (apply u32_small; unfold is_u32; zlia).
  assert (Hn : sb_inodestart x <= n < sb_bmapstart x) by zlia.
  split; [done|]. split; [zlia|]. split; [zlia|]. split; [apply Hw; zlia|]. lia.
Qed.

Lemma dinode_off_range inum : (dinode_off inum + 64 <= BSIZE)%nat.
Proof. unfold dinode_off, IPB, BSIZE. zlia. Qed.

(** Two inodes of one block have disjoint records. *)
Lemma dinode_off_apart i j : 0 <= i < sb_ninodes x -> 0 <= j < sb_ninodes x -> i <> j ->
  IBLOCK i x = IBLOCK j x ->
  (dinode_off i + 64 <= dinode_off j \/ dinode_off j + 64 <= dinode_off i)%nat.
Proof.
  intros Hi Hj Hne. destruct (IBLOCK_range i Hi) as (-> & _). destruct (IBLOCK_range j Hj) as (-> & _).
  unfold dinode_off, IPB. intros E. zlia.
Qed.
End iblocks.

Definition disk_inode (x : superblock) (v : Z -> list Z) (inum : Z) : dinode :=
  decode_dinode (dinode_off inum) (v (IBLOCK inum x)).

(** The cached inode agrees with its disk copy. *)
Definition synced (x : superblock) (v : Z -> list Z) (i : inode) : Prop :=
  disk_inode x v (i_inum i) = to_dinode i.

Section iupdate.
Context {dsz : Z} {cap : nat} {wr : Z -> Prop} {T TL} {TS : TxnStore dsz cap wr T TL}.
Context (x : superblock) (nmeta : Z).
Hypothesis Hly : layout dsz wr x nmeta.
Notation FT := (FT (T := T)).
Notation ino_ok := (ino_ok x nmeta).
Notation data_block := (data_block x nmeta).
Notation meta_ok := (meta_ok x nmeta).

(** The view after [iupdate]. *)
Definition put_inode (v : Z -> list Z) (i : inode) : Z -> list Z :=
  let n := IBLOCK (i_inum i) x in
  <[n := encode_dinode (dinode_off (i_inum i)) (to_dinode i) (v n)]> v.

Lemma wp_iupdate L v H ic ip s :
  FT L v H ic x s -> let i := ic ip in let n := IBLOCK (i_inum i) x in
  i_dev i = 1 -> 0 <= i_inum i < sb_ninodes x -> length (i_addrs i) = S NDIRECT ->
  (forall j, H !! j <> Some n) -> (base.size L + base.size H < NBUF)%nat -> (base.size L < cap)%nat ->
  wp (iupdate ip) (fun _ s' => FT ({[n]} ∪ L) (put_inode v i) H ic x s') s.
Proof.
  intros HT i n Hd Hi Hl Hh Hr Hc. destruct (IBLOCK_range _ _ _ _ Hly _ Hi) as (_ & _ & Hn & Hw & _).
  unfold iupdate. wp_call FT_ino; [done|]. intros ? ? [-> ->]. fold i. rewrite Hd.
  wp_call FT_sb; [done|]. intros ? ? [-> ->].
  wp_call FT_bread; [done|done|done|by right|]. intros bp s1 [Hbp H1].
  wp_call FT_data; [done|apply lookup_insert_eq|]. intros ? ? [-> ->].
  assert (Hblk : block_ok (v n)) by (by eapply FT_view).
  pose proof (dinode_off_range (i_inum i)) as Hoff.
  wp_call FT_write; [done|apply lookup_insert_eq| |done|done|].
  { assert (Hbl : length (v (IBLOCK (i_inum i) x)) = BSIZE) by apply Hblk.
    split; [rewrite encode_length; [done|done|by rewrite Hbl]|]. apply encode_bytes, Hblk. }
  intros [] s2 H2. wp_call FT_brelse; [done|apply lookup_insert_eq|]. intros [] s3 H3.
  by rewrite delete_insert_id in H3.
Qed.

Section put_inode.
Context (v : Z -> list Z) (i : inode).
Hypothesis Hi : 0 <= i_inum i < sb_ninodes x.
Hypothesis Hblk : block_ok (v (IBLOCK (i_inum i) x)).
Hypothesis Hlen : length (i_addrs i) = S NDIRECT.

Lemma put_inode_off : (dinode_off (i_inum i) + 64 <= length (v (IBLOCK (i_inum i) x)))%nat.
Proof. rewrite (proj1 Hblk). apply dinode_off_range. Qed.

Lemma put_inode_synced : dinode_ok (to_dinode i) -> synced x (put_inode v i) i.
Proof.
  intros Hd. unfold synced, disk_inode, put_inode. rewrite fn_lookup_insert.
  apply decode_encode; [done|apply put_inode_off|done].
Qed.

Lemma put_inode_other j : 0 <= j < sb_ninodes x -> j <> i_inum i ->
  disk_inode x (put_inode v i) j = disk_inode x v j.
Proof.
  intros Hj Hne. unfold disk_inode, put_inode.
  destruct (decide (IBLOCK j x = IBLOCK (i_inum i) x)) as [E|E].
  - rewrite E, fn_lookup_insert. apply decode_other; [done|apply put_inode_off|].
    by eapply dinode_off_apart.
  - by rewrite fn_lookup_insert_ne.
Qed.

Lemma put_inode_ne b : b <> IBLOCK (i_inum i) x -> put_inode v i b = v b.
Proof. intros. by apply fn_lookup_insert_ne. Qed.

Lemma put_inode_used b : 0 <= b < sb_size x -> used x (put_inode v i) b = used x v b.
Proof.
  intros Hb. eapply used_insert; [done| |done]. by apply (IBLOCK_range _ _ _ _ Hly).
Qed.

Lemma put_inode_nfree : nfree x (put_inode v i) = nfree x v.
Proof.
  unfold nfree. f_equal. apply filter_ext_in. intros b Hb%elem_of_seqZ. rewrite put_inode_used; [done|lia].
Qed.

Lemma put_inode_data b : data_block v b -> data_block (put_inode v i) b /\ put_inode v i b = v b.
Proof.
  intros [Hb Hu]. pose proof (nmeta_pos _ _ _ _ Hly).
  destruct (IBLOCK_range _ _ _ _ Hly _ Hi) as (_ & Hn & _).
  split; [split; [done|by rewrite put_inode_used by lia]|apply put_inode_ne; lia].
Qed.

Lemma put_inode_meta : meta_ok v -> meta_ok (put_inode v i).
Proof.
  intros [Hs Hu]. destruct (IBLOCK_range _ _ _ _ Hly _ Hi) as (_ & Hn & _). split.
  - rewrite put_inode_ne by lia. done.
  - intros b Hb. rewrite put_inode_used; [auto|]. destruct Hly. lia.
Qed.

(** Contents and maps of files do not depend on the inode blocks. *)
Lemma put_inode_file j :
  ino_ok v j -> ino_ok (put_inode v i) j /\ (forall k, blk (put_inode v i) j k = blk v j k) /\
  (forall o, 0 <= o < MAXOFF -> fbyte (put_inode v i) j o = fbyte v j o).
Proof.
  intros Hj. assert (Hn : addr NDIRECT j <> 0 -> put_inode v i (addr NDIRECT j) = v (addr NDIRECT j)).
  { intros Hn. by apply put_inode_data, Hj. }
  assert (Hb : forall k, blk (put_inode v i) j k = blk v j k) by (intros k; by apply blk_ext).
  split_and!; [|done|].
  - apply (ino_ok_view x nmeta v); [done|done|]. intros b. apply put_inode_data.
  - intros o Ho. unfold fbyte. rewrite Hb. destruct (Z.eqb_spec (blk v j (o / 512)) 0); [done|].
    by rewrite (proj2 (put_inode_data _ (io_data _ _ _ _ Hj (o / 512)
      ltac:(unfold MAXOFF, MAXBLK, MAXFILE in *; zlia) n))).
Qed.
End put_inode.

(** ** writei *)

(** The bytes of [l] with [src] stored from [off] on. *)
Definition overwrite (off : nat) (src l : list Z) : list Z :=
  take off l ++ src ++ drop (off + length src) l.

Record wrote (v v' : Z -> list Z) (i i' : inode) (off : Z) (src : list Z) : Prop := {
  wt_data : file_data v' i' = overwrite (Z.to_nat off) src (file_data v i);
  wt_inode : i' = set_i_size (Z.max (i_size i) (off + Z.of_nat (length src)))
                    (set_i_addrs (i_addrs i') i);
  wt_ok : ino_ok v' i';
  wt_meta : meta_ok v';
  wt_holes : no_holes v' i';
  wt_synced : synced x v' i';
  wt_foreign : forall b, foreign x nmeta v i b -> (b <> IBLOCK (i_inum i) x -> v' b = v b) /\ foreign x nmeta v' i' b;
  wt_free : (nfree x v <= nfree x v' + 2 * Z.to_nat (nblks off (Z.of_nat (length src))))%nat;
  wt_inodes : forall j, 0 <= j < sb_ninodes x -> j <> i_inum i ->
    disk_inode x v' j = disk_inode x v j }.

Lemma lookup_overwrite off src l k : (off <= length l)%nat ->
  overwrite off src l !! k =
    if decide (k < off)%nat then l !! k
    else if decide (k < off + length src)%nat then src !! (k - off)%nat else l !! k.
Proof.
  intros Ho. unfold overwrite. repeat case_decide.
  - rewrite lookup_app_l by (rewrite length_take; lia). by apply lookup_take_lt.
  - rewrite lookup_app_r by (rewrite length_take; lia). rewrite length_take.
    rewrite lookup_app_l by lia. f_equal. lia.
  - rewrite lookup_app_r by (rewrite length_take; lia). rewrite length_take.
    rewrite lookup_app_r by lia. rewrite lookup_drop. f_equal. lia.
Qed.

(** Byte-wise and list-wise descriptions of the contents agree. *)
Lemma file_data_overwrite v v' i i' off src :
  0 <= i_size i <= MAXOFF -> 0 <= off <= i_size i -> off + Z.of_nat (length src) <= MAXOFF ->
  i_size i' = Z.max (i_size i) (off + Z.of_nat (length src)) ->
  (forall o, 0 <= o < MAXOFF -> fbyte v' i' o =
    if decide (off <= o < off + Z.of_nat (length src))
    then default 0 (src !! Z.to_nat (o - off)) else fbyte v i o) ->
  file_data v' i' = overwrite (Z.to_nat off) src (file_data v i).
Proof.
  intros Hs Ho Hmax Hs' Hb. unfold file_data.
  assert (Hlen : length (fbyte v i <$> seqZ 0 (i_size i)) = Z.to_nat (i_size i)) by (rewrite length_fmap, length_seqZ; lia).
  apply list_eq. intros k. rewrite lookup_overwrite by lia. rewrite !list_lookup_fmap, Hs'.
  destruct (decide (k < Z.to_nat (Z.max (i_size i) (off + Z.of_nat (length src))))%nat) as [Hk|Hk].
  - rewrite lookup_seqZ_lt by lia. cbn [fmap option_fmap option_map]. rewrite Hb by lia. rewrite Z.add_0_l.
    destruct (decide (k < Z.to_nat off)%nat).
    + rewrite decide_False by lia. rewrite lookup_seqZ_lt by lia. done.
    + destruct (decide (k < Z.to_nat off + length src)%nat).
      * rewrite decide_True by lia. replace (Z.to_nat (Z.of_nat k - off)) with (k - Z.to_nat off)%nat by lia.
        destruct (lookup_lt_is_Some_2 src (k - Z.to_nat off)) as [y ->]; [lia|]. done.
      * rewrite decide_False by lia. rewrite lookup_seqZ_lt by lia. done.
  - rewrite lookup_seqZ_ge by lia. rewrite !decide_False by lia. by rewrite lookup_seqZ_ge by lia.
Qed.

Section writei.
Context (dev_write : Z -> option (nat -> list Z -> M fs_st Z)).

Definition writei_fails (i : inode) (off n : Z) : bool :=
  (i_size i <? off) || (4294967296 <=? off + n) || (MAXOFF <? off + n).

(** What [writei] needs of the file it writes. *)
Record writable (v : Z -> list Z) (i : inode) (H : gmap nat Z) : Prop := {
  wb_ok : ino_ok v i;
  wb_meta : meta_ok v;
  wb_holes : no_holes v i;
  wb_sync : synced x v i;
  wb_dinode : dinode_ok (to_dinode i);
  wb_type : i_type i <> T_DEV;
  wb_inum : 0 <= i_inum i < sb_ninodes x;
  wb_held : held_safe x v H;
  wb_free : file_free v i H;
  wb_iblock : forall j, H !! j <> Some (IBLOCK (i_inum i) x) }.

Lemma writei_refuses L v H ic ip src off s :
  FT L v H ic x s -> let i := ic ip in let n := Z.of_nat (length src) in
  i_type i <> T_DEV -> is_u32 off -> is_u32 n -> writei_fails i off n = true ->
  wp (writei dev_write ip src off) (fun r s' => r = -1 /\ s' = s) s.
Proof.
  intros HT i n Ht Ho Hn Hfail. unfold writei. wp_call FT_ino; [done|]. intros ? ? [-> ->]. fold i n.
  rewrite (proj2 (Z.eqb_neq _ _) Ht). cbv iota. change (Z.of_nat MAXFILE * Z.of_nat BSIZE) with MAXOFF.
  unfold writei_fails in Hfail. unfold is_u32 in *.
  assert (E : (u32 (off + n) <? off) = (4294967296 <=? off + n)) by zlia. rewrite E.
  destruct ((i_size i <? off) || (4294967296 <=? off + n)) eqn:Eb; [by apply wp_ret|]. rewrite u32_small by (unfold is_u32; lia).
  replace (MAXOFF <? off + n) with true by lia. by apply wp_ret.
Qed.

Lemma foreign_iblock v i j : 0 <= j < sb_ninodes x -> foreign x nmeta v i (IBLOCK j x).
Proof.
  intros Hj. destruct (IBLOCK_range _ _ _ _ Hly _ Hj) as (_ & Hn & _ & _ & Hb). split; [done|]. left. lia.
Qed.

Lemma written_inodes v v' i i' off src j :
  written x nmeta v v' i i' off src -> 0 <= j < sb_ninodes x -> disk_inode x v' j = disk_inode x v j.
Proof.
  intros Hw Hj. unfold disk_inode.
  by rewrite (proj1 (wn_foreign _ _ _ _ _ _ _ _ Hw _ (foreign_iblock v i j Hj))).
Qed.

Lemma wrote_inside v v' i off src :
  no_holes v i -> synced x v i -> 0 <= i_inum i < sb_ninodes x ->
  0 <= off <= i_size i -> off + Z.of_nat (length src) <= i_size i ->
  written x nmeta v v' i i off src -> (nfree x v <= nfree x v' + 2 * Z.to_nat (nblks off (Z.of_nat (length src))))%nat ->
  wrote v v' i i off src.
Proof.
  intros [Hs Hh] Hsy Hn Ho Hfit Hw Hnf. split; try apply Hw.
  - apply file_data_overwrite; unfold MAXOFF; [lia|lia|lia|lia|apply Hw].
  - rewrite Z.max_l by lia. by destruct i.
  - split; [done|]. intros k Hk Hks. apply (wn_blk _ _ _ _ _ _ _ _ Hw); [unfold MAXBLK, MAXFILE in *; lia|auto].
  - unfold synced. by rewrite (written_inodes _ _ _ _ _ _ _ Hw).
  - intros b Hb. destruct (wn_foreign _ _ _ _ _ _ _ _ Hw b Hb). by split.
  - done.
  - intros j Hj _. by apply (written_inodes _ _ _ _ _ _ _ Hw).
Qed.

(** The end of [writei] when the file grew to [off + n]. *)
Lemma wrote_grown v v1 i i1 off src :
  no_holes v i -> dinode_ok (to_dinode i) -> 0 <= i_inum i < sb_ninodes x -> Forall is_u32 (i_addrs i1) ->
  0 <= off <= i_size i -> i_size i < off + Z.of_nat (length src) <= MAXOFF ->
  block_ok (v1 (IBLOCK (i_inum i) x)) ->
  written x nmeta v v1 i i1 off src -> (nfree x v <= nfree x v1 + 2 * Z.to_nat (nblks off (Z.of_nat (length src))))%nat ->
  let i' := set_i_size (off + Z.of_nat (length src)) i1 in
  wrote v (put_inode v1 i') i i' off src.
Proof.
  intros [Hs Hh] Hdi Hn Hu Ho Hfit Hblk Hw Hnf i'. destruct (wn_inode _ _ _ _ _ _ _ _ Hw).
  assert (Hi1 := wn_ok _ _ _ _ _ _ _ _ Hw). assert (Ei : i1 = set_i_addrs (i_addrs i1) i) by apply Hw.
  assert (En : i_inum i' = i_inum i) by (subst i'; rewrite Ei; done).
  assert (Hi' : ino_ok v1 i') by (destruct Hi1; by split).
  assert (Hlen : length (i_addrs i') = S NDIRECT) by apply Hi'.
  rewrite <- En in Hn, Hblk.
  destruct (put_inode_file v1 i' Hn Hlen i' Hi') as (Hok & Hb & Hf).
  split.
  - apply file_data_overwrite; [unfold MAXOFF; lia|lia|lia|subst i'; simpl; lia|].
    intros o Hoo. rewrite Hf by done. exact (wn_bytes _ _ _ _ _ _ _ _ Hw o Hoo).
  - rewrite Z.max_r by lia. subst i'. simpl. by rewrite Ei.
  - done.
  - apply put_inode_meta; [done|done|apply Hw].
  - split; [subst i'; simpl; unfold MAXOFF in *; lia|]. intros k Hk Hks. rewrite Hb.
    apply (wn_blk _ _ _ _ _ _ _ _ Hw); [subst i'; simpl in *; unfold MAXOFF, MAXBLK, MAXFILE in *; lia|].
    destruct (decide (k * 512 < i_size i)); [left; auto|right]. exists (Z.max off (k * 512)).
    subst i'. simpl in Hks. split; [lia|]. assert (off <= k * 512) by lia. rewrite Z.max_r by lia. zlia.
  - apply put_inode_synced; try done. subst i'. destruct Hdi. split; simpl in *; try done; try (rewrite Ei; done).
    + unfold is_u32, MAXOFF, MAXBLK, MAXFILE in *. lia.
  - intros b Hb'. destruct (wn_foreign _ _ _ _ _ _ _ _ Hw b Hb') as [Ev [Hnb Hor]]. split.
    { intros Hne. by rewrite put_inode_ne by (by rewrite En). }
    split; [done|]. destruct Hor as [?|(Hd & Hk & Hx)]; [by left|right]. split; [by apply put_inode_data|].
    split; [|done]. intros k Hkr. rewrite Hb. by apply Hk.
  - by rewrite put_inode_nfree.
  - intros j Hj Hne. rewrite put_inode_other by (try done; by rewrite En).
    by apply (written_inodes _ _ _ _ _ _ _ Hw).
Qed.

Lemma ino_ok_u32 v i : ino_ok v i -> Forall is_u32 (i_addrs i).
Proof.
  intros Hi. apply Forall_lookup. intros k a Hk. apply lookup_lt_Some in Hk as Hlt.
  rewrite (io_len _ _ _ _ Hi) in Hlt. assert (Ha : addr k i = a) by (unfold addr; by rewrite Hk).
  destruct (decide (a = 0)) as [->|Hnz]; [unfold is_u32; lia|].
  assert (Hd : data_block v a).
  { destruct (decide (k = NDIRECT)) as [->|Hne]; [rewrite <- Ha in *; by apply Hi|].
    assert (E : blk v i (Z.of_nat k) = a).
    { unfold blk. rewrite (proj2 (Z.ltb_lt _ 12)) by (unfold NDIRECT in *; lia). by rewrite Nat2Z.id. }
    rewrite <- E in *. apply Hi; [unfold MAXBLK, MAXFILE, NDIRECT in *; lia|done]. }
  destruct (data_range _ _ Hly _ _ Hd) as [_ ?]. destruct Hly. unfold is_u32. lia.
Qed.

(** After the write the file can be written again. *)
Lemma wrote_writable v v' i i' off src H :
  wrote v v' i i' off src -> writable v i H -> held_safe x v' H -> file_free v' i' H -> writable v' i' H.
Proof.
  intros Hw [] Hh Hf. assert (Ei := wt_inode _ _ _ _ _ _ Hw).
  assert (En : i_inum i' = i_inum i) by (by rewrite Ei).
  split; try apply Hw; try done; rewrite ?En; try done.
  - destruct wb_dinode0. pose proof (ino_ok_u32 _ _ (wt_ok _ _ _ _ _ _ Hw)).
    split; simpl in *; try (by rewrite Ei); try done; [|apply (wt_ok _ _ _ _ _ _ Hw)].
    pose proof (proj1 (wt_holes _ _ _ _ _ _ Hw)). unfold is_u32, MAXBLK, MAXFILE in *. lia.
  - by rewrite Ei.
Qed.

Lemma wp_writei L v H ic ip src off s :
  FT L v H ic x s -> let i := ic ip in let n := Z.of_nat (length src) in
  writable v i H -> bytes_ok src -> is_u32 off -> writei_fails i off n = false ->
  let nb := Z.to_nat (nblks off n) in
  off + n <= i_size i \/ (2 * nb <= nfree x v)%nat ->
  (weight x L i + 2 * nb + base.size H + 5 < NBUF)%nat -> (weight x L i + 2 * nb + 4 < cap)%nat ->
  wp (writei dev_write ip src off) (fun r s' => r = n /\ exists L' v' ic' i',
    FT L' v' H ic' x s' /\ cache_at ic ic' ip i' /\ wrote v v' i i' off src /\ writable v' i' H /\
    (base.size L' <= weight x L i + 2 * nb + 1)%nat) s.
Proof.
  intros HT i n Hwb Hsrc Ho Hfail nb Hnf Hw1 Hw2. assert (Hwb' := Hwb). destruct Hwb' as [].
  unfold writei. wp_call FT_ino; [done|]. intros ? ? [-> ->]. fold i n.
  rewrite (proj2 (Z.eqb_neq _ _) wb_type0). cbv iota. unfold writei_fails in Hfail.
  change (Z.of_nat MAXFILE * Z.of_nat BSIZE) with MAXOFF. unfold is_u32 in *.
  assert (HM : MAXOFF = 71680) by done. pose proof (proj1 wb_holes0) as Hs.
  rewrite u32_small by (unfold is_u32; lia).
  replace ((i_size i <? off) || (off + n <? off)) with false by lia.
  replace (MAXOFF <? off + n) with false by lia.
  wp_call (wp_writei_loop x nmeta Hly ip src H (Z.to_nat n) 0 off L v ic s); try done; try lia;
    rewrite ?Z.sub_0_r; try done.
  { destruct Hnf as [Hin|]; [left; fold i n|by right]. intros o Hoo. apply wb_holes0; zlia. }
  fold i n. rewrite ?Z.sub_0_r. intros off' s1 (L1 & v1 & ic1 & i1 & -> & H1 & Hc1 & Hw & Hwt & Hff & Hnf1 & Hkeep).
  rewrite drop_0 in Hw. pose proof (weight_size x L1 i1) as Hsl.
  assert (Ei : i1 = set_i_addrs (i_addrs i1) i) by apply Hw.
  assert (Esz : i_size i1 = i_size i) by (by rewrite Ei). assert (En : i_inum i1 = i_inum i) by (by rewrite Ei).
  pose proof (written_held _ _ _ _ _ _ _ _ _ Hw wb_held0) as Hh1.
  wp_call FT_ino; [done|]. intros ? ? [-> ->]. rewrite (proj1 Hc1), Esz.
  destruct (_ && _) eqn:Eg; simpl when.
  - rewrite bind_assoc_wp. wp_call FT_upd_ino; [done|]. intros [] s2 H2.
    destruct (cache_at_alter ic1 ip (set_i_size (off + n))) as [E2 E2']. rewrite (proj1 Hc1) in E2.
    set (i' := set_i_size (off + n) i1) in *. assert (En' : i_inum i' = i_inum i) by (by subst i').
    assert (Hi' : ino_ok v1 i') by (destruct (wn_ok _ _ _ _ _ _ _ _ Hw); by split).
    pose proof (io_dev _ _ _ _ Hi') as Hdev. pose proof (io_len _ _ _ _ Hi') as Hlen.
    wp_call wp_iupdate; [done|rewrite E2..|lia|lia|]; rewrite ?En'; try done.
    intros [] s3 H3. rewrite E2, En' in H3. apply wp_ret. split; [done|].
    assert (Hwrote : wrote v (put_inode v1 i') i i' off src).
    { apply wrote_grown; try done; [by eapply ino_ok_u32, Hw|lia|lia|]. eapply FT_view; [exact H1|].
      apply (IBLOCK_range _ _ _ _ Hly _ wb_inum0). }
    assert (Hn' : 0 <= i_inum i' < sb_ninodes x) by (by rewrite En').
    eexists _, _, _, i'. split; [exact H3|]. split; [split; [done|intros; rewrite E2' by done; by apply Hc1]|].
    split; [done|]. split; [eapply wrote_writable; [done|done| |]|].
    + eapply held_safe_mono; [|exact Hh1]. intros m Hm. by rewrite put_inode_used by done.
    + intros j. destruct (put_inode_file v1 i' Hn' Hlen i' Hi') as (_ & Hb & _). split; [|apply (Hff j)].
      intros k Hk. rewrite Hb. apply (Hff j); done.
    + pose proof (size_insert_le (IBLOCK (i_inum i) x) L1). lia.
  - apply wp_bind, wp_ret, wp_ret. split; [done|].
    assert (Hin : off + n <= i_size i) by lia.
    assert (i1 = i) as ->.
    { apply Hkeep. intros o Hoo. apply (proj2 wb_holes0); zlia. }
    assert (Hwrote : wrote v v1 i i off src) by (apply wrote_inside; try done; lia).
    exists L1, v1, ic1, i. split; [done|]. split; [done|]. split; [done|]. split; [by eapply wrote_writable|lia].
Qed.
End writei.
End iupdate.
