(* ===== verification/FsIcache.v ===== *)
(** * The inode cache (fs.c: iget, idup, ilock, iunlock, iput, itrunc)

    At most one cache entry stands for an inode, references are counted, and
    the last [iput] of an unlinked inode returns all of its blocks. *)

From S2P Require Import Prelude Params CString Spinlock Sched Ring Bio Log Crash Logop Txn Fs FsBlocks FsFile FsData FsInode.

(** No two entries in use name the same inode. *)
Record icache_ok (ic : nat -> inode) : Prop := {
  ico_ref : forall i, (i < NINODE)%nat -> 0 <= i_ref (ic i) < 2147483647;
  ico_uniq : forall i j, (i < NINODE)%nat -> (j < NINODE)%nat ->
    0 < i_ref (ic i) -> 0 < i_ref (ic j) -> i_dev (ic i) = i_dev (ic j) ->
    i_inum (ic i) = i_inum (ic j) -> i = j }.

Definition cached (ic : nat -> inode) (dev inum : Z) (i : nat) : Prop :=
  (i < NINODE)%nat /\ 0 < i_ref (ic i) /\ i_dev (ic i) = dev /\ i_inum (ic i) = inum.

Section icache.
Context {dsz : Z} {cap : nat} {wr : Z -> Prop} {T TL} {TS : TxnStore dsz cap wr T TL}.
Notation FT := (FT (T := T)).

(** [FT] with [icache.lock] held. *)
Definition FTL (L : gset Z) (v : Z -> list Z) (H : gmap nat Z) (ic : nat -> inode)
    (x : superblock) (s : fs_st) : Prop :=
  TL Licache L v H (flog s) /\ icache s = ic /\ sb s = x.

Context (L : gset Z) (v : Z -> list Z) (H : gmap nat Z) (x : superblock).

Lemma FT_acquire ic s : FT L v H ic x s -> wp (fs_acquire Licache) (fun _ s' => FTL L v H ic x s') s.
Proof.
  intros (Ht & Hi & Hx). wp_call wp_fl; [by eapply txn_acquire|].
  intros [] s' [Ht' [Hi' Hx']]. split_and!; congruence || done.
Qed.
Lemma FTL_release ic s : FTL L v H ic x s -> wp (fs_release Licache) (fun _ s' => FT L v H ic x s') s.
Proof.
  intros (Ht & Hi & Hx). wp_call wp_fl; [by eapply txn_release|].
  intros [] s' [Ht' [Hi' Hx']]. split_and!; congruence || done.
Qed.
Lemma FTL_wakeup c ic s : FTL L v H ic x s -> wp (fs_wakeup c) (fun _ s' => FTL L v H ic x s') s.
Proof.
  intros (Ht & Hi & Hx). wp_call wp_fl; [by eapply txn_wakeup|].
  intros [] s' [Ht' [Hi' Hx']]. split_and!; congruence || done.
Qed.
Lemma FTL_ino ip ic s : FTL L v H ic x s -> wp (ino ip) (fun i s' => i = ic ip /\ s' = s) s.
Proof. intros HT. apply wp_gets. split; [|done]. by destruct HT as (_ & -> & _). Qed.
Lemma FTL_upd_ino ip f ic s :
  FTL L v H ic x s -> wp (upd_ino ip f) (fun _ s' => FTL L v H (alter f ip ic) x s') s.
Proof. intros (? & Hi & ?). apply wp_modify. split_and!; [done|simpl; by rewrite Hi|done]. Qed.

(** ** iget *)

(** The entry for an inode that was not cached. *)
Definition new_entry (dev inum : Z) (i : inode) : inode :=
  Inode dev inum 1 0 (i_type i) (i_major i) (i_minor i) (i_nlink i) (i_size i) (i_addrs i).

Lemma find_seq (P : nat -> Prop) `{!forall i, Decision (P i)} n :
  match list_find P (seq 0 n) with
  | Some (_, i) => (i < n)%nat /\ P i
  | None => forall i, (i < n)%nat -> ~ P i
  end.
Proof.
  destruct (list_find P (seq 0 n)) as [[k i]|] eqn:E.
  - apply list_find_Some in E as (Hk & HP & _). apply lookup_seq in Hk as [-> Hk]. done.
  - intros i Hi. eapply list_find_None, Forall_forall in E; [done|]. apply elem_of_seq. lia.
Qed.

Lemma wp_iget dev inum ic s :
  FT L v H ic x s -> icache_ok ic ->
  (exists i, (i < NINODE)%nat /\ (i_ref (ic i) = 0 \/ cached ic dev inum i)) ->
  (forall i, cached ic dev inum i -> i_ref (ic i) < 2147483646) ->
  wp (iget dev inum) (fun ip s' => exists ic', FT L v H ic' x s' /\ icache_ok ic' /\
    cached ic' dev inum ip /\ (forall j, j <> ip -> ic' j = ic j) /\
    (cached ic dev inum ip /\ ic' ip = set_i_ref (i_ref (ic ip) + 1) (ic ip) \/
     (forall j, ~ cached ic dev inum j) /\ i_ref (ic ip) = 0 /\ ic' ip = new_entry dev inum (ic ip))) s.
Proof.
  intros HT [Hr Hu] Hslot Hmax. unfold iget. wp_call FT_acquire; [done|]. intros [] s1 H1.
  wp_steps. rewrite (proj1 (proj2 H1)).
  pose proof (find_seq (fun i => 0 < i_ref (ic i) /\ i_dev (ic i) = dev /\ i_inum (ic i) = inum) NINODE) as Hf.
  destruct (list_find _ _) as [[k ip]|].
  - destruct Hf as (Hip & Hpos & Hd & Hn).
    wp_call FTL_upd_ino; [done|]. intros [] s2 H2. wp_call FTL_release; [done|]. intros [] s3 H3.
    apply wp_ret. eexists. split; [exact H3|].
    assert (Hs : s32 (i_ref (ic ip) + 1) = i_ref (ic ip) + 1).
    { specialize (Hmax ip ltac:(done)). apply s32_small. unfold is_s32. specialize (Hr ip Hip). lia. }
    assert (Hat : forall j, alter (fun x0 => set_i_ref (s32 (i_ref x0 + 1)) x0) ip ic j =
      if decide (j = ip) then set_i_ref (i_ref (ic ip) + 1) (ic ip) else ic j).
    { intros j. case_decide as E; [subst; by rewrite fn_lookup_alter, Hs|by rewrite fn_lookup_alter_ne]. }
    split_and!.
    + specialize (Hmax ip ltac:(done)). split.
      * intros i Hi. rewrite Hat. case_decide; simpl; [specialize (Hr ip Hip); lia|auto].
      * intros i j Hi Hj. rewrite !Hat. repeat case_decide; subst; simpl; intros; apply Hu; congruence || done || lia.
    + unfold cached. rewrite Hat, decide_True by done. simpl. split_and!; done || lia.
    + intros j Hj. by rewrite Hat, decide_False.
    + left. split; [done|]. by rewrite Hat, decide_True.
  - assert (Hnone : forall j, ~ cached ic dev inum j) by (intros j (Hj & Hc); by apply (Hf j)).
    pose proof (find_seq (fun i => i_ref (ic i) = 0) NINODE) as Hg.
    destruct (list_find (fun i => i_ref (ic i) = 0) _) as [[k ip]|].
    2:{ destruct Hslot as (i & Hi & [H0|Hc]); [by apply Hg in H0|by destruct (Hnone i)]. }
    destruct Hg as (Hip & Hz).
    wp_call FTL_upd_ino; [done|]. intros [] s2 H2. wp_call FTL_release; [done|]. intros [] s3 H3.
    apply wp_ret. eexists. split; [exact H3|].
    change (fun x0 : inode => Inode dev inum 1 0 _ _ _ _ _ _) with (new_entry dev inum).
    assert (Hat : forall j, alter (new_entry dev inum) ip ic j = if decide (j = ip) then new_entry dev inum (ic ip) else ic j).
    { intros j. case_decide as E; [subst; by rewrite fn_lookup_alter|by rewrite fn_lookup_alter_ne]. }
    split_and!.
    + split.
      * intros i Hi. rewrite Hat. case_decide; simpl; [lia|auto].
      * intros i j Hi Hj. rewrite !Hat. repeat case_decide; subst; simpl; intros; try done.
        -- by destruct (Hnone j).
        -- by destruct (Hnone i).
        -- by apply Hu.
    + unfold cached. rewrite Hat, decide_True by done. done.
    + intros j Hj. by rewrite Hat, decide_False.
    + right. split_and!; [done|done|]. by rewrite Hat, decide_True.
Qed.

Lemma wp_idup ip ic s :
  FT L v H ic x s -> 0 <= i_ref (ic ip) < 2147483646 ->
  wp (idup ip) (fun r s' => r = ip /\ exists ic', FT L v H ic' x s' /\
    cache_at ic ic' ip (set_i_ref (i_ref (ic ip) + 1) (ic ip))) s.
Proof.
  intros HT Hr. unfold idup. wp_call FT_acquire; [done|]. intros [] s1 H1.
  wp_call FTL_upd_ino; [done|]. intros [] s2 H2. wp_call FTL_release; [done|]. intros [] s3 H3.
  apply wp_ret. split; [done|]. eexists. split; [exact H3|].
  pose proof (cache_at_alter ic ip (fun y => set_i_ref (s32 (i_ref y + 1)) y)) as Hc. cbv beta in Hc.
  by rewrite s32_small in Hc by (unfold is_s32; lia).
Qed.

(** ** ilock and iunlock *)

Definition lock_flags (i : inode) : inode := set_i_flags (set_flag (i_flags i) I_BUSY) i.

(** The entry after [ilock]: busy, and read from disk unless it was valid. *)
Definition locked_inode (i : inode) : inode :=
  if has (i_flags i) I_VALID then lock_flags i
  else let j := load_inode (disk_inode x v (i_inum i)) (lock_flags i) in
       set_i_flags (set_flag (i_flags j) I_VALID) j.

Lemma wp_ilock (nmeta : Z) (Hly : layout dsz wr x nmeta) ip ic s :
  FT L v H ic x s -> let i := ic ip in
  1 <= i_ref i -> has (i_flags i) I_BUSY = false -> i_dev i = 1 -> 0 <= i_inum i < sb_ninodes x ->
  (has (i_flags i) I_VALID = false -> d_type (disk_inode x v (i_inum i)) <> 0 /\
     (forall j, H !! j <> Some (IBLOCK (i_inum i) x)) /\ (base.size L + base.size H < NBUF)%nat) ->
  wp (ilock ip) (fun _ s' => exists ic', FT L v H ic' x s' /\ cache_at ic ic' ip (locked_inode i)) s.
Proof.
  intros HT i Hr Hb Hd Hi Hload. unfold ilock. wp_call FT_ino; [done|]. intros ? ? [-> ->]. fold i.
  replace (i_ref i <? 1) with false by lia. wp_call FT_acquire; [done|]. intros [] s1 H1.
  wp_call FTL_ino; [done|]. intros ? ? [-> ->]. fold i. rewrite Hb. apply wp_bind, wp_ret.
  wp_call FTL_upd_ino; [done|]. intros [] s2 H2. wp_call FTL_release; [done|]. intros [] s3 H3.
  change (fun y : inode => set_i_flags (set_flag (i_flags y) I_BUSY) y) with lock_flags in *.
  pose proof (cache_at_alter ic ip lock_flags) as Hc3. fold i in Hc3.
  wp_call FT_ino; [done|]. intros ? ? [-> ->]. rewrite (proj1 Hc3). unfold locked_inode.
  assert (Hfl : has (i_flags (lock_flags i)) I_VALID = has (i_flags i) I_VALID) by (simpl; by autorewrite with flags).
  rewrite Hfl. destruct (has (i_flags i) I_VALID) eqn:Ev; simpl when.
  { apply wp_ret. eauto. }
  destruct (Hload eq_refl) as (Ht & Hh & Hroom).
  destruct (IBLOCK_range _ _ _ _ Hly _ Hi) as (_ & _ & Hn & _).
  wp_call FT_sb; [done|]. intros ? ? [-> ->]. simpl i_dev. simpl i_inum. rewrite Hd.
  wp_call FT_bread; [done|done|done|by right|]. intros bp s4 [Hbp H4].
  wp_call FT_data; [done|apply lookup_insert_eq|]. intros ? ? [-> ->].
  wp_call FT_upd_ino; [done|]. intros [] s5 H5. wp_call FT_brelse; [done|apply lookup_insert_eq|].
  rewrite delete_insert_id by done. intros [] s6 H6.
  wp_call FT_upd_ino; [done|]. intros [] s7 H7. wp_call FT_ino; [done|]. intros ? ? [-> ->].
  rewrite !fn_lookup_alter.
  match goal with |- context [?t =? 0] => replace (t =? 0) with false by (symmetry; apply Z.eqb_neq; exact Ht) end.
  apply wp_ret.
  eexists. split; [exact H7|]. split; [by rewrite !fn_lookup_alter|].
  intros j Hj. by rewrite !fn_lookup_alter_ne.
Qed.

Lemma wp_iunlock ip ic s :
  FT L v H ic x s -> let i := ic ip in
  1 <= i_ref i -> has (i_flags i) I_BUSY = true ->
  wp (iunlock ip) (fun _ s' => exists ic', FT L v H ic' x s' /\
    cache_at ic ic' ip (set_i_flags (clear_flag (i_flags i) I_BUSY) i)) s.
Proof.
  intros HT i Hr Hb. unfold iunlock. wp_call FT_ino; [done|]. intros ? ? [-> ->]. fold i.
  rewrite Hb. simpl negb. replace (false || (i_ref i <? 1)) with false by lia.
  wp_call FT_acquire; [done|]. intros [] s1 H1. wp_call FTL_upd_ino; [done|]. intros [] s2 H2.
  wp_call FTL_wakeup; [done|]. intros [] s3 H3. wp_call FTL_release; [done|]. intros [] s4 H4.
  eexists. split; [exact H4|]. apply (cache_at_alter ic ip (fun y => set_i_flags (clear_flag (i_flags y) I_BUSY) y)).
Qed.

(** [iput] of a reference that is not the last one, or of a linked inode. *)
Lemma wp_iput_ref ip ic s :
  FT L v H ic x s -> let i := ic ip in
  1 <= i_ref i < 2147483648 -> i_ref i <> 1 \/ has (i_flags i) I_VALID = false \/ i_nlink i <> 0 ->
  wp (iput ip) (fun _ s' => exists ic', FT L v H ic' x s' /\
    cache_at ic ic' ip (set_i_ref (i_ref i - 1) i)) s.
Proof.
  intros HT i Hr Hn. unfold iput. wp_call FT_acquire; [done|]. intros [] s1 H1.
  wp_call FTL_ino; [done|]. intros ? ? [-> ->]. fold i.
  replace ((i_ref i =? 1) && has (i_flags i) I_VALID && (i_nlink i =? 0)) with false.
  2:{ destruct (Z.eqb_spec (i_ref i) 1), (has (i_flags i) I_VALID), (Z.eqb_spec (i_nlink i) 0); simpl; try done.
      naive_solver. }
  apply wp_bind, wp_ret. wp_call FTL_upd_ino; [done|]. intros [] s2 H2.
  wp_call FTL_release; [done|]. intros [] s3 H3. eexists. split; [exact H3|].
  pose proof (cache_at_alter ic ip (fun y => set_i_ref (s32 (i_ref y - 1)) y)) as Hc. cbv beta in Hc. fold i in Hc.
  by rewrite s32_small in Hc by (unfold is_s32; lia).
Qed.
End icache.

(** ** itrunc

    The file system fits one bitmap block, as mkfs makes it (1000 blocks). *)

Section trunc.
Context {dsz : Z} {cap : nat} {wr : Z -> Prop} {T TL} {TS : TxnStore dsz cap wr T TL}.
Context (x : superblock) (nmeta : Z).
Hypothesis Hly : layout dsz wr x nmeta.
Hypothesis Hone : sb_size x <= BPB.
Notation FT := (FT (T := T)).
Notation ino_ok := (ino_ok x nmeta).
Notation data_block := (data_block x nmeta).
Notation meta_ok := (meta_ok x nmeta).

Definition bm : Z := BBLOCK 0 x.

Lemma BBLOCK_one b : 0 <= b < sb_size x -> BBLOCK b x = bm.
Proof.
  intros Hb. unfold bm. rewrite !(BBLOCK_eq _ _ _ _ Hly) by lia. f_equal. unfold BPB in *. zlia.
Qed.

(** The blocks [F] have been freed. *)
Record freed (v v' : Z -> list Z) (F : Z -> Prop) : Prop := {
  fr_used : forall c, 0 <= c < sb_size x -> used x v' c = true <-> used x v c = true /\ ~ F c;
  fr_data : forall c, F c -> nmeta <= c < sb_size x;
  fr_keep : forall n, ~ is_bitmap x n -> v' n = v n }.

Lemma freed_nil v : freed v v (fun _ => False).
Proof. split; tauto. Qed.

Lemma freed_meta v v' F : meta_ok v -> freed v v' F -> meta_ok v'.
Proof.
  intros [Hs Hu] []. split.
  - rewrite fr_keep0; [done|]. intros Hb%(bitmap_range _ _ _ _ Hly). lia.
  - intros b Hb. apply fr_used0; [destruct Hly; lia|]. split; [auto|]. intros Hf%fr_data0. lia.
Qed.

Lemma freed_trans v v1 v2 F G :
  freed v v1 F -> freed v1 v2 G -> freed v v2 (fun c => F c \/ G c).
Proof.
  intros [] []. split.
  - intros c Hc. rewrite fr_used1, fr_used0 by done. tauto.
  - intros c [Hc|Hc]; auto.
  - intros n Hn. rewrite fr_keep1, fr_keep0; done.
Qed.

Lemma freed_ext v v' F G : (forall c, F c <-> G c) -> freed v v' F -> freed v v' G.
Proof.
  intros HFG []. split; try done.
  - intros c Hc. rewrite fr_used0, HFG by done. done.
  - intros c Hc%HFG. auto.
Qed.

Lemma freed_data v v' F b : freed v v' F -> data_block v b -> ~ F b -> data_block v' b.
Proof.
  intros [] [Hb Hu] Hf. split; [done|]. apply fr_used0; [|done].
  pose proof (nmeta_pos _ _ _ _ Hly). lia.
Qed.

Lemma freed_held v v' F H :
  freed v v' F -> held_safe x v H -> (forall j n, H !! j = Some n -> ~ F n) -> held_safe x v' H.
Proof.
  intros [] Hh Hf j n Hj. destruct (Hh j n Hj) as (? & ? & ? & ?). split_and!; try done; try lia.
  apply fr_used0; [done|]. split; [done|by eapply Hf].
Qed.

(** [bfree] of a data block in use. *)
Lemma wp_bfree1 L v H ic b s :
  FT L v H ic x s -> meta_ok v -> held_safe x v H -> data_block v b ->
  (base.size L + base.size H < NBUF)%nat -> (base.size L < cap)%nat ->
  wp (bfree 1 b) (fun _ s' => exists v', FT ({[bm]} ∪ L) v' H ic x s' /\ freed v v' (fun c => c = b)) s.
Proof.
  intros HT Hm Hh [Hb Hu] Hr Hc. pose proof (nmeta_pos _ _ _ _ Hly). assert (Hb0 : 0 <= b < sb_size x) by lia.
  wp_call (wp_bfree x nmeta Hly); try done. intros [] s1 H1. rewrite BBLOCK_one in H1 by done.
  eexists. split; [exact H1|]. split.
  - intros c Hcr. rewrite (used_unmark _ _ _ _ Hly v b c);
      [|eapply (bitmap_ok x nmeta Hly); [exact HT|done]|done|done].
    rewrite andb_true_iff, negb_true_iff, Z.eqb_neq. tauto.
  - by intros c ->.
  - intros n Hn. by eapply unmark_other.
Qed.

Lemma bm_idem (L : gset Z) : {[bm]} ∪ ({[bm]} ∪ L) = {[bm]} ∪ L.
Proof. rewrite (assoc_L (∪)), union_idemp_L. done. Qed.

(** Direct entries [k .. k + n) of [i] cleared. *)
Fixpoint clear_addrs (n k : nat) (i : inode) : inode :=
  match n with O => i | S n => clear_addrs n (S k) (set_addr k 0 i) end.

Lemma wp_itrunc_direct H ip n : forall k L v ic s,
  let i := ic ip in
  FT L v H ic x s -> meta_ok v -> held_safe x v H -> i_dev i = 1 -> length (i_addrs i) = S NDIRECT ->
  (k + n <= NDIRECT)%nat ->
  (forall j, (k <= j < k + n)%nat -> addr j i <> 0 ->
     data_block v (addr j i) /\ forall m, H !! m <> Some (addr j i)) ->
  (forall j j', (k <= j < k + n)%nat -> (k <= j' < k + n)%nat -> addr j i <> 0 -> addr j i = addr j' i -> j = j') ->
  (base.size ({[bm]} ∪ L) + base.size H < NBUF)%nat -> (base.size ({[bm]} ∪ L) < cap)%nat ->
  wp (itrunc_direct n k ip) (fun _ s' => exists L' v' ic', FT L' v' H ic' x s' /\ L' ⊆ {[bm]} ∪ L /\
    cache_at ic ic' ip (clear_addrs n k i) /\
    freed v v' (fun c => exists j, (k <= j < k + n)%nat /\ addr j i <> 0 /\ c = addr j i)) s.
Proof.
  induction n as [|n IH]; intros k L v ic s i HT Hm Hh Hd Hl Hk Hdat Hinj Hr Hc; cbn [itrunc_direct].
  { apply wp_ret. exists L, v, ic. split; [done|]. split; [set_solver|]. split; [done|].
    eapply freed_ext; [|apply freed_nil]. intros c. split; [done|]. intros (j & ? & _). lia. }
  assert (HsL : (base.size L <= base.size ({[bm]} ∪ L))%nat) by (apply subseteq_size; set_solver).
  wp_call FT_ino; [done|]. intros ? ? [-> ->]. fold i.
  destruct (Z.eqb_spec (addr k i) 0) as [E|E]; simpl when.
  - apply wp_bind, wp_ret. pose proof (IH (S k) L v ic s) as IH'. cbv zeta in IH'. fold i in IH'.
    assert (Eset : set_addr k 0 i = i).
    { unfold set_addr. rewrite list_insert_id; [by destruct i|]. unfold addr in E.
      destruct (lookup_lt_is_Some_2 (i_addrs i) k) as [y Hy]; [rewrite Hl; unfold NDIRECT in *; lia|].
      rewrite Hy in *. simpl in E. congruence. }
    eapply wp_mono; [apply IH'; try done; try lia|].
    { intros j Hj. apply Hdat. lia. } { intros j j' Hj Hj'. apply Hinj; lia. }
    intros [] s' (L' & v' & ic' & H' & HL' & Hc' & Hf'). exists L', v', ic'. split; [done|]. split; [done|].
    cbn [clear_addrs]. rewrite Eset. split; [done|]. eapply freed_ext; [|exact Hf'].
    intros c. split; intros (j & Hj & Hjn & ->); exists j; (split; [|done]); [lia|].
    destruct (decide (j = k)) as [->|]; [done|lia].
  - destruct (Hdat k ltac:(lia) E) as [Hdk Hhk]. rewrite bind_assoc_wp, Hd.
    wp_call wp_bfree1; [done|done|done|done|lia|lia|]. intros [] s1 (v1 & H1 & Hf1).
    wp_call FT_upd_ino; [done|]. intros [] s2 H2.
    pose proof (cache_at_alter ic ip (set_addr k 0)) as Hc2. fold i in Hc2.
    pose proof (IH (S k) ({[bm]} ∪ L) v1 (alter (set_addr k 0) ip ic) s2) as IH'. cbv zeta in IH'.
    rewrite (proj1 Hc2), bm_idem in IH'.
    assert (Hadr : forall j, (S k <= j)%nat -> addr j (set_addr k 0 i) = addr j i).
    { intros j Hj. rewrite addr_set by (rewrite Hl; unfold NDIRECT in *; lia). by rewrite decide_False by lia. }
    eapply wp_mono; [apply IH'; try done; try lia|].
    { by eapply freed_meta. } { eapply freed_held; [done|done|]. intros m c Hm' ->. by apply (Hhk m). }
    { simpl. by rewrite length_insert. }
    { intros j Hj. rewrite Hadr by lia. intros Hnz. destruct (Hdat j ltac:(lia) Hnz) as [Hdj Hhj].
      split; [|done]. eapply freed_data; [done|done|]. intros E'.
      assert (j = k) by (apply Hinj; try done; lia). lia. }
    { intros j j' Hj Hj'. rewrite !Hadr by lia. apply Hinj; lia. }
    intros [] s' (L' & v' & ic' & H' & HL' & Hc' & Hf'). exists L', v', ic'. split; [done|]. split; [done|].
    split; [by eapply cache_at_trans|]. eapply freed_ext; [|by eapply freed_trans].
    intros c. split.
    + intros [->|(j & Hj & Hjn & ->)]; [exists k; split; [lia|done]|].
      rewrite Hadr in * by lia. exists j. split; [lia|done].
    + intros (j & Hj & Hjn & ->). destruct (decide (j = k)) as [->|]; [by left|right].
      exists j. rewrite !Hadr by lia. split; [lia|done].
Qed.

Lemma wp_itrunc_indirect H ic bp n12 n : forall j L v s,
  let e m := get_word (4 * m) (v n12) in
  FT L v H ic x s -> H !! bp = Some n12 -> meta_ok v -> held_safe x v H ->
  (forall m, (j <= m < j + n)%nat -> e m <> 0 -> data_block v (e m) /\ forall h, H !! h <> Some (e m)) ->
  (forall m m', (j <= m < j + n)%nat -> (j <= m' < j + n)%nat -> e m <> 0 -> e m = e m' -> m = m') ->
  (base.size ({[bm]} ∪ L) + base.size H < NBUF)%nat -> (base.size ({[bm]} ∪ L) < cap)%nat ->
  wp (itrunc_indirect n j 1 bp) (fun _ s' => exists L' v', FT L' v' H ic x s' /\ L' ⊆ {[bm]} ∪ L /\
    freed v v' (fun c => exists m, (j <= m < j + n)%nat /\ e m <> 0 /\ c = e m)) s.
Proof.
  induction n as [|n IH]; intros j L v s e HT Hbp Hm Hh Hdat Hinj Hr Hc; cbn [itrunc_indirect].
  { apply wp_ret. exists L, v. split; [done|]. split; [set_solver|].
    eapply freed_ext; [|apply freed_nil]. intros c. split; [done|]. intros (m & ? & _). lia. }
  assert (HsL : (base.size L <= base.size ({[bm]} ∪ L))%nat) by (apply subseteq_size; set_solver).
  wp_call FT_data; [done|done|]. intros ? ? [-> ->]. fold (e j).
  destruct (Z.eqb_spec (e j) 0) as [E|E]; simpl when.
  - apply wp_bind, wp_ret. pose proof (IH (S j) L v s) as IH'. cbv zeta in IH'.
    eapply wp_mono; [apply IH'; try done; try lia|].
    { intros m Hmm. apply Hdat. lia. } { intros m m' Hmm Hmm'. apply Hinj; lia. }
    intros [] s' (L' & v' & H' & HL' & Hf'). exists L', v'. split; [done|]. split; [done|].
    eapply freed_ext; [|exact Hf']. intros c. split; intros (m & Hmm & Hjn & ->); exists m; (split; [|done]); [lia|].
    destruct (decide (m = j)) as [->|]; [done|lia].
  - destruct (Hdat j ltac:(lia) E) as [Hdj Hhj].
    wp_call wp_bfree1; [done|done|done|done|lia|lia|]. intros [] s1 (v1 & H1 & Hf1).
    assert (Ev : v1 n12 = v n12) by (apply Hf1; by destruct (Hh bp n12 Hbp)).
    pose proof (IH (S j) ({[bm]} ∪ L) v1 s1) as IH'. cbv zeta in IH'. rewrite Ev, bm_idem in IH'.
    eapply wp_mono; [apply IH'; try done; try lia|].
    { by eapply freed_meta. } { eapply freed_held; [done|done|]. intros h c Hh' ->. by apply (Hhj h). }
    { intros m Hmm Hnz. destruct (Hdat m ltac:(lia) Hnz) as [Hdm Hhm].
      split; [|done]. eapply freed_data; [done|done|]. intros E'.
      assert (m = j) by (apply Hinj; try done; lia). lia. }
    { intros m m' Hmm Hmm'. apply Hinj; lia. }
    intros [] s' (L' & v' & H' & HL' & Hf'). exists L', v'. split; [done|]. split; [done|].
    eapply freed_ext; [|by eapply freed_trans]. intros c. split.
    + intros [->|(m & Hmm & Hjn & ->)]; [exists j; split; [lia|done]|]. exists m. split; [lia|done].
    + intros (m & Hmm & Hjn & ->). destruct (decide (m = j)) as [->|]; [by left|right].
      exists m. split; [lia|done].
Qed.

(** The blocks of a file. *)
Definition owns (v : Z -> list Z) (i : inode) (c : Z) : Prop :=
  c <> 0 /\ (c = addr NDIRECT i \/ exists k, 0 <= k < MAXBLK /\ c = blk v i k).

Lemma clear_addrs_spec n : forall k i, (k + n <= length (i_addrs i))%nat ->
  length (i_addrs (clear_addrs n k i)) = length (i_addrs i) /\
  clear_addrs n k i = set_i_addrs (i_addrs (clear_addrs n k i)) i /\
  forall j, addr j (clear_addrs n k i) = if decide (k <= j < k + n)%nat then 0 else addr j i.
Proof.
  induction n as [|n IH]; intros k i Hl; cbn [clear_addrs].
  { split; [done|]. split; [by destruct i|]. intros j. by rewrite decide_False by lia. }
  destruct (IH (S k) (set_addr k 0 i)) as (E1 & E2 & E3); [simpl; rewrite length_insert; lia|].
  split; [rewrite E1; simpl; by rewrite length_insert|]. split; [by rewrite E2|].
  intros j. rewrite E3, addr_set by lia. repeat case_decide; lia || done.
Qed.

(** The inode that [itrunc] leaves. *)
Definition truncated (i : inode) : inode :=
  set_i_size 0 (set_i_addrs (replicate (S NDIRECT) 0) i).

Lemma all_clear (l : list Z) n : length l = n -> (forall j, default 0 (l !! j) = 0) -> l = replicate n 0.
Proof.
  intros Hl H0. apply list_eq. intros j. specialize (H0 j). destruct (decide (j < n)%nat).
  - rewrite lookup_replicate_2 by done. destruct (lookup_lt_is_Some_2 l j) as [y Hy]; [lia|].
    rewrite Hy in *. simpl in H0. congruence.
  - by rewrite !lookup_ge_None_2 by (rewrite ?length_replicate; lia).
Qed.

(** The indirect part of [itrunc]. *)
Lemma wp_itrunc_ind L v H ic ip s :
  let i := ic ip in let n := addr NDIRECT i in
  FT L v H ic x s -> n <> 0 -> i_dev i = 1 -> meta_ok v -> held_safe x v H -> data_block v n ->
  (forall h, H !! h <> Some n) ->
  let e m := get_word (4 * m) (v n) in
  (forall m, (m < NINDIRECT)%nat -> e m <> 0 ->
     data_block v (e m) /\ e m <> n /\ forall h, H !! h <> Some (e m)) ->
  (forall m m', (m < NINDIRECT)%nat -> (m' < NINDIRECT)%nat -> e m <> 0 -> e m = e m' -> m = m') ->
  (base.size ({[bm]} ∪ L) + base.size H + 1 < NBUF)%nat -> (base.size ({[bm]} ∪ L) < cap)%nat ->
  wp (bp ← fs_bread (i_dev i) n;
      itrunc_indirect NINDIRECT 0 (i_dev i) bp ;;
      fs_brelse bp ;;
      bfree (i_dev i) n ;;
      upd_ino ip (set_addr NDIRECT 0))
    (fun _ s' => exists L' v' ic', FT L' v' H ic' x s' /\ L' ⊆ {[bm]} ∪ L /\
       cache_at ic ic' ip (set_addr NDIRECT 0 i) /\
       freed v v' (fun c => c = n \/ exists m, (m < NINDIRECT)%nat /\ e m <> 0 /\ c = e m)) s.
Proof.
  intros i n HT Hn Hd Hm Hh Hdn Hnh e Hdat Hinj Hr Hc. rewrite Hd.
  assert (HsL : (base.size L <= base.size ({[bm]} ∪ L))%nat) by (apply subseteq_size; set_solver).
  destruct (data_range _ _ Hly _ _ Hdn) as [_ Hrange].
  wp_call FT_bread; [done|done|done|right; lia|]. intros bp s1 [Hbp H1].
  wp_call (wp_itrunc_indirect (<[bp := n]> H) ic bp n);
    [done|apply lookup_insert_eq|done|by apply (held_safe_insert _ _ Hly)|..].
  { intros m Hmm Hnz. destruct (Hdat m ltac:(lia) Hnz) as (Hdm & Hne & Hhm). split; [done|].
    intros h [[_ E]|[_ E]]%lookup_insert_Some; [by apply Hne|by apply (Hhm h)]. }
  { intros m m' Hmm Hmm'. apply Hinj; lia. }
  { rewrite map_size_insert_None by done. lia. } { lia. }
  intros [] s2 (L2 & v2 & H2 & HL2 & Hf2).
  assert (HsL2 : (base.size L2 <= base.size ({[bm]} ∪ L))%nat) by (by apply subseteq_size).
  wp_call FT_brelse; [done|apply lookup_insert_eq|]. rewrite delete_insert_id by done. intros [] s3 H3.
  assert (Hn2 : data_block v2 n).
  { eapply freed_data; [done|done|]. intros (m & Hmm & Hnz & E). destruct (Hdat m ltac:(lia) Hnz) as (_ & Hne & _). by apply Hne. }
  wp_call wp_bfree1; [done|by eapply freed_meta| |done|lia|lia|].
  { eapply freed_held; [done|done|]. intros h c Hh' (m & Hmm & Hnz & ->).
    destruct (Hdat m ltac:(lia) Hnz) as (_ & _ & Hhm). by apply (Hhm h). }
  intros [] s4 (v4 & H4 & Hf4). wp_call FT_upd_ino; [done|]. intros [] s5 H5.
  eexists _, _, _. split; [exact H5|]. split; [set_solver|]. split; [apply cache_at_alter|].
  eapply freed_ext; [|by eapply freed_trans]. intros c. split.
  - intros [(m & Hmm & Hnz & ->)| ->]; [right; exists m; split; [lia|done]|by left].
  - intros [->|(m & Hmm & Hnz & ->)]; [by right|left; exists m; split; [lia|done]].
Qed.

Lemma ino_entry v i m : addr NDIRECT i <> 0 -> (m < NINDIRECT)%nat ->
  get_word (4 * m) (v (addr NDIRECT i)) = blk v i (12 + Z.of_nat m).
Proof.
  intros Hn Hm. unfold blk. rewrite (proj2 (Z.ltb_ge _ 12)) by lia. rewrite (proj2 (Z.eqb_neq _ 0) Hn).
  f_equal. lia.
Qed.

Lemma direct_blk v i k : (k < NDIRECT)%nat -> addr k i = blk v i (Z.of_nat k).
Proof. intros Hk. unfold blk. rewrite (proj2 (Z.ltb_lt _ 12)) by (unfold NDIRECT in *; lia). by rewrite Nat2Z.id. Qed.

Lemma owns_split v i c :
  owns v i c <-> (exists k, (k < NDIRECT)%nat /\ addr k i <> 0 /\ c = addr k i) \/
    addr NDIRECT i <> 0 /\ (c = addr NDIRECT i \/ exists m, (m < NINDIRECT)%nat /\
      get_word (4 * m) (v (addr NDIRECT i)) <> 0 /\ c = get_word (4 * m) (v (addr NDIRECT i))).
Proof.
  unfold owns. split.
  - intros [Hc [->|(k & Hk & ->)]]; [tauto|]. destruct (decide (k < 12)).
    + left. exists (Z.to_nat k). rewrite (direct_blk v) by (unfold NDIRECT; lia).
      rewrite Z2Nat.id by lia. split; [unfold NDIRECT; lia|done].
    + assert (Hn : addr NDIRECT i <> 0).
      { intros E. apply Hc. unfold blk. rewrite (proj2 (Z.ltb_ge _ 12)), E by lia. done. }
      right. split; [done|]. right. exists (Z.to_nat (k - 12)).
      assert (Hm : (Z.to_nat (k - 12) < NINDIRECT)%nat) by (unfold NINDIRECT, MAXBLK, MAXFILE in *; lia).
      rewrite ino_entry by done. replace (12 + Z.of_nat (Z.to_nat (k - 12))) with k by lia. done.
  - intros [(k & Hk & Hnz & ->)|[Hn [->|(m & Hm & Hnz & ->)]]].
    + split; [done|]. right. exists (Z.of_nat k). rewrite (direct_blk v) by done.
      split; [unfold NDIRECT, MAXBLK, MAXFILE in *; lia|done].
    + tauto.
    + split; [done|]. right. exists (12 + Z.of_nat m). rewrite ino_entry by done.
      split; [unfold NINDIRECT, MAXBLK, MAXFILE in *; lia|done].
Qed.

(** What [itrunc] needs. *)
Record freeable (L : gset Z) (v : Z -> list Z) (i : inode) (H : gmap nat Z) : Prop := {
  fb_ino : ino_ok v i;
  fb_meta : meta_ok v;
  fb_held : held_safe x v H;
  fb_file : file_free v i H;
  fb_room : (base.size ({[bm]} ∪ L) + base.size H + 1 < NBUF)%nat;
  fb_cap : (base.size ({[bm]} ∪ L) < cap)%nat }.

Definition direct (i : inode) (c : Z) : Prop :=
  exists j, (0 <= j < 0 + NDIRECT)%nat /\ addr j i <> 0 /\ c = addr j i.

(** Freeing the direct blocks. *)
Lemma wp_itrunc_first L v H ic ip s : let i := ic ip in
  FT L v H ic x s -> freeable L v i H ->
  wp (itrunc_direct NDIRECT 0 ip) (fun _ s' => exists L' v' ic', FT L' v' H ic' x s' /\ L' ⊆ {[bm]} ∪ L /\
    cache_at ic ic' ip (clear_addrs NDIRECT 0 i) /\ freed v v' (direct i)) s.
Proof.
  intros i HT [Hi Hm Hh Hff Hr Hc].
  assert (Hb : forall j, (0 <= j < 0 + NDIRECT)%nat -> 0 <= Z.of_nat j < MAXBLK)
    by (unfold NDIRECT, MAXBLK, MAXFILE; lia).
  apply wp_itrunc_direct; try done; [apply Hi|apply Hi| | |lia].
  - intros j Hj. fold i. rewrite (direct_blk v) by lia. intros Hnz. split; [by apply Hi, Hnz; auto|].
    intros h. by apply (Hff h); [apply Hb|].
  - intros j j' Hj Hj'. fold i. rewrite !(direct_blk v i) by lia. intros Hnz E.
    apply Nat2Z.inj. by apply Hi; auto.
Qed.

(** Blocks of the indirect part are no direct blocks. *)
Lemma not_direct v i : ino_ok v i -> addr NDIRECT i <> 0 ->
  ~ direct i (addr NDIRECT i) /\
  forall m, (m < NINDIRECT)%nat -> blk v i (12 + Z.of_nat m) <> 0 -> ~ direct i (blk v i (12 + Z.of_nat m)).
Proof.
  intros Hi Hn. split.
  - intros (j & Hj & _ & E). rewrite (direct_blk v i j) in E by lia.
    eapply (io_sep _ _ _ _ Hi (Z.of_nat j)); [|done|done]. unfold NDIRECT, MAXBLK, MAXFILE in *. lia.
  - intros m Hm Hnz (j & Hj & _ & E). rewrite (direct_blk v i j) in E by lia.
    apply (io_inj _ _ _ _ Hi) in E; [|unfold NINDIRECT, NDIRECT, MAXBLK, MAXFILE in *; lia..|done].
    unfold NDIRECT in *. lia.
Qed.

#[local] Opaque clear_addrs.

(** The two halves of [itrunc]: all blocks of the file are freed. *)
Lemma wp_itrunc_second L0 L v v1 H ic ic1 ip s : let i := ic ip in
  FT L v1 H ic1 x s -> freeable L0 v i H -> L ⊆ {[bm]} ∪ L0 ->
  cache_at ic ic1 ip (clear_addrs NDIRECT 0 i) -> freed v v1 (direct i) ->
  wp (i ← ino ip;
      when (negb (addr NDIRECT i =? 0))
       (bp ← fs_bread (i_dev i) (addr NDIRECT i);
        itrunc_indirect NINDIRECT 0 (i_dev i) bp ;;
        fs_brelse bp ;;
        bfree (i_dev i) (addr NDIRECT i) ;;
        upd_ino ip (set_addr NDIRECT 0)))
    (fun _ s' => exists L' v' ic', FT L' v' H ic' x s' /\ L' ⊆ {[bm]} ∪ L0 /\
      cache_at ic ic' ip (set_i_addrs (replicate (S NDIRECT) 0) i) /\ freed v v' (owns v i)) s.
Proof.
  intros i HT [Hi Hm Hh Hff Hr Hc] HL [Eic Hic] Hf.
  wp_call FT_ino; [done|]. intros ? ? [-> ->]. rewrite Eic.
  assert (Hlen := io_len _ _ _ _ Hi).
  destruct (clear_addrs_spec NDIRECT 0 i) as (El & Ei & Ea); [lia|].
  assert (En : addr NDIRECT (clear_addrs NDIRECT 0 i) = addr NDIRECT i) by (by rewrite Ea, decide_False by lia).
  rewrite En. destruct (Z.eqb_spec (addr NDIRECT i) 0) as [E0|En0]; simpl when.
  - apply wp_ret. exists L, v1, ic1. split; [done|]. split; [done|]. split.
    + split; [|done]. rewrite Eic, Ei. f_equal. apply all_clear; [by rewrite El|]. intros j.
      change (addr j (clear_addrs NDIRECT 0 i) = 0). rewrite Ea. case_decide as Hj; [done|].
      destruct (decide (j = NDIRECT)) as [->|]; [done|]. unfold addr. by rewrite lookup_ge_None_2 by lia.
    + eapply freed_ext; [|exact Hf]. intros c. rewrite owns_split. unfold direct.
      split; [intros (j & Hj & Hnz & ->); left; exists j; split; [lia|done]|].
      intros [(k & Hk & Hnz)|[? _]]; [|done]. exists k. split; [lia|done].
  - destruct (not_direct v i Hi En0) as [Hnd Hne].
    assert (Ev : v1 (addr NDIRECT i) = v (addr NDIRECT i)).
    { apply Hf. by apply (used_data _ _ Hly v), Hi. }
    assert (Hent : forall m, (m < NINDIRECT)%nat ->
      0 <= 12 + Z.of_nat m < MAXBLK /\ get_word (4 * m) (v1 (addr NDIRECT i)) = blk v i (12 + Z.of_nat m)).
    { intros m Hmm. split; [unfold NINDIRECT, MAXBLK, MAXFILE in *; lia|]. by rewrite Ev, ino_entry. }
    pose proof (wp_itrunc_ind L v1 H ic1 ip s) as Hw. cbv zeta in Hw. rewrite Eic, En in Hw.
    assert (HsL : (base.size ({[bm]} ∪ L) <= base.size ({[bm]} ∪ L0))%nat) by (by apply subseteq_size, union_least; [apply union_subseteq_l|]).
    eapply wp_mono; [apply Hw; try done; try lia|].
    { rewrite Ei. apply Hi. } { by eapply freed_meta. }
    { eapply freed_held; [done|done|]. intros h c Hh' (j & Hj & Hnz & ->). rewrite (direct_blk v i j) in * by lia.
      apply (proj1 (Hff h) (Z.of_nat j)); [|exact Hnz|exact Hh']. unfold NDIRECT, MAXBLK, MAXFILE in *. lia. }
    { eapply freed_data; [done| |done]. by apply Hi. } { intros h. by apply Hff. }
    { intros m Hmm. destruct (Hent m Hmm) as [Hb ->]. intros Hnz. split; [|split].
      - eapply freed_data; [done| |by auto]. by apply Hi. - by apply Hi. - intros h. by apply (Hff h). }
    { intros m m' Hmm Hmm'. destruct (Hent m Hmm) as [Hb ->], (Hent m' Hmm') as [Hb' ->]. intros Hnz E.
      apply (io_inj _ _ _ _ Hi) in E; [lia|done..]. }
    intros [] s' (L' & v' & ic' & H' & HL' & [Ec Hc'] & Hf'). exists L', v', ic'.
    split; [done|]. split; [etrans; [exact HL'|]; by apply union_least; [apply union_subseteq_l|]|]. split.
    + split; [|intros j Hj; by rewrite Hc', Hic]. rewrite Ec.
      transitivity (set_i_addrs (<[NDIRECT := 0]> (i_addrs (clear_addrs NDIRECT 0 i))) i); [by rewrite Ei at 1|f_equal]. apply (all_clear _ (S NDIRECT)); [by rewrite length_insert, El|]. intros j.
      change (addr j (set_addr NDIRECT 0 (clear_addrs NDIRECT 0 i)) = 0). rewrite addr_set by (rewrite El; lia).
      rewrite Ea. repeat case_decide; try done; unfold addr; by rewrite lookup_ge_None_2 by lia.
    + eapply freed_ext; [|by eapply freed_trans]. intros c. rewrite owns_split, Ev. unfold direct. split.
      * intros [(j & Hj & Hnz & ->)|Ho]; [left; exists j; split; [lia|done]|by right].
      * intros [(k & Hk & Hnz)|[_ Ho]]; [left; exists k; split; [lia|done]|by right].
Qed.

(** The blocks of [i] are free again and its disk copy is [i']; nothing else changed. *)
Record released (v v' : Z -> list Z) (i i' : inode) : Prop := {
  rl_used : forall c, 0 <= c < sb_size x -> used x v' c = true <-> used x v c = true /\ ~ owns v i c;
  rl_keep : forall n, ~ is_bitmap x n -> n <> IBLOCK (i_inum i) x -> v' n = v n;
  rl_synced : synced x v' i';
  rl_other : forall j, 0 <= j < sb_ninodes x -> j <> i_inum i -> disk_inode x v' j = disk_inode x v j;
  rl_meta : meta_ok v' }.

Lemma freed_inode v v' F j : freed v v' F -> 0 <= j < sb_ninodes x -> disk_inode x v' j = disk_inode x v j.
Proof.
  intros Hf Hj. destruct (IBLOCK_range _ _ _ _ Hly _ Hj) as (_ & _ & _ & _ & Hb). unfold disk_inode.
  by rewrite (fr_keep _ _ _ Hf _ Hb).
Qed.

Lemma freed_released v v1 i i' : meta_ok v -> freed v v1 (owns v i) -> block_ok (v1 (IBLOCK (i_inum i) x)) ->
  0 <= i_inum i < sb_ninodes x -> i_inum i' = i_inum i -> dinode_ok (to_dinode i') ->
  released v (put_inode x v1 i') i i'.
Proof.
  intros Hm Hf Hb Hn En Hd.
  assert (Hn' : 0 <= i_inum i' < sb_ninodes x) by (by rewrite En).
  assert (Hb' : block_ok (v1 (IBLOCK (i_inum i') x))) by (by rewrite En).
  assert (Hlen : length (i_addrs i') = S NDIRECT) by apply Hd.
  split.
  - intros c Hc. rewrite (put_inode_used _ _ Hly) by done. by apply Hf.
  - intros n Hn1 Hn2. rewrite put_inode_ne by (by rewrite En). by apply Hf.
  - by eapply put_inode_synced.
  - intros j Hj Hne. rewrite (put_inode_other _ _ Hly) by (try done; by rewrite En). by eapply freed_inode.
  - apply (put_inode_meta _ _ Hly); [done..|]. by eapply freed_meta.
Qed.

Lemma dinode_ok_trunc i : dinode_ok (to_dinode i) -> dinode_ok (to_dinode (truncated i)).
Proof. intros []. split; simpl in *; try done; repeat constructor; done. Qed.

Lemma freed_file_held v v' i H : file_free v i H -> held_safe x v H -> freed v v' (owns v i) -> held_safe x v' H.
Proof.
  intros Hff Hh Hf. eapply freed_held; [done|done|]. intros h c Hc [Hnz [->|(k & Hk & ->)]].
  - by apply (proj2 (Hff h)). - by apply (proj1 (Hff h) k).
Qed.

Lemma wp_itrunc L v H ic ip s :
  let i := ic ip in let n := IBLOCK (i_inum i) x in
  FT L v H ic x s -> freeable L v i H -> 0 <= i_inum i < sb_ninodes x -> dinode_ok (to_dinode i) ->
  (forall j, H !! j <> Some n) ->
  wp (itrunc ip) (fun _ s' => exists L' v' ic', FT L' v' H ic' x s' /\ L' ⊆ {[n]} ∪ ({[bm]} ∪ L) /\
    cache_at ic ic' ip (truncated i) /\ released v v' i (truncated i) /\ held_safe x v' H) s.
Proof.
  intros i n HT Hfb Hn Hd Hh. pose proof Hfb as [Hi Hm Hhs Hff Hr Hc]. unfold itrunc.
  wp_call wp_itrunc_first; [done|done|]. intros [] s1 (L1 & v1 & ic1 & H1 & HL1 & Hc1 & Hf1).
  rewrite <- bind_assoc_wp.
  wp_call (wp_itrunc_second L L1 v v1 H ic ic1); [done|done|done|done|done|].
  intros [] s2 (L2 & v2 & ic2 & H2 & HL2 & Hc2 & Hf2).
  wp_call FT_upd_ino; [done|]. intros [] s3 H3.
  pose proof (cache_at_alter ic2 ip (set_i_size 0)) as Hc3. rewrite (proj1 Hc2) in Hc3.
  pose proof (subseteq_size _ _ HL2) as HsL.
  pose proof (wp_iupdate x nmeta Hly L2 v2 H _ ip s3 H3) as Hu. cbv zeta in Hu. rewrite (proj1 Hc3) in Hu.
  eapply wp_mono; [apply Hu; try done; try lia; apply Hi|].
  intros [] s4 H4. eexists _, _, _. split; [exact H4|].
  split; [by apply union_mono_l|]. split; [eapply cache_at_trans; [apply Hc2|apply Hc3]|].
  destruct (IBLOCK_range _ _ _ _ Hly _ Hn) as (_ & _ & Hnd & _ & _).
  split; [apply freed_released; try done|].
  - by eapply FT_view.
  - by apply (dinode_ok_trunc i).
  - eapply held_safe_mono; [|by eapply freed_file_held]. intros c Hcr Huc.
    by rewrite (put_inode_used _ _ Hly).
Qed.

Lemma freeable_flags L v i H f : freeable L v i H -> freeable L v (set_i_flags f i) H.
Proof. intros [[] ? ? ? ? ?]. by split. Qed.

(** The disk copy is written once more, with another type. *)
Lemma released_again v v1 i i1 i' :
  released v v1 i i1 -> block_ok (v1 (IBLOCK (i_inum i) x)) -> 0 <= i_inum i < sb_ninodes x ->
  i_inum i' = i_inum i -> dinode_ok (to_dinode i') -> released v (put_inode x v1 i') i i'.
Proof.
  intros [] Hb Hn En Hd.
  assert (Hn' : 0 <= i_inum i' < sb_ninodes x) by (by rewrite En).
  assert (Hb' : block_ok (v1 (IBLOCK (i_inum i') x))) by (by rewrite En).
  assert (Hlen : length (i_addrs i') = S NDIRECT) by apply Hd.
  split.
  - intros c Hc. rewrite (put_inode_used _ _ Hly) by done. auto.
  - intros n Hn1 Hn2. rewrite put_inode_ne by (by rewrite En). auto.
  - by eapply put_inode_synced.
  - intros j Hj Hne. rewrite (put_inode_other _ _ Hly) by (try done; by rewrite En). auto.
  - by apply (put_inode_meta _ _ Hly).
Qed.

(** The inode that the last [iput] of an unlinked file leaves in its slot. *)
Definition reclaimed (i : inode) : inode := set_i_ref 0 (set_i_flags 0 (set_i_type 0 (truncated i))).

Lemma wp_iput_last L v H ic ip s :
  let i := ic ip in let n := IBLOCK (i_inum i) x in
  FT L v H ic x s -> freeable L v i H -> 0 <= i_inum i < sb_ninodes x -> dinode_ok (to_dinode i) ->
  (forall j, H !! j <> Some n) ->
  (base.size ({[n]} ∪ ({[bm]} ∪ L)) + base.size H < NBUF)%nat -> (base.size ({[n]} ∪ ({[bm]} ∪ L)) < cap)%nat ->
  i_ref i = 1 -> has (i_flags i) I_VALID = true -> has (i_flags i) I_BUSY = false -> i_nlink i = 0 ->
  wp (iput ip) (fun _ s' => exists L' v' ic', FT L' v' H ic' x s' /\ L' ⊆ {[n]} ∪ ({[bm]} ∪ L) /\
    cache_at ic ic' ip (reclaimed i) /\ released v v' i (reclaimed i) /\ held_safe x v' H) s.
Proof.
  intros i n HT Hfb Hn Hd Hh Hroom Hcap Hr1 Hv Hb Hnl. unfold iput.
  wp_call FT_acquire; [done|]. intros [] s1 H1. wp_call FTL_ino; [done|]. intros ? ? [-> ->]. fold i.
  rewrite Hr1, Hv, Hb, Hnl. simpl andb. cbv iota.
  rewrite !bind_assoc_wp. wp_call FTL_upd_ino; [done|]. intros [] s2 H2. rewrite bind_assoc_wp.
  wp_call FTL_release; [done|]. intros [] s3 H3. rewrite bind_assoc_wp.
  set (f := fun y => set_i_flags (set_flag (i_flags y) I_BUSY) y) in *.
  pose proof (cache_at_alter ic ip f) as Hc3. fold i in Hc3.
  set (i1 := f i) in *. set (ic1 := alter f ip ic) in *.
  pose proof (wp_itrunc L v H ic1 ip s3) as Ht. cbv zeta in Ht. rewrite (proj1 Hc3) in Ht.
  wp_call Ht; [done|by apply freeable_flags|done|by apply Hd|done|]. clear Ht.
  intros [] s4 (L4 & v4 & ic4 & H4 & HL4 & Hc4 & Hf4 & Hh4). rewrite bind_assoc_wp.
  wp_call FT_upd_ino; [done|]. intros [] s5 H5. rewrite bind_assoc_wp.
  pose proof (cache_at_alter ic4 ip (set_i_type 0)) as Hc5. rewrite (proj1 Hc4) in Hc5.
  set (i2 := set_i_type 0 (truncated i1)) in *. set (ic5 := alter (set_i_type 0) ip ic4) in *.
  pose proof (subseteq_size _ _ HL4) as HsL. change (i_inum i1) with (i_inum i) in HsL, HL4. fold n in HsL, HL4.
  assert (Hi := fb_ino _ _ _ _ Hfb).
  pose proof (wp_iupdate x nmeta Hly L4 v4 H ic5 ip s5 H5) as Hu. cbv zeta in Hu. rewrite (proj1 Hc5) in Hu.
  wp_call Hu; [by apply Hi|done|done|done|lia|lia|]. intros [] s6 H6. clear Hu.
  destruct (IBLOCK_range _ _ _ _ Hly _ Hn) as (_ & _ & Hnd & _ & _).
  assert (Hrel : released v (put_inode x v4 i2) i i2).
  { eapply released_again; [|by eapply FT_view|done|done|].
    - destruct Hf4. split; done.
    - assert (Hok := dinode_ok_trunc i Hd). destruct Hok. split; done. }
  rewrite bind_assoc_wp. wp_call FT_acquire; [done|]. intros [] s7 H7. rewrite bind_assoc_wp.
  wp_call FTL_upd_ino; [done|]. intros [] s8 H8. wp_call FTL_wakeup; [done|]. intros [] s9 H9.
  wp_call FTL_upd_ino; [done|]. intros [] s10 H10. wp_call FTL_release; [done|]. intros [] s11 H11.
  eexists _, _, _. split; [exact H11|].
  split; [apply union_least; [apply union_subseteq_l|done]|]. split; [|split].
  - split; [rewrite !fn_lookup_alter, (proj1 Hc5)|].
    + unfold reclaimed, i2. change (i_ref (set_i_flags 0 (set_i_type 0 (truncated i1)))) with (i_ref i).
      by rewrite Hr1.
    + intros j Hj. rewrite !fn_lookup_alter_ne by done. rewrite (proj2 Hc5), (proj2 Hc4), (proj2 Hc3) by done. done.
  - destruct Hrel. split; done.
  - eapply held_safe_mono; [|exact Hh4]. intros c Hcr Huc. by rewrite (put_inode_used _ _ Hly).
Qed.
End trunc.
