(* ===== verification/FsDir.v ===== *)
(** * Directories (fs.c: namecmp, dirlookup, dirlink)

    A directory is a file of 16-byte entries.  [dirlookup] returns the first
    entry in use with the name; [dirlink] fills the first free entry or
    appends one, after which the name is found, and no other name changes. *)

From S2P Require Import Prelude Params CString Spinlock Sched Ring Bio Log Crash Logop Txn Fs FsBlocks FsFile FsData FsInode FsIcache.

(** ** Entries *)

(** Entry [k] of the contents [d]. *)
Definition dent (d : list Z) (k : nat) : list Z := slice (16 * k) 16 d.
Definition vacant (d : list Z) (k : nat) : bool := de_inum (dent d k) =? 0.
Definition hit (name d : list Z) (k : nat) : bool :=
  negb (vacant d k) && (namecmp name (de_name (dent d k)) =? 0).
Definition dir_entries (d : list Z) : nat := length d / 16.

(** The first [j] in [k .. k + n) with [P j]. *)
Fixpoint first_from (P : nat -> bool) (k n : nat) : option nat :=
  match n with
  | O => None
  | S n => if P k then Some k else first_from P (S k) n
  end.
Definition dir_find (name d : list Z) : option nat := first_from (hit name d) 0 (dir_entries d).
(** The entry that [dirlink] fills. *)
Definition dir_slot (d : list Z) : nat := default (dir_entries d) (first_from (vacant d) 0 (dir_entries d)).

Lemma first_from_some P n : forall k j, first_from P k n = Some j <->
  (k <= j < k + n)%nat /\ P j = true /\ forall i, (k <= i < j)%nat -> P i = false.
Proof.
  induction n as [|n IH]; intros k j; cbn [first_from].
  { split; [done|lia]. }
  destruct (P k) eqn:E.
  - split; [intros [= <-]; split_and!; [lia|lia|done|intros; lia]|].
    intros (Hj & HP & Hlt). destruct (decide (j = k)) as [->|]; [done|]. rewrite Hlt in E by lia. done.
  - rewrite IH. split; intros (Hj & HP & Hlt); (split; [|split; [done|]]).
    + lia. + intros i Hi. destruct (decide (i = k)) as [->|]; [done|]. apply Hlt. lia.
    + destruct (decide (j = k)) as [->|]; [congruence|lia]. + intros i Hi. apply Hlt. lia.
Qed.

Lemma first_from_none P n : forall k, first_from P k n = None <-> forall i, (k <= i < k + n)%nat -> P i = false.
Proof.
  induction n as [|n IH]; intros k; cbn [first_from].
  { split; [intros _ i; lia|done]. }
  destruct (P k) eqn:E.
  - split; [done|]. intros H. rewrite H in E by lia. done.
  - rewrite IH. split; intros H i Hi; [|apply H; lia].
    destruct (decide (i = k)) as [->|]; [done|apply H; lia].
Qed.

(** The names are equal as [namecmp] compares them. *)
Lemma namecmp_zero s t : (namecmp s t =? 0) = bool_decide (str_take DIRSIZ s = str_take DIRSIZ t).
Proof.
  unfold namecmp. case_bool_decide as E; rewrite <- strncmp_l_zero in E; [by apply Z.eqb_eq|by apply Z.eqb_neq].
Qed.

Lemma length_mk_dirent inum name : length (mk_dirent inum (strncpy_l name DIRSIZ)) = 16%nat.
Proof. unfold mk_dirent. by rewrite length_app, length_strncpy_l. Qed.

Lemma mk_dirent_inum inum name : 0 <= inum < 65536 -> de_inum (mk_dirent inum name) = inum.
Proof.
  intros Hi. unfold de_inum, mk_dirent. rewrite take_app_length'; [|done].
  rewrite le_val_le_bytes. change (256 ^ Z.of_nat 2) with 65536. by rewrite Z.mod_small.
Qed.
Lemma mk_dirent_name inum name : de_name (mk_dirent inum name) = name.
Proof. unfold de_name, mk_dirent. by rewrite drop_app_length'. Qed.

Lemma dir_slot_le d : (dir_slot d <= dir_entries d)%nat.
Proof.
  unfold dir_slot. destruct (first_from _ _ _) eqn:E; simpl; [|done]. apply first_from_some in E. lia.
Qed.

Section link.
Context (d : list Z) (inum : Z) (name : list Z).
Hypothesis Hd : (length d mod 16 = 0)%nat.
Hypothesis Hinum : 0 < inum < 65536.

Definition linked : list Z := overwrite (16 * dir_slot d) (mk_dirent inum (strncpy_l name DIRSIZ)) d.

Lemma dir_length : length d = (16 * dir_entries d)%nat.
Proof. unfold dir_entries. pose proof (Nat.div_mod_eq (length d) 16). lia. Qed.

Lemma linked_length : length linked = Nat.max (length d) (16 * dir_slot d + 16).
Proof.
  unfold linked, overwrite. rewrite !length_app, length_take, length_drop, length_mk_dirent.
  pose proof (dir_slot_le d). pose proof dir_length. lia.
Qed.

Lemma linked_entries : dir_entries linked = Nat.max (dir_entries d) (S (dir_slot d)).
Proof.
  unfold dir_entries at 1. rewrite linked_length, dir_length.
  replace (Nat.max (16 * dir_entries d) (16 * dir_slot d + 16))
    with (Nat.max (dir_entries d) (S (dir_slot d)) * 16)%nat by lia. apply Nat.div_mul. lia.
Qed.

Lemma linked_slot : dent linked (dir_slot d) = mk_dirent inum (strncpy_l name DIRSIZ).
Proof.
  unfold dent, slice, linked, overwrite. pose proof (dir_slot_le d). pose proof dir_length.
  rewrite drop_app_length' by (rewrite length_take; lia).
  rewrite take_app_length'; [done|]. by rewrite length_mk_dirent.
Qed.

Lemma linked_other k : k <> dir_slot d -> dent linked k = dent d k.
Proof.
  intros Hk. unfold dent, slice. apply list_eq. intros j. pose proof (dir_slot_le d). pose proof dir_length.
  destruct (decide (j < 16)%nat); [|by rewrite !lookup_take_ge by lia].
  rewrite !lookup_take_lt, !lookup_drop by done. unfold linked.
  rewrite lookup_overwrite by lia. rewrite length_mk_dirent. repeat case_decide; done || lia.
Qed.

(** The name is found, at the entry that was filled. *)
Lemma linked_find : dir_find name d = None ->
  dir_find name linked = Some (dir_slot d) /\ de_inum (dent linked (dir_slot d)) = inum.
Proof.
  intros Hn. rewrite linked_slot, mk_dirent_inum by lia. split; [|done].
  pose proof (proj1 (first_from_none _ _ _) Hn) as Hnone. apply first_from_some.
  rewrite linked_entries. split; [lia|]. split.
  - unfold hit, vacant. rewrite linked_slot, mk_dirent_inum, mk_dirent_name, namecmp_zero, str_take_strncpy by lia.
    rewrite bool_decide_eq_true_2 by done. rewrite (proj2 (Z.eqb_neq _ _)) by lia. done.
  - intros i Hi. unfold hit, vacant. rewrite linked_other by lia. apply Hnone. pose proof (dir_slot_le d). lia.
Qed.

(** Lookups of other names are as before. *)
Lemma linked_find_other name' : str_take DIRSIZ name' <> str_take DIRSIZ name ->
  dir_find name' linked = dir_find name' d /\
  forall k, dir_find name' d = Some k -> dent linked k = dent d k.
Proof.
  intros Hne. assert (Hslot : hit name' linked (dir_slot d) = false).
  { unfold hit. rewrite linked_slot, mk_dirent_name, namecmp_zero, str_take_strncpy.
    rewrite bool_decide_eq_false_2 by done. by rewrite andb_false_r. }
  assert (Hold : (dir_slot d < dir_entries d)%nat -> hit name' d (dir_slot d) = false).
  { unfold hit, dir_slot. destruct (first_from _ _ _) eqn:E; simpl; [|lia].
    apply first_from_some in E as (_ & -> & _). done. }
  assert (Hk : forall k, k <> dir_slot d -> hit name' linked k = hit name' d k).
  { intros k Hk. unfold hit, vacant. by rewrite linked_other. }
  unfold dir_find. rewrite linked_entries. destruct (first_from (hit name' d) 0 (dir_entries d)) as [j|] eqn:E.
  - apply first_from_some in E as (Hj & Hh & Hlt).
    assert (j <> dir_slot d) by (intros ->; rewrite Hold in Hh by lia; done). split.
    + apply first_from_some. split; [lia|]. split; [by rewrite Hk|]. intros i Hi.
      destruct (decide (i = dir_slot d)) as [->|]; [done|]. rewrite Hk by done. by apply Hlt.
    + intros k [= <-]. by apply linked_other.
  - split; [|done]. apply first_from_none. intros i Hi. pose proof (proj1 (first_from_none _ _ _) E) as Hn.
    destruct (decide (i = dir_slot d)) as [->|]; [done|]. rewrite Hk by done. apply Hn. pose proof (dir_slot_le d). lia.
Qed.
End link.

(** ** dirlookup *)

(** The effect of [iget] on the cache. *)
Definition got (dev inum : Z) (ic ic' : nat -> inode) (ip : nat) : Prop :=
  icache_ok ic' /\ cached ic' dev inum ip /\ (forall j, j <> ip -> ic' j = ic j) /\
  (cached ic dev inum ip /\ ic' ip = set_i_ref (i_ref (ic ip) + 1) (ic ip) \/
   (forall j, ~ cached ic dev inum j) /\ i_ref (ic ip) = 0 /\ ic' ip = new_entry dev inum (ic ip)).

(** There is a cache entry for the inode. *)
Definition gettable (dev inum : Z) (ic : nat -> inode) : Prop :=
  icache_ok ic /\ (exists i, (i < NINODE)%nat /\ (i_ref (ic i) = 0 \/ cached ic dev inum i)) /\
  (forall i, cached ic dev inum i -> i_ref (ic i) < 2147483646).

(** Changing an entry without giving it a new identity or new references. *)
Lemma icache_ok_at ic ic' ip i : icache_ok ic -> cache_at ic ic' ip i ->
  i_dev i = i_dev (ic ip) -> i_inum i = i_inum (ic ip) ->
  0 <= i_ref i <= i_ref (ic ip) \/ i_ref i = i_ref (ic ip) -> icache_ok ic'.
Proof.
  intros [Hr Hu] [E Hne] Ed Ei Href.
  assert (Hs : forall j, 0 <= i_ref (ic' j) <= i_ref (ic j) \/ i_ref (ic' j) = i_ref (ic j)).
  { intros j. destruct (decide (j = ip)) as [->|]; [by rewrite E|right; by rewrite Hne]. }
  assert (Hid : forall j, i_dev (ic' j) = i_dev (ic j) /\ i_inum (ic' j) = i_inum (ic j)).
  { intros j. destruct (decide (j = ip)) as [->|]; [by rewrite E|by rewrite Hne]. }
  split.
  - intros j Hj. specialize (Hr j Hj). specialize (Hs j). lia.
  - intros a b Ha Hb Hpa Hpb Edev Einum. destruct (Hid a) as [E1 E2], (Hid b) as [E3 E4].
    apply Hu; try done; try congruence; [specialize (Hs a)|specialize (Hs b)]; lia.
Qed.

Section dir.
Context {dsz : Z} {cap : nat} {wr : Z -> Prop} {T TL} {TS : TxnStore dsz cap wr T TL}.
Context (x : superblock) (nmeta : Z).
Hypothesis Hly : layout dsz wr x nmeta.
Notation FT := (FT (T := T)).

(** What a directory lookup needs. *)
Record readable_dir (L : gset Z) (v : Z -> list Z) (H : gmap nat Z) (i : inode) : Prop := {
  rd_ok : ino_ok x nmeta v i;
  rd_free : file_free v i H;
  rd_room : (base.size L + base.size H < NBUF)%nat;
  rd_holes : no_holes v i;
  rd_type : i_type i = T_DIR;
  rd_size : i_size i mod 16 = 0 }.

Lemma length_file_data v i : length (file_data v i) = Z.to_nat (i_size i).
Proof. unfold file_data. by rewrite length_fmap, length_seqZ. Qed.

Lemma dir_size L v H i : readable_dir L v H i -> i_size i = 16 * Z.of_nat (dir_entries (file_data v i)).
Proof.
  intros []. destruct rd_holes0 as [Hs _]. unfold dir_entries. rewrite length_file_data.
  rewrite Nat2Z.inj_div, Z2Nat.id by lia. change (Z.of_nat 16) with 16. zlia.
Qed.

Context (dev_read : Z -> option (nat -> Z -> M fs_st (Z * list Z))).

Lemma wp_read_dirent L v H ic dp k s :
  FT L v H ic x s -> let i := ic dp in let d := file_data v i in
  readable_dir L v H i -> (k < dir_entries d)%nat ->
  wp (readi dev_read dp (16 * Z.of_nat k) 16) (fun r s' => FT L v H ic x s' /\ r = (16, dent d k)) s.
Proof.
  intros HT i d Hrd Hk. pose proof (dir_size _ _ _ _ Hrd) as Hsz. fold d in Hsz. destruct Hrd.
  pose proof (proj1 rd_holes0) as Hs. assert (HM : MAXBLK * 512 = 71680) by done.
  eapply wp_mono; [eapply (wp_readi x nmeta Hly); try done|].
  - change (i_type i <> T_DEV). by rewrite rd_type0.
  - unfold is_u32. lia.
  - intros r s' [H' ->]. split; [done|]. fold i.
    replace ((i_size i <? 16 * Z.of_nat k) || (4294967296 <=? 16 * Z.of_nat k + 16)) with false by lia.
    cbv zeta. replace (Z.min 16 (i_size i - 16 * Z.of_nat k)) with 16 by lia. f_equal.
    unfold dent, d. f_equal. lia.
Qed.

Lemma wp_dirlookup_loop L v H ic dp name n : forall k s,
  FT L v H ic x s -> let i := ic dp in let d := file_data v i in
  readable_dir L v H i -> (k + n = dir_entries d)%nat ->
  (forall j, first_from (hit name d) k n = Some j -> gettable (i_dev i) (de_inum (dent d j)) ic) ->
  wp (dirlookup_loop dev_read (S n) dp name (16 * Z.of_nat k)) (fun r s' =>
    match first_from (hit name d) k n with
    | None => r = None /\ FT L v H ic x s'
    | Some j => exists ip ic', r = Some (ip, 16 * Z.of_nat j) /\ FT L v H ic' x s' /\
                  got (i_dev i) (de_inum (dent d j)) ic ic' ip
    end) s.
Proof.
  induction n as [|n IH]; intros k s HT i d Hrd Hk Hget; pose proof (dir_size _ _ _ _ Hrd) as Hsz; fold d in Hsz;
    cbn [dirlookup_loop first_from]; (wp_call FT_ino; [done|]; intros ? ? [-> ->]; fold i).
  { replace (16 * Z.of_nat k <? i_size i) with false by lia. by apply wp_ret. }
  replace (16 * Z.of_nat k <? i_size i) with true by lia. simpl negb. cbv iota.
  wp_call wp_read_dirent; [done|done|fold i d; lia|]. intros r s1 [H1 ->]. fold i d. rewrite Z.eqb_refl. simpl negb.
  cbv iota. cbn [first_from] in Hget. unfold hit at 1 in Hget. unfold hit at 1. unfold vacant at 1 in Hget. unfold vacant at 1.
  assert (Hrec : forall s1, FT L v H ic x s1 ->
    (forall j, first_from (hit name d) (S k) n = Some j -> gettable (i_dev i) (de_inum (dent d j)) ic) ->
    wp (dirlookup_loop dev_read (S n) dp name (16 * Z.of_nat k + 16)) (fun r s' =>
      match first_from (hit name d) (S k) n with
      | None => r = None /\ FT L v H ic x s'
      | Some j => exists ip ic', r = Some (ip, 16 * Z.of_nat j) /\ FT L v H ic' x s' /\
                  got (i_dev i) (de_inum (dent d j)) ic ic' ip
      end) s1).
  { intros s2 H2 Hg. replace (16 * Z.of_nat k + 16) with (16 * Z.of_nat (S k)) by lia.
    apply IH; try done. fold i d. lia. }
  destruct (Z.eqb_spec (de_inum (dent d k)) 0) as [E0|E0]; simpl negb in *; simpl andb in *; cbv iota in *.
  { by apply Hrec. }
  destruct (Z.eqb_spec (namecmp name (de_name (dent d k))) 0) as [E1|E1]; [|by apply Hrec].
  destruct (Hget k eq_refl) as (Hok & Hslot & Hmax).
  wp_call FT_ino; [done|]. intros ? ? [-> ->]. fold i.
  wp_call wp_iget; [done|done|done|done|]. intros ip s2 (ic' & H2 & Hok' & Hc & Hne & Hcase).
  apply wp_ret. exists ip, ic'. by split_and!.
Qed.

Lemma wp_dirlookup L v H ic dp name s :
  FT L v H ic x s -> let i := ic dp in let d := file_data v i in
  readable_dir L v H i ->
  (forall j, dir_find name d = Some j -> gettable (i_dev i) (de_inum (dent d j)) ic) ->
  wp (dirlookup dev_read dp name) (fun r s' =>
    match dir_find name d with
    | None => r = None /\ FT L v H ic x s'
    | Some j => exists ip ic', r = Some (ip, 16 * Z.of_nat j) /\ FT L v H ic' x s' /\
                  got (i_dev i) (de_inum (dent d j)) ic ic' ip
    end) s.
Proof.
  intros HT i d Hrd Hget. unfold dirlookup. wp_call FT_ino; [done|]. intros ? ? [-> ->]. fold i.
  rewrite (rd_type _ _ _ _ Hrd). simpl negb. cbv iota. pose proof (dir_size _ _ _ _ Hrd) as Hsz. fold d in Hsz.
  replace (Z.to_nat (i_size i / 16 + 1)) with (S (dir_entries d)) by zlia.
  change 0 with (16 * Z.of_nat 0). by apply wp_dirlookup_loop.
Qed.

(** ** dirlink *)

Context (dev_write : Z -> option (nat -> list Z -> M fs_st Z)).

Lemma wp_dirlink_loop L v H ic dp n : forall k s,
  FT L v H ic x s -> let i := ic dp in let d := file_data v i in
  readable_dir L v H i -> (k + n = dir_entries d)%nat ->
  wp (dirlink_loop dev_read (S n) dp (16 * Z.of_nat k)) (fun off s' =>
    FT L v H ic x s' /\ off = 16 * Z.of_nat (default (dir_entries d) (first_from (vacant d) k n))) s.
Proof.
  induction n as [|n IH]; intros k s HT i d Hrd Hk; pose proof (dir_size _ _ _ _ Hrd) as Hsz; fold d in Hsz;
    cbn [dirlink_loop first_from]; (wp_call FT_ino; [done|]; intros ? ? [-> ->]; fold i).
  { replace (16 * Z.of_nat k <? i_size i) with false by lia. apply wp_ret. split; [done|]. simpl. lia. }
  replace (16 * Z.of_nat k <? i_size i) with true by lia. simpl negb. cbv iota.
  wp_call wp_read_dirent; [done|done|fold i d; lia|]. intros r s1 [H1 ->]. fold i d. rewrite Z.eqb_refl. simpl negb.
  cbv iota. unfold vacant at 1. destruct (de_inum (dent d k) =? 0); [by apply wp_ret|].
  replace (16 * Z.of_nat k + 16) with (16 * Z.of_nat (S k)) by lia. apply IH; try done. fold i d. lia.
Qed.

(** The name is taken: nothing is written and the reference is dropped again. *)
Lemma wp_dirlink_taken L v H ic dp name inum s j :
  FT L v H ic x s -> let i := ic dp in let d := file_data v i in
  readable_dir L v H i -> dir_find name d = Some j -> gettable (i_dev i) (de_inum (dent d j)) ic ->
  wp (dirlink dev_read dev_write dp name inum) (fun r s' => r = -1 /\ exists ic',
    FT L v H ic' x s' /\ icache_ok ic' /\ forall k, i_ref (ic' k) = i_ref (ic k)) s.
Proof.
  intros HT i d Hrd Hfind Hget. unfold dirlink.
  wp_call wp_dirlookup; [done|done|fold i d; rewrite Hfind; by intros ? [= <-]|]. fold i d. rewrite Hfind.
  intros r s1 (ip & ic1 & -> & H1 & Hok & (Hlt & Hpos & Hdv & Hin) & Hne & Hcase).
  pose proof (ico_ref _ Hok ip Hlt) as Hmax.
  wp_call wp_iput_ref; [done|lia| |].
  { destruct Hcase as [[Hc ->]|(_ & Hz & ->)]; [left|right; left; done]. simpl. destruct Hc as (_ & ? & _). lia. }
  intros [] s2 (ic2 & H2 & Hc2). apply wp_ret. split; [done|]. exists ic2. split; [done|].
  assert (Href : forall k, i_ref (ic2 k) = i_ref (ic k)).
  { intros k. destruct (decide (k = ip)) as [->|]; [|by rewrite (proj2 Hc2), Hne].
    rewrite (proj1 Hc2). destruct Hcase as [[_ ->]|(_ & Hz & ->)]; simpl; lia. }
  split; [|done]. eapply icache_ok_at; [done|done|done|done|]. simpl. lia.
Qed.

(** The name is free: its entry is filled. *)
Lemma wp_dirlink_free L v H ic dp name inum s :
  FT L v H ic x s -> let i := ic dp in let d := file_data v i in
  readable_dir L v H i -> writable x nmeta v i H -> dir_find name d = None -> bytes_ok (str_take DIRSIZ name) ->
  0 <= inum < 65536 -> Z.of_nat (dir_slot d) < 4480 -> (2 <= nfree x v)%nat ->
  (weight x L i + base.size H + 7 < NBUF)%nat -> (weight x L i + 6 < cap)%nat ->
  wp (dirlink dev_read dev_write dp name inum) (fun r s' => r = 0 /\ exists L' v' ic' i',
    FT L' v' H ic' x s' /\ cache_at ic ic' dp i' /\ file_data v' i' = linked d inum name /\
    wrote x nmeta v v' i i' (16 * Z.of_nat (dir_slot d)) (mk_dirent inum (strncpy_l name DIRSIZ)) /\
    writable x nmeta v' i' H /\ (base.size L' <= weight x L i + 3)%nat) s.
Proof.
  intros HT i d Hrd Hwb Hfind Hname Hinum Hfull Hnf Hw1 Hw2. unfold dirlink.
  wp_call wp_dirlookup; [done|done|fold i d; by rewrite Hfind|]. fold i d. rewrite Hfind. intros r s1 [-> H1].
  wp_call FT_ino; [done|]. intros ? ? [-> ->]. fold i. pose proof (dir_size _ _ _ _ Hrd) as Hsz. fold d in Hsz.
  replace (Z.to_nat (i_size i / 16 + 1)) with (S (dir_entries d)) by zlia.
  change (dirlink_loop dev_read (S (dir_entries d)) dp 0) with (dirlink_loop dev_read (S (dir_entries d)) dp (16 * Z.of_nat 0)).
  wp_call wp_dirlink_loop; [done|done|done|]. fold i d. intros off s2 [H2 ->].
  change (default (dir_entries d) (first_from (vacant d) 0 (dir_entries d))) with (dir_slot d).
  replace (u16 inum) with inum by (symmetry; by apply Z.mod_small). set (de := mk_dirent inum (strncpy_l name DIRSIZ)).
  assert (Hlen : Z.of_nat (length de) = 16) by (unfold de; by rewrite length_mk_dirent).
  pose proof (dir_slot_le d) as Hle.
  assert (Hnb : nblks (16 * Z.of_nat (dir_slot d)) 16 = 1) by (unfold nblks; cbn [Z.leb Z.compare]; zlia).
  assert (HM : MAXOFF = 71680) by done.
  wp_call (wp_writei x nmeta Hly dev_write L v H ic dp de (16 * Z.of_nat (dir_slot d))); [done|done| | | | | | |].
  - unfold de, mk_dirent. apply Forall_app. split; [apply le_bytes_ok|]. apply Forall_app. split; [done|by apply Forall_replicate].
  - unfold is_u32. lia.
  - unfold writei_fails. fold i. rewrite Hlen. lia.
  - rewrite Hlen, Hnb. right. lia.
  - rewrite Hlen, Hnb. fold i. lia.
  - rewrite Hlen, Hnb. fold i. lia.
  - rewrite Hlen, Hnb. fold i. intros r s3 (-> & L' & v' & ic' & i' & H3 & Hc & Hw & Hwb' & Hs).
    simpl negb. cbv iota. apply wp_ret. split; [done|]. exists L', v', ic', i'. split_and!; try done; [|lia].
    rewrite (wt_data _ _ _ _ _ _ _ _ Hw). unfold linked. f_equal. lia.
Qed.
End dir.
