(* ===== verification/FsIalloc.v ===== *)
(** * Allocation of inodes (fs.c: ialloc)

    [ialloc] takes the first inode of the disk whose type is 0, clears it,
    gives it its type and returns a reference to it; without a free inode it
    stops the machine. *)

From S2P Require Import Prelude Params CString Spinlock Sched Ring Bio Log Crash Logop Txn Fs FsBlocks FsFile FsData FsInode FsIcache FsDir.

(** The disk copy of a new inode. *)
Definition fresh_dinode (type : Z) : dinode := Dinode type 0 0 0 0 (replicate (S NDIRECT) 0).
Definition fresh_record (type : Z) (off : nat) (d : list Z) : list Z :=
  put_half off type (splice off (replicate 64 0) d).

Section record.
Context (type : Z) (off : nat) (d : list Z).
Hypothesis Hoff : (off + 64 <= length d)%nat.

Lemma cleared_length : length (splice off (replicate 64 0) d) = length d.
Proof. apply length_splice. by rewrite length_replicate. Qed.

Lemma cleared_slice o n : (off <= o)%nat -> (o + n <= off + 64)%nat ->
  slice o n (splice off (replicate 64 0) d) = replicate n 0.
Proof.
  intros Ho Hn. apply list_eq. intros i. unfold slice, splice.
  destruct (decide (i < n)%nat).
  - rewrite lookup_take_lt, lookup_drop by done. rewrite lookup_app_r by (rewrite length_take; lia).
    rewrite lookup_app_l by (rewrite length_take, length_replicate; lia). rewrite !lookup_replicate_2; [done|lia|].
    rewrite length_take. lia.
  - rewrite lookup_take_ge by lia. symmetry. apply lookup_ge_None. rewrite length_replicate. lia.
Qed.

Lemma le_val_zeros n : le_val (replicate n 0) = 0.
Proof. induction n as [|n IH]; [done|]. cbn [replicate le_val]. rewrite IH. done. Qed.

Lemma decode_fresh : is_s16 type -> decode_dinode off (fresh_record type off d) = fresh_dinode type.
Proof.
  intros Ht. pose proof cleared_length as Hl. unfold decode_dinode, fresh_record.
  rewrite get_put_half, s16_small by (done || lia). unfold get_half, get_word.
  rewrite !slice_put_half_ne, !cleared_slice, !le_val_zeros by lia. unfold fresh_dinode. f_equal.
  apply list_eq. intros k. rewrite list_lookup_fmap. destruct (decide (k < S NDIRECT)%nat).
  - rewrite lookup_seq_lt, lookup_replicate_2 by done. cbn [fmap option_fmap option_map]. f_equal.
    unfold NDIRECT in *. rewrite slice_put_half_ne, cleared_slice, le_val_zeros by lia. done.
  - rewrite lookup_seq_ge by lia. symmetry. apply lookup_ge_None. rewrite length_replicate. lia.
Qed.

Lemma fresh_slice o n : (o + n <= off \/ off + 64 <= o)%nat -> slice o n (fresh_record type off d) = slice o n d.
Proof.
  intros Ho. unfold fresh_record. rewrite slice_put_half_ne by (rewrite ?cleared_length; lia).
  apply slice_splice_ne; rewrite length_replicate; lia.
Qed.

Lemma decode_fresh_other off' : (off' + 64 <= off \/ off + 64 <= off')%nat ->
  decode_dinode off' (fresh_record type off d) = decode_dinode off' d.
Proof.
  intros Ho. unfold decode_dinode, get_half, get_word. rewrite !fresh_slice by lia. f_equal.
  apply list_fmap_ext. intros k j Hj. apply lookup_seq in Hj as [-> Hj].
  unfold NDIRECT in Hj. by rewrite fresh_slice by lia.
Qed.

Lemma fresh_bytes : bytes_ok d -> block_ok (fresh_record type off d) \/ length d <> BSIZE.
Proof.
  intros Hd. destruct (decide (length d = BSIZE)) as [E|]; [left|by right]. split.
  - unfold fresh_record. rewrite length_put_half by (rewrite cleared_length; lia). by rewrite cleared_length.
  - apply Forall_splice; [apply le_bytes_ok|]. apply Forall_splice; [|done]. by apply Forall_replicate.
Qed.
End record.

(** The first free inode. *)
Definition free_inode (x : superblock) (v : Z -> list Z) (t : Z) : Prop :=
  1 <= t < sb_ninodes x /\ d_type (disk_inode x v t) = 0 /\
  forall j, 1 <= j < t -> d_type (disk_inode x v j) <> 0.

Definition put_fresh (x : superblock) (v : Z -> list Z) (t type : Z) : Z -> list Z :=
  <[IBLOCK t x := fresh_record type (dinode_off t) (v (IBLOCK t x))]> v.

Section ialloc.
Context {dsz : Z} {cap : nat} {wr : Z -> Prop} {T TL} {TS : TxnStore dsz cap wr T TL}.
Context (x : superblock) (nmeta : Z).
Hypothesis Hly : layout dsz wr x nmeta.
Notation FT := (FT (T := T)).

Lemma put_fresh_inode v t type : (forall n, 0 <= n < dsz -> block_ok (v n)) -> 1 <= t < sb_ninodes x -> is_s16 type ->
  disk_inode x (put_fresh x v t type) t = fresh_dinode type /\
  (forall j, 0 <= j < sb_ninodes x -> j <> t -> disk_inode x (put_fresh x v t type) j = disk_inode x v j) /\
  (forall n, n <> IBLOCK t x -> put_fresh x v t type n = v n).
Proof.
  intros Hv Ht Hty. destruct (IBLOCK_range _ _ _ _ Hly t) as (_ & _ & Hn & _); [lia|].
  assert (Hoff : (dinode_off t + 64 <= length (v (IBLOCK t x)))%nat).
  { rewrite (proj1 (Hv _ Hn)). apply dinode_off_range. }
  unfold put_fresh, disk_inode. split_and!.
  - rewrite fn_lookup_insert. by apply decode_fresh.
  - intros j Hj Hne. destruct (decide (IBLOCK j x = IBLOCK t x)) as [E|E]; [|by rewrite fn_lookup_insert_ne].
    rewrite E, fn_lookup_insert. apply decode_fresh_other; [done|].
    apply (dinode_off_apart _ _ _ _ Hly) in E; [lia|lia|lia|done].
  - intros n Hne. by apply fn_lookup_insert_ne.
Qed.

Section loop.
Context (L : gset Z) (v : Z -> list Z) (H : gmap nat Z) (ic : nat -> inode) (type : Z).
Hypothesis Hfree : forall j, 0 <= j < sb_ninodes x -> forall h, H !! h <> Some (IBLOCK j x).
Hypothesis Hroom : (base.size L + base.size H < NBUF)%nat.

Lemma wp_ialloc_loop t n : forall k s,
  FT L v H ic x s -> free_inode x v t -> gettable 1 t ic -> (base.size L < cap)%nat ->
  1 <= k <= t -> t < k + Z.of_nat n ->
  wp (ialloc_loop n 1 type k) (fun ip s' => exists ic',
    FT ({[IBLOCK t x]} ∪ L) (put_fresh x v t type) H ic' x s' /\ got 1 t ic ic' ip) s.
Proof.
  intros k s. revert k s. induction n as [|n IH]; intros k s HT Hf Hg Hc Hk Hn; [lia|].
  cbn [ialloc_loop]. wp_call FT_sb; [done|]. intros ? ? [-> ->]. destruct Hf as (Ht & Ht0 & Hbefore).
  replace (k <? sb_ninodes x) with true by lia. simpl negb. cbv iota.
  assert (Hkr : 0 <= k < sb_ninodes x) by lia.
  destruct (IBLOCK_range _ _ _ _ Hly _ Hkr) as (_ & _ & Hb & Hw & _).
  wp_call FT_bread; [done|done|by apply Hfree|by right|]. intros bp s1 [Hbp H1].
  wp_call FT_data; [done|apply lookup_insert_eq|]. intros ? ? [-> ->]. cbv zeta.
  change (decode_dinode (dinode_off k) (v (IBLOCK k x))) with (disk_inode x v k).
  destruct (Z.eqb_spec (d_type (disk_inode x v k)) 0) as [E|E].
  - assert (k = t) as ->. { destruct (decide (k < t)); [|lia]. exfalso. by apply (Hbefore k); [lia|]. }
    assert (Hbok : block_ok (v (IBLOCK t x))) by (by eapply FT_view).
    wp_call FT_write; [done|apply lookup_insert_eq| |done|done|].
    { destruct (fresh_bytes type (dinode_off t) (v (IBLOCK t x))) as [Hok|Hne]; [|apply Hbok|exact Hok|].
      - rewrite (proj1 Hbok). apply dinode_off_range. - by destruct Hne; apply Hbok. }
    intros [] s2 H2. wp_call FT_brelse; [done|apply lookup_insert_eq|]. rewrite delete_insert_id by done.
    intros [] s3 H3. destruct Hg as (Hok & Hslot & Hmax).
    eapply wp_mono; [eapply wp_iget; [done|done|done|done]|].
    intros ip s4 (ic' & H4 & Hrest). exists ic'. by split.
  - assert (k <> t) by (intros ->; done).
    wp_call FT_brelse; [done|apply lookup_insert_eq|]. rewrite delete_insert_id by done. intros [] s2 H2.
    apply IH; try done; lia.
Qed.

Lemma ialloc_loop_full n : forall k s,
  FT L v H ic x s -> (forall j, 1 <= j < sb_ninodes x -> d_type (disk_inode x v j) <> 0) -> 1 <= k ->
  panics "ialloc: no inodes" (ialloc_loop n 1 type k) s.
Proof.
  induction n as [|n IH]; intros k s HT Hf Hk; cbn [ialloc_loop];
    (eapply panics_bind; [by eapply FT_sb|]; intros ? ? [-> ->]); [apply panics_now|].
  destruct (Z.ltb_spec k (sb_ninodes x)); simpl negb; cbv iota; [|apply panics_now].
  assert (Hkr : 0 <= k < sb_ninodes x) by lia.
  destruct (IBLOCK_range _ _ _ _ Hly _ Hkr) as (_ & _ & Hb & _).
  eapply panics_bind; [eapply FT_bread; [done|done|by apply Hfree|by right]|]. intros bp s1 [Hbp H1].
  eapply panics_bind; [eapply FT_data; [done|apply lookup_insert_eq]|]. intros ? ? [-> ->]. cbv zeta.
  change (decode_dinode (dinode_off k) (v (IBLOCK k x))) with (disk_inode x v k).
  rewrite (proj2 (Z.eqb_neq _ _) (Hf k ltac:(lia))).
  eapply panics_bind; [eapply FT_brelse; [done|apply lookup_insert_eq]|]. rewrite delete_insert_id by done.
  intros [] s2 H2. apply IH; try done. lia.
Qed.
End loop.

Lemma wp_ialloc L v H ic type t s :
  FT L v H ic x s -> free_inode x v t -> gettable 1 t ic -> is_s16 type ->
  (forall j, 0 <= j < sb_ninodes x -> forall h, H !! h <> Some (IBLOCK j x)) ->
  (base.size L + base.size H < NBUF)%nat -> (base.size L < cap)%nat ->
  wp (ialloc 1 type) (fun ip s' => exists v' ic',
    FT ({[IBLOCK t x]} ∪ L) v' H ic' x s' /\ got 1 t ic ic' ip /\
    disk_inode x v' t = fresh_dinode type /\
    (forall j, 0 <= j < sb_ninodes x -> j <> t -> disk_inode x v' j = disk_inode x v j) /\
    (forall n, n <> IBLOCK t x -> v' n = v n)) s.
Proof.
  intros HT Hf Hg Hty Hfree Hr Hc. unfold ialloc. wp_call FT_sb; [done|]. intros ? ? [-> ->].
  eapply wp_mono; [eapply wp_ialloc_loop; try done; destruct Hf; lia|].
  intros ip s' (ic' & H' & Hgot). exists (put_fresh x v t type), ic'. split; [done|]. split; [done|].
  apply put_fresh_inode; [intros n Hn; by eapply FT_view|apply Hf|done].
Qed.

Lemma ialloc_full L v H ic type s :
  FT L v H ic x s -> (forall j, 1 <= j < sb_ninodes x -> d_type (disk_inode x v j) <> 0) ->
  (forall j, 0 <= j < sb_ninodes x -> forall h, H !! h <> Some (IBLOCK j x)) ->
  (base.size L + base.size H < NBUF)%nat -> panics "ialloc: no inodes" (ialloc 1 type) s.
Proof.
  intros HT Hf Hfree Hr. unfold ialloc. eapply panics_bind; [by eapply FT_sb|]. intros ? ? [-> ->].
  eapply ialloc_loop_full; try done; lia.
Qed.
End ialloc.
