(* ===== verification/FsPath.v ===== *)
(** * Path names (fs.c: skipelem, namex, namei, nameiparent)

    [skipelem] takes a path apart into its elements, and [namex] walks the
    directory tree of the disk along them: it returns the inode that the
    path names, with one reference, and drops every reference it took on
    the way. *)

From S2P Require Import Prelude Params CString Spinlock Sched Ring Bio Log Crash Logop Txn Fs FsBlocks FsFile FsData FsInode FsIcache FsDir.

(** ** skipelem *)

(** The text between slashes. *)
Fixpoint split_path (l : list Z) : list (list Z) :=
  match l with
  | [] => [[]]
  | c :: l => if c =? 47 then [] :: split_path l
              else match split_path l with w :: ws => (c :: w) :: ws | [] => [[c]] end
  end.
Definition elems (l : list Z) : list (list Z) := filter (fun w => w <> []) (split_path l).

Lemma elems_ok (P : Z -> Prop) l : Forall P l -> Forall (Forall P) (elems l).
Proof.
  intros Hl. cut (Forall (Forall P) (split_path l)).
  { intros H. apply Forall_forall. intros w [_ Hw]%list_elem_of_filter. by eapply Forall_forall in H. }
  induction Hl as [|c l Hc Hl IH]; cbn [split_path]; [by repeat constructor|].
  destruct (c =? 47); [by constructor|]. destruct (split_path l); [by repeat constructor|]. inversion_clear IH. by repeat constructor.
Qed.

Lemma elems_slash l : elems (47 :: l) = elems l.
Proof. done. Qed.

Lemma elems_skip l : elems (skip_slashes l) = elems l.
Proof.
  induction l as [|c l IH]; [done|]. cbn [skip_slashes].
  destruct (decide (c = 47)) as [->|Hc]; [by rewrite IH|].
  repeat (case_match; try done).
Qed.

Lemma skip_slashes_head l c l' : skip_slashes l = c :: l' -> c <> 47.
Proof.
  induction l as [|b l IH]; [done|]. destruct (decide (b = 47)) as [->|Hb]; [apply IH|].
  cbn [skip_slashes]. repeat (case_match; try (intros [= <- <-]); try done).
Qed.

Lemma length_skip_slashes l : (length (skip_slashes l) <= length l)%nat.
Proof.
  induction l as [|b l IH]; [done|]. destruct (decide (b = 47)) as [->|Hb]; [simpl; lia|].
  cbn [skip_slashes]. repeat (case_match; try (simpl in *; lia)).
Qed.
Lemma skip_slashes_ok (P : Z -> Prop) l : Forall P l -> Forall P (skip_slashes l).
Proof.
  induction 1 as [|b l Hb Hl IH]; [constructor|]. destruct (decide (b = 47)) as [->|Hne]; [done|].
  cbn [skip_slashes]. repeat (case_match; try (by constructor)); done.
Qed.

Lemma span_elem_spec l : let '(s, r) := span_elem l in
  l = s ++ r /\ (r = [] \/ head r = Some 47) /\
  elems l = (if decide (s = []) then elems r else s :: elems r) /\
  (forall c l', l = c :: l' -> c <> 47 -> s <> []).
Proof.
  assert (H : forall l, let '(s, r) := span_elem l in l = s ++ r /\
    (r = [] /\ split_path l = [s] \/ exists r', r = 47 :: r' /\ split_path l = s :: split_path r')).
  { clear l. induction l as [|c l IH]; [cbn; by auto|]. cbn [span_elem split_path].
    destruct (Z.eqb_spec c 47) as [->|Hc]; [by eauto|].
    destruct (span_elem l) as [s r]. destruct IH as [El [[-> Es]|(r' & -> & Es)]].
    - split; [by rewrite El|]. left. by rewrite Es.
    - split; [by rewrite El|]. right. exists r'. by rewrite Es. }
  specialize (H l). destruct (span_elem l) as [s r] eqn:E. destruct H as [El H]. split; [done|].
  assert (Hs : forall c l', l = c :: l' -> c <> 47 -> s <> []).
  { intros c l' -> Hc. cbn [span_elem] in E. rewrite (proj2 (Z.eqb_neq c 47) Hc) in E.
    destruct (span_elem l'). by injection E as <- _. }
  destruct H as [[-> Es]|(r' & -> & Es)]; (split; [by auto|]); (split; [|done]);
    unfold elems; rewrite Es, filter_cons; repeat case_decide; try done; by destruct s.
Qed.

(** [skipelem] fails exactly on paths without elements; otherwise it stores
    the first one (cut to [DIRSIZ] bytes) and returns the others. *)
Lemma skipelem_spec path name : length name = DIRSIZ -> Forall (fun b => b <> 0) path ->
  match skipelem path name with
  | None => elems path = []
  | Some (rest, name') => exists e, elems path = e :: elems rest /\ (rest = [] <-> elems rest = []) /\
      (length rest < length path)%nat /\ Forall (fun b => b <> 0) rest /\
      length name' = DIRSIZ /\ str_take DIRSIZ name' = str_take DIRSIZ e
  end.
Proof.
  intros Hn Hp. unfold skipelem. pose proof (elems_skip path) as He.
  pose proof (length_skip_slashes path) as Hlen. pose proof (skip_slashes_ok _ _ Hp) as Hp'.
  destruct (skip_slashes path) as [|c l] eqn:E; [by rewrite <- He|]. apply skip_slashes_head in E as Hc.
  pose proof (span_elem_spec (c :: l)) as Hs. destruct (span_elem (c :: l)) as [s r].
  destruct Hs as (El & Hr & Es & Hne). specialize (Hne _ _ eq_refl Hc).
  rewrite decide_False in Es by done. rewrite El in Hp'. apply Forall_app in Hp' as [Hs Hr0].
  exists s. split; [by rewrite elems_skip, <- He|]. split.
  { split; [by intros ->|]. intros Hnil. destruct (skip_slashes r) as [|c' l'] eqn:E'; [done|].
    apply skip_slashes_head in E' as Hc'. pose proof (span_elem_spec (c' :: l')) as Hs'.
    destruct (span_elem (c' :: l')) as [s' r']. destruct Hs' as (_ & _ & Es' & Hne').
    rewrite decide_False in Es' by (by eapply Hne'). congruence. }
  assert (Hls : (length s <> 0)%nat) by (by destruct s).
  assert (Hll : length (c :: l) = (length s + length r)%nat) by (by rewrite El, length_app).
  split; [pose proof (length_skip_slashes r); lia|]. split; [by apply skip_slashes_ok|].
  assert (Hcut : forall n (u : list Z), Forall (fun b => b <> 0) u -> str_take n u = take n u).
  { clear. induction n as [|n IH]; intros u Hu; [done|]. destruct Hu as [|b u Hb Hu]; [done|].
    cbn [str_take take]. rewrite (proj2 (Z.eqb_neq b 0) Hb). by rewrite IH. }
  assert (Hz : forall n (u w : list Z), Forall (fun b => b <> 0) u -> (length u < n)%nat -> str_take n (u ++ 0 :: w) = u).
  { clear. induction n as [|n IH]; intros u w Hu Hl; [lia|]. destruct Hu as [|b u Hb Hu]; [done|].
    cbn [str_take app]. rewrite (proj2 (Z.eqb_neq b 0) Hb). simpl in Hl. rewrite IH; [done|done|lia]. }
  unfold splice. case_decide as Hd; simpl app.
  - rewrite length_app, length_drop, !length_take. split; [lia|].
    rewrite drop_ge, app_nil_r by lia.
    rewrite !Hcut by (try done; by apply Forall_take). by rewrite take_take, Nat.min_id.
  - rewrite !length_app, length_drop, ?length_app. split; [simpl; lia|].
    rewrite <- app_assoc. cbn [app]. rewrite Hz by (done || lia). rewrite Hcut by done. by rewrite take_ge by lia.
Qed.

(** ** The directory tree on the disk *)

(** Inode [n] of the disk as a cache entry. *)
Definition disk_file (x : superblock) (v : Z -> list Z) (n : Z) : inode :=
  load_inode (disk_inode x v n) (Inode 1 n 1 I_VALID 0 0 0 0 0 []).
Definition dir_data (x : superblock) (v : Z -> list Z) (n : Z) : list Z := file_data v (disk_file x v n).
Definition is_dir (x : superblock) (v : Z -> list Z) (n : Z) : bool := d_type (disk_inode x v n) =? T_DIR.

(** The inode that the path elements [es] name from the directory [n]; with
    [parent] the last element is left out. *)
Fixpoint resolve (x : superblock) (v : Z -> list Z) (parent : bool) (n : Z) (es : list (list Z)) : option Z :=
  match es with
  | [] => if parent then None else Some n
  | e :: es =>
      if negb (is_dir x v n) then None
      else if parent && bool_decide (es = []) then Some n
      else match dir_find e (dir_data x v n) with
           | None => None
           | Some k => resolve x v parent (de_inum (dent (dir_data x v n) k)) es
           end
  end.

(** An inode that a directory entry may name. *)
Definition live (x : superblock) (v : Z -> list Z) (n : Z) : Prop :=
  0 <= n < sb_ninodes x /\ d_type (disk_inode x v n) <> 0 /\ d_nlink (disk_inode x v n) <> 0.

(** Every directory is well formed and its entries name live inodes. *)
Record tree_ok (x : superblock) (nmeta : Z) (v : Z -> list Z) : Prop := {
  tk_dir : forall n, live x v n -> is_dir x v n = true -> let i := disk_file x v n in
    ino_ok x nmeta v i /\ no_holes v i /\ i_size i mod 16 = 0;
  tk_entry : forall n k, live x v n -> is_dir x v n = true -> let d := dir_data x v n in
    (k < dir_entries d)%nat -> vacant d k = false -> live x v (de_inum (dent d k)) }.

(** A cache entry that is not locked and agrees with the disk. *)
Definition slot_ok (x : superblock) (v : Z -> list Z) (i : inode) : Prop :=
  0 < i_ref i -> i_dev i = 1 /\ has (i_flags i) I_BUSY = false /\
    (has (i_flags i) I_VALID = true -> synced x v i).

(** The cache while one reference to slot [ip] is held beyond those counted by
    [r]; a slot with references stands for inode [id]. *)
Record cache_inv (x : superblock) (v : Z -> list Z) (r id : nat -> Z) (held : option nat) (ic : nat -> inode) : Prop := {
  ci_ok : icache_ok ic;
  ci_slot : forall j, (j < NINODE)%nat -> slot_ok x v (ic j);
  ci_ref : forall j, (j < NINODE)%nat -> i_ref (ic j) = r j + if decide (held = Some j) then 1 else 0;
  ci_id : forall j, (j < NINODE)%nat -> 0 < r j -> i_inum (ic j) = id j }.

(** References can be taken: two free slots, and no counter near overflow. *)
Definition roomy (r : nat -> Z) : Prop :=
  (forall j, 0 <= r j < 2147483640) /\
  exists a b, (a < NINODE)%nat /\ (b < NINODE)%nat /\ a <> b /\ r a = 0 /\ r b = 0.

Lemma dir_find_ext e e' d : str_take DIRSIZ e = str_take DIRSIZ e' -> dir_find e d = dir_find e' d.
Proof.
  intros E. unfold dir_find. assert (Hh : forall k, hit e d k = hit e' d k).
  { intros k. unfold hit. by rewrite !namecmp_zero, E. }
  generalize (dir_entries d), 0%nat. intros n.
  induction n as [|n IH]; intros k; [done|]. cbn [first_from]. by rewrite Hh, IH.
Qed.

(** An entry that agrees with the disk has the file of the disk. *)
Lemma synced_file x v i : synced x v i ->
  i_size i = i_size (disk_file x v (i_inum i)) /\ i_addrs i = i_addrs (disk_file x v (i_inum i)) /\
  i_type i = d_type (disk_inode x v (i_inum i)) /\ i_nlink i = d_nlink (disk_inode x v (i_inum i)).
Proof. intros E. unfold synced in E. unfold disk_file. by rewrite E. Qed.

Lemma same_file_data v i i' : i_size i = i_size i' -> i_addrs i = i_addrs i' -> file_data v i = file_data v i'.
Proof.
  intros Es Ea. unfold file_data. rewrite Es. apply list_fmap_ext. intros k z _.
  unfold fbyte, blk, addr. by rewrite Ea.
Qed.

Lemma same_ino_ok x nmeta v i i' : i_addrs i = i_addrs i' -> i_dev i = i_dev i' ->
  ino_ok x nmeta v i' -> ino_ok x nmeta v i.
Proof.
  intros Ea Ed []. assert (Eb : forall k, blk v i k = blk v i' k) by (intros; unfold blk, addr; by rewrite Ea).
  split; unfold addr in *; rewrite ?Ea, ?Ed; try done; intros; rewrite ?Eb in *; auto.
Qed.

Lemma locked_facts x v i : slot_ok x v i -> 0 < i_ref i -> let l := locked_inode v x i in
  i_ref l = i_ref i /\ i_dev l = i_dev i /\ i_inum l = i_inum i /\ synced x v l /\
  has (i_flags l) I_BUSY = true /\ has (i_flags l) I_VALID = true.
Proof.
  intros Hs Hr l. destruct (Hs Hr) as (Hd & Hb & Hv). unfold l, locked_inode.
  destruct (has (i_flags i) I_VALID) eqn:E; simpl; autorewrite with flags; split_and!; try done.
  by apply Hv.
Qed.

(** A slot is changed and keeps its identity. *)
Lemma cache_inv_at x v r id ip held ic ic' i :
  cache_inv x v r id (Some ip) ic -> cache_at ic ic' ip i -> held = None \/ held = Some ip -> (ip < NINODE)%nat ->
  0 <= r ip -> slot_ok x v i -> i_dev i = i_dev (ic ip) -> i_inum i = i_inum (ic ip) ->
  i_ref i = r ip + (if decide (held = Some ip) then 1 else 0) -> cache_inv x v r id held ic'.
Proof.
  intros [Hok Hs Hr Hid] Hc Hh Hip Hr0 Hsi Ed Ei Href.
  assert (Hrip : i_ref (ic ip) = r ip + 1) by (rewrite Hr, decide_True by done; done). split.
  - eapply icache_ok_at; [done|done|done|done|]. rewrite Href, Hrip. case_decide; lia.
  - intros j Hj. destruct (decide (j = ip)) as [->|]; [by rewrite (proj1 Hc)|]. rewrite (proj2 Hc) by done. auto.
  - intros j Hj. destruct (decide (j = ip)) as [->|]; [by rewrite (proj1 Hc)|]. rewrite (proj2 Hc), Hr by done.
    rewrite (decide_False (P := Some ip = Some j)) by congruence. rewrite decide_False; [done|].
    destruct Hh as [->| ->]; congruence.
  - intros j Hj Hp. destruct (decide (j = ip)) as [->|]; [rewrite (proj1 Hc), Ei; auto|]. rewrite (proj2 Hc) by done. auto.
Qed.

(** Taking a reference only counts it, in a slot that is in use. *)
Lemma got_keeps n ic ic' ip ip' : got 1 n ic ic' ip' -> (ip < NINODE)%nat -> 0 < i_ref (ic ip) ->
  ic' ip = set_i_ref (i_ref (ic' ip)) (ic ip) /\ 0 < i_ref (ic' ip) < 2147483647.
Proof.
  intros (Hok & _ & Hne & Hcase) Hip Hpos. pose proof (ico_ref _ Hok ip Hip).
  destruct (decide (ip = ip')) as [<-|]; [|rewrite Hne in * by done; split; [by destruct (ic ip)|lia]].
  destruct Hcase as [[_ E]|(_ & Hz & _)]; [|lia]. rewrite E in *. split; [done|]. simpl in *. lia.
Qed.

(** A locked slot [ip], a new reference to [ip'] taken, and [ip] unlocked and put. *)
Lemma cache_inv_move x v r id ip ip' n ic ic1 ic2 ic3 :
  cache_inv x v r id (Some ip) ic -> (ip < NINODE)%nat -> (forall j, 0 <= r j < 2147483640) ->
  cache_at ic ic1 ip (locked_inode v x (ic ip)) -> got 1 n ic1 ic2 ip' ->
  cache_at ic2 ic3 ip (set_i_ref (i_ref (ic2 ip) - 1) (set_i_flags (clear_flag (i_flags (ic2 ip)) I_BUSY) (ic2 ip))) ->
  cache_inv x v r id (Some ip') ic3 /\ cached ic3 1 n ip'.
Proof.
  intros [Hok Hs Hr Hid0] Hip Hr0 Hc1 (Hok2 & (Hip' & Hpos & Hd & Hn) & Hne2 & Hcase) Hc3.
  assert (Hrip : i_ref (ic ip) = r ip + 1) by (rewrite Hr, decide_True by done; done).
  destruct (locked_facts x v (ic ip)) as (Lr & Ld & Ln & Ls & Lb & Lv);
    [by apply Hs|pose proof (Hr0 ip); lia|]. rewrite <- (proj1 Hc1) in Lr, Ld, Ln, Ls, Lb, Lv.
  assert (Hr1 : forall j, (j < NINODE)%nat -> i_ref (ic1 j) = r j + if decide (Some ip = Some j) then 1 else 0).
  { intros j Hj. destruct (decide (j = ip)) as [->|]; [by rewrite Lr, Hr|]. rewrite (proj2 Hc1) by done. by apply Hr. }
  assert (Hr2 : i_ref (ic2 ip') = i_ref (ic1 ip') + 1).
  { destruct Hcase as [[_ ->]|(_ & Hz & ->)]; simpl; lia. }
  destruct (got_keeps n ic1 ic2 ip ip') as [E2 Hp2]; [by split_and!|done|rewrite Lr; pose proof (Hr0 ip); lia|].
  assert (Href : forall j, (j < NINODE)%nat -> i_ref (ic3 j) = r j + if decide (Some ip' = Some j) then 1 else 0).
  { intros j Hj. destruct (decide (j = ip)) as [->|Hj1].
    - rewrite (proj1 Hc3). simpl. destruct (decide (ip' = ip)) as [->|].
      + rewrite Hr2, Lr, Hrip, decide_True by done. lia.
      + rewrite Hne2, Lr, Hrip, decide_False by congruence. lia.
    - rewrite (proj2 Hc3) by done. destruct (decide (j = ip')) as [->|].
      + rewrite Hr2, Hr1, decide_False, decide_True by congruence. lia.
      + rewrite Hne2, Hr1, !decide_False by congruence. lia. }
  split; [split; [| |done|]|].
  - eapply icache_ok_at; [done|done|done|done|]. simpl. lia.
  - intros j Hj. destruct (decide (j = ip)) as [->|Hj1].
    + intros _. rewrite (proj1 Hc3), E2. simpl. autorewrite with flags. split_and!; [|done|intros _; exact Ls].
      rewrite Ld. apply Hs; [done|]. pose proof (Hr0 ip). lia.
    + rewrite (proj2 Hc3) by done. destruct (decide (j = ip')) as [->|]; [|rewrite Hne2, (proj2 Hc1) by done; by apply Hs].
      destruct Hcase as [[Hcc ->]|(_ & _ & ->)]; [|by intros _].
      intros _. destruct Hcc as (_ & Hpp & _). rewrite (proj2 Hc1) in * by done. by apply (Hs _ Hj).
  - intros j Hj Hp. assert (E1 : i_inum (ic1 j) = id j).
    { destruct (decide (j = ip)) as [->|]; [rewrite Ln; auto|]. rewrite (proj2 Hc1) by done. auto. }
    assert (E2j : i_inum (ic2 j) = i_inum (ic1 j)).
    { destruct (decide (j = ip')) as [->|]; [|by rewrite Hne2]. destruct Hcase as [[_ ->]|(_ & Hz & _)]; [done|].
      rewrite Hr1 in Hz by done. case_decide; lia. }
    destruct (decide (j = ip)) as [->|]; [rewrite (proj1 Hc3)|rewrite (proj2 Hc3) by done]; simpl; congruence.
  - assert (Hid : i_dev (ic3 ip') = i_dev (ic2 ip') /\ i_inum (ic3 ip') = i_inum (ic2 ip')).
    { destruct (decide (ip' = ip)) as [->|]; [by rewrite (proj1 Hc3)|by rewrite (proj2 Hc3)]. }
    destruct Hid as [Ed En]. split; [done|]. rewrite Href, decide_True, Ed, En by done. pose proof (Hr0 ip'). split; [lia|done].
Qed.

(** ** namex *)

Section namex.
Context {dsz : Z} {cap : nat} {wr : Z -> Prop} {T TL} {TS : TxnStore dsz cap wr T TL}.
Context (x : superblock) (nmeta : Z).
Hypothesis Hly : layout dsz wr x nmeta.
Notation FT := (FT (T := T)).
Context (dev_read : Z -> option (nat -> Z -> M fs_st (Z * list Z))).
Context (L : gset Z) (v : Z -> list Z) (r id : nat -> Z).
Hypothesis Htree : tree_ok x nmeta v.
Hypothesis Hroom : (base.size L < NBUF)%nat.
Hypothesis Hr : roomy r.

Lemma wp_iunlockput ip ic s :
  FT L v ∅ ic x s -> let i := ic ip in
  1 <= i_ref i < 2147483648 -> has (i_flags i) I_BUSY = true -> i_nlink i <> 0 ->
  wp (iunlockput ip) (fun _ s' => exists ic', FT L v ∅ ic' x s' /\
    cache_at ic ic' ip (set_i_ref (i_ref i - 1) (set_i_flags (clear_flag (i_flags i) I_BUSY) i))) s.
Proof.
  intros HT i Hri Hb Hn. unfold iunlockput. wp_call wp_iunlock; [done|fold i; lia|done|].
  intros [] s1 (ic1 & H1 & Hc1). fold i in Hc1.
  eapply wp_mono; [eapply wp_iput_ref; [done|rewrite (proj1 Hc1)..]|].
  - done. - by right; right.
  - intros [] s2 (ic2 & H2 & Hc2). rewrite (proj1 Hc1) in Hc2. exists ic2. split; [done|].
    by eapply cache_at_trans.
Qed.

Lemma readable_locked i n : synced x v i -> i_dev i = 1 -> i_inum i = n -> live x v n -> is_dir x v n = true ->
  readable_dir x nmeta L v ∅ i /\ file_data v i = dir_data x v n.
Proof.
  intros Hs Hd <- Hl Hdir. destruct (synced_file _ _ _ Hs) as (Es & Ea & Et & En).
  destruct (tk_dir _ _ _ Htree _ Hl Hdir) as (Hok & Hh & Hm). split; [|by apply same_file_data].
  split.
  - by eapply same_ino_ok.
  - intros j. split; intros; by rewrite lookup_empty.
  - rewrite map_size_empty. lia.
  - unfold no_holes, blk, addr in *. by rewrite Es, Ea.
  - rewrite Et. by apply Z.eqb_eq.
  - by rewrite Es.
Qed.

Lemma gettable_any ip ic ic1 i n : cache_inv x v r id (Some ip) ic -> cache_at ic ic1 ip i -> (ip < NINODE)%nat ->
  i_dev i = i_dev (ic ip) -> i_inum i = i_inum (ic ip) -> i_ref i = i_ref (ic ip) -> gettable 1 n ic1.
Proof.
  intros [Hok Hs Href Hid] Hc Hip Ed Ei Er. destruct Hr as [Hmax (a & b & Ha & Hb & Hab & Ra & Rb)].
  assert (Hr1 : forall j, (j < NINODE)%nat -> i_ref (ic1 j) = i_ref (ic j)).
  { intros j Hj. destruct (decide (j = ip)) as [->|]; [by rewrite (proj1 Hc)|by rewrite (proj2 Hc)]. }
  split; [|split].
  - eapply icache_ok_at; [done|done|done|done|]. by right.
  - destruct (decide (a = ip)) as [->|]; [exists b|exists a]; (split; [done|left]); rewrite Hr1, Href, decide_False by congruence; lia.
  - intros j (Hj & _). rewrite Hr1, Href by done. pose proof (Hmax j). case_decide; lia.
Qed.

(** The state of the walk: one reference to slot [ip], which stands for inode [n]. *)
Definition at_inode (n : Z) (ip : nat) (s : fs_st) : Prop :=
  exists ic, FT L v ∅ ic x s /\ cache_inv x v r id (Some ip) ic /\ cached ic 1 n ip.
Definition done_with (s : fs_st) : Prop := exists ic, FT L v ∅ ic x s /\ cache_inv x v r id None ic.

Lemma wp_lock_inode n ip ic s :
  FT L v ∅ ic x s -> cache_inv x v r id (Some ip) ic -> cached ic 1 n ip -> live x v n ->
  wp (ilock ip) (fun _ s' => exists ic1, FT L v ∅ ic1 x s' /\
    cache_at ic ic1 ip (locked_inode v x (ic ip))) s.
Proof.
  intros HT [Hok Hs Href Hid] (Hip & Hpos & Hd & Hn) (Hrange & Ht & Hl). destruct (Hs ip Hip Hpos) as (_ & Hb & Hv).
  eapply wp_ilock; try done; [lia|by rewrite Hn|]. intros _. rewrite Hn. split; [done|].
  split; [intros j; by rewrite lookup_empty|]. rewrite map_size_empty. lia.
Qed.

(** Unlocking and dropping the current inode ends the walk. *)
Lemma wp_leave n ip ic ic1 s :
  FT L v ∅ ic1 x s -> cache_inv x v r id (Some ip) ic -> cached ic 1 n ip -> live x v n ->
  cache_at ic ic1 ip (locked_inode v x (ic ip)) -> wp (iunlockput ip) (fun _ s' => done_with s') s.
Proof.
  intros HT Hinv Hcd (Hrange & Ht & Hl) Hc. destruct Hcd as (Hip & Hpos & Hd & Hn). destruct (proj1 Hr ip) as [Hr0 Hr1].
  assert (Hrip := ci_ref _ _ _ _ _ _ Hinv ip Hip). rewrite decide_True in Hrip by done.
  destruct (locked_facts x v (ic ip) (ci_slot _ _ _ _ _ _ Hinv ip Hip) Hpos) as (Lr & Ld & Ln & Ls & Lb & Lv).
  destruct (synced_file _ _ _ Ls) as (_ & _ & _ & En).
  eapply wp_mono; [eapply wp_iunlockput; [done|rewrite (proj1 Hc)..]|].
  - rewrite Lr. lia. - done. - by rewrite En, Ln, Hn.
  - intros [] s' (ic' & H' & Hc'). rewrite (proj1 Hc) in Hc'. exists ic'. split; [done|].
    eapply cache_inv_at; [done|by eapply cache_at_trans|by left|done|done| |done|done|].
    + intros _. simpl. autorewrite with flags. split_and!; [by rewrite Ld|done|intros _; exact Ls].
    + simpl. rewrite Lr, Hrip. lia.
Qed.

Lemma wp_drop n ip s : at_inode n ip s -> live x v n -> wp (iput ip) (fun _ s' => done_with s') s.
Proof.
  intros (ic & HT & Hinv & Hip & Hpos & Hd & Hn) (Hrange & Ht & Hl). destruct (proj1 Hr ip) as [Hr0 Hr1].
  assert (Hrip := ci_ref _ _ _ _ _ _ Hinv ip Hip). rewrite decide_True in Hrip by done.
  assert (Hs := ci_slot _ _ _ _ _ _ Hinv ip Hip). destruct (Hs Hpos) as (_ & Hb & Hv).
  eapply wp_mono; [eapply wp_iput_ref; [done|lia|]|].
  - right. destruct (has (i_flags (ic ip)) I_VALID); [right|by left].
    destruct (synced_file _ _ _ (Hv eq_refl)) as (_ & _ & _ & ->). by rewrite Hn.
  - intros [] s' (ic' & H' & Hc'). exists ic'. split; [done|].
    eapply cache_inv_at; [done|done|by left|done|done| |done|done|].
    + intros _. simpl. by split_and!.
    + simpl. rewrite Hrip. lia.
Qed.

(** What [namex] returns for the elements [es] from inode [n]. *)
Definition walked (parent : bool) (n : Z) (es : list (list Z)) (res : option nat * list Z) (s : fs_st) : Prop :=
  match resolve x v parent n es with
  | None => fst res = None /\ done_with s
  | Some n' => exists ip, fst res = Some ip /\ at_inode n' ip s /\
      (parent = true -> exists e, last es = Some e /\ str_take DIRSIZ (snd res) = str_take DIRSIZ e)
  end.

Lemma wp_namex_loop parent fuel : forall n ip path name s,
  at_inode n ip s -> live x v n -> (length path < fuel)%nat -> length name = DIRSIZ ->
  Forall (fun b => b <> 0) path ->
  wp (namex_loop dev_read fuel ip path parent name) (walked parent n (elems path)) s.
Proof.
  induction fuel as [|fuel IH]; intros n ip path name s Hat Hl Hf Hn Hp; [lia|]. cbn [namex_loop].
  pose proof (skipelem_spec path name Hn Hp) as Hse. destruct (skipelem path name) as [[rest name']|].
  2:{ unfold walked. rewrite Hse. cbn [resolve]. destruct parent.
      - wp_call wp_drop; [done|done|]. intros [] s1 H1. by apply wp_ret.
      - apply wp_ret. exists ip. split; [done|]. split; [done|]. discriminate. }
  destruct Hse as (e & -> & Hnil & Hlen & Hp' & Hn' & He). destruct Hat as (ic & HT & Hinv & Hcd).
  wp_call (wp_lock_inode n ip ic); [done|done|done|done|]. intros [] s1 (ic1 & H1 & Hc1).
  wp_call FT_ino; [done|]. intros ? ? [-> ->]. rewrite (proj1 Hc1).
  assert (Hip := proj1 Hcd). assert (Hpos := proj1 (proj2 Hcd)).
  destruct (locked_facts x v (ic ip) (ci_slot _ _ _ _ _ _ Hinv ip Hip) Hpos) as (Lr & Ld & Ln & Ls & Lb & Lv).
  rewrite (proj1 (proj2 (proj2 Hcd))) in Ld. rewrite (proj2 (proj2 (proj2 Hcd))) in Ln.
  destruct (synced_file _ _ _ Ls) as (_ & _ & Et & _). rewrite Et, Ln.
  change (d_type (disk_inode x v n) =? T_DIR) with (is_dir x v n). unfold walked. cbn [resolve].
  destruct (is_dir x v n) eqn:Edir; simpl negb; cbv iota.
  2:{ wp_call wp_leave; [done|done|done|done|done|]. intros [] s2 H2. by apply wp_ret. }
  rewrite (bool_decide_ext (rest = []) (elems rest = []) Hnil).
  destruct (parent && bool_decide (elems rest = [])) eqn:Epar.
  { apply andb_true_iff in Epar as [_ Erest%bool_decide_eq_true].
    wp_call wp_iunlock; [done|rewrite (proj1 Hc1), Lr; lia|by rewrite (proj1 Hc1)|]. rewrite (proj1 Hc1).
    intros [] s2 (ic2 & H2 & Hc2). apply wp_ret. exists ip. split; [done|]. split.
    - destruct (proj1 Hr ip) as [Hr0 Hr1]. assert (Hrip := ci_ref _ _ _ _ _ _ Hinv ip Hip).
      exists ic2. split; [done|]. split.
      + eapply cache_inv_at; [done|by eapply cache_at_trans|by right|done|done| | | |].
        * intros _. simpl. autorewrite with flags. split_and!; [done|done|intros _; exact Ls].
        * simpl. rewrite Ld. symmetry. apply Hcd. * simpl. rewrite Ln. symmetry. apply Hcd.
        * simpl. by rewrite Lr, Hrip.
      + split; [done|]. rewrite (proj1 Hc2). simpl. rewrite Lr, Ld, Ln. done.
    - intros _. exists e. by rewrite Erest. }
  destruct (readable_locked (locked_inode v x (ic ip)) n Ls Ld Ln Hl Edir) as [Hrd Edata].
  rewrite <- (dir_find_ext name' e _ He). rewrite <- (proj1 Hc1) in Hrd, Edata.
  wp_call (wp_dirlookup x nmeta Hly dev_read L v ∅ ic1 ip name'); [done|done| |].
  { intros k Hk. rewrite (proj1 Hc1), Ld. eapply gettable_any; [done|done|done|..].
    - rewrite Ld. symmetry. apply Hcd. - rewrite Ln. symmetry. apply Hcd. - done. }
  rewrite Edata. destruct (dir_find name' (dir_data x v n)) as [k|] eqn:Ek.
  - intros res s2 (ip' & ic2 & -> & H2 & Hgot). rewrite (proj1 Hc1), Ld in Hgot.
    destruct (got_keeps _ ic1 ic2 ip ip' Hgot Hip) as [E2 Hp2]; [rewrite (proj1 Hc1), Lr; done|].
    destruct (synced_file _ _ _ Ls) as (_ & _ & _ & En).
    wp_call wp_iunlockput; [done|lia| | |].
    + rewrite E2, (proj1 Hc1). done.
    + rewrite E2, (proj1 Hc1). simpl. rewrite En, Ln. apply Hl.
    + intros [] s3 (ic3 & H3 & Hc3).
      destruct (cache_inv_move x v r id ip ip' _ ic ic1 ic2 ic3 Hinv Hip (proj1 Hr) Hc1 Hgot Hc3) as [Hinv3 Hcd3].
      apply first_from_some in Ek as (Hk & Hhit & _).
      eapply wp_mono; [apply IH; [by exists ic3| |lia|done|done]|].
      * apply (tk_entry _ _ _ Htree n k); [done|done|lia|]. by apply andb_true_iff in Hhit as [?%negb_true_iff _].
      * intros [res nm] s4. unfold walked. destruct (resolve x v parent _ (elems rest)); [|done].
        intros (ip4 & E4 & Hat4 & Hpar). exists ip4. split; [done|]. split; [done|]. intros Hp1.
        destruct (Hpar Hp1) as (e' & Hlast & Hstr). exists e'. split; [|done]. by rewrite last_cons, Hlast.
  - intros res s2 [-> H2]. wp_call wp_leave; [done|done|done|done|done|]. intros [] s3 H3. by apply wp_ret.
Qed.

(** The first reference: [iget] of an inode, or [idup] of a slot in use. *)
Lemma wp_first_iget n s : done_with s -> wp (iget 1 n) (fun ip s' => at_inode n ip s') s.
Proof.
  intros (ic & HT & [Hok Hs Href Hid]). destruct Hr as [Hmax (a & b & Ha & _ & _ & Ra & _)].
  assert (Hr0 : forall j, (j < NINODE)%nat -> i_ref (ic j) = r j).
  { intros j Hj. rewrite Href, decide_False by done. lia. }
  wp_call wp_iget; [done|done| | |].
  - exists a. split; [done|]. left. by rewrite Hr0.
  - intros j (Hj & _). rewrite Hr0 by done. pose proof (Hmax j). lia.
  - intros ip s' (ic' & H' & Hok' & Hcd & Hne & Hcase). exists ic'. split; [done|]. split; [split; [done| | |]|done].
    + intros j Hj. destruct (decide (j = ip)) as [->|]; [|rewrite Hne by done; auto].
      destruct Hcase as [[Hc ->]|(_ & _ & ->)]; [|by intros _]. intros _. apply (Hs ip Hj), Hc.
    + intros j Hj. destruct (decide (j = ip)) as [->|]; [|rewrite Hne, Hr0, decide_False by congruence; lia].
      rewrite decide_True by done. rewrite <- Hr0 by done. destruct Hcase as [[_ ->]|(_ & Hz & ->)]; simpl; lia.
    + intros j Hj Hp. destruct (decide (j = ip)) as [->|]; [|rewrite Hne by done; auto].
      destruct Hcase as [[_ ->]|(_ & Hz & _)]; [simpl; auto|]. rewrite Hr0 in Hz by done. lia.
Qed.

Lemma wp_first_idup n ip ic s : FT L v ∅ ic x s -> cache_inv x v r id None ic -> cached ic 1 n ip ->
  wp (idup ip) (fun p s' => p = ip /\ at_inode n ip s') s.
Proof.
  intros HT [Hok Hs Href Hid] (Hip & Hpos & Hd & Hn). destruct Hr as [Hmax _]. pose proof (Hmax ip) as Hm.
  assert (Hr0 : forall j, (j < NINODE)%nat -> i_ref (ic j) = r j).
  { intros j Hj. rewrite Href, decide_False by done. lia. }
  assert (Hrip := Hr0 ip Hip).
  wp_call wp_idup; [done|lia|]. intros p s' (-> & ic' & H' & Hc). split; [done|].
  destruct Hc as [E Hne]. exists ic'. split; [done|]. split; [split|].
  - destruct Hok as [Hb Hu]. split.
    + intros j Hj. destruct (decide (j = ip)) as [->|]; [rewrite E; simpl; lia|]. rewrite Hne by done. auto.
    + assert (Hidj : forall j, (j < NINODE)%nat -> 0 < i_ref (ic' j) -> 0 < i_ref (ic j) /\
        i_dev (ic' j) = i_dev (ic j) /\ i_inum (ic' j) = i_inum (ic j)).
      { intros j Hj Hp. destruct (decide (j = ip)) as [->|]; [by rewrite E|]. rewrite Hne in * by done. done. }
      intros a b Ha Hbb Hpa Hpb. destruct (Hidj a Ha Hpa) as (? & -> & ->), (Hidj b Hbb Hpb) as (? & -> & ->). by apply Hu.
  - intros j Hj. destruct (decide (j = ip)) as [->|]; [|rewrite Hne by done; auto].
    rewrite E. intros _. by apply (Hs ip Hj).
  - intros j Hj. destruct (decide (j = ip)) as [->|]; [rewrite E, decide_True by done; simpl; lia|].
    rewrite Hne, Hr0, decide_False by congruence. lia.
  - intros j Hj Hp. destruct (decide (j = ip)) as [->|]; [rewrite E; simpl; auto|rewrite Hne by done; auto].
  - rewrite <- Hn, <- Hd. split; [done|]. rewrite E. simpl. split; [lia|done].
Qed.

(** Where the walk of [path] starts: the root, or the current directory. *)
Definition starts_at (path : list Z) (n : Z) (s : fs_st) : Prop :=
  if decide (head path = Some 47) then n = ROOTINO
  else exists ip, fs_cwd s = Ok (Some ip) s /\ cached (icache s) 1 n ip.

Lemma wp_namex path parent name n s :
  done_with s -> starts_at path n s -> live x v n -> length name = DIRSIZ -> Forall (fun b => b <> 0) path ->
  wp (namex dev_read path parent name) (walked parent n (elems path)) s.
Proof.
  intros Hdone Hst Hl Hn Hp. unfold namex. unfold starts_at in Hst.
  assert (Hgo : forall ip s', at_inode n ip s' ->
    wp (namex_loop dev_read (S (length path)) ip path parent name) (walked parent n (elems path)) s').
  { intros ip s' Hat. apply wp_namex_loop; try done. lia. }
  case_decide as Hh.
  - subst n. wp_call wp_first_iget; [done|]. intros ip s' Hat. by apply Hgo.
  - destruct Hst as (ip & Hcwd & Hcd). rewrite bind_assoc_wp. apply wp_bind. unfold wp at 1. rewrite Hcwd.
    destruct Hdone as (ic & HT & Hinv). assert (Eic : icache s = ic) by apply HT. rewrite Eic in Hcd.
    wp_call wp_first_idup; [done|done|done|]. intros p s' [-> Hat]. by apply Hgo.
Qed.
End namex.
