(* ===== verification/FsTree.v ===== *)
(** * The directory tree as the user sees it

    An abstract file system: a partial map from inode numbers to nodes.  The
    invariant [tree_inv] is what a consistency check of the disk would verify
    of directories: every directory begins with "." and "..", names are unique,
    an entry names a node in use, "..", is the directory that holds the
    directory's only entry, and the link count of a node is the number of
    entries that name it ("." not counted).  The operations behind the system
    calls (linking, unlinking, making and removing directories, taking and
    giving back inodes) preserve it. *)

From S2P Require Import Prelude Params CString Spinlock Sched Ring Bio Log Crash Logop Txn Fs FsBlocks FsFile FsData FsInode FsIcache FsDir.

(** ** Entries of a directory *)

(** Entry [k] of the contents [d] is in use, with name [e] and inode [c]. *)
Definition ent (d : list Z) (k : nat) (e : list Z) (c : Z) : Prop :=
  (k < dir_entries d)%nat /\ de_inum (dent d k) = c /\ c <> 0 /\ str_take DIRSIZ (de_name (dent d k)) = e.

(** The contents without entry [k]. *)
Definition erased (k : nat) (d : list Z) : list Z := overwrite (16 * k) (replicate 16 0) d.

Lemma ent_fun d k e c e' c' : ent d k e c -> ent d k e' c' -> e = e' /\ c = c'.
Proof. intros (_ & <- & _ & <-) (_ & <- & _ & <-). done. Qed.

Lemma hit_ent name d k : (k < dir_entries d)%nat ->
  hit name d k = true <-> ent d k (str_take DIRSIZ name) (de_inum (dent d k)).
Proof.
  intros Hk. unfold hit, vacant, ent. rewrite namecmp_zero, andb_true_iff, bool_decide_eq_true, negb_true_iff, Z.eqb_neq. naive_solver.
Qed.

Lemma dir_find_some name d k : dir_find name d = Some k -> ent d k (str_take DIRSIZ name) (de_inum (dent d k)).
Proof. intros (Hk & Hh & _)%first_from_some. apply hit_ent; [lia|done]. Qed.
Lemma dir_find_none name d k c : dir_find name d = None -> ~ ent d k (str_take DIRSIZ name) c.
Proof.
  intros Hn He. pose proof (proj1 (first_from_none _ _ _) Hn k) as Hf. destruct He as (Hk & <- & Hc & He).
  assert (hit name d k = true) as E by (apply hit_ent; [done|done]). rewrite Hf in E by lia. done.
Qed.
Lemma dir_find_ent name d k c : ent d k (str_take DIRSIZ name) c ->
  (forall j c', ent d j (str_take DIRSIZ name) c' -> j = k) -> dir_find name d = Some k.
Proof.
  intros He Hu. destruct (dir_find name d) as [j|] eqn:E; [|by eapply dir_find_none in E].
  apply dir_find_some in E. by rewrite (Hu _ _ E).
Qed.

Lemma dir_slot_free d e c : ~ ent d (dir_slot d) e c.
Proof.
  intros (Hk & He & Hc & _). unfold dir_slot in *. destruct (first_from _ _ _) as [j|] eqn:E; simpl in *; [|lia].
  apply first_from_some in E as (_ & Hv & _). unfold vacant in Hv. lia.
Qed.

Section data.
Context (d : list Z).
Hypothesis Hd : (length d mod 16 = 0)%nat.

Lemma ent_linked inum name k e c : 0 < inum < 65536 ->
  ent (linked d inum name) k e c <-> ent d k e c \/ k = dir_slot d /\ e = str_take DIRSIZ name /\ c = inum.
Proof.
  intros Hi. pose proof (dir_slot_le d) as Hle. unfold ent. rewrite linked_entries by done.
  destruct (decide (k = dir_slot d)) as [->|Hne].
  - rewrite linked_slot, mk_dirent_inum, mk_dirent_name, str_take_strncpy by (done || lia). split.
    + intros (_ & <- & _ & <-). by right.
    + intros [He|(_ & -> & ->)]; [by apply dir_slot_free in He|]. split_and!; lia || done.
  - rewrite linked_other by done. split.
    + intros (Hk & ? & ? & ?). left. split_and!; try done. lia.
    + intros [(Hk & ? & ? & ?)|(? & _)]; [|done]. split_and!; try done. lia.
Qed.

Lemma linked_mod inum name : (length (linked d inum name) mod 16 = 0)%nat.
Proof.
  rewrite linked_length, dir_length by done. pose proof (dir_slot_le d).
  replace (Nat.max (16 * dir_entries d) (16 * dir_slot d + 16))%nat with (Nat.max (dir_entries d) (S (dir_slot d)) * 16)%nat by lia.
  apply Nat.mod_mul. lia.
Qed.

Context (k0 : nat).
Hypothesis Hk0 : (k0 < dir_entries d)%nat.

Lemma erased_length : length (erased k0 d) = length d.
Proof.
  unfold erased, overwrite. rewrite !length_app, length_take, length_drop, length_replicate. pose proof (dir_length d Hd). lia.
Qed.

Lemma ent_erased k e c : ent (erased k0 d) k e c <-> ent d k e c /\ k <> k0.
Proof.
  unfold ent. unfold dir_entries. rewrite erased_length. fold (dir_entries d). pose proof (dir_length d Hd) as Hl.
  destruct (decide (k = k0)) as [->|Hne].
  - assert (E : dent (erased k0 d) k0 = replicate 16 0).
    { unfold dent, slice, erased, overwrite. rewrite drop_app_length' by (rewrite length_take; lia).
      by rewrite take_app_length' by done. }
    rewrite E. split; [|by intros [_ ?]]. intros (_ & <- & Hc & _). by destruct Hc.
  - assert (dent (erased k0 d) k = dent d k) as ->; [|naive_solver].
    unfold dent, slice. apply list_eq. intros j. destruct (decide (j < 16)%nat); [|by rewrite !lookup_take_ge by lia].
    rewrite !lookup_take_lt, !lookup_drop by done. unfold erased. rewrite lookup_overwrite by lia.
    rewrite length_replicate. repeat case_decide; done || lia.
Qed.
End data.

(** ** The tree *)

Record node := Node { n_type : Z; n_major : Z; n_minor : Z; n_nlink : Z; n_data : list Z }.
Definition set_n_nlink x n := Node (n_type n) (n_major n) (n_minor n) x (n_data n).
Definition set_n_data x n := Node (n_type n) (n_major n) (n_minor n) (n_nlink n) x.
Notation atree := (Z -> option node).

(** [d] is a directory that is linked somewhere. *)
Definition adir (t : atree) (d : Z) (nd : node) : Prop := t d = Some nd /\ n_type nd = T_DIR /\ n_nlink nd <> 0.
Definition refers (t : atree) (d : Z) (k : nat) (e : list Z) (c : Z) : Prop :=
  exists nd, adir t d nd /\ ent (n_data nd) k e c.
(** [z] entries name [n]. *)
Definition linked_by (t : atree) (n z : Z) : Prop :=
  exists X : gset (Z * nat), (forall d k, (d, k) ∈ X <-> (1 <= k)%nat /\ exists e, refers t d k e n) /\ z = Z.of_nat (base.size X).

Record tree_inv (t : atree) : Prop := {
  ti_range : forall n nd, t n = Some nd -> 1 <= n < 65536;
  ti_root : refers t ROOTINO 1 DOTDOT ROOTINO;
  ti_mod : forall d nd, adir t d nd -> (length (n_data nd) mod 16 = 0)%nat;
  ti_dot : forall d nd, adir t d nd -> refers t d 0 DOT d;
  ti_dotdot : forall d nd, adir t d nd -> exists p, refers t d 1 DOTDOT p;
  ti_uniq : forall d i j e c c', refers t d i e c -> refers t d j e c' -> i = j;
  ti_up : forall d e p, refers t d 1 e p -> exists pd, adir t p pd;
  ti_child : forall d k e c, refers t d k e c -> (2 <= k)%nat -> c <> d /\ exists cd, t c = Some cd /\ n_nlink cd <> 0 /\
    (n_type cd = T_DIR -> refers t c 1 DOTDOT d);
  ti_once : forall c cd d k e d' k' e', adir t c cd -> refers t d k e c -> refers t d' k' e' c ->
    (2 <= k)%nat -> (2 <= k')%nat -> d = d' /\ k = k';
  ti_parent : forall c cd, adir t c cd -> c <> ROOTINO -> exists d k e, (2 <= k)%nat /\ refers t d k e c;
  ti_links : forall n nd, t n = Some nd -> linked_by t n (n_nlink nd) }.

Lemma refers_fun t d k e c e' c' : refers t d k e c -> refers t d k e' c' -> e = e' /\ c = c'.
Proof. intros (nd & [E _] & H1) (nd' & [E' _] & H2). assert (nd = nd') as <- by congruence. by eapply ent_fun. Qed.

Lemma adir_fun t d nd nd' : adir t d nd -> adir t d nd' -> nd = nd'.
Proof. intros [E _] [E' _]. congruence. Qed.
Lemma adir_refers t d nd k e c : adir t d nd -> refers t d k e c <-> ent (n_data nd) k e c.
Proof.
  intros Hd. split; [|by exists nd]. intros (nd' & Hd' & He). by rewrite (adir_fun _ _ _ _ Hd Hd').
Qed.

(** Trees that agree everywhere are the same tree. *)
#[global] Instance adir_proper : Proper (pointwise_relation Z eq ==> eq ==> eq ==> iff) adir.
Proof. intros t t' E d ? <- nd ? <-. unfold adir. by rewrite (E d). Qed.
#[global] Instance refers_proper : Proper (pointwise_relation Z eq ==> eq ==> eq ==> eq ==> eq ==> iff) refers.
Proof. intros t t' E d ? <- k ? <- e ? <- c ? <-. unfold refers. by setoid_rewrite E. Qed.
#[global] Instance linked_by_proper : Proper (pointwise_relation Z eq ==> eq ==> eq ==> iff) linked_by.
Proof. intros t t' E n ? <- z ? <-. unfold linked_by. by setoid_rewrite E. Qed.
#[global] Instance tree_inv_proper : Proper (pointwise_relation Z eq ==> iff) tree_inv.
Proof.
  assert (Himp : forall t t', pointwise_relation Z eq t t' -> tree_inv t -> tree_inv t').
  { intros t t' E []. split; setoid_rewrite <- E; try done; by setoid_rewrite <- (E _). }
  intros t t' E. split; apply Himp; [done|by symmetry].
Qed.

(** ** Operations *)

Definition add_links (z : Z) (n : node) : node := set_n_nlink (n_nlink n + z) n.

(** Every reference is to a node in use. *)
Lemma refers_live t d k e c : tree_inv t -> refers t d k e c -> exists cd, t c = Some cd /\ n_nlink cd <> 0.
Proof.
  intros Ht Hr. assert (Hr' := Hr). destruct Hr' as (nd & Hd & He). destruct (decide (2 <= k)%nat) as [Hk|Hk].
  - destruct (ti_child _ Ht _ _ _ _ Hr Hk) as [_ (cd & ? & ? & _)]. by exists cd.
  - assert (Had : exists cd, adir t c cd); [|destruct Had as (cd & ? & _ & ?); by exists cd].
    destruct k as [|[|k]]; [|by eapply ti_up|lia]. exists nd.
    destruct (refers_fun _ _ _ _ _ _ _ Hr (ti_dot _ Ht _ _ Hd)) as [_ ->]. done.
Qed.

(** The names "." and ".." are taken by the first two entries. *)
Lemma refers_plain t d k e c : tree_inv t -> refers t d k e c -> (2 <= k)%nat <-> e <> DOT /\ e <> DOTDOT.
Proof.
  intros Ht Hr. assert (Hr' := Hr). destruct Hr' as (nd & Hd & _).
  pose proof (ti_dot _ Ht _ _ Hd) as H0. destruct (ti_dotdot _ Ht _ _ Hd) as [p H1]. split.
  - intros Hk. split; intros ->; [pose proof (ti_uniq _ Ht _ _ _ _ _ _ Hr H0)|pose proof (ti_uniq _ Ht _ _ _ _ _ _ Hr H1)]; lia.
  - intros [N0 N1]. destruct k as [|[|k]]; [|by destruct N1; apply (refers_fun _ _ _ _ _ _ _ Hr H1)|lia].
    by destruct N0; apply (refers_fun _ _ _ _ _ _ _ Hr H0).
Qed.

(** Changing a node that nothing refers to changes nothing for the others. *)
Lemma tree_dead t t' c : tree_inv t -> (forall n, n <> c -> t' n = t n) ->
  (forall nd, t c = Some nd -> n_nlink nd = 0) ->
  (forall nd, t' c = Some nd -> n_nlink nd = 0 /\ 1 <= c < 65536) -> tree_inv t'.
Proof.
  intros Ht Hne Hold Hnew.
  assert (Hadir : forall d nd, adir t' d nd <-> adir t d nd).
  { intros d nd. unfold adir. destruct (decide (d = c)) as [->|]; [|by rewrite Hne]. split; intros (E & _ & N); exfalso; apply N; [by apply Hnew|by apply Hold]. }
  assert (Href : forall d k e n, refers t' d k e n <-> refers t d k e n) by (intros; unfold refers; by setoid_rewrite Hadir).
  assert (Hlk : forall n z, linked_by t n z -> linked_by t' n z).
  { intros n z (X & HX & ->). exists X. split; [|done]. intros d k. rewrite HX. by setoid_rewrite Href. }
  destruct Ht as [] eqn:E; clear E. split; setoid_rewrite Href || setoid_rewrite Hadir || idtac; try setoid_rewrite Hadir; try done.
  - intros n nd. destruct (decide (n = c)) as [->|]; [intros; by eapply Hnew|rewrite Hne by done; eauto].
  - intros d k e n Hr Hk. destruct (ti_child0 _ _ _ _ Hr Hk) as [Hcd (cd & E & Hl & Hu)]. split; [done|]. exists cd.
    rewrite Hne; [done|]. intros ->. by apply Hl, Hold.
  - intros n nd E. destruct (decide (n = c)) as [->|]; [|rewrite Hne in E by done; auto].
    destruct (Hnew _ E) as [-> _]. exists ∅. split; [|done]. intros d k. split; [set_solver|]. intros [_ [e Hr%Href]].
    destruct (refers_live t d k e c) as (cd & Ec & Hl); [by split|done|]. by destruct Hl; apply Hold.
Qed.

Lemma tree_alloc t c nd : tree_inv t -> t c = None -> 1 <= c < 65536 -> n_nlink nd = 0 -> tree_inv (<[c := Some nd]> t).
Proof.
  intros Ht Ec Hc Hn. apply (tree_dead t _ c); [done|intros; by rewrite fn_lookup_insert_ne|congruence|].
  rewrite fn_lookup_insert. naive_solver.
Qed.
Lemma tree_free t c nd : tree_inv t -> t c = Some nd -> n_nlink nd = 0 -> tree_inv (<[c := None]> t).
Proof.
  intros Ht Ec Hn. apply (tree_dead t _ c); [done|intros; by rewrite fn_lookup_insert_ne|congruence|].
  by rewrite fn_lookup_insert.
Qed.

(** *** Counting links *)

Section count.
Context (t t' : atree) (n z : Z) (d0 : Z) (k0 : nat).
Notation named t d k := (exists e, refers t d k e n).
Hypothesis Hz : linked_by t n z.

Lemma linked_by_same : (forall d k, (1 <= k)%nat -> named t' d k <-> named t d k) -> linked_by t' n z.
Proof.
  intros HR. destruct Hz as (X & HX & ->). exists X. split; [|done]. intros d k. rewrite HX. split; intros [Hk Hn]; (split; [done|]); by apply HR.
Qed.

Lemma linked_by_add : (1 <= k0)%nat -> ~ named t d0 k0 ->
  (forall d k, (1 <= k)%nat -> named t' d k <-> named t d k \/ d = d0 /\ k = k0) -> linked_by t' n (z + 1).
Proof.
  intros Hk0 Hnew HR. destruct Hz as (X & HX & ->). exists ({[(d0, k0)]} ∪ X). split.
  - intros d k. rewrite elem_of_union, elem_of_singleton, HX. split.
    + intros [[= -> ->]|[Hk Hn]]; (split; [done|]); apply HR; tauto.
    + intros [Hk Hn%HR]; [|done]. destruct Hn as [Hn|[-> ->]]; [by right|by left].
  - rewrite size_union, size_singleton; [lia|]. apply disjoint_singleton_l. by intros [_ ?]%HX.
Qed.

Lemma linked_by_del : (1 <= k0)%nat -> named t d0 k0 ->
  (forall d k, (1 <= k)%nat -> named t' d k <-> named t d k /\ ~ (d = d0 /\ k = k0)) -> linked_by t' n (z - 1).
Proof.
  intros Hk0 Hold HR. destruct Hz as (X & HX & ->). exists (X ∖ {[(d0, k0)]}). split.
  - intros d k. rewrite elem_of_difference, elem_of_singleton, HX. split.
    + intros [[Hk Hn] Hne]. split; [done|]. apply HR; [done|]. split; [done|]. by intros [-> ->].
    + intros [Hk Hn%HR]; [|done]. destruct Hn as [Hn Hne]. split; [done|]. intros [= -> ->]. by apply Hne.
  - assert (Hin : (d0, k0) ∈ X) by (by apply HX). rewrite size_difference by set_solver. rewrite size_singleton.
    assert (base.size X <> 0)%nat; [|lia]. intros E%size_empty_inv. set_solver.
Qed.
End count.

Lemma linked_by_nz t n z d k e : linked_by t n z -> refers t d k e n -> (1 <= k)%nat -> z <> 0.
Proof.
  intros (X & HX & ->) Hr Hk. assert (Hin : (d, k) ∈ X) by (apply HX; split; [lia|by exists e]).
  assert (base.size X <> 0%nat); [|lia]. intros Es%size_empty_inv. set_solver.
Qed.

(** *** A new entry for a file *)

Section link.
Context (t : atree) (d : Z) (nd : node) (c : Z) (cd : node) (name : list Z).
Hypothesis Ht : tree_inv t.
Hypothesis Hd : adir t d nd.
Hypothesis Hc : t c = Some cd.
Hypothesis Hfile : n_type cd <> T_DIR.
Hypothesis Hname : dir_find name (n_data nd) = None.
Hypothesis Hover : n_nlink cd <> -1.

Definition tree_linked : atree :=
  <[c := Some (add_links 1 cd)]> (<[d := Some (set_n_data (linked (n_data nd) c name) nd)]> t).

Let slot := dir_slot (n_data nd).
Let nm := str_take DIRSIZ name.

Lemma link_ne : c <> d.
Proof. intros ->. destruct Hd as (E & Ety & _). congruence. Qed.

Lemma link_slot : (2 <= slot)%nat.
Proof.
  pose proof (ti_dot _ Ht _ _ Hd) as H0. destruct (ti_dotdot _ Ht _ _ Hd) as [p H1].
  apply (adir_refers _ _ _ _ _ _ Hd) in H0, H1. subst slot.
  destruct (dir_slot (n_data nd)) as [|[|k]] eqn:E; [rewrite <- E in H0|rewrite <- E in H1|lia]; exfalso; by eapply dir_slot_free.
Qed.

Lemma linked_adir d' nd' : adir tree_linked d' nd' <->
  d' <> d /\ adir t d' nd' \/ d' = d /\ nd' = set_n_data (linked (n_data nd) c name) nd.
Proof.
  pose proof link_ne as Hne. unfold adir, tree_linked. destruct Hd as (Ed & Ety & El). destruct (decide (d' = c)) as [->|Hc'].
  - rewrite fn_lookup_insert. split; [|naive_solver].
    intros ([= <-] & E & _). simpl in E. congruence.
  - rewrite fn_lookup_insert_ne by done. destruct (decide (d' = d)) as [->|].
    + rewrite fn_lookup_insert. split; [intros ([= <-] & _); by right|]. intros [[? _]|[_ ->]]; done.
    + rewrite fn_lookup_insert_ne by done. naive_solver.
Qed.

Lemma linked_refers d' k e n : refers tree_linked d' k e n <->
  refers t d' k e n \/ d' = d /\ k = slot /\ e = nm /\ n = c.
Proof.
  unfold refers at 1. setoid_rewrite linked_adir. pose proof (ti_range _ Ht _ _ Hc) as Hr.
  assert (Hm := ti_mod _ Ht _ _ Hd). split.
  - intros (nd' & [[Hne Ha]|[-> ->]] & He); [left; by exists nd'|]. cbn [n_data set_n_data] in He.
    apply ent_linked in He as [He|(-> & -> & ->)]; [left; by exists nd|by right|done|lia].
  - intros [(nd' & Ha & He)|(-> & -> & -> & ->)].
    + destruct (decide (d' = d)) as [->|]; [|by eauto 10]. rewrite (adir_fun _ _ _ _ Ha Hd) in He.
      eexists. split; [by right|]. apply ent_linked; [done|lia|by left].
    + eexists. split; [by right|]. apply ent_linked; [done|lia|by right].
Qed.

Lemma linked_node n nd' : tree_linked n = Some nd' -> exists nd0, t n = Some nd0 /\ n_type nd' = n_type nd0 /\
  n_nlink nd' = n_nlink nd0 + if decide (n = c) then 1 else 0.
Proof.
  pose proof link_ne as Hne. unfold tree_linked. destruct (decide (n = c)) as [->|].
  - rewrite fn_lookup_insert. intros [= <-]. by exists cd.
  - rewrite fn_lookup_insert_ne by done. destruct (decide (n = d)) as [->|].
    + rewrite fn_lookup_insert. intros [= <-]. exists nd. simpl. split_and!; [apply Hd|done|lia].
    + rewrite fn_lookup_insert_ne by done. intros E. exists nd'. split_and!; [done|done|lia].
Qed.
Lemma linked_some n nd0 : t n = Some nd0 -> exists nd', tree_linked n = Some nd' /\ n_type nd' = n_type nd0 /\
  n_nlink nd' = n_nlink nd0 + if decide (n = c) then 1 else 0.
Proof.
  intros E. destruct (tree_linked n) as [nd'|] eqn:E'.
  - destruct (linked_node _ _ E') as (nd1 & E1 & ?). exists nd'. split; [done|]. congruence.
  - unfold tree_linked in E'. destruct (decide (n = c)) as [->|]; [by rewrite fn_lookup_insert in E'|].
    rewrite fn_lookup_insert_ne in E' by done. destruct (decide (n = d)) as [->|]; [by rewrite fn_lookup_insert in E'|].
    rewrite fn_lookup_insert_ne in E' by done. congruence.
Qed.

Theorem tree_link : tree_inv tree_linked.
Proof.
  pose proof link_ne as Hne. pose proof link_slot as Hslot. pose proof linked_refers as HR.
  assert (HRold : forall d' k e n, refers t d' k e n -> refers tree_linked d' k e n) by (intros; apply HR; by left).
  assert (Hadir : forall d' nd', adir tree_linked d' nd' -> exists nd0, adir t d' nd0).
  { intros d' nd' [[_ Ha]|[-> ->]]%linked_adir; eauto. }
  assert (Hadir' : forall d' nd0, adir t d' nd0 -> exists nd', adir tree_linked d' nd').
  { intros d' nd0 Ha. setoid_rewrite linked_adir. destruct (decide (d' = d)) as [->|]; eauto. }
  split.
  - intros n nd' (nd0 & E & _)%linked_node. by eapply ti_range.
  - apply HRold, Ht.
  - intros d' nd' [[_ Ha]|[-> ->]]%linked_adir; [by eapply ti_mod|]. apply linked_mod. by eapply ti_mod.
  - intros d' nd' (nd0 & Ha)%Hadir. by eapply HRold, ti_dot.
  - intros d' nd' (nd0 & Ha)%Hadir. destruct (ti_dotdot _ Ht _ _ Ha) as [p Hp]. by exists p; apply HRold.
  - intros d' i j e n n' [Hi|(-> & -> & -> & ->)]%HR [Hj|(Ed & -> & Ee & ->)]%HR; [by eapply ti_uniq| | |done].
    + subst. apply (adir_refers _ _ _ _ _ _ Hd) in Hi. by eapply dir_find_none in Hi.
    + apply (adir_refers _ _ _ _ _ _ Hd) in Hj. by eapply dir_find_none in Hj.
  - intros d' e p [Hp|(_ & E & _)]%HR; [|lia]. destruct (ti_up _ Ht _ _ _ Hp) as [pd Hpd]. by eapply Hadir'.
  - intros d' k e n [Hk|(-> & -> & -> & ->)]%HR H2.
    + destruct (ti_child _ Ht _ _ _ _ Hk H2) as [Hn (cd0 & E & Hl & Hu)]. split; [done|].
      destruct (linked_some _ _ E) as (nd' & E' & Ety & El). exists nd'. split; [done|]. split.
      * rewrite El. case_decide as En; [|lia]. subst n. assert (cd0 = cd) as -> by congruence. lia.
      * rewrite Ety. intros Hdir. apply HRold. auto.
    + split; [done|]. destruct (linked_some _ _ Hc) as (nd' & E' & Ety & El). exists nd'. rewrite decide_True in El by done.
      split; [done|]. split; [lia|]. by rewrite Ety.
  - intros n nd' d1 k1 e1 d2 k2 e2 Ha H1 H2 Hk1 Hk2.
    assert (n <> c). { intros ->. apply Hadir in Ha as (nd0 & E & Ety & _). congruence. }
    apply Hadir in Ha as (nd0 & Ha). apply HR in H1 as [H1|(_ & _ & _ & ->)]; [|done].
    apply HR in H2 as [H2|(_ & _ & _ & ->)]; [|done]. by eapply ti_once.
  - intros n nd' (nd0 & Ha)%Hadir Hroot. destruct (ti_parent _ Ht _ _ Ha Hroot) as (d' & k & e & Hk & Hr). exists d', k, e. auto.
  - intros n nd' (nd0 & E & _ & ->)%linked_node. case_decide as En.
    + subst n. apply (linked_by_add t _ _ _ d slot); [by apply ti_links|lia| |].
      * intros [e He]. apply (adir_refers _ _ _ _ _ _ Hd) in He. by eapply dir_slot_free.
      * intros d' k Hk. setoid_rewrite HR. naive_solver.
    + rewrite Z.add_0_r. apply (linked_by_same t); [by apply ti_links|]. intros d' k Hk. setoid_rewrite HR. naive_solver.
Qed.
End link.

(** *** An entry removed *)

Section unlink.
Context (t : atree) (d : Z) (nd : node) (k0 : nat) (e0 : list Z) (c : Z) (cd : node).
Hypothesis Ht : tree_inv t.
Hypothesis Hd : adir t d nd.
Hypothesis Hent : ent (n_data nd) k0 e0 c.
Hypothesis Hk0 : (2 <= k0)%nat.
Hypothesis Hc : t c = Some cd.
(** A directory is empty but for "." and "..". *)
Hypothesis Hempty : n_type cd = T_DIR -> forall k e n, (2 <= k)%nat -> ~ ent (n_data cd) k e n.

(** The directory loses the entry, and the link of a subdirectory's "..". *)
Definition dir_unlinked : node :=
  add_links (if n_type cd =? T_DIR then -1 else 0) (set_n_data (erased k0 (n_data nd)) nd).
Definition tree_unlinked : atree := <[c := Some (add_links (-1) cd)]> (<[d := Some dir_unlinked]> t).

Lemma unlink_entry : refers t d k0 e0 c.
Proof. by exists nd. Qed.
Lemma unlink_ne : c <> d.
Proof. by apply (ti_child _ Ht _ _ _ _ unlink_entry Hk0). Qed.
Lemma unlink_linked : n_nlink cd <> 0.
Proof. destruct (refers_live _ _ _ _ _ Ht unlink_entry) as (cd' & E & ?). congruence. Qed.

Lemma unlink_inside k e n : (2 <= k)%nat -> ~ refers t c k e n.
Proof.
  intros Hk (nd' & (E & Ety & _) & He). assert (nd' = cd) as -> by congruence. by eapply Hempty.
Qed.
Lemma unlink_dotdot : n_type cd = T_DIR -> refers t c 1 DOTDOT d.
Proof.
  intros Hty. destruct (ti_child _ Ht _ _ _ _ unlink_entry Hk0) as [_ (cd' & E & _ & Hu)].
  assert (cd' = cd) as -> by congruence. auto.
Qed.

(** No ".." is the removed node. *)
Lemma unlink_up d' e : ~ refers t d' 1 e c.
Proof.
  intros Hr. destruct (ti_up _ Ht _ _ _ Hr) as (cd' & E & Ety & _). assert (cd' = cd) as -> by congruence.
  pose proof (unlink_dotdot Ety) as Hcd. pose proof unlink_ne.
  assert (c <> ROOTINO). { intros Er. rewrite Er in Hcd. destruct (refers_fun _ _ _ _ _ _ _ Hcd (ti_root _ Ht)). congruence. }
  destruct (decide (d' = ROOTINO)) as [->|Hroot].
  { destruct (refers_fun _ _ _ _ _ _ _ Hr (ti_root _ Ht)). congruence. }
  assert (Hr' := Hr). destruct Hr' as (nd' & Hd' & _).
  destruct (ti_parent _ Ht _ _ Hd' Hroot) as (d2 & k2 & e2 & Hk2 & H2).
  destruct (ti_child _ Ht _ _ _ _ H2 Hk2) as [_ (x & Ex & _ & Hu)]. assert (x = nd') as -> by (destruct Hd'; congruence).
  destruct (refers_fun _ _ _ _ _ _ _ Hr (Hu (proj1 (proj2 Hd')))) as [_ <-]. by eapply unlink_inside.
Qed.

(** A directory that is removed is named once. *)
Lemma unlink_last : n_type cd = T_DIR -> n_nlink cd = 1.
Proof.
  intros Hty. destruct (ti_links _ Ht _ _ Hc) as (X & HX & ->). replace X with ({[(d, k0)]} : gset (Z * nat)); [by rewrite size_singleton|].
  apply set_eq. intros [d' k']. rewrite elem_of_singleton, HX. split.
  - intros [= -> ->]. split; [lia|]. exists e0. apply unlink_entry.
  - intros [Hk [e Hr]]. destruct (decide (2 <= k')%nat) as [H2|].
    + destruct (ti_once _ Ht c cd d' k' e d k0 e0) as [-> ->]; [|done|apply unlink_entry|done|done|done].
      split_and!; [done|done|apply unlink_linked].
    + assert (k' = 1%nat) as -> by lia. by apply unlink_up in Hr.
Qed.

(** The directory that loses a subdirectory is still linked. *)
Lemma unlink_still : n_nlink dir_unlinked <> 0.
Proof.
  assert (Hl := proj2 (proj2 Hd)). unfold dir_unlinked, add_links. cbn [n_nlink set_n_nlink set_n_data].
  destruct (Z.eqb_spec (n_type cd) T_DIR) as [Hty|]; [|lia].
  destruct (ti_links _ Ht _ _ (proj1 Hd)) as (X & HX & ->). pose proof (unlink_dotdot Hty) as Hdd. pose proof unlink_ne as Hne.
  assert (Hp : exists p k, (p, k) ∈ X /\ (p, k) <> (c, 1%nat)).
  { destruct (decide (d = ROOTINO)) as [->|Hroot].
    - exists ROOTINO, 1%nat. split; [apply HX; split; [lia|]; exists DOTDOT; apply Ht|congruence].
    - destruct (ti_parent _ Ht _ _ Hd Hroot) as (p & k & e & Hk & Hr). exists p, k.
      split; [apply HX; split; [lia|by exists e]|]. intros [= -> ->]. lia. }
  destruct Hp as (p & k & Hin & Hpk).
  assert (Hsub : {[(c, 1%nat); (p, k)]} ⊆ X).
  { apply union_least; apply singleton_subseteq_l; [|done]. apply HX. split; [lia|]. by exists DOTDOT. }
  apply subseteq_size in Hsub. rewrite size_union, !size_singleton in Hsub by set_solver. lia.
Qed.

Lemma unlinked_adir d' nd' : adir tree_unlinked d' nd' <-> d' <> d /\ d' <> c /\ adir t d' nd' \/ d' = d /\ nd' = dir_unlinked.
Proof.
  pose proof unlink_ne as Hne. pose proof unlink_still as Hs. unfold adir, tree_unlinked. destruct Hd as (Ed & Ety & El).
  destruct (decide (d' = c)) as [->|Hc'].
  - rewrite fn_lookup_insert. split; [|naive_solver].
    intros ([= <-] & E & N). simpl in E, N. rewrite unlink_last in N by done. lia.
  - rewrite fn_lookup_insert_ne by done. destruct (decide (d' = d)) as [->|].
    + rewrite fn_lookup_insert. split; [intros ([= <-] & _); by right|]. intros [[? _]|[_ ->]]; done.
    + rewrite fn_lookup_insert_ne by done. naive_solver.
Qed.

Lemma unlinked_refers d' k e n : refers tree_unlinked d' k e n <->
  refers t d' k e n /\ ~ (d' = d /\ k = k0) /\ d' <> c.
Proof.
  pose proof unlink_ne as Hne. unfold refers at 1. setoid_rewrite unlinked_adir. assert (Hm := ti_mod _ Ht _ _ Hd).
  assert (Hk : (k0 < dir_entries (n_data nd))%nat) by apply Hent. split.
  - intros (nd' & [(N1 & N2 & Ha)|[-> ->]] & He); [split; [by exists nd'|]; tauto|].
    apply ent_erased in He as [He N]; [|done|done]. split; [by exists nd|]. naive_solver.
  - intros [(nd' & Ha & He) (N1 & N2)]. destruct (decide (d' = d)) as [->|]; [|by eauto 10].
    rewrite (adir_fun _ _ _ _ Ha Hd) in He. eexists. split; [by right|]. apply ent_erased; [done|done|]. split; [done|]. naive_solver.
Qed.

Lemma unlinked_node n nd' : tree_unlinked n = Some nd' -> exists nd0, t n = Some nd0 /\ n_type nd' = n_type nd0 /\
  n_nlink nd' = n_nlink nd0 - if decide (n = c \/ n = d /\ n_type cd = T_DIR) then 1 else 0.
Proof.
  pose proof unlink_ne as Hne. unfold tree_unlinked. destruct (decide (n = c)) as [->|].
  - rewrite fn_lookup_insert. intros [= <-]. rewrite decide_True by tauto. by exists cd.
  - rewrite fn_lookup_insert_ne by done. destruct (decide (n = d)) as [->|].
    + rewrite fn_lookup_insert. intros [= <-]. exists nd. split_and!; [apply Hd|done|]. simpl.
      destruct (Z.eqb_spec (n_type cd) T_DIR); case_decide; naive_solver lia.
    + rewrite fn_lookup_insert_ne by done. intros E. exists nd'. rewrite decide_False by tauto. split_and!; [done|done|lia].
Qed.
Lemma unlinked_some n nd0 : t n = Some nd0 -> exists nd', tree_unlinked n = Some nd' /\ n_type nd' = n_type nd0.
Proof.
  intros E. destruct (tree_unlinked n) as [nd'|] eqn:E'.
  - destruct (unlinked_node _ _ E') as (nd1 & E1 & ? & _). exists nd'. split; [done|]. congruence.
  - unfold tree_unlinked in E'. destruct (decide (n = c)) as [->|]; [by rewrite fn_lookup_insert in E'|].
    rewrite fn_lookup_insert_ne in E' by done. destruct (decide (n = d)) as [->|]; [by rewrite fn_lookup_insert in E'|].
    rewrite fn_lookup_insert_ne in E' by done. congruence.
Qed.

Lemma unlinked_links n nd' : tree_unlinked n = Some nd' -> linked_by tree_unlinked n (n_nlink nd').
Proof.
  pose proof unlink_ne as Hne. pose proof unlinked_refers as HR. pose proof unlink_entry as Hen.
  intros (nd0 & E & _ & ->)%unlinked_node. pose proof (ti_links _ Ht _ _ E) as Hl.
  assert (Hin : forall k e m, (1 <= k)%nat -> refers t c k e m -> k = 1%nat /\ n_type cd = T_DIR /\ m = d).
  { intros k e m Hk Hr. destruct (decide (2 <= k)%nat); [by apply unlink_inside in Hr|]. assert (k = 1%nat) as -> by lia.
    split; [done|]. assert (Hty : n_type cd = T_DIR) by (destruct Hr as (x & (Ex & ? & _) & _); congruence). split; [done|].
    by destruct (refers_fun _ _ _ _ _ _ _ Hr (unlink_dotdot Hty)). }
  case_decide as Hcase.
  - destruct Hcase as [->|[-> Hty]].
    + eapply (linked_by_del t _ _ _ d k0); [done|lia|by exists e0|]. intros d' k Hk. setoid_rewrite HR. split; [naive_solver|].
      intros [[e Hr] N]. exists e. split_and!; try done. intros ->. by destruct (Hin _ _ _ Hk Hr) as (_ & _ & ?).
    + eapply (linked_by_del t _ _ _ c 1%nat); [done|lia|exists DOTDOT; by apply unlink_dotdot|]. intros d' k Hk. setoid_rewrite HR. split.
      * intros [e (Hr & N & Nc)]. split; [by exists e|]. naive_solver.
      * intros [[e Hr] N]. exists e. split_and!; try done.
        -- intros [-> ->]. by destruct (refers_fun _ _ _ _ _ _ _ Hr Hen).
        -- intros ->. apply N. by destruct (Hin _ _ _ Hk Hr) as (-> & _ & _).
  - rewrite Z.sub_0_r. apply (linked_by_same t); [done|]. intros d' k Hk. setoid_rewrite HR. split; [naive_solver|].
    intros [e Hr]. exists e. split_and!; try done.
    + intros [-> ->]. destruct (refers_fun _ _ _ _ _ _ _ Hr Hen). naive_solver.
    + intros ->. destruct (Hin _ _ _ Hk Hr) as (_ & ? & ->). naive_solver.
Qed.

Theorem tree_unlink : tree_inv tree_unlinked.
Proof.
  pose proof unlink_ne as Hne. pose proof unlinked_refers as HR. pose proof unlink_entry as Hen.
  assert (Hadir : forall d' nd', adir tree_unlinked d' nd' -> d' <> c /\ exists nd0, adir t d' nd0).
  { intros d' nd' [(_ & ? & Ha)|[-> ->]]%unlinked_adir; eauto. }
  assert (Hadir' : forall d' nd0, adir t d' nd0 -> d' <> c -> exists nd', adir tree_unlinked d' nd').
  { intros d' nd0 Ha Hc'. setoid_rewrite unlinked_adir. destruct (decide (d' = d)) as [->|]; eauto 10. }
  split.
  - intros n nd' (nd0 & E & _)%unlinked_node. by eapply ti_range.
  - apply HR. split; [apply Ht|]. split; [lia|]. intros Er. apply (unlink_up ROOTINO DOTDOT). rewrite <- Er. apply Ht.
  - intros d' nd' [(_ & _ & Ha)|[-> ->]]%unlinked_adir; [by eapply ti_mod|]. cbn [n_data dir_unlinked add_links set_n_nlink set_n_data].
    assert (Hm := ti_mod _ Ht _ _ Hd). rewrite erased_length; [done|done|apply Hent].
  - intros d' nd' [Hc' (nd0 & Ha)]%Hadir. apply HR. split; [by eapply ti_dot|]. split; [lia|done].
  - intros d' nd' [Hc' (nd0 & Ha)]%Hadir. destruct (ti_dotdot _ Ht _ _ Ha) as [p Hp]. exists p. apply HR. split; [done|]. split; [lia|done].
  - intros d' i j e n n' [Hi _]%HR [Hj _]%HR. by eapply ti_uniq.
  - intros d' e p [Hp _]%HR. destruct (ti_up _ Ht _ _ _ Hp) as [pd Hpd]. eapply Hadir'; [done|]. intros ->. by apply unlink_up in Hp.
  - intros d' k e n Hr H2. assert (Hr' := Hr). apply HR in Hr' as (Hk & N & Nc).
    destruct (ti_child _ Ht _ _ _ _ Hk H2) as [Hn (cd0 & E & Hl & Hu)]. split; [done|].
    destruct (unlinked_some _ _ E) as (nd' & E' & Ety). exists nd'. split; [done|]. split.
    + eapply linked_by_nz; [by apply unlinked_links|done|lia].
    + rewrite Ety. intros Hdir. apply HR. split; [auto|]. split; [lia|]. intros ->. apply N.
      eapply (ti_once _ Ht c cd0); [|done|done|done|done]. by split_and!.
  - intros n nd' d1 k1 e1 d2 k2 e2 [_ (nd0 & Ha)]%Hadir [H1 _]%HR [H2 _]%HR. by eapply ti_once.
  - intros n nd' [Hc' (nd0 & Ha)]%Hadir Hroot. destruct (ti_parent _ Ht _ _ Ha Hroot) as (d' & k & e & Hk & Hr).
    exists d', k, e. split; [done|]. apply HR. split; [done|]. split.
    + intros [-> ->]. by destruct (refers_fun _ _ _ _ _ _ _ Hr Hen).
    + intros ->. by apply unlink_inside in Hr.
  - apply unlinked_links.
Qed.
End unlink.

(** *** A new directory *)

Section mkdir.
Context (t : atree) (d : Z) (nd : node) (c : Z) (cd : node) (name : list Z).
Hypothesis Ht : tree_inv t.
Hypothesis Hd : adir t d nd.
Hypothesis Hc : t c = Some cd.
Hypothesis Hty : n_type cd = T_DIR.
Hypothesis Hnew : n_nlink cd = 0.
Hypothesis Hmod : (length (n_data cd) mod 16 = 0)%nat.
Hypothesis Hdots : forall k e n, ent (n_data cd) k e n <-> k = 0%nat /\ e = DOT /\ n = c \/ k = 1%nat /\ e = DOTDOT /\ n = d.
Hypothesis Hname : dir_find name (n_data nd) = None.

Definition tree_mkdired : atree :=
  <[c := Some (add_links 1 cd)]> (<[d := Some (add_links 1 (set_n_data (linked (n_data nd) c name) nd))]> t).

Let slot := dir_slot (n_data nd).
Let nm := str_take DIRSIZ name.

Lemma mkdir_ne : c <> d.
Proof. intros ->. destruct Hd as (E & _ & El). congruence. Qed.
Lemma mkdir_fresh d' k e : ~ refers t d' k e c.
Proof. intros Hr. destruct (refers_live _ _ _ _ _ Ht Hr) as (cd' & E & N). congruence. Qed.
Lemma mkdir_dead nd' : ~ adir t c nd'.
Proof. intros (E & _ & N). congruence. Qed.
Lemma mkdir_up : 1 <= n_nlink nd.
Proof. destruct (ti_links _ Ht _ _ (proj1 Hd)) as (X & _ & E). pose proof (proj2 (proj2 Hd)). lia. Qed.

Lemma mkdired_adir d' nd' : adir tree_mkdired d' nd' <-> d' <> d /\ adir t d' nd' \/
  d' = d /\ nd' = add_links 1 (set_n_data (linked (n_data nd) c name) nd) \/ d' = c /\ nd' = add_links 1 cd.
Proof.
  pose proof mkdir_ne as Hne. pose proof mkdir_up as Hl. pose proof (mkdir_dead nd') as Hdead. unfold adir, tree_mkdired in *.
  destruct Hd as (Ed & Ety & El). destruct (decide (d' = c)) as [->|Hc'].
  - rewrite fn_lookup_insert. split; [naive_solver|]. intros [[_ ?]|[[? _]|[_ ->]]]; [done|done|].
    split_and!; [done|done|simpl; lia].
  - rewrite fn_lookup_insert_ne by done. destruct (decide (d' = d)) as [->|].
    + rewrite fn_lookup_insert. split; [naive_solver|]. intros [[? _]|[[_ ->]|[? _]]]; [done| |done].
      split_and!; [done|done|simpl; lia].
    + rewrite fn_lookup_insert_ne by done. naive_solver.
Qed.

Lemma mkdired_refers d' k e n : refers tree_mkdired d' k e n <-> refers t d' k e n \/
  d' = d /\ k = slot /\ e = nm /\ n = c \/ d' = c /\ (k = 0%nat /\ e = DOT /\ n = c \/ k = 1%nat /\ e = DOTDOT /\ n = d).
Proof.
  unfold refers at 1. setoid_rewrite mkdired_adir. pose proof (ti_range _ Ht _ _ Hc) as Hr. assert (Hm := ti_mod _ Ht _ _ Hd).
  assert (HL : forall k e n, ent (n_data (add_links 1 (set_n_data (linked (n_data nd) c name) nd))) k e n <->
    ent (n_data nd) k e n \/ k = slot /\ e = nm /\ n = c) by (intros; apply ent_linked; [done|lia]). split.
  - intros (nd' & [[Hne Ha]|[[-> ->]|[-> ->]]] & He); [left; by exists nd'| |].
    + apply HL in He as [He|(-> & -> & ->)]; [left; by exists nd|by right; left].
    + apply Hdots in He. by right; right.
  - intros [(nd' & Ha & He)|[(-> & -> & -> & ->)|[-> He]]].
    + destruct (decide (d' = d)) as [->|]; [|by eauto 10]. rewrite (adir_fun _ _ _ _ Ha Hd) in He.
      eexists. split; [by right; left|]. apply HL. by left.
    + eexists. split; [by right; left|]. apply HL. by right.
    + exists (add_links 1 cd). split; [by right; right|]. by apply Hdots.
Qed.

Lemma mkdired_node n nd' : tree_mkdired n = Some nd' -> exists nd0, t n = Some nd0 /\
  n_nlink nd' = n_nlink nd0 + if decide (n = c \/ n = d) then 1 else 0.
Proof.
  unfold tree_mkdired. destruct (decide (n = c)) as [->|].
  - rewrite fn_lookup_insert. intros [= <-]. rewrite decide_True by tauto. by exists cd.
  - rewrite fn_lookup_insert_ne by done. destruct (decide (n = d)) as [->|].
    + rewrite fn_lookup_insert. intros [= <-]. rewrite decide_True by tauto. exists nd. split; [apply Hd|done].
    + rewrite fn_lookup_insert_ne by done. intros E. exists nd'. rewrite decide_False by tauto. split; [done|lia].
Qed.
Lemma mkdired_some n nd0 : t n = Some nd0 -> exists nd', tree_mkdired n = Some nd' /\ n_type nd' = n_type nd0.
Proof.
  intros E. unfold tree_mkdired. destruct (decide (n = c)) as [->|].
  - rewrite fn_lookup_insert. eexists. split; [done|]. simpl. congruence.
  - rewrite fn_lookup_insert_ne by done. destruct (decide (n = d)) as [->|].
    + rewrite fn_lookup_insert. eexists. split; [done|]. simpl. destruct Hd. congruence.
    + rewrite fn_lookup_insert_ne by done. eauto.
Qed.

Lemma mkdir_slot : (2 <= slot)%nat.
Proof.
  pose proof (ti_dot _ Ht _ _ Hd) as H0. destruct (ti_dotdot _ Ht _ _ Hd) as [p H1].
  apply (adir_refers _ _ _ _ _ _ Hd) in H0, H1. subst slot.
  destruct (dir_slot (n_data nd)) as [|[|k]] eqn:E; [rewrite <- E in H0|rewrite <- E in H1|lia]; exfalso; by eapply dir_slot_free.
Qed.

Lemma mkdired_links n nd' : tree_mkdired n = Some nd' -> linked_by tree_mkdired n (n_nlink nd').
Proof.
  pose proof mkdir_ne as Hne. pose proof mkdired_refers as HR. pose proof mkdir_slot as Hslot.
  intros (nd0 & E & ->)%mkdired_node. pose proof (ti_links _ Ht _ _ E) as Hl.
  destruct (decide (n = c)) as [->|Hnc]; [|destruct (decide (n = d)) as [->|Hnd]].
  - rewrite decide_True by tauto. apply (linked_by_add t _ _ _ d slot); [done|lia| |].
    + intros [e He]. by apply mkdir_fresh in He.
    + intros d' k Hk. setoid_rewrite HR. split; [naive_solver lia|]. intros [[e He]|[-> ->]]; eauto 10.
  - rewrite decide_True by tauto. apply (linked_by_add t _ _ _ c 1%nat); [done|lia| |].
    + intros [e (x & Hx & _)]. by apply mkdir_dead in Hx.
    + intros d' k Hk. setoid_rewrite HR. split; [naive_solver lia|]. intros [[e He]|[-> ->]]; eauto 10.
  - rewrite decide_False by tauto. rewrite Z.add_0_r. apply (linked_by_same t); [done|]. intros d' k Hk. setoid_rewrite HR. naive_solver.
Qed.

Theorem tree_mkdir : tree_inv tree_mkdired.
Proof.
  pose proof mkdir_ne as Hne. pose proof mkdir_slot as Hslot. pose proof mkdired_refers as HR.
  assert (HRold : forall d' k e n, refers t d' k e n -> refers tree_mkdired d' k e n) by (intros; apply HR; by left).
  assert (Hadir : forall d' nd', adir tree_mkdired d' nd' -> d' = c \/ d' <> c /\ exists nd0, adir t d' nd0).
  { intros d' nd' [[_ Ha]|[[-> ->]|[-> ->]]]%mkdired_adir; [|right; eauto|by left]. right. split; [|eauto]. intros ->. by apply mkdir_dead in Ha. }
  assert (Hadir' : forall d' nd0, adir t d' nd0 -> exists nd', adir tree_mkdired d' nd').
  { intros d' nd0 Ha. setoid_rewrite mkdired_adir. destruct (decide (d' = d)) as [->|]; eauto. }
  assert (Hold : forall d' k e n, refers t d' k e n -> d' <> c) by (intros ? ? ? ? (x & Hx & _) ->; by apply mkdir_dead in Hx).
  split.
  - intros n nd' (nd0 & E & _)%mkdired_node. by eapply ti_range.
  - apply HRold, Ht.
  - intros d' nd' [[_ Ha]|[[-> ->]|[-> ->]]]%mkdired_adir; [by eapply ti_mod|apply linked_mod; by eapply ti_mod|done].
  - intros d' nd' [->|[_ (nd0 & Ha)]]%Hadir; [apply HR; naive_solver|by eapply HRold, ti_dot].
  - intros d' nd' [->|[_ (nd0 & Ha)]]%Hadir; [exists d; apply HR; naive_solver|].
    destruct (ti_dotdot _ Ht _ _ Ha) as [p Hp]. by exists p; apply HRold.
  - intros d' i j e n n' [Hi|[(-> & -> & -> & ->)|[-> Hi]]]%HR [Hj|[(Ed & -> & Ee & ->)|[Ed Hj]]]%HR; subst; try done.
    + by eapply ti_uniq.
    + apply (adir_refers _ _ _ _ _ _ Hd) in Hi. by eapply dir_find_none in Hi.
    + by apply Hold in Hi.
    + apply (adir_refers _ _ _ _ _ _ Hd) in Hj. by eapply dir_find_none in Hj.
    + by apply Hold in Hj.
    + naive_solver.
  - intros d' e p [Hp|[(_ & E & _)|[-> Hp]]]%HR; [|lia|].
    + destruct (ti_up _ Ht _ _ _ Hp) as [pd Hpd]. by eapply Hadir'.
    + assert (p = d) as -> by naive_solver lia. by eapply Hadir'.
  - intros d' k e n Hr H2. assert (Hnz : forall nd', tree_mkdired n = Some nd' -> n_nlink nd' <> 0)
      by (intros nd' E'; eapply linked_by_nz; [by apply mkdired_links|exact Hr|lia]).
    apply HR in Hr as [Hk|[(-> & -> & -> & ->)|[-> Hk]]]; [| |lia].
    + destruct (ti_child _ Ht _ _ _ _ Hk H2) as [Hn (cd0 & E & Hl & Hu)]. split; [done|].
      destruct (mkdired_some _ _ E) as (nd' & E' & Ety). exists nd'. split; [done|]. split; [auto|].
      rewrite Ety. intros Hdir. apply HRold. auto.
    + split; [done|]. destruct (mkdired_some _ _ Hc) as (nd' & E' & Ety). exists nd'. split; [done|]. split; [auto|].
      intros _. apply HR. right; right. split; [done|]. by right.
  - intros n nd' d1 k1 e1 d2 k2 e2 Ha H1 H2 Hk1 Hk2.
    apply HR in H1 as [H1|[(E1 & E2 & E3 & E4)|[_ ?]]]; [| |lia];
    (apply HR in H2 as [H2|[(F1 & F2 & F3 & F4)|[_ ?]]]; [| |lia]); subst;
    try (by apply mkdir_fresh in H1); try (by apply mkdir_fresh in H2); try done.
    apply Hadir in Ha as [->|[_ (nd0 & Ha)]]; [by apply mkdir_fresh in H1|by eapply ti_once].
  - intros n nd' [->|[_ (nd0 & Ha)]]%Hadir Hroot; [exists d, slot, nm; split; [done|]; apply HR; naive_solver|].
    destruct (ti_parent _ Ht _ _ Ha Hroot) as (d' & k & e & Hk & Hr). exists d', k, e. auto.
  - apply mkdired_links.
Qed.
End mkdir.

(** *** A tree whose only directory is the root *)

Section flat.
Context (t : atree) (rd : node) (l : list (Z * list Z)).
Hypothesis Hrange : forall n nd, t n = Some nd -> 1 <= n < 65536.
Hypothesis Hroot : adir t ROOTINO rd.
Hypothesis Hlink : n_nlink rd = 1.
Hypothesis Hmod : (length (n_data rd) mod 16 = 0)%nat.
(** The entries: the dots, and the files. *)
Hypothesis Hent : forall k e c, ent (n_data rd) k e c <-> l !! k = Some (c, e).
Hypothesis Hdot : l !! 0%nat = Some (ROOTINO, DOT).
Hypothesis Hdotdot : l !! 1%nat = Some (ROOTINO, DOTDOT).
Hypothesis Hkeys : NoDup (snd <$> l).
Hypothesis Hfiles : forall k c e, l !! k = Some (c, e) -> (2 <= k)%nat -> c <> ROOTINO /\ exists nd, t c = Some nd.
Hypothesis Hnodes : forall n nd, t n = Some nd -> n <> ROOTINO -> n_nlink nd = 1 /\ n_type nd <> T_DIR /\
  exists k e, (2 <= k)%nat /\ l !! k = Some (n, e) /\ forall k' e', l !! k' = Some (n, e') -> k' = k.

Lemma flat_adir d nd : adir t d nd -> d = ROOTINO.
Proof. intros (E & Hty & _). destruct (decide (d = ROOTINO)); [done|]. by destruct (Hnodes d nd E) as (_ & ? & _). Qed.

Lemma flat_refers d k e c : refers t d k e c <-> d = ROOTINO /\ l !! k = Some (c, e).
Proof.
  rewrite <- Hent. split.
  - intros (nd & Hd & He). apply flat_adir in Hd as E. subst. by rewrite (adir_fun _ _ _ _ Hd Hroot) in He.
  - intros [-> He]. by exists rd.
Qed.

Lemma flat_links n nd : t n = Some nd -> linked_by t n (n_nlink nd).
Proof.
  intros E. assert (Hone : exists j, (1 <= j)%nat /\ n_nlink nd = 1 /\ forall k, (1 <= k)%nat -> (exists e, l !! k = Some (n, e)) <-> k = j).
  { destruct (decide (n = ROOTINO)) as [->|Hn].
    - rewrite (proj1 Hroot) in E. injection E as <-. exists 1%nat. split_and!; [lia|done|]. intros k Hk. split; [|intros ->; by eexists].
      intros [e He]. destruct (decide (2 <= k)%nat) as [H2|]; [|lia]. by destruct (Hfiles _ _ _ He H2).
    - destruct (Hnodes n nd E Hn) as (-> & _ & k & e & H2 & Hk & Hu). exists k. split_and!; [lia|done|]. intros k' _. split; [|intros ->; by exists e].
      intros [e' He']. by apply (Hu k' e'). }
  destruct Hone as (j & Hj & -> & Hu). exists {[(ROOTINO, j)]}. split; [|by rewrite size_singleton].
  intros d k. rewrite elem_of_singleton. setoid_rewrite flat_refers. split.
  - intros [= -> ->]. split; [done|]. destruct (proj2 (Hu j Hj) eq_refl) as [e He]. by exists e.
  - intros [Hk (e & -> & He)]. f_equal. apply Hu; [done|by exists e].
Qed.

Lemma flat_tree_inv : tree_inv t.
Proof.
  split.
  - done.
  - by apply flat_refers.
  - intros d nd Hd. apply flat_adir in Hd as E. subst. by rewrite (adir_fun _ _ _ _ Hd Hroot).
  - intros d nd ->%flat_adir. by apply flat_refers.
  - intros d nd ->%flat_adir. exists ROOTINO. by apply flat_refers.
  - intros d i j e c c' [-> H1]%flat_refers [_ H2]%flat_refers. eapply NoDup_lookup; [exact Hkeys| |]; rewrite list_lookup_fmap; [by rewrite H1|by rewrite H2].
  - intros d e p [-> H1]%flat_refers. rewrite Hdotdot in H1. injection H1 as <- _. by exists rd.
  - intros d k e c [-> H1]%flat_refers Hk. destruct (Hfiles _ _ _ H1 Hk) as [Hc (nd & E)]. split; [done|]. exists nd.
    destruct (Hnodes c nd E Hc) as (El & Hty & _). split_and!; [done|lia|done].
  - intros c cd d k e d' k' e' ->%flat_adir [_ H1]%flat_refers _ Hk. by destruct (Hfiles _ _ _ H1 Hk).
  - intros c cd ->%flat_adir. done.
  - intros n nd. apply flat_links.
Qed.
End flat.
