(* ===== verification/FsAbs.v ===== *)
(** * The disk as a tree of nodes

    [abs] reads the tree of FsTree off the disk; [files_ok] says that the
    blocks of the files are in order: every inode in use is well formed and no
    block belongs to two of them.  Each way in which fs.c changes the disk
    (writing a file, updating an inode, taking and giving back an inode)
    touches one file: it preserves [files_ok] and changes one node of [abs]. *)

From S2P Require Import Prelude Params CString Spinlock Sched Ring Bio Log Crash Logop Txn Fs FsBlocks FsFile FsData FsInode FsIcache FsDir FsIalloc FsPath FsTree.

Definition allocated (x : superblock) (v : Z -> list Z) (n : Z) : Prop :=
  1 <= n < sb_ninodes x /\ d_type (disk_inode x v n) <> 0.
#[global] Instance allocated_dec x v n : Decision (allocated x v n).
Proof. unfold allocated. apply _. Defined.

Definition node_of (d : dinode) (data : list Z) : node := Node (d_type d) (d_major d) (d_minor d) (d_nlink d) data.
Definition abs (x : superblock) (v : Z -> list Z) : atree :=
  fun n => if decide (allocated x v n) then Some (node_of (disk_inode x v n) (dir_data x v n)) else None.

Lemma abs_some x v n nd : abs x v n = Some nd ->
  allocated x v n /\ n_type nd = d_type (disk_inode x v n) /\ n_nlink nd = d_nlink (disk_inode x v n) /\ n_data nd = dir_data x v n.
Proof. unfold abs. case_decide; [|done]. by intros [= <-]. Qed.
Lemma abs_allocated x v n : allocated x v n -> abs x v n = Some (node_of (disk_inode x v n) (dir_data x v n)).
Proof. intros. unfold abs. by rewrite decide_True. Qed.

Section files.
Context (x : superblock) (nmeta : Z).
Notation ino_ok := (ino_ok x nmeta).
Notation data_block := (data_block x nmeta).
Notation meta_ok := (meta_ok x nmeta).
Notation allocated := (allocated x).

Record file_ok (v : Z -> list Z) (n : Z) : Prop := {
  fo_ino : ino_ok v (disk_file x v n);
  fo_holes : no_holes v (disk_file x v n);
  fo_dinode : dinode_ok (disk_inode x v n) }.

(** Block [c] belongs to inode [n]. *)
Definition holds (v : Z -> list Z) (n c : Z) : Prop := allocated v n /\ owns v (disk_file x v n) c.

Record files_ok (v : Z -> list Z) : Prop := {
  fs_meta : meta_ok v;
  fs_zero : d_type (disk_inode x v 0) = 0;
  fs_file : forall n, allocated v n -> file_ok v n;
  fs_sep : forall n m c, holds v n c -> holds v m c -> n = m }.

(** A file sees only its own blocks. *)
Lemma file_frame v v' i : ino_ok v i -> no_holes v i -> (forall c, owns v i c -> v' c = v c /\ data_block v' c) ->
  ino_ok v' i /\ no_holes v' i /\ file_data v' i = file_data v i /\ (forall c, owns v' i c <-> owns v i c).
Proof.
  intros Hi [Hs Hh] Ho.
  assert (Hind : addr NDIRECT i <> 0 -> owns v i (addr NDIRECT i)) by (split; [done|by left]).
  assert (Hblk : forall k, 0 <= k < MAXBLK -> blk v i k <> 0 -> owns v i (blk v i k)) by (split; [done|right; by exists k]).
  assert (Eb : forall k, blk v' i k = blk v i k) by (intros k; apply blk_ext; intros N; by apply Ho, Hind).
  destruct Hi. split_and!.
  - split; try done.
    + intros k Hk. rewrite Eb. intros N. by apply Ho, Hblk.
    + intros N. by apply Ho, Hind.
    + intros j k Hj Hk. rewrite !Eb. auto.
    + intros k Hk. rewrite Eb. auto.
  - split; [done|]. intros k Hk Hks. rewrite Eb. auto.
  - unfold file_data. apply list_fmap_ext. intros j o Hj. apply lookup_seqZ in Hj as [-> Hj]. unfold fbyte. rewrite Eb.
    destruct (Z.eqb_spec (blk v i ((0 + Z.of_nat j) / 512)) 0) as [|N]; [done|].
    assert (0 <= (0 + Z.of_nat j) / 512 < MAXBLK) by (unfold MAXBLK, MAXFILE in *; zlia).
    by rewrite (proj1 (Ho _ (Hblk _ H N))).
  - intros c. unfold owns. split; intros [Hc [?|(k & Hk & ->)]]; (split; [done|]); [by left| |by left|]; right; exists k; by rewrite Eb in *.
Qed.

(** Only inode [n] and its blocks change. *)
Record touches (v v' : Z -> list Z) (n : Z) : Prop := {
  tc_pos : 1 <= n < sb_ninodes x;
  tc_inode : forall j, 0 <= j < sb_ninodes x -> j <> n -> disk_inode x v' j = disk_inode x v j;
  tc_meta : meta_ok v';
  tc_data : forall b, data_block v b -> ~ holds v n b -> v' b = v b /\ data_block v' b /\ ~ holds v' n b }.

Lemma holds_block v n c : files_ok v -> holds v n c -> data_block v c.
Proof.
  intros Hf [Ha [Hc [->|(k & Hk & ->)]]]; destruct (fo_ino _ _ (fs_file _ Hf n Ha)); auto.
Qed.

Section touches.
Context (v v' : Z -> list Z) (n : Z).
Hypothesis Hf : files_ok v.
Hypothesis Ht : touches v v' n.

Lemma touches_allocated j : j <> n -> allocated v' j <-> allocated v j.
Proof.
  intros Hj. split; intros [Hr Ha]; (split; [done|]); [rewrite <- (tc_inode _ _ _ Ht j) by (done || lia)|rewrite (tc_inode _ _ _ Ht j) by (done || lia)]; done.
Qed.

Lemma touches_file j : j <> n -> allocated v j ->
  disk_file x v' j = disk_file x v j /\ file_ok v' j /\ dir_data x v' j = dir_data x v j /\
  (forall c, owns v' (disk_file x v' j) c <-> owns v (disk_file x v j) c).
Proof.
  intros Hj Ha. assert (Ed : disk_inode x v' j = disk_inode x v j) by (apply Ht; [destruct Ha; lia|done]).
  assert (Ef : disk_file x v' j = disk_file x v j) by (unfold disk_file; by rewrite Ed).
  destruct (fs_file _ Hf j Ha) as [Hi Hh Hd].
  destruct (file_frame v v' (disk_file x v j) Hi Hh) as (Hi' & Hh' & Edat & Eo).
  { intros c Hc. assert (Hhj : holds v j c) by done. destruct (tc_data _ _ _ Ht c) as (E & Hdat & _); [by eapply holds_block| |done].
    intros Hn. apply Hj. by eapply fs_sep. }
  split; [done|]. split; [split; rewrite ?Ef, ?Ed; done|]. unfold dir_data. by rewrite Ef.
Qed.

Lemma touches_abs j : j <> n -> abs x v' j = abs x v j.
Proof.
  intros Hj. unfold abs. pose proof (touches_allocated j Hj) as Hiff.
  destruct (decide (allocated v j)) as [Ha|Ha]; [|by rewrite decide_False by tauto].
  rewrite decide_True by tauto. destruct (touches_file j Hj Ha) as (_ & _ & -> & _).
  rewrite (tc_inode _ _ _ Ht j) by (destruct Ha; lia || done). done.
Qed.

Lemma touches_files : (allocated v' n -> file_ok v' n) -> files_ok v'.
Proof.
  intros Hn. split; [apply Ht| | |].
  - rewrite (tc_inode _ _ _ Ht 0); [apply Hf|pose proof (tc_pos _ _ _ Ht); lia|pose proof (tc_pos _ _ _ Ht); lia].
  - intros j Ha. destruct (decide (j = n)) as [->|Hj]; [auto|]. apply touches_file; [done|]. by apply touches_allocated.
  - assert (Hhold : forall j c, j <> n -> holds v' j c -> holds v j c).
    { intros j c Hj [Ha Ho]. apply touches_allocated in Ha; [|done]. split; [done|]. by apply (touches_file j Hj Ha). }
    assert (Hno : forall j c, j <> n -> holds v' j c -> holds v' n c -> False).
    { intros j c Hj Hc Hcn. apply Hhold in Hc; [|done]. destruct (tc_data _ _ _ Ht c) as (_ & _ & N); [by eapply holds_block| |done].
      intros Hn'. apply Hj. by eapply fs_sep. }
    intros a b c Ha Hb. destruct (decide (a = n)) as [->|Na], (decide (b = n)) as [->|Nb]; [done| | |].
    + by destruct (Hno b c Nb Hb).
    + by destruct (Hno a c Na Ha).
    + eapply fs_sep; [done|by apply Hhold|by apply Hhold].
Qed.

(** The tree after the change. *)
Lemma touches_tree nd : abs x v' n = nd -> pointwise_relation Z eq (abs x v') (<[n := nd]> (abs x v)).
Proof.
  intros <- j. destruct (decide (j = n)) as [->|]; [by rewrite fn_lookup_insert|]. rewrite fn_lookup_insert_ne by done. by apply touches_abs.
Qed.
End touches.

(** ** The changes that fs.c makes *)

Lemma owns_same v i i' c : i_addrs i = i_addrs i' -> owns v i c <-> owns v i' c.
Proof. intros E. unfold owns, blk, addr. by rewrite E. Qed.

Lemma same_no_holes v i i' : i_addrs i = i_addrs i' -> i_size i = i_size i' -> no_holes v i' -> no_holes v i.
Proof. intros Ea Es. unfold no_holes, blk, addr. by rewrite Ea, Es. Qed.

Context {dsz : Z} {wr : Z -> Prop}.
Hypothesis Hly : layout dsz wr x nmeta.

Lemma data_not_meta v b : data_block v b -> 0 < b /\ ~ is_bitmap x b /\ forall j, 0 <= j < sb_ninodes x -> b <> IBLOCK j x.
Proof.
  intros [Hb _]. pose proof (nmeta_pos _ _ _ _ Hly) as Hp. split; [lia|]. split.
  - intros Hm. destruct (bitmap_range _ _ _ _ Hly b Hm) as [? _]. lia.
  - intros j Hj ->. destruct (IBLOCK_range _ _ _ _ Hly j Hj) as (_ & ? & _). lia.
Qed.

(** The entry [i] of the cache is a copy of inode [n]. *)
Definition copy_of (v : Z -> list Z) (n : Z) (i : inode) : Prop := i_inum i = n /\ i_dev i = 1 /\ to_dinode i = disk_inode x v n.

Section copy.
Context (v : Z -> list Z) (n : Z) (i : inode).
Hypothesis Hc : copy_of v n i.

Lemma copy_synced : synced x v i.
Proof. destruct Hc as (<- & _ & E). done. Qed.
Lemma copy_addrs : i_addrs i = i_addrs (disk_file x v n).
Proof. destruct Hc as (_ & _ & E). unfold disk_file. by rewrite <- E. Qed.
Lemma copy_size : i_size i = i_size (disk_file x v n).
Proof. destruct Hc as (_ & _ & E). unfold disk_file. by rewrite <- E. Qed.
Lemma copy_type : i_type i = d_type (disk_inode x v n).
Proof. destruct Hc as (_ & _ & E). by rewrite <- E. Qed.
Lemma copy_nlink : i_nlink i = d_nlink (disk_inode x v n).
Proof. destruct Hc as (_ & _ & E). by rewrite <- E. Qed.
Lemma copy_data : file_data v i = dir_data x v n.
Proof. apply same_file_data; [apply copy_size|apply copy_addrs]. Qed.
Lemma copy_holds c : allocated v n -> holds v n c <-> owns v i c.
Proof. intros Ha. unfold holds. rewrite (owns_same v i _ c copy_addrs). naive_solver. Qed.
Lemma copy_file : file_ok v n <-> ino_ok v i /\ no_holes v i /\ dinode_ok (to_dinode i).
Proof.
  pose proof copy_addrs as Ea. pose proof copy_size as Es. destruct Hc as (_ & Hd & E). split.
  - intros []. split_and!; [by eapply same_ino_ok|by eapply same_no_holes|by rewrite E].
  - intros (H1 & H2 & H3). split; [eapply same_ino_ok; [by symmetry|by simpl|done]|by eapply same_no_holes|by rewrite <- E].
Qed.
End copy.

Lemma synced_copy v i : synced x v i -> i_dev i = 1 -> copy_of v (i_inum i) i.
Proof. by intros E Hd. Qed.

Lemma wrote_touches v v' n i i' off src : allocated v n -> copy_of v n i ->
  wrote x nmeta v v' i i' off src -> writable x nmeta v' i' ∅ ->
  touches v v' n /\ copy_of v' n i' /\ file_ok v' n /\
  abs x v' n = Some (node_of (disk_inode x v n) (overwrite (Z.to_nat off) src (dir_data x v n))).
Proof.
  intros Ha Hc Hw Hwb. assert (Ei := wt_inode _ _ _ _ _ _ _ _ Hw). assert (Hc' := Hc). destruct Hc' as (En & Hd & E).
  assert (Hc' : copy_of v' n i').
  { replace n with (i_inum i') by (rewrite Ei; done). apply synced_copy; [apply Hw|by rewrite Ei]. }
  assert (Ed : disk_inode x v' n = to_dinode i') by (symmetry; apply Hc').
  assert (Ety : d_type (disk_inode x v' n) = d_type (disk_inode x v n)) by (rewrite Ed, <- E; simpl; by rewrite Ei).
  assert (Ha' : allocated v' n) by (destruct Ha; split; [done|by rewrite Ety]).
  split_and!; [|done|by apply (copy_file _ _ _ Hc'); split_and!; [apply Hw|apply Hw|apply Hwb]|].
  - split; [apply Ha|intros j Hj Hne; apply (wt_inodes _ _ _ _ _ _ _ _ Hw); [done|by rewrite En]|apply Hw|]. intros b Hb Hnh.
    destruct (data_not_meta v b Hb) as (Hb0 & Hbm & Hbi). rewrite (copy_holds _ _ _ Hc b Ha) in Hnh.
    assert (Hfo : foreign x nmeta v i b).
    { split; [done|]. right. split; [done|]. split.
      - intros k Hk Eb. apply Hnh. split; [lia|]. right. by exists k.
      - intros Eb. apply Hnh. split; [lia|]. by left. }
    destruct (wt_foreign _ _ _ _ _ _ _ _ Hw b Hfo) as [Ev [_ Hor]].
    split; [apply Ev, Hbi; rewrite En; destruct Ha; lia|]. rewrite (copy_holds _ _ _ Hc' b Ha'). destruct Hor as [?|(Hdb & Hk & Hx)].
    { pose proof (proj1 Hb). lia. }
    split; [done|]. intros [_ [->|(k & Hkr & ->)]]; [done|by apply (Hk k)].
  - rewrite (abs_allocated _ _ _ Ha'). f_equal. unfold node_of. rewrite Ety, Ed, <- E. simpl.
    rewrite <- (copy_data _ _ _ Hc'), <- (copy_data _ _ _ Hc), (wt_data _ _ _ _ _ _ _ _ Hw). rewrite Ei at 1 2 3. done.
Qed.

(** [iupdate] of a copy whose map of blocks is as on the disk. *)
Lemma put_inode_touches v n i' : files_ok v -> allocated v n -> i_inum i' = n -> i_dev i' = 1 ->
  i_addrs i' = d_addrs (disk_inode x v n) -> i_size i' = d_size (disk_inode x v n) -> i_type i' <> 0 ->
  dinode_ok (to_dinode i') -> block_ok (v (IBLOCK n x)) -> let v' := put_inode x v i' in
  touches v v' n /\ copy_of v' n i' /\ file_ok v' n /\ abs x v' n = Some (node_of (to_dinode i') (dir_data x v n)).
Proof.
  intros Hf Ha En Hd Ea Es Hty Hok Hblk v'. assert (Hr : 0 <= i_inum i' < sb_ninodes x) by (rewrite En; destruct Ha; lia).
  assert (Hb : block_ok (v (IBLOCK (i_inum i') x))) by (by rewrite En). assert (Hlen : length (i_addrs i') = S NDIRECT) by apply Hok.
  assert (Hc' : copy_of v' n i').
  { rewrite <- En. apply synced_copy; [|done]. by apply (put_inode_synced x v i' Hb Hlen). }
  assert (Ed : disk_inode x v' n = to_dinode i') by (symmetry; apply Hc').
  assert (Ha' : allocated v' n) by (destruct Ha; split; [done|by rewrite Ed]).
  destruct (fs_file _ Hf n Ha) as [Hi Hh Hdi].
  assert (Ht : touches v v' n).
  { split; [apply Ha|..].
    - intros j Hj Hne. apply (put_inode_other x nmeta Hly); [done..|by rewrite En].
    - by apply (put_inode_meta x nmeta Hly), Hf.
    - intros b Hdb Hnh. destruct (put_inode_data x nmeta Hly v i' Hr Hlen b Hdb) as [Hdb' Ev]. split_and!; [done|done|].
      intros Hh'. apply Hnh. split; [done|]. apply (copy_holds _ _ _ Hc' b Ha') in Hh'.
      rewrite (owns_same v' i' (disk_file x v n)) in Hh' by done.
      apply (file_frame v v' _ Hi Hh); [|done]. intros c Ho.
      destruct (put_inode_data x nmeta Hly v i' Hr Hlen c) as [? ?]; [by eapply holds_block|done]. }
  destruct (file_frame v v' (disk_file x v n) Hi Hh) as (Hi' & Hh' & Edat & _).
  { intros c Ho. destruct (put_inode_data x nmeta Hly v i' Hr Hlen c) as [? ?]; [by eapply holds_block|done]. }
  split_and!; [done|done| |].
  - apply (copy_file _ _ _ Hc'). split_and!; [by apply (same_ino_ok _ _ _ _ (disk_file x v n))|by apply (same_no_holes _ _ (disk_file x v n))|done].
  - rewrite (abs_allocated _ _ _ Ha'), Ed. f_equal. f_equal. rewrite <- (copy_data _ _ _ Hc'). unfold dir_data. rewrite <- Edat. by apply same_file_data.
Qed.

(** A file given back. *)
Lemma released_touches v v' n i i' : files_ok v -> allocated v n -> copy_of v n i -> released x nmeta v v' i i' ->
  i_inum i' = n -> i_type i' = 0 -> touches v v' n /\ ~ allocated v' n.
Proof.
  intros Hf Ha Hc [] En' Ht0. assert (En := proj1 Hc).
  assert (Hna : ~ allocated v' n).
  { intros [_ N]. apply N. unfold synced in rl_synced. rewrite En' in rl_synced. by rewrite rl_synced. }
  split; [|done]. split; [apply Ha|..].
  - intros j Hj Hne. apply rl_other; [done|by rewrite En].
  - done.
  - intros b Hb Hnh. destruct (data_not_meta v b Hb) as (_ & Hbm & Hbi). destruct Hb as [Hr Hu].
    rewrite (copy_holds _ _ _ Hc b Ha) in Hnh. split; [apply rl_keep; [done|]; apply Hbi; rewrite En; destruct Ha; lia|].
    split; [|by intros [? _]]. split; [done|]. apply rl_used; [|done]. pose proof (nmeta_pos _ _ _ _ Hly). lia.
Qed.

(** A new inode. *)
Lemma zero_file v i : i_dev i = 1 -> i_addrs i = replicate (S NDIRECT) 0 -> i_size i = 0 ->
  ino_ok v i /\ no_holes v i /\ file_data v i = [] /\ forall c, ~ owns v i c.
Proof.
  intros Hd Ha Hs. assert (Had : forall k, addr k i = 0).
  { intros k. unfold addr. rewrite Ha. destruct (decide (k < S NDIRECT)%nat).
    - by rewrite lookup_replicate_2. - by rewrite lookup_ge_None_2 by (rewrite length_replicate; lia). }
  assert (Hb : forall k, blk v i k = 0) by (intros k; unfold blk; rewrite !Had; by destruct (k <? 12)).
  split_and!.
  - split; try done; rewrite ?Had; try done; intros; rewrite ?Hb in *; try done. by rewrite Ha.
  - split; [rewrite Hs; done|]. intros k Hk. rewrite Hs. lia.
  - unfold file_data. by rewrite Hs.
  - intros c [Hc [E|(k & _ & E)]]; [rewrite Had in E|rewrite Hb in E]; done.
Qed.

Lemma fresh_touches v v' t type : meta_ok v -> 1 <= t < sb_ninodes x -> d_type (disk_inode x v t) = 0 -> type <> 0 -> is_s16 type ->
  disk_inode x v' t = fresh_dinode type ->
  (forall j, 0 <= j < sb_ninodes x -> j <> t -> disk_inode x v' j = disk_inode x v j) ->
  (forall n, n <> IBLOCK t x -> v' n = v n) ->
  touches v v' t /\ file_ok v' t /\ abs x v' t = Some (Node type 0 0 0 []) /\ (forall c, 0 <= c < sb_size x -> used x v' c = used x v c).
Proof.
  intros Hm Ht Hty0 Hty Hs16 Ed Hother Hkeep. assert (Ha' : allocated v' t) by (split; [done|by rewrite Ed]).
  destruct (IBLOCK_range _ _ _ _ Hly t) as (_ & Hib & _ & _ & Hnb); [lia|].
  assert (Hu : forall c, 0 <= c < sb_size x -> used x v' c = used x v c).
  { intros c Hc. unfold used. rewrite Hkeep; [done|]. intros E. apply Hnb. rewrite <- E. by apply (BBLOCK_bitmap _ _ _ _ Hly). }
  destruct (zero_file v' (disk_file x v' t)) as (Hi & Hh & Hdat & Hno); [done|unfold disk_file; by rewrite Ed|unfold disk_file; by rewrite Ed|].
  split_and!; [| | |done].
  - split; [done|done| |].
    + destruct Hm as [Hsb Hus]. split; [rewrite Hkeep; [done|lia]|]. intros b Hb. rewrite Hu; [auto|]. destruct Hly. lia.
    + intros b Hb _. destruct (data_not_meta v b Hb) as (_ & _ & Hbi). split; [apply Hkeep, Hbi; lia|].
      split; [|by intros [_ ?%Hno]]. destruct Hb as [Hr Hub]. split; [done|]. rewrite Hu; [done|]. pose proof (nmeta_pos _ _ _ _ Hly). lia.
  - split; [done|done|]. rewrite Ed. split; simpl; try done. by repeat constructor.
  - rewrite (abs_allocated _ _ _ Ha'), Ed. unfold node_of. simpl. unfold dir_data. by rewrite Hdat.
Qed.

(** Views that agree on the superblock and the blocks files are made of. *)
Section same.
Context (v v' : Z -> list Z).
Hypothesis Hf : files_ok v.
Hypothesis Hsb : v' 1 = v 1.
Hypothesis Hwr : forall b, wr b -> v' b = v b.

Lemma same_inode n : 0 <= n < sb_ninodes x -> disk_inode x v' n = disk_inode x v n.
Proof. intros Hn. destruct (IBLOCK_range _ _ _ _ Hly n Hn) as (_ & _ & _ & Hw & _). unfold disk_inode. by rewrite Hwr. Qed.

Lemma same_used b : 0 <= b < sb_size x -> used x v' b = used x v b.
Proof.
  intros Hb. destruct (bitmap_range _ _ _ _ Hly _ (BBLOCK_bitmap _ _ _ _ Hly b Hb)) as (_ & _ & Hw & _). unfold used. by rewrite Hwr.
Qed.

Lemma same_data b : data_block v b -> v' b = v b /\ data_block v' b.
Proof.
  intros Hd. destruct (data_range x nmeta Hly v b Hd) as [Hw _]. split; [by apply Hwr|]. destruct Hd as [Hr Hu].
  split; [done|]. rewrite same_used; [done|]. pose proof (nmeta_pos _ _ _ _ Hly). lia.
Qed.

Lemma same_allocated n : allocated v' n <-> allocated v n.
Proof. split; intros [Hr Ha]; (split; [done|]); [rewrite <- same_inode by lia|rewrite same_inode by lia]; done. Qed.

Lemma same_file n : allocated v n -> file_ok v' n /\ dir_data x v' n = dir_data x v n /\
  forall c, owns v' (disk_file x v' n) c <-> owns v (disk_file x v n) c.
Proof.
  intros Ha. assert (Ed : disk_inode x v' n = disk_inode x v n) by (apply same_inode; destruct Ha; lia).
  assert (Ef : disk_file x v' n = disk_file x v n) by (unfold disk_file; by rewrite Ed).
  destruct (fs_file _ Hf n Ha) as [Hi Hh Hd]. destruct (file_frame v v' _ Hi Hh) as (H1 & H2 & H3 & H4).
  { intros c Hc. apply same_data. eapply holds_block; [done|by split]. }
  unfold dir_data. rewrite Ef. split_and!; [|done|done]. split; rewrite ?Ef; [done|done|by rewrite Ed].
Qed.

Lemma same_files : files_ok v'.
Proof.
  split.
  - destruct (fs_meta _ Hf). split; [by rewrite Hsb|]. intros b Hb. rewrite same_used; [auto|]. destruct (ly_size _ _ _ _ Hly). lia.
  - rewrite same_inode; [apply Hf|]. destruct (ly_inodes _ _ _ _ Hly). lia.
  - intros n Ha%same_allocated. by apply same_file.
  - intros n m c [Hn%same_allocated Hc] [Hm%same_allocated Hc']. destruct (same_file n Hn) as (_ & _ & En), (same_file m Hm) as (_ & _ & Em). apply (fs_sep _ Hf n m c).
    + split; [done|by apply En]. + split; [done|by apply Em].
Qed.

Lemma same_abs : pointwise_relation Z eq (abs x v') (abs x v).
Proof.
  intros n. unfold abs. destruct (decide (allocated v n)) as [Ha|Ha].
  - rewrite decide_True by (by apply same_allocated). destruct (same_file n Ha) as (_ & -> & _). rewrite same_inode; [done|destruct Ha; lia].
  - by rewrite decide_False by (by rewrite same_allocated).
Qed.
End same.
End files.

(** The disk is in order: the blocks, and the tree. *)
Record fs_inv (x : superblock) (nmeta : Z) (v : Z -> list Z) : Prop := {
  fi_files : files_ok x nmeta v;
  fi_tree : tree_inv (abs x v) }.

(** ** Paths in the tree *)

Definition alive (t : atree) (n : Z) : Prop := exists nd, t n = Some nd /\ n_nlink nd <> 0.

(** The node that the elements [es] name from [n], or its directory. *)
Fixpoint aresolve (t : atree) (parent : bool) (n : Z) (es : list (list Z)) : option Z :=
  match es with
  | [] => if parent then None else Some n
  | e :: es =>
      match t n with
      | Some nd =>
          if negb (n_type nd =? T_DIR) then None
          else if parent && bool_decide (es = []) then Some n
          else match dir_find e (n_data nd) with
               | None => None
               | Some k => aresolve t parent (de_inum (dent (n_data nd) k)) es
               end
      | None => None
      end
  end.

(** What the walk of a path needs of the tree. *)
Record walkable (t : atree) : Prop := {
  wk_root : alive t ROOTINO;
  wk_mod : forall d nd, adir t d nd -> (length (n_data nd) mod 16 = 0)%nat;
  wk_live : forall d k e c, refers t d k e c -> alive t c }.

Lemma tree_walkable t : tree_inv t -> walkable t.
Proof.
  intros Ht. split; [|apply Ht|intros d k e c; by apply refers_live].
  destruct (ti_root _ Ht) as (nd & (E & _ & ?) & _). by exists nd.
Qed.

Lemma aresolve_alive t parent es : walkable t -> forall n n', alive t n -> aresolve t parent n es = Some n' ->
  alive t n' /\ (parent = true -> exists nd, adir t n' nd).
Proof.
  intros Ht. induction es as [|e es IH]; intros n n' Hn; cbn [aresolve].
  { destruct parent; [done|]. by intros [= <-]. }
  assert (Hn' := Hn). destruct Hn' as (nd & E & Hl). rewrite E. destruct (Z.eqb_spec (n_type nd) T_DIR) as [Hty|]; [|done]. simpl negb. cbv iota.
  destruct (parent && bool_decide (es = [])) eqn:Ep.
  { intros [= <-]. split; [done|]. intros _. by exists nd. }
  destruct (dir_find e (n_data nd)) as [k|] eqn:Ek; [|done]. apply IH.
  eapply (wk_live _ Ht). exists nd. split; [by split_and!|]. by apply dir_find_some.
Qed.

(** Trees that differ only in link counts, none of which became zero. *)
Definition relinked (t t' : atree) : Prop := forall n, option_Forall2 (fun nd nd' =>
  n_type nd' = n_type nd /\ n_data nd' = n_data nd /\ (n_nlink nd' = 0 <-> n_nlink nd = 0)) (t n) (t' n).

Lemma relinked_alive t t' n : relinked t t' -> alive t n -> alive t' n.
Proof.
  intros H (nd & E & Hl). pose proof (H n) as Hn. rewrite E in Hn. inversion Hn as [? nd' (_ & _ & Hz) Ea Eb|]; subst. exists nd'. split; [done|tauto].
Qed.

Lemma relinked_adir t t' n nd' : relinked t t' -> adir t' n nd' -> exists nd, adir t n nd /\ n_data nd = n_data nd'.
Proof.
  intros H (E & Ety & Hl). pose proof (H n) as Hn. rewrite E in Hn. inversion Hn as [nd ? (Hty & Hd & Hz) Ea Eb|]; subst.
  exists nd. split; [|done]. split_and!; [done|congruence|tauto].
Qed.

Lemma relinked_walkable t t' : relinked t t' -> walkable t -> walkable t'.
Proof.
  intros H []. split.
  - by eapply relinked_alive.
  - intros d nd' (nd & Ha & <-)%(relinked_adir t); [by eapply wk_mod0|done].
  - intros d k e c (nd' & (nd & Ha & Ed)%(relinked_adir t) & He); [|done]. rewrite <- Ed in He. eapply relinked_alive; [done|].
    eapply wk_live0. by exists nd.
Qed.

Lemma relinked_resolve t t' parent es : relinked t t' -> forall n, aresolve t' parent n es = aresolve t parent n es.
Proof.
  intros H. induction es as [|e es IH]; intros n; [done|]. cbn [aresolve].
  pose proof (H n) as Hn. destruct Hn as [nd nd' (Hty & Hd & _)|]; [|done]. rewrite Hty, Hd. repeat (case_match; try done).
Qed.

Lemma relinked_links t c cd z : t c = Some cd -> (z = 0 <-> n_nlink cd = 0) -> relinked t (<[c := Some (set_n_nlink z cd)]> t).
Proof.
  intros E Hz n. destruct (decide (n = c)) as [->|].
  - rewrite fn_lookup_insert, E. by constructor.
  - rewrite fn_lookup_insert_ne by done. destruct (t n); by constructor.
Qed.

#[global] Instance relinked_proper : Proper (pointwise_relation Z eq ==> pointwise_relation Z eq ==> iff) relinked.
Proof. intros t1 t1' E1 t2 t2' E2. unfold relinked. by setoid_rewrite E1; setoid_rewrite E2. Qed.

Lemma alive_live x v n : alive (abs x v) n -> live x v n /\ allocated x v n.
Proof. intros (nd & (Ha & _ & El & _)%abs_some & Hl). split; [|done]. destruct Ha. split_and!; [lia|lia|done|by rewrite <- El]. Qed.

Section paths.
Context (x : superblock) (nmeta : Z) (v : Z -> list Z).
Hypothesis Hf : files_ok x nmeta v.
Hypothesis Ht : walkable (abs x v).

Lemma live_alive n : live x v n -> alive (abs x v) n.
Proof.
  intros (Hr & Hty & Hl). assert (n <> 0) by (intros ->; by apply Hty, Hf). assert (Ha : allocated x v n) by (split; [lia|done]).
  eexists. split; [by apply abs_allocated|done].
Qed.

Lemma live_dir n : live x v n -> is_dir x v n = true -> adir (abs x v) n (node_of (disk_inode x v n) (dir_data x v n)).
Proof.
  intros Hl%live_alive Hd%Z.eqb_eq. apply alive_live in Hl as [Hl Ha]. split; [by apply abs_allocated|]. by destruct Hl as (_ & _ & ?).
Qed.

Lemma walkable_ok : tree_ok x nmeta v.
Proof.
  split.
  - intros n Hl Hd i. destruct (live_alive n Hl) as (nd & (Ha & _)%abs_some & _). destruct (fs_file _ _ _ Hf n Ha) as [Hi Hh _].
    split_and!; [done|done|]. pose proof (wk_mod _ Ht _ _ (live_dir n Hl Hd)) as Hm. cbn [n_data node_of] in Hm. unfold dir_data in Hm.
    rewrite length_file_data in Hm. destruct Hh as [Hs _]. fold i in Hm, Hs.
    apply (f_equal Z.of_nat) in Hm. by rewrite Nat2Z.inj_mod, Z2Nat.id in Hm by lia.
  - intros n k Hl Hd d Hk Hv. apply alive_live. eapply (wk_live _ Ht). eexists. split; [by apply live_dir|]. simpl. fold d.
    unfold vacant in Hv. split_and!; [done|done|lia|done].
Qed.

Lemma resolve_abs parent es : forall n, alive (abs x v) n -> resolve x v parent n es = aresolve (abs x v) parent n es.
Proof.
  induction es as [|e es IH]; intros n Hn; cbn [resolve aresolve]; [done|].
  assert (Hn' := Hn). destruct Hn' as (nd & E & Hl). rewrite E. destruct (abs_some _ _ _ _ E) as (Ha & Ety & Enl & Edat).
  unfold is_dir. rewrite <- Ety, <- Edat. destruct (Z.eqb_spec (n_type nd) T_DIR) as [Hty|]; simpl negb; cbv iota; [|done].
  destruct (parent && bool_decide (es = [])); [done|]. destruct (dir_find e (n_data nd)) as [k|] eqn:Ek; [|done]. apply IH.
  eapply (wk_live _ Ht). exists nd. split; [by split_and!|]. by apply dir_find_some.
Qed.
End paths.
