(* ===== verification/FsOps.v ===== *)
(** * The operations of fs.c inside a transaction

    [CS L v id r B s]: the disk reads as [v], the blocks [L] are logged, no
    buffer is held, slot [j] of the inode cache has [r j] references and stands
    for inode [id j], and exactly the slots [B] are locked.  Each operation is
    stated by its effect on this state and, when it writes, on the tree [abs]. *)

From S2P Require Import Prelude Params CString Spinlock Sched Ring Bio Log Crash Logop Txn Fs FsBlocks FsFile FsData FsInode FsIcache FsDir FsIalloc FsPath FsTree FsAbs.

(** [k] references can be taken, in free slots if need be. *)
Definition room (k : nat) (r : nat -> Z) : Prop :=
  (forall j, 0 <= r j < 2147483640 - Z.of_nat k) /\
  exists X : gset nat, (k <= base.size X)%nat /\ forall a, a ∈ X -> (a < NINODE)%nat /\ r a = 0.

Lemma room_take k r ip : room (S k) r -> room k (<[ip := r ip + 1]> r).
Proof.
  intros (Hm & X & Hl & Hz). split.
  - intros j. pose proof (Hm j). pose proof (Hm ip).
    destruct (decide (j = ip)) as [->|]; [rewrite fn_lookup_insert|rewrite fn_lookup_insert_ne by done]; lia.
  - exists (X ∖ {[ip]}). split.
    + assert (Hs : (base.size X <= base.size (X ∖ {[ip]}) + 1)%nat); [|lia].
      rewrite <- (size_singleton (C := gset nat) ip). rewrite <- size_union by set_solver. apply subseteq_size. 
      intros a Ha. destruct (decide (a = ip)); set_solver.
    + intros a [Ha Hne]%elem_of_difference. rewrite fn_lookup_insert_ne by set_solver. auto.
Qed.

Lemma room_mono k k' r : room k r -> (k' <= k)%nat -> room k' r.
Proof. intros (Hm & X & Hl & Hz) Hk. split; [intros j; pose proof (Hm j); lia|]. exists X. split; [lia|done]. Qed.

Lemma room_slot k r : room (S k) r -> exists a, (a < NINODE)%nat /\ r a = 0.
Proof. intros (_ & X & Hl & Hz). destruct (size_pos_elem_of X) as [a Ha]; [lia|]. exists a. auto. Qed.

Lemma room_roomy k r : room (S (S k)) r -> roomy r.
Proof.
  intros Hr. destruct (room_slot _ _ Hr) as (a & Ha & Ra). assert (Hm := proj1 Hr).
  destruct (room_slot _ _ (room_take _ _ a Hr)) as (b & Hb & Rb).
  assert (Hab : b <> a) by (intros ->; rewrite fn_lookup_insert in Rb; lia). rewrite fn_lookup_insert_ne in Rb by done.
  split; [intros j; pose proof (Hm j); lia|]. by exists a, b.
Qed.

Section ops.
Context {dsz : Z} {cap : nat} {wr : Z -> Prop} {T TL} {TS : TxnStore dsz cap wr T TL}.
Context (x : superblock) (nmeta : Z).
Hypothesis Hly : layout dsz wr x nmeta.
Notation FT := (FT (T := T)).
Notation abs := (abs x).
Notation allocated := (allocated x).
Notation files_ok := (files_ok x nmeta).

Record cinv (v : Z -> list Z) (id r : nat -> Z) (B : gset nat) (ic : nat -> inode) : Prop := {
  cv_max : forall j, 0 <= r j < 2147483640;
  cv_ref : forall j, (j < NINODE)%nat -> i_ref (ic j) = r j;
  cv_slot : forall j, (j < NINODE)%nat -> 0 < r j -> i_dev (ic j) = 1 /\ i_inum (ic j) = id j /\ allocated v (id j) /\
    has (i_flags (ic j)) I_BUSY = bool_decide (j ∈ B) /\ (has (i_flags (ic j)) I_VALID = true -> synced x v (ic j));
  cv_uniq : forall i j, (i < NINODE)%nat -> (j < NINODE)%nat -> 0 < r i -> 0 < r j -> id i = id j -> i = j;
  cv_lock : forall j, j ∈ B -> (j < NINODE)%nat /\ 0 < r j /\ has (i_flags (ic j)) I_VALID = true }.

Definition CS (L : gset Z) (v : Z -> list Z) (id r : nat -> Z) (B : gset nat) (s : fs_st) : Prop :=
  exists ic, FT L v ∅ ic x s /\ cinv v id r B ic.

Lemma cinv_icache v id r B ic : cinv v id r B ic -> icache_ok ic.
Proof.
  intros []. split.
  - intros j Hj. rewrite cv_ref0 by done. pose proof (cv_max0 j). lia.
  - intros i j Hi Hj Pi Pj _ E. rewrite cv_ref0 in Pi, Pj by done. destruct (cv_slot0 i Hi Pi) as (_ & Ei & _), (cv_slot0 j Hj Pj) as (_ & Ej & _).
    apply cv_uniq0; congruence.
Qed.

Lemma cinv_slot_ok v id r B ic j : cinv v id r B ic -> (j < NINODE)%nat -> j ∉ B -> slot_ok x v (ic j).
Proof.
  intros Hc Hj Hb Hp. rewrite (cv_ref _ _ _ _ _ Hc) in Hp by done. destruct (cv_slot _ _ _ _ _ Hc j Hj Hp) as (? & _ & _ & E & ?).
  rewrite bool_decide_eq_false_2 in E by done. done.
Qed.

(** One slot changes, and perhaps the inode it stands for. *)
Lemma cinv_at v v' id r r' B B' ic ic' ip i : cinv v id r B ic -> cache_at ic ic' ip i -> (ip < NINODE)%nat -> 0 < r ip ->
  (forall j, j <> ip -> r' j = r j /\ (j ∈ B' <-> j ∈ B)) -> i_ref i = r' ip -> 0 <= r' ip < 2147483640 ->
  (forall j, 1 <= j < sb_ninodes x -> j <> id ip -> disk_inode x v' j = disk_inode x v j) ->
  (0 < r' ip -> i_dev i = 1 /\ i_inum i = id ip /\ allocated v' (id ip) /\ has (i_flags i) I_BUSY = bool_decide (ip ∈ B') /\
    (has (i_flags i) I_VALID = true -> synced x v' i)) ->
  (ip ∈ B' -> 0 < r' ip /\ has (i_flags i) I_VALID = true) -> cinv v' id r' B' ic'.
Proof.
  intros [] [E Hne] Hip Hpos Hj Er Hmax Hd Hslot Hlock. split.
  - intros j. destruct (decide (j = ip)) as [->|N]; [done|]. by rewrite (proj1 (Hj j N)).
  - intros j Hlt. destruct (decide (j = ip)) as [->|N]; [by rewrite E|]. rewrite Hne, (proj1 (Hj j N)) by done. auto.
  - intros j Hlt Hp. destruct (decide (j = ip)) as [->|N]; [rewrite E; auto|]. destruct (Hj j N) as [Erj HB].
    rewrite Erj in Hp. rewrite Hne by done. destruct (cv_slot0 j Hlt Hp) as (H1 & H2 & H3 & H4 & H5).
    assert (Nid : id j <> id ip) by (intros Eid; apply N; by apply cv_uniq0).
    assert (Edi : disk_inode x v' (id j) = disk_inode x v (id j)) by (apply Hd; [apply H3|done]).
    split_and!; [done|done|destruct H3; split; [done|by rewrite Edi]|rewrite H4; by apply bool_decide_ext|].
    intros Hv. unfold synced. rewrite H2, Edi, <- H2. by apply H5.
  - intros a b Ha Hb Pa Pb. assert (0 < r a) by (destruct (decide (a = ip)) as [->|N]; [done|by rewrite <- (proj1 (Hj a N))]).
    assert (0 < r b) by (destruct (decide (b = ip)) as [->|N]; [done|by rewrite <- (proj1 (Hj b N))]). auto.
  - intros j HB. destruct (decide (j = ip)) as [->|N]; [rewrite E; split; [done|auto]|]. destruct (Hj j N) as [Erj HBj].
    rewrite Hne, Erj by done. apply cv_lock0. by apply HBj.
Qed.

(** A slot that is locked has a copy of its inode. *)
Lemma cinv_copy v id r B ic ip : cinv v id r B ic -> ip ∈ B -> copy_of x v (id ip) (ic ip).
Proof.
  intros Hc HB. destruct (cv_lock _ _ _ _ _ Hc ip HB) as (Hip & Hp & Hv).
  destruct (cv_slot _ _ _ _ _ Hc ip Hip Hp) as (Hd & <- & _ & _ & Hs). by apply synced_copy; [apply Hs|].
Qed.

Section fixed.
Context (L : gset Z) (v : Z -> list Z) (id r : nat -> Z) (B : gset nat).

Lemma CS_block_ok s n : CS L v id r B s -> 0 <= n < dsz -> block_ok (v n).
Proof. intros (ic & HT & _). by eapply FT_view. Qed.

Lemma CS_alloc s ip : CS L v id r B s -> (ip < NINODE)%nat -> 0 < r ip -> allocated v (id ip).
Proof. intros (ic & _ & Hc) Hip Hp. by apply (cv_slot _ _ _ _ _ Hc). Qed.

Lemma CS_ino ip s : CS L v id r B s -> ip ∈ B -> wp (ino ip) (fun i s' => s' = s /\ copy_of x v (id ip) i) s.
Proof.
  intros (ic & HT & Hc) HB. eapply wp_mono; [by eapply FT_ino|]. intros i s' [-> ->]. split; [done|]. by eapply cinv_copy.
Qed.

Lemma CS_ilock ip s : CS L v id r B s -> (ip < NINODE)%nat -> 0 < r ip -> ip ∉ B -> (base.size L < NBUF)%nat ->
  wp (ilock ip) (fun _ s' => CS L v id r ({[ip]} ∪ B) s') s.
Proof.
  intros (ic & HT & Hc) Hip Hp HB Hroom. assert (Hso := cinv_slot_ok _ _ _ _ _ _ Hc Hip HB).
  assert (Er := cv_ref _ _ _ _ _ Hc ip Hip). destruct (cv_slot _ _ _ _ _ Hc ip Hip Hp) as (Hd & Hn & Ha & Hb & Hv).
  rewrite bool_decide_eq_false_2 in Hb by done. assert (Hp' : 0 < i_ref (ic ip)) by lia.
  destruct (locked_facts x v (ic ip) Hso Hp') as (Lr & Ld & Ln & Ls & Lb & Lv).
  eapply wp_mono; [eapply wp_ilock; try done; rewrite ?Hn; [lia|destruct Ha; lia|]|].
  - intros _. split; [apply Ha|]. split; [intros j; by rewrite lookup_empty|]. rewrite map_size_empty. lia.
  - intros [] s' (ic' & H' & Hc'). exists ic'. split; [done|]. eapply (cinv_at v v); [done|done|done|done|set_solver|congruence|apply Hc|done| |].
    + intros _. split_and!; [congruence|congruence|done|rewrite Lb, bool_decide_eq_true_2 by set_solver; done|done].
    + done.
Qed.

Lemma CS_iunlock ip s : CS L v id r B s -> ip ∈ B -> wp (iunlock ip) (fun _ s' => CS L v id r (B ∖ {[ip]}) s') s.
Proof.
  intros (ic & HT & Hc) HB. destruct (cv_lock _ _ _ _ _ Hc ip HB) as (Hip & Hp & Hv).
  destruct (cv_slot _ _ _ _ _ Hc ip Hip Hp) as (Hd & Hn & Ha & Hb & Hs). rewrite bool_decide_eq_true_2 in Hb by done.
  assert (Er := cv_ref _ _ _ _ _ Hc ip Hip).
  eapply wp_mono; [eapply wp_iunlock; [done|lia|done]|]. intros [] s' (ic' & H' & Hc'). exists ic'. split; [done|].
  eapply (cinv_at v v); [done|done|done|done|set_solver|done|apply Hc|done| |set_solver].
  intros _. simpl. autorewrite with flags. rewrite bool_decide_eq_false_2 by set_solver. by split_and!.
Qed.

(** A reference given back that is not the last one of a removed file. *)
Lemma CS_iput ip s : CS L v id r B s -> (ip < NINODE)%nat -> 0 < r ip -> (ip ∈ B -> 1 < r ip) ->
  r ip <> 1 \/ d_nlink (disk_inode x v (id ip)) <> 0 ->
  wp (iput ip) (fun _ s' => CS L v id (<[ip := r ip - 1]> r) B s') s.
Proof.
  intros (ic & HT & Hc) Hip Hp HB Hk. assert (Er := cv_ref _ _ _ _ _ Hc ip Hip). assert (Hmax := cv_max _ _ _ _ _ Hc ip).
  destruct (cv_slot _ _ _ _ _ Hc ip Hip Hp) as (Hd & Hn & Ha & Hb & Hs).
  eapply wp_mono; [eapply wp_iput_ref; [done|lia|]|].
  - destruct Hk as [Hk|Hk]; [left; lia|right]. destruct (has (i_flags (ic ip)) I_VALID) eqn:Ev; [right|by left].
    destruct (synced_file _ _ _ (Hs eq_refl)) as (_ & _ & _ & ->). by rewrite Hn.
  - intros [] s' (ic' & H' & Hc'). exists ic'. split; [done|].
    eapply (cinv_at v v); [done|done|done|done| | | |done| |].
    + intros j Hj. by rewrite fn_lookup_insert_ne.
    + rewrite fn_lookup_insert. simpl. lia.
    + rewrite fn_lookup_insert. lia.
    + intros _. simpl. by split_and!.
    + intros HBi. rewrite fn_lookup_insert. split; [specialize (HB HBi); lia|]. by apply (cv_lock _ _ _ _ _ Hc).
Qed.

End fixed.

Lemma CS_iunlockput L v id r B ip s : CS L v id r B s -> ip ∈ B -> r ip <> 1 \/ d_nlink (disk_inode x v (id ip)) <> 0 ->
  wp (iunlockput ip) (fun _ s' => CS L v id (<[ip := r ip - 1]> r) (B ∖ {[ip]}) s') s.
Proof.
  intros HC HB Hk. assert (HC' := HC). destruct HC' as (ic & _ & Hc). destruct (cv_lock _ _ _ _ _ Hc ip HB) as (Hip & Hp & _).
  unfold iunlockput. wp_call CS_iunlock; [done|done|]. intros [] s1 H1. eapply wp_mono; [apply CS_iput; [done|done|done|set_solver|done]|]. done.
Qed.

(** ** Operations that write *)

(** The outcome of an operation that changes inode [n]: the blocks are in
    order, the tree has [nd] at [n], at most [a] more blocks are logged and at
    most [b] fewer are free. *)
Record changed (L L' : gset Z) (v v' : Z -> list Z) (n : Z) (nd : option node) (a b : nat) : Prop := {
  ch_files : files_ok v';
  ch_tree : pointwise_relation Z eq (abs v') (<[n := nd]> (abs v));
  ch_log : (base.size L' <= base.size L + a)%nat;
  ch_free : (nfree x v <= nfree x v' + b)%nat }.

Lemma touches_changed L L' v v' n nd a b : files_ok v -> touches x nmeta v v' n -> (allocated v' n -> file_ok x nmeta v' n) ->
  abs v' n = nd -> (base.size L' <= base.size L + a)%nat -> (nfree x v <= nfree x v' + b)%nat -> changed L L' v v' n nd a b.
Proof. intros Hf Ht Hok E Hl Hn. split; [by eapply touches_files|by eapply touches_tree|done|done]. Qed.

Lemma abs_copy v n i : allocated v n -> copy_of x v n i -> abs v n = Some (node_of (to_dinode i) (file_data v i)).
Proof.
  intros Ha Hc. rewrite (abs_allocated _ _ _ Ha), (copy_data _ _ _ _ Hc). by rewrite (proj2 (proj2 Hc)).
Qed.

Section update.
Context (L : gset Z) (v : Z -> list Z) (id r : nat -> Z) (B : gset nat) (ip : nat) (s : fs_st).
Hypothesis HCS : CS L v id r B s.
Hypothesis Hfiles : files_ok v.
Hypothesis HB : ip ∈ B.
Hypothesis Hroom : (base.size L < NBUF)%nat.
Hypothesis Hcap : (base.size L < cap)%nat.
Let n := id ip.

(** A change of the link count or the device numbers, written through. *)
Lemma CS_update (f : inode -> inode) (g : node -> node) nd : abs v n = Some nd ->
  (forall i, i_dev (f i) = i_dev i /\ i_inum (f i) = i_inum i /\ i_ref (f i) = i_ref i /\ i_flags (f i) = i_flags i /\
    i_type (f i) = i_type i /\ i_size (f i) = i_size i /\ i_addrs (f i) = i_addrs i) ->
  (forall i, copy_of x v n i -> dinode_ok (to_dinode i) -> dinode_ok (to_dinode (f i)) /\
    forall data, node_of (to_dinode (f i)) data = g (node_of (to_dinode i) data)) ->
  wp (upd_ino ip f ;; iupdate ip) (fun _ s' => exists L' v', CS L' v' id r B s' /\ changed L L' v v' n (Some (g nd)) 1 0) s.
Proof.
  intros End Hf Hg. destruct HCS as (ic & HT & Hc). destruct (cv_lock _ _ _ _ _ Hc ip HB) as (Hip & Hp & Hv).
  destruct (cv_slot _ _ _ _ _ Hc ip Hip Hp) as (Hd & Hn & Ha & Hb & _). assert (Hcp := cinv_copy _ _ _ _ _ _ Hc HB). fold n in Ha, Hcp, Hn.
  destruct (proj1 (copy_file _ _ _ _ _ Hcp) (fs_file _ _ _ Hfiles n Ha)) as (_ & _ & Hdi).
  destruct (Hg _ Hcp Hdi) as [Hok Enode]. destruct (Hf (ic ip)) as (Ed & En & Er & Efl & Ety & Es & Ea).
  wp_call FT_upd_ino; [done|]. intros [] s1 H1. assert (Hca := cache_at_alter ic ip f).
  destruct (IBLOCK_range _ _ _ _ Hly n) as (_ & _ & Hnb & _); [destruct Ha; lia|].
  pose proof (wp_iupdate x nmeta Hly L v ∅ _ ip s1 H1) as Hu. cbv zeta in Hu. rewrite (proj1 Hca), Ed, En, Hn in Hu.
  eapply wp_mono; [apply Hu; [done|destruct Ha; lia|apply Hok|intros j; by rewrite lookup_empty|rewrite map_size_empty; lia|lia]|].
  intros [] s2 H2. set (i' := f (ic ip)) in *.
  assert (Edn := proj2 (proj2 Hcp)).
  destruct (put_inode_touches x nmeta Hly v n i') as (Ht & Hc' & Hfo & Eabs).
  { done. } { done. } { by rewrite En, Hn. } { by rewrite Ed. } { rewrite Ea, <- Edn. done. } { rewrite Es, <- Edn. done. }
  { rewrite Ety. rewrite (copy_type _ _ _ _ Hcp). apply Ha. } { done. } { by eapply FT_view. }
  eexists _, _. split; [eexists; split; [exact H2|]|].
  - eapply (cinv_at v); [done|exact Hca|done|done|done|by rewrite Er; apply (cv_ref _ _ _ _ _ Hc)|apply Hc| | |].
    + intros j Hj Hne. apply (tc_inode _ _ _ _ _ Ht); [lia|done].
    + intros _. fold n i'. split_and!; [by rewrite Ed|by rewrite En, Hn| |by rewrite Efl|].
      * destruct Ha as [Har Hat]. split; [done|]. rewrite <- (proj2 (proj2 Hc')). simpl. rewrite Ety, (copy_type _ _ _ _ Hcp). done.
      * intros _. by eapply copy_synced.
    + intros _. fold i'. split; [done|by rewrite Efl].
  - eapply touches_changed; [done|exact Ht|done| | |].
    + rewrite Eabs, Enode. do 2 f_equal. rewrite (abs_allocated _ _ _ Ha) in End. injection End as <-. by rewrite Edn.
    + pose proof (size_insert_le n L). pose proof (size_insert_le (IBLOCK n x) L). lia.
    + rewrite (put_inode_nfree x nmeta Hly); [lia|rewrite En, Hn; destruct Ha; lia|apply Hok].
Qed.
End update.

(** *** Giving back a removed file *)

Lemma nfree_mono v v' : (forall c, 0 <= c < sb_size x -> used x v' c = true -> used x v c = true) -> (nfree x v <= nfree x v')%nat.
Proof.
  intros Hu. unfold nfree. assert (Hl : forall c, c ∈ seqZ 0 (sb_size x) -> used x v' c = true -> used x v c = true)
    by (intros c Hc%elem_of_seqZ; apply Hu; lia).
  induction (seqZ 0 (sb_size x)) as [|c l IH]; [done|]. rewrite !filter_cons. specialize (IH ltac:(set_solver)).
  repeat case_decide; simpl; try lia. destruct (used x v' c) eqn:E'; [|done]. by rewrite Hl in * by (done || set_solver).
Qed.

Lemma freeable_files L v n i : files_ok v -> allocated v n -> copy_of x v n i -> (base.size L + 2 < NBUF)%nat -> (base.size L + 1 < cap)%nat ->
  freeable (cap := cap) x nmeta L v i ∅.
Proof.
  intros Hf Ha Hcp Hroom Hcap. destruct (proj1 (copy_file _ _ _ _ _ Hcp) (fs_file _ _ _ Hf n Ha)) as (Hi & _ & _).
  pose proof (size_insert_le (bm x) L). split; [done|apply Hf|by intros ? ? ?%lookup_empty_Some|..].
  - intros j. split; intros; by rewrite lookup_empty.
  - rewrite map_size_empty. lia. - lia.
Qed.

Lemma CS_reclaim (Hone : sb_size x <= BPB) L v id r B ip s : CS L v id r B s -> files_ok v -> ip ∈ B ->
  r ip = 1 -> d_nlink (disk_inode x v (id ip)) = 0 -> (base.size L + 2 < NBUF)%nat -> (base.size L + 2 < cap)%nat ->
  wp (iunlockput ip) (fun _ s' => exists L' v', CS L' v' id (<[ip := 0]> r) (B ∖ {[ip]}) s' /\ changed L L' v v' (id ip) None 2 0) s.
Proof.
  intros (ic & HT & Hc) Hf HB Hr1 Hnl Hroom Hcap. destruct (cv_lock _ _ _ _ _ Hc ip HB) as (Hip & Hp & Hv).
  destruct (cv_slot _ _ _ _ _ Hc ip Hip Hp) as (Hd & Hn & Ha & Hb & _). rewrite bool_decide_eq_true_2 in Hb by done.
  assert (Er := cv_ref _ _ _ _ _ Hc ip Hip). assert (Hcp := cinv_copy _ _ _ _ _ _ Hc HB). set (n := id ip) in *.
  unfold iunlockput. wp_call wp_iunlock; [done|lia|done|]. intros [] s1 (ic1 & H1 & Hc1).
  set (i := set_i_flags (clear_flag (i_flags (ic ip)) I_BUSY) (ic ip)) in *.
  assert (Hcpi : copy_of x v n i) by exact Hcp.
  destruct (proj1 (copy_file _ _ _ _ _ Hcpi) (fs_file _ _ _ Hf n Ha)) as (_ & _ & Hdi).
  pose proof (size_insert_le (bm x) L). pose proof (size_insert_le (IBLOCK n x) ({[bm x]} ∪ L)).
  pose proof (wp_iput_last x nmeta Hly Hone L v ∅ ic1 ip s1) as Hput. cbv zeta in Hput. rewrite (proj1 Hc1) in Hput.
  assert (Eni : i_inum i = n) by done. rewrite Eni in Hput.
  eapply wp_mono; [apply Hput; try done; rewrite ?map_size_empty; try lia|].
  - eapply freeable_files; [done|done|done|lia|lia].
  - destruct Ha; lia.
  - simpl. lia.
  - simpl. by autorewrite with flags.
  - simpl. by autorewrite with flags.
  - by rewrite (copy_nlink _ _ _ _ Hcpi).
  - intros [] s2 (L' & v' & ic2 & H2 & HL' & Hc2 & Hrel & _).
    destruct (released_touches x nmeta Hly v v' n i (reclaimed i)) as [Ht Hna]; try done.
    exists L', v'. split.
    + exists ic2. split; [done|]. eapply (cinv_at v); [done|eapply cache_at_trans; [exact Hc1|exact Hc2]|done|done| | | | | |].
      * intros j Hj. rewrite fn_lookup_insert_ne by done. set_solver.
      * by rewrite fn_lookup_insert.
      * rewrite fn_lookup_insert. lia.
      * intros j Hj Hne. apply (tc_inode _ _ _ _ _ Ht); [lia|done].
      * rewrite fn_lookup_insert. lia.
      * set_solver.
    + apply subseteq_size in HL'. eapply touches_changed; [done|done|done|unfold FsAbs.abs; by rewrite decide_False|lia|].
      rewrite Nat.add_0_r. apply nfree_mono. intros c Hcr. rewrite (rl_used _ _ _ _ _ _ Hrel) by done. tauto.
Qed.

(** *** Writing a directory *)

Lemma weight_le L i : (weight x L i <= base.size L + 2)%nat.
Proof.
  unfold weight, ind_set. destruct (addr NDIRECT i =? 0); [rewrite (union_empty_r_L L); lia|].
  pose proof (size_union_le L {[addr NDIRECT i; BBLOCK (addr NDIRECT i) x]}).
  pose proof (size_pair_le (addr NDIRECT i) (BBLOCK (addr NDIRECT i) x)). lia.
Qed.

Lemma writable_files v n i : files_ok v -> allocated v n -> copy_of x v n i -> i_type i <> T_DEV -> writable x nmeta v i ∅.
Proof.
  intros Hf Ha Hcp Hty. destruct (proj1 (copy_file _ _ _ _ _ Hcp) (fs_file _ _ _ Hf n Ha)) as (Hi & Hh & Hdi).
  split; try done; try by apply Hf. - by eapply copy_synced. - rewrite (proj1 Hcp). destruct Ha; lia.
Qed.

(** A copy of the inode of a directory is fit for reading its entries. *)
Lemma dir_copy L v n nd i : files_ok v -> abs v n = Some nd -> n_type nd = T_DIR -> (length (n_data nd) mod 16 = 0)%nat -> copy_of x v n i ->
  (base.size L < NBUF)%nat -> file_data v i = n_data nd /\ readable_dir x nmeta L v ∅ i.
Proof.
  intros Hf Hnd Hty Hmod Hcp Hroom. destruct (abs_some _ _ _ _ Hnd) as (Ha & Et & _ & Ed).
  assert (Edat : file_data v i = n_data nd) by (rewrite (copy_data _ _ _ _ Hcp); congruence). split; [done|].
  destruct (proj1 (copy_file _ _ _ _ _ Hcp) (fs_file _ _ _ Hf _ Ha)) as (Hi & Hh & Hdi).
  split; try done; [rewrite map_size_empty; lia|rewrite (copy_type _ _ _ _ Hcp); congruence|].
  pose proof (dir_length _ Hmod) as Hlen. rewrite <- Edat, length_file_data in Hlen. pose proof (proj1 Hh).
  replace (i_size i) with (16 * Z.of_nat (dir_entries (file_data v i))) by lia. zlia.
Qed.

(** The cache after a write to the locked slot [ip]. *)
Lemma cinv_wrote v v' id r B ic ic' ip i' off src : cinv v id r B ic -> ip ∈ B -> cache_at ic ic' ip i' ->
  wrote x nmeta v v' (ic ip) i' off src -> touches x nmeta v v' (id ip) -> copy_of x v' (id ip) i' -> cinv v' id r B ic'.
Proof.
  intros Hc HB Hca Hw Ht Hcp'. destruct (cv_lock _ _ _ _ _ Hc ip HB) as (Hip & Hp & Hv).
  destruct (cv_slot _ _ _ _ _ Hc ip Hip Hp) as (Hd & Hn & Ha & Hb & _). assert (Hcp := cinv_copy _ _ _ _ _ _ Hc HB).
  assert (Ei := wt_inode _ _ _ _ _ _ _ _ Hw).
  eapply (cinv_at v); [done|done|done|done|done|rewrite Ei; by apply (cv_ref _ _ _ _ _ Hc)|apply Hc| | |].
  - intros j Hj Hne. apply (tc_inode _ _ _ _ _ Ht); [lia|done].
  - intros _. split_and!; [apply Hcp'|apply Hcp'| |by rewrite Ei|intros _; by eapply copy_synced].
    destruct Ha as [Har Hat]. split; [done|]. rewrite <- (copy_type _ _ _ _ Hcp'), Ei. simpl. by rewrite (copy_type _ _ _ _ Hcp).
  - intros _. split; [done|by rewrite Ei].
Qed.

Section write.
Context (dev_read : Z -> option (nat -> Z -> M fs_st (Z * list Z))).
Context (dev_write : Z -> option (nat -> list Z -> M fs_st Z)).
Context (L : gset Z) (v : Z -> list Z) (id r : nat -> Z) (B : gset nat) (dp : nat) (nd : node) (s : fs_st).
Hypothesis HCS : CS L v id r B s.
Hypothesis Hfiles : files_ok v.
Hypothesis HB : dp ∈ B.
Hypothesis Hnd : abs v (id dp) = Some nd.
Hypothesis Hty : n_type nd = T_DIR.
Hypothesis Hmod : (length (n_data nd) mod 16 = 0)%nat.
Hypothesis Hroom : (base.size L + 9 < NBUF)%nat.
Hypothesis Hcap : (base.size L + 8 < cap)%nat.

Lemma dir_facts i : copy_of x v (id dp) i -> allocated v (id dp) /\ i_type i = T_DIR /\ file_data v i = n_data nd /\
  i_size i = 16 * Z.of_nat (dir_entries (n_data nd)) /\ readable_dir x nmeta L v ∅ i /\ writable x nmeta v i ∅.
Proof.
  intros Hcp. destruct (abs_some _ _ _ _ Hnd) as (Ha & Et & _ & _).
  destruct (dir_copy L v (id dp) nd i) as [Edat Hrd]; try done; [lia|]. assert (Hti := rd_type _ _ _ _ _ _ Hrd).
  split_and!; try done; [rewrite <- Edat; by eapply dir_size|]. eapply writable_files; [done|done|done|by rewrite Hti].
Qed.

(** An entry is overwritten. *)
Lemma CS_writei k src : (k < dir_entries (n_data nd))%nat -> length src = 16%nat -> bytes_ok src ->
  wp (writei dev_write dp src (16 * Z.of_nat k)) (fun res s' => res = 16 /\ exists L' v', CS L' v' id r B s' /\
    changed L L' v v' (id dp) (Some (set_n_data (overwrite (16 * k) src (n_data nd)) nd)) 5 2) s.
Proof.
  intros Hk Hsrc Hok. destruct HCS as (ic & HT & Hc). assert (Hcp := cinv_copy _ _ _ _ _ _ Hc HB).
  destruct (dir_facts _ Hcp) as (Ha & Hti & Edat & Hsz & Hrd & Hwb). pose proof (weight_le L (ic dp)).
  assert (Hnb : nblks (16 * Z.of_nat k) 16 = 1) by (unfold nblks; cbn [Z.leb Z.compare]; zlia).
  pose proof (proj1 (rd_holes _ _ _ _ _ _ Hrd)) as Hmx. assert (HM : MAXOFF = 71680) by done. assert (HM' : MAXBLK * 512 = 71680) by done.
  eapply wp_mono; [eapply (wp_writei x nmeta Hly dev_write L v ∅ ic dp src (16 * Z.of_nat k)); try done|];
    rewrite ?Hsrc; change (Z.of_nat 16) with 16; rewrite ?Hnb, ?map_size_empty.
  - unfold is_u32. lia.
  - unfold writei_fails. lia.
  - left. lia. - lia. - lia.
  - intros res s' (-> & L' & v' & ic' & i' & H' & Hca & Hw & Hwb' & Hs). split; [done|]. exists L', v'.
    destruct (wrote_touches x nmeta Hly v v' (id dp) (ic dp) i' _ _ Ha Hcp Hw Hwb') as (Ht & Hcp' & Hfo & Eabs).
    split; [exists ic'; split; [done|by eapply cinv_wrote]|]. eapply touches_changed; [done|done|done| |lia|].
    + rewrite Eabs. rewrite (abs_allocated _ _ _ Ha) in Hnd. injection Hnd as <-. unfold set_n_data, node_of. simpl. do 3 f_equal. lia.
    + pose proof (wt_free _ _ _ _ _ _ _ _ Hw) as Hfr. rewrite Hsrc in Hfr. change (Z.of_nat 16) with 16 in Hfr. rewrite Hnb in Hfr. lia.
Qed.

(** An entry is added. *)
Lemma CS_dirlink name inum : dir_find name (n_data nd) = None -> bytes_ok (str_take DIRSIZ name) -> 0 <= inum < 65536 -> (2 <= nfree x v)%nat ->
  Z.of_nat (dir_slot (n_data nd)) < 4480 ->
  wp (dirlink dev_read dev_write dp name inum) (fun res s' => res = 0 /\ exists L' v', CS L' v' id r B s' /\
    changed L L' v v' (id dp) (Some (set_n_data (linked (n_data nd) inum name) nd)) 5 2) s.
Proof.
  intros Hname Hok Hinum Hnf Hfull. destruct HCS as (ic & HT & Hc). assert (Hcp := cinv_copy _ _ _ _ _ _ Hc HB).
  destruct (dir_facts _ Hcp) as (Ha & Hti & Edat & Hsz & Hrd & Hwb). pose proof (weight_le L (ic dp)).
  eapply wp_mono; [eapply (wp_dirlink_free x nmeta Hly dev_read dev_write L v ∅ ic dp name inum); try done; rewrite ?Edat, ?map_size_empty; try done; lia|].
  rewrite Edat. intros res s' (-> & L' & v' & ic' & i' & H' & Hca & Ed' & Hw & Hwb' & Hs). split; [done|]. exists L', v'.
  destruct (wrote_touches x nmeta Hly v v' (id dp) (ic dp) i' _ _ Ha Hcp Hw Hwb') as (Ht & Hcp' & Hfo & Eabs).
  assert (Hnb : nblks (16 * Z.of_nat (dir_slot (n_data nd))) 16 = 1) by (unfold nblks; cbn [Z.leb Z.compare]; zlia).
  split; [exists ic'; split; [done|by eapply cinv_wrote]|]. eapply touches_changed; [done|done|done| |lia|].
  - rewrite Eabs. rewrite (abs_allocated _ _ _ Ha) in Hnd. injection Hnd as <-. unfold set_n_data, node_of, linked. simpl. do 3 f_equal. lia.
  - pose proof (wt_free _ _ _ _ _ _ _ _ Hw) as Hfr. rewrite length_mk_dirent in Hfr. change (Z.of_nat 16) with 16 in Hfr. rewrite Hnb in Hfr. lia.
Qed.
End write.

(** *** Taking references *)

Lemma cinv_gettable v id r B ic n k : cinv v id r B ic -> room (S k) r -> gettable 1 n ic.
Proof.
  intros Hc Hr. destruct (room_slot _ _ Hr) as (a & Ha & Hz). split; [by eapply cinv_icache|]. split.
  - exists a. split; [done|]. left. by rewrite (cv_ref _ _ _ _ _ Hc).
  - intros j (Hj & _). rewrite (cv_ref _ _ _ _ _ Hc) by done. pose proof (cv_max _ _ _ _ _ Hc j). lia.
Qed.

Lemma cinv_got v id r B ic ic' ip n : cinv v id r B ic -> got 1 n ic ic' ip -> allocated v n -> r ip + 1 < 2147483640 ->
  cinv v (<[ip := n]> id) (<[ip := r ip + 1]> r) B ic' /\ (ip < NINODE)%nat /\ (0 < r ip -> id ip = n).
Proof.
  intros [] (Hok & (Hip & Hpos & Hd & Hn) & Hne & Hcase) Ha Hmax. pose proof (cv_max0 ip) as Hm.
  assert (Hold : forall j, (j < NINODE)%nat -> 0 < r j -> id j = n -> j = ip).
  { intros j Hj Hp <-. destruct (cv_slot0 j Hj Hp) as (Hdj & Hnj & _). destruct Hcase as [[(_ & Hpi & Hdi & Hni) _]|(Hno & _)].
    - rewrite cv_ref0 in Hpi by done. destruct (cv_slot0 ip Hip Hpi) as (_ & E & _). apply cv_uniq0; [done|done|done|done|congruence].
    - destruct (Hno j). rewrite <- (cv_ref0 j Hj) in Hp. by split_and!. }
  assert (Hid : 0 < r ip -> id ip = n).
  { intros Hp. destruct Hcase as [[(_ & Hpi & Hdi & Hni) _]|(_ & Hz & _)]; [|rewrite cv_ref0 in Hz by done; lia].
    destruct (cv_slot0 ip Hip Hp) as (_ & E & _). congruence. }
  split; [|done]. split.
  - intros j. destruct (decide (j = ip)) as [->|]; [rewrite fn_lookup_insert; lia|by rewrite fn_lookup_insert_ne].
  - intros j Hj. destruct (decide (j = ip)) as [->|]; [|rewrite Hne, fn_lookup_insert_ne by done; auto].
    rewrite fn_lookup_insert, <- cv_ref0 by done. destruct Hcase as [[_ ->]|(_ & Hz & ->)]; simpl; lia.
  - intros j Hj. destruct (decide (j = ip)) as [->|]; [|rewrite Hne, !fn_lookup_insert_ne by done; auto].
    rewrite !fn_lookup_insert. intros _. split_and!; [done|done|done|..].
    + destruct Hcase as [[(_ & Hpi & _) ->]|(_ & Hz & ->)].
      * rewrite cv_ref0 in Hpi by done. by apply cv_slot0.
      * symmetry. apply bool_decide_eq_false. intros HB. destruct (cv_lock0 ip HB) as (_ & Hp & _). rewrite cv_ref0 in Hz by done. lia.
    + destruct Hcase as [[(_ & Hpi & _) ->]|(_ & Hz & ->)]; [|done].
      rewrite cv_ref0 in Hpi by done. intros Hv. by apply (cv_slot0 ip).
  - intros a b Hia Hib Pa Pb E. destruct (decide (a = ip)) as [->|Na], (decide (b = ip)) as [->|Nb]; rewrite ?fn_lookup_insert in *;
      rewrite ?fn_lookup_insert_ne in * by done; [done|symmetry; by apply Hold|by apply Hold|auto].
  - intros j HB. destruct (cv_lock0 j HB) as (Hj & Hp & Hv). split; [done|].
    destruct (decide (j = ip)) as [->|]; [|by rewrite Hne, fn_lookup_insert_ne].
    rewrite fn_lookup_insert. split; [lia|]. destruct Hcase as [[_ ->]|(_ & Hz & _)]; [done|]. rewrite cv_ref0 in Hz by done. lia.
Qed.

(** Only what is said of slots in use matters. *)
Lemma CS_ext L v id id' r r' B s : CS L v id r B s -> (forall j, r' j = r j) -> (forall j, (j < NINODE)%nat -> 0 < r j -> id' j = id j) ->
  CS L v id' r' B s.
Proof.
  intros (ic & HT & []) Hr Hid. exists ic. split; [done|]. split; intros; rewrite ?Hr in *; rewrite ?Hid in * by done; auto.
Qed.

Section lookup.
Context (dev_read : Z -> option (nat -> Z -> M fs_st (Z * list Z))).
Context (dev_write : Z -> option (nat -> list Z -> M fs_st Z)).

Lemma CS_dirlookup L v id r B dp nd name s k : CS L v id r B s -> files_ok v -> walkable (abs v) -> dp ∈ B -> adir (abs v) (id dp) nd ->
  (base.size L < NBUF)%nat -> room (S k) r ->
  wp (dirlookup dev_read dp name) (fun res s' =>
    match dir_find name (n_data nd) with
    | None => res = None /\ CS L v id r B s'
    | Some e => exists ip, let n := de_inum (dent (n_data nd) e) in
        res = Some (ip, 16 * Z.of_nat e) /\ CS L v (<[ip := n]> id) (<[ip := r ip + 1]> r) B s' /\ (ip < NINODE)%nat /\ (0 < r ip -> id ip = n)
    end) s.
Proof.
  intros (ic & HT & Hc) Hf Ht HB Had Hroom Hr. assert (Hcp := cinv_copy _ _ _ _ _ _ Hc HB). destruct Had as (End & Hty & Hnl).
  pose proof (wk_mod _ Ht _ _ (conj End (conj Hty Hnl))) as Hmod.
  destruct (dir_copy L v (id dp) nd (ic dp)) as [Edat Hrd]; try done.
  eapply wp_mono; [eapply (wp_dirlookup x nmeta Hly); [done|done|]|]; rewrite (proj1 (proj2 Hcp)).
  - intros j _. by eapply cinv_gettable.
  - rewrite Edat. intros res s' Hres. destruct (dir_find name (n_data nd)) as [e|] eqn:E; [|destruct Hres; split; [done|by exists ic]].
    destruct Hres as (ip & ic' & -> & H' & Hg). exists ip. cbv zeta. split; [done|].
    assert (Hal : allocated v (de_inum (dent (n_data nd) e))).
    { destruct (wk_live _ Ht (id dp) e (str_take DIRSIZ name) (de_inum (dent (n_data nd) e))) as (nc & Hnc & _).
      { exists nd. split; [done|by apply dir_find_some]. }
      by destruct (abs_some _ _ _ _ Hnc). }
    destruct (cinv_got _ _ _ _ _ _ _ _ Hc Hg Hal) as (Hc' & Hip & Hid); [destruct Hr as [Hm _]; pose proof (Hm ip); lia|].
    split; [by exists ic'|done].
Qed.

Lemma CS_read_dirent L v id r B dp nd k s : CS L v id r B s -> files_ok v -> dp ∈ B -> abs v (id dp) = Some nd -> n_type nd = T_DIR ->
  (length (n_data nd) mod 16 = 0)%nat -> (base.size L < NBUF)%nat -> (k < dir_entries (n_data nd))%nat ->
  wp (readi dev_read dp (16 * Z.of_nat k) 16) (fun res s' => res = (16, dent (n_data nd) k) /\ CS L v id r B s') s.
Proof.
  intros (ic & HT & Hc) Hf HB Hnd Hty Hmod Hroom Hk. assert (Hcp := cinv_copy _ _ _ _ _ _ Hc HB).
  destruct (dir_copy L v (id dp) nd (ic dp)) as [Edat Hrd]; try done.
  eapply wp_mono; [eapply (wp_read_dirent x nmeta Hly); [done|done|by rewrite Edat]|]. rewrite Edat.
  intros res s' [H' ->]. split; [done|]. by exists ic.
Qed.

(** A reference taken and given back. *)
Lemma CS_back L v id r B ip n s : CS L v (<[ip := n]> id) (<[ip := <[ip := r ip + 1]> r ip - 1]> (<[ip := r ip + 1]> r)) B s ->
  (0 < r ip -> id ip = n) -> CS L v id r B s.
Proof.
  intros H Hid. eapply CS_ext; [exact H|..].
  - intros j. destruct (decide (j = ip)) as [->|]; [rewrite !fn_lookup_insert; lia|by rewrite !fn_lookup_insert_ne].
  - intros j Hj. destruct (decide (j = ip)) as [->|]; [rewrite !fn_lookup_insert; intros; apply Hid; lia|by rewrite !fn_lookup_insert_ne].
Qed.

Lemma CS_dirlink_exists L v id r B dp nd name inum e s k : CS L v id r B s -> files_ok v -> walkable (abs v) -> dp ∈ B -> adir (abs v) (id dp) nd ->
  (base.size L < NBUF)%nat -> room (S k) r -> dir_find name (n_data nd) = Some e ->
  wp (dirlink dev_read dev_write dp name inum) (fun res s' => res = -1 /\ CS L v id r B s') s.
Proof.
  intros HC Hf Ht HB Had Hroom Hr Hfind. unfold dirlink. wp_call CS_dirlookup; [done|done|done|done|done|done|done|]. rewrite Hfind.
  intros res s1 (ip & -> & H1 & Hip & Hid). cbv zeta in *.
  destruct (wk_live _ Ht (id dp) e (str_take DIRSIZ name) (de_inum (dent (n_data nd) e))) as (nc & Hnc & Hl).
  { exists nd. split; [done|by apply dir_find_some]. }
  destruct (abs_some _ _ _ _ Hnc) as (_ & _ & El & _). pose proof (proj1 Hr ip) as Hm.
  wp_call CS_iput; [done|done|rewrite fn_lookup_insert; lia| |right; rewrite fn_lookup_insert; congruence|].
  { intros HBi. rewrite fn_lookup_insert. destruct HC as (ic & _ & Hc). destruct (cv_lock _ _ _ _ _ Hc ip HBi) as (_ & ? & _). lia. }
  intros [] s2 H2. apply wp_ret. split; [done|]. by eapply CS_back.
Qed.
End lookup.

(** *** A new inode *)

Lemma cinv_view v v' id r B ic : cinv v id r B ic ->
  (forall j, (j < NINODE)%nat -> 0 < r j -> disk_inode x v' (id j) = disk_inode x v (id j)) -> cinv v' id r B ic.
Proof.
  intros [] Hd. split; try done. intros j Hj Hp. destruct (cv_slot0 j Hj Hp) as (H1 & H2 & [H3 H3'] & H4 & H5).
  split_and!; [done|done|split; [done|by rewrite Hd]|done|]. intros Hv. unfold synced. rewrite H2, Hd, <- H2 by done. by apply H5.
Qed.

Lemma CS_ialloc L v id r B type t s k : CS L v id r B s -> files_ok v -> free_inode x v t -> is_s16 type -> type <> 0 ->
  (base.size L < NBUF)%nat -> (base.size L < cap)%nat -> room (S k) r ->
  wp (ialloc 1 type) (fun ip s' => exists L' v', CS L' v' (<[ip := t]> id) (<[ip := 1]> r) B s' /\
    changed L L' v v' t (Some (Node type 0 0 0 [])) 1 0 /\ (ip < NINODE)%nat /\ r ip = 0) s.
Proof.
  intros (ic & HT & Hc) Hf Ht Hty Hnz Hroom Hcap Hr.
  eapply wp_mono; [eapply (wp_ialloc x nmeta Hly); try done; [by eapply cinv_gettable|rewrite map_size_empty; lia]|].
  intros ip s' (v' & ic' & H' & Hg & Hd & Hoth & Hblk). destruct Ht as (Htr & Ht0 & _).
  destruct (fresh_touches x nmeta Hly v v' t type) as (Htc & Hfo & Eabs & Hus); try done; [apply Hf|].
  assert (Hids : forall j, (j < NINODE)%nat -> 0 < r j -> id j <> t).
  { intros j Hj Hp E. destruct (cv_slot _ _ _ _ _ Hc j Hj Hp) as (_ & _ & [_ Hn] & _). by rewrite E in Hn. }
  assert (Hal : allocated v' t) by (split; [done|by rewrite Hd]).
  destruct (cinv_got v' id r B ic ic' ip t) as (Hc' & Hip & Hid); [|done|done|destruct Hr as [Hm _]; pose proof (Hm ip); lia|].
  { eapply cinv_view; [done|]. intros j Hj Hp. destruct (cv_slot _ _ _ _ _ Hc j Hj Hp) as (_ & _ & [Hn _] & _).
    apply Hoth; [lia|by apply Hids]. }
  assert (Hz : r ip = 0).
  { pose proof (cv_max _ _ _ _ _ Hc ip). destruct (decide (0 < r ip)) as [Hp|]; [|lia]. destruct (Hids ip Hip Hp). by apply Hid. }
  rewrite Hz in Hc'. exists ({[IBLOCK t x]} ∪ L), v'. split; [by exists ic'|]. split; [|done].
  eapply touches_changed; [done|done|done|done|pose proof (size_insert_le (IBLOCK t x) L); lia|].
  rewrite Nat.add_0_r. apply nfree_mono. intros b Hb. by rewrite Hus.
Qed.

(** *** Paths *)

Lemma cinv_intro v id r ic : (forall j, 0 <= r j < 2147483640) -> icache_ok ic -> (forall j, (j < NINODE)%nat -> slot_ok x v (ic j)) ->
  (forall j, (j < NINODE)%nat -> i_ref (ic j) = r j) ->
  (forall j, (j < NINODE)%nat -> 0 < r j -> i_inum (ic j) = id j /\ allocated v (id j)) -> cinv v id r ∅ ic.
Proof.
  intros Hm Hok Hs Hr Hi.
  assert (Hslot : forall j, (j < NINODE)%nat -> 0 < r j -> i_dev (ic j) = 1 /\ i_inum (ic j) = id j /\ allocated v (id j) /\
    has (i_flags (ic j)) I_BUSY = bool_decide (j ∈ (∅ : gset nat)) /\ (has (i_flags (ic j)) I_VALID = true -> synced x v (ic j))).
  { intros j Hj Hp. destruct (Hi j Hj Hp) as [Hn Ha]. destruct (Hs j Hj) as (Hd & Hb & Hv); [by rewrite Hr|].
    rewrite bool_decide_eq_false_2 by set_solver. by split_and!. }
  split; [done|done|done| |set_solver].
  intros a b Ha Hb Pa Pb E. destruct (Hslot a Ha Pa) as (Da & Na & _), (Hslot b Hb Pb) as (Db & Nb & _).
  apply (ico_uniq _ Hok); rewrite ?Hr by done; congruence.
Qed.

Section walk.
Context (dev_read : Z -> option (nat -> Z -> M fs_st (Z * list Z))).
Context (c : option nat) {HD : AtDir c T}.
Context (L : gset Z) (v : Z -> list Z) (id r : nat -> Z).
Hypothesis Hfiles : files_ok v.
Hypothesis Htree : walkable (abs v).

(** The directory at which the walk of [path] starts. *)
Definition origin (path : list Z) (n : Z) : Prop :=
  if decide (head path = Some 47) then n = ROOTINO
  else exists ip, c = Some ip /\ (ip < NINODE)%nat /\ 0 < r ip /\ id ip = n /\ alive (abs v) n.

Lemma CS_done s : CS L v id r ∅ s -> done_with (T := T) x L v r id s.
Proof.
  intros (ic & HT & Hc). exists ic. split; [done|]. split.
  - by eapply cinv_icache.
  - intros j Hj. eapply cinv_slot_ok; [done|done|set_solver].
  - intros j Hj. rewrite (cv_ref _ _ _ _ _ Hc), decide_False by done. lia.
  - intros j Hj Hp. by apply (cv_slot _ _ _ _ _ Hc).
Qed.

Lemma done_CS s s' : CS L v id r ∅ s -> done_with (T := T) x L v r id s' -> CS L v id r ∅ s'.
Proof.
  intros (ic0 & _ & H0) (ic & HT & Hc). exists ic. split; [done|]. apply cinv_intro; [apply H0|apply Hc|apply Hc|..].
  - intros j Hj. rewrite (ci_ref _ _ _ _ _ _ Hc), decide_False by done. lia.
  - intros j Hj Hp. split; [by apply Hc|by apply (cv_slot _ _ _ _ _ H0)].
Qed.

Lemma at_CS s s' n ip k : CS L v id r ∅ s -> at_inode (T := T) x L v r id n ip s' -> allocated v n -> room (S k) r ->
  CS L v (<[ip := n]> id) (<[ip := r ip + 1]> r) ∅ s' /\ (ip < NINODE)%nat /\ (0 < r ip -> id ip = n).
Proof.
  intros (ic0 & _ & H0) (ic & HT & Hc & Hip & Hpos & Hd & Hn) Ha [Hm _]. split; [|split; [done|]].
  - exists ic. split; [done|]. apply cinv_intro; [|apply Hc|apply Hc|..].
    + intros j. pose proof (Hm j). pose proof (Hm ip). destruct (decide (j = ip)) as [->|]; [rewrite fn_lookup_insert|rewrite fn_lookup_insert_ne by done]; lia.
    + intros j Hj. rewrite (ci_ref _ _ _ _ _ _ Hc) by done.
      destruct (decide (j = ip)) as [->|]; [by rewrite fn_lookup_insert, decide_True|]. rewrite fn_lookup_insert_ne, decide_False by congruence. lia.
    + intros j Hj. destruct (decide (j = ip)) as [->|]; [by rewrite !fn_lookup_insert|]. rewrite !fn_lookup_insert_ne by done.
      intros Hp. split; [by apply Hc|by apply (cv_slot _ _ _ _ _ H0)].
  - intros Hp. rewrite <- Hn. symmetry. by apply Hc.
Qed.

Lemma origin_starts path n s : CS L v id r ∅ s -> origin path n -> starts_at path n s /\ alive (abs v) n.
Proof.
  intros (ic & (HT & Hic & _) & Hc). unfold origin, starts_at. case_decide as Hh.
  - intros ->. split; [done|]. apply Htree.
  - intros (ip & -> & Hip & Hp & <- & Hal). split; [|done]. exists ip. split.
    + pose proof (HD _ _ _ _ HT) as E. unfold cur_dir in E. unfold fs_cwd, gets. by rewrite E.
    + rewrite Hic. destruct (cv_slot _ _ _ _ _ Hc ip Hip Hp) as (Hd & Hn & _). split_and!; try done. by rewrite (cv_ref _ _ _ _ _ Hc).
Qed.

Section path.
Context (path : list Z) (n : Z) (k : nat) (s : fs_st).
Hypothesis HCS : CS L v id r ∅ s.
Hypothesis Horigin : origin path n.
Hypothesis Hpath : Forall (fun b => b <> 0) path.
Hypothesis Hroom : (base.size L < NBUF)%nat.
Hypothesis Hslots : room (S (S k)) r.

Lemma CS_namei : wp (namei dev_read path) (fun res s' =>
    match aresolve (abs v) false n (elems path) with
    | None => res = None /\ CS L v id r ∅ s'
    | Some n' => exists ip, res = Some ip /\ CS L v (<[ip := n']> id) (<[ip := r ip + 1]> r) ∅ s' /\
        (ip < NINODE)%nat /\ (0 < r ip -> id ip = n')
    end) s.
Proof.
  destruct (origin_starts path n s HCS Horigin) as [Hst Hal]. assert (Hl := proj1 (alive_live _ _ _ Hal)).
  pose proof (resolve_abs x v Htree false (elems path) n Hal) as Eres.
  assert (Hto : tree_ok x nmeta v) by (by apply walkable_ok). assert (Hry := room_roomy _ _ Hslots).
  unfold namei. wp_call (wp_namex x nmeta Hly dev_read L v r id Hto Hroom Hry); [by apply CS_done|done|done|by rewrite length_replicate|done|].
  intros res s' Hw. apply wp_ret. unfold walked in Hw. rewrite Eres in Hw. destruct (aresolve _ _ _ _) as [n'|] eqn:E.
  - destruct Hw as (ip & E1 & Hat & _). exists ip. split; [done|]. eapply at_CS; [done|done| |done]. by eapply alive_live, aresolve_alive.
  - destruct Hw as [E1 Hd]. split; [done|]. by eapply done_CS.
Qed.

Lemma CS_nameiparent name : length name = DIRSIZ -> wp (nameiparent dev_read path name) (fun res s' =>
    match aresolve (abs v) true n (elems path) with
    | None => fst res = None /\ CS L v id r ∅ s'
    | Some n' => exists ip e, fst res = Some ip /\ last (elems path) = Some e /\ str_take DIRSIZ (snd res) = str_take DIRSIZ e /\
        CS L v (<[ip := n']> id) (<[ip := r ip + 1]> r) ∅ s' /\ (ip < NINODE)%nat /\ (0 < r ip -> id ip = n')
    end) s.
Proof.
  intros Hn. destruct (origin_starts path n s HCS Horigin) as [Hst Hal]. assert (Hl := proj1 (alive_live _ _ _ Hal)).
  pose proof (resolve_abs x v Htree true (elems path) n Hal) as Eres.
  assert (Hto : tree_ok x nmeta v) by (by apply walkable_ok). assert (Hry := room_roomy _ _ Hslots).
  unfold nameiparent. eapply wp_mono; [by eapply (wp_namex x nmeta Hly dev_read L v r id Hto Hroom Hry); [apply CS_done|..]|].
  intros res s' Hw. unfold walked in Hw. rewrite Eres in Hw. destruct (aresolve _ _ _ _) as [n'|] eqn:E.
  - destruct Hw as (ip & E1 & Hat & He). destruct (He eq_refl) as (e & Hlast & Hname). exists ip, e. split_and!; [done|done|done|..].
    all: eapply at_CS; [done|done|by eapply alive_live, aresolve_alive|done].
  - destruct Hw as [E1 Hd]. split; [done|]. by eapply done_CS.
Qed.
End path.
End walk.
End ops.
