(* ===== verification/FsDemo.v ===== *)
(** * A small disk

    The disk that mkfs makes (1000 blocks, 30 of them for the log, 200
    inodes) with a root directory that holds one file of five bytes.  The
    hypotheses of the file system theorems hold of it. *)

From S2P Require Import Prelude Params CString Spinlock Sched Ring Bio Log Crash Logop Txn Fs FsBlocks FsFile FsData FsInode FsIcache FsDir FsPath FsTree FsAbs.

Definition demo_sb : superblock := Superblock 1000 941 200 30 2 32 58.
Definition demo_root : dinode := Dinode T_DIR 0 0 1 48 (59 :: replicate 12 0).
Definition demo_hello : dinode := Dinode T_FILE 0 0 1 5 (60 :: replicate 12 0).

Definition demo_sb_block : list Z := put_words 0 [1000; 941; 200; 30; 2; 32; 58] zeros.
Definition demo_inodes : list Z := encode_dinode 64 demo_root (encode_dinode 128 demo_hello zeros).
Definition demo_bitmap : list Z := replicate 7 255 ++ [31] ++ replicate 504 0.
Definition demo_name (l : list Z) : list Z := l ++ replicate (14 - length l) 0.
Definition demo_dir : list Z :=
  mk_dirent 1 (demo_name [46]) ++ mk_dirent 1 (demo_name [46; 46]) ++ mk_dirent 2 (demo_name [97]) ++ replicate 464 0.
Definition demo_text : list Z := [104; 101; 108; 108; 111] ++ replicate 507 0.

Definition demo_fs (n : Z) : list Z :=
  if n =? 1 then demo_sb_block else if n =? 32 then demo_inodes
  else if n =? 58 then demo_bitmap else if n =? 59 then demo_dir
  else if n =? 60 then demo_text else zeros.

Definition block_okb (d : list Z) : bool :=
  Nat.eqb (length d) BSIZE && forallb (fun b => (0 <=? b) && (b <? 256)) d.
Lemma block_okb_ok d : block_okb d = true -> block_ok d.
Proof.
  intros [Hl%Nat.eqb_eq Hb]%andb_true_iff. split; [done|]. apply Forall_forall. intros b Hbd.
  assert (H := proj1 (forallb_forall _ _) Hb b (proj1 (list_elem_of_In _ _) Hbd)). simpl in H. unfold is_u8. lia.
Qed.

Lemma demo_blocks n : block_ok (demo_fs n).
Proof.
  unfold demo_fs. repeat match goal with |- context [if ?c then _ else _] => destruct c end;
    apply block_okb_ok; vm_compute; reflexivity.
Qed.

Lemma demo_layout : layout 1000 (home 1000 mkfs_log) demo_sb 59.
Proof.
  split; try (vm_compute; done); try (split; vm_compute; done); simpl; try (unfold IPB, BPB; zlia).
  intros n Hn. unfold home. simpl. lia.
Qed.

Lemma demo_meta : meta_ok demo_sb 59 demo_fs.
Proof.
  split; [vm_compute; reflexivity|]. intros b Hb.
  apply (forall_range (used demo_sb demo_fs) 0 59); [vm_compute; reflexivity|lia].
Qed.

(** A file whose only block is the first direct one. *)
Lemma one_block_ok v i a : i_dev i = 1 -> i_addrs i = a :: replicate 12 0 -> a <> 0 ->
  data_block demo_sb 59 v a -> ino_ok demo_sb 59 v i.
Proof.
  intros Hd Ha Hnz Hdat.
  assert (H12 : addr NDIRECT i = 0) by (unfold addr; by rewrite Ha).
  assert (Hb : forall k, 0 <= k < MAXBLK -> blk v i k = if decide (k = 0) then a else 0).
  { intros k Hk. unfold blk. rewrite H12. destruct (Z.ltb_spec k 12); [|case_decide; [lia|done]].
    unfold addr. rewrite Ha. case_decide as E; [by rewrite E|].
    destruct (Z.to_nat k) as [|m] eqn:Em; [lia|]. cbn [lookup list_lookup].
    change (default 0 (replicate 12 0 !! m) = 0). by rewrite lookup_replicate_2 by lia. }
  split; try done.
  - by rewrite Ha.
  - intros k Hk. rewrite Hb by done. by case_decide.
  - intros j k Hj Hk. rewrite !Hb by done. repeat case_decide; congruence || lia.
Qed.

Lemma one_block_owns v i a c : i_addrs i = a :: replicate 12 0 -> owns v i c -> c = a.
Proof.
  intros Ha [Hc Ho]. assert (H12 : addr NDIRECT i = 0) by (unfold addr; by rewrite Ha). destruct Ho as [->|(k & Hk & ->)]; [done|].
  unfold blk in *. rewrite H12 in *. destruct (Z.ltb_spec k 12); [|done]. unfold addr in *. rewrite Ha in *.
  destruct (Z.to_nat k) as [|m] eqn:Em; [done|]. exfalso. apply Hc. change (default 0 (replicate 12 0 !! m) = 0). by rewrite lookup_replicate_2 by lia.
Qed.

Lemma one_block_full v i a : i_addrs i = a :: replicate 12 0 -> a <> 0 -> 0 <= i_size i <= 512 -> no_holes v i.
Proof.
  intros Ha Hnz Hs. split; [assert (MAXBLK * 512 = 71680) by done; lia|]. intros k Hk Hks.
  assert (k = 0) as -> by lia. unfold blk, addr. simpl. by rewrite Ha.
Qed.

Lemma demo_data59 : data_block demo_sb 59 demo_fs 59.
Proof. split; [simpl; lia|vm_compute; reflexivity]. Qed.
Lemma demo_data60 : data_block demo_sb 59 demo_fs 60.
Proof. split; [simpl; lia|vm_compute; reflexivity]. Qed.

Lemma demo_live n : live demo_sb demo_fs n <-> n = 1 \/ n = 2.
Proof.
  split.
  - intros ([Hn1 Hn2] & Ht & _). simpl in Hn2.
    assert (H := forall_range (fun n => (d_type (disk_inode demo_sb demo_fs n) =? 0) || (n =? 1) || (n =? 2)) 0 200
      ltac:(vm_compute; reflexivity) n ltac:(lia)). simpl in H.
    apply orb_true_iff in H as [[H|H]%orb_true_iff|H]; apply Z.eqb_eq in H; tauto.
  - intros [->| ->]; (split; [simpl; lia|]); vm_compute; done.
Qed.

(** The two files, and nothing else. *)
Lemma demo_file_of n : n = 1 \/ n = 2 -> let i := disk_file demo_sb demo_fs n in let a := 58 + n in
  i_addrs i = a :: replicate 12 0 /\ data_block demo_sb 59 demo_fs a /\ 0 <= i_size i <= 512.
Proof. intros [->| ->]; (split; [vm_compute; reflexivity|]); (split; [first [apply demo_data59|apply demo_data60]|]); split; vm_compute; done. Qed.

Lemma demo_files : files_ok demo_sb 59 demo_fs.
Proof.
  assert (Hall : forall n, allocated demo_sb demo_fs n -> n = 1 \/ n = 2).
  { intros n [Hn Ht]. assert (H := forall_range (fun n => (d_type (disk_inode demo_sb demo_fs n) =? 0) || (n =? 1) || (n =? 2)) 0 200
      ltac:(vm_compute; reflexivity) n ltac:(simpl in Hn; lia)). cbv beta in H. lia. }
  split; [apply demo_meta|by vm_compute|..].
  - intros n Ha%Hall. destruct (demo_file_of n Ha) as (E & Hd & Hs). split.
    + apply (one_block_ok _ _ (58 + n)); [done|done|lia|done].
    + apply (one_block_full _ _ (58 + n)); [done|lia|done].
    + apply decode_dinode_ok, demo_blocks.
  - intros n m c [Hn%Hall Hc] [Hm%Hall Hc']. destruct (demo_file_of n Hn) as (E & _), (demo_file_of m Hm) as (E' & _).
    apply (one_block_owns _ _ (58 + n)) in Hc; [|done]. apply (one_block_owns _ _ (58 + m)) in Hc'; [|done]. lia.
Qed.

(** The names in the root directory. *)
Definition demo_entries : list (Z * list Z) := [(1, DOT); (1, DOTDOT); (2, [97])].

Lemma demo_inv : fs_inv demo_sb 59 demo_fs.
Proof.
  split; [apply demo_files|]. set (rd := node_of demo_root (take 48 demo_dir)).
  assert (E1 : abs demo_sb demo_fs 1 = Some rd) by (vm_compute; reflexivity).
  assert (Hall : forall n nd, abs demo_sb demo_fs n = Some nd -> n = 1 \/ n = 2).
  { intros n nd (Ha & _ & El & _)%abs_some. apply demo_live. destruct Ha as [Hr Ht]. split; [lia|]. split; [done|]. intros Hz.
    assert (H := forall_range (fun n => (d_type (disk_inode demo_sb demo_fs n) =? 0) || negb (d_nlink (disk_inode demo_sb demo_fs n) =? 0)) 0 200
      ltac:(vm_compute; reflexivity) n ltac:(simpl in Hr; lia)). cbv beta in H. lia. }
  apply (flat_tree_inv _ rd demo_entries).
  - intros n nd [->| ->]%Hall; lia.
  - split; [exact E1|]. split; vm_compute; done.
  - vm_compute. reflexivity.
  - vm_compute. reflexivity.
  - intros k e c. unfold ent. change (dir_entries (n_data rd)) with 3%nat.
    destruct k as [|[|[|k]]]; [..|split; [lia|done]]; (split; [intros (_ & <- & _ & <-)|intros [= <- <-]]; [vm_compute; reflexivity|split_and!; [lia|vm_compute; done..]]).
  - done.
  - done.
  - apply (bool_decide_unpack _). by vm_compute.
  - intros k c e Hk H2. destruct k as [|[|[|k]]]; [lia|lia| |done]. injection Hk as <- _. split; [done|]. eexists. vm_compute. reflexivity.
  - intros n nd E Hn. destruct (Hall n nd E) as [->| ->]; [destruct Hn; reflexivity|]. assert (E2 : abs demo_sb demo_fs 2 = Some (node_of demo_hello [104; 101; 108; 108; 111])) by (vm_compute; reflexivity).
    rewrite E2 in E. injection E as <-. clear E2. split; [reflexivity|]. split; [discriminate|]. exists 2%nat, [97]. split; [lia|]. split; [done|].
    intros [|[|[|k]]] e'; [done|done|done|done].
Qed.

Lemma demo_tree : tree_ok demo_sb 59 demo_fs.
Proof. destruct demo_inv as [Hf Ht]. apply walkable_ok; [done|by apply tree_walkable]. Qed.

(** A machine between two calls. *)
Lemma demo_resting : exists l, resting 1000 mkfs_log None demo_fs l /\ disk (lbio l) = demo_fs /\ wtrace (lbio l) = [].
Proof.
  assert (H := wp_boot demo_fs 1000 mkfs_log ltac:(lia) demo_blocks). apply wp_result in H as ([] & l & _ & H). exists l.
  split; [|split; [apply (ls_disk _ _ _ _ _ _ _ _ _ H)|apply (ls_trace _ _ _ _ _ _ _ _ _ H)]].
  exists true, boot_sched, mkfs_log, demo_fs, []. split; [done|]. split; [done|].
  split; [split; try done; try (simpl; unfold LOGSIZE; lia); [constructor|]; by intros b Hb%elem_of_nil|].
  do 4 (split; [done|]). apply demo_reads.
Qed.

(** A machine inside a transaction, with any inode cache. *)
Lemma demo_state ic : exists s, FT (T := txn 1000 mkfs_log None demo_fs []) ∅ demo_fs ∅ ic demo_sb s.
Proof.
  destruct demo_resting as (l & Hl & Ed & Et). assert (H := wp_begin_txn _ _ _ _ _ Hl). rewrite Ed, Et in H. apply wp_result in H as ([] & s & _ & H).
  exists (FsSt s ic demo_sb). by split_and!.
Qed.

#[export] Instance demo_store : TxnStore 1000 29 (home 1000 mkfs_log) (txn 1000 mkfs_log None demo_fs []) (txn_locked 1000 mkfs_log None demo_fs []).
Proof. apply (txn_store 1000 mkfs_log None demo_fs []). vm_compute. discriminate. Qed.
