(* ===== verification/FsProps.v ===== *)
(** * What the file system promises

    The properties of fs.c, over any implementation of [TxnStore], each with
    an instance on the disk of [FsDemo] and the log of log.c. *)

From S2P Require Import Prelude Params CString Spinlock Sched Ring Bio Log Crash Logop Txn Fs FsBlocks FsFile FsData FsInode FsIcache FsDir FsIalloc FsPath FsDemo.

(** A cache whose slot 0 holds [i], all others free. *)
Definition only (i : inode) (j : nat) : inode :=
  if Nat.eqb j 0 then i else Inode 0 0 0 0 0 0 0 0 0 [].

Lemma only_ok i : 0 <= i_ref i < 2147483647 -> icache_ok (only i).
Proof.
  intros Hr. split.
  - intros [|j] _; [done|]. simpl. lia.
  - intros [|a] [|b] _ _ Ha Hb; simpl in *; done || lia.
Qed.

Lemma only_gettable i dev n : 0 <= i_ref i < 2147483646 -> gettable dev n (only i).
Proof.
  intros Hr. split; [apply only_ok; lia|]. split.
  - exists 1%nat. split; [unfold NINODE; lia|by left].
  - intros [|j] (_ & Hp & _); unfold only in *; simpl in *; lia.
Qed.

(** The file of five bytes and the root directory, locked. *)
Definition demo_file : inode := Inode 1 2 1 3 T_FILE 0 0 1 5 (60 :: replicate 12 0).
Definition demo_dir_inode : inode := Inode 1 1 1 3 T_DIR 0 0 1 48 (59 :: replicate 12 0).
Definition no_read : Z -> option (nat -> Z -> M fs_st (Z * list Z)) := fun _ => None.
Definition no_write : Z -> option (nat -> list Z -> M fs_st Z) := fun _ => None.

Lemma held_safe_empty x v : held_safe x v ∅.
Proof. by intros ? ? ?%lookup_empty_Some. Qed.
Lemma file_free_empty v i : file_free v i ∅.
Proof. intros j. split; intros; by rewrite lookup_empty. Qed.
#[export] Hint Resolve held_safe_empty file_free_empty : fs.

Lemma dinode_ok_one d a : d_addrs d = a :: replicate 12 0 -> is_u32 a -> is_s16 (d_type d) ->
  is_s16 (d_major d) -> is_s16 (d_minor d) -> is_s16 (d_nlink d) -> is_u32 (d_size d) -> dinode_ok d.
Proof. intros Ha Hu. split; try done; rewrite Ha; [done|]. constructor; [done|]. by apply Forall_replicate. Qed.

Lemma demo_file_ok : writable demo_sb 59 demo_fs demo_file ∅.
Proof.
  split; auto with fs.
  - by apply (one_block_ok _ _ 60), demo_data60.
  - apply demo_meta.
  - apply (one_block_full _ _ 60); [done|done|]. simpl. lia.
  - vm_compute. reflexivity.
  - eapply dinode_ok_one; [done|unfold is_u32; lia|..]; by vm_compute.
  - simpl. lia.
Qed.

Lemma demo_dir_ok : writable demo_sb 59 demo_fs demo_dir_inode ∅.
Proof.
  split; auto with fs.
  - by apply (one_block_ok _ _ 59), demo_data59.
  - apply demo_meta.
  - apply (one_block_full _ _ 59); [done|done|]. simpl. lia.
  - vm_compute. reflexivity.
  - eapply dinode_ok_one; [done|unfold is_u32; lia|..]; by vm_compute.
  - simpl. lia.
Qed.

Lemma demo_dir_readable : readable_dir demo_sb 59 ∅ demo_fs ∅ demo_dir_inode.
Proof.
  assert (H := demo_dir_ok). destruct H. split; auto with fs. vm_compute. lia.
Qed.

(** [n] bytes stored at [off] are read back from [off]. *)
Lemma slice_overwrite off (src l : list Z) : (off <= length l)%nat -> slice off (length src) (overwrite off src l) = src.
Proof.
  intros Ho. unfold slice, overwrite. rewrite drop_app_length' by (rewrite length_take; lia). by rewrite take_app_length.
Qed.

Section props.
Context {dsz : Z} {cap : nat} {wr : Z -> Prop} {T TL} {TS : TxnStore dsz cap wr T TL}.
Context (x : superblock) (nmeta : Z).
Hypothesis Hly : layout dsz wr x nmeta.
Notation FT := (FT (T := T)).
Context (dev_read : Z -> option (nat -> Z -> M fs_st (Z * list Z))).
Context (dev_write : Z -> option (nat -> list Z -> M fs_st Z)).

(** [writei] stores the bytes [src] at [off] in the file and nowhere else:
    it returns their number, the contents are the old ones overwritten (and
    extended) by [src], the disk inode is up to date, and the blocks and the
    inodes of every other file are unchanged. *)
Theorem writei_correct L v H ic ip src off s :
  FT L v H ic x s -> let i := ic ip in let n := Z.of_nat (length src) in
  writable x nmeta v i H -> bytes_ok src -> is_u32 off -> writei_fails i off n = false ->
  let nb := Z.to_nat (nblks off n) in
  off + n <= i_size i \/ (2 * nb <= nfree x v)%nat ->
  (weight x L i + 2 * nb + base.size H + 5 < NBUF)%nat -> (weight x L i + 2 * nb + 4 < cap)%nat ->
  wp (writei dev_write ip src off) (fun r s' => r = n /\ exists L' v' ic' i',
    FT L' v' H ic' x s' /\ cache_at ic ic' ip i' /\ wrote x nmeta v v' i i' off src /\ writable x nmeta v' i' H) s.
Proof.
  intros HT i n Hwb Hsrc Ho Hf nb Hnf H1 H2. eapply wp_mono; [by eapply (wp_writei x nmeta Hly)|].
  intros r s' (-> & L' & v' & ic' & i' & H' & Hc & Hw & Hwb' & _). split; [done|]. by exists L', v', ic', i'.
Qed.

(** [writei] refuses, without any change, a write that starts beyond the
    end of the file, whose end wraps around 32 bits, or that would make the
    file larger than MAXFILE blocks. *)
Theorem writei_error L v H ic ip src off s :
  FT L v H ic x s -> let i := ic ip in let n := Z.of_nat (length src) in
  i_type i <> T_DEV -> is_u32 off -> is_u32 n -> writei_fails i off n = true ->
  wp (writei dev_write ip src off) (fun r s' => r = -1 /\ s' = s) s.
Proof. apply writei_refuses. Qed.

(** C28 [readi] returns the bytes of the file from [off] on, cut at the end of
    the file, and changes nothing; it fails where [off] is beyond the end or
    [off + n] wraps around 32 bits. *)
Theorem readi_correct L v H ic ip off n s :
  FT L v H ic x s -> let i := ic ip in
  ino_ok x nmeta v i -> file_free v i H -> (base.size L + base.size H < NBUF)%nat -> no_holes v i ->
  i_type i <> T_DEV -> is_u32 off -> is_u32 n ->
  wp (readi dev_read ip off n) (fun r s' => FT L v H ic x s' /\
    r = if (i_size i <? off) || (4294967296 <=? off + n) then (-1, [])
        else let k := Z.min n (i_size i - off) in (k, slice (Z.to_nat off) (Z.to_nat k) (file_data v i))) s.
Proof. apply (wp_readi x nmeta Hly). Qed.

(** C27 What [writei] wrote, [readi] reads back. *)
Theorem write_then_read L v H ic ip src off s :
  FT L v H ic x s -> let i := ic ip in let n := Z.of_nat (length src) in
  writable x nmeta v i H -> bytes_ok src -> is_u32 off -> writei_fails i off n = false ->
  let nb := Z.to_nat (nblks off n) in
  off + n <= i_size i \/ (2 * nb <= nfree x v)%nat ->
  (weight x L i + 2 * nb + base.size H + 5 < NBUF)%nat -> (weight x L i + 2 * nb + 4 < cap)%nat ->
  wp (k ← writei dev_write ip src off; readi dev_read ip off k) (fun r s' => r = (n, src)) s.
Proof.
  intros HT i n Hwb Hsrc Ho Hf nb Hnf H1 H2. wp_call (wp_writei x nmeta Hly); [done|done|done|done|done|done|done|done|].
  intros r s1 (-> & L' & v' & ic' & i' & HT' & [Ec _] & Hw & Hwb' & Hs). fold i in Hw, Hs. fold n in Hs. fold nb in Hs.
  pose proof (weight_size x L i). unfold writei_fails in Hf. fold i in Hf. unfold is_u32 in *.
  assert (HM : MAXOFF = 71680) by done.
  eapply wp_mono; [eapply (wp_readi x nmeta Hly); try done; rewrite ?Ec; try apply Hw; try apply Hwb'|].
  - lia. - unfold is_u32. lia.
  - intros [k l] s2 [_ E]. rewrite Ec in E. fold n in E. assert (Ei : i_size i' = Z.max (i_size i) (off + n))
      by (by rewrite (wt_inode _ _ _ _ _ _ _ _ Hw)).
    replace ((i_size i' <? off) || (4294967296 <=? off + n)) with false in E by lia. cbv zeta in E.
    replace (Z.min n (i_size i' - off)) with n in E by lia. rewrite E.
    rewrite (wt_data _ _ _ _ _ _ _ _ Hw). assert (En : Z.to_nat n = length src) by (unfold n; lia).
    rewrite En. f_equal. apply slice_overwrite.
    rewrite length_file_data. fold i. lia.
Qed.

(** [balloc] returns the first free block: afterwards it is in use and
    zeroed, every other block keeps its contents (the bitmap apart) and its
    allocation state; with no free block it stops the machine. *)
Theorem balloc_correct L v H ic s :
  FT L v H ic x s -> meta_ok x nmeta v -> held_safe x v H ->
  (base.size L + base.size H + 1 < NBUF)%nat -> (base.size L + 1 < cap)%nat ->
  (forall t, first_free x v t -> wp (balloc 1) (fun r s' => r = t /\ exists L' v', FT L' v' H ic x s' /\
     v' t = zeros /\ (forall c, 0 <= c < sb_size x -> used x v' c = (c =? t) || used x v c) /\
     (forall n, n <> t -> ~ is_bitmap x n -> v' n = v n)) s) /\
  ((forall c, 0 <= c < sb_size x -> used x v c = true) -> panics "balloc: out of blocks" (balloc 1) s).
Proof.
  intros HT Hm Hh Hr Hc. split.
  - intros t Hff. assert (Ht := proj1 Hff).
    assert (Hb : block_ok (v (BBLOCK t x))) by (by eapply (bitmap_ok x nmeta Hly)).
    eapply wp_mono; [by eapply (wp_balloc x nmeta Hly)|]. intros r s' [-> H']. split; [done|].
    exists ({[t]} ∪ ({[BBLOCK t x]} ∪ L)), (alloc_view x v t). split; [done|]. split; [apply fn_lookup_insert|]. split.
    + intros c Hcr. by apply (alloc_view_used _ _ Hly).
    + intros n Hn Hnb. by apply (alloc_view_other _ _ Hly).
  - intros Hfull. unfold balloc. eapply panics_bind; [by eapply FT_sb|]. intros ? ? [-> ->].
    eapply (balloc_loop_full x nmeta Hly); try done. lia.
Qed.

(** [bfree] marks exactly its block free, and stops the machine when the
    block is free already. *)
Theorem bfree_correct L v H ic b s :
  FT L v H ic x s -> meta_ok x nmeta v -> held_safe x v H -> 0 <= b < sb_size x ->
  (base.size L + base.size H < NBUF)%nat -> (base.size L < cap)%nat ->
  if used x v b then
    wp (bfree 1 b) (fun _ s' => exists v', FT ({[BBLOCK b x]} ∪ L) v' H ic x s' /\
      (forall c, 0 <= c < sb_size x -> used x v' c = negb (c =? b) && used x v c) /\
      (forall n, ~ is_bitmap x n -> v' n = v n)) s
  else panics "freeing free block" (bfree 1 b) s.
Proof.
  intros HT Hm Hh Hb Hr Hc. destruct (used x v b) eqn:Eu; [|by eapply (bfree_free x nmeta Hly)].
  assert (Hok : block_ok (v (BBLOCK b x))) by (by eapply (bitmap_ok x nmeta Hly)).
  eapply wp_mono; [by eapply (wp_bfree x nmeta Hly)|]. intros [] s' H'. exists (unmark x v b). split; [done|]. split.
  - intros c Hcr. by apply (used_unmark _ _ _ _ Hly).
  - intros n Hn. by eapply (unmark_other _ _ _ _ Hly).
Qed.

(** At most one cache slot stands for an inode: [iget] returns the slot
    that has it, with one more reference, or else a free slot, and the cache
    keeps that invariant. *)
Theorem iget_unique L v H dev inum ic s :
  FT L v H ic x s -> icache_ok ic ->
  (exists i, (i < NINODE)%nat /\ (i_ref (ic i) = 0 \/ cached ic dev inum i)) ->
  (forall i, cached ic dev inum i -> i_ref (ic i) < 2147483646) ->
  wp (iget dev inum) (fun ip s' => exists ic', FT L v H ic' x s' /\ icache_ok ic' /\
    cached ic' dev inum ip /\ (forall j, j <> ip -> ic' j = ic j) /\
    (cached ic dev inum ip /\ ic' ip = set_i_ref (i_ref (ic ip) + 1) (ic ip) \/
     (forall j, ~ cached ic dev inum j) /\ i_ref (ic ip) = 0 /\ ic' ip = new_entry dev inum (ic ip))) s.
Proof. apply wp_iget. Qed.

(** The last [iput] of an unlinked file gives back the file: exactly its
    blocks (data and indirect) become free, its disk inode gets type 0, and
    no other block or inode changes. *)
Theorem iput_reclaims L v H ic ip s :
  sb_size x <= BPB ->
  let i := ic ip in let n := IBLOCK (i_inum i) x in
  FT L v H ic x s -> freeable (cap := cap) x nmeta L v i H -> 0 <= i_inum i < sb_ninodes x -> dinode_ok (to_dinode i) ->
  (forall j, H !! j <> Some n) ->
  (base.size ({[n]} ∪ ({[bm x]} ∪ L)) + base.size H < NBUF)%nat -> (base.size ({[n]} ∪ ({[bm x]} ∪ L)) < cap)%nat ->
  i_ref i = 1 -> has (i_flags i) I_VALID = true -> has (i_flags i) I_BUSY = false -> i_nlink i = 0 ->
  wp (iput ip) (fun _ s' => exists L' v' ic', FT L' v' H ic' x s' /\
    cache_at ic ic' ip (reclaimed i) /\ released x nmeta v v' i (reclaimed i)) s.
Proof.
  intros Hone i n HT Hfb Hn Hd Hh Hr Hc Hr1 Hv Hb Hl. eapply wp_mono; [by eapply (wp_iput_last x nmeta Hly Hone)|].
  intros [] s' (L' & v' & ic' & H' & _ & Hc' & Hrel & _). by exists L', v', ic'.
Qed.

(** [ialloc] takes the first inode of type 0, clears it on disk, gives it
    its type and returns a reference to it; without a free inode it stops
    the machine. *)
Theorem ialloc_correct L v H ic type s :
  FT L v H ic x s -> is_s16 type ->
  (forall j, 0 <= j < sb_ninodes x -> forall h, H !! h <> Some (IBLOCK j x)) ->
  (base.size L + base.size H < NBUF)%nat -> (base.size L < cap)%nat ->
  (forall t, free_inode x v t -> gettable 1 t ic -> wp (ialloc 1 type) (fun ip s' => exists v' ic',
    FT ({[IBLOCK t x]} ∪ L) v' H ic' x s' /\ got 1 t ic ic' ip /\
    disk_inode x v' t = fresh_dinode type /\
    (forall j, 0 <= j < sb_ninodes x -> j <> t -> disk_inode x v' j = disk_inode x v j) /\
    (forall n, n <> IBLOCK t x -> v' n = v n)) s) /\
  ((forall j, 1 <= j < sb_ninodes x -> d_type (disk_inode x v j) <> 0) ->
    panics "ialloc: no inodes" (ialloc 1 type) s).
Proof.
  intros HT Hty Hh Hr Hc. split.
  - intros t Hf Hg. by eapply (wp_ialloc x nmeta Hly).
  - intros Hf. by eapply (ialloc_full x nmeta Hly).
Qed.

(** A directory that was linked into can be searched again. *)
Lemma linked_readable L L' v v' H i i' inum name :
  readable_dir x nmeta L v H i -> writable x nmeta v' i' H ->
  wrote x nmeta v v' i i' (16 * Z.of_nat (dir_slot (file_data v i))) (mk_dirent inum (strncpy_l name DIRSIZ)) ->
  (base.size L' + base.size H < NBUF)%nat -> readable_dir x nmeta L' v' H i'.
Proof.
  intros Hrd Hwb Hw Hr. assert (Hsz := Hrd). eapply dir_size in Hsz. destruct Hwb, Hrd.
  assert (Ei := wt_inode _ _ _ _ _ _ _ _ Hw). rewrite length_mk_dirent in Ei. split; try done.
  - by rewrite Ei.
  - assert (Es : i_size i' = Z.max (i_size i) (16 * Z.of_nat (dir_slot (file_data v i)) + Z.of_nat 16)) by (by rewrite Ei).
    rewrite Es, Hsz. zlia.
Qed.

(** A name that [dirlink] entered is found by [dirlookup], at the entry
    that was filled and with its inode, and every other name is looked up as
    before. *)
Theorem dirlink_then_dirlookup L v H ic dp name inum s :
  FT L v H ic x s -> let i := ic dp in let d := file_data v i in
  readable_dir x nmeta L v H i -> writable x nmeta v i H -> dir_find name d = None -> bytes_ok name ->
  0 < inum < 65536 -> Z.of_nat (dir_slot d) < 4480 -> (2 <= nfree x v)%nat ->
  (weight x L i + base.size H + 7 < NBUF)%nat -> (weight x L i + 6 < cap)%nat -> gettable (i_dev i) inum ic ->
  wp (r ← dirlink dev_read dev_write dp name inum; e ← dirlookup dev_read dp name; mret (r, e))
    (fun res s' => exists ip L' v' ic1 ic', res = (0, Some (ip, 16 * Z.of_nat (dir_slot d))) /\
      FT L' v' H ic' x s' /\ got (i_dev i) inum ic1 ic' ip /\
      forall name', str_take DIRSIZ name' <> str_take DIRSIZ name ->
        dir_find name' (file_data v' (ic1 dp)) = dir_find name' d /\
        forall k, dir_find name' d = Some k -> dent (file_data v' (ic1 dp)) k = dent d k) s.
Proof.
  intros HT i d Hrd Hwb Hfind Hname Hinum Hfull Hnf Hw1 Hw2 (Hok & Hslot & Hmax).
  wp_call (wp_dirlink_free x nmeta Hly dev_read dev_write); [done|done|done|done|by apply str_take_ok|lia|done|done|done|done|].
  fold i d. intros r s1 (-> & L1 & v1 & ic1 & i1 & H1 & Hc1 & Hd1 & Hw & Hwb1 & Hs1).
  assert (Hdm : (length d mod 16 = 0)%nat).
  { assert (Hsz := Hrd). eapply dir_size in Hsz. unfold d. rewrite length_file_data, Hsz. fold i d. rewrite Z2Nat.inj_mul, Nat2Z.id by lia.
    change (Z.to_nat 16) with 16%nat. rewrite Nat.mul_comm. by apply Nat.mod_mul. }
  destruct (linked_find d inum name Hdm Hinum Hfind) as [Hf1 Hi1].
  assert (Hrd1 : readable_dir x nmeta L1 v1 H i1) by (eapply linked_readable; try done; lia).
  assert (Ei := wt_inode _ _ _ _ _ _ _ _ Hw).
  assert (Edev : i_dev i1 = i_dev i) by (by rewrite Ei).
  assert (Hget1 : gettable (i_dev i) inum ic1).
  { assert (Hid : forall j, i_dev (ic1 j) = i_dev (ic j) /\ i_inum (ic1 j) = i_inum (ic j) /\ i_ref (ic1 j) = i_ref (ic j)).
    { intros j. destruct (decide (j = dp)) as [->|]; [by rewrite (proj1 Hc1), Ei|by rewrite (proj2 Hc1)]. }
    assert (Hcd : forall j, cached ic1 (i_dev i) inum j <-> cached ic (i_dev i) inum j).
    { intros j. destruct (Hid j) as (E1 & E2 & E3). unfold cached. by rewrite E1, E2, E3. }
    split; [|split].
    - eapply icache_ok_at; [done|exact Hc1|by rewrite Ei..|]. right. by rewrite Ei.
    - destruct Hslot as (j & Hj & Hcase). exists j. destruct (Hid j) as (_ & _ & ->). by rewrite Hcd.
    - intros j Hj%Hcd. destruct (Hid j) as (_ & _ & ->). auto. }
  wp_call (wp_dirlookup x nmeta Hly dev_read L1 v1 H ic1 dp name); [done|by rewrite (proj1 Hc1)| |].
  { rewrite (proj1 Hc1), Hd1, Hf1, Edev. intros j [= <-]. by rewrite Hi1. }
  rewrite (proj1 Hc1), Hd1, Hf1, Edev, Hi1. intros e s2 (ip & ic' & -> & H2 & Hgot). apply wp_ret.
  exists ip, L1, v1, ic1, ic'. split; [done|]. split; [done|]. split; [done|]. intros name' Hne.
  rewrite (proj1 Hc1), Hd1. by apply linked_find_other.
Qed.

(** C24 [namei] follows the path through the directories of the disk: it
    returns a slot with a new reference to the inode that the path names
    ([resolve]), or null where an element is missing or is no directory, and
    it keeps no other reference. *)
Theorem namei_resolves L v r id path n s :
  tree_ok x nmeta v -> (base.size L < NBUF)%nat -> roomy r ->
  done_with (T := T) x L v r id s -> starts_at path n s -> live x v n -> Forall (fun b => b <> 0) path ->
  wp (namei dev_read path) (fun res s' =>
    match resolve x v false n (elems path) with
    | None => res = None /\ done_with (T := T) x L v r id s'
    | Some n' => exists ip, res = Some ip /\ at_inode (T := T) x L v r id n' ip s'
    end) s.
Proof.
  intros Htree Hroom Hr Hdone Hst Hl Hp. unfold namei.
  wp_call (wp_namex x nmeta Hly dev_read L v r id Htree Hroom Hr); [done|done|done|by rewrite length_replicate|done|].
  intros res s' Hw. apply wp_ret. unfold walked in Hw. destruct (resolve _ _ _ _ _); [|done].
  destruct Hw as (ip & E & Hat & _). by exists ip.
Qed.

(** [nameiparent] stops at the directory that holds the last element of
    the path and stores that element, cut to [DIRSIZ] bytes, in [name]; a
    path without elements gives null. *)
Theorem nameiparent_resolves L v r id path name n s :
  tree_ok x nmeta v -> (base.size L < NBUF)%nat -> roomy r ->
  done_with (T := T) x L v r id s -> starts_at path n s -> live x v n -> Forall (fun b => b <> 0) path ->
  length name = DIRSIZ ->
  wp (nameiparent dev_read path name) (fun res s' =>
    match resolve x v true n (elems path) with
    | None => fst res = None /\ done_with (T := T) x L v r id s'
    | Some n' => exists ip e, fst res = Some ip /\ at_inode (T := T) x L v r id n' ip s' /\
        last (elems path) = Some e /\ str_take DIRSIZ (snd res) = str_take DIRSIZ e
    end) s.
Proof.
  intros Htree Hroom Hr Hdone Hst Hl Hp Hn. unfold nameiparent.
  eapply wp_mono; [by eapply (wp_namex x nmeta Hly dev_read L v r id Htree Hroom Hr)|].
  intros res s' Hw. unfold walked in Hw. destruct (resolve _ _ _ _ _); [|done].
  destruct Hw as (ip & E & Hat & He). destruct (He eq_refl) as (e & ? & ?). by exists ip, e.
Qed.

(** [skipelem] takes a path apart as splitting at slashes does: it fails
    exactly where there is no element left, and otherwise stores the first
    one, cut to [DIRSIZ] bytes, and returns the rest without leading slashes. *)
Theorem skipelem_splits path name : length name = DIRSIZ -> Forall (fun b => b <> 0) path ->
  match skipelem path name with
  | None => elems path = []
  | Some (rest, name') => exists e, elems path = e :: elems rest /\ (rest = [] <-> elems rest = []) /\
      (length rest < length path)%nat /\ Forall (fun b => b <> 0) rest /\
      length name' = DIRSIZ /\ str_take DIRSIZ name' = str_take DIRSIZ e
  end.
Proof. apply skipelem_spec. Qed.

(** The 64-byte disk inode written by [iupdate] is read back by [ilock]
    as it was, and the other inodes of the block are not touched. *)
Theorem dinode_roundtrip off d di :
  dinode_ok di -> (off + 64 <= length d)%nat ->
  decode_dinode off (encode_dinode off di d) = di /\
  forall off', (off' + 64 <= off \/ off + 64 <= off')%nat ->
    decode_dinode off' (encode_dinode off di d) = decode_dinode off' d.
Proof.
  intros Hd Hoff. assert (Hl := do_len _ Hd). split; [by apply decode_encode|].
  intros off' Ho. by apply decode_other.
Qed.
End props.

(** ** Instances *)

Lemma writei_correct_witness :
  exists s, wp (writei no_write 0 [33; 33] 5) (fun r s' => r = 2 /\ exists L' v' ic' i',
    FT (T := txn 1000 mkfs_log None demo_fs []) L' v' ∅ ic' demo_sb s' /\ cache_at (only demo_file) ic' 0 i' /\
    wrote demo_sb 59 demo_fs v' demo_file i' 5 [33; 33] /\ writable demo_sb 59 v' i' ∅) s.
Proof.
  destruct (demo_state (only demo_file)) as [s HT]. exists s.
  apply (writei_correct demo_sb 59 demo_layout no_write _ _ _ _ 0 [33; 33] 5 s HT);
    [apply demo_file_ok|repeat constructor; done|done|vm_compute; reflexivity|right|..];
    apply Nat.leb_le; vm_compute; reflexivity.
Defined.

Lemma writei_error_witness :
  exists s, wp (writei no_write 0 [33; 33] 9) (fun r s' => r = -1 /\ s' = s) s.
Proof.
  destruct (demo_state (only demo_file)) as [s HT]. exists s.
  by apply (writei_error demo_sb no_write _ _ _ _ 0 [33; 33] 9 s HT).
Defined.

Lemma readi_correct_witness :
  exists s, wp (readi no_read 0 1 9) (fun r s' =>
    FT (T := txn 1000 mkfs_log None demo_fs []) ∅ demo_fs ∅ (only demo_file) demo_sb s' /\ r = (4, [101; 108; 108; 111])) s.
Proof.
  destruct (demo_state (only demo_file)) as [s HT]. exists s.
  apply (readi_correct demo_sb 59 demo_layout no_read _ _ _ _ 0 1 9 s HT); try done; try apply demo_file_ok.
  apply Nat.leb_le. vm_compute. reflexivity.
Defined.

Lemma write_then_read_witness :
  exists s, wp (k ← writei no_write 0 [33; 33] 5; readi no_read 0 5 k) (fun r s' => r = (2, [33; 33])) s.
Proof.
  destruct (demo_state (only demo_file)) as [s HT]. exists s.
  apply (write_then_read demo_sb 59 demo_layout no_read no_write _ _ _ _ 0 [33; 33] 5 s HT);
    [apply demo_file_ok|repeat constructor; done|done|vm_compute; reflexivity|right|..];
    apply Nat.leb_le; vm_compute; reflexivity.
Defined.

Lemma balloc_correct_witness :
  exists s, wp (balloc 1) (fun r s' => r = 61 /\ exists L' v',
     FT (T := txn 1000 mkfs_log None demo_fs []) L' v' ∅ (only demo_file) demo_sb s' /\
     v' 61 = zeros /\ (forall c, 0 <= c < 1000 -> used demo_sb v' c = (c =? 61) || used demo_sb demo_fs c) /\
     (forall n, n <> 61 -> ~ is_bitmap demo_sb n -> v' n = demo_fs n)) s.
Proof.
  destruct (demo_state (only demo_file)) as [s HT]. exists s.
  apply (balloc_correct demo_sb 59 demo_layout _ _ _ _ s HT demo_meta (held_safe_empty _ _));
    [apply Nat.leb_le; vm_compute; reflexivity..|].
  split; [simpl; lia|]. split; [vm_compute; reflexivity|]. intros c Hc.
  apply (forall_range (used demo_sb demo_fs) 0 61); [vm_compute; reflexivity|lia].
Defined.

Lemma bfree_correct_witness :
  exists s, wp (bfree 1 60) (fun _ s' => exists v',
      FT (T := txn 1000 mkfs_log None demo_fs []) ({[58]} ∪ ∅) v' ∅ (only demo_file) demo_sb s' /\
      (forall c, 0 <= c < 1000 -> used demo_sb v' c = negb (c =? 60) && used demo_sb demo_fs c) /\
      (forall n, ~ is_bitmap demo_sb n -> v' n = demo_fs n)) s.
Proof.
  destruct (demo_state (only demo_file)) as [s HT]. exists s.
  apply (bfree_correct demo_sb 59 demo_layout _ _ _ _ 60 s HT demo_meta (held_safe_empty _ _));
    [simpl; lia|apply Nat.leb_le; vm_compute; reflexivity..].
Defined.

Lemma iget_unique_witness :
  exists s, wp (iget 1 1) (fun ip s' => exists ic',
    FT (T := txn 1000 mkfs_log None demo_fs []) ∅ demo_fs ∅ ic' demo_sb s' /\ icache_ok ic' /\ cached ic' 1 1 ip /\
    (forall j, j <> ip -> ic' j = only demo_file j) /\
    (cached (only demo_file) 1 1 ip /\ ic' ip = set_i_ref (i_ref (only demo_file ip) + 1) (only demo_file ip) \/
     (forall j, ~ cached (only demo_file) 1 1 j) /\ i_ref (only demo_file ip) = 0 /\
     ic' ip = new_entry 1 1 (only demo_file ip))) s.
Proof.
  destruct (demo_state (only demo_file)) as [s HT]. exists s.
  destruct (only_gettable demo_file 1 1) as (Hok & Hslot & Hmax); [simpl; lia|].
  apply (iget_unique demo_sb _ _ _ 1 1 _ s HT Hok Hslot Hmax).
Defined.

(** The file after its last name was removed. *)
Definition demo_gone : inode := Inode 1 2 1 2 T_FILE 0 0 0 5 (60 :: replicate 12 0).

Lemma demo_gone_freeable : freeable (cap := 29) demo_sb 59 ∅ demo_fs demo_gone ∅.
Proof.
  split; auto with fs.
  - by apply (one_block_ok _ _ 60), demo_data60.
  - apply demo_meta.
  - apply Nat.leb_le. vm_compute. reflexivity.
  - apply Nat.leb_le. vm_compute. reflexivity.
Qed.

Lemma iput_reclaims_witness :
  exists s, wp (iput 0) (fun _ s' => exists L' v' ic', FT (T := txn 1000 mkfs_log None demo_fs []) L' v' ∅ ic' demo_sb s' /\
    cache_at (only demo_gone) ic' 0 (reclaimed demo_gone) /\ released demo_sb 59 demo_fs v' demo_gone (reclaimed demo_gone)) s.
Proof.
  destruct (demo_state (only demo_gone)) as [s HT]. exists s.
  apply (iput_reclaims demo_sb 59 demo_layout ∅ demo_fs ∅ (only demo_gone) 0 s); try done.
  - apply demo_gone_freeable.
  - eapply dinode_ok_one; [done|unfold is_u32; lia|..]; by vm_compute.
  - apply Nat.leb_le. vm_compute. reflexivity.
  - apply Nat.leb_le. vm_compute. reflexivity.
Defined.

Lemma ialloc_correct_witness :
  exists s, wp (ialloc 1 T_FILE) (fun ip s' => exists v' ic',
    FT (T := txn 1000 mkfs_log None demo_fs []) ({[32]} ∪ ∅) v' ∅ ic' demo_sb s' /\ got 1 3 (only demo_file) ic' ip /\
    disk_inode demo_sb v' 3 = fresh_dinode T_FILE /\
    (forall j, 0 <= j < 200 -> j <> 3 -> disk_inode demo_sb v' j = disk_inode demo_sb demo_fs j) /\
    (forall n, n <> 32 -> v' n = demo_fs n)) s.
Proof.
  destruct (demo_state (only demo_file)) as [s HT]. exists s.
  refine (proj1 (ialloc_correct demo_sb 59 demo_layout ∅ demo_fs ∅ (only demo_file) T_FILE s HT _ _ _ _) 3 _ _);
    [by vm_compute|done|apply Nat.leb_le; vm_compute; reflexivity..| |apply only_gettable; simpl; lia].
  split; [simpl; lia|]. split; [vm_compute; reflexivity|]. intros j Hj.
  assert (j = 1 \/ j = 2) as [->| ->] by lia; by vm_compute.
Defined.

Lemma dirlink_then_dirlookup_witness :
  exists s, wp (r ← dirlink no_read no_write 0 [98] 3; e ← dirlookup no_read 0 [98]; mret (r, e))
    (fun res s' => exists ip L' v' ic1 ic', res = (0, Some (ip, 48)) /\
      FT (T := txn 1000 mkfs_log None demo_fs []) L' v' ∅ ic' demo_sb s' /\ got 1 3 ic1 ic' ip /\
      forall name', str_take DIRSIZ name' <> [98] ->
        dir_find name' (file_data v' (ic1 0%nat)) = dir_find name' (file_data demo_fs demo_dir_inode) /\
        forall k, dir_find name' (file_data demo_fs demo_dir_inode) = Some k ->
          dent (file_data v' (ic1 0%nat)) k = dent (file_data demo_fs demo_dir_inode) k) s.
Proof.
  destruct (demo_state (only demo_dir_inode)) as [s HT]. exists s.
  apply (dirlink_then_dirlookup demo_sb 59 demo_layout no_read no_write _ _ _ _ 0 [98] 3 s HT);
    [apply demo_dir_readable|apply demo_dir_ok|vm_compute; reflexivity|repeat constructor; done|lia|by vm_compute|
     apply Nat.leb_le; vm_compute; reflexivity..|apply only_gettable; simpl; lia].
Defined.

(** A cache without entries. *)
Definition no_inodes : nat -> inode := only (Inode 0 0 0 0 0 0 0 0 0 []).
Lemma demo_idle : exists s, done_with (T := txn 1000 mkfs_log None demo_fs []) demo_sb ∅ demo_fs (fun _ => 0) (fun _ => 0) s.
Proof.
  destruct (demo_state no_inodes) as [s HT]. exists s, no_inodes. split; [done|]. split.
  - apply only_ok. simpl. lia.
  - by intros [|j] _ Hp.
  - by intros [|j] _.
  - lia.
Qed.
Lemma demo_roomy : roomy (fun _ => 0).
Proof. split; [lia|]. exists 0%nat, 1%nat. unfold NINODE. lia. Qed.

Lemma namei_resolves_witness :
  exists s, wp (namei no_read [47; 97]) (fun res s' => exists ip, res = Some ip /\
    at_inode (T := txn 1000 mkfs_log None demo_fs []) demo_sb ∅ demo_fs (fun _ => 0) (fun _ => 0) 2 ip s') s.
Proof.
  destruct demo_idle as [s Hs]. exists s.
  apply (namei_resolves demo_sb 59 demo_layout no_read ∅ demo_fs (fun _ => 0) (fun _ => 0) [47; 97] 1 s demo_tree);
    [apply Nat.leb_le; vm_compute; reflexivity|apply demo_roomy|done|done|apply demo_live; by left|by repeat constructor].
Defined.

Lemma nameiparent_resolves_witness :
  exists s, wp (nameiparent no_read [47; 97] (replicate 14 0)) (fun res s' => exists ip e, fst res = Some ip /\
    at_inode (T := txn 1000 mkfs_log None demo_fs []) demo_sb ∅ demo_fs (fun _ => 0) (fun _ => 0) 1 ip s' /\
    Some [97] = Some e /\ str_take DIRSIZ (snd res) = str_take DIRSIZ e) s.
Proof.
  destruct demo_idle as [s Hs]. exists s.
  apply (nameiparent_resolves demo_sb 59 demo_layout no_read ∅ demo_fs (fun _ => 0) (fun _ => 0) [47; 97] (replicate 14 0) 1 s demo_tree);
    [apply Nat.leb_le; vm_compute; reflexivity|apply demo_roomy|done|done|apply demo_live; by left|by repeat constructor|done].
Defined.

Lemma skipelem_splits_witness :
  exists e, elems [47; 97; 47; 47; 98] = e :: elems [98] /\ ([98] = [] <-> elems [98] = []) /\ (1 < 5)%nat /\
    Forall (fun b => b <> 0) [98] /\ length (97 :: replicate 13 0) = DIRSIZ /\
    str_take DIRSIZ (97 :: replicate 13 0) = str_take DIRSIZ e.
Proof.
  apply (skipelem_splits [47; 97; 47; 47; 98] (replicate 14 0)); [done|by repeat constructor].
Defined.

Lemma dinode_roundtrip_witness :
  decode_dinode 64 (encode_dinode 64 demo_hello zeros) = demo_hello /\
  forall off', (off' + 64 <= 64 \/ 64 + 64 <= off')%nat ->
    decode_dinode off' (encode_dinode 64 demo_hello zeros) = decode_dinode off' zeros.
Proof.
  apply (dinode_roundtrip 64 zeros demo_hello); [|apply Nat.leb_le; vm_compute; reflexivity].
  eapply dinode_ok_one; [done|unfold is_u32; lia|..]; by vm_compute.
Defined.
