(* ===== verification/Mkfs.v ===== *)
(** * Making a file system image (mkfs.c)

    The host program that writes the disk's first contents: superblock, empty
    log, inodes, free bitmap, and a root directory with the files named on its
    command line.  The image is a file of sectors; [sb] is the superblock that
    [main] fills in before it writes anything.  The bytes of a structure are
    its bytes in memory on a little-endian host, so [xint] and [xshort] give
    back their argument at its width.

    An [assert] that fails and a read beyond the end of the image end the
    program; both are a panic here.  A file to be copied is given by the pieces
    that [read] returns. *)

From S2P Require Import Prelude Params CString Spinlock Sched Ring Bio Log Crash Logop Txn Fs FsBlocks FsFile FsData FsInode FsIcache FsDir FsPath.

Definition NINODES : Z := 200.

Definition nbitmap : Z := FSSIZE / (Z.of_nat BSIZE * 8) + 1.
Definition ninodeblocks : Z := NINODES / IPB + 1.
Definition nlog : Z := Z.of_nat LOGSIZE.
Definition nmeta : Z := 2 + nlog + ninodeblocks + nbitmap.
Definition nblocks : Z := FSSIZE - nmeta.

Definition xshort (x : Z) : Z := le_val (le_bytes 2 x).
Definition xint (x : Z) : Z := le_val (le_bytes 4 x).

Definition mkfs_sb : superblock :=
  Superblock (xint FSSIZE) (xint nblocks) (xint NINODES) (xint nlog) (xint 2) (xint (2 + nlog)) (xint (2 + nlog + ninodeblocks)).

(** The image with its number of sectors, [freeinode] and [freeblock]. *)
Record mkfs_st := MkSt { img : Z -> list Z; nsect : Z; freeinode : Z; freeblock : Z }.
Notation MK := (M mkfs_st).

Definition assert (b : bool) : MK unit := if b then mret () else panic "assert".

Definition wsect (sec : Z) (buf : list Z) : MK unit :=
  modify (fun s => MkSt (<[sec := buf]> (img s)) (Z.max (nsect s) (sec + 1)) (freeinode s) (freeblock s)).

Definition rsect (sec : Z) : MK (list Z) :=
  s ← get;
  if sec <? nsect s then mret (img s sec) else panic "read".

Definition winode (inum : Z) (ip : dinode) : MK unit :=
  let bn := IBLOCK inum mkfs_sb in
  buf ← rsect bn;
  wsect bn (encode_dinode (dinode_off inum) ip buf).

Definition rinode (inum : Z) : MK dinode :=
  let bn := IBLOCK inum mkfs_sb in
  buf ← rsect bn;
  mret (decode_dinode (dinode_off inum) buf).

Definition ialloc (type : Z) : MK Z :=
  inum ← gets freeinode;
  modify (fun s => MkSt (img s) (nsect s) (u32 (freeinode s + 1)) (freeblock s)) ;;
  winode inum (Dinode (xshort type) 0 0 (xshort 1) (xint 0) (replicate (S NDIRECT) 0)) ;;
  mret inum.

(** [for(i = 0; i < used; i++) buf[i/8] = buf[i/8] | (0x1 << (i%8))]. *)
Fixpoint balloc_loop (n : nat) (i : Z) (buf : list Z) : list Z :=
  match n with
  | O => buf
  | S n => balloc_loop n (i + 1) (alter (fun x => Z.lor x (Z.shiftl 1 (i mod 8))) (Z.to_nat (i / 8)) buf)
  end.
Definition balloc (used : Z) : MK unit :=
  assert (used <? Z.of_nat BSIZE * 8) ;;
  wsect (sb_bmapstart mkfs_sb) (balloc_loop (Z.to_nat used) 0 (replicate BSIZE 0)).

(** [freeblock++]. *)
Definition next_block : MK Z :=
  b ← gets freeblock;
  modify (fun s => MkSt (img s) (nsect s) (freeinode s) (u32 (freeblock s + 1))) ;;
  mret b.

Definition d_addr (k : nat) (din : dinode) : Z := default 0 (d_addrs din !! k).
Definition set_d_addr (k : nat) (a : Z) (din : dinode) : dinode :=
  Dinode (d_type din) (d_major din) (d_minor din) (d_nlink din) (d_size din) (<[k := a]> (d_addrs din)).
Definition set_d_size (n : Z) (din : dinode) : dinode :=
  Dinode (d_type din) (d_major din) (d_minor din) (d_nlink din) n (d_addrs din).

(** The block of the file for [fbn], and the inode with it. *)
Definition file_block (fbn : Z) (din : dinode) : MK (Z * dinode) :=
  if fbn <? Z.of_nat NDIRECT then
    let k := Z.to_nat fbn in
    din ← (if xint (d_addr k din) =? 0 then f ← next_block; mret (set_d_addr k (xint f) din) else mret din);
    mret (xint (d_addr k din), din)
  else
    din ← (if xint (d_addr NDIRECT din) =? 0 then f ← next_block; mret (set_d_addr NDIRECT (xint f) din) else mret din);
    let ind := xint (d_addr NDIRECT din) in
    let k := Z.to_nat (4 * (fbn - Z.of_nat NDIRECT)) in
    indirect ← rsect ind;
    indirect ← (if get_word k indirect =? 0 then
                  f ← next_block;
                  let indirect := put_word k (xint f) indirect in
                  wsect ind indirect ;; mret indirect
                else mret indirect);
    mret (xint (get_word k indirect), din).

(** [while(n > 0)], with [p] the [n] bytes that are left. *)
Fixpoint iappend_loop (fuel : nat) (p : list Z) (off : Z) (din : dinode) : MK (Z * dinode) :=
  match fuel with
  | O => blocked
  | S fuel =>
      let n := Z.of_nat (length p) in
      if 0 <? n then
        let fbn := off / Z.of_nat BSIZE in
        assert (fbn <? Z.of_nat MAXFILE) ;;
        xd ← file_block fbn din;
        let '(x, din) := xd in
        let n1 := Z.min n ((fbn + 1) * Z.of_nat BSIZE - off) in
        buf ← rsect x;
        wsect x (splice (Z.to_nat (off - fbn * Z.of_nat BSIZE)) (take (Z.to_nat n1) p) buf) ;;
        iappend_loop fuel (drop (Z.to_nat n1) p) (u32 (off + n1)) din
      else mret (off, din)
  end.

Definition iappend (inum : Z) (p : list Z) : MK unit :=
  din ← rinode inum;
  od ← iappend_loop (S (length p)) p (xint (d_size din)) din;
  let '(off, din) := od in
  winode inum (set_d_size (xint off) din).

(** [for(i = 0; i < FSSIZE; i++) wsect(i, zeroes)]. *)
Fixpoint zero_image (n : nat) (i : Z) : MK unit :=
  match n with O => mret () | S n => wsect i (replicate BSIZE 0) ;; zero_image n (i + 1) end.

(** [memmove(buf, &sb, sizeof(sb))]. *)
Definition sb_block : list Z :=
  let x := mkfs_sb in
  put_words 0 [sb_size x; sb_nblocks x; sb_ninodes x; sb_nlog x; sb_logstart x; sb_inodestart x; sb_bmapstart x] (replicate BSIZE 0).

(** [strcpy] into a cleared [de.name]. *)
Definition strcpy_name (name : list Z) : list Z := splice 0 (name ++ [0]) (replicate DIRSIZ 0).

(** [while((cc = read(fd, buf, sizeof(buf))) > 0) iappend(inum, buf, cc)]. *)
Fixpoint copy_file (inum : Z) (pieces : list (list Z)) : MK unit :=
  match pieces with [] => mret () | p :: pieces => iappend inum p ;; copy_file inum pieces end.

(** The name without a leading underscore. *)
Definition skip_underscore (name : list Z) : list Z := match name with 95 :: l => l | _ => name end.

Fixpoint add_files (rootino : Z) (args : list (list Z * list (list Z))) : MK unit :=
  match args with
  | [] => mret ()
  | (name, pieces) :: args =>
      assert (bool_decide (47 ∉ name)) ;;
      inum ← ialloc T_FILE;
      iappend rootino (mk_dirent (xshort inum) (strncpy_l (skip_underscore name) DIRSIZ)) ;;
      copy_file inum pieces ;;
      add_files rootino args
  end.

(** [main], from the first write on. *)
Definition mkfs (args : list (list Z * list (list Z))) : MK unit :=
  modify (fun s => MkSt (img s) (nsect s) (freeinode s) nmeta) ;;
  zero_image (Z.to_nat FSSIZE) 0 ;;
  wsect 1 sb_block ;;
  rootino ← ialloc T_DIR;
  assert (rootino =? ROOTINO) ;;
  iappend rootino (mk_dirent (xshort rootino) (strcpy_name [46])) ;;
  iappend rootino (mk_dirent (xshort rootino) (strcpy_name [46; 46])) ;;
  add_files rootino args ;;
  din ← rinode rootino;
  let off := xint (d_size din) in
  let off := u32 ((off / Z.of_nat BSIZE + 1) * Z.of_nat BSIZE) in
  winode rootino (set_d_size (xint off) din) ;;
  f ← gets freeblock;
  balloc (s32 f).

(** The state in which [main] starts: a file without sectors, [freeinode = 1]. *)
Definition mkfs_start : mkfs_st := MkSt (fun _ => zeros) 0 1 0.
