(* ===== verification/MkfsFile.v ===== *)
(** * The files of a new image (mkfs.c: iappend)

    While mkfs runs, each sector from the first data block up to [freeblock]
    belongs to one file.  [file_rep] says which bytes a file holds; [iappend]
    adds to them, takes blocks only from the end, and does not touch a sector
    of another file. *)

From S2P Require Import Prelude Params CString Spinlock Sched Ring Bio Log Crash Logop Txn Fs FsBlocks FsFile FsData FsInode FsIcache FsDir FsPath Mkfs.

(** ** Contents by block *)

(** Block [k] of the contents [c], filled up with zeros. *)
Definition page (c : list Z) (k : Z) : list Z :=
  let w := take 512 (drop (Z.to_nat (512 * k)) c) in w ++ replicate (512 - length w) 0.

Lemma length_page c k : length (page c k) = 512%nat.
Proof. unfold page. rewrite length_app, length_replicate, length_take, length_drop. lia. Qed.

Lemma lookup_page c k i : 0 <= k -> (i < 512)%nat -> page c k !! i = Some (default 0 (c !! (Z.to_nat (512 * k) + i)%nat)).
Proof.
  intros Hk Hi. unfold page. rewrite lookup_app, lookup_take_lt, lookup_drop by done.
  destruct (c !! (Z.to_nat (512 * k) + i)%nat) as [b|] eqn:E; [done|]. cbn [default].
  apply lookup_ge_None in E. rewrite length_take, length_drop, lookup_replicate_2 by lia. done.
Qed.

Lemma page_ext c c' k : 0 <= k -> (forall i, (i < 512)%nat -> default 0 (c !! (Z.to_nat (512 * k) + i)%nat) = default 0 (c' !! (Z.to_nat (512 * k) + i)%nat)) ->
  page c k = page c' k.
Proof.
  intros Hk Hc. apply list_eq_same_length with 512%nat; [by rewrite length_page..|].
  intros i x y Hi. rewrite !lookup_page by done. intros [= <-] [= <-]. by apply Hc.
Qed.

Lemma page_beyond c k : 0 <= k -> Z.of_nat (length c) <= 512 * k -> page c k = zeros.
Proof.
  intros Hk Hc. unfold page. rewrite drop_ge by lia. done.
Qed.

Lemma page_app_ne c q k : 0 <= k -> k <> Z.of_nat (length c) / 512 -> Z.of_nat (length c) mod 512 + Z.of_nat (length q) <= 512 -> page (c ++ q) k = page c k.
Proof.
  intros Hk Hne Hq. apply page_ext; [done|]. intros i Hi. rewrite lookup_app.
  destruct (c !! _) as [b|] eqn:E; [done|]. cbn [default]. apply lookup_ge_None in E. rewrite lookup_ge_None_2; [done|]. zlia.
Qed.

(** The bytes of [q] in the block where [c] ends. *)
Lemma page_app c q : let k := Z.of_nat (length c) / 512 in Z.of_nat (length c) mod 512 + Z.of_nat (length q) <= 512 ->
  splice (Z.to_nat (Z.of_nat (length c) mod 512)) q (page c k) = page (c ++ q) k.
Proof.
  intros k Hq. assert (Hk : 0 <= k) by (unfold k; zlia). assert (Hm := Z.div_mod (Z.of_nat (length c)) 512 ltac:(lia)).
  assert (Hr := Z.mod_pos_bound (Z.of_nat (length c)) 512 ltac:(lia)). fold k in Hm. clearbody k.
  set (r := Z.of_nat (length c) mod 512) in *. clearbody r.
  apply list_eq_same_length with 512%nat; [by rewrite length_page|rewrite length_splice; rewrite length_page; [done|lia]|].
  intros i x y Hi. rewrite lookup_splice by (rewrite length_page; lia). rewrite !lookup_page, lookup_app by done.
  case_decide as Hd.
  - rewrite (lookup_ge_None_2 c) by lia. intros Hx [= <-].
    replace (Z.to_nat (512 * k) + i - length c)%nat with (i - Z.to_nat r)%nat by lia. by rewrite Hx.
  - intros [= <-] [= <-]. destruct (c !! _) as [b|] eqn:E; [done|]. apply lookup_ge_None in E. rewrite (lookup_ge_None_2 q) by lia. done.
Qed.

Lemma page_bytes c k : bytes_ok c -> bytes_ok (page c k).
Proof.
  intros Hc. unfold page. apply Forall_app. split; [by apply Forall_take, Forall_drop|]. apply Forall_replicate. unfold is_u8. lia.
Qed.

(** ** A file *)

(** The owner of a sector: a file's inode number with the index of the block in
    the file, or -1 for its indirect block. *)
Notation owners := (Z -> option (Z * Z)).

(** The inode of file [n] as the file system will see it. *)
Definition fino (n : Z) (din : dinode) : inode := load_inode din (Inode 1 n 1 I_VALID 0 0 0 0 0 []).

(** File [n] has [m] blocks, which hold [c], and an indirect block if [ind]. *)
Record file_rep (own : owners) (v : Z -> list Z) (n : Z) (din : dinode) (c : list Z) (m : Z) (ind : bool) : Prop := {
  fr_len : length (d_addrs din) = S NDIRECT;
  fr_u32 : Forall is_u32 (d_addrs din);
  fr_m : 0 <= m <= MAXBLK;
  fr_size : Z.of_nat (length c) <= 512 * m;
  fr_blk : forall k, 0 <= k < m -> let b := blk v (fino n din) k in b <> 0 /\ own b = Some (n, k) /\ v b = page c k;
  fr_none : forall k, m <= k < MAXBLK -> blk v (fino n din) k = 0;
  fr_ind : if ind then d_addr NDIRECT din <> 0 /\ own (d_addr NDIRECT din) = Some (n, -1) else d_addr NDIRECT din = 0;
  fr_need : 12 < m -> ind = true }.

(** The sectors that no file has: the metadata and those from [fb] on. *)
Record sectors (own : owners) (v : Z -> list Z) (fb : Z) : Prop := {
  se_own : forall b o, own b = Some o -> nmeta <= b < fb;
  se_ok : forall b, block_ok (v b);
  se_free : forall b, fb <= b -> v b = zeros }.

(** A change to file [n] alone. *)
Record grows (n : Z) (own own' : owners) (v v' : Z -> list Z) : Prop := {
  gr_own : forall b o, own b = Some o -> own' b = Some o;
  gr_same : forall b, (forall k, own' b <> Some (n, k)) -> v' b = v b }.

Lemma mk_grows_refl n own v : grows n own own v v.
Proof. done. Qed.
Lemma mk_grows_trans n own own1 own2 v v1 v2 : grows n own own1 v v1 -> grows n own1 own2 v1 v2 -> grows n own own2 v v2.
Proof.
  intros [O1 S1] [O2 S2]. split; [auto|]. intros b Hb. rewrite S2 by done. apply S1. intros k Hk. apply (Hb k). by apply O2.
Qed.

Lemma addr_fino n din k : addr k (fino n din) = d_addr k din.
Proof. done. Qed.
Lemma fino_set n din k a : fino n (set_d_addr k a din) = set_addr k a (fino n din).
Proof. done. Qed.

(** A file depends on its own sectors only. *)
Lemma file_rep_frame own own' v v' n din c m ind : file_rep own v n din c m ind ->
  (forall b k, own b = Some (n, k) -> own' b = Some (n, k) /\ v' b = v b) -> file_rep own' v' n din c m ind.
Proof.
  intros [Hl Hu Hm Hs Hb Hn Hi Hnd] Hf.
  assert (Hx : forall k, blk v' (fino n din) k = blk v (fino n din) k).
  { intros k. apply blk_ext. rewrite addr_fino. intros Hnz. destruct ind; [|done]. apply (Hf _ (-1)), Hi. }
  split; try done.
  - intros k Hk. cbv zeta. rewrite Hx. destruct (Hb k Hk) as (B1 & B2 & B3). destruct (Hf _ _ B2) as [-> ->]. done.
  - intros k Hk. rewrite Hx. by apply Hn.
  - destruct ind; [|done]. destruct Hi as [H1 H2]. split; [done|]. by apply Hf.
Qed.

Lemma file_rep_grows n own own' v v' n' din c m ind : grows n own own' v v' -> n' <> n -> file_rep own v n' din c m ind -> file_rep own' v' n' din c m ind.
Proof.
  intros [Ho Hv] Hne Hf. eapply file_rep_frame; [done|]. intros b k Hb. split; [by apply Ho|]. apply Hv. intros k'.
  rewrite (Ho _ _ Hb). congruence.
Qed.

(** ** Adding a block *)

Lemma xint_u32 z : xint z = u32 z.
Proof. unfold xint. by rewrite le_val_le_bytes. Qed.
Lemma xint_id z : is_u32 z -> xint z = z.
Proof. intros Hz. rewrite xint_u32. by apply u32_small. Qed.

Lemma d_addr_u32 k din : Forall is_u32 (d_addrs din) -> is_u32 (d_addr k din).
Proof.
  intros Hu. unfold d_addr. destruct (d_addrs din !! k) eqn:E; [exact (Forall_lookup_1 _ _ _ _ Hu E)|]. unfold is_u32. simpl. lia.
Qed.

Section grow.
Context (own : owners) (v : Z -> list Z) (fb n : Z) (din : dinode) (c : list Z).
Hypothesis Hse : sectors own v fb.
Hypothesis Hfb : nmeta <= fb < FSSIZE.

Lemma fb_free : own fb = None.
Proof. destruct (own fb) eqn:E; [|done]. apply Hse in E. lia. Qed.

Lemma fb_u32 : is_u32 fb /\ fb <> 0.
Proof. unfold is_u32. change nmeta with 59 in Hfb. unfold FSSIZE in Hfb. lia. Qed.

(** The next sector is given to the file. *)
Lemma own_next o : let own' := <[fb := Some o]> own in sectors own' v (fb + 1) /\ (forall b p, own b = Some p -> own' b = Some p).
Proof.
  intros own'. split.
  - split; [|apply Hse|intros b Hb; apply Hse; lia]. intros b p Hb. unfold own' in Hb.
    destruct (decide (b = fb)) as [->|Hne]; [lia|]. rewrite fn_lookup_insert_ne in Hb by done. apply Hse in Hb. lia.
  - intros b p Hb. unfold own'. rewrite fn_lookup_insert_ne; [done|]. intros E. rewrite <- E, fb_free in Hb. done.
Qed.

Lemma rep_direct m : file_rep own v n din c m false -> m < 12 ->
  file_rep (<[fb := Some (n, m)]> own) v n (set_d_addr (Z.to_nat m) fb din) c (m + 1) false.
Proof.
  intros [Hl Hu Hm Hs Hb Hn Hi Hnd] Hm12. destruct fb_u32 as [Hf1 Hf2]. destruct (own_next (n, m)) as [_ Ho].
  assert (Hx : forall j, 0 <= j -> blk v (fino n (set_d_addr (Z.to_nat m) fb din)) j = if decide (j = m) then fb else blk v (fino n din) j).
  { intros j Hj. rewrite fino_set. apply blk_direct; [exact Hl|lia|done]. }
  assert (Hd : d_addr NDIRECT (set_d_addr (Z.to_nat m) fb din) = d_addr NDIRECT din).
  { unfold d_addr. simpl. rewrite list_lookup_insert_ne; [done|]. unfold NDIRECT. lia. }
  split; try done.
  - simpl. by rewrite length_insert.
  - by apply Forall_insert.
  - unfold MAXBLK, MAXFILE in *. lia.
  - lia.
  - intros k Hk. cbv zeta. rewrite Hx by lia. case_decide as E.
    + subst k. split; [done|]. rewrite fn_lookup_insert. split; [done|]. rewrite (se_free _ _ _ Hse) by lia. by rewrite page_beyond by lia.
    + destruct (Hb k ltac:(lia)) as (B1 & B2 & B3). split; [done|]. split; [by apply Ho|done].
  - intros k Hk. rewrite Hx, decide_False by lia. apply Hn. lia.
  - by rewrite Hd.
  - lia.
Qed.

Lemma rep_indirect : file_rep own v n din c 12 false ->
  file_rep (<[fb := Some (n, -1)]> own) v n (set_d_addr NDIRECT fb din) c 12 true.
Proof.
  intros [Hl Hu Hm Hs Hb Hn Hi Hnd]. destruct fb_u32 as [Hf1 Hf2]. destruct (own_next (n, -1)) as [_ Ho].
  assert (Hx : forall j, 0 <= j -> blk v (fino n (set_d_addr NDIRECT fb din)) j = blk v (fino n din) j).
  { intros j Hj. rewrite fino_set. apply blk_new_indirect; [exact Hl|exact Hi|done|by apply Hse|done]. }
  split; try done.
  - simpl. by rewrite length_insert.
  - by apply Forall_insert.
  - intros k Hk. cbv zeta. rewrite Hx by lia. destruct (Hb k Hk) as (B1 & B2 & B3). split; [done|]. split; [by apply Ho|done].
  - intros k Hk. rewrite Hx by lia. by apply Hn.
  - unfold d_addr. simpl. rewrite list_lookup_insert_eq by (rewrite Hl; lia). simpl. split; [done|]. by rewrite fn_lookup_insert.
Qed.

Lemma rep_entry m : file_rep own v n din c m true -> 12 <= m < MAXBLK -> let a := d_addr NDIRECT din in
  let v' := <[a := put_word (Z.to_nat (4 * (m - 12))) fb (v a)]> v in
  file_rep (<[fb := Some (n, m)]> own) v' n din c (m + 1) true /\ sectors (<[fb := Some (n, m)]> own) v' (fb + 1) /\
  grows n own (<[fb := Some (n, m)]> own) v v'.
Proof.
  intros [Hl Hu Hm Hs Hb Hn Hi Hnd] Hm12 a v'. destruct fb_u32 as [Hf1 Hf2]. destruct (own_next (n, m)) as [Hse' Ho]. destruct Hi as [Hi1 Hi2].
  pose proof (se_own _ _ _ Hse _ _ Hi2) as Ha. fold a in Ha, Hi1, Hi2.
  assert (Hx : forall j, 0 <= j < MAXBLK -> blk v' (fino n din) j = if decide (j = m) then fb else blk v (fino n din) j).
  { intros j Hj. apply (blk_indirect v (fino n din) m fb j); [done|apply Hse|done|done|done]. }
  assert (Hva : forall b, b <> a -> v' b = v b) by (intros b Hb'; by apply fn_lookup_insert_ne).
  split; [|split].
  - split; try done.
    + unfold MAXBLK, MAXFILE in *. lia.
    + lia.
    + intros k Hk. cbv zeta. rewrite Hx by lia. case_decide as E.
      * subst k. split; [done|]. rewrite fn_lookup_insert. split; [done|]. rewrite Hva, (se_free _ _ _ Hse) by lia. by rewrite page_beyond by lia.
      * destruct (Hb k ltac:(lia)) as (B1 & B2 & B3). split; [done|]. split; [by apply Ho|]. rewrite Hva; [done|]. intros E'. rewrite E', Hi2 in B2. lia || (injection B2; lia).
    + intros k Hk. rewrite Hx, decide_False by lia. apply Hn. lia.
    + split; [done|]. by apply Ho.
  - destruct Hse' as [S1 S2 S3]. split; [done| |].
    + intros b. unfold v'. destruct (decide (b = a)) as [->|Hne]; [rewrite fn_lookup_insert|by rewrite fn_lookup_insert_ne].
      destruct (S2 a) as [Hla Hba]. split; [|by apply bytes_put_word]. rewrite length_put_word; [done|]. rewrite Hla. unfold BSIZE, MAXBLK, MAXFILE in *. lia.
    + intros b Hb'. rewrite Hva by lia. by apply S3.
  - split; [done|]. intros b Hb'. apply Hva. intros ->. apply (Hb' (-1)). by apply Ho.
Qed.
End grow.

(** ** The block for the end of the file *)

Definition mk_ok (own : owners) (s : mkfs_st) : Prop :=
  sectors own (img s) (freeblock s) /\ nsect s = FSSIZE /\ nmeta <= freeblock s <= FSSIZE.

Definition same_head (din din' : dinode) : Prop :=
  d_type din' = d_type din /\ d_major din' = d_major din /\ d_minor din' = d_minor din /\ d_nlink din' = d_nlink din /\ d_size din' = d_size din.

(** The sectors a file of [m] blocks takes. *)
Definition nb (m : Z) : Z := m + if 12 <? m then 1 else 0.

(** A step of [iappend] that takes [k] sectors. *)
Record appended (n : Z) (own own' : owners) (k : Z) (s s' : mkfs_st) : Prop := {
  ap_grows : grows n own own' (img s) (img s');
  ap_ok : mk_ok own' s';
  ap_inode : freeinode s' = freeinode s;
  ap_block : freeblock s' = freeblock s + k }.

Lemma appended_refl n own s : mk_ok own s -> appended n own own 0 s s.
Proof. intros Hs. split; [apply mk_grows_refl|done|done|lia]. Qed.
Lemma appended_trans n own own1 own2 k1 k2 s s1 s2 : appended n own own1 k1 s s1 -> appended n own1 own2 k2 s1 s2 -> appended n own own2 (k1 + k2) s s2.
Proof. intros [G1 O1 I1 B1] [G2 O2 I2 B2]. split; [by eapply mk_grows_trans|done|congruence|lia]. Qed.

Lemma wp_next_block n o own s : mk_ok own s -> freeblock s < FSSIZE -> fst o = n ->
  wp next_block (fun b s' => b = freeblock s /\ img s' = img s /\ appended n own (<[freeblock s := Some o]> own) 1 s s') s.
Proof.
  intros (Hse & Hn & Hfb) Hlt Ho. apply wp_bind, wp_gets, wp_bind, wp_modify, wp_ret. split; [done|]. split; [done|].
  destruct (own_next own (img s) (freeblock s) Hse ltac:(lia) o) as [Hse' Hown].
  assert (Eu : u32 (freeblock s + 1) = freeblock s + 1) by (apply u32_small; change nmeta with 59 in *; unfold is_u32, FSSIZE in *; lia).
  split; [by split|unfold mk_ok; simpl; rewrite Eu|done|done]. split; [done|]. split; [done|lia].
Qed.

Lemma wp_rsect own s b o : mk_ok own s -> own b = Some o -> wp (rsect b) (fun d s' => d = img s b /\ s' = s) s.
Proof.
  intros (Hse & Hn & Hfb) Hb. apply Hse in Hb. apply wp_bind, wp_get. replace (b <? nsect s) with true by lia. by apply wp_ret.
Qed.

Lemma mk_ok_insert own s b k n d : mk_ok own s -> own b = Some (n, k) -> block_ok d ->
  wp (wsect b d) (fun _ s' => img s' = <[b := d]> (img s) /\ appended n own own 0 s s') s.
Proof.
  intros (Hse & Hn & Hfb) Hb Hd. pose proof (se_own _ _ _ Hse _ _ Hb) as Hr. apply wp_modify. split; [done|]. simpl. split; simpl.
  - split; [done|]. intros b' Hb'. rewrite fn_lookup_insert_ne; [done|]. intros <-. by apply (Hb' k).
  - split; simpl; [|rewrite Hn; split; [unfold FSSIZE in *; lia|done]]. destruct Hse as [S1 S2 S3]. split; [done| |].
    + intros b'. destruct (decide (b' = b)) as [->|Hne]; [by rewrite fn_lookup_insert|by rewrite fn_lookup_insert_ne].
    + intros b' Hb'. rewrite fn_lookup_insert_ne by lia. by apply S3.
  - done.
  - lia.
Qed.

Section block.
Context (own : owners) (n : Z) (c : list Z).

Definition block_for (k m' : Z) (din : dinode) (s : mkfs_st) (fbn : Z) (xd : Z * dinode) (s' : mkfs_st) : Prop :=
  exists own', file_rep own' (img s') n (snd xd) c m' (12 <? m') /\ fst xd = blk (img s') (fino n (snd xd)) fbn /\
    appended n own own' k s s' /\ same_head din (snd xd).

Lemma wp_block_direct din m s fbn : mk_ok own s -> file_rep own (img s) n din c m (12 <? m) -> 0 <= fbn <= m -> fbn < 12 ->
  let m' := Z.max m (fbn + 1) in freeblock s + (nb m' - nb m) <= FSSIZE ->
  wp (file_block fbn din) (block_for (nb m' - nb m) m' din s fbn) s.
Proof.
  intros Hs Hf Hfm Hlt m' Hroom. pose proof Hf as [Hl Hu Hm Hsz Hb Hn Hi Hnd]. unfold file_block. replace (fbn <? Z.of_nat NDIRECT) with true by (unfold NDIRECT; lia).
  assert (Hx : forall v d, blk v (fino n d) fbn = d_addr (Z.to_nat fbn) d) by (intros v d; unfold blk; by replace (fbn <? 12) with true by lia).
  cbv zeta. rewrite xint_id by (by apply d_addr_u32). destruct (decide (fbn < m)) as [Hin|Hout].
  - destruct (Hb fbn ltac:(lia)) as (B1 & B2 & _). rewrite Hx in B1. replace (_ =? 0) with false by lia. apply wp_bind, wp_ret, wp_ret.
    replace m' with m by lia. rewrite Z.sub_diag. exists own. cbn [fst snd]. rewrite Hx. rewrite xint_id by (by apply d_addr_u32).
    split; [done|]. split; [done|]. split; [by apply appended_refl|done].
  - assert (fbn = m) as -> by lia. pose proof (Hn m ltac:(unfold MAXBLK, MAXFILE in *; lia)) as B0. rewrite Hx in B0. rewrite B0, Z.eqb_refl.
    assert (Em : m' = m + 1) by lia. unfold nb in *. rewrite Em in *. replace (12 <? m + 1) with false in * by lia. replace (12 <? m) with false in * by lia.
    replace (m + 1 + 0 - (m + 0)) with 1 in * by lia.
    apply wp_bind. eapply wp_seq; [by apply (wp_next_block n (n, m)); [|lia|]|]. intros b s1 (-> & Ev & Hap). apply wp_ret, wp_ret.
    destruct Hs as (Hse & Hns & Hfb). pose proof (fb_u32 (freeblock s) ltac:(lia)) as [Hfu _].
    eexists. cbn [fst snd]. rewrite Ev, Hx, xint_id by done.
    assert (Hfin := rep_direct own (img s) (freeblock s) n din c Hse ltac:(lia) m Hf Hlt).
    split; [by replace (12 <? m + 1) with false by lia|]. split; [by rewrite xint_id by (apply d_addr_u32, Hfin)|]. done.
Qed.

(** The indirect block, if there is none yet. *)
Lemma wp_ensure_indirect din m s : mk_ok own s -> file_rep own (img s) n din c m (12 <? m) -> 12 <= m ->
  let k := if 12 <? m then 0 else 1 in freeblock s + k <= FSSIZE ->
  wp (if xint (d_addr NDIRECT din) =? 0 then f ← next_block; mret (set_d_addr NDIRECT (xint f) din) else mret din) (fun din' s' =>
    exists own', file_rep own' (img s') n din' c m true /\ appended n own own' k s s' /\ same_head din din') s.
Proof.
  intros Hs Hf Hm k Hroom. pose proof Hf as [Hl Hu _ _ _ _ Hi _]. rewrite xint_id by (by apply d_addr_u32).
  destruct (Z.ltb_spec 12 m) as [H12|H12].
  - destruct Hi as [Hi _]. replace (_ =? 0) with false by lia. apply wp_ret. exists own. split; [done|]. split; [by apply appended_refl|done].
  - rewrite Hi, Z.eqb_refl. assert (m = 12) as -> by lia.
    eapply wp_seq; [by apply (wp_next_block n (n, -1)); [|lia|]|]. intros b s1 (-> & Ev & Hap). apply wp_ret.
    destruct Hs as (Hse & Hns & Hfb). pose proof (fb_u32 (freeblock s) ltac:(lia)) as [Hfu _]. rewrite xint_id by done.
    eexists. rewrite Ev. split; [apply (rep_indirect own (img s)); (done || lia)|]. done.
Qed.
End block.

(** The entry of the indirect block. *)
Lemma wp_ensure_entry own n c din m s fbn : mk_ok own s -> file_rep own (img s) n din c m true -> 12 <= fbn <= m -> fbn < MAXBLK -> 12 <= m ->
  let m' := Z.max m (fbn + 1) in freeblock s + (m' - m) <= FSSIZE ->
  let a := d_addr NDIRECT din in let k := Z.to_nat (4 * (fbn - 12)) in
  wp (indirect ← rsect a;
      indirect ← (if get_word k indirect =? 0 then
                    f ← next_block;
                    let indirect := put_word k (xint f) indirect in
                    wsect a indirect ;; mret indirect
                  else mret indirect);
      mret (xint (get_word k indirect), din)) (fun xd s' =>
    exists own', file_rep own' (img s') n (snd xd) c m' true /\ fst xd = blk (img s') (fino n (snd xd)) fbn /\
      appended n own own' (m' - m) s s' /\ same_head din (snd xd)) s.
Proof.
  intros Hs Hf Hfm Hmax Hm m' Hroom a k. pose proof Hf as [Hl Hu _ Hsz Hb Hn [Hi1 Hi2] _]. fold a in Hi1, Hi2.
  assert (Hx : forall v, blk v (fino n din) fbn = get_word k (v a)).
  { intros v. unfold blk. rewrite !addr_fino. fold a. replace (fbn <? 12) with false by lia. by replace (a =? 0) with false by lia. }
  assert (Hx32 : forall v, block_ok (v a) -> xint (get_word k (v a)) = get_word k (v a)).
  { intros v Hv. apply xint_id. apply get_word_range; [done|]. unfold k, BSIZE, MAXBLK, MAXFILE in *. lia. }
  eapply wp_seq; [by eapply wp_rsect|]. intros d s1 [-> ->]. destruct Hs as (Hse & Hns & Hfb).
  destruct (decide (fbn < m)) as [Hin|Hout].
  - destruct (Hb fbn ltac:(lia)) as (B1 & B2 & _). rewrite Hx in B1. replace (_ =? 0) with false by lia. apply wp_bind, wp_ret, wp_ret.
    replace m' with m by lia. rewrite Z.sub_diag. exists own. cbn [fst snd]. rewrite Hx, Hx32 by apply Hse.
    split; [done|]. split; [done|]. split; [by apply appended_refl|done].
  - assert (fbn = m) as -> by lia. pose proof (Hn m ltac:(lia)) as B0. rewrite Hx in B0. rewrite B0, Z.eqb_refl.
    assert (Em : m' = m + 1) by lia. rewrite Em in *. replace (m + 1 - m) with 1 in * by lia.
    pose proof (fb_u32 (freeblock s) ltac:(lia)) as [Hfu _].
    destruct (rep_entry own (img s) (freeblock s) n din c Hse ltac:(lia) m Hf ltac:(lia)) as (Hrep & Hse' & Hgr). fold a k in Hrep, Hse', Hgr.
    apply wp_bind. eapply wp_seq; [by apply (wp_next_block n (n, m)); [|lia|]|]. intros b s1 (-> & Ev & Hap). rewrite xint_id by done.
    eapply wp_seq; [apply (mk_ok_insert (<[freeblock s := Some (n, m)]> own) s1 a (-1) n); [apply Hap|by apply (gr_own _ _ _ _ _ Hgr)|]|].
    { pose proof (se_ok _ _ _ Hse' a) as Hbo. by rewrite fn_lookup_insert in Hbo. }
    intros [] s2 (E2 & Ha2). rewrite Ev in E2. apply wp_ret, wp_ret. cbn [fst snd]. rewrite E2, Hx.
    eexists. split; [exact Hrep|]. split.
    + rewrite <- Hx32 by (apply Hse'). by rewrite fn_lookup_insert.
    + split; [|done]. exact (appended_trans _ _ _ _ _ _ _ _ _ Hap Ha2).
Qed.

Lemma wp_file_block own n c din m s fbn : mk_ok own s -> file_rep own (img s) n din c m (12 <? m) -> 0 <= fbn <= m -> fbn < MAXBLK ->
  let m' := Z.max m (fbn + 1) in freeblock s + (nb m' - nb m) <= FSSIZE ->
  wp (file_block fbn din) (block_for own n c (nb m' - nb m) m' din s fbn) s.
Proof.
  intros Hs Hf Hfm Hmax m' Hroom. destruct (Z.ltb_spec fbn 12) as [H12|H12]; [by apply wp_block_direct|].
  unfold file_block. change (Z.of_nat NDIRECT) with 12. replace (fbn <? 12) with false by lia.
  assert (Em : nb m' - nb m = (if 12 <? m then 0 else 1) + (m' - m)) by (unfold nb; repeat case_match; lia).
  eapply wp_seq; [apply (wp_ensure_indirect own n c din m s Hs Hf); [lia|unfold m' in *; lia]|]. intros din1 s1 (own1 & Hf1 & Ha1 & Hh1).
  cbv zeta. rewrite xint_id by (apply d_addr_u32, Hf1).
  eapply wp_mono; [apply (wp_ensure_entry own1 n c din1 m s1 fbn); [apply Ha1|done|lia|done|lia|rewrite (ap_block _ _ _ _ _ _ Ha1); lia]|].
  intros [x din2] s2 (own2 & Hf2 & Hx & Ha2 & Hh2). exists own2. replace (12 <? m') with true by lia. split; [done|]. split; [done|].
  split; [rewrite Em; exact (appended_trans _ _ _ _ _ _ _ _ _ Ha1 Ha2)|]. unfold same_head in *. cbn [snd] in *. intuition congruence.
Qed.

(** ** iappend *)

Definition nblk (c : list Z) : Z := (Z.of_nat (length c) + 511) / 512.

(** File [n] holds [c] in as many blocks as it needs. *)
Definition holds (own : owners) (v : Z -> list Z) (n : Z) (din : dinode) (c : list Z) : Prop :=
  file_rep own v n din c (nblk c) (12 <? nblk c) /\ bytes_ok c.

Lemma rep_write own v n din c m ind q : file_rep own v n din c m ind -> let k := Z.of_nat (length c) / 512 in k < m ->
  Z.of_nat (length c) mod 512 + Z.of_nat (length q) <= 512 -> let b := blk v (fino n din) k in
  file_rep own (<[b := page (c ++ q) k]> v) n din (c ++ q) m ind.
Proof.
  intros [Hl Hu Hm Hs Hb Hn Hi Hnd] k Hk Hq b. assert (Hk0 : 0 <= k) by (unfold k; zlia). destruct (Hb k ltac:(lia)) as (B1 & B2 & B3). fold b in B1, B2, B3.
  assert (Hv : forall b', b' <> b -> <[b := page (c ++ q) k]> v b' = v b') by (intros b' Hb'; by apply fn_lookup_insert_ne).
  assert (Hx : forall j, blk (<[b := page (c ++ q) k]> v) (fino n din) j = blk v (fino n din) j).
  { intros j. apply blk_ext. rewrite addr_fino. intros Hnz. apply Hv. intros E. destruct ind; [|done]. destruct Hi as [_ Hi]. rewrite E, B2 in Hi.
    injection Hi. lia. }
  split; try done.
  - rewrite length_app. unfold k in *. zlia.
  - intros j Hj. cbv zeta. rewrite Hx. destruct (Hb j Hj) as (C1 & C2 & C3). split; [done|]. split; [done|]. destruct (decide (j = k)) as [->|Hne].
    + unfold b. by rewrite fn_lookup_insert.
    + rewrite Hv, C3 by (intros E; rewrite E, B2 in C2; congruence). symmetry. apply page_app_ne; (done || lia).
  - intros j Hj. rewrite Hx. by apply Hn.
Qed.

Lemma wp_iappend_loop fuel : forall own n c din p s, (length p < fuel)%nat -> mk_ok own s -> holds own (img s) n din c -> bytes_ok p ->
  Z.of_nat (length (c ++ p)) <= 512 * MAXBLK -> freeblock s + (nb (nblk (c ++ p)) - nb (nblk c)) <= FSSIZE ->
  wp (iappend_loop fuel p (Z.of_nat (length c)) din) (fun od s' => exists own', fst od = Z.of_nat (length (c ++ p)) /\
    holds own' (img s') n (snd od) (c ++ p) /\ appended n own own' (nb (nblk (c ++ p)) - nb (nblk c)) s s' /\ same_head din (snd od)) s.
Proof.
  induction fuel as [|fuel IH]; intros own n c din p s Hfuel Hs [Hf Hc] Hp Hmax Hroom; [lia|]. cbn [iappend_loop]. cbv zeta.
  destruct (Z.ltb_spec 0 (Z.of_nat (length p))) as [Hpos|Hpos].
  2:{ destruct p; [|simpl in Hpos; lia]. rewrite app_nil_r, Z.sub_diag. apply wp_ret. exists own. split; [done|]. split; [done|].
      split; [by apply appended_refl|done]. }
  change (Z.of_nat BSIZE) with 512. set (fbn := Z.of_nat (length c) / 512). rewrite length_app in Hmax.
  assert (Hfbn : 0 <= fbn < MAXBLK) by (unfold fbn; zlia). change (Z.of_nat MAXFILE) with MAXBLK. replace (fbn <? MAXBLK) with true by lia.
  apply wp_bind, wp_ret. set (n1 := Z.min (Z.of_nat (length p)) ((fbn + 1) * 512 - Z.of_nat (length c))).
  assert (Hmod := Z.div_mod (Z.of_nat (length c)) 512 ltac:(lia)). fold fbn in Hmod.
  assert (Hr := Z.mod_pos_bound (Z.of_nat (length c)) 512 ltac:(lia)).
  assert (Hn1 : 0 < n1 <= Z.of_nat (length p) /\ Z.of_nat (length c) mod 512 + n1 <= 512) by (unfold n1; lia).
  set (q := take (Z.to_nat n1) p). assert (Hlq : Z.of_nat (length q) = n1) by (unfold q; rewrite length_take; lia).
  assert (Em : Z.max (nblk c) (fbn + 1) = nblk (c ++ q)) by (unfold nblk; rewrite length_app; unfold fbn in *; zlia).
  assert (Enb : nb (nblk c) <= nb (nblk (c ++ q)) <= nb (nblk (c ++ p))).
  { assert (nblk c <= nblk (c ++ q) <= nblk (c ++ p)) by (unfold nblk; rewrite !length_app; zlia). unfold nb. repeat case_match; lia. }
  eapply wp_seq; [apply (wp_file_block own n c din (nblk c) s fbn Hs Hf); [unfold nblk, fbn; zlia|lia|rewrite Em; lia]|].
  intros [x din1] s1 (own1 & Hf1 & Hx & Ha1 & Hh1). cbn [fst snd] in *. rewrite Em in Hf1, Ha1.
  destruct (fr_blk _ _ _ _ _ _ _ Hf1 fbn ltac:(lia)) as (B1 & B2 & B3). rewrite <- Hx in B1, B2, B3.
  eapply wp_seq; [by eapply wp_rsect; [apply Ha1|]|]. intros d s2 [-> ->]. rewrite B3.
  replace (Z.of_nat (length c) - fbn * 512) with (Z.of_nat (length c) mod 512) by lia. fold q. rewrite page_app by (fold fbn; lia). fold fbn.
  assert (Hcq : bytes_ok (c ++ q)) by (apply Forall_app; split; [done|by apply Forall_take]).
  eapply wp_seq; [apply (mk_ok_insert own1 s1 x fbn n); [apply Ha1|done|split; [apply length_page|by apply page_bytes]]|].
  intros [] s2 (E2 & Ha2). rewrite u32_small by (unfold is_u32, MAXBLK, MAXFILE in *; lia).
  replace (Z.of_nat (length c) + n1) with (Z.of_nat (length (c ++ q))) by (rewrite length_app; lia).
  assert (Hf2 : holds own1 (img s2) n din1 (c ++ q)).
  { split; [|done]. rewrite E2, Hx. apply rep_write; [done|fold fbn; lia|lia]. }
  assert (Epq : (c ++ q) ++ drop (Z.to_nat n1) p = c ++ p) by (unfold q; by rewrite <- app_assoc, take_drop).
  assert (Ha := appended_trans _ _ _ _ _ _ _ _ _ Ha1 Ha2). pose proof (ap_block _ _ _ _ _ _ Ha) as Eb.
  eapply wp_mono; [apply (IH own1 n (c ++ q) din1 (drop (Z.to_nat n1) p) s2)|].
  - rewrite length_drop. lia.
  - apply Ha2.
  - done.
  - by apply Forall_drop.
  - rewrite Epq, length_app. lia.
  - rewrite Epq. lia.
  - intros [off din2] s3 (own3 & Eo & Hf3 & Ha3 & Hh3). rewrite Epq in *. exists own3. split; [done|]. split; [done|]. split.
    + replace (nb (nblk (c ++ p)) - nb (nblk c)) with (nb (nblk (c ++ q)) - nb (nblk c) + 0 + (nb (nblk (c ++ p)) - nb (nblk (c ++ q)))) by lia.
      exact (appended_trans _ _ _ _ _ _ _ _ _ Ha Ha3).
    + unfold same_head in *. cbn [snd] in *. intuition congruence.
Qed.
