(* ===== verification/MkfsRun.v ===== *)
(** * The image while mkfs makes it

    [image] gives the types and contents of the files so far, by inode number.
    Each routine of mkfs.c extends it, and the end of [main] makes it a
    [finished_image]: the root directory has its final size and the free map
    is written. *)

From S2P Require Import Prelude Params CString Spinlock Sched Ring Bio Log Crash Logop Txn Fs FsBlocks FsFile FsData FsInode FsIcache FsDir FsPath Mkfs MkfsFile.

(** ** Layout *)

Lemma mkfs_sb_eq : mkfs_sb = Superblock 1000 941 200 30 2 32 58.
Proof. vm_compute. reflexivity. Qed.
Lemma nmeta_eq : nmeta = 59.
Proof. vm_compute. reflexivity. Qed.

(** A transaction may write from the inodes on. *)
Definition mk_home (n : Z) : Prop := 32 <= n < FSSIZE.

Lemma mkfs_layout : layout FSSIZE mk_home mkfs_sb nmeta.
Proof. rewrite mkfs_sb_eq, nmeta_eq. unfold FSSIZE, mk_home. split; simpl; unfold IPB, BPB; try zlia. done. Qed.

Lemma iblock_range n : 0 <= n < NINODES -> 32 <= IBLOCK n mkfs_sb < 58.
Proof.
  intros Hn. rewrite mkfs_sb_eq. unfold IBLOCK, IPB, NINODES in *. simpl. rewrite u32_small by (unfold is_u32; zlia). zlia.
Qed.

(** ** Inodes *)

Definition put_din (v : Z -> list Z) (n : Z) (din : dinode) : Z -> list Z := put_inode mkfs_sb v (fino n din).

Lemma to_dinode_fino n din : to_dinode (fino n din) = din.
Proof. by destruct din. Qed.

Lemma put_din_eq v n din : (forall b, block_ok (v b)) -> 0 <= n < NINODES -> dinode_ok din -> disk_inode mkfs_sb (put_din v n din) n = din.
Proof.
  intros Hv Hn Hd. pose proof (put_inode_synced mkfs_sb v (fino n din)) as Hs. unfold synced in Hs. rewrite to_dinode_fino in Hs.
  apply Hs; [apply Hv|apply Hd|done].
Qed.

Lemma put_din_other v n din j : (forall b, block_ok (v b)) -> 0 <= n < NINODES -> length (d_addrs din) = S NDIRECT -> 0 <= j < NINODES -> j <> n ->
  disk_inode mkfs_sb (put_din v n din) j = disk_inode mkfs_sb v j.
Proof.
  intros Hv Hn Hl Hj Hne. by apply (put_inode_other mkfs_sb nmeta mkfs_layout v (fino n din)).
Qed.

Lemma put_din_ne v n din b : b < 32 \/ 58 <= b -> 0 <= n < NINODES -> put_din v n din b = v b.
Proof. intros Hb Hn. pose proof (iblock_range n Hn). apply put_inode_ne. simpl. lia. Qed.

Lemma wp_rinode own s n : mk_ok own s -> 0 <= n < NINODES -> wp (rinode n) (fun din s' => din = disk_inode mkfs_sb (img s) n /\ s' = s) s.
Proof.
  intros (_ & Hn & _) Hr. pose proof (iblock_range n Hr). apply wp_bind, wp_bind, wp_get. rewrite Hn.
  replace (IBLOCK n mkfs_sb <? FSSIZE) with true by (unfold FSSIZE; lia). by apply wp_ret, wp_ret.
Qed.

Lemma wp_winode own s n din : mk_ok own s -> 0 <= n < NINODES -> length (d_addrs din) = S NDIRECT ->
  wp (winode n din) (fun _ s' => img s' = put_din (img s) n din /\ mk_ok own s' /\ freeinode s' = freeinode s /\ freeblock s' = freeblock s) s.
Proof.
  intros (Hse & Hn & Hfb) Hr Hl. pose proof (iblock_range n Hr) as Hib. rewrite nmeta_eq in Hfb. apply wp_bind, wp_bind, wp_get. rewrite Hn.
  replace (IBLOCK n mkfs_sb <? FSSIZE) with true by (unfold FSSIZE; lia). apply wp_ret, wp_modify.
  assert (Ei : img (MkSt (<[IBLOCK n mkfs_sb := encode_dinode (dinode_off n) din (img s (IBLOCK n mkfs_sb))]> (img s)) 0 0 0) = put_din (img s) n din).
  { unfold put_din, put_inode. rewrite to_dinode_fino. done. }
  split; [exact Ei|]. split; [|done]. simpl in Ei. unfold mk_ok. simpl. rewrite Ei, Hn, nmeta_eq. split; [|split; [unfold FSSIZE; lia|done]].
  destruct Hse as [S1 S2 S3]. split; [done| |intros b Hb; rewrite put_din_ne by lia; by apply S3].
  intros b. unfold put_din, put_inode. rewrite to_dinode_fino. destruct (decide (b = IBLOCK n mkfs_sb)) as [->|Hne]; [|by rewrite fn_lookup_insert_ne].
  rewrite fn_lookup_insert. destruct (S2 (IBLOCK n mkfs_sb)) as [Hlb Hbb]. split; [|by apply encode_bytes].
  rewrite encode_length; [done|done|]. pose proof (dinode_off_range n) as Ho. rewrite <- Hlb in Ho. exact Ho.
Qed.

(** ** The image while it is being made *)

(** The inode of a file of type [ty] and contents [c]. *)
Definition din_of (ty : Z) (c : list Z) (din : dinode) : Prop :=
  d_type din = ty /\ d_major din = 0 /\ d_minor din = 0 /\ d_nlink din = 1 /\ d_size din = Z.of_nat (length c).

Definition blocks_of (files : list (Z * list Z)) : Z := foldr (fun f k => nb (nblk (snd f)) + k) 0 files.

(** Files [1, 2, ...] have these types and contents. *)
Record image (own : owners) (s : mkfs_st) (files : list (Z * list Z)) : Prop := {
  im_ok : mk_ok own s;
  im_next : freeinode s = Z.of_nat (S (length files));
  im_count : Z.of_nat (S (length files)) <= NINODES;
  im_fb : freeblock s = nmeta + blocks_of files;
  im_sb : img s 1 = sb_block;
  im_log : forall b, 2 <= b < 32 -> img s b = zeros;
  im_types : Forall (fun f => is_s16 (fst f)) files;
  im_file : forall j ty c, files !! j = Some (ty, c) -> let n := Z.of_nat (S j) in let din := disk_inode mkfs_sb (img s) n in
    din_of ty c din /\ holds own (img s) n din c;
  im_free : forall n, 0 <= n < NINODES -> n = 0 \/ Z.of_nat (S (length files)) <= n -> d_type (disk_inode mkfs_sb (img s) n) = 0 }.

Lemma holds_frame own v v' n din c : (forall b o, own b = Some o -> v' b = v b) -> holds own v n din c -> holds own v' n din c.
Proof. intros Hv [Hf Hc]. split; [|done]. eapply file_rep_frame; [done|]. intros b k Hb. split; [done|by eapply Hv]. Qed.

Lemma nb_mono m m' : m <= m' -> nb m <= nb m'.
Proof. unfold nb. repeat case_match; lia. Qed.
Lemma nblk_app c p : nblk c <= nblk (c ++ p).
Proof. unfold nblk. rewrite length_app. zlia. Qed.

Lemma blocks_of_insert files j ty c c' : files !! j = Some (ty, c) ->
  blocks_of (<[j := (ty, c')]> files) = blocks_of files + (nb (nblk c') - nb (nblk c)).
Proof.
  revert j. unfold blocks_of. induction files as [|f files IH]; intros [|j] Hj; simplify_eq/=; [lia|]. rewrite IH by done. lia.
Qed.
Lemma blocks_of_app f1 f2 : blocks_of (f1 ++ f2) = blocks_of f1 + blocks_of f2.
Proof. unfold blocks_of. induction f1 as [|f f1 IH]; simpl; lia. Qed.

Lemma nb_pos c : 0 <= nb (nblk c).
Proof. unfold nb, nblk. case_match; zlia. Qed.
Lemma blocks_of_pos files : 0 <= blocks_of files.
Proof. induction files as [|f files IH]; simpl; [lia|]. pose proof (nb_pos (snd f)). lia. Qed.
Lemma blocks_of_cons f files : blocks_of (f :: files) = nb (nblk (snd f)) + blocks_of files.
Proof. done. Qed.

Lemma holds_dinode own v n din ty c : holds own v n din c -> is_s16 ty -> Z.of_nat (length c) <= 512 * MAXBLK -> din_of ty c din -> dinode_ok din.
Proof.
  intros [Hf _] Hty Hlen (E1 & E2 & E3 & E4 & E5). destruct Hf as [Hl Hu _ _ _ _ _ _]. unfold MAXBLK, MAXFILE in *.
  split; rewrite ?E1, ?E2, ?E3, ?E4, ?E5; unfold is_s16, is_u32 in *; (done || lia).
Qed.

(** [iappend] adds to one file. *)
Lemma wp_iappend own s files j ty c p : image own s files -> files !! j = Some (ty, c) -> bytes_ok p ->
  Z.of_nat (length (c ++ p)) <= 512 * MAXBLK -> nmeta + blocks_of (<[j := (ty, c ++ p)]> files) <= FSSIZE ->
  wp (iappend (Z.of_nat (S j)) p) (fun _ s' => exists own', image own' s' (<[j := (ty, c ++ p)]> files)) s.
Proof.
  intros [Hok Hn Hcnt Hfb Hsb Hlog Hty Hfile Hfree] Hj Hp Hmax Hroom. apply lookup_lt_Some in Hj as Hjl.
  set (n := Z.of_nat (S j)). assert (Hnr : 0 <= n < NINODES) by (unfold n; lia).
  destruct (Hfile j ty c Hj) as [Hd Hh]. fold n in Hd, Hh. rewrite (blocks_of_insert _ _ _ _ _ Hj) in Hroom.
  assert (Hs16 : is_s16 ty) by (exact (Forall_lookup_1 _ _ _ _ Hty Hj)).
  unfold iappend. eapply wp_seq; [by apply (wp_rinode own)|]. intros din ? [-> ->]. set (din := disk_inode _ _ n) in *.
  pose proof Hd as (D1 & D2 & D3 & D4 & D5). rewrite D5, xint_id by (unfold is_u32, MAXBLK, MAXFILE in *; rewrite length_app in Hmax; lia).
  eapply wp_seq; [apply (wp_iappend_loop _ own n c din p s); (done || lia)|]. intros [off din1] s1 (own1 & Eo & Hh1 & [Hg Hok1 Hi1 Hb1] & Hhd). cbn [fst snd] in *. subst off.
  rewrite xint_id by (unfold is_u32, MAXBLK, MAXFILE in *; lia). set (din2 := set_d_size _ din1).
  assert (Hd2 : din_of ty (c ++ p) din2) by (unfold din_of, same_head in *; simpl; intuition congruence).
  assert (Hh2 : holds own1 (img s1) n din2 (c ++ p)).
  { destruct Hh1 as [[? ? ? ? ? ? ? ?] ?]. done. }
  pose proof (holds_dinode _ _ _ _ _ _ Hh2 Hs16 Hmax Hd2) as Hdok.
  eapply wp_mono; [apply (wp_winode own1 s1 n din2 Hok1 Hnr), Hdok|]. intros [] s2 (Ev & Hok2 & Hi2 & Hb2). exists own1.
  assert (Hblk1 : forall b, block_ok (img s1 b)) by apply Hok1. assert (Hmeta : forall b, b < nmeta -> img s1 b = img s b).
  { intros b Hb. apply Hg. intros k Hk. apply Hok1 in Hk. lia. }
  assert (Hdi : forall m, 0 <= m < NINODES -> m <> n -> disk_inode mkfs_sb (img s2) m = disk_inode mkfs_sb (img s) m).
  { intros m Hm Hne. rewrite Ev, put_din_other by (try done; apply Hdok). unfold disk_inode. rewrite Hmeta; [done|]. pose proof (iblock_range m Hm). rewrite nmeta_eq. lia. }
  assert (Hfr : forall b o, own1 b = Some o -> img s2 b = img s1 b).
  { intros b o Hb. apply Hok1 in Hb. rewrite Ev. apply put_din_ne; [|done]. rewrite nmeta_eq in Hb. lia. }
  split; rewrite ?length_insert; try done.
  - congruence.
  - rewrite Hb2, Hb1, Hfb, (blocks_of_insert _ _ _ _ _ Hj). lia.
  - rewrite Ev, put_din_ne, Hmeta by (try done; rewrite ?nmeta_eq; lia). done.
  - intros b Hb. rewrite Ev, put_din_ne, Hmeta by (try done; rewrite ?nmeta_eq; lia). by apply Hlog.
  - by apply Forall_insert.
  - intros j' ty' c' Hj'. destruct (decide (j' = j)) as [->|Hne].
    + rewrite list_lookup_insert_eq in Hj' by done. injection Hj' as <- <-. fold n. cbv zeta. rewrite Ev at 1 3. rewrite put_din_eq by done.
      split; [done|]. by eapply holds_frame.
    + rewrite list_lookup_insert_ne in Hj' by done. destruct (Hfile _ _ _ Hj') as [A [B C]]. apply lookup_lt_Some in Hj'.
      cbv zeta. rewrite Hdi by (unfold n in *; lia). split; [done|]. eapply holds_frame; [done|]. split; [|done].
      eapply file_rep_grows; [done|unfold n; lia|done].
  - intros m Hm Hm'. rewrite Hdi by (unfold n in *; lia). by apply Hfree.
Qed.

Lemma xshort_id z : 0 <= z < 65536 -> xshort z = z.
Proof. intros Hz. unfold xshort. rewrite le_val_le_bytes. by apply Z.mod_small. Qed.

(** A file without contents has no blocks. *)
Lemma holds_empty own v n ty : holds own v n (Dinode ty 0 0 1 0 (replicate (S NDIRECT) 0)) [].
Proof.
  split; [|constructor]. change (nblk []) with 0. assert (Hx : forall k, 0 <= k < MAXBLK -> blk v (fino n (Dinode ty 0 0 1 0 (replicate (S NDIRECT) 0))) k = 0).
  { intros k Hk. unfold blk. rewrite !addr_fino. change (d_addr NDIRECT _) with 0. destruct (Z.ltb_spec k 12); [|done].
    unfold d_addr. cbn [d_addrs]. by rewrite lookup_replicate_2 by (unfold NDIRECT; lia). }
  split; try done; try lia.
  apply Forall_replicate. unfold is_u32. lia.
Qed.

Lemma wp_mk_ialloc own s files ty : image own s files -> Z.of_nat (S (S (length files))) <= NINODES -> 0 <= ty < 32768 ->
  wp (ialloc ty) (fun n s' => n = Z.of_nat (S (length files)) /\ image own s' (files ++ [(ty, [])])) s.
Proof.
  intros [Hok Hn Hcnt Hfb Hsb Hlog Hty Hfile Hfree] Hroom Hr. unfold ialloc. apply wp_bind, wp_gets, wp_bind, wp_modify.
  rewrite Hn, xshort_id, (xshort_id 1), (xint_id 0) by (unfold is_u32; lia). set (n := Z.of_nat (S (length files))) in *.
  rewrite u32_small by (unfold is_u32, n, NINODES in *; lia). set (s0 := MkSt _ _ _ _). set (din := Dinode _ _ _ _ _ _).
  assert (Hnr : 0 <= n < NINODES) by (unfold n in *; lia).
  assert (Hdok : dinode_ok din) by (split; try done; unfold is_s16, is_u32; simpl; try lia; repeat constructor; lia).
  eapply wp_seq; [apply (wp_winode own s0 n din); [exact Hok|exact Hnr|done]|]. intros [] s1 (Ev & Hok1 & Hi1 & Hb1). apply wp_ret. split; [done|].
  change (img s0) with (img s) in Ev. change (freeblock s0) with (freeblock s) in Hb1. change (freeinode s0) with (n + 1) in Hi1.
  assert (Hblk : forall b, block_ok (img s b)) by apply Hok.
  assert (Hdi : forall m, 0 <= m < NINODES -> m <> n -> disk_inode mkfs_sb (img s1) m = disk_inode mkfs_sb (img s) m).
  { intros m Hm Hne. by rewrite Ev, put_din_other. }
  assert (Hfr : forall b o, own b = Some o -> img s1 b = img s b).
  { intros b o Hb. apply Hok in Hb. rewrite Ev. apply put_din_ne; [|done]. rewrite nmeta_eq in Hb. lia. }
  split; rewrite ?length_app; cbn [length]; try done.
  - rewrite Hi1. unfold n. lia.
  - lia.
  - rewrite Hb1, Hfb, blocks_of_app. simpl. unfold nb. change (nblk []) with 0. simpl. lia.
  - by rewrite Ev, put_din_ne by (done || lia).
  - intros b Hb. rewrite Ev, put_din_ne by (done || lia). by apply Hlog.
  - apply Forall_app. split; [done|]. apply Forall_singleton. unfold is_s16. simpl. lia.
  - intros j ty' c' Hj. cbv zeta. apply lookup_app_Some in Hj as [Hj|[Hj1 Hj2]].
    + destruct (Hfile _ _ _ Hj) as [A B]. apply lookup_lt_Some in Hj. rewrite Hdi by (unfold n in *; lia). split; [done|]. by eapply holds_frame.
    + apply list_lookup_singleton_Some in Hj2 as [Hj2 [= <- <-]]. replace (Z.of_nat (S j)) with n by (unfold n; lia).
      rewrite Ev at 1 3. rewrite put_din_eq by done. split; [done|]. apply holds_empty.
  - intros m Hm Hm'. rewrite Hdi by (unfold n in *; lia). apply Hfree; unfold n in *; lia.
Qed.

Lemma blocks_of_mono files j ty c c' : files !! j = Some (ty, c) -> nblk c <= nblk c' -> blocks_of files <= blocks_of (<[j := (ty, c')]> files).
Proof. intros Hj Hc. rewrite (blocks_of_insert _ _ _ _ _ Hj). pose proof (nb_mono _ _ Hc). lia. Qed.

Lemma wp_copy_file pieces : forall own s files j ty c, image own s files -> files !! j = Some (ty, c) -> Forall bytes_ok pieces ->
  Z.of_nat (length (c ++ concat pieces)) <= 512 * MAXBLK -> nmeta + blocks_of (<[j := (ty, c ++ concat pieces)]> files) <= FSSIZE ->
  wp (copy_file (Z.of_nat (S j)) pieces) (fun _ s' => exists own', image own' s' (<[j := (ty, c ++ concat pieces)]> files)) s.
Proof.
  induction pieces as [|p pieces IH]; intros own s files j ty c Him Hj Hp Hmax Hroom; cbn [copy_file concat] in *.
  { apply wp_ret. exists own. by rewrite app_nil_r, list_insert_id. }
  apply Forall_cons in Hp as [Hp Hps]. rewrite app_assoc in *. apply lookup_lt_Some in Hj as Hjl. rewrite length_app in Hmax.
  assert (Hj' : <[j := (ty, c ++ p)]> files !! j = Some (ty, c ++ p)) by (by apply list_lookup_insert_eq).
  assert (Hroom' := blocks_of_mono _ _ _ _ ((c ++ p) ++ concat pieces) Hj' (nblk_app _ _)). rewrite list_insert_insert_eq in Hroom'.
  eapply wp_seq; [apply (wp_iappend own s files j ty c p Him Hj Hp); lia|]. intros [] s1 [own1 Him1].
  eapply wp_mono; [apply (IH own1 s1 _ j ty (c ++ p) Him1 Hj' Hps); [by rewrite length_app|by rewrite list_insert_insert_eq]|].
  intros [] s2 [own2 Him2]. exists own2. by rewrite list_insert_insert_eq in Him2.
Qed.

(** ** The files of the command line *)

Notation arg := (list Z * list (list Z))%type.

Definition arg_name (a : arg) : list Z := strncpy_l (skip_underscore a.1) DIRSIZ.
Definition arg_file (a : arg) : Z * list Z := (T_FILE, concat a.2).

(** Their entries in the root directory; the first is inode [k]. *)
Fixpoint ents (k : nat) (args : list arg) : list Z :=
  match args with [] => [] | a :: args => mk_dirent (Z.of_nat k) (arg_name a) ++ ents (S k) args end.

Record arg_ok (a : arg) : Prop := {
  ag_name : bytes_ok a.1;
  ag_slash : 47 ∉ a.1;
  ag_data : Forall bytes_ok a.2;
  ag_size : Z.of_nat (length (concat a.2)) <= 512 * MAXBLK }.

Lemma bytes_dirent k name : bytes_ok name -> bytes_ok (mk_dirent k name).
Proof. intros Hn. apply Forall_app. split; [apply le_bytes_ok|done]. Qed.

Lemma bytes_arg_name a : arg_ok a -> bytes_ok (arg_name a).
Proof.
  intros [Hn _ _ _]. apply strncpy_l_ok. destruct (a.1) as [|b l]; [done|]. unfold skip_underscore. apply Forall_cons in Hn as [? ?].
  repeat case_match; simplify_eq; by try apply Forall_cons.
Qed.

Lemma wp_add_files args : forall own s r fs, let k := S (S (length fs)) in image own s ((T_DIR, r) :: fs) -> Forall arg_ok args ->
  Z.of_nat (k + length args) <= NINODES -> Z.of_nat (length (r ++ ents k args)) <= 512 * MAXBLK ->
  nmeta + blocks_of ((T_DIR, r ++ ents k args) :: fs ++ (arg_file <$> args)) <= FSSIZE ->
  wp (add_files 1 args) (fun _ s' => exists own', image own' s' ((T_DIR, r ++ ents k args) :: fs ++ (arg_file <$> args))) s.
Proof.
  induction args as [|a args IH]; intros own s r fs k Him Hok Hcnt Hmax Hroom; cbn [add_files ents length] in *.
  { apply wp_ret. exists own. by rewrite fmap_nil, !app_nil_r. }
  destruct a as [name pieces]. set (a := (name, pieces)) in *. apply Forall_cons in Hok as [Ha Hok]. set (e := mk_dirent (Z.of_nat k) (arg_name a)) in *.
  rewrite fmap_cons, app_assoc in *.
  rewrite bool_decide_eq_true_2 by apply Ha. apply wp_bind, wp_ret.
  eapply wp_seq; [apply (wp_mk_ialloc own s _ T_FILE Him); [cbn [length]; lia|unfold T_FILE; lia]|]. intros n s1 [-> Him1].
  cbn [length app] in *. fold k. rewrite xshort_id by (unfold NINODES in *; lia). change 1 with (Z.of_nat 1).
  set (file := arg_file a) in *. assert (Ef : file = (T_FILE, concat pieces)) by done.
  assert (Hb : blocks_of ((T_DIR, (r ++ e) ++ ents (S k) args) :: fs ++ file :: (arg_file <$> args)) =
    nb (nblk ((r ++ e) ++ ents (S k) args)) + (blocks_of fs + (nb (nblk (concat pieces)) + blocks_of (arg_file <$> args)))).
  { rewrite blocks_of_cons, blocks_of_app. done. }
  pose proof (nb_mono _ _ (nblk_app (r ++ e) (ents (S k) args))) as Hmono. rewrite length_app in Hmax.
  assert (Hb1 : blocks_of ((T_DIR, r ++ e) :: fs ++ [(T_FILE, [])]) = nb (nblk (r ++ e)) + blocks_of fs).
  { rewrite blocks_of_cons, blocks_of_app. simpl. change (nb (nblk [])) with 0. lia. }
  assert (Hb2 : blocks_of ((T_DIR, r ++ e) :: fs ++ [file]) = nb (nblk (r ++ e)) + (blocks_of fs + nb (nblk (concat pieces)))).
  { rewrite blocks_of_cons, blocks_of_app. rewrite Ef. simpl. lia. }
  pose proof (blocks_of_pos (arg_file <$> args)) as Hn1. pose proof (nb_pos (concat pieces)).
  eapply wp_seq; [apply (wp_iappend own s1 _ 0 T_DIR r e Him1); [done|by apply bytes_dirent, bytes_arg_name|lia|cbn [insert list_insert]; rewrite Hb1; lia]|].
  intros [] s2 [own2 Him2]. cbn [insert list_insert] in Him2.
  assert (Hlk : ((T_DIR, r ++ e) :: fs ++ [(T_FILE, [])]) !! S (length fs) = Some (T_FILE, [])) by (simpl; by rewrite lookup_app_r, Nat.sub_diag by lia).
  assert (Hins : forall c, <[S (length fs) := (T_FILE, c)]> ((T_DIR, r ++ e) :: fs ++ [(T_FILE, [])]) = (T_DIR, r ++ e) :: fs ++ [(T_FILE, c)]).
  { intros c. simpl. f_equal. rewrite insert_app_r_alt, Nat.sub_diag by lia. done. }
  eapply wp_seq; [apply (wp_copy_file pieces own2 s2 _ (S (length fs)) T_FILE [] Him2 Hlk); [apply Ha|apply Ha|rewrite Hins; simpl app; rewrite <- Ef, Hb2; lia]|].
  intros [] s3 [own3 Him3]. rewrite Hins in Him3. simpl app in Him3. rewrite <- Ef in Him3.
  specialize (IH own3 s3 (r ++ e) (fs ++ [file])). cbv zeta in IH. rewrite length_app, Nat.add_1_r in IH. fold k in IH. rewrite <- (app_assoc fs [file]) in IH.
  apply IH; [done|done|lia|rewrite length_app; lia|simpl app; lia].
Qed.

(** ** The beginning and the end of [main] *)

Lemma wp_zero_image n : forall i s, (forall b, img s b = zeros) -> nsect s = i -> 0 <= i ->
  wp (zero_image n i) (fun _ s' => (forall b, img s' b = zeros) /\ nsect s' = i + Z.of_nat n /\ freeinode s' = freeinode s /\ freeblock s' = freeblock s) s.
Proof.
  induction n as [|n IH]; intros i s Hz Hn Hi; cbn [zero_image]; [apply wp_ret; split_and!; (done || lia)|].
  apply wp_bind, wp_modify. eapply wp_mono; [apply IH; simpl; [|lia|lia]|].
  - intros b. destruct (decide (b = i)) as [->|Hne]; [by rewrite fn_lookup_insert|by rewrite fn_lookup_insert_ne].
  - intros [] s' (E1 & E2 & E3 & E4). split_and!; try done. lia.
Qed.

Lemma get_half_zeros off : get_half off zeros = 0.
Proof.
  unfold get_half, slice, zeros. rewrite drop_replicate, take_replicate. induction (2 `min` (BSIZE - off))%nat as [|n IH]; [done|].
  simpl. assert (E : le_val (replicate n 0) = 0) by (clear; induction n as [|n IH]; simpl; [done|]; by rewrite IH). by rewrite E.
Qed.

Lemma sb_block_ok : block_ok sb_block.
Proof.
  split; [by vm_compute|]. apply (bool_decide_unpack _). by vm_compute.
Qed.

(** The image before the first inode. *)
Lemma image_start s : (forall b, img s b = if b =? 1 then sb_block else zeros) -> nsect s = FSSIZE -> freeinode s = 1 -> freeblock s = nmeta ->
  image (fun _ => None) s [].
Proof.
  intros Hv Hn Hi Hb. assert (Hz : forall b, b <> 1 -> img s b = zeros) by (intros b Hne; rewrite Hv; by replace (b =? 1) with false by lia).
  split; try done.
  - split; [|split; [done|rewrite Hb, nmeta_eq; unfold FSSIZE; lia]]. split; [done| |].
    + intros b. rewrite Hv. case_match; [apply sb_block_ok|apply zeros_ok].
    + intros b Hb'. apply Hz. rewrite Hb, nmeta_eq in Hb'. lia.
  - intros b Hb'. apply Hz. lia.
  - intros n Hn' _. unfold disk_inode. pose proof (iblock_range n Hn'). rewrite Hz by lia. apply get_half_zeros.
Qed.

Lemma balloc_loop_spec n : forall i d, block_ok d -> 0 <= i -> i + Z.of_nat n <= BPB ->
  block_ok (balloc_loop n i d) /\ forall j, 0 <= j < BPB -> bit_used (balloc_loop n i d) j = bool_decide (i <= j < i + Z.of_nat n) || bit_used d j.
Proof.
  induction n as [|n IH]; intros i d Hd Hi Hmax; cbn [balloc_loop].
  { split; [done|]. intros j Hj. by rewrite bool_decide_eq_false_2 by lia. }
  change (alter _ (Z.to_nat (i / 8)) d) with (bit_set d i). destruct (IH (i + 1) (bit_set d i)) as [H1 H2]; [apply bit_set_ok; (done || lia)|lia|lia|].
  split; [done|]. intros j Hj. rewrite H2, bit_used_set by (done || lia). destruct (Z.eqb_spec j i) as [->|Hne].
  - rewrite (bool_decide_eq_true_2 (i <= i < _)) by lia. by rewrite orb_true_r.
  - f_equal. apply bool_decide_ext. lia.
Qed.

Lemma used_bitmap v d b : v 58 = d -> 0 <= b < FSSIZE -> used mkfs_sb v b = bit_used d b.
Proof.
  intros Hv Hb. unfold FSSIZE in Hb. unfold used. rewrite (BBLOCK_eq FSSIZE mk_home mkfs_sb nmeta mkfs_layout) by (rewrite mkfs_sb_eq; simpl; lia).
  rewrite mkfs_sb_eq. simpl sb_bmapstart. unfold BPB. rewrite Z.div_small, Z.mod_small by lia. change (0 + 58) with 58. by rewrite Hv.
Qed.

(** What the end of [main] makes of the image: the root directory's size is
    [size], and the blocks in use are marked. *)
Record finished_image (own : owners) (v : Z -> list Z) (fb size : Z) (r : list Z) (fs : list (Z * list Z)) : Prop := {
  fi_ok : forall b, block_ok (v b);
  fi_own : forall b o, own b = Some o -> nmeta <= b < fb;
  fi_used : forall b, 0 <= b < FSSIZE -> used mkfs_sb v b = bool_decide (b < fb);
  fi_fb : nmeta <= fb <= FSSIZE;
  fi_sb : v 1 = sb_block;
  fi_log : forall b, 2 <= b < 32 -> v b = zeros;
  fi_root : let din := disk_inode mkfs_sb v 1 in d_type din = T_DIR /\ d_nlink din = 1 /\ d_size din = size /\ holds own v 1 din r;
  fi_file : forall j ty c, fs !! j = Some (ty, c) -> let n := Z.of_nat (S (S j)) in let din := disk_inode mkfs_sb v n in
    din_of ty c din /\ holds own v n din c;
  fi_free : forall n, 0 <= n < NINODES -> n = 0 \/ Z.of_nat (S (S (length fs))) <= n -> d_type (disk_inode mkfs_sb v n) = 0 }.

Definition round_up (n : Z) : Z := (n / 512 + 1) * 512.

Lemma wp_finish own s r fs : image own s ((T_DIR, r) :: fs) -> Z.of_nat (length r) < 512 * MAXBLK ->
  wp (din ← rinode 1;
      let off := xint (d_size din) in
      let off := u32 ((off / Z.of_nat BSIZE + 1) * Z.of_nat BSIZE) in
      winode 1 (set_d_size (xint off) din) ;;
      f ← gets freeblock;
      balloc (s32 f)) (fun _ s' => nsect s' = FSSIZE /\ finished_image own (img s') (freeblock s) (round_up (Z.of_nat (length r))) r fs) s.
Proof.
  intros [Hok Hn Hcnt Hfb Hsb Hlog Hty Hfile Hfree] Hmax. destruct (Hfile 0%nat T_DIR r eq_refl) as [Hd Hh]. change (Z.of_nat 1) with 1 in *. cbn [length] in *.
  assert (H1 : 0 <= 1 < NINODES) by (unfold NINODES; lia).
  eapply wp_seq; [by apply (wp_rinode own)|]. intros din ? [-> ->]. set (din := disk_inode _ _ 1) in *. destruct Hd as (D1 & D2 & D3 & D4 & D5).
  change (Z.of_nat BSIZE) with 512. cbv zeta. rewrite D5. unfold MAXBLK, MAXFILE in Hmax. rewrite (xint_id (Z.of_nat _)) by (unfold is_u32; lia).
  assert (Hru : is_u32 (round_up (Z.of_nat (length r)))) by (unfold is_u32, round_up; zlia).
  fold (round_up (Z.of_nat (length r))). rewrite (u32_small _ Hru), (xint_id _ Hru). set (din2 := set_d_size _ din).
  assert (Hdok : dinode_ok din2).
  { destruct Hh as [[Hl Hu _ _ _ _ _ _] _]. split; unfold din2, set_d_size; cbn [d_type d_major d_minor d_nlink d_size d_addrs]; rewrite ?D1, ?D2, ?D3, ?D4; unfold is_s16, T_DIR; (done || lia). }
  eapply wp_seq; [apply (wp_winode own s 1 din2 Hok H1), Hdok|]. intros [] s1 (Ev & Hok1 & Hi1 & Hb1). apply wp_bind, wp_gets.
  rewrite Hb1. pose proof Hok as (Hse & Hns & Hfr). rewrite nmeta_eq in Hfr. unfold FSSIZE in Hfr. rewrite s32_small by (unfold is_s32; lia).
  unfold balloc. change (Z.of_nat BSIZE * 8) with 4096. replace (freeblock s <? 4096) with true by lia. apply wp_bind, wp_ret, wp_modify.
  rewrite mkfs_sb_eq. simpl sb_bmapstart. destruct (balloc_loop_spec (Z.to_nat (freeblock s)) 0 zeros) as [Hbok Hbits]; [apply zeros_ok|done|unfold BPB; lia|].
  change (replicate BSIZE 0) with zeros. set (bm := balloc_loop _ 0 zeros) in *. cbn [img nsect]. split; [destruct Hok1 as (_ & -> & _); done|].
  set (v := <[58 := bm]> (img s1)).
  assert (Hv : forall b, b <> 58 -> v b = img s1 b) by (intros b Hb; by apply fn_lookup_insert_ne).
  assert (Hv1 : forall b, b < 32 \/ 58 < b -> v b = img s b) by (intros b Hb; rewrite Hv, Ev, put_din_ne by (done || lia); done).
  assert (Hdv : forall n, 0 <= n < NINODES -> disk_inode mkfs_sb v n = disk_inode mkfs_sb (put_din (img s) 1 din2) n).
  { intros n Hn'. unfold disk_inode. rewrite Hv, Ev by (pose proof (iblock_range n Hn'); lia). done. }
  assert (Hblk : forall b, block_ok (img s b)) by apply Hok. assert (Hfrm : forall b o, own b = Some o -> v b = img s b).
  { intros b o Hb. apply Hse in Hb. rewrite nmeta_eq in Hb. apply Hv1. lia. }
  split; try done.
  - intros b. destruct (decide (b = 58)) as [->|Hne]; [unfold v; by rewrite fn_lookup_insert|]. rewrite Hv by done. apply Hok1.
  - apply Hse.
  - intros b Hb. rewrite (used_bitmap v bm) by (done || (unfold v; by rewrite fn_lookup_insert)). unfold FSSIZE in Hb. rewrite Hbits by (unfold BPB; lia).
    replace (bit_used zeros b) with false; [|symmetry; unfold bit_used, zeros; by rewrite lookup_replicate_2 by (unfold BSIZE; zlia)].
    rewrite orb_false_r. apply bool_decide_ext. lia.
  - rewrite Hv1 by lia. done.
  - intros b Hb. rewrite Hv1 by lia. by apply Hlog.
  - cbv zeta. rewrite Hdv, put_din_eq by done. simpl. split_and!; try done. eapply holds_frame; [done|]. destruct Hh as [[] ?]. done.
  - intros j ty c Hj. destruct (Hfile (S j) ty c Hj) as [A B]. apply lookup_lt_Some in Hj. cbv zeta. rewrite Hdv, put_din_other by (try done; apply Hdok || lia).
    split; [done|]. by eapply holds_frame.
  - intros n Hn' Hc. rewrite Hdv, put_din_other by (try done; apply Hdok || lia). by apply Hfree.
Qed.
