(* ===== verification/MkfsProps.v ===== *)
(** * The image that mkfs makes

    The image is a file system as fs.c wants it: its layout and metadata, a
    tree of well-formed directories, and every file under its name with its
    contents. *)

From S2P Require Import Prelude Params CString Spinlock Sched Ring Bio Log Crash Logop Txn Fs FsBlocks FsFile FsData FsInode FsIcache FsDir FsPath FsTree FsAbs Mkfs MkfsFile MkfsRun.

(** ** A file as fs.c reads it *)

Section file.
Context (own : owners) (v : Z -> list Z) (fb n : Z) (din : dinode) (c : list Z).
Hypothesis Hown : forall b o, own b = Some o -> nmeta <= b < fb.
Hypothesis Hfb : fb <= FSSIZE.
Hypothesis Hused : forall b, 0 <= b < FSSIZE -> used mkfs_sb v b = bool_decide (b < fb).
Hypothesis Hh : holds own v n din c.

Lemma owned_data b o : own b = Some o -> data_block mkfs_sb nmeta v b.
Proof using Hown Hfb Hused.
  intros Hb. apply Hown in Hb. change (sb_size mkfs_sb) with FSSIZE. split; [change (sb_size mkfs_sb) with FSSIZE; lia|].
  rewrite Hused by (rewrite nmeta_eq in Hb; lia). apply bool_decide_eq_true_2. lia.
Qed.

Lemma holds_ino_ok : ino_ok mkfs_sb nmeta v (fino n din).
Proof using All.
  destruct Hh as [[Hl Hu Hm Hs Hb Hn Hi Hnd] _].
  assert (Hblk : forall k, 0 <= k < MAXBLK -> blk v (fino n din) k <> 0 -> own (blk v (fino n din) k) = Some (n, k)).
  { intros k Hk Hz. destruct (decide (k < nblk c)); [apply (Hb k ltac:(lia))|]. rewrite Hn in Hz by lia. done. }
  assert (Hind : addr NDIRECT (fino n din) <> 0 -> own (addr NDIRECT (fino n din)) = Some (n, -1)).
  { rewrite addr_fino. destruct (12 <? nblk c); [by intros _; apply Hi|done]. }
  split; try done.
  - intros k Hk Hz. by eapply owned_data, Hblk.
  - intros Hz. by eapply owned_data, Hind.
  - intros j k Hj Hk Hz E. pose proof (Hblk j Hj Hz) as E1. rewrite E in Hz, E1. rewrite (Hblk k Hk Hz) in E1. congruence.
  - intros k Hk Hz E. pose proof (Hind Hz) as E1. rewrite <- E in E1, Hz. rewrite (Hblk k Hk Hz) in E1. injection E1. lia.
Qed.

Lemma holds_data : Z.of_nat (length c) <= d_size din <= 512 * nblk c ->
  file_data v (fino n din) = c ++ replicate (Z.to_nat (d_size din) - length c) 0.
Proof using Hh.
  intros Hsz. destruct Hh as [[Hl Hu Hm Hs Hb Hn Hi Hnd] _]. unfold file_data. change (i_size (fino n din)) with (d_size din).
  apply list_eq_same_length with (Z.to_nat (d_size din)).
  - rewrite length_app, length_replicate. lia.
  - by rewrite length_fmap, length_seqZ.
  - intros i x y Hlt Hx Hy. apply list_lookup_fmap_Some in Hx as (o & -> & Ho). apply lookup_seqZ in Ho as [-> _].
    assert (Hk : 0 <= (0 + Z.of_nat i) / 512 < nblk c) by zlia. destruct (Hb _ Hk) as (B1 & _ & B3). unfold fbyte.
    replace (_ =? 0) with false by lia. rewrite B3, lookup_page by zlia. cbn [default].
    replace (Z.to_nat (512 * ((0 + Z.of_nat i) / 512)) + Z.to_nat ((0 + Z.of_nat i) mod 512))%nat with i by zlia.
    rewrite lookup_app in Hy. destruct (c !! i) as [b|] eqn:E; simplify_eq; [done|]. by apply lookup_replicate in Hy as [-> _].
Qed.

Lemma holds_no_holes : 0 <= d_size din <= 512 * nblk c -> no_holes v (fino n din).
Proof using Hh.
  intros Hsz. destruct Hh as [[Hl Hu Hm Hs Hb Hn Hi Hnd] _]. split; [change (i_size (fino n din)) with (d_size din); lia|].
  intros k Hk Hlt. change (i_size (fino n din)) with (d_size din) in Hlt. apply Hb. lia.
Qed.

(** A size beyond the last block leaves a hole. *)
Lemma holds_hole : nblk c < MAXBLK -> 512 * nblk c < d_size din -> ~ no_holes v (fino n din).
Proof using Hh.
  intros Hlt Hsz [_ Hno]. destruct Hh as [[Hl Hu Hm Hs Hb Hn Hi Hnd] _]. apply (Hno (nblk c)).
  - lia.
  - change (i_size (fino n din)) with (d_size din). lia.
  - apply Hn. lia.
Qed.
End file.

Lemma disk_file_fino v n : disk_file mkfs_sb v n = fino n (disk_inode mkfs_sb v n).
Proof. done. Qed.

(** The blocks of a file are its own. *)
Lemma rep_owns own v n din c m ind b : file_rep own v n din c m ind -> owns v (disk_file mkfs_sb v n) b -> disk_inode mkfs_sb v n = din -> exists k, own b = Some (n, k).
Proof.
  intros [Hl Hu Hm Hs Hb Hn Hi Hnd] [Hz Ho] Ed. rewrite disk_file_fino, Ed in Ho.
  destruct Ho as [->|(k & Hk & ->)].
  - rewrite addr_fino in *. destruct ind; [|done]. exists (-1). apply Hi.
  - destruct (decide (k < m)); [exists k; apply (Hb k); lia|]. rewrite Hn in Hz by lia. done.
Qed.

(** ** The root directory *)

(** The entries of the root directory: inode numbers and names. *)
Definition root_list (args : list arg) : list (Z * list Z) :=
  [(1, strncpy_l [46] DIRSIZ); (1, strncpy_l [46; 46] DIRSIZ)] ++
  imap (fun k a => (Z.of_nat (S (S k)), arg_name a)) args.
Definition enc (l : list (Z * list Z)) : list Z := concat ((fun e => mk_dirent (fst e) (snd e)) <$> l).

Lemma enc_cons e l : enc (e :: l) = mk_dirent (fst e) (snd e) ++ enc l.
Proof. done. Qed.
Lemma enc_app l1 l2 : enc (l1 ++ l2) = enc l1 ++ enc l2.
Proof. unfold enc. by rewrite fmap_app, concat_app. Qed.

Definition root_data (args : list arg) : list Z :=
  (mk_dirent 1 (strcpy_name [46]) ++ mk_dirent 1 (strcpy_name [46; 46])) ++ ents 2 args.

Lemma ents_enc args : forall k, ents k args = enc (imap (fun i a => (Z.of_nat (k + i), arg_name a)) args).
Proof.
  induction args as [|a args IH]; intros k; [done|]. cbn [ents]. rewrite imap_cons, enc_cons. cbn [fst snd].
  rewrite Nat.add_0_r. f_equal. rewrite IH. f_equal. apply imap_ext. intros i b _. simpl. f_equal. lia.
Qed.

Lemma root_data_enc args : root_data args = enc (root_list args).
Proof.
  unfold root_data, root_list. rewrite enc_app, ents_enc. done.
Qed.

(** Entry [k] of a directory made of these entries, with zeros behind. *)
Lemma dent_enc l z k : Forall (fun e => length (snd e) = DIRSIZ) l ->
  dent (enc l ++ replicate z 0) k = match l !! k with Some e => mk_dirent (fst e) (snd e) | None => take 16 (replicate (z - 16 * (k - length l)) 0) end.
Proof.
  intros Hl. revert k. induction Hl as [|e l He Hl IH]; intros k.
  - unfold enc, dent, slice. simpl. rewrite drop_replicate, Nat.sub_0_r. done.
  - rewrite enc_cons, <- app_assoc.
    assert (Hlen : length (mk_dirent (fst e) (snd e)) = 16%nat) by (unfold mk_dirent; rewrite length_app, length_le_bytes, He; done).
    destruct k as [|k]; unfold dent, slice.
    + rewrite Nat.mul_0_r, drop_0. simpl lookup. cbn iota. rewrite take_app_length' by done. done.
    + replace (16 * S k)%nat with (16 + 16 * k)%nat by lia. rewrite <- drop_drop, drop_app_length' by done. fold (slice (16 * k) 16 (enc l ++ replicate z 0)).
      fold (dent (enc l ++ replicate z 0) k). rewrite IH. simpl lookup. by destruct (l !! k).
Qed.

Lemma length_enc l : Forall (fun e => length (snd e) = DIRSIZ) l -> length (enc l) = (16 * length l)%nat.
Proof.
  induction 1 as [|e l He Hl IH]; [done|]. rewrite enc_cons, length_app, IH. unfold mk_dirent.
  rewrite length_app, length_le_bytes, He. cbn [length]. unfold DIRSIZ. lia.
Qed.

Lemma root_names args : Forall (fun e => length (snd e) = DIRSIZ) (root_list args).
Proof.
  unfold root_list. apply Forall_app. split; [repeat constructor; apply length_strncpy_l|].
  apply Forall_lookup_2. intros i e Hi. rewrite list_lookup_imap in Hi. destruct (args !! i); simplify_eq/=. apply length_strncpy_l.
Qed.

(** The names in the root directory, as far as they count. *)
Definition root_keys (args : list arg) : list (list Z) :=
  [46] :: [46; 46] :: ((fun a => str_take DIRSIZ (skip_underscore a.1)) <$> args).

Lemma root_keys_eq args : (fun e => str_take DIRSIZ (snd e)) <$> root_list args = root_keys args.
Proof.
  unfold root_list, root_keys. rewrite fmap_app. cbn [fmap list_fmap app snd]. change (str_take DIRSIZ (strncpy_l [46] DIRSIZ)) with [46]. change (str_take DIRSIZ (strncpy_l [46; 46] DIRSIZ)) with [46; 46].
  do 2 f_equal. rewrite fmap_imap. apply list_eq. intros i. rewrite list_lookup_imap, list_lookup_fmap. destruct (args !! i) as [a|]; [|done].
  exact (f_equal Some (str_take_strncpy (skip_underscore a.1) DIRSIZ)).
Qed.

Lemma length_root_list args : length (root_list args) = S (S (length args)).
Proof. unfold root_list. by rewrite length_app, length_imap. Qed.

Lemma root_list_file args i : root_list args !! S (S i) = (fun a => (Z.of_nat (S (S i)), arg_name a)) <$> args !! i.
Proof.
  unfold root_list. rewrite lookup_app_r by (cbn [length]; lia). cbn [length]. rewrite list_lookup_imap.
  by replace (S (S i) - 2)%nat with i by lia.
Qed.

Lemma root_lookup args i a : args !! i = Some a -> root_list args !! S (S i) = Some (Z.of_nat (S (S i)), arg_name a).
Proof. intros Hi. by rewrite root_list_file, Hi. Qed.

Lemma root_entry args k e : root_list args !! k = Some e -> Z.of_nat (length args) < 65534 -> 1 <= fst e <= Z.of_nat (S (length args)) /\ 0 <= fst e < 65536.
Proof.
  intros Hk Hlen. apply lookup_lt_Some in Hk as Hlt. rewrite length_root_list in Hlt.
  destruct k as [|[|k]]; [injection Hk as <-; simpl; lia..|]. rewrite root_list_file in Hk. destruct (args !! k); simplify_eq/=. lia.
Qed.

Section root.
Context (args : list arg) (z : nat).
Notation d := (enc (root_list args) ++ replicate z 0).
Hypothesis Hlen : Z.of_nat (length args) < 65534.

Lemma root_hit name k e : root_list args !! k = Some e -> hit name d k = bool_decide (str_take DIRSIZ name = str_take DIRSIZ (snd e)).
Proof.
  intros Hk. pose proof (root_entry _ _ _ Hk Hlen). unfold hit, vacant. rewrite dent_enc, Hk by apply root_names.
  rewrite mk_dirent_inum, mk_dirent_name, namecmp_zero by lia. by replace (fst e =? 0) with false by lia.
Qed.

Lemma root_vacant k : root_list args !! k = None -> vacant d k = true.
Proof.
  intros Hk. unfold vacant. rewrite dent_enc, Hk by apply root_names. unfold de_inum. rewrite take_take, take_replicate. apply Z.eqb_eq.
  generalize ((2 `min` 16) `min` (z - 16 * (k - length (root_list args))))%nat. intros n. induction n as [|n IH]; simpl; lia.
Qed.

Lemma root_find i a : NoDup (root_keys args) -> args !! i = Some a -> dir_find (skip_underscore a.1) d = Some (S (S i)).
Proof.
  intros Hnd Hi. pose proof (root_lookup _ _ _ Hi) as Hr. unfold dir_find. apply first_from_some.
  apply lookup_lt_Some in Hi as Hil. split; [|split].
  - unfold dir_entries. rewrite length_app, length_enc, length_replicate, length_root_list by apply root_names. split; [lia|].
    apply Nat.div_le_lower_bound; lia.
  - rewrite (root_hit _ _ _ Hr). apply bool_decide_eq_true_2. symmetry. exact (str_take_strncpy _ _).
  - intros j Hj. destruct (root_list args !! j) as [e|] eqn:Ej; [|apply lookup_ge_None in Ej; rewrite length_root_list in Ej; lia].
    rewrite (root_hit _ _ _ Ej). apply bool_decide_eq_false_2. intros E. assert (j = S (S i)); [|lia].
    rewrite <- root_keys_eq in Hnd. eapply NoDup_lookup; [exact Hnd| |].
    + rewrite list_lookup_fmap, Ej. done.
    + rewrite list_lookup_fmap, Hr. cbn [fmap option_fmap option_map snd]. rewrite <- E. f_equal. apply str_take_strncpy.
Qed.
Lemma root_ent k e c : ent d k e c <-> exists name, root_list args !! k = Some (c, name) /\ str_take DIRSIZ name = e.
Proof.
  unfold ent. split.
  - intros (_ & E & Hc & En). destruct (root_list args !! k) as [[c' name]|] eqn:Ek.
    + pose proof (root_entry _ _ _ Ek Hlen). rewrite dent_enc, Ek in E, En by apply root_names. cbn [fst snd] in *.
      rewrite mk_dirent_inum in E by lia. rewrite mk_dirent_name in En. subst. by exists name.
    + pose proof (root_vacant k Ek) as Hv. unfold vacant in Hv. lia.
  - intros (name & Ek & En). pose proof (root_entry _ _ _ Ek Hlen) as He. cbn [fst] in He. rewrite dent_enc, Ek by apply root_names. cbn [fst snd].
    rewrite mk_dirent_inum, mk_dirent_name by lia. split_and!; [|done|lia|done].
    apply lookup_lt_Some in Ek. rewrite length_root_list in Ek. unfold dir_entries.
    rewrite length_app, length_enc, length_replicate, length_root_list by apply root_names. apply Nat.div_le_lower_bound; lia.
Qed.

(** The entries after the dots are the files, in order. *)
Lemma root_child k c name : root_list args !! k = Some (c, name) -> (2 <= k)%nat -> c = Z.of_nat k /\ (k < S (S (length args)))%nat.
Proof.
  intros Hk H2. apply lookup_lt_Some in Hk as Hlt. rewrite length_root_list in Hlt. destruct k as [|[|k]]; [lia|lia|].
  rewrite root_list_file in Hk. destruct (args !! k); simplify_eq/=. split; [lia|done].
Qed.
End root.

(** ** The finished image *)

Lemma root_data_length args : Z.of_nat (length (root_data args)) = 16 * (2 + Z.of_nat (length args)).
Proof. rewrite root_data_enc, length_enc, length_root_list by apply root_names. lia. Qed.

(** The file system: its metadata, its tree and its blocks. *)
Record fs_image (v : Z -> list Z) (args : list arg) : Prop := {
  fx_blocks : forall b, block_ok (v b);
  fx_layout : layout FSSIZE mk_home mkfs_sb nmeta;
  fx_meta : meta_ok mkfs_sb nmeta v;
  fx_log : forall b, 2 <= b < 32 -> v b = zeros;
  fx_tree : tree_ok mkfs_sb nmeta v;
  fx_inv : fs_inv mkfs_sb nmeta v;
  fx_file : forall k a, args !! k = Some a -> let n := Z.of_nat (S (S k)) in let i := disk_file mkfs_sb v n in
    resolve mkfs_sb v false ROOTINO [skip_underscore a.1] = Some n /\ d_type (disk_inode mkfs_sb v n) = T_FILE /\
    ino_ok mkfs_sb nmeta v i /\ no_holes v i /\ file_data v i = concat a.2 }.

Section final.
Context (own : owners) (v : Z -> list Z) (fb : Z) (args : list arg).
Notation r := (root_data args).
Notation L := (Z.of_nat (length args)).
Hypothesis Hfi : finished_image own v fb (round_up (Z.of_nat (length r))) r (arg_file <$> args).
Hypothesis Hcnt : 2 + L <= NINODES.

Lemma root_blocks : (2 + L) mod 32 <> 0 -> round_up (Z.of_nat (length r)) = 512 * nblk r.
Proof. intros Hm. unfold round_up, nblk. rewrite root_data_length. zlia. Qed.

Lemma root_dir : (2 + L) mod 32 <> 0 -> let i := disk_file mkfs_sb v 1 in
  ino_ok mkfs_sb nmeta v i /\ no_holes v i /\ i_size i mod 16 = 0 /\
  exists z, dir_data mkfs_sb v 1 = enc (root_list args) ++ replicate z 0.
Proof using Hfi.
  intros Hm i. destruct Hfi as [_ Ho Hu Hf _ _ (D1 & D2 & D3 & Hh) _ _]. unfold i. rewrite disk_file_fino.
  pose proof (root_blocks Hm) as Er. pose proof (root_data_length args) as El.
  assert (Hsz : Z.of_nat (length r) <= d_size (disk_inode mkfs_sb v 1) <= 512 * nblk r) by (rewrite D3, Er; unfold nblk; zlia).
  split; [eapply holds_ino_ok; [done|apply Hf|done|done]|]. split; [eapply holds_no_holes; [done|lia]|]. split.
  - change (i_size (fino 1 ?d)) with (d_size d). rewrite D3, Er. zlia.
  - exists (Z.to_nat (d_size (disk_inode mkfs_sb v 1)) - length r)%nat. rewrite <- root_data_enc.
    by apply (holds_data own v 1 (disk_inode mkfs_sb v 1) r Hh).
Qed.

Lemma arg_inode k a : args !! k = Some a -> let n := Z.of_nat (S (S k)) in
  din_of T_FILE (concat a.2) (disk_inode mkfs_sb v n) /\ holds own v n (disk_inode mkfs_sb v n) (concat a.2).
Proof using Hfi. intros Hk. apply (fi_file _ _ _ _ _ _ Hfi k). by rewrite list_lookup_fmap, Hk. Qed.

Lemma image_live n : 0 <= n < NINODES -> d_type (disk_inode mkfs_sb v n) <> 0 -> n = 1 \/ exists k a, args !! k = Some a /\ n = Z.of_nat (S (S k)).
Proof using Hfi.
  intros Hn Ht. destruct (decide (n = 1)) as [->|Hne]; [by left|]. right.
  destruct (decide (2 <= n < 2 + L)) as [Hr|Hr].
  - destruct (lookup_lt_is_Some_2 args (Z.to_nat (n - 2)) ltac:(lia)) as [a Ha]. exists (Z.to_nat (n - 2)), a. split; [done|lia].
  - exfalso. apply Ht, (fi_free _ _ _ _ _ _ Hfi); [done|]. rewrite length_fmap. lia.
Qed.

Lemma image_dir n : live mkfs_sb v n -> is_dir mkfs_sb v n = true -> n = 1.
Proof using Hfi.
  intros (Hn & Ht & _) Hd. change (sb_ninodes mkfs_sb) with NINODES in Hn. apply Z.eqb_eq in Hd.
  destruct (image_live n Hn Ht) as [->|(k & a & Hk & ->)]; [done|]. destruct (arg_inode k a Hk) as [(E & _) _]. rewrite E in Hd. done.
Qed.

Lemma image_entry n : 1 <= n <= Z.of_nat (S (length args)) -> live mkfs_sb v n.
Proof using Hfi Hcnt.
  intros Hn. split; [change (sb_ninodes mkfs_sb) with NINODES; lia|]. destruct (decide (n = 1)) as [->|Hne].
  - destruct Hfi as [_ _ _ _ _ _ (-> & -> & _) _ _]. done.
  - destruct (lookup_lt_is_Some_2 args (Z.to_nat (n - 2)) ltac:(lia)) as [a Ha]. destruct (arg_inode _ _ Ha) as [(E1 & _ & _ & E2 & _) _].
    replace (Z.of_nat (S (S (Z.to_nat (n - 2))))) with n in * by lia. by rewrite E1, E2.
Qed.

Lemma image_tree : (2 + L) mod 32 <> 0 -> tree_ok mkfs_sb nmeta v.
Proof using All.
  intros Hm. destruct (root_dir Hm) as (R1 & R2 & R3 & z & Ez). assert (Hlen : L < 65534) by (unfold NINODES in Hcnt; lia). split.
  - intros n Hl Hd. apply image_dir in Hl as ->; [|done]. done.
  - intros n k Hl Hd d Hk Hv. apply image_dir in Hl as ->; [|done]. unfold d in *. rewrite Ez in *.
    destruct (root_list args !! k) as [e|] eqn:Ee; [|by rewrite root_vacant in Hv].
    rewrite dent_enc, Ee by apply root_names. pose proof (root_entry _ _ _ Ee Hlen). rewrite mk_dirent_inum by lia. apply image_entry. lia.
Qed.

Lemma image_meta : meta_ok mkfs_sb nmeta v.
Proof using Hfi.
  destruct Hfi as [_ _ Hu Hf Hs _ _ _ _]. rewrite nmeta_eq in *. split; [rewrite Hs; by vm_compute|].
  intros b Hb. rewrite Hu by (unfold FSSIZE; lia). apply bool_decide_eq_true_2. lia.
Qed.

(** Every inode in use is a file in order, and files share no block. *)
Lemma image_files : (2 + L) mod 32 <> 0 -> files_ok mkfs_sb nmeta v.
Proof using All.
  intros Hm. assert (Hall : forall n, allocated mkfs_sb v n -> exists c, holds own v n (disk_inode mkfs_sb v n) c /\
    Z.of_nat (length c) <= d_size (disk_inode mkfs_sb v n) <= 512 * nblk c).
  { intros n [Hn Ht]. change (sb_ninodes mkfs_sb) with NINODES in Hn. destruct (image_live n ltac:(lia) Ht) as [->|(k & a & Hk & ->)].
    - destruct Hfi as [_ _ _ _ _ _ (D1 & D2 & D3 & Hh) _ _]. exists r. split; [done|]. pose proof (root_data_length args). rewrite D3, (root_blocks Hm). unfold nblk. zlia.
    - destruct (arg_inode k a Hk) as [(_ & _ & _ & _ & D5) Hh]. eexists. split; [exact Hh|]. rewrite D5. unfold nblk. zlia. }
  destruct Hfi as [Hb Ho Hu Hf _ _ _ _ Hfr]. split.
  - apply image_meta.
  - apply Hfr; [unfold NINODES; lia|by left].
  - intros n Ha. destruct (Hall n Ha) as (c & Hh & Hsz). split; rewrite ?disk_file_fino; [eapply holds_ino_ok; [done|apply Hf|done|done]|eapply holds_no_holes; [done|lia]|].
    apply decode_dinode_ok, Hb.
  - intros n m b [Hn Hbn] [Hm' Hbm]. destruct (Hall n Hn) as (c1 & [H1 _] & _), (Hall m Hm') as (c2 & [H2 _] & _).
    destruct (rep_owns _ _ _ _ _ _ _ _ H1 Hbn eq_refl) as [k1 E1], (rep_owns _ _ _ _ _ _ _ _ H2 Hbm eq_refl) as [k2 E2]. congruence.
Qed.

(** The tree: the root with the files. *)
Section tree.
Hypothesis Hm : (2 + L) mod 32 <> 0.
Hypothesis Hnd : NoDup (root_keys args).
Notation t := (abs mkfs_sb v).

Lemma image_root : exists nd, adir t ROOTINO nd /\ n_nlink nd = 1 /\ (length (n_data nd) mod 16 = 0)%nat /\
  forall k e c, ent (n_data nd) k e c <-> exists name, root_list args !! k = Some (c, name) /\ str_take DIRSIZ name = e.
Proof using All.
  destruct (root_dir Hm) as (_ & Rh & R3 & z & Ez). destruct (fi_root _ _ _ _ _ _ Hfi) as (D1 & D2 & _).
  assert (Ha : allocated mkfs_sb v ROOTINO) by (split; [done|]; unfold ROOTINO; by rewrite D1).
  change 1 with ROOTINO in D1, D2. exists (node_of (disk_inode mkfs_sb v ROOTINO) (dir_data mkfs_sb v ROOTINO)).
  split; [split; [by apply abs_allocated|]; cbn [n_type n_nlink node_of]; by rewrite D1, D2|]. split; [done|]. split.
  - cbn [n_data node_of]. unfold dir_data. rewrite length_file_data. unfold ROOTINO. apply Nat2Z.inj. rewrite Nat2Z.inj_mod, Z2Nat.id; [exact R3|apply Rh].
  - cbn [n_data node_of]. unfold ROOTINO. rewrite Ez. intros k e c. apply root_ent. unfold NINODES in Hcnt. lia.
Qed.

Lemma image_tree_inv : tree_inv t.
Proof using All.
  destruct image_root as (rd & Hrd & Hrl & Hrm & Hent).
  assert (Hlk : forall k c e, ((fun x => (fst x, str_take DIRSIZ (snd x))) <$> root_list args) !! k = Some (c, e) <->
    exists name, root_list args !! k = Some (c, name) /\ str_take DIRSIZ name = e).
  { intros k c e. rewrite list_lookup_fmap. destruct (root_list args !! k) as [[c' name]|]; simpl; naive_solver. }
  apply (flat_tree_inv t rd ((fun x => (fst x, str_take DIRSIZ (snd x))) <$> root_list args)); try done.
  - intros n nd ([Hr _] & _)%abs_some. change (sb_ninodes mkfs_sb) with 200 in Hr. lia.
  - intros k e c. by rewrite Hlk, Hent.
  - rewrite <- list_fmap_compose. change (NoDup ((fun e => str_take DIRSIZ (snd e)) <$> root_list args)). by rewrite root_keys_eq.
  - intros k c e (name & Hr & _)%Hlk Hk. destruct (root_child _ _ _ _ Hr Hk) as [-> Hlt]. split; [unfold ROOTINO; lia|].
    assert (Hl : live mkfs_sb v (Z.of_nat k)) by (apply image_entry; lia). destruct Hl as (Hr1 & Hr2 & _).
    eexists. apply abs_allocated. split; [lia|done].
  - intros n nd E Hn. destruct (abs_some _ _ _ _ E) as ([Hr Ht] & -> & -> & _). change (sb_ninodes mkfs_sb) with NINODES in Hr.
    destruct (image_live n ltac:(lia) Ht) as [->|(k & a & Hk & ->)]; [done|]. destruct (arg_inode k a Hk) as [(D1 & _ & _ & D4 & _) _].
    split; [done|]. split; [by rewrite D1|]. eexists (S (S k)), _. split; [lia|]. split; [apply Hlk; eexists; split; [by apply root_lookup|done]|].
    intros k' e' (name & Hr' & _)%Hlk. destruct (decide (2 <= k')%nat) as [H2|]; [destruct (root_child _ _ _ _ Hr' H2); lia|].
    destruct k' as [|[|k']]; [injection Hr' as Hr' _; lia..|lia].
Qed.

Lemma image_inv : fs_inv mkfs_sb nmeta v.
Proof using All. split; [by apply image_files|apply image_tree_inv]. Qed.
End tree.

Lemma image_fs : (2 + L) mod 32 <> 0 -> NoDup (root_keys args) -> fs_image v args.
Proof using All.
  intros Hm Hnd. assert (Hlen : L < 65534) by (unfold NINODES in Hcnt; lia).
  split; [apply Hfi|apply mkfs_layout|apply image_meta|apply Hfi|by apply image_tree|by apply image_inv|].
  intros k a Hk. cbv zeta. destruct (arg_inode k a Hk) as [(D1 & _ & _ & _ & D5) Hh]. rewrite disk_file_fino.
  destruct Hfi as [_ Ho Hu Hf _ _ _ _ _].
  assert (Hsize : Z.of_nat (length (concat a.2)) <= d_size (disk_inode mkfs_sb v (Z.of_nat (S (S k)))) <= 512 * nblk (concat a.2)) by (rewrite D5; unfold nblk; zlia).
  split; [|split; [done|split; [eapply holds_ino_ok; [done|apply Hf|done|done]|split; [eapply holds_no_holes; [done|lia]|]]]].
  - cbn [resolve]. destruct (root_dir Hm) as (_ & _ & _ & z & Ez). unfold ROOTINO. rewrite Ez.
    assert (Hd : is_dir mkfs_sb v 1 = true) by (destruct Hfi as [_ _ _ _ _ _ (E & _) _ _]; unfold is_dir; by rewrite E).
    rewrite Hd. cbn [negb andb]. rewrite (root_find args z Hlen k a Hnd Hk). f_equal. rewrite dent_enc, (root_lookup _ _ _ Hk) by apply root_names.
    apply lookup_lt_Some in Hk. rewrite mk_dirent_inum by (cbn [fst]; unfold NINODES in *; lia). done.
  - rewrite (holds_data own v _ _ (concat a.2) Hh) by done. rewrite D5, Nat2Z.id, Nat.sub_diag. by rewrite app_nil_r.
Qed.
End final.

(** ** mkfs *)

(** The arguments fit on the disk. *)
Record args_fit (args : list arg) : Prop := {
  af_args : Forall arg_ok args;
  af_inodes : 2 + Z.of_nat (length args) <= NINODES;
  af_blocks : nmeta + blocks_of ((T_DIR, root_data args) :: (arg_file <$> args)) <= FSSIZE }.

Lemma wp_mkfs args : args_fit args -> wp (mkfs args) (fun _ s => nsect s = FSSIZE /\
  exists own fb, finished_image own (img s) fb (round_up (Z.of_nat (length (root_data args)))) (root_data args) (arg_file <$> args)) mkfs_start.
Proof.
  intros [Hargs Hn Hb]. pose proof (root_data_length args) as Hl. unfold mkfs. apply wp_bind, wp_modify.
  eapply wp_seq; [by apply (wp_zero_image (Z.to_nat FSSIZE) 0)|]. intros [] s1 (Ev & En & Ei & Eb).
  apply wp_bind, wp_modify. set (s2 := MkSt _ _ _ _).
  assert (Him : image (fun _ => None) s2 []).
  { apply image_start; [|unfold s2; simpl; rewrite En; done|done|done]. intros b. unfold s2. simpl.
    destruct (Z.eqb_spec b 1) as [->|Hne]; [by rewrite fn_lookup_insert|by rewrite fn_lookup_insert_ne]. }
  eapply wp_seq; [apply (wp_mk_ialloc _ s2 [] T_DIR Him); [unfold NINODES; simpl; lia|unfold T_DIR; lia]|]. intros n s3 [-> Him3]. cbn [length app] in *.
  change (Z.of_nat 1 =? ROOTINO) with true. apply wp_bind, wp_ret. rewrite xshort_id by (simpl; lia).
  assert (Hbo : forall c, blocks_of [(T_DIR, c)] = nb (nblk c)) by (intros c; simpl; lia). rewrite blocks_of_cons in Hb. pose proof (blocks_of_pos (arg_file <$> args)).
  set (e1 := mk_dirent (Z.of_nat 1) (strcpy_name [46])) in *. set (e2 := mk_dirent (Z.of_nat 1) (strcpy_name [46; 46])) in *.
  assert (Er : root_data args = (e1 ++ e2) ++ ents 2 args) by done. cbn [snd] in Hb. rewrite Er in *.
  pose proof (nb_mono _ _ (nblk_app (e1 ++ e2) (ents 2 args))) as Hm2. pose proof (nb_mono _ _ (nblk_app e1 e2)) as Hm1.
  assert (H12 : length e1 = 16%nat /\ length e2 = 16%nat) by done. rewrite !length_app in Hl. unfold NINODES in Hn.
  eapply wp_seq; [apply (wp_iappend _ s3 _ 0 T_DIR [] e1 Him3 eq_refl); [apply (bool_decide_unpack _); by vm_compute|simpl app; unfold MAXBLK, MAXFILE; lia|cbn [insert list_insert app]; rewrite Hbo; lia]|].
  intros [] s4 [own4 Him4]. cbn [insert list_insert app] in Him4.
  eapply wp_seq; [apply (wp_iappend _ s4 _ 0 T_DIR e1 e2 Him4 eq_refl); [apply (bool_decide_unpack _); by vm_compute|rewrite length_app; unfold MAXBLK, MAXFILE; lia|cbn [insert list_insert]; rewrite Hbo; lia]|].
  intros [] s5 [own5 Him5]. cbn [insert list_insert] in Him5.
  eapply wp_seq; [apply (wp_add_files args own5 s5 (e1 ++ e2) [] Him5 Hargs); cbn [length app]; [unfold NINODES; lia|rewrite !length_app; unfold MAXBLK, MAXFILE; lia|rewrite blocks_of_cons; cbn [snd]; lia]|].
  intros [] s6 [own6 Him6]. cbn [app length] in Him6.
  eapply wp_mono; [apply (wp_finish own6 s6 _ _ Him6); rewrite !length_app; unfold MAXBLK, MAXFILE; lia|]. intros [] s7 [E7 H7].
  split; [done|]. by exists own6, (freeblock s6).
Qed.


(** When the entries fill the root directory's last block exactly, its size is
    rounded up over a block that it does not have. *)
Lemma mkfs_root_hole args : args_fit args -> (2 + Z.of_nat (length args)) mod 32 = 0 ->
  wp (mkfs args) (fun _ s => ~ no_holes (img s) (disk_file mkfs_sb (img s) ROOTINO)) mkfs_start.
Proof.
  intros Hfit Hm. eapply wp_mono; [by apply wp_mkfs|]. intros [] s (En & own & fb & Hfi). pose proof (root_data_length args) as Hl.
  pose proof (af_inodes _ Hfit) as Hn. unfold NINODES in Hn.
  destruct Hfi as [_ _ _ _ _ _ (_ & _ & D3 & Hh) _ _]. rewrite disk_file_fino. eapply holds_hole; [exact Hh| |].
  - unfold nblk, MAXBLK, MAXFILE. zlia.
  - unfold ROOTINO. rewrite D3. unfold round_up, nblk. zlia.
Qed.

(** A program and a text of one block and a half, named [_cat] and [README]. *)
Definition demo_args : list arg :=
  [([95; 99; 97; 116], [replicate 512 1; replicate 256 2]); ([82; 69; 65; 68; 77; 69], [[104; 105]])].

