(* ===== verification/Kalloc.v ===== *)
(** * The physical memory allocator (kalloc.c, memlayout.h)

    Free pages are linked through their first word.  [chain] describes the
    list; [kalloc] takes its head, [kfree] puts a page back in front, and
    [kinit1]/[kinit2] build it from a range of addresses. *)

From S2P Require Import Prelude Params CString Spinlock.

(** ** Addresses (mmu.h, memlayout.h) *)

Definition PGSIZE : Z := 4096.
Definition EXTMEM : Z := 0x100000.
Definition PHYSTOP : Z := 0xE000000.
Definition DEVSPACE : Z := 0xFE000000.
Definition KERNLINK : Z := KERNBASE + EXTMEM.

Definition PGROUNDUP (sz : Z) : Z := Z.land (u32 (sz + PGSIZE - 1)) (Z.lnot (PGSIZE - 1)).
Definition PGROUNDDOWN (a : Z) : Z := Z.land a (Z.lnot (PGSIZE - 1)).

Lemma PGROUNDDOWN_eq a : PGROUNDDOWN a = a - a mod 4096.
Proof.
  unfold PGROUNDDOWN, PGSIZE. change (4096 - 1) with (Z.ones 12). rewrite <- Z.ldiff_land.
  rewrite Z.ldiff_ones_r by lia. rewrite Z.shiftr_div_pow2, Z.shiftl_mul_pow2 by lia.
  change (2 ^ 12) with 4096. zlia.
Qed.
Lemma PGROUNDUP_eq a : 0 <= a -> a + 4095 < 4294967296 -> PGROUNDUP a = (a + 4095) / 4096 * 4096.
Proof.
  intros H1 H2. unfold PGROUNDUP. change (Z.land ?x _) with (PGROUNDDOWN x).
  rewrite PGROUNDDOWN_eq, u32_small by (unfold is_u32, PGSIZE; lia). unfold PGSIZE. zlia.
Qed.

(** The addresses of page [p]; two pages are disjoint. *)
Definition in_page (p a : Z) : Prop := p <= a < p + 4096.
Lemma in_page_unique p q a : p mod 4096 = 0 -> q mod 4096 = 0 -> in_page p a -> in_page q a -> p = q.
Proof. unfold in_page. intros. zlia. Qed.

(** ** State and operations *)

Record kmem_st := KmemSt {
  kmach : machine;
  use_lock : bool;
  freelist : Z;               (** the address of the first free page, or 0 *)
  kram : mem }.

Definition kmach_lens : lens kmem_st machine :=
  Lens kmach (fun m s => KmemSt m (use_lock s) (freelist s) (kram s)).
Definition set_use_lock (b : bool) (s : kmem_st) : kmem_st :=
  KmemSt (kmach s) b (freelist s) (kram s).
Definition set_freelist (a : Z) (s : kmem_st) : kmem_st :=
  KmemSt (kmach s) (use_lock s) a (kram s).
Definition upd_kram (f : mem -> mem) : M kmem_st unit :=
  modify (fun s => KmemSt (kmach s) (use_lock s) (freelist s) (f (kram s))).

Definition km_acquire : M kmem_st unit :=
  u ← gets use_lock; when u (lift kmach_lens (acquire Lkmem)).
Definition km_release : M kmem_st unit :=
  u ← gets use_lock; when u (lift kmach_lens (release Lkmem)).

(** The list from [hd] visits the pages [l]. *)
Fixpoint chain (m : mem) (hd : Z) (l : list Z) : Prop :=
  match l with
  | [] => hd = 0
  | p :: l => hd = p /\ chain m (load32 m p) l
  end.

(** The list only depends on its own pages. *)
Lemma chain_ext m m' l : forall hd,
  (forall p a, p ∈ l -> p <= a < p + 4 -> m' a = m a) -> chain m hd l -> chain m' hd l.
Proof.
  induction l as [|p l IH]; intros hd Hm; [done|]. intros [-> Hc]. split; [done|].
  rewrite (load32_ext m' m p) by (intros; apply (Hm p); [set_solver|done]).
  apply IH; [|done]. intros q a Hq. apply Hm. set_solver.
Qed.

Definition pages (p : Z) (n : nat) : list Z := (fun k => p + 4096 * Z.of_nat k) <$> seq 0 n.

Lemma elem_of_pages p n a : a ∈ pages p n <-> exists k, (k < n)%nat /\ a = p + 4096 * Z.of_nat k.
Proof.
  unfold pages. rewrite list_elem_of_fmap. split.
  - intros (k & -> & Hk%elem_of_seq). exists k. split; [lia|done].
  - intros (k & Hk & ->). exists k. split; [done|]. apply elem_of_seq. lia.
Qed.

Lemma pages_S p n : pages p (S n) = p :: pages (p + 4096) n.
Proof.
  unfold pages. cbn [seq fmap list_fmap]. f_equal; [lia|]. rewrite <- fmap_S_seq, <- list_fmap_compose.
  apply list_fmap_ext. intros k j _. simpl. lia.
Qed.

Section kalloc.
(** The linker's symbol [end]. *)
Context (kend : Z).

Definition kfree (v : Z) : M kmem_st unit :=
  if negb (v mod PGSIZE =? 0) || (v <? kend) || (PHYSTOP <=? v2p v) then panic "kfree"
  else
    upd_kram (fun m => memset m v 1 PGSIZE) ;;
    km_acquire ;;
    fl ← gets freelist;
    upd_kram (fun m => store32 m v fl) ;;
    modify (set_freelist v) ;;
    km_release.

Definition kalloc : M kmem_st Z :=
  km_acquire ;;
  r ← gets freelist;
  when (negb (r =? 0)) (m ← gets kram; modify (set_freelist (load32 m r))) ;;
  km_release ;;
  mret r.

Fixpoint freerange_loop (fuel : nat) (p vend : Z) : M kmem_st unit :=
  match fuel with
  | O => mret ()
  | S fuel => if p + PGSIZE <=? vend then kfree p ;; freerange_loop fuel (p + PGSIZE) vend
              else mret ()
  end.
Definition freerange (vstart vend : Z) : M kmem_st unit :=
  let p := PGROUNDUP vstart in
  freerange_loop (S (Z.to_nat ((vend - p) / PGSIZE))) p vend.

Definition kinit1 (vstart vend : Z) : M kmem_st unit :=
  modify (fun s => KmemSt (upd_lock Lkmem (initlock "kmem" (locks (kmach s) Lkmem)) (kmach s))
                     (use_lock s) (freelist s) (kram s)) ;;
  modify (set_use_lock false) ;;
  freerange vstart vend.

Definition kinit2 (vstart vend : Z) : M kmem_st unit :=
  freerange vstart vend ;;
  modify (set_use_lock true).

(** ** The free list *)

(** A page that may be on the list. *)
Definition ram_page (p : Z) : Prop := p mod 4096 = 0 /\ kend <= p < KERNBASE + PHYSTOP.

Record kmem_ok (ie : bool) (L : list lockid) (free : list Z) (s : kmem_st) : Prop := {
  ko_lock : lockstate ie L (kmach s);
  ko_notheld : Lkmem ∉ L;
  ko_depth : Z.of_nat (length L) + 1 < 2147483647;
  ko_chain : chain (kram s) (freelist s) free;
  ko_nodup : NoDup free;
  ko_pages : Forall ram_page free }.

Hypothesis Hend : KERNBASE <= kend.

Lemma ram_page_range p : ram_page p -> KERNBASE <= p /\ p + 4096 <= 4294967296.
Proof. unfold ram_page, PHYSTOP, KERNBASE in *. intros []. zlia. Qed.

(** The locking around the list; [held] is what it holds in between. *)
Definition held_km (u : bool) (L : list lockid) : list lockid := if u then Lkmem :: L else L.
Definition same_kmem (s s' : kmem_st) : Prop :=
  use_lock s' = use_lock s /\ freelist s' = freelist s /\ kram s' = kram s.

Lemma wp_km_acquire ie L s :
  lockstate ie L (kmach s) -> Lkmem ∉ L -> Z.of_nat (length L) + 1 < 2147483647 ->
  wp km_acquire (fun _ s' => lockstate ie (held_km (use_lock s) L) (kmach s') /\ same_kmem s s') s.
Proof.
  intros HL Hn Hd. unfold km_acquire. apply wp_bind, wp_gets.
  destruct (use_lock s) eqn:E; simpl when; [|by apply wp_ret].
  apply wp_lift. eapply wp_mono; [by apply wp_spin_acquire|]. by intros [] m [Hm _].
Qed.

Lemma wp_km_release ie L s :
  lockstate ie (held_km (use_lock s) L) (kmach s) ->
  wp km_release (fun _ s' => lockstate ie L (kmach s') /\ same_kmem s s') s.
Proof.
  intros HL. unfold km_release. apply wp_bind, wp_gets.
  destruct (use_lock s) eqn:E; simpl when; [|by apply wp_ret].
  apply wp_lift. eapply wp_mono; [by apply (wp_spin_release ie [] L)|]. by intros [] m [Hm _].
Qed.

(** ** kfree and kalloc *)

Lemma kfree_panics v s : ~ ram_page v -> 0 <= v < 4294967296 -> panics "kfree" (kfree v) s.
Proof.
  intros Hn Hv. unfold kfree, v2p, PGSIZE.
  destruct (negb (v mod 4096 =? 0) || (v <? kend) || (PHYSTOP <=? u32 (v - KERNBASE))) eqn:E; [apply panics_now|].
  destruct Hn. unfold ram_page, KERNBASE in *. zlia.
Qed.

Lemma wp_kfree ie L free v s :
  kmem_ok ie L free s -> ram_page v -> v ∉ free ->
  wp (kfree v) (fun _ s' => kmem_ok ie L (v :: free) s' /\ use_lock s' = use_lock s /\
    forall a, ~ in_page v a -> kram s' a = kram s a) s.
Proof.
  intros [HL Hn Hd Hc Hnd Hp] Hv Hfree. destruct (ram_page_range v Hv) as [Hv1 Hv2]. destruct (Hv) as [Hal Hr].
  unfold kfree. replace (negb (v mod PGSIZE =? 0) || (v <? kend) || (PHYSTOP <=? v2p v)) with false.
  2:{ unfold v2p, PGSIZE, PHYSTOP, KERNBASE in *. rewrite u32_small by (unfold is_u32; lia). lia. }
  apply wp_bind, wp_modify. set (s1 := KmemSt _ _ _ _).
  assert (H1 : forall a, ~ in_page v a -> kram s1 a = kram s a).
  { intros a Ha. simpl. rewrite (memset_fill (kram s) v 1 PGSIZE) by done. unfold fill, PGSIZE.
    unfold in_page in Ha. replace (_ && _) with false by lia. done. }
  wp_call wp_km_acquire; [done|done|done|]. intros [] s2 (HL2 & Hu2 & Hf2 & Hm2).
  apply wp_bind, wp_gets, wp_bind, wp_modify, wp_bind, wp_modify.
  eapply wp_mono; [apply (wp_km_release ie L); simpl; by rewrite Hu2|].
  intros [] s3 (HL3 & Hu3 & Hf3 & Hm3). simpl in *.
  assert (H3 : forall a, ~ in_page v a -> kram s3 a = kram s a).
  { intros a Ha. rewrite Hm3, Hm2. unfold store32. rewrite store_lookup, length_le_bytes.
    rewrite decide_False by (unfold in_page in Ha; lia). by apply H1. }
  split; [|split; [congruence|done]]. split; try done.
  - rewrite Hf3. split; [done|].
    assert (Hfl : is_u32 (freelist s)).
    { unfold is_u32. destruct free as [|p l]; simpl in Hc; [subst; lia|]. destruct Hc as [-> _].
      apply Forall_cons in Hp as [Hp _]. apply ram_page_range in Hp. unfold KERNBASE in *. lia. }
    assert (El : load32 (kram s3) v = freelist s) by (by rewrite Hm3, load32_store32, Hf2, u32_small).
    rewrite El. eapply chain_ext; [|exact Hc]. intros p a Hin Ha. apply H3. intros Hva. apply Hfree.
    rewrite Forall_forall in Hp. destruct (Hp p Hin) as [Hpm _].
    replace v with p; [done|]. symmetry. eapply in_page_unique; [done|done|exact Hva|]. unfold in_page. lia.
  - by constructor.
  - by constructor.
Qed.

Lemma wp_kalloc ie L free s :
  kmem_ok ie L free s ->
  wp kalloc (fun r s' => kram s' = kram s /\ use_lock s' = use_lock s /\
    match free with
    | [] => r = 0 /\ kmem_ok ie L [] s'
    | p :: free' => r = p /\ kmem_ok ie L free' s'
    end) s.
Proof.
  intros [HL Hn Hd Hc Hnd Hp]. unfold kalloc.
  wp_call wp_km_acquire; [done|done|done|]. intros [] s1 (HL1 & Hu1 & Hf1 & Hm1).
  apply wp_bind, wp_gets. apply wp_bind, wp_when; intros Er.
  - destruct free as [|p free]; [simpl in Hc; rewrite Hf1, Hc in Er; done|]. destruct Hc as [E Hc].
    apply wp_bind, wp_gets, wp_modify. apply wp_bind. eapply wp_mono; [apply (wp_km_release ie L); simpl; by rewrite Hu1|].
    intros [] s2 (HL2 & Hu2 & Hf2 & Hm2). apply wp_ret. simpl in *. split; [congruence|]. split; [congruence|].
    split; [congruence|]. apply NoDup_cons in Hnd as [_ Hnd]. apply Forall_cons in Hp as [_ Hp]. split; try done.
    rewrite Hf2, Hm2, Hm1, Hf1, E. done.
  - destruct free as [|p free].
    2:{ destruct Hc as [E _]. apply Forall_cons in Hp as [Hp _]. apply ram_page_range in Hp.
        rewrite Hf1, E in Er. unfold KERNBASE in *. lia. }
    apply wp_bind. eapply wp_mono; [apply (wp_km_release ie L); by rewrite Hu1|].
    intros [] s2 (HL2 & Hu2 & Hf2 & Hm2). apply wp_ret. simpl in Hc. split; [congruence|]. split; [congruence|].
    split; [congruence|]. split; try done. simpl. congruence.
Qed.

(** ** Initialisation *)

Lemma wp_freerange_loop ie L vend fuel : forall n p free s,
  kmem_ok ie L free s -> p mod 4096 = 0 -> kend <= p -> vend <= KERNBASE + PHYSTOP ->
  p + 4096 * Z.of_nat n <= vend -> vend < p + 4096 * (Z.of_nat n + 1) -> (n < fuel)%nat ->
  (forall q, q ∈ free -> q ∉ pages p n) ->
  wp (freerange_loop fuel p vend) (fun _ s' => kmem_ok ie L (rev (pages p n) ++ free) s' /\
    use_lock s' = use_lock s) s.
Proof.
  induction fuel as [|fuel IH]; intros n p free s Hok Hp Hlo Hhi Hn1 Hn2 Hf Hfree; [lia|]. cbn [freerange_loop].
  destruct n as [|n].
  { replace (p + PGSIZE <=? vend) with false by (unfold PGSIZE; lia). by apply wp_ret. }
  replace (p + PGSIZE <=? vend) with true by (unfold PGSIZE; lia). rewrite pages_S in *.
  assert (Hpage : forall k, (k <= n)%nat -> ram_page (p + 4096 * Z.of_nat k)) by (intros; split; [zlia|lia]).
  wp_call wp_kfree; [done| | |].
  - rewrite <- (Z.add_0_r p). apply (Hpage 0%nat). lia.
  - intros Hin. apply (Hfree p Hin). set_solver.
  - intros [] s1 (Hok1 & Hu1 & _). change (p + PGSIZE) with (p + 4096).
    eapply wp_mono; [apply (IH n (p + 4096) (p :: free) s1 Hok1); try lia; [zlia|]|].
    + intros q [->|Hq]%elem_of_cons; [|intros Hin; apply (Hfree q Hq); set_solver].
      intros (k & Hk & E)%elem_of_pages. lia.
    + intros [] s2 [Hok2 Hu2]. cbn [rev]. rewrite <- app_assoc. simpl. split; [done|congruence].
Qed.

(** The pages that [freerange] frees. *)
Definition range_pages (vstart vend : Z) : list Z :=
  let p := PGROUNDUP vstart in pages p (Z.to_nat ((vend - p) / 4096)).

Lemma wp_freerange ie L vstart vend free s :
  kmem_ok ie L free s -> kend <= vstart -> vend <= KERNBASE + PHYSTOP -> vstart <= vend ->
  PGROUNDUP vstart <= vend -> (forall q, q ∈ free -> q ∉ range_pages vstart vend) ->
  wp (freerange vstart vend) (fun _ s' => kmem_ok ie L (rev (range_pages vstart vend) ++ free) s' /\
    use_lock s' = use_lock s) s.
Proof.
  intros Hok Hlo Hhi Hle Hup Hfree. unfold freerange, range_pages in *.
  assert (Hr : PGROUNDUP vstart mod 4096 = 0 /\ vstart <= PGROUNDUP vstart).
  { unfold KERNBASE, PHYSTOP in *. rewrite PGROUNDUP_eq by lia. split; zlia. }
  destruct Hr as [Hm Hge]. change PGSIZE with 4096.
  apply wp_freerange_loop; try done; lia || zlia.
Qed.

(** ** The allocator as its clients see it

    [out] are the pages handed out and not freed yet. *)
Inductive kop := KAlloc | KFree (v : Z).

Definition kop_spec (o : kop) (a : list Z * list Z) : option (list Z * list Z) :=
  let (out, free) := a in
  match o with
  | KAlloc => match free with [] => Some (out, []) | p :: free => Some (p :: out, free) end
  | KFree v => if decide (v ∈ out) then Some (filter (fun p => p <> v) out, v :: free) else None
  end.
Fixpoint kops_spec (os : list kop) (a : list Z * list Z) : option (list Z * list Z) :=
  match os with
  | [] => Some a
  | o :: os => match kop_spec o a with Some a => kops_spec os a | None => None end
  end.

Definition kop_run (o : kop) : M kmem_st unit :=
  match o with KAlloc => kalloc ;; mret () | KFree v => kfree v end.
Fixpoint kops_run (os : list kop) : M kmem_st unit :=
  match os with [] => mret () | o :: os => kop_run o ;; kops_run os end.

Definition kabs (ie : bool) (L : list lockid) (a : list Z * list Z) (s : kmem_st) : Prop :=
  kmem_ok ie L (snd a) s /\ NoDup (fst a ++ snd a) /\ Forall ram_page (fst a).

Lemma wp_kop ie L o a a' s : kabs ie L a s -> kop_spec o a = Some a' -> wp (kop_run o) (fun _ s' => kabs ie L a' s') s.
Proof.
  destruct a as [out free]. intros (Hok & Hnd & Hp) Hs. simpl in *. destruct o as [|v]; simpl in *.
  - wp_call wp_kalloc; [done|]. intros r s1 (_ & _ & Hr). apply wp_ret.
    destruct free as [|p free]; injection Hs as <-; destruct Hr as [-> Hok1]; [done|]. split; [done|]. simpl. split.
    + by rewrite Permutation_middle.
    + constructor; [|done]. apply (Forall_inv (ko_pages _ _ _ _ Hok)).
  - case_decide as Hv; [|done]. injection Hs as <-. rewrite Forall_forall in Hp.
    apply NoDup_app in Hnd as (Hnd1 & Hdis & Hnd2).
    eapply wp_mono; [apply (wp_kfree ie L free v); [done|by apply Hp|by apply Hdis]|].
    intros [] s1 (Hok1 & _ & _). split; [done|]. simpl. split.
    + apply NoDup_app. split; [by apply NoDup_filter|]. split; [|apply NoDup_cons; split; [by apply Hdis|done]].
      intros q [Hne Hq]%list_elem_of_filter [->|Hin]%elem_of_cons; [done|]. by apply (Hdis q).
    + apply Forall_forall. intros q [_ Hq]%list_elem_of_filter. by apply Hp.
Qed.

Lemma wp_kops ie L os : forall a a' s,
  kabs ie L a s -> kops_spec os a = Some a' -> wp (kops_run os) (fun _ s' => kabs ie L a' s') s.
Proof.
  induction os as [|o os IH]; intros a a' s Ha Hs; simpl in *; [injection Hs as <-; by apply wp_ret|].
  destruct (kop_spec o a) as [a1|] eqn:E; [|done]. wp_call wp_kop; [done|done|]. intros [] s1 H1. by eapply IH.
Qed.
End kalloc.


(** [kinit1] and [kinit2] put exactly the whole pages of their ranges on
    the free list, each once, and switch the lock on. *)
Theorem kinit_free_list kend ie s a b c d :
  KERNBASE <= kend -> lockstate ie [] (kmach s) -> freelist s = 0 ->
  kend <= a -> a <= b -> PGROUNDUP a <= b -> b <= c -> PGROUNDUP c <= d -> c <= d -> d <= KERNBASE + PHYSTOP ->
  wp (kinit1 kend a b ;; kinit2 kend c d) (fun _ s' => use_lock s' = true /\
    kmem_ok kend ie [] (rev (range_pages c d) ++ rev (range_pages a b)) s') s.
Proof.
  intros Hend HL Hfl Ha Hab Hpa Hbc Hpc Hcd Hd. unfold kinit1, kinit2. rewrite !bind_assoc_wp.
  apply wp_bind, wp_modify. rewrite bind_assoc_wp. apply wp_bind, wp_modify. set (s1 := set_use_lock _ _).
  assert (H1 : kmem_ok kend ie [] [] s1).
  { split; [|by apply not_elem_of_nil|simpl; lia|done|constructor|constructor].
    by apply lockstate_initlock; [|apply not_elem_of_nil]. }
  assert (Hrp : forall x y p, kend <= x -> x <= y -> y <= KERNBASE + PHYSTOP -> PGROUNDUP x <= y -> p ∈ range_pages x y -> x <= p < y).
  { intros x y p Hx Hxy' Hy Hxy (k & Hk & ->)%elem_of_pages. unfold KERNBASE, PHYSTOP in *.
    assert (Hup : x <= PGROUNDUP x) by (rewrite PGROUNDUP_eq by lia; zlia).
    assert (Hk' : Z.of_nat k < (y - PGROUNDUP x) / 4096) by lia. split; [lia|].
    assert (4096 * ((y - PGROUNDUP x) / 4096) <= y - PGROUNDUP x) by (apply Z.mul_div_le; lia). lia. }
  wp_call (wp_freerange kend Hend ie [] a b []); [done|done|lia|lia|lia|by intros q ?%elem_of_nil|].
  intros [] s2 [H2 Hu2]. wp_call (wp_freerange kend Hend ie [] c d); [done|lia|done|done|done| |].
  { intros q Hq Hin. rewrite app_nil_r in Hq. rewrite list_elem_of_In, <- in_rev, <- list_elem_of_In in Hq.
    apply Hrp in Hq; [|lia..]. apply Hrp in Hin; lia. }
  intros [] s3 [H3 Hu3]. apply wp_modify. split; [done|]. rewrite app_nil_r in H3. by destruct H3; split.
Qed.

(** Two free pages. *)
Definition demo_kend : Z := 0x80200000.
Definition demo_ram : mem := store32 (store32 (fun _ => 0) 0x80200000 0x80201000) 0x80201000 0.
Definition demo_kmem : kmem_st := KmemSt boot_machine true 0x80200000 demo_ram.

Lemma demo_kmem_ok : kmem_ok demo_kend true [] [0x80200000; 0x80201000] demo_kmem.
Proof.
  split; [apply boot_lockstate|by apply not_elem_of_nil|simpl; lia|by vm_compute| |].
  - by apply (bool_decide_unpack _); vm_compute.
  - repeat constructor; by vm_compute.
Qed.


Lemma kinit_free_list_witness :
  wp (kinit1 demo_kend 0x80200001 0x80203000 ;; kinit2 demo_kend 0x80203000 0x80204000)
    (fun _ s' => use_lock s' = true /\ kmem_ok demo_kend true [] [0x80203000; 0x80202000; 0x80201000] s')
    (KmemSt boot_machine false 0 (fun _ => 0)).
Proof.
  apply (kinit_free_list demo_kend true _ 0x80200001 0x80203000 0x80203000 0x80204000); try (by vm_compute).
  apply boot_lockstate.
Defined.
