(* ===== verification/Vm.v ===== *)
(** * Page tables (vm.c, mmu.h)

    Two-level page tables in kernel memory.  [mmu] is the translation that
    the processor performs; the routines of vm.c build and take apart the
    tables it reads.  Pages come from the allocator of [Kalloc]. *)

From S2P Require Import Prelude Params CString Spinlock Kalloc.

(** ** Page table entries (mmu.h) *)

Definition PTE_P : Z := 0x001.
Definition PTE_W : Z := 0x002.
Definition PTE_U : Z := 0x004.
Definition NPDENTRIES : Z := 1024.
Definition NPTENTRIES : Z := 1024.
Definition PDX (va : Z) : Z := Z.land (Z.shiftr va 22) 0x3FF.
Definition PTX (va : Z) : Z := Z.land (Z.shiftr va 12) 0x3FF.
Definition PTE_ADDR (pte : Z) : Z := Z.land pte (Z.lnot 0xFFF).
Definition PTE_FLAGS (pte : Z) : Z := Z.land pte 0xFFF.

(** ** Operations *)

Section vm.
(** The linker's symbols [end] and [data]. *)
Context (kend kdata : Z).

(** The address of the entry for [va], or 0. *)
Definition walkpgdir (pgdir va : Z) (alloc : bool) : M kmem_st Z :=
  let pde := pgdir + 4 * PDX va in
  m ← gets kram;
  let e := load32 m pde in
  if has e PTE_P then mret (p2v (PTE_ADDR e) + 4 * PTX va)
  else if negb alloc then mret 0
  else
    pgtab ← kalloc;
    if pgtab =? 0 then mret 0
    else
      upd_kram (fun m => memset m pgtab 0 PGSIZE) ;;
      upd_kram (fun m => store32 m pde (Z.lor (Z.lor (Z.lor (v2p pgtab) PTE_P) PTE_W) PTE_U)) ;;
      mret (pgtab + 4 * PTX va).

Fixpoint mappages_loop (fuel : nat) (pgdir a last pa perm : Z) : M kmem_st Z :=
  match fuel with
  | O => panic "mappages: fuel"
  | S fuel =>
      pte ← walkpgdir pgdir a true;
      if pte =? 0 then mret (-1)
      else
        m ← gets kram;
        if has (load32 m pte) PTE_P then panic "remap"
        else
          upd_kram (fun m => store32 m pte (Z.lor (Z.lor pa perm) PTE_P)) ;;
          if a =? last then mret 0
          else mappages_loop fuel pgdir (u32 (a + PGSIZE)) last (u32 (pa + PGSIZE)) perm
  end.
Definition mappages (pgdir va size pa perm : Z) : M kmem_st Z :=
  let a := PGROUNDDOWN va in
  let last := PGROUNDDOWN (u32 (va + size - 1)) in
  mappages_loop (S (Z.to_nat (u32 (last - a) / PGSIZE))) pgdir a last pa perm.

(** [struct kmap] and the table [kmap]. *)
Record kmap_entry := Kmap { km_virt : Z; km_start : Z; km_end : Z; km_perm : Z }.
Definition kmap : list kmap_entry :=
  [Kmap KERNBASE 0 EXTMEM PTE_W;
   Kmap KERNLINK (v2p KERNLINK) (v2p kdata) 0;
   Kmap kdata (v2p kdata) PHYSTOP PTE_W;
   Kmap DEVSPACE DEVSPACE 0 PTE_W].

Fixpoint setupkvm_loop (l : list kmap_entry) (pgdir : Z) : M kmem_st Z :=
  match l with
  | [] => mret pgdir
  | k :: l =>
      r ← mappages pgdir (km_virt k) (u32 (km_end k - km_start k)) (km_start k) (km_perm k);
      if r <? 0 then mret 0 else setupkvm_loop l pgdir
  end.
Definition setupkvm : M kmem_st Z :=
  pgdir ← kalloc;
  if pgdir =? 0 then mret 0
  else
    upd_kram (fun m => memset m pgdir 0 PGSIZE) ;;
    if DEVSPACE <? p2v PHYSTOP then panic "PHYSTOP too high"
    else setupkvm_loop kmap pgdir.

Definition inituvm (pgdir : Z) (init : list Z) : M kmem_st unit :=
  if PGSIZE <=? Z.of_nat (length init) then panic "inituvm: more than a page"
  else
    p ← kalloc;
    upd_kram (fun m => memset m p 0 PGSIZE) ;;
    mappages pgdir 0 PGSIZE (v2p p) (Z.lor PTE_W PTE_U) ;;
    upd_kram (fun m => store m p init).

Fixpoint deallocuvm_loop (fuel : nat) (pgdir a oldsz : Z) : M kmem_st unit :=
  match fuel with
  | O => mret ()
  | S fuel =>
      if negb (a <? oldsz) then mret ()
      else
        pte ← walkpgdir pgdir a false;
        if pte =? 0 then deallocuvm_loop fuel pgdir (u32 (a + (NPTENTRIES - 1) * PGSIZE + PGSIZE)) oldsz
        else
          m ← gets kram;
          let e := load32 m pte in
          when (has e PTE_P)
            (let pa := PTE_ADDR e in
             if pa =? 0 then panic "kfree"
             else kfree kend (p2v pa) ;; upd_kram (fun m => store32 m pte 0)) ;;
          deallocuvm_loop fuel pgdir (u32 (a + PGSIZE)) oldsz
  end.
Definition deallocuvm (pgdir oldsz newsz : Z) : M kmem_st Z :=
  if oldsz <=? newsz then mret oldsz
  else
    let a := PGROUNDUP newsz in
    deallocuvm_loop (S (Z.to_nat ((oldsz - a) / PGSIZE + 1))) pgdir a oldsz ;;
    mret newsz.

(** [cprintf] writes to the console, which is not part of this state. *)
Fixpoint allocuvm_loop (fuel : nat) (pgdir a oldsz newsz : Z) : M kmem_st Z :=
  match fuel with
  | O => mret newsz
  | S fuel =>
      if negb (a <? newsz) then mret newsz
      else
        p ← kalloc;
        if p =? 0 then deallocuvm pgdir newsz oldsz ;; mret 0
        else
          upd_kram (fun m => memset m p 0 PGSIZE) ;;
          mappages pgdir a PGSIZE (v2p p) (Z.lor PTE_W PTE_U) ;;
          allocuvm_loop fuel pgdir (u32 (a + PGSIZE)) oldsz newsz
  end.
Definition allocuvm (pgdir oldsz newsz : Z) : M kmem_st Z :=
  if KERNBASE <=? newsz then mret 0
  else if newsz <? oldsz then mret oldsz
  else
    let a := PGROUNDUP oldsz in
    allocuvm_loop (S (Z.to_nat ((newsz - a) / PGSIZE + 1))) pgdir a oldsz newsz.

Fixpoint freevm_loop (n : nat) (pgdir i : Z) : M kmem_st unit :=
  match n with
  | O => mret ()
  | S n =>
      m ← gets kram;
      let e := load32 m (pgdir + 4 * i) in
      when (has e PTE_P) (kfree kend (p2v (PTE_ADDR e))) ;;
      freevm_loop n pgdir (i + 1)
  end.
Definition freevm (pgdir : Z) : M kmem_st unit :=
  if pgdir =? 0 then panic "freevm: no pgdir"
  else
    deallocuvm pgdir KERNBASE 0 ;;
    freevm_loop (Z.to_nat NPDENTRIES) pgdir 0 ;;
    kfree kend pgdir.

Definition clearpteu (pgdir uva : Z) : M kmem_st unit :=
  pte ← walkpgdir pgdir uva false;
  if pte =? 0 then panic "clearpteu"
  else upd_kram (fun m => store32 m pte (Z.land (load32 m pte) (Z.lnot PTE_U))).

(** The loop of [copyuvm]; [false] is [goto bad]. *)
Fixpoint copyuvm_loop (fuel : nat) (pgdir d i sz : Z) : M kmem_st bool :=
  match fuel with
  | O => mret true
  | S fuel =>
      if negb (i <? sz) then mret true
      else
        pte ← walkpgdir pgdir i false;
        if pte =? 0 then panic "copyuvm: pte should exist"
        else
          m ← gets kram;
          let e := load32 m pte in
          if negb (has e PTE_P) then panic "copyuvm: page not present"
          else
            p ← kalloc;
            if p =? 0 then mret false
            else
              upd_kram (fun m => memmove m p (p2v (PTE_ADDR e)) (Z.to_nat PGSIZE)) ;;
              r ← mappages d i PGSIZE (v2p p) (PTE_FLAGS e);
              if r <? 0 then mret false
              else copyuvm_loop fuel pgdir d (u32 (i + PGSIZE)) sz
  end.
Definition copyuvm (pgdir sz : Z) : M kmem_st Z :=
  d ← setupkvm;
  if d =? 0 then mret 0
  else
    ok ← copyuvm_loop (S (Z.to_nat (sz / PGSIZE + 1))) pgdir d 0 sz;
    if (ok : bool) then mret d else freevm d ;; mret 0.

(** The code dereferences the result of [walkpgdir] without a test for null. *)
Definition uva2ka (pgdir uva : Z) : M kmem_st Z :=
  pte ← walkpgdir pgdir uva false;
  if pte =? 0 then panic "UB: null pte"
  else
    m ← gets kram;
    let e := load32 m pte in
    if negb (has e PTE_P) then mret 0
    else if negb (has e PTE_U) then mret 0
    else mret (p2v (PTE_ADDR e)).

(** Copies the bytes [buf] to the user address [va]. *)
Fixpoint copyout_loop (fuel : nat) (pgdir va : Z) (buf : list Z) : M kmem_st Z :=
  match fuel with
  | O => mret 0
  | S fuel =>
      if bool_decide (buf = []) then mret 0
      else
        let va0 := PGROUNDDOWN va in
        pa0 ← uva2ka pgdir va0;
        if pa0 =? 0 then mret (-1)
        else
          let n := Z.to_nat (PGSIZE - (va - va0)) in
          upd_kram (fun m => store m (pa0 + (va - va0)) (take n buf)) ;;
          copyout_loop fuel pgdir (u32 (va0 + PGSIZE)) (drop n buf)
  end.
Definition copyout (pgdir va : Z) (p : list Z) : M kmem_st Z :=
  copyout_loop (length p / Z.to_nat PGSIZE + 3) pgdir va p.
End vm.
