(* ===== verification/VmMap.v ===== *)
(** * Page tables as maps (vm.c: walkpgdir, mappages)

    [mapped] reads a page table as a function from virtual page numbers to
    entries; [mmu_mapped] relates it to the processor's walk.  [walkpgdir]
    and [mappages] extend that function and keep everything else. *)

From S2P Require Import Prelude Params CString Spinlock Kalloc Vm.

(** ** Bits of addresses and entries *)

Lemma PDX_eq va : 0 <= va < 4294967296 -> PDX va = va / 4194304.
Proof.
  intros Hv. unfold PDX. change 0x3FF with (Z.ones 10). rewrite Z.land_ones, Z.shiftr_div_pow2 by lia.
  change (2 ^ 10) with 1024. change (2 ^ 22) with 4194304. zlia.
Qed.
Lemma PTX_eq va : PTX va = va / 4096 mod 1024.
Proof.
  unfold PTX. change 0x3FF with (Z.ones 10). rewrite Z.land_ones, Z.shiftr_div_pow2 by lia. done.
Qed.
Lemma PTE_ADDR_eq e : PTE_ADDR e = e - e mod 4096.
Proof. apply PGROUNDDOWN_eq. Qed.
Lemma PTE_FLAGS_eq e : PTE_FLAGS e = e mod 4096.
Proof. unfold PTE_FLAGS. change 0xFFF with (Z.ones 12). by rewrite Z.land_ones by lia. Qed.

(** A page address and flags below 4096 do not overlap. *)
Lemma lor_flags p f : p mod 4096 = 0 -> 0 <= f < 4096 -> Z.lor p f = p + f.
Proof.
  intros Hp Hf. replace p with (Z.shiftl (p / 4096) 12) at 1 by (rewrite Z.shiftl_mul_pow2 by lia; change (2 ^ 12) with 4096; zlia).
  rewrite lor_shiftl by lia. change (2 ^ 12) with 4096. zlia.
Qed.

Lemma has_P_mod e : has e PTE_P = Z.odd e.
Proof.
  unfold has, PTE_P. change 0x001 with (Z.ones 1). rewrite Z.land_ones by lia. change (2 ^ 1) with 2.
  rewrite Zmod_odd. by destruct (Z.odd e).
Qed.

(** ** The tables of an address space *)

(** The walk of the processor: the entry for [va], when present. *)
Definition mmu (m : mem) (pgdir va : Z) : option Z :=
  let pde := load32 m (pgdir + 4 * PDX va) in
  if negb (has pde PTE_P) then None
  else let pte := load32 m (p2v (PTE_ADDR pde) + 4 * PTX va) in
       if has pte PTE_P then Some pte else None.

(** [tabs] are the second-level tables by directory index. *)
Definition pde_of (t : Z) : Z := Z.lor (Z.lor (Z.lor (v2p t) PTE_P) PTE_W) PTE_U.
Definition table_page (pgdir : Z) (tabs : gmap Z Z) (p : Z) : Prop :=
  p = pgdir \/ exists i, tabs !! i = Some p.

Record pt_ok (kend : Z) (m : mem) (pgdir : Z) (tabs : gmap Z Z) : Prop := {
  pt_dir : ram_page kend pgdir;
  pt_tab : forall i t, tabs !! i = Some t -> 0 <= i < 1024 /\ ram_page kend t /\ t <> pgdir;
  pt_inj : forall i j t, tabs !! i = Some t -> tabs !! j = Some t -> i = j;
  pt_pde : forall i, 0 <= i < 1024 ->
    match tabs !! i with
    | Some t => load32 m (pgdir + 4 * i) = pde_of t
    | None => has (load32 m (pgdir + 4 * i)) PTE_P = false
    end }.

(** The entry of virtual page [n], when present. *)
Definition mapped (m : mem) (tabs : gmap Z Z) (n : Z) : option Z :=
  match tabs !! (n / 1024) with
  | Some t => let e := load32 m (t + 4 * (n mod 1024)) in if has e PTE_P then Some e else None
  | None => None
  end.

Section tables.
Context (kend : Z).
Hypothesis Hend : KERNBASE <= kend.
Notation pt_ok := (pt_ok kend).
Notation ram_page := (ram_page kend).

Lemma pde_of_eq t : ram_page t -> pde_of t = t - KERNBASE + 7 /\ has (pde_of t) PTE_P = true /\ p2v (PTE_ADDR (pde_of t)) = t.
Proof.
  intros Ht. destruct (ram_page_range kend Hend t Ht) as [H1 H2]. destruct Ht as [Hm _].
  assert (E : pde_of t = t - KERNBASE + 7).
  { unfold pde_of, v2p, PTE_P, PTE_W, PTE_U. rewrite u32_small by (unfold is_u32, KERNBASE in *; lia).
    rewrite <- !Z.lor_assoc. apply lor_flags; [unfold KERNBASE; zlia|vm_compute; done]. }
  split; [done|]. rewrite E. split.
  - rewrite has_P_mod. replace (t - KERNBASE + 7) with (2 * ((t - KERNBASE) / 2 + 3) + 1)
      by (unfold KERNBASE in *; zlia). apply Z.odd_spec. by eexists.
  - rewrite PTE_ADDR_eq. unfold p2v, KERNBASE in *. rewrite u32_small by (unfold is_u32; zlia). zlia.
Qed.

(** The hardware's walk sees the entries of the tables. *)
Lemma mmu_mapped m pgdir tabs va : pt_ok m pgdir tabs -> 0 <= va < 4294967296 ->
  mmu m pgdir va = mapped m tabs (va / 4096).
Proof.
  intros [Hd Ht Hi Hp] Hva. unfold mmu, mapped. rewrite PDX_eq, PTX_eq by done.
  assert (E : va / 4096 / 1024 = va / 4194304) by zlia. rewrite E.
  specialize (Hp (va / 4194304) ltac:(zlia)). destruct (tabs !! (va / 4194304)) as [t|] eqn:Et.
  - destruct (Ht _ _ Et) as (_ & Hpage & _). destruct (pde_of_eq t Hpage) as (_ & H1 & H2).
    by rewrite Hp, H1, H2.
  - by rewrite Hp.
Qed.

(** Tables and entries only depend on the table pages. *)
Lemma pt_ok_ext m m' pgdir tabs : (forall a, in_page pgdir a -> m' a = m a) -> pt_ok m pgdir tabs -> pt_ok m' pgdir tabs.
Proof.
  intros Hm [Hd Ht Hi Hp]. split; try done. intros i Hir. specialize (Hp i Hir).
  rewrite (load32_ext m' m); [done|]. intros a Ha. apply Hm. unfold in_page. lia.
Qed.
Lemma mapped_ext m m' pgdir tabs n : pt_ok m pgdir tabs ->
  (forall p a, table_page pgdir tabs p -> in_page p a -> m' a = m a) -> mapped m' tabs n = mapped m tabs n.
Proof.
  intros _ Hm. unfold mapped. destruct (tabs !! (n / 1024)) as [t|] eqn:E; [|done].
  rewrite (load32_ext m' m); [done|]. intros a Ha. apply (Hm t); [right; by eexists|]. unfold in_page.
  pose proof (Z.mod_pos_bound n 1024). lia.
Qed.

(** ** walkpgdir *)

Lemma wp_walk_found m pgdir tabs va alloc s :
  kram s = m -> pt_ok m pgdir tabs -> 0 <= va < 4294967296 -> is_Some (tabs !! PDX va) \/ alloc = false ->
  wp (walkpgdir pgdir va alloc) (fun r s' => s' = s /\
    r = match tabs !! PDX va with Some t => t + 4 * PTX va | None => 0 end) s.
Proof.
  intros <- [Hd Ht Hi Hp] Hva Hor. unfold walkpgdir. cbv zeta. apply wp_bind, wp_gets.
  assert (Hr : 0 <= PDX va < 1024) by (rewrite PDX_eq by done; zlia). specialize (Hp _ Hr).
  destruct (tabs !! PDX va) as [t|] eqn:Et.
  - destruct (Ht _ _ Et) as (_ & Hpage & _). destruct (pde_of_eq t Hpage) as (_ & H1 & H2).
    rewrite Hp, H1, H2. by apply wp_ret.
  - rewrite Hp. destruct Hor as [[? ?]| ->]; [done|]. by apply wp_ret.
Qed.

(** The allocator and the tables of [pgdir] do not share pages. *)
Record vs (ie : bool) (L : list lockid) (free : list Z) (pgdir : Z) (tabs : gmap Z Z) (s : kmem_st) : Prop := {
  vs_kmem : kmem_ok kend ie L free s;
  vs_pt : pt_ok (kram s) pgdir tabs;
  vs_sep : forall p, p ∈ free -> ~ table_page pgdir tabs p }.

Record grows (pgdir : Z) (free : list Z) (tabs : gmap Z Z) (m : mem)
    (free' : list Z) (tabs' : gmap Z Z) (m' : mem) : Prop := {
  gr_taken : exists taken, free = taken ++ free';
  gr_sub : tabs ⊆ tabs';
  gr_new : forall i t, tabs' !! i = Some t -> tabs !! i = Some t \/ t ∈ free /\ t ∉ free';
  gr_mem : forall a, (forall p, table_page pgdir tabs' p -> ~ in_page p a) -> m' a = m a;
  gr_count : (size tabs' + length free' = size tabs + length free)%nat }.

Definition with_ram (m : mem) (s : kmem_st) : kmem_st := KmemSt (kmach s) (use_lock s) (freelist s) m.

Lemma kmem_ok_ram ie L free m s : kmem_ok kend ie L free s ->
  (forall p a, p ∈ free -> in_page p a -> m a = kram s a) -> kmem_ok kend ie L free (with_ram m s).
Proof.
  intros [] Hm. split; try done. simpl. eapply chain_ext; [|done].
  intros p a Hp Ha. apply (Hm p); [done|]. unfold in_page. lia.
Qed.

Lemma table_page_ram m pgdir tabs p : pt_ok m pgdir tabs -> table_page pgdir tabs p -> ram_page p.
Proof. intros [Hd Ht _ _] [->|[i Hi]]; [done|]. by apply (Ht i). Qed.

Lemma table_page_aligned m pgdir tabs p : pt_ok m pgdir tabs -> table_page pgdir tabs p -> p mod 4096 = 0.
Proof. intros Hp Ht. eapply table_page_ram in Ht; [|done]. apply Ht. Qed.

(** A free page and a table page share no address. *)
Lemma vs_apart ie L free pgdir tabs s p q a : vs ie L free pgdir tabs s -> p ∈ free -> table_page pgdir tabs q ->
  in_page p a -> ~ in_page q a.
Proof.
  intros [Hk Hp Hs] Hin Hq Ha Ha'. apply (Hs p Hin).
  pose proof (ko_pages _ _ _ _ _ Hk) as Hpages. rewrite Forall_forall in Hpages.
  rewrite (in_page_unique p q a); [done|by apply Hpages| |done|done]. by eapply table_page_aligned.
Qed.

(** Storing an entry of a table. *)
Lemma set_entry ie L free pgdir tabs s n t v :
  vs ie L free pgdir tabs s -> 0 <= n -> tabs !! (n / 1024) = Some t ->
  let m' := store32 (kram s) (t + 4 * (n mod 1024)) v in
  vs ie L free pgdir tabs (with_ram m' s) /\
  (forall n', 0 <= n' -> n' <> n -> mapped m' tabs n' = mapped (kram s) tabs n') /\
  (is_u32 v -> mapped m' tabs n = if has v PTE_P then Some v else None) /\
  grows pgdir free tabs (kram s) free tabs m'.
Proof.
  intros Hvs Hn Ht m'. pose proof Hvs as [Hk Hp Hsep]. pose proof (Z.mod_pos_bound n 1024) as Hmod.
  assert (Hin : forall a, t + 4 * (n mod 1024) <= a < t + 4 * (n mod 1024) + 4 -> in_page t a) by (unfold in_page; lia).
  assert (Htp : table_page pgdir tabs t) by (right; by eexists).
  assert (Hout : forall a, ~ in_page t a -> m' a = kram s a).
  { intros a Ha. apply store32_other. destruct (decide (t + 4 * (n mod 1024) <= a < t + 4 * (n mod 1024) + 4)); [|lia].
    destruct Ha. auto. }
  destruct (pt_tab _ _ _ _ Hp _ _ Ht) as (_ & Hpage & Hne).
  assert (Halign : forall q, table_page pgdir tabs q -> q <> t -> forall a, in_page q a -> ~ in_page t a).
  { intros q Hq Hqt a Ha Ha'. apply Hqt. eapply in_page_unique; [by eapply table_page_aligned|apply Hpage|done|done]. }
  split_and!.
  - split; [apply kmem_ok_ram; [done|]|apply (pt_ok_ext (kram s)); [|done]|done].
    + intros p a Hpf Ha. apply Hout. by eapply vs_apart.
    + intros a Ha. apply Hout. apply (Halign pgdir); [by left|congruence|done].
  - intros n' Hn' Hnn. unfold mapped. destruct (tabs !! (n' / 1024)) as [t'|] eqn:Et'; [|done].
    pose proof (Z.mod_pos_bound n' 1024) as Hmod'. unfold m'.
    destruct (decide (t' = t)) as [->|Htt].
    + assert (n' / 1024 = n / 1024) by (by eapply (pt_inj _ _ _ _ Hp)). rewrite load32_store32_ne; [done|]. zlia.
    + rewrite (load32_ext _ (kram s)); [done|]. intros a Ha. apply Hout.
      apply (Halign t'); [right; by eexists|done|unfold in_page; lia].
  - intros Hv. unfold mapped. rewrite Ht. unfold m'. by rewrite load32_store32, u32_small.
  - split; [by exists []|done|by left| |done]. intros a Ha. apply Hout. by apply Ha.
Qed.

(** ** A new table *)

Lemma load32_zero m a : (forall b, a <= b < a + 4 -> m b = 0) -> load32 m a = 0.
Proof.
  intros Hm. rewrite (load32_ext m (fun _ => 0)) by done. done.
Qed.

(** The page [p] leaves the free list, is cleared, and becomes the table of
    directory entry [i]. *)
Section new_table.
Context (ie : bool) (L : list lockid) (free : list Z) (pgdir : Z) (tabs : gmap Z Z) (p i : Z) (s : kmem_st).
Hypothesis Hvs : vs ie L (p :: free) pgdir tabs s.
Hypothesis Hi : 0 <= i < 1024.
Hypothesis Hnone : tabs !! i = None.

Definition cleared : mem := memset (kram s) p 0 PGSIZE.
Definition linked_table : mem := store32 cleared (pgdir + 4 * i) (pde_of p).

Lemma new_page : ram_page p /\ p ∉ free /\ forall q, table_page pgdir tabs q -> q <> p.
Proof.
  destruct Hvs as [Hk _ Hsep]. pose proof (ko_nodup _ _ _ _ _ Hk) as [Hnin _]%NoDup_cons.
  split; [apply (Forall_inv (ko_pages _ _ _ _ _ Hk))|]. split; [done|].
  intros q Hq ->. apply (Hsep p); [by apply elem_of_cons; left|done].
Qed.

Lemma cleared_at a : cleared a = if decide (in_page p a) then 0 else kram s a.
Proof.
  unfold cleared. rewrite (memset_fill _ p 0 PGSIZE) by done. unfold fill, PGSIZE.
  case_decide as Ha; unfold in_page in Ha; [by replace (_ && _) with true by lia|by replace (_ && _) with false by lia].
Qed.

Lemma linked_table_out a : ~ in_page pgdir a -> linked_table a = cleared a.
Proof.
  intros Ha. apply store32_other.
  destruct (decide (pgdir + 4 * i <= a < pgdir + 4 * i + 4)); [|lia]. destruct Ha. unfold in_page. lia.
Qed.

Lemma table_apart q a : table_page pgdir tabs q -> in_page q a -> ~ in_page p a.
Proof.
  intros Hq Ha Ha'. destruct new_page as (Hpg & _ & Hnp). apply (Hnp q Hq).
  eapply in_page_unique; [|apply Hpg|done|done]. eapply table_page_aligned; [apply Hvs|done].
Qed.

Lemma linked_table_keeps q a : table_page pgdir tabs q -> q <> pgdir -> in_page q a -> linked_table a = kram s a.
Proof.
  intros Hq Hqd Ha. rewrite linked_table_out, cleared_at, decide_False; [done|by eapply table_apart|].
  intros Ha'. apply Hqd. eapply in_page_unique; [by eapply table_page_aligned; [apply Hvs|]|apply Hvs|done|done].
Qed.

Lemma new_table_free q a : q ∈ free -> in_page q a -> linked_table a = kram s a.
Proof.
  intros Hq Ha. destruct new_page as (Hpg & Hnin & _). assert (Hqf : q ∈ p :: free) by (by apply elem_of_cons; right).
  rewrite linked_table_out, cleared_at, decide_False; [done| |].
  - pose proof (ko_pages _ _ _ _ _ (vs_kmem _ _ _ _ _ _ Hvs)) as Hpages. rewrite Forall_forall in Hpages.
    intros Ha'. apply Hnin. replace p with q; [done|]. eapply in_page_unique; [by apply Hpages|apply Hpg|done|done].
  - eapply vs_apart; [done|done|by left|done].
Qed.

Lemma new_table_pt : pt_ok linked_table pgdir (<[i := p]> tabs).
Proof.
  destruct Hvs as [Hk Hp Hsep]. destruct new_page as (Hpg & Hnin & Hnp). split; [apply Hp| | |].
  - intros j t [[<- <-]|[_ Hj]]%lookup_insert_Some; [|by apply Hp].
    split; [done|]. split; [done|]. symmetry. apply Hnp. by left.
  - intros j k t [[<- <-]|[Hj1 Hj]]%lookup_insert_Some [[<- Ht]|[Hk1 Hk']]%lookup_insert_Some; try done.
    + exfalso. apply (Hnp p); [right; by eexists|done].
    + subst t. exfalso. apply (Hnp p); [right; by eexists|done].
    + by eapply (pt_inj _ _ _ _ Hp).
  - intros j Hj. unfold linked_table. destruct (decide (j = i)) as [->|Hne].
    + rewrite lookup_insert_eq, load32_store32. apply u32_small. destruct (pde_of_eq p Hpg) as (-> & _).
      apply (ram_page_range kend Hend) in Hpg as Hr. unfold is_u32, KERNBASE in *. destruct Hpg. zlia.
    + rewrite lookup_insert_ne by done. rewrite load32_store32_ne by lia.
      rewrite (load32_ext cleared (kram s)); [by apply Hp|]. intros a Ha. rewrite cleared_at, decide_False; [done|].
      apply (table_apart pgdir); [by left|unfold in_page; lia].
Qed.

Lemma new_table_vs s1 : kmem_ok kend ie L free s1 -> kram s1 = kram s ->
  vs ie L free pgdir (<[i := p]> tabs) (with_ram linked_table s1).
Proof.
  intros Hk1 Em. destruct new_page as (_ & Hnin & _). split; [|apply new_table_pt|].
  - apply kmem_ok_ram; [done|]. rewrite Em. apply new_table_free.
  - intros q Hq [->|[j Hj]]; [by apply (vs_sep _ _ _ _ _ _ Hvs pgdir); [apply elem_of_cons; right|left]|].
    apply lookup_insert_Some in Hj as [[_ <-]|[_ Hj]]; [done|].
    apply (vs_sep _ _ _ _ _ _ Hvs q); [by apply elem_of_cons; right|right; by eexists].
Qed.

Lemma new_table_grows : grows pgdir (p :: free) tabs (kram s) free (<[i := p]> tabs) linked_table.
Proof.
  destruct new_page as (_ & Hnin & _). split; [by exists [p]|by apply insert_subseteq| | |].
  - intros j t [[_ <-]|[_ Hj]]%lookup_insert_Some; [right|by left]. split; [by apply elem_of_cons; left|done].
  - intros a Ha. rewrite linked_table_out, cleared_at, decide_False; [done| |]; apply Ha;
      [right; exists i; apply lookup_insert_eq|by left].
  - rewrite map_size_insert_None by done. simpl. lia.
Qed.

Lemma new_table_mapped n : mapped linked_table (<[i := p]> tabs) n = mapped (kram s) tabs n.
Proof.
  unfold mapped. pose proof (Z.mod_pos_bound n 1024). destruct (decide (n / 1024 = i)) as [->|Hne].
  - rewrite lookup_insert_eq, Hnone. rewrite (load32_zero linked_table); [done|]. intros b Hb.
    assert (Hbp : in_page p b) by (unfold in_page; lia).
    rewrite linked_table_out, cleared_at, decide_True; [done|done|]. intros Hbd. apply (table_apart pgdir b); [by left|done|done].
  - rewrite lookup_insert_ne by done. destruct (tabs !! (n / 1024)) as [t|] eqn:Et; [|done].
    rewrite (load32_ext linked_table (kram s)); [done|]. intros b Hb.
    apply (linked_table_keeps t); [right; by eexists| |unfold in_page; lia].
    by apply (pt_tab _ _ _ _ (vs_pt _ _ _ _ _ _ Hvs) _ _ Et).
Qed.
End new_table.

Lemma wp_walk_new ie L free pgdir tabs va s :
  vs ie L free pgdir tabs s -> 0 <= va < 4294967296 -> tabs !! PDX va = None ->
  wp (walkpgdir pgdir va true) (fun r s' =>
    match free with
    | [] => r = 0 /\ vs ie L [] pgdir tabs s' /\ kram s' = kram s
    | p :: free' => let tabs' := <[PDX va := p]> tabs in
        r = p + 4 * PTX va /\ vs ie L free' pgdir tabs' s' /\ grows pgdir free tabs (kram s) free' tabs' (kram s') /\
        forall n, mapped (kram s') tabs' n = mapped (kram s) tabs n
    end) s.
Proof.
  intros Hvs Hva Hnone. pose proof Hvs as [Hk Hp Hsep]. unfold walkpgdir. cbv zeta. apply wp_bind, wp_gets.
  assert (Hr : 0 <= PDX va < 1024) by (rewrite PDX_eq by done; zlia).
  assert (Hpde := pt_pde _ _ _ _ Hp _ Hr). rewrite Hnone in Hpde. rewrite Hpde. simpl negb. cbv iota.
  wp_call wp_kalloc; [done|done|]. intros r s1 (Hm1 & _ & Hres). destruct free as [|p free].
  { destruct Hres as [-> Hk1]. apply wp_ret. split; [done|]. split; [|done]. split; [done|by rewrite Hm1|done]. }
  destruct Hres as [-> Hk1]. pose proof (Forall_inv (ko_pages _ _ _ _ _ Hk)) as Hpg.
  apply (ram_page_range kend Hend) in Hpg as Hpr. replace (p =? 0) with false by (unfold KERNBASE in *; lia).
  apply wp_bind, wp_modify, wp_bind, wp_modify, wp_ret. cbv zeta. fold (pde_of p). split; [done|].
  assert (E : with_ram (store32 (memset (kram s1) p 0 PGSIZE) (pgdir + 4 * PDX va) (pde_of p)) s1
    = with_ram (linked_table pgdir p (PDX va) s) s1) by (unfold linked_table, cleared; by rewrite <- Hm1).
  match goal with |- vs _ _ _ _ _ ?st /\ _ => change st with
    (with_ram (store32 (memset (kram s1) p 0 PGSIZE) (pgdir + 4 * PDX va) (pde_of p)) s1); rewrite E end.
  split; [by eapply new_table_vs|]. split; [by eapply new_table_grows|by eapply new_table_mapped].
Qed.

Lemma grows_refl pgdir free tabs m : grows pgdir free tabs m free tabs m.
Proof. split; [by exists []|done|by left|done|done]. Qed.

Lemma grows_trans pgdir f t m f1 t1 m1 f2 t2 m2 :
  grows pgdir f t m f1 t1 m1 -> grows pgdir f1 t1 m1 f2 t2 m2 -> grows pgdir f t m f2 t2 m2.
Proof.
  intros [[k1 E1] S1 N1 M1 C1] [[k2 E2] S2 N2 M2 C2]. split; [| | | |lia].
  - exists (k1 ++ k2). by rewrite E1, E2, app_assoc.
  - by etrans.
  - intros i p Hi. destruct (N2 i p Hi) as [Hi1|[Hi1 Hi2]].
    + destruct (N1 i p Hi1) as [?|[Hp1 Hp2]]; [by left|right]. split; [done|].
      rewrite E2 in Hp2. intros Hp. apply Hp2, elem_of_app. by right.
    + right. split; [|done]. rewrite E1. apply elem_of_app. by right.
  - intros a Ha. rewrite M2, M1; [done| |done]. intros p Hp. apply Ha.
    destruct Hp as [->|[i Hi]]; [by left|right]. exists i. by eapply lookup_weaken.
Qed.

(** [walkpgdir] with allocation returns the entry of page [n], or fails for
    lack of memory; no mapping changes. *)
Lemma wp_walk ie L free pgdir tabs n s :
  vs ie L free pgdir tabs s -> 0 <= n < 1048576 ->
  wp (walkpgdir pgdir (4096 * n) true) (fun r s' => exists free' tabs',
    vs ie L free' pgdir tabs' s' /\ grows pgdir free tabs (kram s) free' tabs' (kram s') /\
    (forall k, mapped (kram s') tabs' k = mapped (kram s) tabs k) /\
    (r = 0 /\ free' = [] /\ tabs' !! (n / 1024) = None \/
     exists t, tabs' !! (n / 1024) = Some t /\ r = t + 4 * (n mod 1024) /\ r <> 0)) s.
Proof.
  intros Hvs Hn. assert (Hva : 0 <= 4096 * n < 4294967296) by lia.
  assert (Ed : PDX (4096 * n) = n / 1024) by (rewrite PDX_eq by done; zlia).
  assert (Et : PTX (4096 * n) = n mod 1024) by (rewrite PTX_eq; f_equal; zlia).
  assert (Hnz : forall t, ram_page t -> t + 4 * (n mod 1024) <> 0).
  { intros t Ht. apply (ram_page_range kend Hend) in Ht. unfold KERNBASE in *. zlia. }
  destruct (tabs !! (n / 1024)) as [t|] eqn:E.
  - eapply wp_mono; [eapply (wp_walk_found (kram s)); [done|apply Hvs|done|left; rewrite Ed, E; by eexists]|].
    intros r s' [-> ->]. rewrite Ed, Et, E. exists free, tabs. split; [done|]. split; [apply grows_refl|].
    split; [done|]. right. exists t. split; [done|]. split; [done|]. apply Hnz. by apply (pt_tab _ _ _ _ (vs_pt _ _ _ _ _ _ Hvs) _ _ E).
  - eapply wp_mono; [apply (wp_walk_new ie L free pgdir tabs); [done|done|by rewrite Ed]|].
    intros r s' Hres. destruct free as [|p free].
    + destruct Hres as (-> & Hvs' & Em). exists [], tabs. split; [done|]. split; [rewrite Em; apply grows_refl|].
      split; [by rewrite Em|]. by left.
    + cbv zeta in Hres. rewrite Ed, Et in Hres. destruct Hres as (-> & Hvs' & Hg & Hmap).
      exists free, (<[n / 1024 := p]> tabs). split; [done|]. split; [done|]. split; [done|]. right.
      exists p. rewrite lookup_insert_eq. split; [done|]. split; [done|]. apply Hnz.
      apply (Forall_inv (ko_pages _ _ _ _ _ (vs_kmem _ _ _ _ _ _ Hvs))).
Qed.

(** A directory has 1024 entries. *)
Lemma pt_ok_size m pgdir tabs : pt_ok m pgdir tabs -> (size tabs <= 1024)%nat.
Proof.
  intros Hp. rewrite <- (size_dom tabs).
  transitivity (size (list_to_set (C := gset Z) (seqZ 0 1024))).
  - apply subseteq_size. intros i [t Hi]%elem_of_dom. apply elem_of_list_to_set, elem_of_seqZ.
    destruct (pt_tab _ _ _ _ Hp _ _ Hi). lia.
  - rewrite size_list_to_set by apply NoDup_seqZ. by rewrite length_seqZ.
Qed.

(** ** mappages *)

Lemma lor_lt k a b : 0 <= k -> 0 <= a < 2 ^ k -> 0 <= b < 2 ^ k -> 0 <= Z.lor a b < 2 ^ k.
Proof.
  intros Hk Ha Hb. split; [apply Z.lor_nonneg; lia|].
  destruct (decide (Z.lor a b = 0)) as [->|Hne]; [lia|]. apply Z.log2_lt_cancel.
  rewrite Z.log2_pow2, Z.log2_lor by lia.
  assert (Hlog : forall c, 0 <= c < 2 ^ k -> Z.log2 c < k \/ c = 0).
  { intros c Hc. destruct (decide (c = 0)); [by right|left]. apply Z.log2_lt_pow2; lia. }
  destruct (decide (k = 0)) as [->|].
  { exfalso. apply Hne. assert (a = 0) as -> by lia. assert (b = 0) as -> by lia. done. }
  apply Z.max_lub_lt; [destruct (Hlog a Ha) as [?| ->]|destruct (Hlog b Hb) as [?| ->]]; simpl; lia.
Qed.

Definition pte_val (pa perm : Z) : Z := Z.lor (Z.lor pa perm) PTE_P.

Lemma pte_val_eq pa perm : pa mod 4096 = 0 -> 0 <= pa < 4294967296 -> 0 <= perm < 4096 ->
  is_u32 (pte_val pa perm) /\ has (pte_val pa perm) PTE_P = true /\ PTE_ADDR (pte_val pa perm) = pa.
Proof.
  intros Hm Hpa Hperm. unfold pte_val. rewrite <- Z.lor_assoc.
  assert (Hf : 0 <= Z.lor perm PTE_P < 4096) by (apply (lor_lt 12); unfold PTE_P; lia).
  rewrite lor_flags by done. split; [unfold is_u32; zlia|]. split.
  - rewrite <- lor_flags by done. rewrite Z.lor_assoc. by apply (has_set_same (Z.lor pa perm) PTE_P).
  - rewrite PTE_ADDR_eq. zlia.
Qed.

Definition in_range (n0 : Z) (c : nat) (n : Z) : Prop := n0 <= n <= n0 + Z.of_nat c.

(** One round of the loop, followed by [K]. *)
Lemma wp_map_one ie L pgdir n val free tabs s (K : M kmem_st Z) Q :
  vs ie L free pgdir tabs s -> 0 <= n < 1048576 -> mapped (kram s) tabs n = None ->
  is_u32 val -> has val PTE_P = true ->
  (forall s' free' tabs', vs ie L free' pgdir tabs' s' -> grows pgdir free tabs (kram s) free' tabs' (kram s') ->
     (forall k, 0 <= k -> k <> n -> mapped (kram s') tabs' k = mapped (kram s) tabs k) ->
     mapped (kram s') tabs' n = Some val -> wp K Q s') ->
  (forall s' tabs', vs ie L [] pgdir tabs' s' -> grows pgdir free tabs (kram s) [] tabs' (kram s') ->
     (forall k, mapped (kram s') tabs' k = mapped (kram s) tabs k) -> Q (-1) s') ->
  wp (pte ← walkpgdir pgdir (4096 * n) true;
      if pte =? 0 then mret (-1)
      else m ← gets kram;
           if has (load32 m pte) PTE_P then panic "remap"
           else upd_kram (fun m => store32 m pte val) ;; K) Q s.
Proof.
  intros Hvs Hn Hnone Hval HP Hok Hfail.
  wp_call wp_walk; [done|done|]. intros r s1 (free1 & tabs1 & Hvs1 & Hg1 & Hmap1 & Hcase).
  destruct Hcase as [(-> & -> & _)|(t & Ht & -> & Hnz)]; [by apply wp_ret; eapply Hfail|].
  rewrite (proj2 (Z.eqb_neq _ 0) Hnz). apply wp_bind, wp_gets.
  assert (Hfree : has (load32 (kram s1) (t + 4 * (n mod 1024))) PTE_P = false).
  { assert (Hm := Hmap1 n). rewrite Hnone in Hm. unfold mapped in Hm. rewrite Ht in Hm.
    by destruct (has (load32 (kram s1) (t + 4 * (n mod 1024))) PTE_P). }
  rewrite Hfree. apply wp_bind, wp_modify.
  destruct (set_entry ie L free1 pgdir tabs1 s1 n t val Hvs1 ltac:(lia) Ht) as (Hvs2 & Hoth & Hset & Hg2).
  eapply Hok; [exact Hvs2|by eapply grows_trans| |].
  - intros k Hk Hkn. simpl. by rewrite Hoth.
  - simpl. by rewrite Hset, HP.
Qed.

Lemma wp_mappages_loop ie L pgdir perm c : forall fuel n0 pa free tabs s,
  vs ie L free pgdir tabs s -> (c < fuel)%nat -> 0 <= n0 -> n0 + Z.of_nat c < 1048576 ->
  pa mod 4096 = 0 -> 0 <= pa -> pa + 4096 * Z.of_nat c < 4294967296 -> 0 <= perm < 4096 ->
  (forall n, in_range n0 c n -> mapped (kram s) tabs n = None) ->
  wp (mappages_loop fuel pgdir (4096 * n0) (4096 * (n0 + Z.of_nat c)) pa perm) (fun r s' => exists free' tabs',
    vs ie L free' pgdir tabs' s' /\ grows pgdir free tabs (kram s) free' tabs' (kram s') /\
    (forall n, 0 <= n -> ~ in_range n0 c n -> mapped (kram s') tabs' n = mapped (kram s) tabs n) /\
    (r = 0 /\ (forall n, in_range n0 c n -> mapped (kram s') tabs' n = Some (pte_val (pa + 4096 * (n - n0)) perm)) \/
     r = -1 /\ free' = [] /\ mapped (kram s') tabs' (n0 + Z.of_nat c) = None)) s.
Proof.
  unfold in_range. induction c as [|c IH]; intros fuel n0 pa free tabs s Hvs Hf Hn0 Hn1 Hpam Hpa0 Hpa1 Hperm Hnone;
    (destruct fuel as [|fuel]; [lia|]); cbn [mappages_loop];
    (destruct (pte_val_eq pa perm) as (Hu & HP & _); [done|lia|done|]);
    (apply (wp_map_one ie L pgdir n0 (pte_val pa perm) free tabs); [done|lia|apply Hnone; lia|done|done| |]).
  2,4: intros s' tabs' Hvs' Hg Hmap; exists [], tabs'; split; [done|]; split; [done|]; split; [done|right];
    split; [done|]; split; [done|]; rewrite Hmap; apply Hnone; lia.
  - intros s' free' tabs' Hvs' Hg Hoth Hset. replace (4096 * n0 =? 4096 * (n0 + Z.of_nat 0)) with true by lia.
    apply wp_ret. exists free', tabs'. split; [done|]. split; [done|]. split; [intros n Hn Hr; apply Hoth; lia|].
    left. split; [done|]. intros n Hn. assert (n = n0) as -> by lia. by rewrite Z.sub_diag, Z.add_0_r.
  - intros s' free' tabs' Hvs' Hg Hoth Hset. replace (4096 * n0 =? 4096 * (n0 + Z.of_nat (S c))) with false by lia.
    unfold PGSIZE. rewrite !u32_small by (unfold is_u32; lia).
    replace (4096 * n0 + 4096) with (4096 * (n0 + 1)) by lia.
    replace (4096 * (n0 + Z.of_nat (S c))) with (4096 * (n0 + 1 + Z.of_nat c)) by lia.
    eapply wp_mono; [apply (IH fuel (n0 + 1) (pa + 4096) free' tabs' s'); try done; try lia; [zlia|]|].
    { intros n Hn. rewrite Hoth by lia. apply Hnone. lia. }
    intros r s2 (free2 & tabs2 & Hvs2 & Hg2 & Hoth2 & Hcase). exists free2, tabs2. split; [done|].
    split; [by eapply grows_trans|]. split; [intros n Hn Hr; rewrite Hoth2, Hoth by lia; done|].
    destruct Hcase as [[-> Hset2]|(-> & -> & Hlast)]; [left|right; split; [done|]; split; [done|]; by replace (n0 + Z.of_nat (S c)) with (n0 + 1 + Z.of_nat c) by lia].
    split; [done|]. intros n Hn.
    destruct (decide (n = n0)) as [->|].
    + rewrite Hoth2 by lia. by rewrite Z.sub_diag, Z.add_0_r.
    + rewrite Hset2 by lia. f_equal. f_equal. lia.
Qed.

Lemma wp_mappages ie L pgdir perm n0 c pa size free tabs s :
  vs ie L free pgdir tabs s -> 0 <= n0 -> n0 + Z.of_nat c < 1048576 -> size = 4096 * (Z.of_nat c + 1) ->
  pa mod 4096 = 0 -> 0 <= pa -> pa + 4096 * Z.of_nat c < 4294967296 -> 0 <= perm < 4096 ->
  (forall n, in_range n0 c n -> mapped (kram s) tabs n = None) ->
  wp (mappages pgdir (4096 * n0) size pa perm) (fun r s' => exists free' tabs',
    vs ie L free' pgdir tabs' s' /\ grows pgdir free tabs (kram s) free' tabs' (kram s') /\
    (forall n, 0 <= n -> ~ in_range n0 c n -> mapped (kram s') tabs' n = mapped (kram s) tabs n) /\
    (r = 0 /\ (forall n, in_range n0 c n -> mapped (kram s') tabs' n = Some (pte_val (pa + 4096 * (n - n0)) perm)) \/
     r = -1 /\ free' = [] /\ mapped (kram s') tabs' (n0 + Z.of_nat c) = None)) s.
Proof.
  intros Hvs Hn0 Hn1 -> Hpam Hpa0 Hpa1 Hperm Hnone. unfold mappages. cbv zeta.
  assert (E1 : PGROUNDDOWN (4096 * n0) = 4096 * n0) by (rewrite PGROUNDDOWN_eq; zlia).
  assert (E2 : PGROUNDDOWN (u32 (4096 * n0 + 4096 * (Z.of_nat c + 1) - 1)) = 4096 * (n0 + Z.of_nat c)).
  { rewrite u32_small by (unfold is_u32; lia). rewrite PGROUNDDOWN_eq. zlia. }
  rewrite E1, E2. apply wp_mappages_loop; try done.
  rewrite u32_small by (unfold is_u32; lia). unfold PGSIZE. zlia.
Qed.
End tables.
