(* ===== verification/VmUser.v ===== *)
(** * User memory (vm.c: deallocuvm, freevm, allocuvm, copyuvm, copyout)

    User pages come from the allocator, appear in one page table only, and
    go back when they are unmapped. *)

From S2P Require Import Prelude Params CString Spinlock Kalloc Vm VmMap.

(** The kernel address of the page that an entry maps. *)
Definition frame (e : Z) : Z := p2v (PTE_ADDR e).

(** The pages mapped in [lo .. hi) are pages of their own. *)
Record user_ok (kend : Z) (m : mem) (pgdir : Z) (tabs : gmap Z Z) (free : list Z) (lo hi : Z) : Prop := {
  uo_page : forall n e, lo <= n < hi -> mapped m tabs n = Some e ->
    ram_page kend (frame e) /\ ~ table_page pgdir tabs (frame e) /\ frame e ∉ free;
  uo_inj : forall n n' e e', lo <= n < hi -> lo <= n' < hi -> mapped m tabs n = Some e ->
    mapped m tabs n' = Some e' -> frame e = frame e' -> n = n' }.

Section user.
Context (kend : Z).
Hypothesis Hend : KERNLINK <= kend.
Notation pt_ok := (pt_ok kend).
Notation ram_page := (ram_page kend).
Notation vs := (vs kend).
Notation user_ok := (user_ok kend).

Lemma Hend0 : KERNBASE <= kend.
Proof. unfold KERNLINK, KERNBASE, EXTMEM in *. lia. Qed.

Lemma frame_nonzero e : ram_page (frame e) -> PTE_ADDR e <> 0.
Proof.
  intros [_ Hr] E. unfold frame in Hr. rewrite E in Hr. unfold p2v, KERNLINK, EXTMEM in *.
  rewrite u32_small in Hr by (unfold is_u32, KERNBASE; lia). lia.
Qed.

(** [kfree] of a page that holds no table. *)
Lemma wp_free_page ie L free pgdir tabs p s :
  vs ie L free pgdir tabs s -> ram_page p -> ~ table_page pgdir tabs p -> p ∉ free ->
  wp (kfree kend p) (fun _ s' => vs ie L (p :: free) pgdir tabs s' /\
    (forall n, mapped (kram s') tabs n = mapped (kram s) tabs n) /\
    (forall a, ~ in_page p a -> kram s' a = kram s a)) s.
Proof.
  intros [Hk Hp Hsep] Hpg Hnt Hnf. eapply wp_mono; [by apply (wp_kfree kend Hend0)|].
  intros [] s' (Hk' & _ & Hm).
  assert (Htab : forall q a, table_page pgdir tabs q -> in_page q a -> kram s' a = kram s a).
  { intros q a Hq Ha. apply Hm. intros Ha'. apply Hnt.
    rewrite (in_page_unique p q a); [done|apply Hpg|by eapply table_page_aligned|done|done]. }
  split; [split; [done| |]|split; [|done]].
  - eapply pt_ok_ext; [|done]. intros a Ha. apply (Htab pgdir); [by left|done].
  - intros q [->|Hq]%elem_of_cons; [done|by apply Hsep].
  - intros n. by eapply mapped_ext.
Qed.

(** ** deallocuvm *)

(** The loop steps over a whole table only from its first page. *)
Definition aligned_or_present (tabs : gmap Z Z) (n : Z) : Prop := n mod 1024 = 0 \/ is_Some (tabs !! (n / 1024)).

(** The pages [fs] of [lo .. hi) were given back. *)
Record unmapped (pgdir : Z) (tabs : gmap Z Z) (m m' : mem) (fs : list Z) (lo hi : Z) : Prop := {
  um_none : forall n, lo <= n < hi -> mapped m' tabs n = None;
  um_other : forall n, 0 <= n -> ~ lo <= n < hi -> mapped m' tabs n = mapped m tabs n;
  um_freed : forall p, p ∈ fs <-> exists n e, lo <= n < hi /\ mapped m tabs n = Some e /\ frame e = p;
  um_mem : forall a, (forall p, table_page pgdir tabs p \/ p ∈ fs -> ~ in_page p a) -> m' a = m a }.

(** Pages without a table are not mapped. *)
Lemma unmapped_skip pgdir tabs m m' fs lo hi k :
  (forall n, lo <= n < lo + k -> mapped m tabs n = None) -> 0 <= k ->
  unmapped pgdir tabs m m' fs (lo + k) hi -> 0 <= lo -> unmapped pgdir tabs m m' fs lo hi.
Proof.
  intros Hnone Hk [] Hlo. split.
  - intros n Hn. destruct (decide (n < lo + k)); [|apply um_none0; lia]. rewrite um_other0 by lia. apply Hnone. lia.
  - intros n Hn Hr. apply um_other0; lia.
  - intros p. rewrite um_freed0. split; intros (n & e & Hn & He & Hf); exists n, e.
    + split; [lia|done]. + split; [|done]. destruct (decide (n < lo + k)); [rewrite Hnone in He by lia; done|lia].
  - done.
Qed.

(** One page, then the rest. *)
Lemma unmapped_step pgdir tabs m m1 m2 fs lo hi e :
  mapped m tabs lo = Some e -> 0 <= lo -> lo < hi -> mapped m1 tabs lo = None ->
  (forall n, 0 <= n -> n <> lo -> mapped m1 tabs n = mapped m tabs n) ->
  (forall a, (forall p, table_page pgdir tabs p \/ p = frame e -> ~ in_page p a) -> m1 a = m a) ->
  unmapped pgdir tabs m1 m2 fs (lo + 1) hi -> unmapped pgdir tabs m m2 (fs ++ [frame e]) lo hi.
Proof.
  intros He Hlo Hhi H1 Hoth Hmem []. split.
  - intros n Hn. destruct (decide (n = lo)) as [->|]; [|apply um_none0; lia]. rewrite um_other0 by lia. done.
  - intros n Hn Hr. rewrite um_other0 by lia. apply Hoth; lia.
  - intros p. rewrite elem_of_app, list_elem_of_singleton, um_freed0. split.
    + intros [(n & e' & Hn & He' & Hf)| ->]; [exists n, e'; rewrite Hoth in He' by lia; split; [lia|done]|].
      exists lo, e. split; [lia|done].
    + intros (n & e' & Hn & He' & Hf). destruct (decide (n = lo)) as [->|]; [right; congruence|left].
      exists n, e'. rewrite Hoth by lia. split; [lia|done].
  - intros a Ha. rewrite um_mem0, Hmem; [done| |].
    + intros p [Hp| ->]; apply Ha; [by left|right]. apply elem_of_app. right. by apply list_elem_of_singleton.
    + intros p [Hp|Hp]; apply Ha; [by left|right]. apply elem_of_app. by left.
Qed.

Lemma user_ok_step m m1 pgdir tabs free lo hi e :
  user_ok m pgdir tabs free lo hi -> lo < hi -> 0 <= lo -> mapped m tabs lo = Some e ->
  (forall n, 0 <= n -> n <> lo -> mapped m1 tabs n = mapped m tabs n) ->
  user_ok m1 pgdir tabs (frame e :: free) (lo + 1) hi.
Proof.
  intros [Hp Hi] Hlt Hlo He Hoth. split.
  - intros n e' Hn. rewrite Hoth by lia. intros He'. destruct (Hp n e' ltac:(lia) He') as (H1 & H2 & H3).
    split; [done|]. split; [done|]. intros [E|?]%elem_of_cons; [|done].
    assert (n = lo) by (apply (Hi n lo e' e); [lia|lia|done|done|done]). lia.
  - intros n n' e1 e2 Hn Hn'. rewrite !Hoth by lia. apply Hi; lia.
Qed.

Lemma user_ok_sub m pgdir tabs free lo lo' hi : lo <= lo' -> user_ok m pgdir tabs free lo hi -> user_ok m pgdir tabs free lo' hi.
Proof. intros Hl [Hp Hi]. split; [intros n e Hn; apply Hp; lia|intros n n' e e' Hn Hn'; apply Hi; lia]. Qed.

(** The number of the first page at or above [oldsz]. *)
Definition page_end (sz : Z) : Z := (sz + 4095) / 4096.

Lemma wp_deallocuvm_loop ie L pgdir tabs oldsz fuel : forall n free s,
  vs ie L free pgdir tabs s -> 0 <= n -> 0 <= oldsz <= KERNBASE -> page_end oldsz - n < Z.of_nat fuel ->
  n <= page_end oldsz + 1024 -> aligned_or_present tabs n -> user_ok (kram s) pgdir tabs free n (page_end oldsz) ->
  wp (deallocuvm_loop kend fuel pgdir (4096 * n) oldsz) (fun _ s' => exists fs,
    vs ie L (fs ++ free) pgdir tabs s' /\ unmapped pgdir tabs (kram s) (kram s') fs n (page_end oldsz)) s.
Proof.
  induction fuel as [|fuel IH]; intros n free s Hvs Hn Hsz Hfuel Hbound Hal Huo; cbn [deallocuvm_loop];
    unfold page_end in *.
  { apply wp_ret. exists []. split; [done|]. split; [lia|done| |done].
    intros p. split; [by intros ?%elem_of_nil|intros (k & e & Hk & _); lia]. }
  destruct (Z.ltb_spec (4096 * n) oldsz) as [Hlt|Hge]; simpl negb; cbv iota.
  2:{ apply wp_ret. exists []. split; [done|]. split; [zlia|done| |done].
      intros p. split; [by intros ?%elem_of_nil|intros (k & e & Hk & _); zlia]. }
  assert (Hn1 : n < 524288) by (unfold KERNBASE in *; lia).
  assert (Ed : PDX (4096 * n) = n / 1024) by (rewrite PDX_eq by lia; zlia).
  assert (Et : PTX (4096 * n) = n mod 1024) by (rewrite PTX_eq; f_equal; zlia).
  wp_call (wp_walk_found kend Hend0 (kram s) pgdir tabs); [done|apply Hvs|lia|by right|]. intros r s1 [-> ->].
  rewrite Ed, Et. destruct (tabs !! (n / 1024)) as [t|] eqn:E.
  2:{ change (0 =? 0) with true. cbv iota. destruct Hal as [Hal|[? ?]]; [|congruence].
      unfold NPTENTRIES, PGSIZE. rewrite u32_small by (unfold is_u32; lia).
      replace (4096 * n + (1024 - 1) * 4096 + 4096) with (4096 * (n + 1024)) by lia.
      eapply wp_mono; [apply (IH (n + 1024) free s); try done; try lia|].
      - zlia. - left. zlia. - eapply user_ok_sub; [|done]. lia.
      - intros [] s' (fs & Hvs' & Hum). exists fs. split; [done|]. apply (unmapped_skip _ _ _ _ _ _ _ 1024); try done.
        intros k Hk. unfold mapped. replace (k / 1024) with (n / 1024) by zlia. by rewrite E. }
  assert (Hpg : ram_page t) by (by apply (pt_tab _ _ _ _ (vs_pt _ _ _ _ _ _ _ Hvs) _ _ E)).
  apply (ram_page_range kend Hend0) in Hpg. unfold KERNBASE in Hpg. pose proof (Z.mod_pos_bound n 1024).
  replace (t + 4 * (n mod 1024) =? 0) with false by lia. apply wp_bind, wp_gets. cbv zeta.
  assert (Hal1 : aligned_or_present tabs (n + 1)).
  { destruct (decide ((n + 1) mod 1024 = 0)); [by left|right]. replace ((n + 1) / 1024) with (n / 1024) by zlia. by eexists. }
  assert (Emap : mapped (kram s) tabs n = let e := load32 (kram s) (t + 4 * (n mod 1024)) in if has e PTE_P then Some e else None)
    by (unfold mapped; by rewrite E).
  set (e := load32 (kram s) (t + 4 * (n mod 1024))) in *. cbv zeta in Emap.
  assert (Enext : u32 (4096 * n + PGSIZE) = 4096 * (n + 1)) by (unfold PGSIZE; rewrite u32_small; unfold is_u32; lia).
  rewrite Enext. apply wp_bind, wp_when; intros HP; rewrite HP in Emap.
  - destruct (uo_page _ _ _ _ _ _ _ Huo n e ltac:(zlia) Emap) as (Hfp & Hft & Hff).
    rewrite (proj2 (Z.eqb_neq _ 0) (frame_nonzero e Hfp)). fold (frame e).
    wp_call wp_free_page; [done|done|done|done|]. intros [] s1 (Hvs1 & Hmap1 & Hmem1). apply wp_modify.
    destruct (set_entry kend ie L (frame e :: free) pgdir tabs s1 n t 0 Hvs1 Hn E) as (Hvs2 & Hoth & Hset & Hg2).
    change (KmemSt (kmach s1) (use_lock s1) (freelist s1) (store32 (kram s1) (t + 4 * (n mod 1024)) 0))
      with (with_ram (store32 (kram s1) (t + 4 * (n mod 1024)) 0) s1).
    assert (Hoth' : forall k, 0 <= k -> k <> n ->
      mapped (store32 (kram s1) (t + 4 * (n mod 1024)) 0) tabs k = mapped (kram s) tabs k)
      by (intros k Hk Hkn; by rewrite Hoth, Hmap1).
    eapply wp_mono; [apply (IH (n + 1) (frame e :: free)); [exact Hvs2|lia|lia|lia|zlia|done|]|].
    + simpl. eapply user_ok_step; try done. zlia.
    + simpl. intros [] s' (fs & Hvs' & Hum). exists (fs ++ [frame e]). rewrite <- app_assoc. split; [done|].
      eapply unmapped_step; [done|done|zlia| |exact Hoth'| |exact Hum]; [by rewrite Hset|].
      intros a Ha. rewrite <- Hmem1 by (apply Ha; by right). apply (gr_mem _ _ _ _ _ _ _ Hg2).
      intros p Hp. apply Ha. by left.
  - eapply wp_mono; [apply (IH (n + 1) free s); try done; try lia; [zlia|eapply user_ok_sub; [|done]; lia]|].
    intros [] s' (fs & Hvs' & Hum). exists fs. split; [done|]. apply (unmapped_skip _ _ _ _ _ _ _ 1); try done.
    intros k Hk. by assert (k = n) as -> by lia.
Qed.

Lemma wp_deallocuvm ie L pgdir tabs oldsz newsz free s :
  vs ie L free pgdir tabs s -> 0 <= newsz -> newsz < oldsz -> oldsz <= KERNBASE ->
  aligned_or_present tabs (page_end newsz) -> user_ok (kram s) pgdir tabs free (page_end newsz) (page_end oldsz) ->
  wp (deallocuvm kend pgdir oldsz newsz) (fun r s' => r = newsz /\ exists fs,
    vs ie L (fs ++ free) pgdir tabs s' /\ unmapped pgdir tabs (kram s) (kram s') fs (page_end newsz) (page_end oldsz)) s.
Proof.
  intros Hvs H0 Hlt Hle Hal Huo. unfold deallocuvm. replace (oldsz <=? newsz) with false by lia. cbv zeta.
  assert (E : PGROUNDUP newsz = 4096 * page_end newsz).
  { unfold page_end. rewrite PGROUNDUP_eq by (unfold KERNBASE in *; lia). zlia. }
  rewrite E. wp_call wp_deallocuvm_loop; try done; try (unfold page_end, PGSIZE in *; zlia).
Qed.

(** ** freevm *)

Lemma wp_freevm_loop ie L pgdir tabs c : forall i free s,
  kmem_ok kend ie L free s -> pt_ok (kram s) pgdir tabs -> 0 <= i -> i + Z.of_nat c = 1024 -> pgdir ∉ free ->
  (forall j t, i <= j -> tabs !! j = Some t -> t ∉ free) ->
  wp (freevm_loop kend c pgdir i) (fun _ s' => exists fs, kmem_ok kend ie L (fs ++ free) s' /\
    (forall p, p ∈ fs <-> exists j, i <= j /\ tabs !! j = Some p) /\
    (forall a, (forall p, p ∈ fs -> ~ in_page p a) -> kram s' a = kram s a)) s.
Proof.
  induction c as [|c IH]; intros i free s Hk Hp Hi Hc Hd Ht; cbn [freevm_loop].
  { apply wp_ret. exists []. split; [done|]. split; [|done]. intros p. split; [by intros ?%elem_of_nil|].
    intros (j & Hj & Hjt). apply (pt_tab _ _ _ _ Hp) in Hjt. lia. }
  apply wp_bind, wp_gets. cbv zeta. assert (Hpde := pt_pde _ _ _ _ Hp i ltac:(lia)).
  destruct (tabs !! i) as [t|] eqn:E.
  - destruct (pt_tab _ _ _ _ Hp _ _ E) as (_ & Hpg & Hne). destruct (pde_of_eq kend Hend0 t Hpg) as (_ & H1 & H2).
    rewrite Hpde, H1, H2. simpl when.
    wp_call (wp_kfree kend Hend0); [done|done|by apply (Ht i t); [lia|]|]. intros [] s1 (Hk1 & _ & Hm1).
    assert (Hp1 : pt_ok (kram s1) pgdir tabs).
    { eapply pt_ok_ext; [|done]. intros a Ha. apply Hm1. intros Ha'. apply Hne.
      eapply in_page_unique; [apply Hpg|apply Hp|done|done]. }
    wp_call (IH (i + 1) (t :: free)); [done|done|lia|lia|by intros [?|?]%elem_of_cons| |].
    { intros j t' Hj Hjt [->|Hin]%elem_of_cons; [|by apply (Ht j t'); [lia|..]].
      assert (j = i) by (by eapply (pt_inj _ _ _ _ Hp)). lia. }
    intros [] s2 (fs & Hk2 & Hfs & Hm2). exists (fs ++ [t]). rewrite <- app_assoc. split; [done|]. split.
    + intros p. rewrite elem_of_app, list_elem_of_singleton, Hfs. split.
      * intros [(j & Hj & Hjt)| ->]; [exists j; split; [lia|done]|by exists i].
      * intros (j & Hj & Hjt). destruct (decide (j = i)) as [->|]; [right; congruence|left; exists j; split; [lia|done]].
    + intros a Ha. rewrite Hm2, Hm1; [done| |].
      * apply Ha, elem_of_app. right. by apply list_elem_of_singleton.
      * intros p Hpf. apply Ha, elem_of_app. by left.
  - rewrite Hpde. simpl when. apply wp_bind, wp_ret.
    eapply wp_mono; [apply (IH (i + 1) free s); [done|done|lia|lia|done|intros j t' Hj; apply Ht; lia]|].
    intros [] s2 (fs & Hk2 & Hfs & Hm2). exists fs. split; [done|]. split; [|done]. intros p. rewrite Hfs.
    split; intros (j & Hj & Hjt); exists j; (split; [|done]); [lia|]. destruct (decide (j = i)) as [->|]; [congruence|lia].
Qed.

(** The pages of an address space: its tables and its user pages. *)
Definition space_page (m : mem) (pgdir : Z) (tabs : gmap Z Z) (p : Z) : Prop :=
  table_page pgdir tabs p \/ exists n e, 0 <= n < 524288 /\ mapped m tabs n = Some e /\ frame e = p.

Lemma wp_freevm ie L pgdir tabs free s :
  vs ie L free pgdir tabs s -> user_ok (kram s) pgdir tabs free 0 524288 ->
  wp (freevm kend pgdir) (fun _ s' => exists fs, kmem_ok kend ie L (fs ++ free) s' /\
    (forall p, p ∈ fs <-> space_page (kram s) pgdir tabs p) /\
    (forall a, (forall p, p ∈ fs -> ~ in_page p a) -> kram s' a = kram s a)) s.
Proof.
  intros Hvs Huo. pose proof (pt_dir _ _ _ _ (vs_pt _ _ _ _ _ _ _ Hvs)) as Hdir. unfold freevm.
  destruct (ram_page_range kend Hend0 pgdir Hdir) as [Hd1 _].
  replace (pgdir =? 0) with false by (unfold KERNBASE in *; lia).
  wp_call (wp_deallocuvm ie L pgdir tabs KERNBASE 0 free); [done|lia|done|done|by left|done|].
  change (page_end KERNBASE) with 524288. change (page_end 0) with 0.
  intros r s1 (_ & fs1 & Hvs1 & Hum). pose proof Hvs1 as [Hk1 Hp1 Hsep1].
  wp_call (wp_freevm_loop ie L pgdir tabs); [done|done|lia|done| | |].
  { intros Hin. apply (Hsep1 pgdir Hin). by left. } { intros j t _ Hjt Hin. apply (Hsep1 t Hin). right. by eexists. }
  intros [] s2 (fs2 & Hk2 & Hfs2 & Hm2).
  assert (Hnd : pgdir ∉ fs2 ++ fs1 ++ free).
  { intros [Hin|Hin]%elem_of_app; [|apply (Hsep1 pgdir Hin); by left].
    apply Hfs2 in Hin as (j & _ & Hj). by apply (pt_tab _ _ _ _ Hp1) in Hj as (_ & _ & ?). }
  eapply wp_mono; [by apply (wp_kfree kend Hend0)|]. intros [] s3 (Hk3 & _ & Hm3).
  exists (pgdir :: fs2 ++ fs1). split; [by rewrite <- app_comm_cons, <- app_assoc|]. split.
  - intros p. rewrite elem_of_cons, elem_of_app, Hfs2, (um_freed _ _ _ _ _ _ _ Hum). unfold space_page, table_page.
    split.
    + intros [->|[(j & _ & Hj)|Hu]]; [by left; left|left; right; by eexists|by right].
    + intros [[->|[j Hj]]|Hu]; [by left|right; left; exists j|right; by right].
      split; [|done]. apply (pt_tab _ _ _ _ Hp1) in Hj. lia.
  - intros a Ha. rewrite Hm3, Hm2, (um_mem _ _ _ _ _ _ _ Hum); [done| | |].
    + intros p [[->|[j Hj]]|Hp]; apply Ha; [by apply elem_of_cons; left| |].
      * apply elem_of_cons. right. apply elem_of_app. left. apply Hfs2. exists j. split; [|done]. apply (pt_tab _ _ _ _ Hp1) in Hj. lia.
      * apply elem_of_cons. right. apply elem_of_app. by right.
    + intros p Hp. apply Ha, elem_of_cons. right. apply elem_of_app. by left.
    + apply Ha, elem_of_cons. by left.
Qed.

(** ** setupkvm *)

(** A page of memory set to zero. *)
Lemma memset_page m p v a : memset m p v PGSIZE a = if decide (in_page p a) then u8 v else m a.
Proof.
  rewrite (memset_fill m p v PGSIZE) by done. unfold fill, PGSIZE, in_page.
  case_decide; [by replace (_ && _) with true by lia|by replace (_ && _) with false by lia].
Qed.

(** A fresh page outside the free list can be written. *)
Lemma kmem_ok_write ie L free p m s : kmem_ok kend ie L free s -> ram_page p -> p ∉ free ->
  (forall a, ~ in_page p a -> m a = kram s a) -> kmem_ok kend ie L free (with_ram m s).
Proof.
  intros Hk Hp Hn Hm. apply kmem_ok_ram; [done|]. intros q a Hq Ha. apply Hm. intros Ha'. apply Hn.
  pose proof (ko_pages _ _ _ _ _ Hk) as Hpages. rewrite Forall_forall in Hpages.
  rewrite (in_page_unique p q a); [done|apply Hp|by apply Hpages|done|done].
Qed.

Lemma new_dir ie L free p s : kmem_ok kend ie L free s -> ram_page p -> p ∉ free ->
  vs ie L free p ∅ (with_ram (memset (kram s) p 0 PGSIZE) s).
Proof.
  intros Hk Hp Hn. split.
  - eapply kmem_ok_write; [done|exact Hp|done|]. intros a Ha. by rewrite memset_page, decide_False.
  - split; [done|by intros i t ?%lookup_empty_Some|by intros i j t ?%lookup_empty_Some|].
    intros i Hi. rewrite lookup_empty. simpl. rewrite (load32_zero _ (p + 4 * i)); [done|].
    intros b Hb. rewrite memset_page, decide_True; [done|]. unfold in_page. lia.
  - intros q Hq [->|[i Hi]]; [done|]. by rewrite lookup_empty in Hi.
Qed.

(** Entry [k] of [kmap] covers the pages from [n0] to [n0 + c]. *)
Record kmap_ok (k : kmap_entry) (n0 : Z) (c : nat) : Prop := {
  ke_virt : km_virt k = 4096 * n0;
  ke_user : 524288 <= n0;
  ke_top : n0 + Z.of_nat c < 1048576;
  ke_size : u32 (km_end k - km_start k) = 4096 * (Z.of_nat c + 1);
  ke_pa : km_start k mod 4096 = 0 /\ 0 <= km_start k /\ km_start k + 4096 * Z.of_nat c < 4294967296;
  ke_perm : 0 <= km_perm k < 4096 }.

Fixpoint kmaps_ok (l : list (kmap_entry * Z * nat)) : Prop :=
  match l with
  | [] => True
  | (k, n0, c) :: l => kmap_ok k n0 c /\ kmaps_ok l /\
      forall k' n0' c', (k', n0', c') ∈ l -> forall n, in_range n0 c n -> ~ in_range n0' c' n
  end.

Lemma kmaps_user l : kmaps_ok l -> forall k n0 c, (k, n0, c) ∈ l -> 524288 <= n0.
Proof.
  induction l as [|[[k n0] c] l IH]; intros Hok k' n0' c' Hin; [by apply elem_of_nil in Hin|].
  destruct Hok as (Hk & Hok & _). apply elem_of_cons in Hin as [E|Hin]; [|by eapply IH].
  injection E as -> -> ->. apply Hk.
Qed.

(** The pages of the entries [l] are mapped. *)
Definition kernel_map (l : list (kmap_entry * Z * nat)) (m : mem) (tabs : gmap Z Z) : Prop :=
  forall k n0 c n, (k, n0, c) ∈ l -> in_range n0 c n ->
    mapped m tabs n = Some (pte_val (km_start k + 4096 * (n - n0)) (km_perm k)).

Lemma wp_setupkvm_loop ie L pgdir l : forall done free tabs s,
  vs ie L free pgdir tabs s -> pgdir <> 0 -> kmaps_ok l -> kernel_map done (kram s) tabs ->
  (forall k n0 c k' n0' c', (k, n0, c) ∈ done -> (k', n0', c') ∈ l -> forall n, in_range n0 c n -> ~ in_range n0' c' n) ->
  Forall (fun '(k, n0, c) => 0 <= n0) done ->
  (forall k n0 c n, (k, n0, c) ∈ l -> in_range n0 c n -> mapped (kram s) tabs n = None) ->
  wp (setupkvm_loop ((fun x => fst (fst x)) <$> l) pgdir) (fun r s' => exists free' tabs',
    vs ie L free' pgdir tabs' s' /\ grows pgdir free tabs (kram s) free' tabs' (kram s') /\
    (r = 0 /\ free' = [] \/ r = pgdir /\ kernel_map (done ++ l) (kram s') tabs' /\
      forall n, 0 <= n < 524288 -> mapped (kram s') tabs' n = mapped (kram s) tabs n)) s.
Proof.
  induction l as [|[[k n0] c] l IH]; intros dn free tabs s Hvs Hd Hok Hdone Hsep Hpos Hnone; simpl setupkvm_loop.
  { apply wp_ret. exists free, tabs. split; [done|]. split; [apply grows_refl|]. right. by rewrite app_nil_r. }
  destruct Hok as ([Ev Eu Et Es (Ep1 & Ep2 & Ep3) Eperm] & Hok & Hdis). rewrite Ev, Es.
  wp_call (wp_mappages kend Hend0 ie L pgdir (km_perm k) n0 c); [done|lia|lia|done|done|lia|lia|done| |].
  { intros n Hn. apply (Hnone k n0 c); [by apply elem_of_cons; left|done]. }
  intros r s1 (free1 & tabs1 & Hvs1 & Hg1 & Hoth1 & Hcase). destruct Hcase as [[-> Hset]|(-> & -> & _)].
  2:{ apply wp_ret. exists [], tabs1. split; [done|]. split; [done|by left]. }
  change (0 <? 0) with false. cbv iota.
  eapply wp_mono; [apply (IH (dn ++ [(k, n0, c)]) free1 tabs1 s1 Hvs1 Hd Hok)|].
  - intros k' n0' c' n [Hin|Hin%list_elem_of_singleton]%elem_of_app Hr.
    + assert (Hn0 : 0 <= n0') by (rewrite Forall_forall in Hpos; apply (Hpos (k', n0', c') Hin)).
      rewrite Hoth1; [by eapply Hdone|unfold in_range in Hr; lia|].
      eapply Hsep; [exact Hin|by apply elem_of_cons; left|done].
    + injection Hin as -> -> ->. by apply Hset.
  - intros k1 n1 c1 k2 n2 c2 [Hin|Hin%list_elem_of_singleton]%elem_of_app Hin2 n Hr.
    + eapply Hsep; [exact Hin|by apply elem_of_cons; right|done].
    + injection Hin as -> -> ->. by eapply Hdis.
  - apply Forall_app. split; [done|]. constructor; [lia|constructor].
  - intros k' n0' c' n Hin Hr. rewrite Hoth1; [apply (Hnone k' n0' c'); [by apply elem_of_cons; right|done]| |].
    + apply (kmaps_user _ Hok) in Hin. unfold in_range in Hr. lia.
    + intros Hr'. by eapply Hdis.
  - intros r s2 (free2 & tabs2 & Hvs2 & Hg2 & Hcase2). exists free2, tabs2. split; [done|].
    split; [by eapply grows_trans|]. destruct Hcase2 as [[-> ->]|(-> & Hk & Hu)]; [by left|right].
    split; [done|]. split; [by rewrite <- app_assoc in Hk|]. intros n Hn. rewrite Hu by done.
    apply Hoth1; [lia|]. unfold in_range. lia.
Qed.

(** The linker's symbol [data] is the first page of the kernel's data. *)
Context (kdata : Z).
Hypothesis Hdata : kdata mod 4096 = 0 /\ KERNLINK < kdata < KERNBASE + PHYSTOP.

Definition kmap_ranges : list (kmap_entry * Z * nat) :=
  [(Kmap KERNBASE 0 EXTMEM PTE_W, 524288, 255%nat);
   (Kmap KERNLINK (v2p KERNLINK) (v2p kdata) 0, 524544, Z.to_nat (kdata / 4096 - 524545));
   (Kmap kdata (v2p kdata) PHYSTOP PTE_W, kdata / 4096, Z.to_nat (581631 - kdata / 4096));
   (Kmap DEVSPACE DEVSPACE 0 PTE_W, 1040384, 8191%nat)].

Lemma kmap_ranges_ok : kmaps_ok kmap_ranges.
Proof.
  destruct Hdata as [Hm Hd]. unfold KERNLINK, KERNBASE, EXTMEM, PHYSTOP in *.
  assert (Hq : kdata = 4096 * (kdata / 4096)) by zlia.
  assert (Hv : v2p kdata = kdata - 2147483648) by (unfold v2p, KERNBASE; apply u32_small; unfold is_u32; lia).
  assert (Hin : forall k n c k' n' c' (l : list (kmap_entry * Z * nat)), (k', n', c') ∈ (k, n, c) :: l ->
    (n' = n /\ c' = c) \/ (k', n', c') ∈ l).
  { intros k n c k' n' c' l [E|?]%elem_of_cons; [left; by injection E|by right]. }
  unfold kmap_ranges, kmaps_ok. set (q := kdata / 4096) in *. clearbody q. unfold KERNLINK, PHYSTOP, KERNBASE, EXTMEM, DEVSPACE, PTE_W.
  split_and!; try done.
  all: match goal with
    | |- kmap_ok _ _ _ =>
        split; simpl; rewrite ?Hv; change (v2p (0x80000000 + 0x100000)) with 0x100000; try lia; try zlia
    | |- _ =>
        intros k' n0' c' H' n Hr Hr'; unfold in_range in *;
        repeat (apply Hin in H' as [[-> ->]|H']; [lia|]); by apply elem_of_nil in H'
    end.
Qed.

(** A page table with the kernel's mappings and no user page. *)
Record kernel_dir (ie : bool) (L : list lockid) (free free' : list Z) (pgdir : Z) (tabs : gmap Z Z) (s : kmem_st) : Prop := {
  kd_vs : vs ie L free' pgdir tabs s;
  kd_kernel : kernel_map kmap_ranges (kram s) tabs;
  kd_user : forall n, 0 <= n < 524288 -> mapped (kram s) tabs n = None;
  kd_pages : forall p, table_page pgdir tabs p -> p ∈ free /\ p ∉ free';
  kd_count : (length free = 1 + size tabs + length free')%nat }.

(** Pages were taken from the front of [free], and only pages of [free] changed. *)
Definition took (free free' : list Z) (m m' : mem) : Prop :=
  (exists taken, free = taken ++ free') /\ forall a, (forall p, p ∈ free -> ~ in_page p a) -> m' a = m a.

Lemma wp_setupkvm ie L free s : kmem_ok kend ie L free s ->
  wp (setupkvm kdata) (fun r s' => exists free', kmem_ok kend ie L free' s' /\
    took free free' (kram s) (kram s') /\
    (r = 0 /\ (length free <= 1025)%nat \/ r <> 0 /\ exists tabs, kernel_dir ie L free free' r tabs s')) s.
Proof.
  intros Hk. unfold setupkvm. wp_call (wp_kalloc kend Hend0); [done|]. intros r s1 (Hm1 & _ & Hres).
  destruct free as [|p free]; destruct Hres as [-> Hk1].
  { apply wp_ret. exists []. split; [done|]. split; [split; [by exists []|by rewrite Hm1]|left; simpl; split; [done|lia]]. }
  assert (Hpg := Forall_inv (ko_pages _ _ _ _ _ Hk)). assert (Hnin := ko_nodup _ _ _ _ _ Hk).
  apply NoDup_cons in Hnin as [Hnin _]. destruct (ram_page_range kend Hend0 p Hpg) as [Hp1 _].
  assert (Hp0 : p <> 0) by (unfold KERNBASE in *; lia). rewrite (proj2 (Z.eqb_neq p 0) Hp0).
  apply wp_bind, wp_modify. change (DEVSPACE <? p2v PHYSTOP) with false. cbv iota.
  change (kmap kdata) with ((fun x => fst (fst x)) <$> kmap_ranges).
  wp_call (wp_setupkvm_loop ie L p kmap_ranges [] free ∅);
    [by apply new_dir|done|apply kmap_ranges_ok|by intros ? ? ? ? ?%elem_of_nil|
     by intros ? ? ? ? ? ? ?%elem_of_nil|constructor|intros; unfold mapped; by rewrite lookup_empty|].
  intros r s2 (free' & tabs & Hvs & [[tk Etk] Hsub Hnew Hmem Hcnt] & Hcase). simpl in Hmem.
  assert (Htp : forall q, table_page p tabs q -> q ∈ p :: free /\ q ∉ free').
  { intros q [->|[i Hi]].
    - split; [by apply elem_of_cons; left|]. intros Hq. apply Hnin. rewrite Etk. apply elem_of_app. by right.
    - destruct (Hnew i q Hi) as [?|[Hq1 Hq2]]; [by rewrite lookup_empty in *|]. split; [by apply elem_of_cons; right|done]. }
  exists free'. split; [apply Hvs|]. split.
  - split; [exists (p :: tk); by rewrite Etk|]. intros a Ha. rewrite Hmem, memset_page, decide_False, Hm1; [done| |].
    + apply Ha, elem_of_cons. by left. + intros q Hq. by apply Ha, Htp.
  - rewrite map_size_empty in Hcnt. simpl length.
    destruct Hcase as [[-> ->]|(-> & Hkm & Hu)]; [left|right].
    + pose proof (pt_ok_size kend _ _ _ (vs_pt _ _ _ _ _ _ _ Hvs)). simpl in Hcnt. split; [done|lia].
    + split; [done|]. exists tabs. split; try done. simpl. lia.
Qed.
End user.
