(* ===== verification/VmCopy.v ===== *)
(** * Copying an address space (vm.c: copyuvm)

    The child gets its own pages: for every user page of the parent a fresh
    one with the same bytes and permissions.  The parent does not change. *)

From S2P Require Import Prelude Params CString Spinlock Kalloc Vm VmMap VmUser.

Section copy.
Context (kend : Z).
Hypothesis Hend : KERNLINK <= kend.
Notation pt_ok := (pt_ok kend).
Notation ram_page := (ram_page kend).
Notation vs := (vs kend).
Notation user_ok := (user_ok kend).
Context (ie : bool) (L : list lockid).

(** The parent: memory [m0], directory [pgdir], tables [tabs]; [free0] are the
    pages that were free when the copy began. *)
Context (m0 : mem) (pgdir : Z) (tabs : gmap Z Z) (free0 : list Z).
Hypothesis Hpt : pt_ok m0 pgdir tabs.
Hypothesis Hparent : forall p, space_page m0 pgdir tabs p -> ram_page p /\ p ∉ free0.
Hypothesis Hpages : Forall ram_page free0.

Record child (free : list Z) (d : Z) (dtabs : gmap Z Z) (cfs : list Z) (s : kmem_st) : Prop := {
  ch_vs : vs ie L free d dtabs s;
  ch_took : took free0 free m0 (kram s);
  ch_tabs : forall p, table_page d dtabs p -> p ∈ free0 /\ p ∉ free /\ p ∉ cfs;
  ch_frames : forall f, f ∈ cfs -> f ∈ free0 /\ f ∉ free;
  ch_nodup : NoDup cfs;
  ch_map : forall n f, cfs !! n = Some f -> exists e, mapped m0 tabs (Z.of_nat n) = Some e /\
    mapped (kram s) dtabs (Z.of_nat n) = Some (pte_val (v2p f) (PTE_FLAGS e)) /\
    forall o, 0 <= o < 4096 -> kram s (f + o) = m0 (frame e + o);
  ch_none : forall n, Z.of_nat (length cfs) <= n < 524288 -> mapped (kram s) dtabs n = None }.

(** Addresses of the parent are not in pages that were free. *)
Lemma parent_keeps free m p a : took free0 free m0 m -> space_page m0 pgdir tabs p -> in_page p a -> m a = m0 a.
Proof.
  intros [_ Hm] Hp Ha. apply Hm. intros q Hq Ha'. destruct (Hparent p Hp) as [Hpg Hn]. apply Hn.
  rewrite Forall_forall in Hpages. rewrite (in_page_unique p q a); [done|apply Hpg|by apply Hpages|done|done].
Qed.

Lemma parent_pt free m : took free0 free m0 m -> pt_ok m pgdir tabs /\ forall n, mapped m tabs n = mapped m0 tabs n.
Proof.
  intros Ht. split.
  - eapply pt_ok_ext; [|done]. intros a Ha. eapply parent_keeps; [done|by left; left|done].
  - intros n. eapply mapped_ext; [done|]. intros p a Hp Ha. eapply parent_keeps; [done|by left|done].
Qed.

Lemma v2p_page f : ram_page f -> v2p f mod 4096 = 0 /\ 0 <= v2p f < 4294967296 /\ p2v (v2p f) = f.
Proof.
  intros Hf. destruct (ram_page_range kend (Hend0 kend Hend) f Hf) as [H1 H2]. destruct Hf as [Hm _].
  unfold v2p, p2v, KERNBASE in *. rewrite (u32_small (f - 2147483648)) by (unfold is_u32; lia).
  rewrite u32_small by (unfold is_u32; lia). zlia.
Qed.

Lemma frame_pte f fl : ram_page f -> 0 <= fl < 4096 -> frame (pte_val (v2p f) fl) = f.
Proof.
  intros Hf Hfl. destruct (v2p_page f Hf) as (H1 & H2 & H3). unfold frame.
  by destruct (pte_val_eq (v2p f) fl H1 H2 Hfl) as (_ & _ & ->).
Qed.

Lemma flags_range e : 0 <= PTE_FLAGS e < 4096.
Proof. rewrite PTE_FLAGS_eq. zlia. Qed.

(** The child can be freed. *)
Lemma child_user_ok free d dtabs cfs s : child free d dtabs cfs s -> user_ok (kram s) d dtabs free 0 524288.
Proof.
  intros []. rewrite Forall_forall in Hpages.
  assert (Hf : forall n e, 0 <= n < 524288 -> mapped (kram s) dtabs n = Some e ->
    exists f, cfs !! Z.to_nat n = Some f /\ frame e = f).
  { intros n e Hn He. destruct (cfs !! Z.to_nat n) as [f|] eqn:E.
    - exists f. split; [done|]. destruct (ch_map0 _ _ E) as (e0 & _ & Hm & _). rewrite Z2Nat.id in Hm by lia.
      rewrite He in Hm. injection Hm as ->. apply frame_pte; [|apply flags_range].
      apply Hpages, ch_frames0. by eapply list_elem_of_lookup_2.
    - apply lookup_ge_None in E. rewrite ch_none0 in He by lia. done. }
  split.
  - intros n e Hn He. destruct (Hf n e Hn He) as (f & Hl & ->). apply list_elem_of_lookup_2 in Hl.
    destruct (ch_frames0 f Hl) as [H1 H2]. split; [by apply Hpages|]. split; [|done].
    intros (_ & _ & Hn')%ch_tabs0. done.
  - intros n n' e e' Hn Hn' He He' E. destruct (Hf n e Hn He) as (f & Hl & Ef), (Hf n' e' Hn' He') as (f' & Hl' & Ef').
    assert (Z.to_nat n = Z.to_nat n'); [|lia]. eapply NoDup_lookup; [done|exact Hl|]. congruence.
Qed.

(** Writing a page that is neither free nor a table. *)
Lemma vs_write free d dtabs p m s : vs ie L free d dtabs s -> ram_page p -> p ∉ free -> ~ table_page d dtabs p ->
  (forall a, ~ in_page p a -> m a = kram s a) ->
  vs ie L free d dtabs (with_ram m s) /\ forall n, mapped m dtabs n = mapped (kram s) dtabs n.
Proof.
  intros [Hk Hp Hsep] Hpg Hnf Hnt Hm.
  assert (Ht : forall q a, table_page d dtabs q -> in_page q a -> m a = kram s a).
  { intros q a Hq Ha. apply Hm. intros Ha'. apply Hnt.
    rewrite (in_page_unique p q a); [done|apply Hpg|by eapply table_page_aligned|done|done]. }
  split; [split; [by eapply kmem_ok_write| |done]|].
  - eapply pt_ok_ext; [|exact Hp]. intros a Ha. apply (Ht d); [by left|done].
  - intros n. by eapply mapped_ext.
Qed.

Lemma took_trans f1 f2 ma mb mc : took free0 f1 ma mb -> took f1 f2 mb mc -> took free0 f2 ma mc.
Proof.
  intros [[t1 E1] M1] [[t2 E2] M2]. split; [exists (t1 ++ t2); by rewrite E1, E2, app_assoc|].
  intros a Ha. rewrite M2, M1; [done|done|]. intros p Hp. apply Ha. rewrite E1. apply elem_of_app. by right.
Qed.

Section grow.
Context (p : Z) (free : list Z) (d : Z) (dtabs : gmap Z Z) (cfs : list Z) (s : kmem_st).
Context (m1 : mem) (free' : list Z) (dtabs' : gmap Z Z) (s' : kmem_st).
Hypothesis Hch : child (p :: free) d dtabs cfs s.
Hypothesis Hm1 : forall a, ~ in_page p a -> m1 a = kram s a.
Hypothesis Hvs' : vs ie L free' d dtabs' s'.
Hypothesis Hg : grows d free dtabs m1 free' dtabs' (kram s').

(** What holds after the page [p] was taken and tables were added. *)
Lemma grow_facts : p ∈ free0 /\ p ∉ free' /\ p ∉ cfs /\
  (forall f, f ∈ cfs -> f ∈ free0 /\ f ∉ free') /\
  (forall q, table_page d dtabs' q -> q ∈ free0 /\ q ∉ free' /\ q ∉ cfs /\ q <> p).
Proof.
  destruct Hch as [Hvs Htk Ht Hf Hnd Hm Hno]. destruct Hg as [[tk Etk] Hsub Hnew Hmem _].
  assert (Hk := vs_kmem _ _ _ _ _ _ _ Hvs). pose proof (ko_nodup _ _ _ _ _ Hk) as [Hpn Hndf]%NoDup_cons.
  destruct Htk as [[tk0 E0] Hmem0].
  assert (Hsubf : forall q, q ∉ p :: free -> q ∉ free' /\ q <> p).
  { intros q Hq. split; [|intros ->; apply Hq, elem_of_cons; by left].
    intros Hq'. apply Hq, elem_of_cons. right. rewrite Etk. apply elem_of_app. by right. }
  assert (Hinfree : forall q, q ∈ free -> q ∈ free0 /\ q ∉ cfs).
  { intros q Hq. split; [rewrite E0; apply elem_of_app; right; by apply elem_of_cons; right|].
    intros Hqc. apply Hf in Hqc as [_ Hqc]. apply Hqc, elem_of_cons. by right. }
  split; [rewrite E0; apply elem_of_app; right; by apply elem_of_cons; left|].
  split; [intros Hp; apply Hpn; rewrite Etk; apply elem_of_app; by right|].
  split; [intros Hp; apply Hf in Hp as [_ Hp]; apply Hp, elem_of_cons; by left|].
  split; [intros f Hff; destruct (Hf f Hff) as [? ?%Hsubf]; tauto|].
  assert (Hold : forall q, table_page d dtabs q -> q ∈ free0 /\ q ∉ free' /\ q ∉ cfs /\ q <> p).
  { intros q Hq. destruct (Ht q Hq) as (H1 & H2%Hsubf & H3). tauto. }
  intros q [->|[i Hi]]; [apply Hold; by left|].
  destruct (Hnew i q Hi) as [Hi'|[Hq1 Hq2]]; [apply Hold; right; by eexists|].
  destruct (Hinfree q Hq1). split_and!; try done. by intros ->.
Qed.

(** The copied pages keep their bytes while the tables grow. *)
Lemma grow_frames f o : f ∈ p :: cfs -> 0 <= o < 4096 -> kram s' (f + o) = m1 (f + o).
Proof.
  intros Hff Ho. destruct grow_facts as (Hp0 & _ & _ & Hf & Ht). rewrite Forall_forall in Hpages.
  apply (gr_mem _ _ _ _ _ _ _ Hg). intros q Hq Ha. destruct (Ht q Hq) as (Hq0 & _ & Hqc & Hqp).
  assert (Hf0 : f ∈ free0) by (apply elem_of_cons in Hff as [->|?]; [done|by apply Hf]).
  assert (q = f) as ->; [|by apply elem_of_cons in Hff as [?|?]].
  apply (in_page_unique q f (f + o)); [by apply Hpages|by apply Hpages|done|unfold in_page; lia].
Qed.

Lemma grow_took : took free0 free' m0 (kram s').
Proof.
  destruct (ch_took _ _ _ _ _ Hch) as [[tk0 E0] Hmem0]. destruct grow_facts as (Hp0 & _ & _ & _ & Ht).
  destruct (gr_taken _ _ _ _ _ _ _ Hg) as [tk Etk].
  split; [exists (tk0 ++ p :: tk); rewrite E0, Etk; by rewrite <- app_assoc|].
  intros a Ha. rewrite (gr_mem _ _ _ _ _ _ _ Hg) by (intros q Hq; by apply Ha, Ht).
  rewrite Hm1 by (by apply Ha). by apply Hmem0.
Qed.

Lemma grow_map n f : cfs !! n = Some f ->
  mapped (kram s') dtabs' (Z.of_nat n) = mapped (kram s) dtabs (Z.of_nat n) ->
  exists e, mapped m0 tabs (Z.of_nat n) = Some e /\
    mapped (kram s') dtabs' (Z.of_nat n) = Some (pte_val (v2p f) (PTE_FLAGS e)) /\
    forall o, 0 <= o < 4096 -> kram s' (f + o) = m0 (frame e + o).
Proof.
  intros Hl E. destruct (ch_map _ _ _ _ _ Hch n f Hl) as (e & H1 & H2 & H3). exists e. split; [done|].
  split; [by rewrite E|]. intros o Ho. apply list_elem_of_lookup_2 in Hl.
  rewrite grow_frames by (try done; by apply elem_of_cons; right). rewrite Hm1; [by apply H3|].
  intros Ha. destruct grow_facts as (Hp0 & _ & Hpc & Hf & _). rewrite Forall_forall in Hpages. apply Hpc.
  rewrite (in_page_unique p f (f + o)); [done|by apply Hpages|apply Hpages; by apply Hf|done|unfold in_page; lia].
Qed.

(** The page [p] was mapped as the next page of the child. *)
Lemma child_extend e : let n := Z.of_nat (length cfs) in
  mapped m0 tabs n = Some e -> n < 524288 ->
  (forall o, 0 <= o < 4096 -> m1 (p + o) = m0 (frame e + o)) ->
  (forall k, 0 <= k -> k <> n -> mapped (kram s') dtabs' k = mapped (kram s) dtabs k) ->
  mapped (kram s') dtabs' n = Some (pte_val (v2p p) (PTE_FLAGS e)) ->
  child free' d dtabs' (cfs ++ [p]) s'.
Proof.
  intros n He Hn Hcp Hoth Hset. destruct grow_facts as (Hp0 & Hpf & Hpc & Hf & Ht).
  split; [done|apply grow_took| | | | |].
  - intros q Hq. destruct (Ht q Hq) as (? & ? & ? & ?). split; [done|]. split; [done|].
    by intros [?|?%list_elem_of_singleton]%elem_of_app.
  - intros f [Hff|E%list_elem_of_singleton]%elem_of_app; [by apply Hf|by subst f].
  - apply NoDup_app. split; [apply Hch|]. split; [|apply NoDup_singleton].
    intros q Hq E%list_elem_of_singleton. by subst q.
  - intros k f Hkf. destruct (decide (k < length cfs)%nat) as [Hlt|Hge].
    + rewrite lookup_app_l in Hkf by done. apply grow_map; [done|]. apply Hoth; unfold n; lia.
    + rewrite lookup_app_r in Hkf by lia. apply list_lookup_singleton_Some in Hkf as [Hk0 <-].
      assert (Ek : Z.of_nat k = n) by (unfold n; lia). exists e. rewrite Ek. split; [done|]. split; [done|].
      intros o Ho. rewrite grow_frames by (try done; by apply elem_of_cons; left). by apply Hcp.
  - intros k Hk'. rewrite length_app in Hk'. simpl in Hk'. rewrite Hoth by (unfold n; lia). apply Hch. lia.
Qed.

(** The mapping failed: [p] is lost, the child is as it was. *)
Lemma child_lost : (forall k, 0 <= k < 524288 -> mapped (kram s') dtabs' k = mapped (kram s) dtabs k) ->
  Z.of_nat (length cfs) <= 524288 -> child free' d dtabs' cfs s'.
Proof.
  intros Hmap Hlen. destruct grow_facts as (Hp0 & Hpf & Hpc & Hf & Ht).
  split; [done|apply grow_took| |done|apply Hch| |].
  - intros q Hq. destruct (Ht q Hq) as (? & ? & ? & ?). done.
  - intros k f Hkf. apply lookup_lt_Some in Hkf as Hlt. apply grow_map; [done|]. apply Hmap. lia.
  - intros k Hk. rewrite Hmap by lia. by apply Hch.
Qed.
End grow.

(** The child while the allocator's lock was taken and released. *)
Lemma child_same free d dtabs cfs s s1 : child free d dtabs cfs s -> kmem_ok kend ie L free s1 -> kram s1 = kram s ->
  child free d dtabs cfs s1.
Proof.
  intros [[Hk Hp Hs] H1 H2 H3 H4 H5 H6] Hk1 E. by split; rewrite ?E; [split; rewrite ?E|..].
Qed.

(** Every page taken is the directory, a table, or a page of the child. *)
Definition counted (lost : nat) (free : list Z) (dtabs : gmap Z Z) (cfs : list Z) : Prop :=
  (length free0 = lost + 1 + size dtabs + length cfs + length free)%nat.

(** One page: the fresh page [p] gets the parent's bytes and is mapped. *)
Lemma wp_copy_page p free d dtabs cfs s s1 e (K : M kmem_st bool) Q : let n := Z.of_nat (length cfs) in
  child (p :: free) d dtabs cfs s -> kmem_ok kend ie L free s1 -> kram s1 = kram s -> n < 524288 ->
  mapped m0 tabs n = Some e -> counted 0 (p :: free) dtabs cfs ->
  (forall free' dtabs' s', child free' d dtabs' (cfs ++ [p]) s' -> counted 0 free' dtabs' (cfs ++ [p]) -> wp K Q s') ->
  (forall dtabs' s', child [] d dtabs' cfs s' -> counted 1 [] dtabs' cfs -> Q false s') ->
  wp (upd_kram (fun m => memmove m p (p2v (PTE_ADDR e)) (Z.to_nat PGSIZE)) ;;
      r ← mappages d (4096 * n) PGSIZE (v2p p) (PTE_FLAGS e);
      if r <? 0 then mret false else K) Q s1.
Proof.
  intros n Hch Hk1 Em Hn He Hcnt Hok Hfail. pose proof (ch_vs _ _ _ _ _ Hch) as [Hk Hp Hsep].
  pose proof (Forall_inv (ko_pages _ _ _ _ _ Hk)) as Hpg. pose proof (ko_nodup _ _ _ _ _ Hk) as [Hnin _]%NoDup_cons.
  destruct (v2p_page p Hpg) as (Hv1 & Hv2 & _).
  fold (frame e). apply wp_bind, wp_modify.
  set (m1 := memmove (kram s) p (frame e) (Z.to_nat PGSIZE)).
  match goal with |- wp _ _ ?st => change st with (with_ram (memmove (kram s1) p (frame e) (Z.to_nat PGSIZE)) s1) end.
  rewrite Em. fold m1.
  assert (Hm1 : forall a, m1 a = if decide (in_page p a) then kram s (frame e + (a - p)) else kram s a).
  { intros a. unfold m1. rewrite (memmove_store (kram s) p (frame e) (Z.to_nat PGSIZE) a), store_lookup, length_loadn.
    unfold PGSIZE, in_page. case_decide; [rewrite decide_True by lia|by rewrite decide_False by lia].
    rewrite lookup_loadn by lia. simpl. f_equal. lia. }
  assert (Hm1o : forall a, ~ in_page p a -> m1 a = kram s a) by (intros a Ha; by rewrite Hm1, decide_False).
  assert (Hcp : forall o, 0 <= o < 4096 -> m1 (p + o) = m0 (frame e + o)).
  { intros o Ho. rewrite Hm1, decide_True by (unfold in_page; lia). replace (p + o - p) with o by lia.
    eapply (parent_keeps _ _ (frame e)); [apply Hch|right; exists n, e; split_and!; (lia || done)|unfold in_page; lia]. }
  destruct (vs_write free d dtabs p m1 s1) as [Hvs1 Hmap1]; [|done|done| |by rewrite Em|].
  { split; [done|by rewrite Em|]. intros q Hq. apply Hsep. by apply elem_of_cons; right. }
  { apply Hsep. by apply elem_of_cons; left. }
  wp_call (wp_mappages kend (Hend0 kend Hend) ie L d (PTE_FLAGS e) n 0);
    [exact Hvs1|lia|lia|done|done|lia|lia|apply flags_range| |].
  { intros k Hk0. unfold in_range in Hk0. cbn [kram with_ram]. rewrite Hmap1, Em. apply Hch. lia. }
  intros r s2 (free' & dtabs' & Hvs2 & Hg & Hoth & Hcase). cbn [kram with_ram] in Hg, Hoth.
  assert (Hoth' : forall k, 0 <= k -> k <> n -> mapped (kram s2) dtabs' k = mapped (kram s) dtabs k).
  { intros k Hk0 Hkn. rewrite Hoth, Hmap1, Em; [done|done|unfold in_range; lia]. }
  pose proof (gr_count _ _ _ _ _ _ _ Hg) as Hgc. unfold counted in *. simpl length in Hcnt.
  destruct Hcase as [[-> Hset]|(-> & -> & Hlast)]; simpl.
  - eapply Hok; [eapply (child_extend p free d dtabs cfs s m1 free' dtabs' s2); try done|].
    + rewrite Hset by (unfold in_range; lia). f_equal. f_equal. lia.
    + rewrite length_app. simpl. lia.
  - simpl in Hgc. apply wp_ret. apply (Hfail dtabs' s2); [|simpl; lia]. eapply (child_lost p free d dtabs cfs s m1 [] dtabs' s2); try done; [|lia].
    intros k Hk0. destruct (decide (k = n)) as [->|]; [|apply Hoth'; lia].
    rewrite Z.add_0_r in Hlast. rewrite Hlast. symmetry. apply Hch. lia.
Qed.

(** The loop: either all pages are copied, or memory ran out and the child
    can still be freed. *)
Lemma wp_copyuvm_loop d sz fuel : forall free dtabs cfs s,
  child free d dtabs cfs s -> counted 0 free dtabs cfs -> let n := Z.of_nat (length cfs) in
  0 <= sz < KERNBASE -> page_end sz - n < Z.of_nat fuel -> n <= page_end sz ->
  (forall k, n <= k < page_end sz -> is_Some (mapped m0 tabs k)) ->
  wp (copyuvm_loop fuel pgdir d (4096 * n) sz) (fun r s' => exists free' dtabs' cfs',
    child free' d dtabs' cfs' s' /\ (r = true -> Z.of_nat (length cfs') = page_end sz) /\
    (r = false -> Z.of_nat (length free0) <= 2 + Z.of_nat (size dtabs') + page_end sz)) s.
Proof.
  induction fuel as [|fuel IH]; intros free dtabs cfs s Hch Hcnt n Hsz Hfuel Hn Hmap; cbn [copyuvm_loop]; unfold page_end in *; [lia|].
  destruct (Z.ltb_spec (4096 * n) sz) as [Hlt|Hge]; simpl negb; cbv iota.
  2:{ apply wp_ret. exists free, dtabs, cfs. split; [done|]. split; [|done]. intros _. fold n. zlia. }
  assert (Hn1 : n < 524288) by (unfold KERNBASE in *; lia). assert (Hn0 : 0 <= n) by (unfold n; lia).
  destruct (parent_pt _ _ (ch_took _ _ _ _ _ Hch)) as [Hpt1 Hmap1].
  destruct (Hmap n ltac:(zlia)) as [e He].
  assert (Ed : PDX (4096 * n) = n / 1024) by (rewrite PDX_eq by lia; zlia).
  assert (Et : PTX (4096 * n) = n mod 1024) by (rewrite PTX_eq; f_equal; zlia).
  wp_call (wp_walk_found kend (Hend0 kend Hend) (kram s) pgdir tabs); [done|done|lia|by right|]. intros r s1 [-> ->].
  rewrite Ed, Et. assert (He' := He). rewrite <- Hmap1 in He'. unfold mapped in He'.
  destruct (tabs !! (n / 1024)) as [t|] eqn:E; [|done].
  assert (Hpg : ram_page t) by (by apply (pt_tab _ _ _ _ Hpt _ _ E)). apply (ram_page_range kend (Hend0 kend Hend)) in Hpg.
  pose proof (Z.mod_pos_bound n 1024). unfold KERNBASE in Hpg.
  replace (t + 4 * (n mod 1024) =? 0) with false by lia. apply wp_bind, wp_gets. cbv zeta in *.
  destruct (has (load32 (kram s) (t + 4 * (n mod 1024))) PTE_P) eqn:EP; [|done]. injection He' as He'. rewrite He'.
  simpl negb. cbv iota.
  wp_call (wp_kalloc kend (Hend0 kend Hend)); [by apply (ch_vs _ _ _ _ _ Hch)|]. intros r s1 (Hm1 & _ & Hres).
  destruct free as [|p free]; destruct Hres as [-> Hk1]; simpl Z.eqb; cbv iota.
  { apply wp_ret. exists [], dtabs, cfs. split; [by eapply child_same|]. split; [done|]. intros _.
    unfold counted in Hcnt. simpl in Hcnt. fold n. lia. }
  pose proof (Forall_inv (ko_pages _ _ _ _ _ (vs_kmem _ _ _ _ _ _ _ (ch_vs _ _ _ _ _ Hch)))) as Hpp.
  apply (ram_page_range kend (Hend0 kend Hend)) in Hpp. unfold KERNBASE in Hpp.
  replace (p =? 0) with false by lia.
  apply (wp_copy_page p free d dtabs cfs s s1 e); try done.
  - intros free' dtabs' s' Hch' Hcnt'. rewrite u32_small by (unfold is_u32, PGSIZE, KERNBASE in *; lia).
    replace (4096 * n + PGSIZE) with (4096 * Z.of_nat (length (cfs ++ [p]))) by (rewrite length_app; simpl; unfold PGSIZE, n; lia).
    apply (IH free' dtabs'); try done; rewrite length_app; simpl length; unfold page_end; try (fold n; zlia).
    intros k Hk. apply Hmap. lia.
  - intros dtabs' s' Hch' Hcnt'. exists [], dtabs', cfs. split; [done|]. split; [done|]. intros _.
    unfold counted in Hcnt'. simpl in Hcnt'. fold n. lia.
Qed.
Context (kdata : Z).
Hypothesis Hdata : kdata mod 4096 = 0 /\ KERNLINK < kdata < KERNBASE + PHYSTOP.

(** A directory just built is a child without pages. *)
Lemma child_nil free d dtabs s : kernel_dir kend kdata ie L free0 free d dtabs s -> took free0 free m0 (kram s) ->
  child free d dtabs [] s.
Proof.
  intros [Hvs _ Hu Hp _] Ht. split; try done.
  - intros p Hp'. destruct (Hp p Hp'). split; [done|]. split; [done|by apply not_elem_of_nil].
  - by intros f ?%elem_of_nil.
  - constructor.
Qed.

(** The pages of a child are the parent's, byte for byte. *)
Definition same_user (sz : Z) (m : mem) (d : Z) : Prop := forall va, 0 <= va < 4096 * page_end sz ->
  exists e e', mmu m0 pgdir va = Some e /\ mmu m d va = Some e' /\ PTE_FLAGS e' = Z.lor (PTE_FLAGS e) PTE_P /\
    frame e' ∈ free0 /\ m (frame e' + va mod 4096) = m0 (frame e + va mod 4096).

Lemma flags_pte pa e : pa mod 4096 = 0 -> 0 <= pa -> PTE_FLAGS (pte_val pa (PTE_FLAGS e)) = Z.lor (PTE_FLAGS e) PTE_P.
Proof.
  intros Hm Hpa. pose proof (flags_range e) as Hf. unfold pte_val. rewrite <- Z.lor_assoc.
  assert (Hr : 0 <= Z.lor (PTE_FLAGS e) PTE_P < 4096).
  { apply (lor_lt 12); unfold PTE_P; lia. }
  rewrite lor_flags, PTE_FLAGS_eq by done. zlia.
Qed.

Lemma child_same_user free d dtabs cfs s sz : 0 <= sz < KERNBASE -> child free d dtabs cfs s -> Z.of_nat (length cfs) = page_end sz ->
  same_user sz (kram s) d.
Proof.
  intros Hsz Hch Hlen va Hva. assert (Hend' : page_end sz <= 524288) by (unfold page_end, KERNBASE in *; zlia).
  destruct (lookup_lt_is_Some_2 cfs (Z.to_nat (va / 4096))) as [f Hf]; [zlia|].
  destruct (ch_map _ _ _ _ _ Hch _ _ Hf) as (e & H1 & H2 & H3). rewrite Z2Nat.id in H1, H2 by zlia.
  destruct (ch_frames _ _ _ _ _ Hch f) as [Hf0 _]; [by eapply list_elem_of_lookup_2|].
  assert (Hpg : ram_page f) by (rewrite Forall_forall in Hpages; by apply Hpages).
  destruct (v2p_page f Hpg) as (Hv1 & Hv2 & _).
  exists e, (pte_val (v2p f) (PTE_FLAGS e)). rewrite (frame_pte f) by (done || apply flags_range).
  rewrite (mmu_mapped kend (Hend0 kend Hend) m0 pgdir tabs) by (done || lia).
  rewrite (mmu_mapped kend (Hend0 kend Hend) (kram s) d dtabs) by (try apply Hch; lia).
  split; [done|]. split; [done|]. split; [apply flags_pte; [done|lia]|]. split; [done|]. apply H3. zlia.
Qed.

(** The pages of the child's space were free when the copy began. *)
Lemma child_space free d dtabs cfs s p : child free d dtabs cfs s -> space_page (kram s) d dtabs p -> p ∈ free0.
Proof.
  intros Hch [Hp|(n & e & Hn & He & <-)]; [by apply Hch in Hp as (? & _)|].
  destruct (cfs !! Z.to_nat n) as [f|] eqn:E.
  - destruct (ch_map _ _ _ _ _ Hch _ _ E) as (e0 & _ & Hm & _). rewrite Z2Nat.id in Hm by lia.
    rewrite He in Hm. injection Hm as ->. apply list_elem_of_lookup_2, (ch_frames _ _ _ _ _ Hch) in E as [Hf0 _].
    rewrite Forall_forall in Hpages. by rewrite frame_pte by (auto using flags_range).
  - apply lookup_ge_None in E. rewrite (ch_none _ _ _ _ _ Hch) in He by lia. done.
Qed.

(** After [copyuvm] the parent is as it was, and on success the child has a
    copy of its user pages; on failure the pages are given back, except those
    that a failed [setupkvm] or [mappages] loses. *)
Lemma wp_copyuvm sz s : m0 = kram s -> kmem_ok kend ie L free0 s -> 0 <= sz < KERNBASE ->
  (forall k, 0 <= k < page_end sz -> is_Some (mapped m0 tabs k)) ->
  wp (copyuvm kend kdata pgdir sz) (fun r s' =>
    (forall p a, space_page m0 pgdir tabs p -> in_page p a -> kram s' a = m0 a) /\
    exists free', kmem_ok kend ie L free' s' /\ (forall p, p ∈ free' -> p ∈ free0) /\
      (r <> 0 -> same_user sz (kram s') r) /\ (r = 0 -> Z.of_nat (length free0) <= 1026 + page_end sz)) s.
Proof.
  intros Em Hk Hsz Hmap. unfold copyuvm.
  wp_call (wp_setupkvm kend Hend kdata Hdata ie L free0); [done|]. intros d s1 (free1 & Hk1 & Ht1 & Hcase).
  rewrite <- Em in Ht1.
  assert (Hpe : 0 <= page_end sz) by (unfold page_end; zlia).
  destruct Hcase as [[-> Hfew]|(Hd0 & dtabs & Hkd)]; simpl.
  { apply wp_ret. split; [intros p a Hp Ha; by eapply parent_keeps|]. exists free1. split; [done|].
    split; [|split; [done|intros _; lia]]. intros p Hp. destruct Ht1 as [[tk ->] _]. apply elem_of_app. by right. }
  rewrite (proj2 (Z.eqb_neq d 0) Hd0).
  wp_call (wp_copyuvm_loop d sz (S (Z.to_nat (sz / PGSIZE + 1))) free1 dtabs []); try done;
    try (unfold page_end, PGSIZE in *; simpl length; zlia); [by apply child_nil|pose proof (kd_count _ _ _ _ _ _ _ _ _ Hkd); unfold counted; simpl; lia|].
  intros ok s2 (free2 & dtabs2 & cfs & Hch & Hlen & Hfew). pose proof (ch_took _ _ _ _ _ Hch) as Ht2.
  destruct ok.
  - apply wp_ret. split; [intros p a Hp Ha; by eapply parent_keeps|]. exists free2. split; [apply Hch|].
    split; [intros p Hp; destruct Ht2 as [[tk ->] _]; apply elem_of_app; by right|].
    split; [|done]. intros _. eapply child_same_user; [done|done|by apply Hlen].
  - wp_call (wp_freevm kend Hend ie L d dtabs2 free2); [apply Hch|by eapply child_user_ok|].
    intros [] s3 (fs & Hk3 & Hfs & Hm3). apply wp_ret.
    assert (Hsp : forall p, p ∈ fs -> p ∈ free0).
    { intros p Hp. apply Hfs in Hp. by eapply child_space. }
    split.
    + intros p a Hp Ha. rewrite Hm3; [by eapply parent_keeps|]. intros q Hq Ha'. apply Hsp in Hq.
      destruct (Hparent p Hp) as [Hpg Hn]. apply Hn. rewrite Forall_forall in Hpages.
      rewrite (in_page_unique p q a); [done|apply Hpg|by apply Hpages|done|done].
    + exists (fs ++ free2). split; [done|]. split; [|split; [done|]].
      2:{ intros _. specialize (Hfew eq_refl). pose proof (pt_ok_size kend _ _ _ (vs_pt _ _ _ _ _ _ _ (ch_vs _ _ _ _ _ Hch))). lia. }
      intros p [Hp|Hp]%elem_of_app; [by apply Hsp|].
      destruct Ht2 as [[tk ->] _]. apply elem_of_app. by right.
Qed.
End copy.
