(* ===== verification/VmOut.v ===== *)
(** * Writing to user addresses (vm.c: uva2ka, copyout)

    Where a user address is in memory, what it means that bytes were written
    there, and that [copyout] does so page by page. *)

From S2P Require Import Prelude Params CString Spinlock Kalloc Vm VmMap VmUser.

(** The kernel address of the user address [va]. *)
Definition user_phys (m : mem) (tabs : gmap Z Z) (va : Z) : Z :=
  match mapped m tabs (va / 4096) with Some e => frame e + va mod 4096 | None => 0 end.

(** Memory [m'] is [m] with [buf] at the user address [va]. *)
Record written (tabs : gmap Z Z) (va : Z) (buf : list Z) (m m' : mem) : Prop := {
  wr_in : forall i b, buf !! i = Some b -> m' (user_phys m tabs (va + Z.of_nat i)) = b;
  wr_out : forall a, (forall i, (i < length buf)%nat -> a <> user_phys m tabs (va + Z.of_nat i)) -> m' a = m a }.

Section copyout.
Context (kend : Z).
Hypothesis Hend : KERNLINK <= kend.
Context (pgdir : Z) (tabs : gmap Z Z) (lo hi : Z).
Hypothesis Hlo : 0 <= lo.
Hypothesis Hhi : hi <= 524288.

Record writable_user (m : mem) : Prop := {
  wu_pt : pt_ok kend m pgdir tabs;
  wu_user : user_ok kend m pgdir tabs [] lo hi;
  wu_map : forall n, lo <= n < hi -> exists e, mapped m tabs n = Some e /\ has e PTE_U = true }.

(** Bytes of a user page are not in a table. *)
Lemma writable_user_store m m' n e : writable_user m -> lo <= n < hi -> mapped m tabs n = Some e ->
  (forall a, ~ in_page (frame e) a -> m' a = m a) ->
  writable_user m' /\ forall k, mapped m' tabs k = mapped m tabs k.
Proof.
  intros [Hp Hu Hm] Hn He Hm'. destruct (uo_page _ _ _ _ _ _ _ Hu n e Hn He) as (Hpg & Hnt & _).
  assert (Hk : forall q a, table_page pgdir tabs q -> in_page q a -> m' a = m a).
  { intros q a Hq Ha. apply Hm'. intros Ha'. apply Hnt.
    rewrite (in_page_unique (frame e) q a); [done|apply Hpg|by eapply table_page_aligned|done|done]. }
  assert (Hmap : forall k, mapped m' tabs k = mapped m tabs k).
  { intros k. eapply mapped_ext; [exact Hp|done]. }
  split; [|done]. split.
  - eapply pt_ok_ext; [|exact Hp]. intros a Ha. apply (Hk pgdir); [by left|done].
  - destruct Hu as [Hu1 Hu2]. split; intros *; rewrite !Hmap; eauto.
  - intros k Hk'. rewrite Hmap. auto.
Qed.

Lemma user_phys_page m n e va : mapped m tabs n = Some e -> va / 4096 = n ->
  user_phys m tabs va = frame e + va mod 4096.
Proof. intros He <-. unfold user_phys. by rewrite He. Qed.

(** Addresses of different pages are different. *)
Lemma user_phys_apart m va va' : writable_user m -> lo <= va / 4096 < hi -> lo <= va' / 4096 < hi ->
  va / 4096 <> va' / 4096 -> user_phys m tabs va <> user_phys m tabs va'.
Proof.
  intros [Hp Hu Hm] H1 H2 Hne E. destruct (Hm _ H1) as (e & He & _). destruct (Hm _ H2) as (e' & He' & _).
  rewrite (user_phys_page m (va / 4096) e) in E by done. rewrite (user_phys_page m (va' / 4096) e') in E by done.
  apply Hne. eapply (uo_inj _ _ _ _ _ _ _ Hu); [done|done|done|done|].
  destruct (uo_page _ _ _ _ _ _ _ Hu _ _ H1 He) as ([Ha _] & _). destruct (uo_page _ _ _ _ _ _ _ Hu _ _ H2 He') as ([Ha' _] & _).
  pose proof (Z.mod_pos_bound va 4096). pose proof (Z.mod_pos_bound va' 4096).
  apply (in_page_unique _ _ (frame e + va mod 4096)); [done|done|unfold in_page; lia|unfold in_page; lia].
Qed.

(** A chunk within one page, then the rest. *)
Lemma written_app m m1 m2 va buf k n e : writable_user m -> lo <= n < hi -> mapped m tabs n = Some e -> va / 4096 = n ->
  k = Z.to_nat (4096 - va mod 4096) -> va + Z.of_nat (length buf) <= 4096 * hi ->
  m1 = store m (frame e + va mod 4096) (take k buf) ->
  written tabs (4096 * (n + 1)) (drop k buf) m1 m2 -> (forall j, mapped m1 tabs j = mapped m tabs j) ->
  written tabs va buf m m2.
Proof.
  intros Hw Hn He Hva -> Hlen Em [Hin Hout] Hmap.
  assert (Hph : forall v, user_phys m1 tabs v = user_phys m tabs v) by (intros v; unfold user_phys; by rewrite Hmap).
  pose proof (Z.mod_pos_bound va 4096) as Hmod. set (k := Z.to_nat (4096 - va mod 4096)) in *.
  assert (Hfirst : forall i, (i < k)%nat -> user_phys m tabs (va + Z.of_nat i) = frame e + va mod 4096 + Z.of_nat i).
  { intros i Hi. rewrite (user_phys_page m n e) by (done || zlia). zlia. }
  assert (Hrest : forall i, (k + i < length buf)%nat -> 4096 * (n + 1) + Z.of_nat i = va + Z.of_nat (k + i) /\
     n < (va + Z.of_nat (k + i)) / 4096 < hi) by (intros i Hi; zlia).
  split.
  - intros i b Hb. destruct (decide (i < k)%nat) as [Hi|Hi].
    + assert (Hil : (i < length buf)%nat) by (by eapply lookup_lt_Some).
      rewrite Hout.
      * rewrite Em, store_lookup, Hfirst, length_take by done. rewrite decide_True by lia.
        replace (Z.to_nat _) with i by lia. by rewrite lookup_take_lt, Hb.
      * intros j Hj. rewrite length_drop in Hj. rewrite Hph. destruct (Hrest j ltac:(lia)) as [-> Hr].
        apply user_phys_apart; [done| | |]; zlia.
    + replace (va + Z.of_nat i) with (4096 * (n + 1) + Z.of_nat (i - k)%nat) by (unfold k; zlia).
      rewrite <- Hph. apply Hin. rewrite lookup_drop. by replace (k + (i - k))%nat with i by lia.
  - intros a Ha. rewrite Hout.
    + rewrite Em, store_lookup, length_take. case_decide as Hd; [|done]. exfalso.
      apply (Ha (Z.to_nat (a - (frame e + va mod 4096)))); [lia|]. rewrite Hfirst by lia. lia.
    + intros j Hj. rewrite length_drop in Hj. rewrite Hph. destruct (Hrest j ltac:(lia)) as [-> _]. apply Ha. lia.
Qed.

(** One byte, then the rest. *)
Lemma written_cons m m1 m2 va b l : writable_user m -> lo <= va / 4096 -> va + 1 + Z.of_nat (length l) <= 4096 * hi ->
  m1 = upd m (user_phys m tabs va) b -> written tabs (va + 1) l m1 m2 -> (forall j, mapped m1 tabs j = mapped m tabs j) ->
  written tabs va (b :: l) m m2.
Proof.
  intros Hw H1 H2 Em [Hin Hout] Hmap.
  assert (Hph : forall v, user_phys m1 tabs v = user_phys m tabs v) by (intros v; unfold user_phys; by rewrite Hmap).
  assert (Hne : forall i, (i < length l)%nat -> user_phys m tabs va <> user_phys m tabs (va + 1 + Z.of_nat i)).
  { intros i Hi E. destruct (decide (va / 4096 = (va + 1 + Z.of_nat i) / 4096)) as [Eq|Eq].
    - destruct (wu_map _ Hw (va / 4096)) as (e & He & _); [zlia|].
      rewrite (user_phys_page m (va / 4096) e) in E by done. rewrite (user_phys_page m (va / 4096) e) in E by done. zlia.
    - apply (user_phys_apart m va (va + 1 + Z.of_nat i)) in E; [done|done|zlia|zlia|done]. }
  split.
  - intros [|i] c Hc; simpl in Hc.
    + injection Hc as <-. rewrite Z.add_0_r, Hout.
      * rewrite Em. unfold upd. by rewrite Z.eqb_refl.
      * intros i Hi. rewrite Hph. by apply Hne.
    + replace (va + Z.of_nat (S i)) with (va + 1 + Z.of_nat i) by lia. rewrite <- Hph. by apply Hin.
  - intros a Ha. rewrite Hout.
    + rewrite Em. unfold upd. rewrite (proj2 (Z.eqb_neq a _)); [done|]. specialize (Ha O). simpl in Ha. rewrite Z.add_0_r in Ha. apply Ha. lia.
    + intros i Hi. rewrite Hph. specialize (Ha (S i)). replace (va + 1 + Z.of_nat i) with (va + Z.of_nat (S i)) by lia. apply Ha. simpl. lia.
Qed.

Lemma wp_uva2ka n s : writable_user (kram s) -> lo <= n < hi ->
  wp (uva2ka pgdir (4096 * n)) (fun r s' => s' = s /\ exists e, mapped (kram s) tabs n = Some e /\ r = frame e /\ r <> 0) s.
Proof.
  intros [Hp Hu Hm] Hn. pose proof (Hend0 kend Hend) as Hb. destruct (Hm n Hn) as (e & He & HU). unfold uva2ka.
  wp_call (wp_walk_found kend Hb (kram s) pgdir tabs); [done|done|lia|by right|]. intros r s' [-> ->].
  destruct (uo_page _ _ _ _ _ _ _ Hu n e Hn He) as (Hpg & _ & _). apply (ram_page_range kend Hb) in Hpg as Hr.
  assert (Ed : PDX (4096 * n) = n / 1024) by (rewrite PDX_eq by lia; zlia).
  assert (Et : PTX (4096 * n) = n mod 1024) by (rewrite PTX_eq; f_equal; zlia).
  rewrite Ed, Et. assert (He' := He). unfold mapped in He'. destruct (tabs !! (n / 1024)) as [t|] eqn:E; [|done].
  destruct (pt_tab _ _ _ _ Hp _ _ E) as (_ & Htp & _). apply (ram_page_range kend Hb) in Htp.
  pose proof (Z.mod_pos_bound n 1024). unfold KERNBASE in *. replace (t + 4 * (n mod 1024) =? 0) with false by lia.
  apply wp_bind, wp_gets. cbv zeta in *.
  destruct (has (load32 (kram s) (t + 4 * (n mod 1024))) PTE_P) eqn:EP; [|done]. injection He' as He'. rewrite He', HU.
  apply wp_ret. split; [done|]. exists e. split; [done|]. split; [done|]. fold (frame e). lia.
Qed.

Lemma wp_copyout_loop fuel : forall va buf s,
  writable_user (kram s) -> lo <= va / 4096 -> va + Z.of_nat (length buf) <= 4096 * hi ->
  Z.of_nat (length buf) + va mod 4096 <= 4096 * (Z.of_nat fuel - 1) ->
  wp (copyout_loop fuel pgdir va buf) (fun r s' => r = 0 /\ s' = with_ram (kram s') s /\
    written tabs va buf (kram s) (kram s')) s.
Proof.
  induction fuel as [|fuel IH]; intros va buf s Hw H1 H2 Hf; [zlia|]. cbn [copyout_loop].
  case_bool_decide as Hb; [subst buf; apply wp_ret; split; [done|]; split; [by destruct s|by split]|].
  assert (Hl : (length buf > 0)%nat) by (destruct buf; simpl; [done|lia]).
  set (n := va / 4096). assert (Hn : lo <= n < hi) by (unfold n in *; zlia).
  assert (E : PGROUNDDOWN va = 4096 * n) by (rewrite PGROUNDDOWN_eq; unfold n; zlia). rewrite E. cbv zeta.
  wp_call (wp_uva2ka n); [done|done|]. intros r s1 (-> & e & He & -> & Hnz).
  rewrite (proj2 (Z.eqb_neq _ 0) Hnz). apply wp_bind, wp_modify.
  replace (va - 4096 * n) with (va mod 4096) by (unfold n; zlia).
  unfold PGSIZE. set (k := Z.to_nat (4096 - va mod 4096)). set (m1 := store (kram s) (frame e + va mod 4096) (take k buf)).
  match goal with |- wp _ _ ?st => change st with (with_ram m1 s) end.
  pose proof (Z.mod_pos_bound va 4096) as Hmod.
  destruct (writable_user_store (kram s) m1 n e) as [Hw1 Hmap]; [done|done|done| |].
  { intros a Ha. unfold m1. rewrite store_lookup, length_take, decide_False; [done|]. unfold in_page, k in *. lia. }
  rewrite u32_small by (unfold is_u32; lia). replace (4096 * n + 4096) with (4096 * (n + 1)) by lia.
  eapply wp_mono; [apply IH; [exact Hw1|zlia| |]|]; try (rewrite length_drop; unfold k, n in *; zlia).
  intros r s2 (-> & Es & Hwr). split; [done|]. split; [by rewrite Es|].
  eapply (written_app (kram s) m1); [done|exact Hn|done|done|done|done|done|exact Hwr|done].
Qed.
End copyout.
