(* ===== verification/VmProps.v ===== *)
(** * What the address-space code guarantees (vm.c)

    The theorems are stated with [mmu], the translation the processor makes
    from the tables in memory. *)

From S2P Require Import Prelude Params CString Spinlock Kalloc Vm VmMap VmUser VmCopy VmOut.

(** ** The kernel part of an address space *)

(** The table in the comment above [kmap]: where each kernel address goes, and
    whether it may be written. *)
Definition kernel_translation (kdata va : Z) : option (Z * bool) :=
  if va <? KERNBASE then None
  else if va <? KERNLINK then Some (va - KERNBASE, true)
  else if va <? kdata then Some (va - KERNBASE, false)
  else if va <? KERNBASE + PHYSTOP then Some (va - KERNBASE, true)
  else if va <? DEVSPACE then None
  else Some (va, true).

Definition translates (m : mem) (pgdir va : Z) : option (Z * bool) :=
  (fun e => (PTE_ADDR e + va mod 4096, has e PTE_W)) <$> mmu m pgdir va.

Lemma land_aligned pa f : pa mod 4096 = 0 -> 0 <= f < 4096 -> Z.land pa f = 0.
Proof.
  intros Hpa Hf. apply Z.bits_inj'. intros k Hk. rewrite Z.land_spec, Z.bits_0.
  assert (E : pa = pa / 4096 * 4096) by (pose proof (Z.div_mod pa 4096); lia). rewrite E. change (pa / 4096 * 4096) with (pa / 4096 * 2 ^ 12). destruct (decide (k < 12)).
  - by rewrite Z.mul_pow2_bits_low.
  - rewrite (Z.bits_above_log2 f); [by rewrite andb_false_r|lia|].
    destruct (decide (f = 0)) as [->|]; [simpl; lia|]. apply Z.log2_lt_pow2; [lia|].
    apply Z.lt_le_trans with (2 ^ 12); [change (2 ^ 12) with 4096; lia|]. apply Z.pow_le_mono_r; lia.
Qed.

Lemma translates_pte m pgdir va pa perm : pa mod 4096 = 0 -> 0 <= pa < 4294967296 -> perm = 0 \/ perm = PTE_W ->
  mmu m pgdir va = Some (pte_val pa perm) -> translates m pgdir va = Some (pa + va mod 4096, perm =? PTE_W).
Proof.
  intros Hpa Hr Hperm E. unfold translates. rewrite E. simpl. f_equal.
  assert (Hp : 0 <= perm < 4096) by (destruct Hperm as [->| ->]; done).
  destruct (pte_val_eq pa perm Hpa Hr Hp) as (_ & _ & ->). f_equal.
  unfold has, pte_val. rewrite !Z.land_lor_distr_l.
  rewrite (land_aligned pa PTE_W) by done. destruct Hperm as [->| ->]; done.
Qed.

(** An address in a mapped range of the kernel. *)
Lemma range_translates m pgdir tabs l va k n0 c : 0 <= va < 4294967296 -> mmu m pgdir va = mapped m tabs (va / 4096) ->
  kernel_map l m tabs -> (k, n0, c) ∈ l -> in_range n0 c (va / 4096) ->
  km_start k mod 4096 = 0 -> 0 <= km_start k -> km_start k + 4096 * (va / 4096 - n0) < 4294967296 ->
  km_perm k = 0 \/ km_perm k = PTE_W ->
  translates m pgdir va = Some (km_start k + (va - 4096 * n0), km_perm k =? PTE_W).
Proof.
  intros Hva Hmmu Hkm Hin Hran H1 H2 H3 H4. assert (E := Hkm k n0 c (va / 4096) Hin Hran). rewrite <- Hmmu in E.
  unfold in_range in Hran. rewrite (translates_pte _ _ _ (km_start k + 4096 * (va / 4096 - n0)) (km_perm k)); [|zlia|lia|done|exact E].
  do 2 f_equal. zlia.
Qed.

(** C30 [setupkvm] either runs out of memory or returns a directory in which
    the processor finds the documented kernel map: low memory and the
    I/O space writable at [va - KERNBASE], kernel text read-only, kernel data
    up to [PHYSTOP] writable, devices at their own address, and no address
    below [KERNBASE].  The pages used come from the free list; with more than
    1025 pages (a directory and 1024 tables) on it, memory does not run out. *)
Theorem setupkvm_maps kend kdata ie L free s :
  KERNLINK <= kend -> kdata mod 4096 = 0 /\ KERNLINK < kdata < KERNBASE + PHYSTOP -> kmem_ok kend ie L free s ->
  wp (setupkvm kdata) (fun r s' => exists free', kmem_ok kend ie L free' s' /\ took free free' (kram s) (kram s') /\
    (r <> 0 -> forall va, 0 <= va < 4294967296 -> kernel_translation kdata va = None \/
       translates (kram s') r va = kernel_translation kdata va) /\
    (r <> 0 -> forall va, 0 <= va < KERNBASE -> mmu (kram s') r va = None) /\
    (r = 0 -> (length free <= 1025)%nat)) s.
Proof.
  intros Hend Hdata Hk. eapply wp_mono; [by apply (wp_setupkvm kend Hend kdata Hdata ie L free)|].
  intros r s' (free' & Hk' & Ht & Hcase). exists free'. split; [done|]. split; [done|].
  destruct Hcase as [[-> Hfew]|(Hr & tabs & [Hvs Hkm Hu _ _])]; [done|]. assert (Hend0 := Hend0 kend Hend).
  assert (Hmmu : forall va, 0 <= va < 4294967296 -> mmu (kram s') r va = mapped (kram s') tabs (va / 4096)).
  { intros va Hva. apply (mmu_mapped kend Hend0); [apply Hvs|done]. }
  destruct Hdata as [Hdm Hdr]. split; [|split; [|done]]; intros _ va Hva.
  2:{ unfold KERNBASE in *. rewrite Hmmu by lia. apply Hu. zlia. }
  assert (Hv : v2p kdata = kdata - 2147483648) by (unfold v2p, KERNLINK, EXTMEM, KERNBASE, PHYSTOP in *; apply u32_small; unfold is_u32; lia).
  pose proof (fun k n0 c => range_translates (kram s') r tabs (kmap_ranges kdata) va k n0 c Hva (Hmmu va Hva) Hkm) as Hgo.
  unfold kernel_translation, KERNLINK, KERNBASE, PHYSTOP, DEVSPACE, EXTMEM in *.
  change (2147483648 + 1048576) with 2148532224 in *. change (2147483648 + 234881024) with 2382364672 in *.
  destruct (Z.ltb_spec va 2147483648); [by left|].
  destruct (Z.ltb_spec va 2148532224); [|destruct (Z.ltb_spec va kdata); [|destruct (Z.ltb_spec va 2382364672)]].
  - right. rewrite (Hgo (Kmap 2147483648 0 1048576 PTE_W) 524288 255%nat); unfold in_range; simpl.
    { do 2 f_equal; zlia. } { by apply elem_of_cons; left. } { zlia. } { done. } { done. } { zlia. } { by right. }
  - right. rewrite (Hgo (Kmap 2148532224 (v2p 2148532224) (v2p kdata) 0) 524544 (Z.to_nat (kdata / 4096 - 524545)));
      unfold in_range; change (v2p 2148532224) with 1048576; simpl.
    { do 2 f_equal; zlia. } { by apply elem_of_cons; right; apply elem_of_cons; left. } { zlia. } { done. } { done. } { zlia. } { by left. }
  - right. rewrite (Hgo (Kmap kdata (v2p kdata) 234881024 PTE_W) (kdata / 4096) (Z.to_nat (581631 - kdata / 4096)));
      unfold in_range; simpl; rewrite ?Hv.
    { do 2 f_equal; zlia. } { rewrite <- Hv. by do 2 (apply elem_of_cons; right); apply elem_of_cons; left. } { zlia. } { zlia. } { lia. } { zlia. } { by right. }
  - destruct (Z.ltb_spec va 4261412864); [by left|right].
    rewrite (Hgo (Kmap 4261412864 4261412864 0 PTE_W) 1040384 8191%nat);
      unfold in_range; change (Z.of_nat 8191) with 8191; simpl.
    { do 2 f_equal; zlia. } { by do 3 (apply elem_of_cons; right); apply elem_of_cons; left. } { zlia. } { done. } { done. } { zlia. } { by right. }
Qed.

(** ** Copying and freeing an address space *)

(** C29 [copyuvm] copies a process image: when it succeeds, every user address
    of the parent below the page end of [sz] is mapped in the child, to a page
    that was free, with the parent's permissions and the parent's byte.
    It fails only for lack of memory: with more than 1026 pages beside those
    of the image (a directory, 1024 tables, a spare page) it succeeds.  In both
    cases no page of the parent (its directory, tables and user pages) changes
    and the allocator stays well formed. *)
Theorem copyuvm_correct kend kdata ie L free pgdir tabs sz s :
  KERNLINK <= kend -> kdata mod 4096 = 0 /\ KERNLINK < kdata < KERNBASE + PHYSTOP ->
  kmem_ok kend ie L free s -> pt_ok kend (kram s) pgdir tabs ->
  (forall p, space_page (kram s) pgdir tabs p -> ram_page kend p /\ p ∉ free) -> 0 <= sz < KERNBASE ->
  (forall k, 0 <= k < page_end sz -> is_Some (mapped (kram s) tabs k)) ->
  wp (copyuvm kend kdata pgdir sz) (fun r s' =>
    (forall p a, space_page (kram s) pgdir tabs p -> in_page p a -> kram s' a = kram s a) /\
    exists free', kmem_ok kend ie L free' s' /\ (forall p, p ∈ free' -> p ∈ free) /\
      (r <> 0 -> same_user (kram s) pgdir free sz (kram s') r) /\
      (r = 0 -> Z.of_nat (length free) <= 1026 + page_end sz)) s.
Proof.
  intros Hend Hdata Hk Hpt Hpar Hsz Hmap. eapply (wp_copyuvm kend Hend); try done. apply Hk.
Qed.

(** C31 [freevm] gives back every page of an address space: afterwards the free
    list is the old one with exactly the directory, the tables and the user
    pages added, each once; no other byte of memory changed. *)
Theorem freevm_returns kend ie L pgdir tabs free s :
  KERNLINK <= kend -> vs kend ie L free pgdir tabs s -> user_ok kend (kram s) pgdir tabs free 0 524288 ->
  wp (freevm kend pgdir) (fun _ s' => exists fs, kmem_ok kend ie L (fs ++ free) s' /\ NoDup (fs ++ free) /\
    (forall p, p ∈ fs <-> space_page (kram s) pgdir tabs p) /\
    (forall a, (forall p, p ∈ fs -> ~ in_page p a) -> kram s' a = kram s a)) s.
Proof.
  intros Hend Hvs Huo. eapply wp_mono; [by apply (wp_freevm kend Hend ie L pgdir tabs free)|].
  intros [] s' (fs & Hk & Hfs & Hm). exists fs. split; [done|]. split; [apply Hk|done].
Qed.

(** ** Growing a process *)

(** C34 [allocuvm] does not look at the result of [mappages].  When memory ends
    between the page and the table for it, the call reports success, yet the
    processor does not find the new address, and the page is lost. *)
Theorem allocuvm_unmapped kend ie L pgdir tabs p n s :
  KERNLINK <= kend -> vs kend ie L [p] pgdir tabs s -> 0 <= n < 524287 -> tabs !! (n / 1024) = None ->
  wp (allocuvm kend pgdir (4096 * n) (4096 * n + 4096)) (fun r s' => r = 4096 * n + 4096 /\
    mmu (kram s') pgdir (4096 * n) = None /\ kmem_ok kend ie L [] s') s.
Proof.
  intros Hend Hvs Hn Ht. pose proof (Hend0 kend Hend) as Hb. pose proof Hvs as [Hk Hp Hsep].
  pose proof (Forall_inv (ko_pages _ _ _ _ _ Hk)) as Hpg. destruct (ram_page_range kend Hb p Hpg) as [Hp1 _].
  unfold allocuvm. unfold KERNBASE in *. replace (_ <=? _) with false by lia. replace (_ <? _) with false by lia.
  assert (E : PGROUNDUP (4096 * n) = 4096 * n) by (rewrite PGROUNDUP_eq by lia; zlia). rewrite E.
  replace ((4096 * n + 4096 - 4096 * n) / PGSIZE + 1) with 2 by (unfold PGSIZE; zlia).
  change (S (Z.to_nat 2)) with 3%nat. cbn [allocuvm_loop]. replace (4096 * n <? 4096 * n + 4096) with true by lia.
  simpl negb. cbv iota. wp_call (wp_kalloc kend Hb); [done|]. intros r s1 (Hm1 & _ & -> & Hk1).
  replace (p =? 0) with false by lia. apply wp_bind, wp_modify.
  destruct (vs_write kend ie L [] pgdir tabs p (memset (kram s) p 0 PGSIZE) s1) as [Hvs1 Hmap1].
  { split; [done|by rewrite Hm1|by intros ? ?%elem_of_nil]. } { done. } { by apply not_elem_of_nil. }
  { apply Hsep. by apply elem_of_cons; left. }
  { intros a Ha. by rewrite memset_page, decide_False, Hm1. }
  match goal with |- wp _ _ ?st => change st with (with_ram (memset (kram s1) p 0 PGSIZE) s1) end. rewrite Hm1.
  wp_call (wp_mappages kend Hb ie L pgdir (Z.lor PTE_W PTE_U) n 0 (v2p p) PGSIZE [] tabs); try done; try lia.
  { apply (v2p_page kend Hend p Hpg). } { apply (v2p_page kend Hend p Hpg). } { pose proof (v2p_page kend Hend p Hpg). lia. }
  { intros k Hr. unfold in_range in Hr. assert (k = n) as -> by lia. cbn [kram with_ram].
    rewrite Hmap1. unfold mapped. by rewrite Ht. }
  intros r s2 (free' & tabs' & Hvs2 & [[tk Etk] _ Hnew _] & _). symmetry in Etk. apply app_nil in Etk as [_ ->].
  assert (Ht' : tabs' !! (n / 1024) = None).
  { destruct (tabs' !! (n / 1024)) as [t|] eqn:Et; [|done]. apply Hnew in Et as [Et|[Et _]]; [congruence|by apply elem_of_nil in Et]. }
  unfold PGSIZE. rewrite u32_small by (unfold is_u32; lia). rewrite Z.ltb_irrefl. apply wp_ret. split; [done|].
  split; [|apply Hvs2]. rewrite (mmu_mapped kend Hb _ _ tabs') by (apply Hvs2 || lia).
  unfold mapped. replace (4096 * n / 4096) with n by zlia. by rewrite Ht'.
Qed.

(** ** Writing to a user address *)

(** [copyout] writes [buf] at the user address [va] of any address space
    whose user pages are mapped, user-accessible and distinct: each byte is
    where the processor will find it, across page boundaries, nothing else
    changes and the call succeeds. *)
Theorem copyout_correct kend pgdir tabs lo hi va buf s :
  KERNLINK <= kend -> 0 <= lo -> hi <= 524288 -> writable_user kend pgdir tabs lo hi (kram s) ->
  lo <= va / 4096 -> va + Z.of_nat (length buf) <= 4096 * hi ->
  wp (copyout pgdir va buf) (fun r s' => r = 0 /\ s' = with_ram (kram s') s /\
    written tabs va buf (kram s) (kram s')) s.
Proof.
  intros Hend Hlo Hhi Hw H1 H2. apply (wp_copyout_loop kend Hend pgdir tabs lo hi); try done.
  rewrite Nat2Z.inj_add, Nat2Z.inj_div. change (Z.of_nat (Z.to_nat PGSIZE)) with 4096. zlia.
Qed.

(** ** A concrete machine *)

(** A directory, one table and one user page, and eighty free pages. *)
Definition demo_dir : Z := 0x80200000.
Definition demo_table : Z := 0x80201000.
Definition demo_frame : Z := 0x80202000.
Definition demo_free : list Z := pages 0x80210000 80.
Definition demo_tabs : gmap Z Z := {[ 0 := demo_table ]}.
Definition demo_links (n : nat) (m : mem) : mem :=
  foldr (fun k m => store32 m (0x80210000 + 4096 * Z.of_nat k)
    (if bool_decide (S k = n) then 0 else 0x80210000 + 4096 * Z.of_nat (S k))) m (seq 0 n).
Definition demo_space (n : nat) : kmem_st :=
  KmemSt boot_machine true 0x80210000 (fun a =>
    if a <? 0x80203000
    then store32 (store32 (fun _ => 0) demo_dir (pde_of demo_table)) demo_table (pte_val (v2p demo_frame) 7) a
    else demo_links n (fun _ => 0) a).

Lemma demo_space_kmem : kmem_ok demo_kend true [] demo_free (demo_space 80).
Proof.
  split; [apply boot_lockstate|by apply not_elem_of_nil|simpl; lia|by vm_compute| |].
  - by apply (bool_decide_unpack _); vm_compute.
  - repeat constructor; by vm_compute.
Qed.

Lemma demo_tabs_Some i t : demo_tabs !! i = Some t -> 0 = i /\ demo_table = t.
Proof. apply lookup_singleton_Some. Qed.

Lemma demo_mapped n m : let s := demo_space n in
  (forall k, 0 <= k < 1024 -> load32 (kram s) (demo_table + 4 * k) = if k =? 0 then pte_val (v2p demo_frame) 7 else 0) ->
  m = kram s -> forall k, mapped m demo_tabs k = if k =? 0 then Some (pte_val (v2p demo_frame) 7) else None.
Proof.
  intros s Hl -> k. unfold mapped, demo_tabs. pose proof (Z.mod_pos_bound k 1024). destruct (decide (k / 1024 = 0)) as [E|E].
  - rewrite E, lookup_singleton_eq. rewrite Hl by lia. replace (k mod 1024) with k by zlia. by destruct (k =? 0).
  - rewrite lookup_singleton_ne by done. destruct (Z.eqb_spec k 0) as [->|]; done.
Qed.

Definition demo_entries (n : nat) : bool :=
  forallb (fun k => load32 (kram (demo_space n)) (demo_table + 4 * k) =? (if k =? 0 then pte_val (v2p demo_frame) 7 else 0)) (seqZ 0 1024) &&
  forallb (fun k => load32 (kram (demo_space n)) (demo_dir + 4 * k) =? (if k =? 0 then pde_of demo_table else 0)) (seqZ 0 1024).

Lemma demo_space_pt n : demo_entries n = true -> pt_ok demo_kend (kram (demo_space n)) demo_dir demo_tabs /\
  (forall k, mapped (kram (demo_space n)) demo_tabs k = if k =? 0 then Some (pte_val (v2p demo_frame) 7) else None).
Proof.
  unfold demo_entries. intros H. apply andb_true_iff in H as [Ht Hd].
  assert (Ht' := forall_range _ _ _ Ht). assert (Hd' := forall_range _ _ _ Hd). clear Ht Hd.
  rename Ht' into Ht, Hd' into Hd. cbv beta in Ht, Hd. split.
  - split; [by vm_compute| | |].
    + intros i t [<- <-]%demo_tabs_Some. by vm_compute.
    + by intros i j t [<- <-]%demo_tabs_Some [<- _]%demo_tabs_Some.
    + intros i Hi. specialize (Hd i ltac:(lia)). apply Z.eqb_eq in Hd. rewrite Hd. unfold demo_tabs.
      destruct (Z.eqb_spec i 0) as [E|E]; [by rewrite E, lookup_singleton_eq|by rewrite lookup_singleton_ne].
  - apply (demo_mapped n); [|done]. intros k Hk. specialize (Ht k ltac:(lia)). by apply Z.eqb_eq in Ht.
Qed.

Lemma demo_space_pages n : demo_entries n = true -> forall p, space_page (kram (demo_space n)) demo_dir demo_tabs p ->
  p = demo_dir \/ p = demo_table \/ p = demo_frame.
Proof.
  intros Hd p [[->|[i [<- <-]%demo_tabs_Some]]|(k & e & Hk & He & <-)]; [tauto|tauto|].
  rewrite (proj2 (demo_space_pt n Hd)) in He. destruct (k =? 0); [|done]. injection He as <-. by right; right.
Qed.

Lemma demo_entries_1 : demo_entries 1 = true.
Proof. by vm_compute. Qed.

Lemma demo_entries_80 : demo_entries 80 = true.
Proof. by vm_compute. Qed.

Lemma demo_user : user_ok demo_kend (kram (demo_space 80)) demo_dir demo_tabs demo_free 0 524288.
Proof.
  pose proof (proj2 (demo_space_pt 80 demo_entries_80)) as Hm. split.
  - intros n e _ He. rewrite Hm in He. destruct (n =? 0); [|done]. injection He as <-.
    change (frame (pte_val (v2p demo_frame) 7)) with demo_frame. split; [by vm_compute|].
    split; [intros [?|[i [_ ?]%demo_tabs_Some]]; done|].
    by apply (bool_decide_unpack (demo_frame ∉ demo_free)); vm_compute.
  - intros n n' e e' _ _ He He' _. rewrite Hm in He, He'. destruct (Z.eqb_spec n 0), (Z.eqb_spec n' 0); congruence.
Qed.

Lemma demo_sep p : p ∈ demo_free -> p <> demo_dir /\ p <> demo_table /\ p <> demo_frame.
Proof. intros (k & Hk & ->)%elem_of_pages. unfold demo_dir, demo_table, demo_frame. lia. Qed.

Lemma demo_vs : vs demo_kend true [] demo_free demo_dir demo_tabs (demo_space 80).
Proof.
  split; [apply demo_space_kmem|apply (demo_space_pt 80), demo_entries_80|].
  intros p Hp%demo_sep [->|[i [_ <-]%demo_tabs_Some]]; tauto.
Qed.

Lemma setupkvm_maps_witness :
  wp (setupkvm 0x80108000) (fun r s' => r <> 0 -> mmu (kram s') r 0 = None) (demo_space 80).
Proof.
  eapply wp_mono; [apply (setupkvm_maps demo_kend 0x80108000 true [] demo_free)|].
  - done.
  - by vm_compute.
  - apply demo_space_kmem.
  - intros r s' (free' & _ & _ & _ & Hu & _) Hr. by apply Hu.
Defined.

Lemma copyuvm_correct_witness :
  wp (copyuvm demo_kend 0x80108000 demo_dir 4096)
    (fun r s' => r <> 0 -> same_user (kram (demo_space 80)) demo_dir demo_free 4096 (kram s') r) (demo_space 80).
Proof.
  eapply wp_mono; [apply (copyuvm_correct demo_kend 0x80108000 true [] demo_free demo_dir demo_tabs 4096)|].
  - done.
  - by vm_compute.
  - apply demo_space_kmem.
  - apply (demo_space_pt 80), demo_entries_80.
  - intros p Hp%(demo_space_pages 80 demo_entries_80). split; [by destruct Hp as [->|[->| ->]]; vm_compute|].
    intros Hin%demo_sep. tauto.
  - done.
  - change (page_end 4096) with 1. intros k Hk. rewrite (proj2 (demo_space_pt 80 demo_entries_80)).
    by replace (k =? 0) with true by lia.
  - intros r s' (_ & free' & _ & _ & H & _). done.
Defined.

Lemma freevm_returns_witness :
  wp (freevm demo_kend demo_dir) (fun _ s' => exists fs, kmem_ok demo_kend true [] (fs ++ demo_free) s') (demo_space 80).
Proof.
  eapply wp_mono; [apply (freevm_returns demo_kend true [] demo_dir demo_tabs demo_free)|].
  - done.
  - apply demo_vs.
  - apply demo_user.
  - intros [] s' (fs & H & _). by exists fs.
Defined.

(** One page left, and address 4MB has no table. *)
Lemma allocuvm_unmapped_witness :
  wp (allocuvm demo_kend demo_dir 0x400000 0x401000) (fun r s' => r = 0x401000 /\ mmu (kram s') demo_dir 0x400000 = None)
    (demo_space 1).
Proof.
  eapply wp_mono; [apply (allocuvm_unmapped demo_kend true [] demo_dir demo_tabs 0x80210000 1024)|].
  - done.
  - split; [|apply (demo_space_pt 1 demo_entries_1)|].
    + split; [apply boot_lockstate|by apply not_elem_of_nil| | |apply NoDup_singleton|].
      * simpl. lia.
      * by vm_compute.
      * repeat constructor; by vm_compute.
    + intros p ->%list_elem_of_singleton [?|[i [_ ?]%demo_tabs_Some]]; done.
  - lia.
  - by vm_compute.
  - intros r s' (? & ? & _). done.
Defined.

Lemma demo_writable : writable_user demo_kend demo_dir demo_tabs 0 1 (kram (demo_space 80)).
Proof.
  destruct (demo_space_pt 80 demo_entries_80) as [Hpt Hm]. split; [done| |].
  - destruct demo_user as [Hu1 Hu2]. split.
    + intros n e Hn He. destruct (Hu1 n e ltac:(lia) He) as (? & ? & _). split; [done|]. split; [done|by apply not_elem_of_nil].
    + intros. lia.
  - intros n Hn. exists (pte_val (v2p demo_frame) 7). rewrite Hm. by replace (n =? 0) with true by lia.
Qed.

Lemma copyout_correct_witness :
  wp (copyout demo_dir 4 [1; 2; 3]) (fun r s' => r = 0 /\ written demo_tabs 4 [1; 2; 3] (kram (demo_space 80)) (kram s'))
    (demo_space 80).
Proof.
  eapply wp_mono; [apply (copyout_correct demo_kend demo_dir demo_tabs 0 1)|].
  - done.
  - done.
  - done.
  - apply demo_writable.
  - done.
  - done.
  - intros r s' (? & _ & ?). done.
Defined.
