(* ===== verification/Io.v ===== *)
(** * Ports, interrupt controllers and clocks (x86.h, picirq.c, ioapic.c,
    timer.c, lapic.c)

    What is behind the ports and the memory-mapped registers is hardware: a
    type of devices is a parameter, and the class [Device] has what the
    instructions [in], [out] and accesses to device memory do to it.  The
    drivers are programs over the state [plat], which has the devices and the
    variables of the drivers in this file.  A loop that waits for a device
    asks it at most [spins] times; beyond that it is [Blocked]. *)

From S2P Require Import Prelude Params.

(** ** Devices *)

Class Device (D : Type) := {
  port_in : Z -> D -> Z * D;
  port_out : Z -> Z -> D -> D;
  port_inl : Z -> D -> Z * D;
  port_outl : Z -> Z -> D -> D;
  mm_read : Z -> D -> Z * D;
  mm_write : Z -> Z -> D -> D }.

(** The devices, [irqmask] of picirq.c, [ismp], [ncpu] and [ioapicid] of mp.c,
    and the address [lapic], 0 without a local APIC. *)
Record plat (D : Type) := Plat {
  pdev : D; irqmask : Z; ismp : bool; ncpu : Z; ioapicid : Z; lapic : Z }.
Arguments Plat {D}.
Arguments pdev {D}.
Arguments irqmask {D}.
Arguments ismp {D}.
Arguments ncpu {D}.
Arguments ioapicid {D}.
Arguments lapic {D}.

Definition set_pdev {D} (x : D) (s : plat D) := Plat x (irqmask s) (ismp s) (ncpu s) (ioapicid s) (lapic s).
Definition set_irqmask {D} x (s : plat D) := Plat (pdev s) x (ismp s) (ncpu s) (ioapicid s) (lapic s).
Definition set_ismp {D} x (s : plat D) := Plat (pdev s) (irqmask s) x (ncpu s) (ioapicid s) (lapic s).
Definition set_ncpu {D} x (s : plat D) := Plat (pdev s) (irqmask s) (ismp s) x (ioapicid s) (lapic s).
Definition set_ioapicid {D} x (s : plat D) := Plat (pdev s) (irqmask s) (ismp s) (ncpu s) x (lapic s).
Definition set_lapic {D} x (s : plat D) := Plat (pdev s) (irqmask s) (ismp s) (ncpu s) (ioapicid s) x.

(** An instruction that returns a value and changes the devices. *)
Definition on_dev {D A} (f : D -> A * D) : M (plat D) A :=
  fun s => let '(v, d) := f (pdev s) in Ok v (set_pdev d s).

Lemma wp_on_dev {D A} (f : D -> A * D) (Q : A -> plat D -> Prop) s :
  Q (f (pdev s)).1 (set_pdev (f (pdev s)).2 s) -> wp (on_dev f) Q s.
Proof. unfold wp, on_dev. by destruct (f (pdev s)). Qed.

Definition IO_PIC1 : Z := 0x20.
Definition IO_PIC2 : Z := 0xA0.
Definition IRQ_SLAVE : Z := 2.

Definition IOAPIC : Z := 0xFEC00000.
Definition REG_ID : Z := 0x00.
Definition REG_VER : Z := 0x01.
Definition REG_TABLE : Z := 0x10.
Definition INT_DISABLED : Z := 0x00010000.

Definition IO_TIMER1 : Z := 0x040.
Definition TIMER_FREQ : Z := 1193182.
Definition TIMER_DIV (x : Z) : Z := (TIMER_FREQ + x / 2) / x.
Definition TIMER_MODE : Z := IO_TIMER1 + 3.

(** Local APIC registers, as indices of words. *)
Definition ID : Z := 0x0020 / 4.
Definition VER : Z := 0x0030 / 4.
Definition TPR : Z := 0x0080 / 4.
Definition EOI : Z := 0x00B0 / 4.
Definition SVR : Z := 0x00F0 / 4.
Definition ESR : Z := 0x0280 / 4.
Definition ICRLO : Z := 0x0300 / 4.
Definition ICRHI : Z := 0x0310 / 4.
Definition TIMER : Z := 0x0320 / 4.
Definition PCINT : Z := 0x0340 / 4.
Definition LINT0 : Z := 0x0350 / 4.
Definition LINT1 : Z := 0x0360 / 4.
Definition ERROR : Z := 0x0370 / 4.
Definition TICR : Z := 0x0380 / 4.
Definition TDCR : Z := 0x03E0 / 4.
Definition ENABLE : Z := 0x100.
Definition INIT : Z := 0x500.
Definition STARTUP : Z := 0x600.
Definition DELIVS : Z := 0x1000.
Definition ASSERT : Z := 0x4000.
Definition LEVEL : Z := 0x8000.
Definition BCAST : Z := 0x80000.
Definition X1 : Z := 0xB.
Definition PERIODIC : Z := 0x20000.
Definition MASKED : Z := 0x10000.

Definition CMOS_PORT : Z := 0x70.
Definition CMOS_RETURN : Z := 0x71.
Definition CMOS_STATA : Z := 0x0a.
Definition CMOS_STATB : Z := 0x0b.
Definition CMOS_UIP : Z := 0x80.

(** [struct rtcdate]. *)
Record rtcdate := Rtcdate { second : Z; minute : Z; hour : Z; day : Z; month : Z; year : Z }.
#[global] Instance rtcdate_eq_dec : EqDecision rtcdate.
Proof. solve_decision. Defined.

Section io.
Context `{Device D} (spins : nat).
Notation MP := (M (plat D)).

(** ** Instructions (x86.h) *)

Definition inb (port : Z) : MP Z := on_dev (fun d => let '(v, d) := port_in port d in (u8 v, d)).
Definition outb (port data : Z) : MP unit := on_dev (fun d => ((), port_out port (u8 data) d)).

(** The words that come in, as the bytes stored; the bytes that go out, as words. *)
Fixpoint insl (port : Z) (cnt : nat) : MP (list Z) :=
  match cnt with
  | O => mret []
  | S cnt => v ← on_dev (port_inl port); l ← insl port cnt; mret (le_bytes 4 v ++ l)
  end.
Fixpoint outsl (port : Z) (l : list Z) (cnt : nat) : MP unit :=
  match cnt with
  | O => mret ()
  | S cnt => on_dev (fun d => ((), port_outl port (le_val (take 4 l)) d)) ;; outsl port (drop 4 l) cnt
  end.

(** ** The 8259A interrupt controllers (picirq.c) *)

Definition picsetmask (mask : Z) : MP unit :=
  modify (set_irqmask (u16 mask)) ;;
  outb (IO_PIC1 + 1) mask ;;
  outb (IO_PIC2 + 1) (Z.shiftr mask 8).

Definition picenable (irq : Z) : MP unit :=
  m ← gets irqmask;
  picsetmask (u16 (Z.land m (Z.lnot (Z.shiftl 1 irq)))).

Definition picinit : MP unit :=
  outb (IO_PIC1 + 1) 0xFF ;;
  outb (IO_PIC2 + 1) 0xFF ;;
  outb IO_PIC1 0x11 ;;
  outb (IO_PIC1 + 1) T_IRQ0 ;;
  outb (IO_PIC1 + 1) (Z.shiftl 1 IRQ_SLAVE) ;;
  outb (IO_PIC1 + 1) 0x3 ;;
  outb IO_PIC2 0x11 ;;
  outb (IO_PIC2 + 1) (T_IRQ0 + 8) ;;
  outb (IO_PIC2 + 1) IRQ_SLAVE ;;
  outb (IO_PIC2 + 1) 0x3 ;;
  outb IO_PIC1 0x68 ;;
  outb IO_PIC1 0x0a ;;
  outb IO_PIC2 0x68 ;;
  outb IO_PIC2 0x0a ;;
  m ← gets irqmask;
  when (negb (m =? 0xFFFF)) (picsetmask m).

(** ** The I/O APIC (ioapic.c); [ioapicinit] is in Mp.v *)

Definition ioapicread (reg : Z) : MP Z :=
  on_dev (fun d => ((), mm_write IOAPIC (u32 reg) d)) ;;
  on_dev (mm_read (IOAPIC + 16)).

Definition ioapicwrite (reg data : Z) : MP unit :=
  on_dev (fun d => ((), mm_write IOAPIC (u32 reg) d)) ;;
  on_dev (fun d => ((), mm_write (IOAPIC + 16) (u32 data) d)).

Definition ioapicenable (irq cpunum : Z) : MP unit :=
  mp ← gets ismp;
  if negb (mp : bool) then mret ()
  else
    ioapicwrite (REG_TABLE + 2 * irq) (T_IRQ0 + irq) ;;
    ioapicwrite (REG_TABLE + 2 * irq + 1) (Z.shiftl cpunum 24).

(** ** The interval timer (timer.c) *)

Definition timerinit : MP unit :=
  outb TIMER_MODE (Z.lor (Z.lor 0x00 0x04) 0x30) ;;
  outb IO_TIMER1 (TIMER_DIV 100 mod 256) ;;
  outb IO_TIMER1 (TIMER_DIV 100 / 256) ;;
  picenable IRQ_TIMER.

(** ** The local APIC and the CMOS clock (lapic.c) *)

Definition lapicr (index : Z) : MP Z :=
  a ← gets lapic;
  on_dev (mm_read (a + 4 * index)).

Definition lapicw (index value : Z) : MP unit :=
  a ← gets lapic;
  on_dev (fun d => ((), mm_write (a + 4 * index) (u32 value) d)) ;;
  lapicr ID ;;
  mret ().

Fixpoint lapic_wait (fuel : nat) : MP unit :=
  match fuel with
  | O => blocked
  | S fuel => v ← lapicr ICRLO; if has v DELIVS then lapic_wait fuel else mret ()
  end.

Definition lapicinit : MP unit :=
  a ← gets lapic;
  if a =? 0 then mret ()
  else
    lapicw SVR (Z.lor ENABLE (T_IRQ0 + IRQ_SPURIOUS)) ;;
    lapicw TDCR X1 ;;
    lapicw TIMER (Z.lor PERIODIC (T_IRQ0 + IRQ_TIMER)) ;;
    lapicw TICR 10000000 ;;
    lapicw LINT0 MASKED ;;
    lapicw LINT1 MASKED ;;
    v ← lapicr VER;
    when (4 <=? Z.land (Z.shiftr v 16) 0xFF) (lapicw PCINT MASKED) ;;
    lapicw ERROR (T_IRQ0 + IRQ_ERROR) ;;
    lapicw ESR 0 ;;
    lapicw ESR 0 ;;
    lapicw EOI 0 ;;
    lapicw ICRHI 0 ;;
    lapicw ICRLO (Z.lor (Z.lor BCAST INIT) LEVEL) ;;
    lapic_wait spins ;;
    lapicw TPR 0.

Definition lapiceoi : MP unit :=
  a ← gets lapic;
  if a =? 0 then mret () else lapicw EOI 0.

Definition cmos_read (reg : Z) : MP Z :=
  outb CMOS_PORT reg ;;
  inb CMOS_RETURN.

Definition fill_rtcdate : MP rtcdate :=
  s ← cmos_read 0x00;
  mi ← cmos_read 0x02;
  h ← cmos_read 0x04;
  d ← cmos_read 0x07;
  mo ← cmos_read 0x08;
  y ← cmos_read 0x09;
  mret (Rtcdate s mi h d mo y).

(** The loop of [cmostime]: the clock, read twice with the same result. *)
Fixpoint cmos_stable (fuel : nat) : MP rtcdate :=
  match fuel with
  | O => blocked
  | S fuel =>
      t1 ← fill_rtcdate;
      a ← cmos_read CMOS_STATA;
      if has a CMOS_UIP then cmos_stable fuel
      else
        t2 ← fill_rtcdate;
        if decide (t1 = t2) then mret t1 else cmos_stable fuel
  end.

(** [CONV] of a field. *)
Definition CONV (x : Z) : Z := Z.shiftr x 4 * 10 + Z.land x 0xf.

Definition cmostime : MP rtcdate :=
  sb ← cmos_read CMOS_STATB;
  let bcd := Z.land sb (Z.shiftl 1 2) =? 0 in
  t1 ← cmos_stable spins;
  let t1 := if bcd then
      Rtcdate (CONV (second t1)) (CONV (minute t1)) (CONV (hour t1)) (CONV (day t1)) (CONV (month t1)) (CONV (year t1))
    else t1 in
  mret (Rtcdate (second t1) (minute t1) (hour t1) (day t1) (month t1) (year t1 + 2000)).

(** [lapicstartap], up to the warm reset vector, which is in memory: the words
    it stores at 0x40:0x67. *)
Definition lapicstartap (apicid addr : Z) : MP (list Z) :=
  outb CMOS_PORT 0xF ;;
  outb (CMOS_PORT + 1) 0x0A ;;
  lapicw ICRHI (Z.shiftl apicid 24) ;;
  lapicw ICRLO (Z.lor (Z.lor INIT LEVEL) ASSERT) ;;
  lapicw ICRLO (Z.lor INIT LEVEL) ;;
  lapicw ICRHI (Z.shiftl apicid 24) ;;
  lapicw ICRLO (Z.lor STARTUP (Z.shiftr addr 12)) ;;
  lapicw ICRHI (Z.shiftl apicid 24) ;;
  lapicw ICRLO (Z.lor STARTUP (Z.shiftr addr 12)) ;;
  mret [0; u16 (Z.shiftr addr 4)].
End io.

(** ** The masks of the interrupt controllers

    A controller that has been set up takes a byte at its second port as its
    mask. *)
Class Pic (D : Type) `{Device D} := {
  pic_mask : Z -> D -> Z;
  pic_mask_out : forall p q v d, p ∈ [IO_PIC1; IO_PIC2] -> q ∈ [IO_PIC1; IO_PIC2] ->
    pic_mask p (port_out (q + 1) v d) = if p =? q then v else pic_mask p d }.

(** The masks of the two controllers are the two bytes of [irqmask]. *)
Definition pic_synced `{Pic D} (s : plat D) : Prop :=
  0 <= irqmask s < 65536 /\ pic_mask IO_PIC1 (pdev s) = irqmask s mod 256 /\ pic_mask IO_PIC2 (pdev s) = irqmask s / 256.

Lemma wp_picsetmask `{Pic D} m s : 0 <= m < 65536 -> wp (picsetmask m) (fun _ s' => pic_synced s' /\ irqmask s' = m) s.
Proof.
  intros Hm. unfold picsetmask, pic_synced. apply wp_bind, wp_modify, wp_bind, wp_on_dev, wp_on_dev. simpl.
  rewrite !pic_mask_out by set_solver. change (IO_PIC1 =? IO_PIC2) with false. change (IO_PIC2 =? IO_PIC2) with true.
  change (IO_PIC1 =? IO_PIC1) with true. unfold u16, u8. rewrite Z.shiftr_div_pow2 by lia. change (2 ^ 8) with 256.
  rewrite (Z.mod_small m 65536), (Z.mod_small (m / 256)) by zlia. done.
Qed.

Lemma mask_bits m irq i : 0 <= m < 65536 -> 0 <= irq -> 0 <= i ->
  Z.testbit (Z.land m (Z.lnot (Z.shiftl 1 irq))) i = Z.testbit m i && negb (i =? irq).
Proof.
  intros Hm Hirq Hi. rewrite Z.land_spec, Z.lnot_spec, Z.shiftl_1_l by done. f_equal.
  rewrite Z.pow2_bits_eqb by done. f_equal. apply Z.eqb_sym.
Qed.

Lemma land_range m k : 0 <= m < 65536 -> 0 <= Z.land m k < 65536.
Proof.
  intros Hm. split; [apply Z.land_nonneg; lia|]. change 65536 with (2 ^ 16).
  rewrite <- (Z.mod_small m (2 ^ 16)) by (simpl; lia). rewrite <- Z.land_ones by done.
  rewrite <- Z.land_assoc, (Z.land_comm (Z.ones 16)), Z.land_assoc, Z.land_ones by done. by apply Z.mod_pos_bound.
Qed.

(** [picenable] unmasks its interrupt in the controllers and no other. *)
Lemma picenable_unmasks `{Pic D} irq s : pic_synced s -> 0 <= irq < 16 ->
  wp (picenable irq) (fun _ s' => pic_synced s' /\
    forall i, 0 <= i < 16 -> Z.testbit (irqmask s') i = Z.testbit (irqmask s) i && negb (i =? irq)) s.
Proof.
  intros (Hm & _ & _) Hirq. unfold picenable. apply wp_bind, wp_gets.
  pose proof (land_range (irqmask s) (Z.lnot (Z.shiftl 1 irq)) Hm) as Hr. unfold u16. rewrite Z.mod_small by done.
  eapply wp_mono; [by apply wp_picsetmask|]. intros [] s' [Hs E]. split; [done|]. intros i Hi. rewrite E. apply mask_bits; lia.
Qed.

(** ** The clock

    The clock behind the CMOS ports ticks on its own: [rtc_age] counts the
    ticks, and [rtc_at n] is what the registers hold after [n] of them. *)
Class Rtc (D : Type) `{Device D} := {
  rtc_idx : D -> Z;
  rtc_age : D -> nat;
  rtc_at : nat -> Z -> Z;
  rtc_select : forall v d, rtc_idx (port_out CMOS_PORT v d) = v /\ (rtc_age d <= rtc_age (port_out CMOS_PORT v d))%nat;
  rtc_value : forall d, let '(v, d') := port_in CMOS_RETURN d in
    v = rtc_at (rtc_age d) (rtc_idx d) /\ (rtc_age d <= rtc_age d')%nat;
  rtc_byte : forall n r, is_u8 (rtc_at n r) }.

Definition date_at `{Rtc D} (n : nat) : rtcdate :=
  Rtcdate (rtc_at n 0x00) (rtc_at n 0x02) (rtc_at n 0x04) (rtc_at n 0x07) (rtc_at n 0x08) (rtc_at n 0x09).

Definition age `{Rtc D} (s : plat D) : nat := rtc_age (pdev s).

Section rtc.
Context `{Rtc D}.

Lemma wp_cmos_read r s : is_u8 r ->
  wp (cmos_read r) (fun v s' => exists n, (age s <= n <= age s')%nat /\ v = rtc_at n r) s.
Proof.
  intros Hr. unfold cmos_read. apply wp_bind, wp_on_dev, wp_on_dev. cbn [pdev set_pdev fst snd].
  unfold u8. rewrite !(Z.mod_small r) by done. destruct (rtc_select r (pdev s)) as [Hi Ha].
  pose proof (rtc_value (port_out CMOS_PORT r (pdev s))) as Hv. destruct (port_in _ _) as [v d']. destruct Hv as [-> Hd].
  exists (rtc_age (port_out CMOS_PORT r (pdev s))). unfold age. simpl. split; [lia|]. rewrite Hi.
  apply Z.mod_small, rtc_byte.
Qed.

(** A reading of the clock: when it starts at tick [a] and ends by tick
    [S a], every field is from one of the two. *)
Definition reading (lo hi : nat) (t : rtcdate) : Prop :=
  exists n1 n2 n3 n4 n5 n6, (lo <= n1 <= n2)%nat /\ (n2 <= n3 <= n4)%nat /\ (n4 <= n5 <= n6)%nat /\ (n6 <= hi)%nat /\
    t = Rtcdate (rtc_at n1 0x00) (rtc_at n2 0x02) (rtc_at n3 0x04) (rtc_at n4 0x07) (rtc_at n5 0x08) (rtc_at n6 0x09).

Lemma wp_fill_rtcdate s : wp fill_rtcdate (fun t s' => reading (age s) (age s') t) s.
Proof.
  unfold fill_rtcdate. wp_call wp_cmos_read; [done|]. intros v1 s1 (n1 & H1 & ->).
  wp_call wp_cmos_read; [done|]. intros v2 s2 (n2 & H2 & ->). wp_call wp_cmos_read; [done|]. intros v3 s3 (n3 & H3 & ->).
  wp_call wp_cmos_read; [done|]. intros v4 s4 (n4 & H4 & ->). wp_call wp_cmos_read; [done|]. intros v5 s5 (n5 & H5 & ->).
  wp_call wp_cmos_read; [done|]. intros v6 s6 (n6 & H6 & ->). apply wp_ret. exists n1, n2, n3, n4, n5, n6.
  split_and!; try lia. done.
Qed.

Lemma reading_same a t : reading a a t -> t = date_at a.
Proof.
  intros (n1 & n2 & n3 & n4 & n5 & n6 & H1 & H2 & H3 & H4 & ->).
  assert (n1 = a /\ n2 = a /\ n3 = a /\ n4 = a /\ n5 = a /\ n6 = a) as (-> & -> & -> & -> & -> & ->) by lia. done.
Qed.

(** Two equal readings during which the clock ticks at most once. *)
Lemma readings_agree a b c t : (a <= b <= c)%nat -> (c <= S a)%nat -> reading a b t -> reading b c t ->
  exists n, (a <= n <= c)%nat /\ t = date_at n.
Proof.
  intros Hab Hca H1 H2. destruct (decide (b = a)) as [->|].
  - exists a. split; [lia|]. by apply reading_same.
  - assert (c = b) as -> by lia. exists b. split; [lia|]. by apply reading_same.
Qed.

Lemma reading_mono a b t : reading a b t -> (a <= b)%nat.
Proof. intros (n1 & n2 & n3 & n4 & n5 & n6 & H1 & H2 & H3 & H4 & _). lia. Qed.

(** A clock that shows the dates [civil n], with two-digit years, and of which
    status register B says how; it is not being updated. *)
Definition encode (bcd : bool) (x : Z) : Z := if bcd then 16 * (x / 10) + x mod 10 else x.
Definition each_field (f : Z -> Z) (t : rtcdate) : rtcdate :=
  Rtcdate (f (second t)) (f (minute t)) (f (hour t)) (f (day t)) (f (month t)) (f (year t)).
Definition two_digits (t : rtcdate) : Prop :=
  Forall (fun x => 0 <= x < 100) [second t; minute t; hour t; day t; month t; year t].
Definition shows (bcd : bool) (civil : nat -> rtcdate) : Prop :=
  forall n, two_digits (civil n) /\ date_at n = each_field (encode bcd) (civil n) /\
    has (rtc_at n CMOS_STATA) CMOS_UIP = false /\ (Z.land (rtc_at n CMOS_STATB) (Z.shiftl 1 2) =? 0) = bcd.

Lemma CONV_encode x : 0 <= x < 100 -> CONV (encode true x) = x.
Proof.
  intros Hx. unfold CONV, encode. rewrite Z.shiftr_div_pow2 by lia. change 0xf with (Z.ones 4). rewrite Z.land_ones by lia.
  change (2 ^ 4) with 16. zlia.
Qed.

Lemma wp_cmos_stable a civil bcd : shows bcd civil -> (forall d, rtc_age d <= S a)%nat ->
  forall fuel s, (a <= age s)%nat -> (S a - age s < fuel)%nat ->
  wp (cmos_stable fuel) (fun t s' => exists k, (age s <= k <= age s')%nat /\ t = date_at k) s.
Proof.
  intros Hsh Hslow. induction fuel as [|fuel IH]; intros s Ha Hf; [lia|]. cbn [cmos_stable].
  wp_call wp_fill_rtcdate. intros t1 s1 H1. wp_call wp_cmos_read; [done|]. intros v s2 (k & Hk & ->).
  destruct (Hsh k) as (_ & _ & -> & _). wp_call wp_fill_rtcdate. intros t2 s3 H2.
  pose proof (reading_mono _ _ _ H1). pose proof (reading_mono _ _ _ H2). pose proof (Hslow (pdev s3)) as Hs3.
  change (rtc_age (pdev s3)) with (age s3) in Hs3. destruct (decide (t1 = t2)) as [<-|Hne].
  - apply wp_ret. apply (readings_agree _ (age s1) (age s3)); [lia|lia|done|].
    destruct H2 as (n1 & n2 & n3 & n4 & n5 & n6 & H2 & H'). exists n1, n2, n3, n4, n5, n6. split; [lia|done].
  - assert (age s < age s3)%nat.
    { destruct (decide (age s3 = age s)) as [E|]; [|lia]. exfalso. apply Hne.
      rewrite (reading_same (age s) t1), (reading_same (age s) t2); [done|by replace (age s2) with (age s) in H2 by lia; rewrite E in H2|].
      by replace (age s1) with (age s) in H1 by lia. }
    eapply wp_mono; [apply IH; lia|]. intros t s' (m & Hm & ->). exists m. split; [lia|done].
Qed.

End rtc.

(** A clock that ticks when the seconds are read for the second time. *)
Record demo_clock := DemoClock { dc_idx : Z; dc_ops : nat }.
Definition demo_civil (n : nat) : rtcdate :=
  if (n =? 0)%nat then Rtcdate 59 59 23 31 12 24 else Rtcdate 0 0 0 1 1 25.
Definition demo_tick (d : demo_clock) : nat := if (dc_ops d <? 9)%nat then 0 else 1.
Definition demo_reg (n : nat) (r : Z) : Z :=
  let t := each_field (encode true) (demo_civil n) in
  if r =? 0 then second t else if r =? 2 then minute t else if r =? 4 then hour t else
  if r =? 7 then day t else if r =? 8 then month t else if r =? 9 then year t else 0.

#[local] Instance demo_device : Device demo_clock := {
  port_in p d := (demo_reg (demo_tick d) (dc_idx d), DemoClock (dc_idx d) (S (dc_ops d)));
  port_out p v d := DemoClock v (dc_ops d);
  port_inl p d := (0, d); port_outl p v d := d; mm_read a d := (0, d); mm_write a v d := d }.

#[local] Instance demo_rtc : Rtc demo_clock.
Proof.
  refine {| rtc_idx := dc_idx; rtc_age := demo_tick; rtc_at := demo_reg |}.
  - intros v d. done.
  - intros d. simpl. split; [done|]. unfold demo_tick. simpl. repeat case_match; lia.
  - intros n r. unfold demo_reg, demo_civil. destruct (n =? 0)%nat; simpl; repeat case_match; vm_compute; split; done || discriminate.
Defined.

Lemma demo_shows : shows true demo_civil.
Proof.
  intros n. unfold date_at. simpl. unfold demo_reg, demo_civil. destruct (n =? 0)%nat;
    (split; [repeat constructor; simpl; lia|by vm_compute]).
Qed.

Definition demo_plat : plat demo_clock := Plat (DemoClock 0 0) 0xFFFB false 1 0 0.


(** The clock above ticks in the second reading, and the loop starts again. *)
Lemma demo_cmostime : exists s, cmostime 2 demo_plat = Ok (Rtcdate 0 0 0 1 1 2025) s.
Proof. eexists. vm_compute. reflexivity. Qed.
