(* ===== verification/Seg.v ===== *)
(** * Segments, gates and the task state (mmu.h; x86.h: lgdt, lidt, ltr,
    loadgs; vm.c: seginit, switchuvm; trap.c: tvinit, idtinit)

    The tables are bytes in memory, as the compiler lays the bit fields out;
    the processor reads them there.  A segment register and the task register
    hold what the processor took from a descriptor when they were loaded.  The
    checks of the processor are those of its manual that the tables are about:
    the privilege of an [int] instruction, the stack of an interrupt from user
    mode, and the permission of a port. *)

From S2P Require Import Prelude Params.

(** ** Descriptors (mmu.h) *)

Definition STA_X : Z := 0x8.
Definition STA_W : Z := 0x2.
Definition STA_R : Z := 0x2.
Definition STS_T32A : Z := 0x9.
Definition STS_IG32 : Z := 0xE.
Definition STS_TG32 : Z := 0xF.

(** A number stored in a bit field of [w] bits. *)
Definition field (w x : Z) : Z := Z.land x (Z.ones w).

(** Bit fields from the lowest one up, each with its width. *)
Fixpoint pack (l : list (Z * Z)) : Z :=
  match l with
  | [] => 0
  | (w, x) :: l => Z.lor (Z.shiftl (pack l) w) (field w x)
  end.

Record segdesc := Segdesc {
  lim_15_0 : Z; base_15_0 : Z; base_23_16 : Z; sd_type : Z; sd_s : Z; sd_dpl : Z; sd_p : Z;
  lim_19_16 : Z; avl : Z; sd_rsv1 : Z; db : Z; sd_g : Z; base_31_24 : Z }.
Definition seg_word (d : segdesc) : Z :=
  pack [(16, lim_15_0 d); (16, base_15_0 d); (8, base_23_16 d); (4, sd_type d); (1, sd_s d); (2, sd_dpl d); (1, sd_p d);
        (4, lim_19_16 d); (1, avl d); (1, sd_rsv1 d); (1, db d); (1, sd_g d); (8, base_31_24 d)].

Definition SEG (type base lim dpl : Z) : segdesc :=
  Segdesc (Z.land (Z.shiftr lim 12) 0xffff) (Z.land (u32 base) 0xffff) (Z.land (Z.shiftr (u32 base) 16) 0xff) type 1 dpl 1
    (Z.shiftr (u32 lim) 28) 0 0 1 1 (Z.shiftr (u32 base) 24).
Definition SEG16 (type base lim dpl : Z) : segdesc :=
  Segdesc (Z.land lim 0xffff) (Z.land (u32 base) 0xffff) (Z.land (Z.shiftr (u32 base) 16) 0xff) type 1 dpl 1
    (Z.shiftr (u32 lim) 16) 0 0 1 0 (Z.shiftr (u32 base) 24).
Definition set_s (x : Z) (d : segdesc) : segdesc :=
  Segdesc (lim_15_0 d) (base_15_0 d) (base_23_16 d) (sd_type d) x (sd_dpl d) (sd_p d) (lim_19_16 d) (avl d) (sd_rsv1 d) (db d) (sd_g d) (base_31_24 d).

Record gatedesc := Gatedesc {
  off_15_0 : Z; gd_cs : Z; gd_args : Z; gd_rsv1 : Z; gd_type : Z; gd_s : Z; gd_dpl : Z; gd_p : Z; off_31_16 : Z }.
Definition gate_word (d : gatedesc) : Z :=
  pack [(16, off_15_0 d); (16, gd_cs d); (5, gd_args d); (3, gd_rsv1 d); (4, gd_type d); (1, gd_s d); (2, gd_dpl d); (1, gd_p d);
        (16, off_31_16 d)].
Definition SETGATE (istrap : bool) (sel off d : Z) : gatedesc :=
  Gatedesc (Z.land (u32 off) 0xffff) sel 0 0 (if istrap then STS_TG32 else STS_IG32) 0 d 1 (Z.shiftr (u32 off) 16).

(** ** Structures in memory *)

(** The offset of a field, each aligned to its alignment; the fields are names
    with size and alignment. *)
Fixpoint offset_from (o : Z) (l : list (string * Z * Z)) (f : string) : Z :=
  match l with
  | [] => o
  | (g, size, align) :: l =>
      let o := (o + align - 1) / align * align in
      if String.eqb g f then o else offset_from (o + size) l f
  end.
Definition offsetof (l : list (string * Z * Z)) (f : string) : Z := offset_from 0 l f.
Definition uint_ (f : string) : string * Z * Z := (f, 4, 4).
Definition ushort_ (f : string) : string * Z * Z := (f, 2, 2).

Definition taskstate : list (string * Z * Z) :=
  [uint_ "link"; uint_ "esp0"; ushort_ "ss0"; ushort_ "padding1"; uint_ "esp1"; ushort_ "ss1"; ushort_ "padding2";
   uint_ "esp2"; ushort_ "ss2"; ushort_ "padding3"; uint_ "cr3"; uint_ "eip"; uint_ "eflags"; uint_ "eax"; uint_ "ecx";
   uint_ "edx"; uint_ "ebx"; uint_ "esp"; uint_ "ebp"; uint_ "esi"; uint_ "edi"; ushort_ "es"; ushort_ "padding4";
   ushort_ "cs"; ushort_ "padding5"; ushort_ "ss"; ushort_ "padding6"; ushort_ "ds"; ushort_ "padding7"; ushort_ "fs";
   ushort_ "padding8"; ushort_ "gs"; ushort_ "padding9"; ushort_ "ldt"; ushort_ "padding10"; ushort_ "t"; ushort_ "iomb"].
Definition sizeof_taskstate : Z := Eval compute in offsetof taskstate "end".

(** proc.h *)
Definition NSEGS : Z := 7.
Definition cpu_fields : list (string * Z * Z) :=
  [("id"%string, 1, 1); uint_ "scheduler"; ("ts"%string, sizeof_taskstate, 4); ("gdt"%string, 8 * NSEGS, 4); uint_ "started";
   uint_ "ncli"; uint_ "intena"; uint_ "cpu"; uint_ "proc"].
Definition sizeof_cpu : Z := Eval compute in offsetof cpu_fields "end".

(** ** The processor *)

(** Registers: the tables' addresses and limits, and the hidden parts of %gs
    and of the task register. *)
Record regs := Regs { gdtr : Z * Z; idtr : Z * Z; gs : Z * Z; tr : Z * Z }.
Definition set_gdtr x r := Regs x (idtr r) (gs r) (tr r).
Definition set_idtr x r := Regs (gdtr r) x (gs r) (tr r).
Definition set_gs x r := Regs (gdtr r) (idtr r) x (tr r).
Definition set_tr x r := Regs (gdtr r) (idtr r) (gs r) x.

(** Memory, and the registers of each processor. *)
Record seg_st := SegSt { smem : mem; sregs : nat -> regs }.
Definition set_smem m s := SegSt m (sregs s).

Definition load64 (m : mem) (a : Z) : Z := le_val (loadn m a 8).
Definition store64 (m : mem) (a v : Z) : mem := store m a (le_bytes 8 v).
Definition load16 (m : mem) (a : Z) : Z := le_val (loadn m a 2).
Definition store16 (m : mem) (a v : Z) : mem := store m a (le_bytes 2 v).

(** Fields of a descriptor, where the processor has them. *)
Definition bits (z lo n : Z) : Z := Z.land (Z.shiftr z lo) (Z.ones n).
Definition desc_base (z : Z) : Z := bits z 16 24 + 2 ^ 24 * bits z 56 8.
Definition desc_limit (z : Z) : Z :=
  let l := bits z 0 16 + 2 ^ 16 * bits z 48 4 in if bits z 55 1 =? 1 then 4096 * l + 4095 else l.
Definition desc_type (z : Z) : Z := bits z 40 4.
Definition desc_s (z : Z) : Z := bits z 44 1.
Definition desc_dpl (z : Z) : Z := bits z 45 2.
Definition desc_p (z : Z) : Z := bits z 47 1.
Definition gate_off (z : Z) : Z := bits z 0 16 + 2 ^ 16 * bits z 48 16.
Definition gate_sel (z : Z) : Z := bits z 16 16.

Section seg.
(** The addresses of [cpus] and [idt] and the contents of [vectors]. *)
Context (cpus idt : Z) (vectors : Z -> Z).

Definition cpu_at (i : nat) : Z := cpus + sizeof_cpu * Z.of_nat i.
Definition upd_mem (f : mem -> mem) : M seg_st unit := modify (fun s => set_smem (f (smem s)) s).
(** On processor [i]. *)
Definition upd_regs (i : nat) (f : regs -> regs) : M seg_st unit :=
  modify (fun s => SegSt (smem s) (<[i := f (sregs s i)]> (sregs s))).

(** The limit and the base of a table go through three 16-bit words. *)
Definition pseudo (p size : Z) : Z * Z :=
  let pd0 := u16 (size - 1) in
  let pd1 := u16 p in
  let pd2 := u16 (Z.shiftr p 16) in
  (Z.lor (Z.shiftl pd2 16) pd1, pd0).
Definition lgdt (i : nat) (p size : Z) : M seg_st unit := upd_regs i (set_gdtr (pseudo p size)).
Definition lidt (i : nat) (p size : Z) : M seg_st unit := upd_regs i (set_idtr (pseudo p size)).

(** The descriptor that a selector names; a selector beyond the table is a
    fault. *)
Definition descriptor (i : nat) (sel : Z) : M seg_st Z :=
  s ← gets id;
  let '(base, limit) := gdtr (sregs s i) in
  let o := Z.land sel (Z.lnot 7) in
  if limit <? o + 7 then panic "#GP" else mret (load64 (smem s) (base + o)).
Definition loadgs (i : nat) (v : Z) : M seg_st unit :=
  d ← descriptor i v;
  if desc_p d =? 0 then panic "#NP" else upd_regs i (set_gs (desc_base d, desc_limit d)).
(** The task must be free; the processor marks it busy. *)
Definition ltr (i : nat) (sel : Z) : M seg_st unit :=
  d ← descriptor i sel;
  if negb ((desc_s d =? 0) && (desc_type d =? STS_T32A)) then panic "#GP"
  else if desc_p d =? 0 then panic "#NP"
  else
    s ← gets id;
    upd_mem (fun m => store64 m ((gdtr (sregs s i)).1 + Z.land sel (Z.lnot 7)) (Z.lor d (2 ^ 41))) ;;
    upd_regs i (set_tr (desc_base d, desc_limit d)).

(** Accesses to %gs:[off]. *)
Definition gs_store (i : nat) (off v : Z) : M seg_st unit :=
  g ← gets (fun s => gs (sregs s i));
  if g.2 <? off + 3 then panic "#GP" else upd_mem (fun m => store32 m (g.1 + off) v).
Definition gs_load (i : nat) (off : Z) (s : seg_st) : option Z :=
  let g := gs (sregs s i) in
  if g.2 <? off + 3 then None else Some (load32 (smem s) (g.1 + off)).

(** ** vm.c and trap.c *)

Definition gdt_at (i : nat) (k : Z) : Z := cpu_at i + offsetof cpu_fields "gdt" + 8 * k.
Definition set_gdt (i : nat) (k : Z) (d : segdesc) : M seg_st unit :=
  upd_mem (fun m => store64 m (gdt_at i k) (seg_word d)).

(** On processor [p], where [cpunum] is [i]. *)
Definition seginit (p i : nat) : M seg_st unit :=
  let c := cpu_at i in
  set_gdt i SEG_KCODE (SEG (Z.lor STA_X STA_R) 0 0xffffffff 0) ;;
  set_gdt i SEG_KDATA (SEG STA_W 0 0xffffffff 0) ;;
  set_gdt i SEG_UCODE (SEG (Z.lor STA_X STA_R) 0 0xffffffff DPL_USER) ;;
  set_gdt i SEG_UDATA (SEG STA_W 0 0xffffffff DPL_USER) ;;
  set_gdt i SEG_KCPU (SEG STA_W (c + offsetof cpu_fields "cpu") 8 0) ;;
  lgdt p (gdt_at i 0) (8 * NSEGS) ;;
  loadgs p (Z.shiftl SEG_KCPU 3) ;;
  gs_store p 0 c ;;
  gs_store p 4 0.

(** The part of [switchuvm] before the page table; [kstack] is
    [proc->kstack]. *)
Definition ts_at (i : nat) : Z := cpu_at i + offsetof cpu_fields "ts".
Definition switchuvm_ts (i : nat) (kstack : Z) : M seg_st unit :=
  let d := SEG16 STS_T32A (ts_at i) (sizeof_taskstate - 1) 0 in
  set_gdt i SEG_TSS d ;;
  set_gdt i SEG_TSS (set_s 0 d) ;;
  upd_mem (fun m => store16 m (ts_at i + offsetof taskstate "ss0") (Z.shiftl SEG_KDATA 3)) ;;
  upd_mem (fun m => store32 m (ts_at i + offsetof taskstate "esp0") (u32 (kstack + KSTACKSIZE))) ;;
  ltr i (Z.shiftl SEG_TSS 3).

Definition set_gate (n : Z) (g : gatedesc) : M seg_st unit :=
  upd_mem (fun m => store64 m (idt + 8 * n) (gate_word g)).
Fixpoint tvinit_loop (fuel : nat) (n : Z) : M seg_st unit :=
  match fuel with
  | O => mret ()
  | S fuel => set_gate n (SETGATE false (Z.shiftl SEG_KCODE 3) (vectors n) 0) ;; tvinit_loop fuel (n + 1)
  end.
(** [initlock] of the ticks lock is with the locks. *)
Definition tvinit : M seg_st unit :=
  tvinit_loop 256 0 ;;
  set_gate T_SYSCALL (SETGATE true (Z.shiftl SEG_KCODE 3) (vectors T_SYSCALL) DPL_USER).
Definition idtinit (i : nat) : M seg_st unit := lidt i idt (8 * 256).

(** What [main] does of this on the first processor. *)
Definition trap_setup (i : nat) : M seg_st unit := seginit i i ;; tvinit ;; idtinit i.
(** [seginit] on one processor after the other. *)
Fixpoint seginits (ps : list nat) : M seg_st unit :=
  match ps with [] => mret () | i :: ps => seginit i i ;; seginits ps end.
(** The processes that processor [i] switches to. *)
Fixpoint switches (i : nat) (ks : list Z) : M seg_st unit :=
  match ks with [] => mret () | k :: ks => switchuvm_ts i k ;; switches i ks end.
End seg.

(** ** What the processor does with the tables *)

(** Base, limit, type and privilege of the segment that a selector names. *)
Definition segment (i : nat) (sel : Z) (s : seg_st) : option (Z * Z * Z * Z) :=
  match descriptor i sel s with
  | Ok z _ => if desc_p z =? 0 then None else Some (desc_base z, desc_limit z, desc_type z, desc_dpl z)
  | _ => None
  end.

(** An interrupt while a user program runs: the handler, the stack and whether
    interrupts stay enabled.  [soft] is an [int] instruction, which needs the
    privilege of the gate.  Nothing when the processor faults instead. *)
Record entry := Entry { e_cs : Z; e_eip : Z; e_ss : Z; e_esp : Z; e_if : bool }.
Definition user_interrupt (i : nat) (soft : bool) (n : Z) (s : seg_st) : option entry :=
  let '(base, limit) := idtr (sregs s i) in
  if limit <? 8 * n + 7 then None
  else
    let g := load64 (smem s) (base + 8 * n) in
    if (soft && (desc_dpl g <? 3)) || (desc_p g =? 0) || negb ((desc_type g =? STS_IG32) || (desc_type g =? STS_TG32)) then None
    else
      match segment i (gate_sel g) s with
      | Some (b, l, type, dpl) =>
          if (l <? gate_off g) || negb (has type STA_X) || negb (dpl =? 0) then None
          else
            let '(ts, _) := tr (sregs s i) in
            Some (Entry (gate_sel g) (b + gate_off g) (load16 (smem s) (ts + 8)) (load32 (smem s) (ts + 4)) (desc_type g =? STS_TG32))
      | None => None
      end.

(** May a program at privilege [cpl] with I/O privilege [iopl] use a port?  If
    not by privilege, by a zero bit in the map that the task state points to. *)
Definition port_allowed (i : nat) (cpl iopl port : Z) (s : seg_st) : bool :=
  (cpl <=? iopl) ||
  let '(ts, limit) := tr (sregs s i) in
  if limit <? 103 then false
  else
    let b := load16 (smem s) (ts + 102) + port / 8 in
    (b + 1 <=? limit) && negb (Z.testbit (load16 (smem s) (ts + b)) (port mod 8)).

(** ** Reading bit fields back *)

Lemma field_mod w x : 0 <= w -> field w x = x mod 2 ^ w.
Proof. intros Hw. unfold field. by rewrite Z.land_ones. Qed.

Lemma field_range w x : 0 <= w -> 0 <= field w x < 2 ^ w.
Proof. intros Hw. rewrite field_mod by done. apply Z.mod_pos_bound, Z.pow_pos_nonneg; lia. Qed.

Lemma pack_cons w x l : 0 <= w -> pack ((w, x) :: l) = pack l * 2 ^ w + field w x.
Proof. intros Hw. simpl. by rewrite lor_shiftl by (done || by apply field_range). Qed.

Lemma bits_mod z lo n : 0 <= lo -> 0 <= n -> bits z lo n = (z / 2 ^ lo) mod 2 ^ n.
Proof. intros. unfold bits. by rewrite Z.land_ones, Z.shiftr_div_pow2. Qed.

Section bits.
Context (w x : Z) (l : list (Z * Z)).
Hypothesis Hw : 0 <= w.

Lemma bits_skip lo n : w <= lo -> 0 <= n -> bits (pack ((w, x) :: l)) lo n = bits (pack l) (lo - w) n.
Proof.
  intros Hl Hn. rewrite !bits_mod by lia. replace (2 ^ lo) with (2 ^ w * 2 ^ (lo - w)) by (rewrite <- Z.pow_add_r by lia; f_equal; lia).
  rewrite <- Z.div_div, pack_cons by (try apply Z.pow_pos_nonneg; lia || apply Z.pow_nonzero; lia).
  assert (H := field_range w x Hw). rewrite Z.div_add_l, (Z.div_small (field w x)) by lia. by rewrite Z.add_0_r.
Qed.

Lemma bits_take lo : lo = 0 -> bits (pack ((w, x) :: l)) lo w = field w x.
Proof.
  intros ->. rewrite bits_mod, Z.div_1_r, pack_cons by lia. rewrite Z.add_comm, Z_mod_plus_full. by apply Z.mod_small, field_range.
Qed.

Lemma bits_take2 w' y lo n : 0 <= w' -> lo = 0 -> n = w + w' ->
  bits (pack ((w, x) :: (w', y) :: l)) lo n = field w x + 2 ^ w * field w' y.
Proof.
  intros Hw' -> ->. rewrite bits_mod, Z.div_1_r, !pack_cons by lia. assert (H := field_range w x Hw). assert (H' := field_range w' y Hw').
  rewrite Z.mul_add_distr_r, <- Z.mul_assoc, <- Z.pow_add_r, (Z.add_comm w') by lia. rewrite <- Z.add_assoc, Z.add_comm, Z_mod_plus_full.
  rewrite Z.mod_small; [lia|]. rewrite Z.pow_add_r by lia. nia.
Qed.
End bits.

Ltac unpack := repeat rewrite bits_skip by lia; first [apply bits_take; lia | apply bits_take2; lia].

Lemma seg_fields d : let z := seg_word d in
  desc_base z = field 16 (base_15_0 d) + 2 ^ 16 * field 8 (base_23_16 d) + 2 ^ 24 * field 8 (base_31_24 d) /\
  desc_limit z = (let l := field 16 (lim_15_0 d) + 2 ^ 16 * field 4 (lim_19_16 d) in if field 1 (sd_g d) =? 1 then 4096 * l + 4095 else l) /\
  desc_type z = field 4 (sd_type d) /\ desc_s z = field 1 (sd_s d) /\ desc_dpl z = field 2 (sd_dpl d) /\ desc_p z = field 1 (sd_p d).
Proof.
  intros z. unfold desc_base, desc_limit, desc_type, desc_s, desc_dpl, desc_p.
  assert (bits z 16 24 = field 16 (base_15_0 d) + 2 ^ 16 * field 8 (base_23_16 d)) as -> by (unfold z, seg_word; unpack).
  assert (bits z 56 8 = field 8 (base_31_24 d)) as -> by (unfold z, seg_word; unpack).
  assert (bits z 0 16 = field 16 (lim_15_0 d)) as -> by (unfold z, seg_word; unpack).
  assert (bits z 48 4 = field 4 (lim_19_16 d)) as -> by (unfold z, seg_word; unpack).
  assert (bits z 55 1 = field 1 (sd_g d)) as -> by (unfold z, seg_word; unpack).
  split_and!; try done; unfold z, seg_word; unpack.
Qed.

Lemma gate_fields d : let z := gate_word d in
  gate_off z = field 16 (off_15_0 d) + 2 ^ 16 * field 16 (off_31_16 d) /\ gate_sel z = field 16 (gd_cs d) /\
  desc_type z = field 4 (gd_type d) /\ desc_dpl z = field 2 (gd_dpl d) /\ desc_p z = field 1 (gd_p d).
Proof.
  intros z. unfold z, gate_word, gate_off, gate_sel, desc_type, desc_dpl, desc_p.
  split_and!; try unpack. f_equal; [unpack|f_equal; unpack].
Qed.

Lemma SEG_reads type base lim dpl : 0 <= type < 16 -> is_u32 base -> is_u32 lim -> 0 <= dpl < 4 ->
  let z := seg_word (SEG type base lim dpl) in
  desc_base z = base /\ desc_limit z = lim / 4096 * 4096 + 4095 /\ desc_type z = type /\ desc_s z = 1 /\ desc_dpl z = dpl /\ desc_p z = 1.
Proof.
  intros Ht Hb Hl Hd. cbv zeta. destruct (seg_fields (SEG type base lim dpl)) as (-> & -> & -> & -> & -> & ->).
  unfold SEG. cbn [lim_15_0 base_15_0 base_23_16 sd_type sd_s sd_dpl sd_p lim_19_16 sd_g base_31_24].
  change 0xffff with (Z.ones 16). change 0xff with (Z.ones 8). rewrite !field_mod, !Z.land_ones, !Z.shiftr_div_pow2 by lia.
  rewrite !u32_small by done. change (1 mod 2 ^ 1 =? 1) with true. unfold is_u32 in *. split_and!; zlia.
Qed.

Lemma SEG16_reads type base lim dpl : 0 <= type < 16 -> is_u32 base -> 0 <= lim < 2 ^ 20 -> 0 <= dpl < 4 ->
  let z := seg_word (set_s 0 (SEG16 type base lim dpl)) in
  desc_base z = base /\ desc_limit z = lim /\ desc_type z = type /\ desc_s z = 0 /\ desc_p z = 1.
Proof.
  intros Ht Hb Hl Hd. cbv zeta. destruct (seg_fields (set_s 0 (SEG16 type base lim dpl))) as (-> & -> & -> & -> & _ & ->).
  unfold set_s, SEG16. cbn [lim_15_0 base_15_0 base_23_16 sd_type sd_s sd_dpl sd_p lim_19_16 sd_g base_31_24].
  change 0xffff with (Z.ones 16). change 0xff with (Z.ones 8). rewrite !field_mod, !Z.land_ones, !Z.shiftr_div_pow2 by lia.
  rewrite !u32_small by (done || unfold is_u32; lia). change (0 mod 2 ^ 1 =? 1) with false. unfold is_u32 in *. split_and!; zlia.
Qed.

Lemma SETGATE_reads istrap sel off d : 0 <= sel < 65536 -> is_u32 off -> 0 <= d < 4 ->
  let z := gate_word (SETGATE istrap sel off d) in
  gate_off z = off /\ gate_sel z = sel /\ desc_type z = (if istrap then STS_TG32 else STS_IG32) /\ desc_dpl z = d /\ desc_p z = 1.
Proof.
  intros Hs Ho Hd. cbv zeta. destruct (gate_fields (SETGATE istrap sel off d)) as (-> & -> & -> & -> & ->).
  unfold SETGATE. cbn [off_15_0 gd_cs gd_type gd_dpl gd_p off_31_16].
  change 0xffff with (Z.ones 16). rewrite !field_mod, !Z.land_ones, !Z.shiftr_div_pow2 by lia.
  rewrite !u32_small by done. unfold is_u32 in *. split_and!; try zlia. by destruct istrap.
Qed.

Lemma word_range l : Forall (fun p => 0 <= p.1) l -> 0 <= pack l < 2 ^ foldr (fun p a => p.1 + a) 0 l.
Proof.
  induction 1 as [|[w x] l Hw Hl IH]; [done|]. cbn [foldr fst] in *. rewrite pack_cons by done. assert (H := field_range w x Hw).
  assert (Hp : 0 <= foldr (fun p a => p.1 + a) 0 l) by (clear IH; induction Hl; simpl; lia). rewrite Z.pow_add_r by done. nia.
Qed.

(** ** Memory *)

Lemma loadn_store_ne m a l a' n : a' + Z.of_nat n <= a \/ a + Z.of_nat (length l) <= a' -> loadn (store m a l) a' n = loadn m a' n.
Proof. intros H. apply loadn_ext. intros x Hx. rewrite store_lookup, decide_False by lia. done. Qed.

Lemma store_other m a l x : x < a \/ a + Z.of_nat (length l) <= x -> store m a l x = m x.
Proof. intros H. rewrite store_lookup, decide_False by lia. done. Qed.

Lemma load64_store64 m a v : 0 <= v < 2 ^ 64 -> load64 (store64 m a v) a = v.
Proof.
  intros Hv. unfold load64, store64. change 8%nat with (length (le_bytes 8 v)) at 1. rewrite loadn_store, le_val_le_bytes. by apply Z.mod_small.
Qed.

Lemma load16_store16 m a v : 0 <= v < 65536 -> load16 (store16 m a v) a = v.
Proof.
  intros Hv. unfold load16, store16. change 2%nat with (length (le_bytes 2 v)) at 1. rewrite loadn_store, le_val_le_bytes. by apply Z.mod_small.
Qed.

Lemma seg_word_range d : 0 <= seg_word d < 2 ^ 64.
Proof. unfold seg_word. match goal with |- _ <= pack ?l < _ => apply (word_range l) end. repeat constructor; simpl; lia. Qed.

Lemma gate_word_range d : 0 <= gate_word d < 2 ^ 64.
Proof. unfold gate_word. match goal with |- _ <= pack ?l < _ => apply (word_range l) end. repeat constructor; simpl; lia. Qed.

Section beside.
Context (m : mem) (a v a' : Z).
Ltac beside := intros H; unfold load64, load32, load16, store64, store32, store16; rewrite loadn_store_ne; [done|rewrite length_le_bytes; lia].
Lemma load64_store64_ne : a' + 8 <= a \/ a + 8 <= a' -> load64 (store64 m a v) a' = load64 m a'.
Proof. beside. Qed.
Lemma load64_store32_ne : a' + 8 <= a \/ a + 4 <= a' -> load64 (store32 m a v) a' = load64 m a'.
Proof. beside. Qed.
Lemma load64_store16_ne : a' + 8 <= a \/ a + 2 <= a' -> load64 (store16 m a v) a' = load64 m a'.
Proof. beside. Qed.
Lemma load32_store64_ne : a' + 4 <= a \/ a + 8 <= a' -> load32 (store64 m a v) a' = load32 m a'.
Proof. beside. Qed.
Lemma load16_store32_ne : a' + 2 <= a \/ a + 4 <= a' -> load16 (store32 m a v) a' = load16 m a'.
Proof. beside. Qed.
Lemma load16_store64_ne : a' + 2 <= a \/ a + 8 <= a' -> load16 (store64 m a v) a' = load16 m a'.
Proof. beside. Qed.
Lemma store64_other : a' < a \/ a + 8 <= a' -> store64 m a v a' = m a'.
Proof. intros H. unfold store64. apply store_other. rewrite length_le_bytes. lia. Qed.
Lemma store16_other : a' < a \/ a + 2 <= a' -> store16 m a v a' = m a'.
Proof. intros H. unfold store16. apply store_other. rewrite length_le_bytes. lia. Qed.
End beside.

(** Loads pass the stores beside them. *)
Ltac beside := repeat first [rewrite load64_store32_ne by lia | rewrite load64_store64_ne by lia | rewrite load64_store16_ne by lia
  | rewrite load32_store64_ne by lia | rewrite load32_store32_ne by lia | rewrite load16_store32_ne by lia | rewrite load16_store64_ne by lia].

#[export] Hint Resolve seg_word_range gate_word_range : word.

(** ** The processor's own data *)

Section proofs.
Context (cpus : Z).
Notation cpu_at := (cpu_at cpus).
Notation gdt_at := (gdt_at cpus).
Notation ts_at := (ts_at cpus).
Notation seginit := (seginit cpus).
Notation switchuvm_ts := (switchuvm_ts cpus).
Hypothesis Hcpus : KERNBASE <= cpus /\ cpus + sizeof_cpu * NCPU <= 4294967296.

(** The flat segments of the kernel and of user programs, and the addresses
    that %gs reaches. *)
Record cpu_ok (i : nat) (s : seg_st) : Prop := {
  ck_gdtr : gdtr (sregs s i) = (gdt_at i 0, 55);
  ck_gs : gs (sregs s i) = (cpu_at i + 180, 4095);
  ck_kcode : load64 (smem s) (gdt_at i SEG_KCODE) = seg_word (SEG (Z.lor STA_X STA_R) 0 0xffffffff 0);
  ck_kdata : load64 (smem s) (gdt_at i SEG_KDATA) = seg_word (SEG STA_W 0 0xffffffff 0);
  ck_ucode : load64 (smem s) (gdt_at i SEG_UCODE) = seg_word (SEG (Z.lor STA_X STA_R) 0 0xffffffff DPL_USER);
  ck_udata : load64 (smem s) (gdt_at i SEG_UDATA) = seg_word (SEG STA_W 0 0xffffffff DPL_USER);
  ck_cpu : load32 (smem s) (cpu_at i + 180) = cpu_at i;
  ck_proc : load32 (smem s) (cpu_at i + 184) = 0 }.

Definition in_cpu (i : nat) (a : Z) : Prop := cpu_at i <= a < cpu_at i + sizeof_cpu.

Lemma cpu_at_range i : (i < 8)%nat -> is_u32 (cpu_at i) /\ KERNBASE <= cpu_at i /\ cpu_at i + sizeof_cpu <= 4294967296.
Proof. intros Hi. unfold Seg.cpu_at, NCPU, sizeof_cpu, KERNBASE, is_u32 in *. lia. Qed.

#[local] Arguments Seg.cpu_at : simpl never.
#[local] Arguments Seg.gdt_at : simpl never.
Lemma gdt_addr i k : gdt_at i k = cpu_at i + 112 + 8 * k.
Proof. reflexivity. Qed.
Lemma ts_addr i : ts_at i = cpu_at i + 8.
Proof. reflexivity. Qed.

Lemma off_cpu : offsetof cpu_fields "cpu" = 180.
Proof. reflexivity. Qed.
Lemma off_ss0 : offsetof taskstate "ss0" = 8.
Proof. reflexivity. Qed.
Lemma off_esp0 : offsetof taskstate "esp0" = 4.
Proof. reflexivity. Qed.

Lemma pseudo_table p n : is_u32 p -> 0 < n <= 65536 -> pseudo p n = (p, n - 1).
Proof.
  intros Hp Hn. unfold pseudo. rewrite lor_shiftl by zlia. f_equal; [|zlia]. rewrite Z.shiftr_div_pow2 by lia. zlia.
Qed.

Lemma wp_descriptor i sel b l s : gdtr (sregs s i) = (b, l) -> Z.land sel (Z.lnot 7) + 7 <= l ->
  wp (descriptor i sel) (fun d s' => s' = s /\ d = load64 (smem s) (b + Z.land sel (Z.lnot 7))) s.
Proof.
  intros Hg Hl. unfold descriptor. wp_step. apply wp_gets. unfold id. rewrite Hg. rewrite (proj2 (Z.ltb_ge _ _)) by lia. by apply wp_ret.
Qed.

Lemma wp_upd_mem f s : wp (upd_mem f) (fun _ s' => smem s' = f (smem s) /\ sregs s' = sregs s) s.
Proof. by apply wp_modify. Qed.
Lemma wp_upd_regs i f s : wp (upd_regs i f) (fun _ s' => smem s' = smem s /\ sregs s' i = f (sregs s i) /\ forall j, j <> i -> sregs s' j = sregs s j) s.
Proof. apply wp_modify. cbn [smem sregs]. split_and!; [done|by rewrite fn_lookup_insert|]. intros j Hj. by rewrite fn_lookup_insert_ne. Qed.

Lemma gs_store_spec i off v b l s : gs (sregs s i) = (b, l) -> off + 3 <= l ->
  wp (gs_store i off v) (fun _ s' => s' = set_smem (store32 (smem s) (b + off) v) s) s.
Proof.
  intros Hg Hl. unfold gs_store. wp_step. apply wp_gets. rewrite Hg. simpl. rewrite (proj2 (Z.ltb_ge _ _)) by lia. by apply wp_modify.
Qed.

Lemma wp_seginit i s : (i < 8)%nat ->
  wp (seginit i i) (fun _ s' => cpu_ok i s' /\ (forall a, ~ (gdt_at i 0 <= a < cpu_at i + sizeof_cpu) -> smem s' a = smem s a) /\ forall j, j <> i -> sregs s' j = sregs s j) s.
Proof.
  intros Hi. destruct (cpu_at_range i Hi) as (Hu & Hk & Hc). unfold sizeof_cpu, KERNBASE in *. set (c := cpu_at i) in *.
  unfold Seg.seginit, set_gdt, upd_mem, lgdt, upd_regs. do 12 wp_step. change (8 * NSEGS) with 56. rewrite !gdt_addr. fold c.
  rewrite pseudo_table by (unfold is_u32; lia). rewrite off_cpu.
  set (s1 := SegSt _ _). unfold loadgs. apply wp_bind. wp_call (wp_descriptor i _ (c + 112 + 8 * 0) 55 s1).
  { unfold s1. simpl. by rewrite fn_lookup_insert. } { done. }
  intros d ? [-> ->].
  assert (E : load64 (smem s1) (c + 112 + 8 * 0 + Z.land (Z.shiftl SEG_KCPU 3) (Z.lnot 7)) = seg_word (SEG STA_W (c + 180) 8 0)).
  { change (Z.land (Z.shiftl SEG_KCPU 3) (Z.lnot 7)) with 24. replace (c + 112 + 8 * 0 + 24) with (c + 112 + 8 * SEG_KCPU) by (unfold SEG_KCPU; lia).
    apply load64_store64, seg_word_range. }
  rewrite E. destruct (SEG_reads STA_W (c + 180) 8 0) as (-> & -> & _ & _ & _ & ->); [done|unfold is_u32; lia|done|done|].
  change (1 =? 0) with false. cbv iota. unfold upd_regs. wp_step. cbn [smem sregs].
  set (s2 := SegSt _ _). assert (Hg : gs (sregs s2 i) = (c + 180, 4095)) by (unfold s2; simpl; by rewrite fn_lookup_insert).
  wp_call gs_store_spec; [exact Hg|lia|]. intros [] ? ->. wp_call gs_store_spec; [exact Hg|lia|]. intros [] ? ->.
  split; [|split].
  - split; simpl; rewrite ?fn_lookup_insert; unfold SEG_KCODE, SEG_KDATA, SEG_UCODE, SEG_UDATA, SEG_KCPU in *; fold c; rewrite ?gdt_addr; try done.
    1-4: fold c; beside; apply load64_store64, seg_word_range.
    + beside. replace (c + 180 + 0) with (c + 180) by lia. rewrite load32_store32. by apply u32_small.
    + replace (c + 180 + 4) with (c + 184) by lia. by rewrite load32_store32.
  - intros a Ha. rewrite ?gdt_addr in Ha. unfold sizeof_cpu in Ha. fold c in Ha. simpl. unfold SEG_KCODE, SEG_KDATA, SEG_UCODE, SEG_UDATA, SEG_KCPU.
    by rewrite !store32_other, !store64_other by lia.
  - intros j Hj. simpl. by rewrite !fn_lookup_insert_ne.
Qed.

(** The bytes that [switchuvm] may change. *)
Definition in_ts (i : nat) (a : Z) : Prop := gdt_at i SEG_TSS <= a < gdt_at i SEG_TSS + 8 \/ ts_at i + 4 <= a < ts_at i + 10.

(** The bytes that [cpu_ok] is about. *)
Definition in_own (i : nat) (a : Z) : Prop := gdt_at i 0 <= a < gdt_at i SEG_TSS \/ cpu_at i + 180 <= a < cpu_at i + 188.

Lemma own_cpu i a : in_own i a -> in_cpu i a /\ ~ in_ts i a.
Proof. unfold in_own, in_ts, in_cpu. rewrite !gdt_addr, !ts_addr. unfold sizeof_cpu, SEG_TSS. lia. Qed.

Lemma cpu_ok_frame i s s' : cpu_ok i s -> (forall a, in_own i a -> smem s' a = smem s a) ->
  gdtr (sregs s' i) = gdtr (sregs s i) -> gs (sregs s' i) = gs (sregs s i) -> cpu_ok i s'.
Proof.
  intros [] Hm Hr Hg. unfold in_own in Hm. rewrite !gdt_addr in Hm.
  assert (H64 : forall k, 0 <= k < 6 -> load64 (smem s') (gdt_at i k) = load64 (smem s) (gdt_at i k)).
  { intros k Hk. unfold load64. f_equal. apply loadn_ext. intros a Ha. rewrite gdt_addr in Ha. unfold SEG_TSS in *. apply Hm; lia. }
  assert (H32 : forall o, 180 <= o <= 184 -> load32 (smem s') (cpu_at i + o) = load32 (smem s) (cpu_at i + o)).
  { intros o Ho. apply load32_ext. intros a Ha. unfold SEG_TSS in *. apply Hm; lia. }
  split; rewrite ?Hr, ?Hg, ?H64, ?H32 by (unfold SEG_KCODE, SEG_KDATA, SEG_UCODE, SEG_UDATA; lia); done.
Qed.

Lemma cpus_apart i j a : i <> j -> in_cpu i a -> ~ in_cpu j a.
Proof. unfold in_cpu, Seg.cpu_at, sizeof_cpu. lia. Qed.

Lemma wp_seginits ps : forall s, Forall (fun i => i < 8)%nat ps ->
  wp (seginits cpus ps) (fun _ s' => forall i, i ∈ ps \/ cpu_ok i s -> cpu_ok i s') s.
Proof.
  induction ps as [|i ps IH]; intros s Hps; simpl; [apply wp_ret; set_solver|]. apply Forall_cons in Hps as [Hi Hps].
  wp_call wp_seginit; [done|]. intros [] s1 (H1 & Hm & Hr). eapply wp_mono; [by apply IH|]. intros [] s2 H2 j Hj. apply H2.
  destruct (decide (j = i)) as [->|Hne]; [by right|]. destruct Hj as [[->|Hj]%elem_of_cons|Hj]; [done|by left|right].
  eapply cpu_ok_frame; [exact Hj| |by rewrite Hr|by rewrite Hr]. intros a [Ha _]%own_cpu. apply Hm. rewrite gdt_addr.
  pose proof (cpus_apart j i a Hne Ha) as Hn. unfold in_cpu in Hn. lia.
Qed.

Lemma ok_segment i k type dpl s : gdtr (sregs s i) = (gdt_at i 0, 55) -> 0 <= k < 7 ->
  load64 (smem s) (gdt_at i k) = seg_word (SEG type 0 0xffffffff dpl) -> 0 <= type < 16 -> 0 <= dpl < 4 ->
  segment i (Z.shiftl k 3) s = Some (0, 0xffffffff, type, dpl).
Proof.
  intros Hg Hk E Ht Hd. rewrite Z.shiftl_mul_pow2 by done. assert (Hl : Z.land (k * 2 ^ 3) (Z.lnot 7) = 8 * k).
  { assert (k = 0 \/ k = 1 \/ k = 2 \/ k = 3 \/ k = 4 \/ k = 5 \/ k = 6) as [->|[->|[->|[->|[->|[->| ->]]]]]] by lia; reflexivity. }
  destruct (wp_result _ _ _ (wp_descriptor i (k * 2 ^ 3) (gdt_at i 0) 55 s Hg ltac:(lia))) as (d & s' & Er & -> & ->).
  unfold segment. rewrite Er, Hl. replace (gdt_at i 0 + 8 * k) with (gdt_at i k) by (rewrite !gdt_addr; lia). rewrite E.
  destruct (SEG_reads type 0 0xffffffff dpl) as (-> & -> & -> & _ & -> & ->); done.
Qed.

(** C99 Each processor that has run [seginit], whatever others run it and in
    which order, finds its own [struct cpu] through %gs and no process, and
    has flat segments of 4 GB for the kernel and for user programs, the latter
    with user privilege. *)
Theorem cpu_local ps s : Forall (fun i => i < 8)%nat ps ->
  wp (seginits cpus ps) (fun _ s' => forall i, i ∈ ps ->
    gs_load i 0 s' = Some (cpu_at i) /\ gs_load i 4 s' = Some 0 /\
    segment i (Z.shiftl SEG_KCODE 3) s' = Some (0, 0xffffffff, Z.lor STA_X STA_R, 0) /\
    segment i (Z.shiftl SEG_KDATA 3) s' = Some (0, 0xffffffff, STA_W, 0) /\
    segment i (Z.shiftl SEG_UCODE 3) s' = Some (0, 0xffffffff, Z.lor STA_X STA_R, DPL_USER) /\
    segment i (Z.shiftl SEG_UDATA 3) s' = Some (0, 0xffffffff, STA_W, DPL_USER)) s.
Proof.
  intros Hps. eapply wp_mono; [by apply wp_seginits|]. intros [] s' H i Hi. assert (Hok : cpu_ok i s') by auto. destruct Hok.
  unfold gs_load. rewrite ck_gs0. cbn [fst snd]. rewrite Z.add_0_r. replace (cpu_at i + 180 + 4) with (cpu_at i + 184) by lia.
  rewrite ck_cpu0, ck_proc0. do 2 (split; [reflexivity|]). split; [|split; [|split]].
  all: apply ok_segment; [exact ck_gdtr0|clear; done| |clear; done|clear; done].
  - exact ck_kcode0. - exact ck_kdata0. - exact ck_ucode0. - exact ck_udata0.
Qed.

(** ** Gates *)

Context (idt : Z) (vectors : Z -> Z).

Definition gate_for (n : Z) : gatedesc :=
  if n =? T_SYSCALL then SETGATE true (Z.shiftl SEG_KCODE 3) (vectors n) DPL_USER else SETGATE false (Z.shiftl SEG_KCODE 3) (vectors n) 0.

Definition in_idt (a : Z) : Prop := idt <= a < idt + 2048.

Lemma wp_tvinit_loop fuel : forall n s, wp (tvinit_loop idt vectors fuel n) (fun _ s' => sregs s' = sregs s /\
  (forall a, a < idt + 8 * n \/ idt + 8 * (n + Z.of_nat fuel) <= a -> smem s' a = smem s a) /\
  forall k, n <= k < n + Z.of_nat fuel -> load64 (smem s') (idt + 8 * k) = gate_word (SETGATE false (Z.shiftl SEG_KCODE 3) (vectors k) 0)) s.
Proof.
  induction fuel as [|fuel IH]; intros n s; cbn [tvinit_loop]; [apply wp_ret; split_and!; [done..|lia]|].
  unfold set_gate at 1, upd_mem. wp_step. apply wp_modify. eapply wp_mono; [apply IH|]. intros [] s' (Hr & Hm & Hg). cbn [smem sregs set_smem] in *.
  split_and!; [done|intros a Ha; rewrite Hm by lia; apply store64_other; lia|]. intros k Hk. destruct (decide (k = n)) as [->|]; [|apply Hg; lia].
  transitivity (load64 (store64 (smem s) (idt + 8 * n) (gate_word (SETGATE false (Z.shiftl SEG_KCODE 3) (vectors n) 0))) (idt + 8 * n)).
  - unfold load64. f_equal. apply loadn_ext. intros a Ha. apply Hm. lia.
  - apply load64_store64, gate_word_range.
Qed.

Lemma wp_tvinit s : wp (tvinit idt vectors) (fun _ s' => sregs s' = sregs s /\ (forall a, ~ in_idt a -> smem s' a = smem s a) /\
  forall n, 0 <= n < 256 -> load64 (smem s') (idt + 8 * n) = gate_word (gate_for n)) s.
Proof.
  unfold tvinit. wp_call wp_tvinit_loop. intros [] s1 (Hr & Hm & Hg). unfold set_gate, upd_mem. apply wp_modify. cbn [smem sregs set_smem].
  split_and!; [done|intros a Ha; unfold in_idt, T_SYSCALL in *; rewrite store64_other by lia; apply Hm; lia|].
  intros n Hn. unfold gate_for. destruct (Z.eqb_spec n T_SYSCALL) as [->|Hne].
  - apply load64_store64, gate_word_range.
  - unfold T_SYSCALL in *. rewrite load64_store64_ne by lia. apply Hg. lia.
Qed.

(** The task register reaches the stack that interrupts switch to. *)
Record ts_ok (i : nat) (kstack : Z) (s : seg_st) : Prop := {
  to_tr : tr (sregs s i) = (ts_at i, 103);
  to_ss0 : load16 (smem s) (ts_at i + 8) = Z.shiftl SEG_KDATA 3;
  to_esp0 : load32 (smem s) (ts_at i + 4) = u32 (kstack + KSTACKSIZE) }.

Lemma wp_switchuvm_ts i kstack s : (i < 8)%nat -> gdtr (sregs s i) = (gdt_at i 0, 55) ->
  wp (switchuvm_ts i kstack) (fun _ s' => ts_ok i kstack s' /\ (forall a, ~ in_ts i a -> smem s' a = smem s a) /\
    gdtr (sregs s' i) = gdtr (sregs s i) /\ idtr (sregs s' i) = idtr (sregs s i) /\ gs (sregs s' i) = gs (sregs s i) /\
    forall j, j <> i -> sregs s' j = sregs s j) s.
Proof.
  intros Hi Hg. destruct (cpu_at_range i Hi) as (Hu & Hk & Hc). unfold sizeof_cpu, KERNBASE in *.
  unfold Seg.switchuvm_ts, set_gdt, upd_mem. rewrite ts_addr, gdt_addr. set (c := cpu_at i) in *. cbv zeta. do 8 wp_step.
  rewrite off_ss0, off_esp0. change (sizeof_taskstate - 1) with 103.
  set (d := set_s 0 _). set (s1 := set_smem _ _). unfold ltr. wp_call (wp_descriptor i _ (gdt_at i 0) 55 s1); [done|done|]. intros z ? [-> ->].
  change (Z.land (Z.shiftl SEG_TSS 3) (Z.lnot 7)) with 48. rewrite gdt_addr. fold c.
  assert (E : load64 (smem s1) (c + 112 + 8 * 0 + 48) = seg_word d).
  { unfold s1, SEG_TSS. cbn [smem set_smem]. beside. replace (c + 112 + 8 * 0 + 48) with (c + 112 + 8 * 6) by lia. apply load64_store64, seg_word_range. }
  rewrite E. destruct (SEG16_reads STS_T32A (c + 8) 103 0) as (Eb & El & Et & Es & Ep); [done|unfold is_u32; lia|done|done|]. fold d in Eb, El, Et, Es, Ep.
  rewrite Eb, El, Et, Es, Ep. simpl negb. change (1 =? 0) with false. cbv iota. wp_step. apply wp_gets. unfold id.
  wp_call wp_upd_mem. intros [] s2 [Em Er]. wp_call wp_upd_regs. intros [] s3 (Em3 & Er3 & Ej3). rewrite Er in Er3, Ej3.
  assert (Eg : gdtr (sregs s1 i) = gdtr (sregs s i)) by done. rewrite Eg, Hg in Em. cbn [fst] in Em. rewrite gdt_addr in Em. fold c in Em.
  change (sregs s1) with (sregs s) in Er3, Ej3. rewrite Er3. split_and!; try done.
  - split; rewrite ?ts_addr, ?Er3, ?Em3, ?Em; fold c; [done|..].
    + unfold s1. cbn [smem set_smem]. beside. by apply load16_store16.
    + unfold s1. cbn [smem set_smem]. beside. rewrite load32_store32. apply u32_idem.
  - intros a Ha. unfold in_ts in Ha. rewrite gdt_addr, ts_addr in Ha. fold c in Ha. rewrite Em3, Em. unfold s1, SEG_TSS in *. cbn [smem set_smem].
    by rewrite store64_other, store32_other, store16_other, !store64_other by lia.
Qed.

(** Everything that a trap needs apart from the stack. *)
Definition traps_ok (i : nat) (s : seg_st) : Prop :=
  cpu_ok i s /\ idtr (sregs s i) = (idt, 2047) /\ forall n, 0 <= n < 256 -> load64 (smem s) (idt + 8 * n) = gate_word (gate_for n).

Hypothesis Hidt : KERNBASE <= idt /\ idt + 2048 <= 4294967296.
Hypothesis Hapart : idt + 2048 <= cpus \/ cpus + sizeof_cpu * NCPU <= idt.

Lemma idt_apart i a : (i < 8)%nat -> in_cpu i a -> ~ in_idt a.
Proof. unfold in_cpu, in_idt, Seg.cpu_at, sizeof_cpu, NCPU in *. lia. Qed.

Lemma idt_ext s s' n : (forall a, in_idt a -> smem s' a = smem s a) -> 0 <= n < 256 -> load64 (smem s') (idt + 8 * n) = load64 (smem s) (idt + 8 * n).
Proof. intros Hm Hn. unfold load64. f_equal. apply loadn_ext. intros a Ha. apply Hm. unfold in_idt. lia. Qed.

Lemma wp_traps_ready i s : (i < 8)%nat -> wp (trap_setup cpus idt vectors i) (fun _ s' => traps_ok i s') s.
Proof.
  intros Hi. unfold trap_setup. wp_call wp_seginit; [done|]. intros [] s1 (H1 & _ & _). wp_call wp_tvinit. intros [] s2 (Hr & Hm & Hg).
  unfold idtinit, lidt, upd_regs. apply wp_modify. change (8 * 256) with 2048. rewrite pseudo_table by (unfold is_u32, KERNBASE in *; lia).
  split_and!; [|cbn [sregs]; by rewrite fn_lookup_insert|done].
  eapply cpu_ok_frame; [exact H1|..]; cbn [sregs smem]; rewrite ?fn_lookup_insert, ?Hr; try done. intros a [Ha _]%own_cpu. by apply Hm, (idt_apart i).
Qed.

Lemma in_ts_cpu i a : in_ts i a -> in_cpu i a.
Proof. unfold in_ts, in_cpu. rewrite gdt_addr, ts_addr. unfold sizeof_cpu, SEG_TSS. lia. Qed.

Lemma wp_switch i kstack s : (i < 8)%nat -> traps_ok i s -> wp (switchuvm_ts i kstack) (fun _ s' => traps_ok i s' /\ ts_ok i kstack s') s.
Proof.
  intros Hi (Hc & Hd & Hg). eapply wp_mono; [apply wp_switchuvm_ts; [done|apply Hc]|]. intros [] s' (Ht & Hm & E1 & E2 & E3 & _).
  split; [|done]. split_and!; [eapply cpu_ok_frame; try done; intros a Ha; by apply Hm, own_cpu|by rewrite E2|]. intros n Hn. rewrite (idt_ext s s'); [by apply Hg| |done].
  intros a Ha. apply Hm. intros Hin. by eapply (idt_apart i a); [done|apply in_ts_cpu|].
Qed.

Lemma wp_switches i ks : forall s, (i < 8)%nat -> traps_ok i s -> wp (switches cpus i ks) (fun _ s' => traps_ok i s') s.
Proof.
  induction ks as [|k ks IH]; intros s Hi Hs; cbn [switches]; [by apply wp_ret|]. wp_call wp_switch; [done|done|]. intros [] s1 [H1 _]. by apply IH.
Qed.

Hypothesis Hvec : forall n, 0 <= n < 256 -> is_u32 (vectors n).

Lemma traps_interrupt i kstack soft n s : traps_ok i s -> ts_ok i kstack s -> 0 <= n < 256 ->
  user_interrupt i soft n s = if soft && negb (n =? T_SYSCALL) then None
    else Some (Entry (Z.shiftl SEG_KCODE 3) (vectors n) (Z.shiftl SEG_KDATA 3) (u32 (kstack + KSTACKSIZE)) (n =? T_SYSCALL)).
Proof.
  intros (Hc & Hd & Hg) [Ht1 Ht2 Ht3] Hn. unfold user_interrupt. rewrite Hd, (proj2 (Z.ltb_ge _ _)), Hg by lia. cbv zeta.
  assert (Hr : let g := gate_word (gate_for n) in gate_off g = vectors n /\ gate_sel g = Z.shiftl SEG_KCODE 3 /\
    desc_type g = (if n =? T_SYSCALL then STS_TG32 else STS_IG32) /\ desc_dpl g = (if n =? T_SYSCALL then 3 else 0) /\ desc_p g = 1).
  { unfold gate_for. destruct (n =? T_SYSCALL); apply SETGATE_reads; (done || by apply Hvec). }
  destruct Hr as (-> & -> & -> & -> & ->). rewrite (ok_segment i SEG_KCODE (Z.lor STA_X STA_R) 0) by (apply Hc || done). rewrite Ht1, Ht2, Ht3.
  specialize (Hvec n Hn). unfold is_u32 in Hvec. replace (0xffffffff <? vectors n) with false by lia.
  by destruct soft, (n =? T_SYSCALL).
Qed.

(** C99 Once a processor has set up its segments, gates and task state, a user
    program can raise no interrupt but the system call: [int n] faults for all
    other [n].  The system call and every device interrupt or exception enter
    at their vector with the kernel's code segment, on the kernel stack of the
    process that was switched to last, and only the system call leaves
    interrupts enabled. *)
Theorem user_traps i ks kstack s : (i < 8)%nat ->
  wp (trap_setup cpus idt vectors i ;; switches cpus i ks ;; switchuvm_ts i kstack) (fun _ s' => forall n, 0 <= n < 256 ->
    let e := Entry (Z.shiftl SEG_KCODE 3) (vectors n) (Z.shiftl SEG_KDATA 3) (u32 (kstack + KSTACKSIZE)) (n =? T_SYSCALL) in
    user_interrupt i true n s' = (if n =? T_SYSCALL then Some e else None) /\ user_interrupt i false n s' = Some e) s.
Proof.
  intros Hi. wp_call wp_traps_ready; [done|]. intros [] s1 H1. wp_call wp_switches; [done|done|]. intros [] s2 H2.
  wp_call wp_switch; [done|done|]. intros [] s3 [H3 Ht] n Hn. cbv zeta. rewrite !(traps_interrupt i kstack) by done. by destruct (n =? T_SYSCALL).
Qed.

(** C99 The task state's [iomb] is never set.  It is 0, so the processor takes
    the task state itself for the map of ports, and a user program may use the
    ports whose bits lie in the fields that stay zero, with I/O privilege 0:
    all from 80 to 823, among them those of the keyboard, of the clock and of
    the IDE disk. *)
Theorem user_ports_open i kstack s : (i < 8)%nat -> cpu_ok i s ->
  (forall a, ts_at i <= a < ts_at i + sizeof_taskstate -> ~ in_ts i a -> smem s a = 0) ->
  wp (switchuvm_ts i kstack) (fun _ s' => forall port, 80 <= port < 824 -> port_allowed i 3 0 port s' = true) s.
Proof.
  intros Hi Hc Hz. eapply wp_mono; [apply wp_switchuvm_ts; [done|apply Hc]|]. intros [] s' ([Ht _ _] & Hm & _) port Hp.
  assert (H0 : forall o, 10 <= o <= 102 -> load16 (smem s') (ts_at i + o) = 0).
  { intros o Ho. assert (E : forall x, 10 <= x < 104 -> smem s' (ts_at i + x) = 0).
    { intros x Hx. assert (Hn : ~ in_ts i (ts_at i + x)) by (unfold in_ts; rewrite gdt_addr, ts_addr; unfold SEG_TSS; lia).
      rewrite Hm by done. apply Hz; [unfold sizeof_taskstate; lia|done]. }
    unfold load16. cbn [loadn]. rewrite <- Z.add_assoc, !E by lia. done. }
  unfold port_allowed. rewrite Ht. change (103 <? 103) with false. cbv iota. rewrite (H0 102), Z.add_0_l by lia. cbv zeta.
  rewrite H0 by zlia. rewrite Z.bits_0. change (negb false) with true. rewrite andb_true_r, orb_true_iff. right. apply Z.leb_le. zlia.
Qed.
End proofs.

(** ** Instances *)

Definition demo_vectors (n : Z) : Z := 0x80105000 + 10 * n.
Definition demo_seg : seg_st := SegSt (fun _ => 0) (fun _ => Regs (0, 0) (0, 0) (0, 0) (0, 0)).

(** The second processor finds its own data. *)
Lemma cpu_local_witness : wp (seginits 0x80112000 [0; 1]%nat) (fun _ s' => gs_load 1 0 s' = Some (0x80112000 + 188)) demo_seg.
Proof.
  eapply wp_mono; [apply (cpu_local 0x80112000 ltac:(unfold KERNBASE, NCPU, sizeof_cpu; lia) [0; 1]%nat demo_seg); repeat constructor|].
  intros [] s' H. apply (H 1%nat). set_solver.
Defined.

(** "int 13" and "int 64" of a user program. *)
Lemma user_traps_witness : wp (trap_setup 0x80112000 0x80114000 demo_vectors 0 ;; switches 0x80112000 0 [0x8DFFF000] ;; switchuvm_ts 0x80112000 0 0x8DFFE000)
  (fun _ s' => user_interrupt 0 true 13 s' = None /\ user_interrupt 0 true 64 s' = Some (Entry 8 0x80105280 16 0x8DFFF000 true)) demo_seg.
Proof.
  eapply wp_mono; [apply (user_traps 0x80112000 ltac:(unfold KERNBASE, NCPU, sizeof_cpu; lia) 0x80114000 demo_vectors)|].
  - unfold KERNBASE; lia.
  - right. vm_compute. discriminate.
  - intros n Hn. unfold is_u32, demo_vectors. lia.
  - lia.
  - intros [] s' H. split; [apply (H 13); lia|apply (H 64); lia].
Defined.

(** A user program reads the status of the IDE disk. *)
Lemma user_ports_open_witness : wp (seginit 0x80112000 0 0 ;; switchuvm_ts 0x80112000 0 0x8DFFE000) (fun _ s' => port_allowed 0 3 0 0x1f7 s' = true) demo_seg.
Proof.
  assert (Hc : KERNBASE <= 0x80112000 /\ 0x80112000 + sizeof_cpu * NCPU <= 4294967296) by (unfold KERNBASE, NCPU, sizeof_cpu; lia).
  wp_call (wp_seginit 0x80112000 Hc 0); [lia|]. intros [] s1 (H1 & Hm & _).
  eapply wp_mono; [apply (user_ports_open 0x80112000 Hc 0 0x8DFFE000 s1 ltac:(lia) H1)|].
  - intros a Ha _. rewrite Hm; [done|]. rewrite gdt_addr. unfold ts_at, sizeof_taskstate in Ha. change (offsetof cpu_fields "ts") with 8 in Ha. lia.
  - intros [] s' H. apply H. lia.
Defined.
