(* ===== verification/Start.v ===== *)
(** * Starting the other processors (main.c: mpenter, mpmain, startothers,
    entrypgdir; entryother.S; vm.c: switchkvm; lapic.c: cpunum)

    One memory, and for each processor its registers and its local APIC.  The
    boot processor copies the entry code, leaves a stack, an address and a page
    directory in front of it and sends a STARTUP to the processor; while it
    waits, the processor runs: its entry code takes the three words, turns
    paging on and calls [mpenter], which sets the processor up and reports it
    as started.  [scheduler] and the messages on the console are not part of
    this. *)

From S2P Require Import Prelude Params Spinlock Kalloc Vm Io Seg.

(** ** The boot page directory *)

Definition PTE_PS : Z := 0x080.
Definition entrypgdir (k : Z) : Z :=
  if k =? 0 then Z.lor (Z.lor (Z.lor 0 PTE_P) PTE_W) PTE_PS
  else if k =? Z.shiftr KERNBASE 22 then Z.lor (Z.lor (Z.lor 0 PTE_P) PTE_W) PTE_PS
  else 0.

(** What the processor makes of an address with page size extension: the
    physical address, and whether it may be written. *)
Definition pse (m : mem) (cr3 va : Z) : option (Z * bool) :=
  let pde := load32 m (p2v cr3 + 4 * PDX va) in
  if negb (has pde PTE_P) then None
  else if has pde PTE_PS then Some (Z.land pde (Z.lnot 0x3fffff) + va mod 0x400000, has pde PTE_W)
  else
    let pte := load32 m (p2v (PTE_ADDR pde) + 4 * PTX va) in
    if negb (has pte PTE_P) then None else Some (PTE_ADDR pte + va mod 4096, has pde PTE_W && has pte PTE_W).

(** The directory at [a] is [entrypgdir]. *)
Definition boot_map (m : mem) (a : Z) : Prop := forall k, 0 <= k < 1024 -> load32 m (a + 4 * k) = entrypgdir k.

(** ** Operations *)

Record start_st (D : Type) := StartSt {
  st_km : kmem_st; st_regs : nat -> regs; st_cr3 : nat -> Z; st_esp : nat -> Z; st_plat : nat -> plat D }.
Arguments StartSt {D}.
Arguments st_km {D}.
Arguments st_regs {D}.
Arguments st_cr3 {D}.
Arguments st_esp {D}.
Arguments st_plat {D}.

(** What a local APIC at [base] documents: an interrupt command with delivery
    mode 6 sends a STARTUP with its vector to the APIC in the upper command
    register, other commands and registers do not; a command has been
    delivered when the register is read. *)
Class Apic (D : Type) `{Device D} (base : Z) := {
  apic_id : D -> Z;
  icr_hi : D -> Z;
  sipis : D -> list (Z * Z);
  apic_hi d v : icr_hi (mm_write (base + 4 * ICRHI) v d) = v;
  apic_hi_other d r v : r <> ICRHI -> icr_hi (mm_write (base + 4 * r) v d) = icr_hi d;
  apic_sipi d v : sipis (mm_write (base + 4 * ICRLO) v d) =
    if Z.land v 0x700 =? 0x600 then sipis d ++ [(Z.shiftr (icr_hi d) 24, Z.land v 0xff)] else sipis d;
  apic_sipi_other d r v : r <> ICRLO -> sipis (mm_write (base + 4 * r) v d) = sipis d;
  apic_id_write d r v : apic_id (mm_write (base + 4 * r) v d) = apic_id d;
  apic_read d r : let d' := snd (mm_read (base + 4 * r) d) in apic_id d' = apic_id d /\ icr_hi d' = icr_hi d /\ sipis d' = sipis d;
  apic_out d p v : apic_id (port_out p v d) = apic_id d /\ icr_hi (port_out p v d) = icr_hi d /\ sipis (port_out p v d) = sipis d;
  apic_read_id d : fst (mm_read (base + 4 * ID) d) = Z.shiftl (apic_id d) 24;
  apic_idle d : has (fst (mm_read (base + 4 * ICRLO) d)) DELIVS = false }.

Section start.
Context `{HD : Device D} (base : Z) `{!Apic D base} (spins : nat).
(** The boot processor; the addresses of [cpus], [idt], [entrypgdir] and
    [mpenter]; [kpgdir]; the image of entryother.S and the address behind its
    call. *)
Context (me : nat) (cpus idt entrypgdir_at mpenter_at kpgdir : Z) (image : list Z) (retaddr : Z).
Notation MS := (M (start_st D)).

Definition set_km k (s : start_st D) := StartSt k (st_regs s) (st_cr3 s) (st_esp s) (st_plat s).
Definition set_cr3 p x (s : start_st D) := StartSt (st_km s) (st_regs s) (<[p := x]> (st_cr3 s)) (st_esp s) (st_plat s).
Definition set_esp p x (s : start_st D) := StartSt (st_km s) (st_regs s) (st_cr3 s) (<[p := x]> (st_esp s)) (st_plat s).
Definition st_mem (s : start_st D) : mem := kram (st_km s).
Definition set_mem m (s : start_st D) := set_km (KmemSt (kmach (st_km s)) (use_lock (st_km s)) (freelist (st_km s)) m) s.
Definition upd_st (f : mem -> mem) : MS unit := modify (fun s => set_mem (f (st_mem s)) s).

(** The memory is the same for all; processor [p] has its own APIC. *)
Definition km_lens : lens (start_st D) kmem_st := Lens st_km set_km.
Definition seg_lens : lens (start_st D) seg_st :=
  Lens (fun s => SegSt (st_mem s) (st_regs s))
    (fun t s => set_mem (smem t) (StartSt (st_km s) (sregs t) (st_cr3 s) (st_esp s) (st_plat s))).
Definition plat_lens (p : nat) : lens (start_st D) (plat D) :=
  Lens (fun s => st_plat s p) (fun t s => StartSt (st_km s) (st_regs s) (st_cr3 s) (st_esp s) (<[p := t]> (st_plat s))).

(** The number of the processor that asks, with interrupts off. *)
Definition cpunum : M (plat D) Z :=
  a ← gets lapic;
  if negb (a =? 0) then v ← lapicr ID; mret (Z.shiftr v 24) else mret 0.

Definition switchkvm (p : nat) : MS unit := modify (set_cr3 p (v2p kpgdir)).

(** Processor [p] with paging on. *)
Definition vload (p : nat) (va : Z) : MS Z :=
  s ← get;
  match pse (st_mem s) (st_cr3 s p) va with
  | None => panic "#PF"
  | Some (pa, _) => mret (load32 (st_mem s) (p2v pa))
  end.
Definition push (p : nat) (v : Z) : MS unit :=
  s ← get;
  let esp := u32 (st_esp s p - 4) in
  match pse (st_mem s) (st_cr3 s p) esp with
  | Some (pa, true) => upd_st (fun m => store32 m (p2v pa) v) ;; modify (set_esp p esp)
  | _ => panic "#PF"
  end.

(** entryother.S, loaded at [start]: [start-12] is read before paging is on.
    The result is where it jumps. *)
Definition entryother (p : nat) (start : Z) : MS Z :=
  m ← gets st_mem;
  modify (set_cr3 p (load32 m (p2v (start - 12)))) ;;
  esp ← vload p (start - 4);
  modify (set_esp p esp) ;;
  target ← vload p (start - 8);
  push p retaddr ;;
  mret target.

Definition mpmain (p : nat) : MS unit :=
  lift seg_lens (idtinit idt p) ;;
  s ← get;
  match gs_load p 0 (lget seg_lens s) with
  | None => panic "#GP"
  | Some c => upd_st (fun m => store32 m (c + offsetof cpu_fields "started") 1)
  end.
Definition mpenter (p : nat) : MS unit :=
  switchkvm p ;;
  i ← lift (plat_lens p) cpunum;
  lift seg_lens (seginit cpus p (Z.to_nat i)) ;;
  lift (plat_lens p) (lapicinit spins) ;;
  mpmain p.

(** A processor that was sent a STARTUP begins at the page of its vector. *)
Definition ap_boot (p : nat) (start : Z) : MS unit :=
  target ← entryother p start;
  if negb (target =? mpenter_at) then panic "jump" else mpenter p.
Definition others_run : MS unit :=
  d ← gets (fun s => pdev (st_plat s me));
  match last (sipis d) with
  | None => mret ()
  | Some (id, vector) => ap_boot (Z.to_nat id) (4096 * vector)
  end.

(** [while(c->started == 0)], while the other processors run. *)
Fixpoint ap_wait (fuel : nat) (c : nat) : MS unit :=
  match fuel with
  | O => blocked
  | S fuel =>
      m ← gets st_mem;
      if negb (load32 m (cpu_at cpus c + offsetof cpu_fields "started") =? 0) then mret ()
      else others_run ;; ap_wait fuel c
  end.

Definition code : Z := p2v 0x7000.
Definition start_one (c : nat) : MS unit :=
  stack ← lift km_lens kalloc;
  upd_st (fun m => store32 m (code - 4) (u32 (stack + KSTACKSIZE))) ;;
  upd_st (fun m => store32 m (code - 8) mpenter_at) ;;
  upd_st (fun m => store32 m (code - 12) (v2p entrypgdir_at)) ;;
  m ← gets st_mem;
  wrv ← lift (plat_lens me) (lapicstartap (m (cpu_at cpus c)) (v2p code));
  upd_st (fun m => store m (p2v (Z.lor (Z.shiftl 0x40 4) 0x67)) (wrv ≫= le_bytes 2)) ;;
  ap_wait spins c.
Fixpoint start_each (cs : list nat) : MS unit :=
  match cs with
  | [] => mret ()
  | c :: cs =>
      i ← lift (plat_lens me) cpunum;
      (if Z.of_nat c =? i then mret () else start_one c) ;;
      start_each cs
  end.
Definition startothers : MS unit :=
  upd_st (fun m => store m code image) ;;
  n ← gets (fun s => ncpu (st_plat s me));
  start_each (seq 0 (Z.to_nat n)).
End start.

(** ** The boot map *)

Lemma PDX_div va : is_u32 va -> PDX va = va / 0x400000.
Proof.
  intros Hv. unfold PDX. change 0x3FF with (Z.ones 10). rewrite Z.land_ones, Z.shiftr_div_pow2 by lia. unfold is_u32 in Hv. zlia.
Qed.

(** The directory maps the first four megabytes at 0 and at [KERNBASE], and
    nothing else. *)
Lemma pse_boot m a va : boot_map m a -> KERNBASE <= a < 4294967296 -> is_u32 va ->
  pse m (v2p a) va = if va <? 0x400000 then Some (va, true)
    else if (KERNBASE <=? va) && (va <? KERNBASE + 0x400000) then Some (va - KERNBASE, true) else None.
Proof.
  intros Hm Ha Hv. unfold pse. cbv zeta. replace (p2v (v2p a)) with a by (unfold p2v, v2p, KERNBASE in *; zlia).
  rewrite PDX_div by done. unfold is_u32, KERNBASE in *.
  assert (Ee : load32 m (a + 4 * (va / 0x400000)) = entrypgdir (va / 0x400000)) by (apply Hm; zlia). rewrite !Ee. unfold entrypgdir. change (Z.shiftr Params.KERNBASE 22) with 512.
  set (e := Z.lor _ PTE_PS). assert (has e PTE_P = true /\ has e PTE_PS = true /\ has e PTE_W = true /\ Z.land e (Z.lnot 0x3fffff) = 0) as (Hp & Hs & Hw & Hz) by done.
  destruct (Z.eqb_spec (va / 0x400000) 0); [|destruct (Z.eqb_spec (va / 0x400000) 512)].
  - cbv iota. rewrite Hp, Hs, Hw, Hz. simpl negb. cbv iota. replace (va <? 0x400000) with true by zlia. f_equal. f_equal. zlia.
  - cbv iota. rewrite Hp, Hs, Hw, Hz. simpl negb. cbv iota. replace (va <? 0x400000) with false by zlia.
    replace (0x80000000 <=? va) with true by zlia. replace (va <? 0x80000000 + 0x400000) with true by zlia. simpl. f_equal. f_equal. zlia.
  - simpl. replace (va <? 0x400000) with false by zlia.
    destruct (Z.leb_spec 0x80000000 va), (Z.ltb_spec va (0x80000000 + 0x400000)); try done. exfalso. zlia.
Qed.

(** ** Local APICs *)

Section apic.
Context `{HD : Device D} (base : Z) `{!Apic D base} (spins : nat).
Hypothesis Hbase : base <> 0.

(** Only the devices changed, and the APIC keeps its number. *)
Definition kept (s s' : plat D) : Prop := exists d, s' = set_pdev d s /\ apic_id d = apic_id (pdev s).

Lemma kept_refl s : kept s s.
Proof. exists (pdev s). by destruct s. Qed.
Lemma kept_trans s s1 s2 : kept s s1 -> kept s1 s2 -> kept s s2.
Proof. intros (d & -> & E) (d' & -> & E'). exists d'. split; [done|]. by rewrite E'. Qed.
Lemma kept_lapic s s' : kept s s' -> lapic s' = lapic s /\ ncpu s' = ncpu s /\ apic_id (pdev s') = apic_id (pdev s).
Proof. by intros (d & -> & E). Qed.

Lemma wp_lapicr r s : lapic s = base -> wp (lapicr r) (fun v s' => v = fst (mm_read (base + 4 * r) (pdev s)) /\ kept s s' /\
  icr_hi (pdev s') = icr_hi (pdev s) /\ sipis (pdev s') = sipis (pdev s)) s.
Proof.
  intros E. unfold lapicr. wp_step. apply wp_gets. rewrite E. destruct (apic_read (pdev s) r) as (E1 & E2 & E3).
  unfold on_dev, wp. destruct (mm_read _ _) as [v d]. simpl in *. split_and!; [done|by exists d|done|done].
Qed.

Lemma wp_lapicw r v s : lapic s = base -> wp (lapicw r v) (fun _ s' => kept s s' /\
  icr_hi (pdev s') = (if r =? ICRHI then u32 v else icr_hi (pdev s)) /\
  sipis (pdev s') = (if (r =? ICRLO) && (Z.land (u32 v) 0x700 =? 0x600) then sipis (pdev s) ++ [(Z.shiftr (icr_hi (pdev s)) 24, Z.land (u32 v) 0xff)]
    else sipis (pdev s))) s.
Proof.
  intros E. unfold lapicw. wp_step. apply wp_gets. rewrite E. set (d := mm_write (base + 4 * r) (u32 v) (pdev s)).
  eapply wp_seq with (R := fun _ s' => s' = set_pdev d s); [done|]. intros [] ? ->. wp_call wp_lapicr; [done|]. intros w s2 (_ & Hk & Eh & Es). apply wp_ret. rewrite Eh, Es. cbn [pdev set_pdev]. split_and!.
  - eapply kept_trans; [|exact Hk]. exists d. split; [done|apply apic_id_write].
  - unfold d. destruct (Z.eqb_spec r ICRHI) as [->|]; [apply apic_hi|by apply apic_hi_other].
  - unfold d. destruct (Z.eqb_spec r ICRLO) as [->|]; [apply apic_sipi|by apply apic_sipi_other].
Qed.

Lemma wp_cpunum s : lapic s = base -> 0 <= apic_id (pdev s) -> wp cpunum (fun i s' => i = apic_id (pdev s) /\ kept s s') s.
Proof.
  intros E Hid. unfold cpunum. wp_step. apply wp_gets. rewrite E, (proj2 (Z.eqb_neq _ _) Hbase). simpl negb. cbv iota.
  wp_call wp_lapicr; [done|]. intros v s1 (-> & Hk & _). apply wp_ret. split; [|done]. rewrite apic_read_id.
  rewrite Z.shiftl_mul_pow2, Z.shiftr_div_pow2 by lia. apply Z.div_mul. lia.
Qed.

(** A step of an initialiser that only touches the devices. *)
Lemma wp_kept_write {A} r v (K : M (plat D) A) Q s0 s : kept s0 s -> lapic s0 = base ->
  (forall s', kept s0 s' -> wp K Q s') -> wp (lapicw r v ;; K) Q s.
Proof.
  intros Hk E HK. destruct (kept_lapic _ _ Hk) as (El & _). wp_call wp_lapicw; [congruence|]. intros [] s1 (H1 & _). apply HK. by eapply kept_trans.
Qed.

Lemma wp_lapicinit s : lapic s = base -> (0 < spins)%nat -> wp (lapicinit spins) (fun _ s' => kept s s') s.
Proof.
  intros E Hsp. unfold lapicinit. wp_step. apply wp_gets. rewrite E, (proj2 (Z.eqb_neq _ _) Hbase).
  assert (Hk := kept_refl s). set (s1 := s) in Hk at 2 |- * at 2. clearbody s1.
  do 6 (eapply wp_kept_write; [exact Hk|done|]; clear dependent s1; intros s1 Hk).
  wp_call wp_lapicr; [destruct (kept_lapic _ _ Hk); congruence|]. intros v s2 (_ & H2 & _). assert (Hk2 := kept_trans _ _ _ Hk H2). clear dependent s1.
  eapply wp_seq with (R := fun _ s' => kept s s').
  { apply wp_when; intros _; [|done]. wp_call wp_lapicw; [destruct (kept_lapic _ _ Hk2); congruence|]. intros [] s3 [H3 _]. by eapply kept_trans. }
  intros [] s3 Hk. clear dependent s2.
  do 6 (eapply wp_kept_write; [exact Hk|done|]; clear dependent s3; intros s3 Hk).
  destruct spins as [|n]; [lia|]. cbn [lapic_wait]. rewrite bind_assoc_wp. wp_call wp_lapicr; [destruct (kept_lapic _ _ Hk); congruence|].
  intros w s4 (-> & H4 & _). rewrite apic_idle. apply wp_bind, wp_ret. assert (Hk4 := kept_trans _ _ _ Hk H4).
  wp_call wp_lapicw; [destruct (kept_lapic _ _ Hk4); congruence|]. intros [] s5 [H5 _]. by eapply kept_trans.
Qed.

Lemma wp_apic_outb p v s : wp (outb p v) (fun _ s' => kept s s') s.
Proof. unfold outb, on_dev, wp. simpl. eexists. split; [done|]. by apply apic_out. Qed.

(** The processor with number [id] is told to start at [addr]. *)
Lemma wp_lapicstartap id addr s : lapic s = base -> is_u8 id -> 0 <= addr < 0x100000 -> addr mod 4096 = 0 ->
  wp (lapicstartap id addr) (fun wrv s' => wrv = [0; addr / 16] /\ kept s s' /\ last (sipis (pdev s')) = Some (id, addr / 4096)) s.
Proof.
  intros E Hid Ha Hm. unfold lapicstartap. wp_call wp_apic_outb. intros [] s1 H1. wp_call wp_apic_outb. intros [] s2 H2.
  assert (Hk := kept_trans _ _ _ H1 H2). clear dependent s1.
  do 5 (eapply wp_kept_write; [exact Hk|done|]; clear dependent s2; intros s2 Hk).
  wp_call wp_lapicw; [destruct (kept_lapic _ _ Hk); congruence|]. intros [] s3 (H3 & Eh & _). rewrite Z.eqb_refl in Eh. assert (Hk3 := kept_trans _ _ _ Hk H3).
  wp_call wp_lapicw; [destruct (kept_lapic _ _ Hk3); congruence|]. intros [] s4 (H4 & _ & Es). apply wp_ret.
  assert (Hv : u32 (Z.lor STARTUP (Z.shiftr addr 12)) = 0x600 + addr / 4096).
  { rewrite Z.shiftr_div_pow2 by lia. change STARTUP with (Z.shiftl 6 8). rewrite lor_shiftl by zlia. zlia. }
  split_and!.
  - rewrite Z.shiftr_div_pow2 by lia. change (2 ^ 4) with 16. f_equal. f_equal. zlia.
  - by eapply kept_trans.
  - rewrite Es, Hv, Z.eqb_refl. assert (Hb : Z.land (0x600 + addr / 4096) 0x700 = 0x600 /\ Z.land (0x600 + addr / 4096) 0xff = addr / 4096).
    { split; [|change 0xff with (Z.ones 8); rewrite Z.land_ones by lia; zlia].
      assert (Hs : forallb (fun k => Z.land (0x600 + k) 0x700 =? 0x600) (seqZ 0 256) = true) by reflexivity.
      apply Z.eqb_eq. apply (forall_range (fun k => Z.land (0x600 + k) 0x700 =? 0x600) 0 256 Hs (addr / 4096)). zlia. }
    destruct Hb as [-> ->]. simpl andb. cbv iota. rewrite last_snoc. f_equal. f_equal. rewrite Eh.
    rewrite Z.shiftl_mul_pow2, Z.shiftr_div_pow2 by lia. unfold is_u8 in Hid. zlia.
Qed.
End apic.

(** ** The other processors *)

Section others.
Context `{HD : Device D} (base : Z) `{!Apic D base} (spins : nat).
Context (me : nat) (cpus idt entrypgdir_at mpenter_at kpgdir : Z) (image : list Z) (retaddr kend : Z) (ie : bool) (L : list lockid).
Notation cpu_at := (cpu_at cpus).
Notation in_cpu := (in_cpu cpus).
Hypothesis Hbase : base <> 0.
Hypothesis Hspins : (2 <= spins)%nat.
(** The kernel is linked at one megabyte; its data end at [kend]. *)
Hypothesis Hcpus : KERNBASE + 0x100000 <= cpus /\ cpus + sizeof_cpu * NCPU <= kend.
Hypothesis Hdir : KERNBASE + 0x100000 <= entrypgdir_at /\ entrypgdir_at + 4096 <= kend.
Hypothesis Hapart : entrypgdir_at + 4096 <= cpus \/ cpus + sizeof_cpu * NCPU <= entrypgdir_at.
Hypothesis Hidt : KERNBASE <= idt /\ idt + 2048 <= 4294967296.
Hypothesis Hkend : kend <= KERNBASE + 0x400000.
Hypothesis Henter : is_u32 mpenter_at.

Lemma others_cpus : KERNBASE <= cpus /\ cpus + sizeof_cpu * NCPU <= 4294967296.
Proof. unfold KERNBASE in *. lia. Qed.

Lemma cpu_bounds c : (c < 8)%nat -> KERNBASE + 0x100000 <= cpu_at c /\ cpu_at c + 188 <= kend.
Proof. intros Hc. unfold Seg.cpu_at, sizeof_cpu, NCPU in *. lia. Qed.

(** Pages on the free list keep their place when memory elsewhere changes. *)
Lemma kmem_ok_mem free k m : kmem_ok kend ie L free k -> (forall p a, p ∈ free -> p <= a < p + 4096 -> m a = kram k a) ->
  kmem_ok kend ie L free (KmemSt (kmach k) (use_lock k) (freelist k) m).
Proof.
  intros [] Hm. split; try done. eapply chain_ext; [|done]. intros p a Hp Ha. apply (Hm p); [done|lia].
Qed.

(** The state between two processors: [free] are the free pages. *)
Record boot_inv (n : nat) (free : list Z) (s : start_st D) : Prop := {
  bi_km : kmem_ok kend ie L free (st_km s);
  bi_low : Forall (fun p => p + 4096 <= KERNBASE + 0x400000) free;
  bi_map : boot_map (st_mem s) entrypgdir_at;
  bi_apic : forall k, (k < n)%nat -> lapic (st_plat s k) = base /\ apic_id (pdev (st_plat s k)) = Z.of_nat k;
  bi_id : forall k, (k < n)%nat -> st_mem s (cpu_at k) = Z.of_nat k }.

(** Processor [c] runs with the kernel's page table on the stack [p], finds
    its own data, has its gates and is reported as started. *)
Record ap_ok (c : nat) (p : Z) (s : start_st D) : Prop := {
  ao_cpu : cpu_ok cpus c (lget seg_lens s);
  ao_idt : idtr (st_regs s c) = (idt, 2047);
  ao_cr3 : st_cr3 s c = v2p kpgdir;
  ao_esp : st_esp s c = p + 4092;
  ao_started : load32 (st_mem s) (cpu_at c + 168) = 1 }.

(** What starting processor [c] on the stack [p] may change. *)
Definition touched (c : nat) (p a : Z) : Prop :=
  KERNBASE <= a < KERNBASE + 0x100000 \/ cpu_at c + 112 <= a < cpu_at c + 188 \/ p <= a < p + 4096.
Definition apart (c : nat) (p : Z) (s s' : start_st D) : Prop :=
  (forall a, ~ touched c p a -> st_mem s' a = st_mem s a) /\
  (forall j, j <> c -> st_regs s' j = st_regs s j /\ st_cr3 s' j = st_cr3 s j /\ st_esp s' j = st_esp s j) /\
  (forall j, kept base (st_plat s j) (st_plat s' j)) /\
  st_km s' = KmemSt (kmach (st_km s)) (use_lock (st_km s)) (freelist (st_km s)) (st_mem s').

Lemma apart_trans c p s s1 s2 : apart c p s s1 -> apart c p s1 s2 -> apart c p s s2.
Proof.
  intros (Hm & Hr & Hk & Ek) (Hm' & Hr' & Hk' & Ek'). split_and!.
  - intros a Ha. by rewrite Hm', Hm.
  - intros j Hj. destruct (Hr j Hj) as (<- & <- & <-). by apply Hr'.
  - intros j. by eapply kept_trans.
  - by rewrite Ek', Ek.
Qed.
Lemma apart_mem c p s m : (forall a, ~ touched c p a -> m a = st_mem s a) -> apart c p s (set_mem m s).
Proof. intros Hm. split_and!; [done|done| |done]. intros j. apply kept_refl. Qed.

Lemma apart_boot_map c p s s' : apart c p s s' -> (c < 8)%nat -> kend <= p -> boot_map (st_mem s) entrypgdir_at -> boot_map (st_mem s') entrypgdir_at.
Proof.
  intros (Hm & _) Hc Hp Hb k Hk. rewrite <- Hb by done. apply load32_ext. intros a Ha. apply Hm.
  unfold touched, Seg.cpu_at, sizeof_cpu, NCPU in *. lia.
Qed.

Section one.
Context (c : nat) (p : Z).
Hypothesis Hc : (c < 8)%nat.
Hypothesis Hp : kend <= p /\ p + 4096 <= KERNBASE + 0x400000.

Lemma pse_low va (s : start_st D) : boot_map (st_mem s) entrypgdir_at -> 0 <= va < 0x400000 -> pse (st_mem s) (v2p entrypgdir_at) va = Some (va, true).
Proof.
  intros Hb Hv. rewrite pse_boot by (done || unfold is_u32, KERNBASE in *; lia). by replace (va <? 0x400000) with true by lia.
Qed.
Lemma pse_high va (s : start_st D) : boot_map (st_mem s) entrypgdir_at -> KERNBASE <= va < KERNBASE + 0x400000 -> pse (st_mem s) (v2p entrypgdir_at) va = Some (va - KERNBASE, true).
Proof.
  intros Hb Hv. rewrite pse_boot by (done || unfold is_u32, KERNBASE in *; lia). replace (va <? 0x400000) with false by (unfold KERNBASE in *; lia).
  replace (KERNBASE <=? va) with true by lia. by replace (va <? KERNBASE + 0x400000) with true by lia.
Qed.

Lemma wp_entryother s : boot_map (st_mem s) entrypgdir_at ->
  load32 (st_mem s) (code - 4) = p + 4096 -> load32 (st_mem s) (code - 8) = mpenter_at -> load32 (st_mem s) (code - 12) = v2p entrypgdir_at ->
  wp (entryother retaddr c 0x7000) (fun target s' => target = mpenter_at /\ apart c p s s' /\ st_esp s' c = p + 4092) s.
Proof.
  intros Hb W4 W8 W12. unfold entryother. wp_step. apply wp_gets. apply wp_bind, wp_modify.
  change (p2v (0x7000 - 12)) with (code - 12). rewrite W12. set (s1 := set_cr3 _ _ _).
  assert (Hv : forall va (s : start_st D), st_mem s = st_mem s1 -> st_cr3 s c = v2p entrypgdir_at -> 0 <= va < 0x400000 -> wp (vload c va) (fun v s' => s' = s /\ v = load32 (st_mem s1) (p2v va)) s).
  { intros va s' Em E3 Hva. unfold vload. apply wp_bind, wp_get. rewrite E3, Em, pse_low by done. by apply wp_ret. }
  assert (E1 : st_cr3 s1 c = v2p entrypgdir_at) by (unfold s1; simpl; by rewrite fn_lookup_insert).
  wp_call Hv; [done|done|lia|]. intros esp ? [-> ->]. apply wp_bind, wp_modify. wp_call Hv; [done|done|lia|]. intros target ? [-> ->].
  change (p2v (0x7000 - 4)) with (code - 4). change (p2v (0x7000 - 8)) with (code - 8). change (st_mem s1) with (st_mem s). rewrite W4, W8.
  unfold push. apply wp_bind, wp_bind, wp_get. cbn [set_esp st_esp st_cr3 st_mem]. rewrite fn_lookup_insert, E1. cbv zeta.
  replace (u32 (p + 4096 - 4)) with (p + 4092) by (unfold KERNBASE in *; zlia).
  change (st_mem (set_esp c (p + 4096) s1)) with (st_mem s). rewrite pse_high by (done || unfold KERNBASE in *; lia). apply wp_bind, wp_modify, wp_modify, wp_ret.
  split_and!; [done| |simpl; by rewrite fn_lookup_insert].
  split_and!; [|intros j Hj; simpl; by rewrite !fn_lookup_insert_ne|intros j; apply kept_refl|done].
  intros a Ha. cbn. apply store32_other. unfold touched, p2v, KERNBASE in *. zlia.
Qed.

Lemma wp_mpenter s : lapic (st_plat s c) = base -> apic_id (pdev (st_plat s c)) = Z.of_nat c ->
  wp (mpenter spins cpus idt kpgdir c) (fun _ s' => apart c p s s' /\ (st_esp s' c = p + 4092 -> ap_ok c p s') /\ st_esp s' c = st_esp s c) s.
Proof.
  intros El Ei. destruct (cpu_bounds c Hc) as [Hlo Hhi]. unfold mpenter, switchkvm. apply wp_bind, wp_modify. set (s1 := set_cr3 _ _ _).
  apply wp_bind, wp_lift. eapply wp_mono; [apply (wp_cpunum base); [done|done|simpl; lia]|]. intros i pl (-> & Hk).
  change (lget (plat_lens c) s1) with (st_plat s c) in *. rewrite Ei, Nat2Z.id. set (s2 := lset (plat_lens c) pl s1).
  apply wp_bind, wp_lift. eapply wp_mono; [apply (wp_seginit cpus others_cpus c _ Hc)|]. intros [] t (Hok & Hm & Hr).
  set (s3 := lset seg_lens t s2). apply wp_bind, wp_lift.
  assert (El3 : lapic pl = base) by (destruct (kept_lapic _ _ _ Hk); congruence).
  eapply wp_mono; [apply (wp_lapicinit base); [done|unfold s3, s2; simpl; by rewrite fn_lookup_insert|lia]|]. intros [] pl' Hk'.
  set (s4 := lset (plat_lens c) pl' s3). unfold mpmain, idtinit, lidt, upd_regs. apply wp_bind, wp_lift, wp_modify.
  change (8 * 256) with 2048. rewrite pseudo_table by (unfold is_u32, KERNBASE in *; lia).
  set (t5 := SegSt (smem t) (<[c := set_idtr (idt, 2047) (sregs t c)]> (sregs t))).
  assert (Hok5 : cpu_ok cpus c t5).
  { eapply cpu_ok_frame; [exact Hok|done|..]; unfold t5; cbn [sregs]; by rewrite fn_lookup_insert. }
  set (s5 := lset seg_lens t5 s4). match goal with |- wp _ _ ?s => change s with s5 end. apply wp_bind, wp_get. change (lget seg_lens s5) with t5.
  assert (Eg : gs_load c 0 t5 = Some (cpu_at c)) by (unfold gs_load; rewrite (ck_gs _ _ _ Hok5); cbn [fst snd]; rewrite Z.add_0_r; by rewrite (ck_cpu _ _ _ Hok5)).
  rewrite Eg. apply wp_modify. change (offsetof cpu_fields "started") with 168.
  set (m6 := store32 _ _ _). split_and!; [|intros Ee; split|done].
  - split_and!.
    + intros a Ha. change (st_mem (set_mem m6 s5)) with m6. unfold m6, touched in *. rewrite store32_other by lia. apply (Hm a). rewrite gdt_addr. unfold sizeof_cpu. lia.
    + intros j Hj. unfold s5, s4, s3, s2, s1. cbn. rewrite !fn_lookup_insert_ne by done. by rewrite Hr.
    + intros j. unfold s5, s4, s3, s2, s1. cbn. destruct (decide (j = c)) as [->|Hne]; [|rewrite !fn_lookup_insert_ne by done; apply kept_refl].
      rewrite !fn_lookup_insert. eapply kept_trans; [exact Hk|]. unfold s3, s2 in Hk'. cbn in Hk'. by rewrite fn_lookup_insert in Hk'.
    + done.
  - eapply cpu_ok_frame; [exact Hok5|..]; [|done|done]. intros a Ha. change (st_mem (set_mem m6 s5) a = smem t5 a). change (m6 a = smem t a).
    apply store32_other. unfold in_own in Ha. rewrite !gdt_addr in Ha. unfold SEG_TSS in Ha. lia.
  - cbn. by rewrite fn_lookup_insert.
  - cbn. by rewrite fn_lookup_insert.
  - done.
  - change (st_mem (set_mem m6 s5)) with m6. unfold m6. by rewrite load32_store32.
Qed.

Lemma load32_apart s s' a : apart c p s s' -> (forall x, a <= x < a + 4 -> ~ touched c p x) -> load32 (st_mem s') a = load32 (st_mem s) a.
Proof. intros (Hm & _) Ha. apply load32_ext. auto. Qed.

(** One poll finds the processor not started and lets it run. *)
Lemma wp_ap_wait fuel s : (2 <= fuel)%nat -> boot_map (st_mem s) entrypgdir_at ->
  load32 (st_mem s) (code - 4) = p + 4096 -> load32 (st_mem s) (code - 8) = mpenter_at -> load32 (st_mem s) (code - 12) = v2p entrypgdir_at ->
  last (sipis (pdev (st_plat s me))) = Some (Z.of_nat c, 7) -> load32 (st_mem s) (cpu_at c + 168) = 0 ->
  lapic (st_plat s c) = base -> apic_id (pdev (st_plat s c)) = Z.of_nat c ->
  wp (ap_wait base spins me cpus idt mpenter_at kpgdir retaddr fuel c) (fun _ s' => apart c p s s' /\ ap_ok c p s') s.
Proof.
  intros Hf Hb W4 W8 W12 Hl Hst El Ei. destruct fuel as [|[|n]]; [lia|lia|]. cbn [ap_wait]. apply wp_bind, wp_gets.
  change (offsetof cpu_fields "started") with 168. rewrite Hst. simpl negb. cbv iota. unfold others_run. rewrite bind_assoc_wp. apply wp_bind, wp_gets. rewrite Hl.
  unfold ap_boot. rewrite Nat2Z.id, bind_assoc_wp. change (4096 * 7) with 0x7000. wp_call wp_entryother; [done|done|done|done|]. intros ? s1 (-> & H1 & Ee).
  rewrite Z.eqb_refl. simpl negb. cbv iota. destruct (proj1 (proj2 (proj2 H1)) c) as (d & Ep & Ed).
  wp_call wp_mpenter; [by rewrite Ep|by rewrite Ep; simpl; rewrite Ed|]. intros [] s2 (H2 & Hok & Ee2). assert (Hok2 : ap_ok c p s2) by (apply Hok; congruence).
  apply wp_bind, wp_gets. rewrite (ao_started _ _ _ Hok2). simpl negb. cbv iota. apply wp_ret. split; [|done]. by eapply apart_trans.
Qed.
End one.

Section start_one.
Context (n c : nat) (p : Z) (free : list Z).
Hypothesis Hn : (n <= 8)%nat.
Hypothesis Hme : (me < n)%nat.
Hypothesis Hc : (c < n)%nat.

Lemma wp_start_one s : boot_inv n (p :: free) s -> load32 (st_mem s) (cpu_at c + 168) = 0 ->
  wp (start_one base spins me cpus idt entrypgdir_at mpenter_at kpgdir retaddr c) (fun _ s' => boot_inv n free s' /\ ap_ok c p s' /\
    (forall a, ~ touched c p a -> st_mem s' a = st_mem s a) /\
    forall j, j <> c -> st_regs s' j = st_regs s j /\ st_cr3 s' j = st_cr3 s j /\ st_esp s' j = st_esp s j) s.
Proof.
  intros [Hkm Hlow Hmap Hapic Hid] Hst. assert (Hc8 : (c < 8)%nat) by lia. destruct (cpu_bounds c Hc8) as [Hclo Hchi].
  pose proof (ko_pages _ _ _ _ _ Hkm) as Hpg. pose proof (ko_nodup _ _ _ _ _ Hkm) as Hnd.
  apply Forall_cons in Hlow as [Hplow Hlow], Hpg as [[Hpmod [Hpk _]] Hpg]. apply NoDup_cons in Hnd as [Hpnew Hnd].
  unfold start_one. apply wp_bind, wp_lift. eapply wp_mono; [by apply (wp_kalloc kend ltac:(lia) ie L (p :: free))|].
  intros r k (Er & _ & -> & Hk). set (s1 := lset km_lens k s). assert (Em1 : st_mem s1 = st_mem s) by done.
  change code with 0x80007000. replace (u32 (p + KSTACKSIZE)) with (p + 4096) by (unfold KSTACKSIZE, KERNBASE in *; zlia).
  do 3 (apply wp_bind, wp_modify). match goal with |- wp _ _ ?x => set (s2 := x) end.
  assert (Em2 : forall a, a < KERNBASE \/ KERNBASE + 0x100000 <= a -> st_mem s2 a = st_mem s a).
  { intros a Ha. unfold s2. cbn -[store32]. unfold KERNBASE in Ha. rewrite !store32_other by lia. change (st_mem s1 a = st_mem s a). by rewrite Em1. }
  apply wp_bind, wp_gets. rewrite Em2, Hid by (done || lia). destruct (Hapic me Hme) as [Elm Eim].
  apply wp_bind, wp_lift. eapply wp_mono; [apply (wp_lapicstartap base); [exact Elm|unfold is_u8; lia|done|done]|].
  intros wrv pl (-> & Hkp & Hlast). apply wp_bind, wp_modify. match goal with |- wp _ _ ?x => set (s4 := x) end.
  assert (Em4 : forall a, a < KERNBASE \/ KERNBASE + 0x46b <= a -> st_mem s4 a = st_mem s2 a).
  { intros a Ha. change (store (st_mem s2) 0x80000467 [0; 0; 0; 7] a = st_mem s2 a). apply store_other. unfold KERNBASE in Ha. simpl. lia. }
  assert (Ew : forall a, 0x80001000 <= a -> load32 (st_mem s4) a = load32 (st_mem s2) a).
  { intros a Ha. apply load32_ext. intros x Hx. apply Em4. unfold KERNBASE. lia. }
  assert (Ep : forall j, kept base (st_plat s j) (st_plat s4 j)).
  { intros j. unfold s4. cbn. destruct (decide (j = me)) as [->|]; [by rewrite fn_lookup_insert|rewrite fn_lookup_insert_ne by done; apply kept_refl]. }
  assert (Ehi : forall a, a < KERNBASE \/ KERNBASE + 0x100000 <= a -> st_mem s4 a = st_mem s a) by (intros a Ha; rewrite Em4, Em2 by (unfold KERNBASE in *; lia); done).
  destruct (Ep c) as (dc & Epc & Edc). destruct (Hapic c Hc) as [Elc Eic].
  wp_call (wp_ap_wait c p Hc8 ltac:(lia) spins s4); [lia|..].
  - intros j Hj. rewrite <- Hmap by done. apply load32_ext. intros x Hx. apply Ehi. unfold KERNBASE in *. lia.
  - rewrite Ew by done. unfold s2. cbn -[load32 store32]. change code with 0x80007000. do 2 rewrite load32_store32_ne by lia. rewrite load32_store32. apply u32_small. unfold is_u32, KERNBASE in *. lia.
  - rewrite Ew by done. unfold s2. cbn -[load32 store32]. change code with 0x80007000. rewrite load32_store32_ne, load32_store32 by lia. by apply u32_small.
  - rewrite Ew by done. unfold s2. cbn -[load32 store32]. change code with 0x80007000. rewrite load32_store32. unfold v2p. apply u32_idem.
  - unfold s4. cbn. by rewrite fn_lookup_insert.
  - rewrite <- Hst. apply load32_ext. intros x Hx. apply Ehi. lia.
  - by rewrite Epc.
  - by rewrite Epc; simpl; rewrite Edc.
  - intros [] s5 [Hap Hok]. pose proof Hap as (Hm5 & Hr5 & Hk5 & Ek5).
    assert (Hm : forall a, ~ touched c p a -> st_mem s5 a = st_mem s a).
    { intros a Ha. rewrite Hm5 by done. apply Ehi. unfold touched in Ha. lia. }
    split; [split|split_and!; [done|done|]].
    + rewrite Ek5. change (kmem_ok kend ie L free (KmemSt (kmach k) (use_lock k) (freelist k) (st_mem s5))).
      apply kmem_ok_mem; [exact Hk|]. intros q a Hq Ha. rewrite Hm, Er; [done|].
      assert (Hqp : q mod 4096 = 0 /\ kend <= q) by (eapply Forall_forall in Hpg; [|exact Hq]; destruct Hpg; lia).
      assert (Hne : q <> p) by (intros ->; done). unfold touched. zlia.
    + done.
    + eapply (apart_boot_map c p s4 s5); [done|done|done|]. intros j Hj. rewrite <- Hmap by done. apply load32_ext. intros x Hx. apply Ehi. unfold KERNBASE in *. lia.
    + intros j Hj. destruct (kept_lapic _ _ _ (kept_trans _ _ _ _ (Ep j) (Hk5 j))) as (-> & _ & ->). by apply Hapic.
    + intros j Hj. rewrite Hm; [by apply Hid|]. assert (Hj8 : (j < 8)%nat) by lia. destruct (cpu_bounds j Hj8).
      unfold touched, Seg.cpu_at, sizeof_cpu in *. lia.
    + intros j Hj. by apply Hr5.
Qed.
End start_one.

Lemma ap_ok_frame c c' p p' s s' : ap_ok c p s -> c <> c' -> (c < 8)%nat -> kend <= p' -> (forall a, ~ touched c' p' a -> st_mem s' a = st_mem s a) ->
  (forall j, j <> c' -> st_regs s' j = st_regs s j /\ st_cr3 s' j = st_cr3 s j /\ st_esp s' j = st_esp s j) -> ap_ok c p s'.
Proof.
  intros [Hok Hi H3 He Hs] Hne Hc Hp Hm Hr. destruct (Hr c Hne) as (Er & E3 & Ee). destruct (cpu_bounds c Hc).
  assert (Hin : forall a, in_cpu c a -> st_mem s' a = st_mem s a).
  { intros a Ha. apply Hm. unfold touched, Seg.in_cpu, Seg.cpu_at, sizeof_cpu in *. lia. }
  split; rewrite ?Er, ?E3, ?Ee; try done.
  - eapply cpu_ok_frame; [exact Hok|..]; cbn; rewrite ?Er; try done. intros a Ha. apply Hin. by apply own_cpu in Ha as [? _].
  - rewrite <- Hs. apply load32_ext. intros a Ha. apply Hin. unfold Seg.in_cpu, sizeof_cpu. lia.
Qed.

Section all.
Context (n : nat).
Hypothesis Hn : (n <= 8)%nat.
Hypothesis Hme : (me < n)%nat.
Notation others cs := (filter (fun c => c <> me) cs).

Lemma boot_inv_low free s s' : boot_inv n free s -> st_km s' = KmemSt (kmach (st_km s)) (use_lock (st_km s)) (freelist (st_km s)) (st_mem s') ->
  (forall a, ~ (KERNBASE <= a < KERNBASE + 0x100000) -> st_mem s' a = st_mem s a) -> (forall j, kept base (st_plat s j) (st_plat s' j)) -> boot_inv n free s'.
Proof.
  intros [Hkm Hlow Hmap Hapic Hid] Ek Hm Hk. split; [|done|..].
  - rewrite Ek. apply kmem_ok_mem; [done|]. intros p a Hp Ha. apply Hm. pose proof (ko_pages _ _ _ _ _ Hkm) as Hpg.
    eapply Forall_forall in Hpg; [|exact Hp]. destruct Hpg. lia.
  - intros k Hk'. rewrite <- Hmap by done. apply load32_ext. intros a Ha. apply Hm. lia.
  - intros k Hk'. destruct (kept_lapic _ _ _ (Hk k)) as (-> & _ & ->). by apply Hapic.
  - intros k Hk'. rewrite Hm; [by apply Hid|]. assert (Hk8 : (k < 8)%nat) by lia. destruct (cpu_bounds k Hk8). lia.
Qed.

Lemma wp_start_each cs : forall free s, NoDup cs -> Forall (fun c => c < n)%nat cs -> boot_inv n free s -> (length (others cs) <= length free)%nat ->
  (forall c, c ∈ cs -> c <> me -> load32 (st_mem s) (cpu_at c + 168) = 0) ->
  wp (start_each base spins me cpus idt entrypgdir_at mpenter_at kpgdir retaddr cs) (fun _ s' => boot_inv n (drop (length (others cs)) free) s' /\
    (forall i c p, others cs !! i = Some c -> free !! i = Some p -> ap_ok c p s') /\
    forall c p, c ∉ cs -> (c < 8)%nat -> ap_ok c p s -> ap_ok c p s') s.
Proof.
  induction cs as [|c cs IH]; intros free s Hnd Hcs Hb Hl Hst; cbn [start_each]; [apply wp_ret; split_and!; done|].
  apply NoDup_cons in Hnd as [Hnew Hnd]. apply Forall_cons in Hcs as [Hc Hcs]. destruct (bi_apic _ _ _ Hb me Hme) as [El Ei].
  apply wp_bind, wp_lift. eapply wp_mono; [apply (wp_cpunum base Hbase); [done|simpl; lia]|]. intros i pl (-> & Hk).
  set (s1 := lset (plat_lens me) pl s). change (lget (plat_lens me) s) with (st_plat s me) in *. rewrite Ei.
  assert (Hb1 : boot_inv n free s1).
  { eapply boot_inv_low; [exact Hb|destruct s as [[]]; done|done|]. intros j. unfold s1. simpl. destruct (decide (j = me)) as [->|].
    - by rewrite fn_lookup_insert. - rewrite fn_lookup_insert_ne by done. apply kept_refl. }
  destruct (decide (c = me)) as [->|Hne].
  - rewrite Z.eqb_refl. apply wp_bind, wp_ret. rewrite filter_cons_False in * by naive_solver.
    eapply wp_mono; [apply (IH free s1); try done; intros; apply Hst; [by right|done]|]. intros [] s2 (H1 & H2 & H3).
    split_and!; [done|done|]. intros c p Hc' Hc8 [Ho1 Ho2 Ho3 Ho4 Ho5]. apply H3; [set_solver|done|by split].
  - rewrite (proj2 (Z.eqb_neq _ _)) by lia. rewrite filter_cons_True in * by done. destruct free as [|p free]; [simpl in Hl; lia|].
    pose proof (ko_pages _ _ _ _ _ (bi_km _ _ _ Hb)) as Hpg. apply Forall_cons in Hpg as [[_ [Hp _]] _].
    wp_call (wp_start_one n c p free Hn Hme Hc s1 Hb1); [apply Hst; [by left|done]|]. intros [] s2 (H2 & Hok & Hm & Hr).
    eapply wp_mono; [apply (IH free s2); try done|].
    + simpl in Hl. lia.
    + intros c' Hc' Hne'. rewrite <- (Hst c') by (done || by right). apply load32_ext. intros a Ha. change (st_mem s2 a = st_mem s1 a). apply Hm.
      assert (Hcc : c' <> c) by (intros ->; done). eapply Forall_forall in Hcs; [|exact Hc']. assert (Hc8 : (c' < 8)%nat) by lia.
      destruct (cpu_bounds c' Hc8). unfold touched, Seg.cpu_at, sizeof_cpu in *. lia.
    + intros [] s3 (H3 & Hall & Hold). cbn [length drop]. split_and!; [done|..].
      * intros [|i] c' p' Hi Hf; simpl in Hi, Hf; [|by eapply Hall]. injection Hi as <-. injection Hf as <-. apply Hold; [done|lia|done].
      * intros c' p' Hc' Hc8 [Ho1 Ho2 Ho3 Ho4 Ho5]. apply Hold; [set_solver|done|].
        eapply (ap_ok_frame c' c p' p s1 s2); [by split|set_solver|done|done|done|done].
Qed.

(** C99 [startothers] starts every processor of the table but the one it runs
    on.  Each gets a page of its own from the allocator as its stack, in the
    memory that the boot page directory maps, enters [mpenter] on it, and is
    left with the kernel's page table, its own data behind %gs, its gates
    loaded and its [started] flag set; the free pages are the others. *)
Theorem startothers_starts free s : boot_inv n free s -> ncpu (st_plat s me) = Z.of_nat n -> (length image <= 4096)%nat ->
  (length (others (seq 0 n)) <= length free)%nat -> (forall c, (c < n)%nat -> c <> me -> load32 (st_mem s) (cpu_at c + 168) = 0) ->
  wp (startothers base spins me cpus idt entrypgdir_at mpenter_at kpgdir image retaddr) (fun _ s' =>
    boot_inv n (drop (length (others (seq 0 n))) free) s' /\
    forall i c p, others (seq 0 n) !! i = Some c -> free !! i = Some p -> ap_ok c p s') s.
Proof.
  intros Hb Hnc Hi Hl Hst. unfold startothers. apply wp_bind, wp_modify. set (s1 := set_mem _ _).
  assert (Hm : forall a, ~ (KERNBASE <= a < KERNBASE + 0x100000) -> st_mem s1 a = st_mem s a).
  { intros a Ha. apply store_other. change code with 0x80007000. unfold KERNBASE in Ha. lia. }
  apply wp_bind, wp_gets. change (ncpu (st_plat s1 me)) with (ncpu (st_plat s me)). rewrite Hnc, Nat2Z.id.
  eapply wp_mono; [apply wp_start_each; [apply NoDup_seq| | |exact Hl|]|].
  - apply Forall_forall. intros c Hc%elem_of_seq. lia.
  - eapply boot_inv_low; [exact Hb|done|done|intros; apply kept_refl].
  - intros c Hc%elem_of_seq Hne. rewrite <- (Hst c) by (done || lia). apply load32_ext. intros a Ha. apply Hm.
    assert (Hc8 : (c < 8)%nat) by lia. destruct (cpu_bounds c Hc8). lia.
  - intros [] s2 (H1 & H2 & _). done.
Qed.
End all.
End others.

(** ** An instance *)

(** A local APIC and nothing else. *)
Record demo_apic := DemoApic { da_id : Z; da_hi : Z; da_sent : list (Z * Z) }.
Definition APIC_BASE : Z := 0xFEE00000.

#[global] Instance demo_apic_device : Device demo_apic := {|
  port_in _ d := (0, d);
  port_out _ _ d := d;
  port_inl _ d := (0, d);
  port_outl _ _ d := d;
  mm_read a d := (if a =? APIC_BASE + 4 * ID then Z.shiftl (da_id d) 24 else 0, d);
  mm_write a v d :=
    if a =? APIC_BASE + 4 * ICRHI then DemoApic (da_id d) v (da_sent d)
    else if (a =? APIC_BASE + 4 * ICRLO) && (Z.land v 0x700 =? 0x600)
      then DemoApic (da_id d) (da_hi d) (da_sent d ++ [(Z.shiftr (da_hi d) 24, Z.land v 0xff)])
    else d |}.

Lemma demo_reg_eqb r r' : (APIC_BASE + 4 * r =? APIC_BASE + 4 * r') = (r =? r').
Proof. destruct (Z.eqb_spec r r') as [->|]; [apply Z.eqb_refl|]. apply Z.eqb_neq. lia. Qed.

#[global] Program Instance demo_apic_laws : Apic demo_apic APIC_BASE := {| apic_id := da_id; icr_hi := da_hi; sipis := da_sent |}.
Next Obligation. intros d v. cbn [mm_write demo_apic_device]. by rewrite Z.eqb_refl. Qed.
Next Obligation.
  intros d r v Hr. cbn [mm_write demo_apic_device]. rewrite !demo_reg_eqb, (proj2 (Z.eqb_neq _ _) Hr). by destruct (_ && _).
Qed.
Next Obligation. intros d v. cbn [mm_write demo_apic_device]. rewrite !demo_reg_eqb, Z.eqb_refl. simpl. by destruct (_ =? _). Qed.
Next Obligation.
  intros d r v Hr. cbn [mm_write demo_apic_device]. rewrite !demo_reg_eqb, (proj2 (Z.eqb_neq _ _) Hr). simpl. by destruct (_ =? _).
Qed.
Next Obligation.
  intros d r v. cbn [mm_write demo_apic_device]. rewrite !demo_reg_eqb. by repeat case_match.
Qed.
Next Obligation. done. Qed.
Next Obligation. done. Qed.
Next Obligation. intros d. cbn [mm_read demo_apic_device]. by rewrite Z.eqb_refl. Qed.
Next Obligation. done. Qed.

(** Two processors; [cpus] at 0x80112000, [entrypgdir] at 0x80110000, the
    kernel's end and one free page at 0x80116000. *)
Definition demo_start_mem : mem :=
  store32 (store32 (upd (fun _ => 0) (0x80112000 + 188) 1) 0x80110000 0x83) (0x80110000 + 2048) 0x83.
Definition demo_start : start_st demo_apic :=
  StartSt (KmemSt boot_machine false 0x80116000 demo_start_mem) (fun _ => Regs (0, 0) (0, 0) (0, 0) (0, 0)) (fun _ => 0) (fun _ => 0)
    (fun k => Plat (DemoApic (Z.of_nat k) 0 []) 0xFFFB true 2 0 APIC_BASE).

Lemma demo_start_inv : boot_inv APIC_BASE 0x80112000 0x80110000 0x80116000 true [] 2 [0x80116000] demo_start.
Proof.
  split.
  - split; [apply boot_lockstate|by apply not_elem_of_nil|simpl; lia|by vm_compute| |].
    + by apply (bool_decide_unpack _); vm_compute.
    + repeat constructor; by vm_compute.
  - repeat constructor. vm_compute. discriminate.
  - intros k Hk. apply Z.eqb_eq. apply (forall_range (fun k => load32 demo_start_mem (0x80110000 + 4 * k) =? entrypgdir k) 0 1024); [vm_compute; reflexivity|lia].
  - intros k Hk. done.
  - intros k Hk. assert (k = 0%nat \/ k = 1%nat) as [->| ->] by lia; vm_compute; reflexivity.
Qed.

(** The second processor runs on the free page. *)
Lemma startothers_starts_witness :
  wp (startothers APIC_BASE 2 0 0x80112000 0x80114000 0x80110000 0x80103000 0x803FF000 [] 0)
    (fun _ s' => st_esp s' 1%nat = 0x80116ffc /\ load32 (st_mem s') (cpu_at 0x80112000 1 + 168) = 1) demo_start.
Proof.
  eapply wp_mono.
  - apply (startothers_starts APIC_BASE 2 0 0x80112000 0x80114000 0x80110000 0x80103000 0x803FF000 [] 0 0x80116000 true []
      ltac:(done) ltac:(lia) ltac:(unfold KERNBASE, NCPU, sizeof_cpu; lia) ltac:(unfold KERNBASE; lia) ltac:(unfold NCPU, sizeof_cpu; lia)
      ltac:(unfold KERNBASE; lia) ltac:(unfold KERNBASE; lia) ltac:(done) 2 ltac:(lia) ltac:(lia) [0x80116000] demo_start demo_start_inv);
      [done|simpl; lia|vm_compute; lia|].
    intros c Hc Hne. assert (c = 1%nat) as -> by lia. vm_compute. reflexivity.
  - intros [] s' [_ H]. destruct (H 0%nat 1%nat 0x80116000); done.
Defined.
