(* ===== verification/User.v ===== *)
(** * User programs (printf.c, cat.c, wc.c, echo.c, ls.c, ln.c, mkdir.c, rm.c,
    kill.c, init.c, zombie.c, stressfs.c, forktest.c)

    A program is an interaction tree whose events are system calls; loops are
    [ITree.iter], so that also [init], which never ends, is a definition.
    What the calls do is an interface, [UserOS], with the behaviour of files
    and descriptors that the programs rely on; a program runs against any
    state of it.  Strings are their bytes without the NUL. *)

From ITree Require Import ITree ITreeFacts Events.State Events.StateFacts.
From S2P Require Import Prelude Params.

#[local] Notation "'let!' x := t 'in' k" := (ITree.bind t (fun x => k)) (at level 200, x pattern, t at level 100, k at level 200).
#[local] Notation "'do!' t 'in' k" := (ITree.bind t (fun _ => k)) (at level 200, t at level 100, k at level 200).

(** ** System calls (user.h) *)

Record ustat := UStat { us_type : Z; us_ino : Z; us_size : Z }.

(** [read] and [fstat] also give what they stored. *)
Inductive sysE : Type -> Type :=
| Read (fd n : Z) : sysE (Z * list Z)
| Write (fd : Z) (l : list Z) : sysE Z
| Open (path : list Z) (mode : Z) : sysE Z
| Close (fd : Z) : sysE Z
| Fstat (fd : Z) : sysE (Z * ustat)
| Mkdir (path : list Z) : sysE Z
| Mknod (path : list Z) (major minor : Z) : sysE Z
| Unlink (path : list Z) : sysE Z
| Link (old new : list Z) : sysE Z
| Kill (pid : Z) : sysE Z
| Fork : sysE Z
| Exec (path : list Z) (argv : list (list Z)) : sysE Z
| Wait : sysE Z
| Dup (fd : Z) : sysE Z
| Sleep (n : Z) : sysE Z.
(** [exit], and the end of a process that faults. *)
Inductive exitE : Type -> Type :=
| Exit : exitE void
| Fault : exitE void.

Definition uprog : Type -> Type := itree (sysE +' exitE).
Definition call {A} (e : sysE A) : uprog A := ITree.trigger (inl1 e : (sysE +' exitE) A).
Definition leave {A} (e : exitE void) : uprog A := ITree.bind (ITree.trigger (inr1 e : (sysE +' exitE) void)) (fun v : void => match v with end).
Definition uexit {A} : uprog A := leave Exit.

(** [for(i = 1; i < argc; i++) f(argv[i])] and the like. *)
Fixpoint each {X} (f : X -> uprog unit) (l : list X) : uprog unit :=
  match l with [] => Ret tt | x :: l => do! f x in each f l end.

(** ** printf.c *)

Definition putc (fd c : Z) : uprog unit := do! call (Write fd [u8 c]) in Ret tt.
Definition puts (fd : Z) (l : list Z) : uprog unit := each (putc fd) l.

(** The digits, the lowest first; 16 are enough for the bases used. *)
Fixpoint udigits (fuel : nat) (x base : Z) : list Z :=
  match fuel with
  | O => []
  | S fuel =>
      default 0 (chars "0123456789ABCDEF" !! Z.to_nat (x mod base)) ::
      (if x / base =? 0 then [] else udigits fuel (x / base) base)
  end.
(** [buf], which is printed backwards. *)
Definition uprintint_buf (xx base : Z) (sgn : bool) : list Z :=
  let neg := sgn && (xx <? 0) in
  let x := if neg then u32 (- xx) else u32 xx in
  udigits 16 x base ++ (if neg then [45] else []).
Definition uprintint (fd xx base : Z) (sgn : bool) : uprog unit := puts fd (rev (uprintint_buf xx base sgn)).

(** An argument: a word, or a pointer to a string. *)
Inductive uarg := UInt (z : Z) | UStr (o : option (list Z)).

(** [state] is whether the last character was '%'.  An argument that is
    missing or of the wrong kind is undefined, here a fault. *)
Fixpoint printf_loop (fd : Z) (fmt : list Z) (state : bool) (args : list uarg) : uprog unit :=
  match fmt with
  | [] => Ret tt
  | c :: fmt =>
      if negb state then
        if c =? 37 then printf_loop fd fmt true args
        else do! putc fd c in printf_loop fd fmt false args
      else if c =? 100 then
        match args with
        | UInt z :: args => do! uprintint fd (s32 z) 10 true in printf_loop fd fmt false args
        | _ => leave Fault
        end
      else if (c =? 120) || (c =? 112) then
        match args with
        | UInt z :: args => do! uprintint fd (s32 z) 16 false in printf_loop fd fmt false args
        | _ => leave Fault
        end
      else if c =? 115 then
        match args with
        | UStr o :: args => do! puts fd (default (chars "(null)") o) in printf_loop fd fmt false args
        | _ => leave Fault
        end
      else if c =? 99 then
        match args with
        | UInt z :: args => do! putc fd z in printf_loop fd fmt false args
        | _ => leave Fault
        end
      else if c =? 37 then do! putc fd c in printf_loop fd fmt false args
      else do! putc fd 37 in do! putc fd c in printf_loop fd fmt false args
  end.
Definition printf (fd : Z) (fmt : string) (args : list uarg) : uprog unit := printf_loop fd (chars fmt) false args.
Definition NLs : string := String (Ascii.ascii_of_nat 10) EmptyString.

(** ** cat.c *)

Definition cat (fd : Z) : uprog unit :=
  let! n := ITree.iter (fun _ =>
    let! (n, buf) := call (Read fd 512) in
    if 0 <? n then do! call (Write 1 (take (Z.to_nat n) buf)) in Ret (inl tt) else Ret (inr n)) tt in
  if n <? 0 then do! printf 1 ("cat: read error" ++ NLs) [] in uexit else Ret tt.

(** The arguments behind the name of the program. *)
Definition cat_main (argv : list (list Z)) : uprog void :=
  if (Z.of_nat (length argv) <=? 1) then do! cat 0 in uexit
  else
    do! each (fun path =>
      let! fd := call (Open path 0) in
      if fd <? 0 then do! printf 1 ("cat: cannot open %s" ++ NLs) [UStr (Some path)] in uexit
      else do! cat fd in do! call (Close fd) in Ret tt) (drop 1 argv) in
    uexit.

(** ** wc.c *)

Definition is_blank (c : Z) : bool := existsb (Z.eqb c) [32; 13; 9; 10; 11].

(** The loop over the buffer: [l], [w], [c] and [inword]. *)
Fixpoint wc_count (buf : list Z) (st : Z * Z * Z * bool) : Z * Z * Z * bool :=
  match buf with
  | [] => st
  | b :: buf =>
      let '(l, w, c, inword) := st in
      let c := s32 (c + 1) in
      let l := if b =? 10 then s32 (l + 1) else l in
      wc_count buf (if is_blank b then (l, w, c, false) else if negb inword then (l, s32 (w + 1), c, true) else (l, w, c, inword))
  end.
Definition wc (fd : Z) (name : list Z) : uprog unit :=
  let! (n, (l, w, c, _)) := ITree.iter (fun st =>
    let! (n, buf) := call (Read fd 512) in
    if 0 <? n then Ret (inl (wc_count (take (Z.to_nat n) buf) st)) else Ret (inr (n, st))) (0, 0, 0, false) in
  if n <? 0 then do! printf 1 ("wc: read error" ++ NLs) [] in uexit
  else printf 1 ("%d %d %d %s" ++ NLs) [UInt l; UInt w; UInt c; UStr (Some name)].
Definition wc_main (argv : list (list Z)) : uprog void :=
  if (Z.of_nat (length argv) <=? 1) then do! wc 0 [] in uexit
  else
    do! each (fun path =>
      let! fd := call (Open path 0) in
      if fd <? 0 then do! printf 1 ("wc: cannot open %s" ++ NLs) [UStr (Some path)] in uexit
      else do! wc fd path in do! call (Close fd) in Ret tt) (drop 1 argv) in
    uexit.

(** ** echo.c, ln.c, mkdir.c, rm.c, kill.c *)

Fixpoint echo_args (args : list (list Z)) : uprog unit :=
  match args with
  | [] => Ret tt
  | a :: args =>
      do! printf 1 "%s%s" [UStr (Some a); UStr (Some (if bool_decide (args = []) then [10] else [32]))] in
      echo_args args
  end.
Definition echo_main (argv : list (list Z)) : uprog void := do! echo_args (drop 1 argv) in uexit.

Definition ln_main (argv : list (list Z)) : uprog void :=
  match argv with
  | [_; old; new] =>
      let! r := call (Link old new) in
      do! (if r <? 0 then printf 2 ("link %s %s: failed" ++ NLs) [UStr (Some old); UStr (Some new)] else Ret tt) in uexit
  | _ => do! printf 2 ("Usage: ln old new" ++ NLs) [] in uexit
  end.

(** The loops of mkdir and rm end at the first failure. *)
Fixpoint until_fails (e : list Z -> sysE Z) (msg : string) (args : list (list Z)) : uprog unit :=
  match args with
  | [] => Ret tt
  | a :: args =>
      let! r := call (e a) in
      if r <? 0 then printf 2 msg [UStr (Some a)] else until_fails e msg args
  end.
Definition mkdir_main (argv : list (list Z)) : uprog void :=
  if Z.of_nat (length argv) <? 2 then do! printf 2 ("Usage: mkdir files..." ++ NLs) [] in uexit
  else do! until_fails Mkdir ("mkdir: %s failed to create" ++ NLs) (drop 1 argv) in uexit.
Definition rm_main (argv : list (list Z)) : uprog void :=
  if Z.of_nat (length argv) <? 2 then do! printf 2 ("Usage: rm files..." ++ NLs) [] in uexit
  else do! until_fails Unlink ("rm: %s failed to delete" ++ NLs) (drop 1 argv) in uexit.

(** ulib.c: [atoi]. *)
Fixpoint atoi_l (l : list Z) (n : Z) : Z :=
  match l with
  | c :: l => if (48 <=? c) && (c <=? 57) then atoi_l l (s32 (n * 10 + c - 48)) else n
  | [] => n
  end.
Definition kill_main (argv : list (list Z)) : uprog void :=
  if Z.of_nat (length argv) <? 2 then do! printf 2 ("usage: kill pid..." ++ NLs) [] in uexit
  else do! each (fun a => do! call (Kill (atoi_l a 0)) in Ret tt) (drop 1 argv) in uexit.

(** ** ls.c *)

(** The part behind the last slash. *)
Fixpoint basename (path : list Z) : list Z :=
  match path with
  | [] => []
  | c :: path' => if existsb (Z.eqb 47) path' then basename path' else if c =? 47 then path' else path
  end.
Definition fmtname (path : list Z) : list Z :=
  let p := basename path in
  if (DIRSIZ <=? length p)%nat then p else p ++ replicate (DIRSIZ - length p) 32.

(** [stat] of ulib.c. *)
Definition u_stat (n : list Z) : uprog (Z * option ustat) :=
  let! fd := call (Open n 0) in
  if fd <? 0 then Ret (-1, None)
  else let! (r, st) := call (Fstat fd) in do! call (Close fd) in Ret (r, Some st).

Definition ls_line (name : list Z) (st : ustat) : uprog unit :=
  printf 1 ("%s %d %d %d" ++ NLs) [UStr (Some name); UInt (us_type st); UInt (us_ino st); UInt (us_size st)].

(** The bytes of a string in a buffer. *)
Fixpoint cstr (l : list Z) : list Z := match l with [] => [] | c :: l => if c =? 0 then [] else c :: cstr l end.
Definition ls (path : list Z) : uprog unit :=
  let! fd := call (Open path 0) in
  if fd <? 0 then printf 2 ("ls: cannot open %s" ++ NLs) [UStr (Some path)]
  else
    let! (r, st) := call (Fstat fd) in
    if r <? 0 then do! printf 2 ("ls: cannot stat %s" ++ NLs) [UStr (Some path)] in do! call (Close fd) in Ret tt
    else
      do! (if us_type st =? T_FILE then ls_line (fmtname path) st
           else if us_type st =? T_DIR then
             if 512 <? Z.of_nat (length path) + 1 + Z.of_nat DIRSIZ + 1 then printf 1 ("ls: path too long" ++ NLs) []
             else
               ITree.iter (fun _ =>
                 let! (n, de) := call (Read fd 16) in
                 if negb (n =? 16) then Ret (inr tt)
                 else if le_val (take 2 de) =? 0 then Ret (inl tt)
                 else
                   let buf := path ++ 47 :: cstr (take DIRSIZ (drop 2 de)) in
                   let! (r, o) := u_stat buf in
                   match o with
                   | Some st => if r <? 0 then do! printf 1 ("ls: cannot stat %s" ++ NLs) [UStr (Some buf)] in Ret (inl tt)
                       else do! ls_line (fmtname buf) st in Ret (inl tt)
                   | None => do! printf 1 ("ls: cannot stat %s" ++ NLs) [UStr (Some buf)] in Ret (inl tt)
                   end) tt
           else Ret tt) in
      do! call (Close fd) in Ret tt.
Definition ls_main (argv : list (list Z)) : uprog void :=
  if Z.of_nat (length argv) <? 2 then do! ls [46] in uexit else do! each ls (drop 1 argv) in uexit.

(** ** init.c, zombie.c, stressfs.c, forktest.c *)

Definition console_name : list Z := chars "console".

(** One turn of the endless loop: a shell is started and waited for. *)
Definition init_turn : uprog unit :=
  do! printf 1 ("init: starting sh" ++ NLs) [] in
  let! pid := call Fork in
  if pid <? 0 then do! printf 1 ("init: fork failed" ++ NLs) [] in uexit
  else if pid =? 0 then
    do! call (Exec (chars "sh") [chars "sh"]) in do! printf 1 ("init: exec sh failed" ++ NLs) [] in uexit
  else
    ITree.iter (fun _ =>
      let! wpid := call Wait in
      if (0 <=? wpid) && negb (wpid =? pid) then do! printf 1 ("zombie!" ++ NLs) [] in Ret (inl tt) else Ret (inr tt)) tt.
Definition init_main : uprog void :=
  let! fd := call (Open console_name O_RDWR) in
  do! (if fd <? 0 then do! call (Mknod console_name 1 1) in do! call (Open console_name O_RDWR) in Ret tt else Ret tt) in
  do! call (Dup 0) in
  do! call (Dup 0) in
  ITree.iter (fun _ => do! init_turn in Ret (inl tt)) tt.

Definition zombie_main : uprog void :=
  let! pid := call Fork in
  do! (if 0 <? pid then do! call (Sleep 5) in Ret tt else Ret tt) in uexit.

(** [for(i = 0; i < 4; i++) if(fork() > 0) break]: the value of [i]. *)
Fixpoint forks (fuel : nat) (i : Z) : uprog Z :=
  match fuel with
  | O => Ret i
  | S fuel => let! pid := call Fork in if 0 <? pid then Ret i else forks fuel (i + 1)
  end.
Definition stressfs_main (argv : list (list Z)) : uprog void :=
  do! printf 1 ("stressfs starting" ++ NLs) [] in
  let data := replicate 512 97 in
  let! i := forks 4 0 in
  do! printf 1 ("write %d" ++ NLs) [UInt i] in
  let path := chars "stressfs" ++ [48 + i] in
  let! fd := call (Open path (Z.lor O_CREATE O_RDWR)) in
  do! each (fun _ => do! call (Write fd data) in Ret tt) (seq 0 20) in
  do! call (Close fd) in
  do! printf 1 ("read" ++ NLs) [] in
  let! fd := call (Open path 0) in
  do! each (fun _ => do! call (Read fd 512) in Ret tt) (seq 0 20) in
  do! call (Close fd) in
  do! call Wait in
  uexit.

(** forktest.c has a [printf] of its own. *)
Definition ft_printf (fd : Z) (s : string) : uprog unit := do! call (Write fd (chars s)) in Ret tt.
Definition FT_N : nat := 1000.
Fixpoint ft_forks (fuel : nat) (n : Z) : uprog Z :=
  match fuel with
  | O => Ret n
  | S fuel =>
      let! pid := call Fork in
      if pid <? 0 then Ret n else if pid =? 0 then uexit else ft_forks fuel (n + 1)
  end.
Definition forktest : uprog unit :=
  do! ft_printf 1 ("fork test" ++ NLs) in
  let! n := ft_forks FT_N 0 in
  if n =? Z.of_nat FT_N then do! ft_printf 1 ("fork claimed to work N times!" ++ NLs) in uexit
  else
    do! each (fun _ => let! r := call Wait in if r <? 0 then do! ft_printf 1 ("wait stopped early" ++ NLs) in uexit else Ret tt) (seq 0 (Z.to_nat n)) in
    let! r := call Wait in
    if negb (r =? -1) then do! ft_printf 1 ("wait got too many" ++ NLs) in uexit
    else ft_printf 1 ("fork test OK" ++ NLs).
Definition forktest_main : uprog void := do! forktest in uexit.

(** ** Running programs *)

(** How a run ends: with [exit], in a final state. *)
Inductive endE (W : Type) : Type -> Type := Ended (e : exitE void) (w : W) : endE W void.
Arguments Ended {W}.

Section run.
Context {W : Type} (sys : forall A, sysE A -> W -> W * A).

Definition handler : (sysE +' exitE) ~> Monads.stateT W (itree (endE W)) := fun A e =>
  match e with
  | inl1 e => fun w => Ret (sys A e w)
  | inr1 e => fun w => match e in exitE B return itree (endE W) (W * B) with
      | Exit => Vis (Ended Exit w) (fun v : void => match v with end)
      | Fault => Vis (Ended Fault w) (fun v : void => match v with end)
      end
  end.
Definition run {A} (p : uprog A) (w : W) : itree (endE W) (W * A) := interp_state handler p w.

(** The program returns [a] from [w] in [w'], or it ends in [w']. *)
Definition returns {A} (p : uprog A) (w : W) (a : A) (w' : W) : Prop := run p w ≈ Ret (w', a).
Definition ends {A} (p : uprog A) (w w' : W) : Prop := run p w ≈ Vis (Ended Exit w') (fun v : void => match v with end).

Lemma returns_ret {A} (a : A) w : returns (Ret a) w a w.
Proof. unfold returns, run. by rewrite interp_state_ret. Qed.

Lemma returns_bind {A B} (p : uprog A) (k : A -> uprog B) w a w1 b w2 : returns p w a w1 -> returns (k a) w1 b w2 -> returns (ITree.bind p k) w b w2.
Proof.
  unfold returns, run. intros Hp Hk. rewrite interp_state_bind, Hp, bind_ret_l. exact Hk.
Qed.

Lemma ends_bind {A B} (p : uprog A) (k : A -> uprog B) w a w1 w2 : returns p w a w1 -> ends (k a) w1 w2 -> ends (ITree.bind p k) w w2.
Proof.
  unfold returns, ends, run. intros Hp Hk. rewrite interp_state_bind, Hp, bind_ret_l. exact Hk.
Qed.

Lemma ends_bind_l {A B} (p : uprog A) (k : A -> uprog B) w w' : ends p w w' -> ends (ITree.bind p k) w w'.
Proof.
  unfold ends, run. intros Hp. rewrite interp_state_bind, Hp, bind_vis. apply eqit_Vis. intros [].
Qed.

Lemma returns_call {A} (e : sysE A) w a w' : sys A e w = (w', a) -> returns (call e) w a w'.
Proof. intros E. unfold returns, run, call. rewrite interp_state_trigger. simpl. by rewrite E. Qed.

Lemma ends_exit {A} w : ends (uexit : uprog A) w w.
Proof.
  unfold ends, run, uexit, leave. rewrite interp_state_bind, interp_state_trigger. simpl. rewrite bind_vis. apply eqit_Vis. intros [].
Qed.

(** The turns of a loop. *)
Lemma returns_iter {I R} (f : I -> uprog (I + R)) i w r w' : returns (f i) w (inr r) w' -> returns (ITree.iter f i) w r w'.
Proof.
  unfold returns, run. intros Hf. rewrite unfold_iter, interp_state_bind, Hf, bind_ret_l. simpl. by rewrite interp_state_ret.
Qed.

Lemma returns_iter_next {I R} (f : I -> uprog (I + R)) i j w r w1 w' : returns (f i) w (inl j) w1 -> returns (ITree.iter f j) w1 r w' ->
  returns (ITree.iter f i) w r w'.
Proof.
  unfold returns, run. intros Hf Hj. rewrite unfold_iter, interp_state_bind, Hf, bind_ret_l. simpl. by rewrite interp_state_tau, tau_eutt.
Qed.
End run.

(** ** Files and descriptors *)

(** What the calls promise: [file] is what a path holds, [input] what is left
    to read from a descriptor, [output] what was written to one that takes
    everything, such as a terminal. *)
Class UserOS (W : Type) := {
  sys : forall A, sysE A -> W -> W * A;
  file : W -> list Z -> option (list Z);
  input : W -> Z -> option (list Z);
  output : W -> Z -> option (list Z);
  (** a read brings some of what is left, and nothing only at the end *)
  os_read w fd n l : input w fd = Some l -> 0 < n -> exists w' chunk rest,
    sys _ (Read fd n) w = (w', (Z.of_nat (length chunk), chunk)) /\ l = chunk ++ rest /\ (chunk = [] -> l = []) /\ Z.of_nat (length chunk) <= n /\
    (forall p, file w' p = file w p) /\ (forall d, input w' d = if d =? fd then Some rest else input w d) /\ (forall d, output w' d = output w d);
  os_write w fd l o : output w fd = Some o -> exists w' r,
    sys _ (Write fd l) w = (w', r) /\
    (forall p, file w' p = file w p) /\ (forall d, input w' d = input w d) /\ (forall d, output w' d = if d =? fd then Some (o ++ l) else output w d);
  os_open w path : match file w path with
    | None => exists w' r, sys _ (Open path 0) w = (w', r) /\ r < 0 /\
        (forall p, file w' p = file w p) /\ (forall d, input w' d = input w d) /\ (forall d, output w' d = output w d)
    | Some l => exists w' fd, sys _ (Open path 0) w = (w', fd) /\ 0 <= fd /\ output w fd = None /\
        (forall p, file w' p = file w p) /\ (forall d, input w' d = if d =? fd then Some l else input w d) /\ (forall d, output w' d = output w d)
    end;
  os_close w fd : exists w' r, sys _ (Close fd) w = (w', r) /\
    (forall p, file w' p = file w p) /\ (forall d, d <> fd -> input w' d = input w d) /\ (forall d, d <> fd -> output w' d = output w d) }.

Section programs.
Context `{UserOS W}.
Notation returns := (returns sys).
Notation ends := (ends sys).

(** [l] was written to [fd], and nothing else happened to files and
    descriptors. *)
Definition wrote (fd : Z) (l : list Z) (w w' : W) : Prop :=
  (forall p, file w' p = file w p) /\ (forall d, input w' d = input w d) /\
  forall d, output w' d = if d =? fd then (fun o => o ++ l) <$> output w d else output w d.

Lemma wrote_nil fd w : wrote fd [] w w.
Proof. split_and!; [done..|]. intros d. destruct (d =? fd); [|done]. destruct (output w d); simpl; [by rewrite app_nil_r|done]. Qed.

Lemma wrote_app fd l l' w w1 w2 : wrote fd l w w1 -> wrote fd l' w1 w2 -> wrote fd (l ++ l') w w2.
Proof.
  intros (F1 & I1 & O1) (F2 & I2 & O2). split_and!.
  - intros p. by rewrite F2.
  - intros d. by rewrite I2.
  - intros d. rewrite O2, O1. destruct (d =? fd); [|done]. destruct (output w d); simpl; [by rewrite app_assoc|done].
Qed.

Lemma wrote_open fd l w w' : wrote fd l w w' -> is_Some (output w fd) -> is_Some (output w' fd).
Proof. intros (_ & _ & O) [o E]. rewrite O, Z.eqb_refl, E. by eexists. Qed.

Lemma run_write fd l w : is_Some (output w fd) -> exists w' r, returns (call (Write fd l)) w r w' /\ wrote fd l w w'.
Proof.
  intros [o Eo]. destruct (os_write w fd l o Eo) as (w' & r & E & F & I & O). exists w', r. split; [by apply returns_call|].
  split_and!; [done|done|]. intros d. rewrite O. destruct (Z.eqb_spec d fd) as [->|]; [by rewrite Eo|done].
Qed.

(** A program that writes [l] to [fd] and returns. *)
Definition prints (fd : Z) (l : list Z) (p : uprog unit) : Prop :=
  forall w, is_Some (output w fd) -> exists w', returns p w tt w' /\ wrote fd l w w'.

Lemma prints_ret fd : prints fd [] (Ret tt).
Proof. intros w _. exists w. split; [apply returns_ret|apply wrote_nil]. Qed.

Lemma prints_bind fd l l' (p q : uprog unit) : prints fd l p -> prints fd l' q -> prints fd (l ++ l') (ITree.bind p (fun _ => q)).
Proof.
  intros Hp Hq w Hw. destruct (Hp w Hw) as (w1 & H1 & W1). destruct (Hq w1) as (w2 & H2 & W2); [by eapply wrote_open|].
  exists w2. split; [by eapply returns_bind|by eapply wrote_app].
Qed.

Lemma putc_prints fd c : prints fd [u8 c] (putc fd c).
Proof.
  intros w Hw. destruct (run_write fd [u8 c] w Hw) as (w' & r & Hr & Hw'). exists w'. split; [|done].
  eapply returns_bind; [exact Hr|apply returns_ret].
Qed.

Lemma puts_prints fd l : prints fd (u8 <$> l) (puts fd l).
Proof.
  unfold puts. induction l as [|c l IH]; [apply prints_ret|]. apply (prints_bind fd [u8 c]); [apply putc_prints|exact IH].
Qed.

(** ** printf *)

(** What a format prints. *)
Fixpoint uformat (fmt : list Z) (state : bool) (args : list uarg) : option (list Z) :=
  match fmt with
  | [] => Some []
  | c :: fmt =>
      if negb state then if c =? 37 then uformat fmt true args else (fun l => u8 c :: l) <$> uformat fmt false args
      else if c =? 100 then
        match args with UInt z :: args => (fun l => (u8 <$> rev (uprintint_buf (s32 z) 10 true)) ++ l) <$> uformat fmt false args | _ => None end
      else if (c =? 120) || (c =? 112) then
        match args with UInt z :: args => (fun l => (u8 <$> rev (uprintint_buf (s32 z) 16 false)) ++ l) <$> uformat fmt false args | _ => None end
      else if c =? 115 then
        match args with UStr o :: args => (fun l => (u8 <$> default (chars "(null)") o) ++ l) <$> uformat fmt false args | _ => None end
      else if c =? 99 then match args with UInt z :: args => (fun l => u8 z :: l) <$> uformat fmt false args | _ => None end
      else if c =? 37 then (fun l => u8 c :: l) <$> uformat fmt false args
      else (fun l => [37; u8 c] ++ l) <$> uformat fmt false args
  end.

Lemma printf_loop_prints fd fmt : forall state args l, uformat fmt state args = Some l -> prints fd l (printf_loop fd fmt state args).
Proof.
  induction fmt as [|c fmt IH]; intros state args l Hf; cbn [uformat printf_loop] in *; [injection Hf as <-; apply prints_ret|].
  assert (Hseq : forall (p : uprog unit) l1 args', prints fd l1 p -> (fun l' => l1 ++ l') <$> uformat fmt false args' = Some l ->
    prints fd l (ITree.bind p (fun _ => printf_loop fd fmt false args'))).
  { intros p l1 args' Hp (l' & Hl & ->)%fmap_Some. apply prints_bind; [done|by apply IH]. }
  destruct state; cbn [negb] in *.
  - destruct (c =? 100); [destruct args as [|[z|o] args]; try done; eapply Hseq; [apply puts_prints|done]|].
    destruct ((c =? 120) || (c =? 112)); [destruct args as [|[z|o] args]; try done; eapply Hseq; [apply puts_prints|done]|].
    destruct (c =? 115); [destruct args as [|[z|o] args]; try done; eapply Hseq; [apply puts_prints|done]|].
    destruct (c =? 99); [destruct args as [|[z|o] args]; try done; eapply (Hseq _ [u8 z]); [apply putc_prints|done]|].
    destruct (c =? 37); [eapply (Hseq _ [u8 c]); [apply putc_prints|done]|].
    apply fmap_Some in Hf as (l' & Hl & ->). apply (prints_bind fd [37]); [apply (putc_prints fd 37)|]. apply (prints_bind fd [u8 c]); [apply putc_prints|by apply IH].
  - destruct (c =? 37); [by apply IH|]. eapply (Hseq _ [u8 c]); [apply putc_prints|done].
Qed.

Lemma printf_prints fd fmt args l : uformat (chars fmt) false args = Some l -> prints fd l (printf fd fmt args).
Proof. apply printf_loop_prints. Qed.

(** ** Reading files *)

(** [l] was written to descriptor 1; descriptor [fd] may have moved. *)
Definition shown (fd : Z) (l : list Z) (w w' : W) : Prop :=
  (forall p, file w' p = file w p) /\ (forall d, d <> fd -> input w' d = input w d) /\
  forall d, output w' d = if d =? 1 then (fun o => o ++ l) <$> output w d else output w d.

Lemma shown_app fd l l' w w1 w2 : shown fd l w w1 -> shown fd l' w1 w2 -> shown fd (l ++ l') w w2.
Proof.
  intros (F1 & I1 & O1) (F2 & I2 & O2). split_and!.
  - intros p. by rewrite F2.
  - intros d Hd. by rewrite I2, I1.
  - intros d. rewrite O2, O1. destruct (d =? 1); [|done]. destruct (output w d); simpl; [by rewrite app_assoc|done].
Qed.
Lemma wrote_shown fd l w w' : wrote 1 l w w' -> shown fd l w w'.
Proof. intros (F & I & O). by split_and!. Qed.
Lemma shown_open fd l w w' : shown fd l w w' -> is_Some (output w 1) -> is_Some (output w' 1).
Proof. intros (_ & _ & O) [o E]. rewrite O, E. by eexists. Qed.

(** One [read]: it brings the next bytes of the file, or the end. *)
Lemma run_read fd n w l : input w fd = Some l -> 0 < n -> exists w' chunk rest,
  returns (call (Read fd n)) w (Z.of_nat (length chunk), chunk) w' /\ l = chunk ++ rest /\ (chunk = [] -> l = []) /\
  input w' fd = Some rest /\ shown fd [] w w'.
Proof.
  intros El Hn. destruct (os_read w fd n l El Hn) as (w' & chunk & rest & E & -> & Hend & _ & F & I & O). exists w', chunk, rest.
  split_and!; [by apply returns_call|done|done|by rewrite I, Z.eqb_refl|]. split_and!; [done| |].
  - intros d Hd. rewrite I. by rewrite (proj2 (Z.eqb_neq _ _) Hd).
  - intros d. rewrite O. destruct (d =? 1); [|done]. destruct (output w d); simpl; [by rewrite app_nil_r|done].
Qed.

Lemma cat_copies fd l : forall w, input w fd = Some l -> is_Some (output w 1) -> exists w', returns (cat fd) w tt w' /\ shown fd l w w'.
Proof.
  intros w El Ho. unfold cat. set (body := fun _ : unit => _ : uprog (unit + Z)).
  assert (Hloop : exists w', returns (ITree.iter body tt) w 0 w' /\ shown fd l w w').
  { remember (length l) as k eqn:Hk. revert l w El Ho Hk. induction (lt_wf k) as [k _ IH]. intros l w El Ho ->.
    destruct (run_read fd 512 w l El) as (w1 & chunk & rest & Hr & -> & Hend & E1 & S1); [lia|]. destruct chunk as [|c chunk].
    - rewrite Hend in * by done. exists w1. split; [|done]. apply returns_iter. unfold body. eapply returns_bind; [exact Hr|]. apply returns_ret.
    - destruct (run_write 1 (c :: chunk) w1) as (w2 & r & Hw & W2); [by eapply shown_open|].
      assert (E2 : input w2 fd = Some rest) by (destruct W2 as (_ & I2 & _); by rewrite I2).
      assert (S2 : shown fd (c :: chunk) w w2) by (eapply (shown_app fd []); [exact S1|by apply wrote_shown]).
      destruct (IH (length rest)) with (l := rest) (w := w2) as (w3 & H3 & S3); try done; [rewrite length_app; simpl; lia|by eapply shown_open|].
      exists w3. split; [|by eapply shown_app]. eapply returns_iter_next; [|exact H3]. unfold body. eapply returns_bind; [exact Hr|].
      cbn [fst snd]. rewrite (proj2 (Z.ltb_lt _ _)) by (simpl; lia). rewrite Nat2Z.id, firstn_all. eapply returns_bind; [exact Hw|apply returns_ret]. }
  destruct Hloop as (w' & Hl & Hs). exists w'. split; [|done]. eapply returns_bind; [exact Hl|apply returns_ret].
Qed.

(** The files are the same and [l] was shown. *)
Definition seen (l : list Z) (w w' : W) : Prop := (forall p, file w' p = file w p) /\ output w' 1 = (fun o => o ++ l) <$> output w 1.

Lemma seen_app l l' w w1 w2 : seen l w w1 -> seen l' w1 w2 -> seen (l ++ l') w w2.
Proof.
  intros [F1 O1] [F2 O2]. split; [intros p; by rewrite F2|]. rewrite O2, O1. destruct (output w 1); simpl; [by rewrite app_assoc|done].
Qed.
Lemma seen_open l w w' : seen l w w' -> is_Some (output w 1) -> is_Some (output w' 1).
Proof. intros [_ O] [o E]. rewrite O, E. by eexists. Qed.
Lemma seen_nil w : seen [] w w.
Proof. split; [done|]. destruct (output w 1); simpl; [by rewrite app_nil_r|done]. Qed.

(** A program that works on each of the files it is given, and stops at the
    first that cannot be opened. *)
Section files.
Context (work : Z -> list Z -> uprog unit) (message : list Z -> uprog unit) (text : list Z -> list Z -> list Z) (sorry : list Z -> list Z) (fits : list Z -> Prop).
Hypothesis Hwork : forall fd path l w, input w fd = Some l -> is_Some (output w 1) -> fits l ->
  exists w', returns (work fd path) w tt w' /\ shown fd (text path l) w w'.
Hypothesis Hmessage : forall path, prints 1 (sorry path) (message path).

Definition on_file (path : list Z) : uprog unit :=
  let! fd := call (Open path 0) in
  if fd <? 0 then do! message path in uexit else do! work fd path in do! call (Close fd) in Ret tt.

Fixpoint shows (files : list Z -> option (list Z)) (paths : list (list Z)) : list Z :=
  match paths with
  | [] => []
  | p :: paths => match files p with Some l => text p l ++ shows files paths | None => sorry p end
  end.

Lemma shows_ext f f' paths : (forall p, f p = f' p) -> shows f paths = shows f' paths.
Proof. intros E. induction paths as [|p paths IH]; simpl; [done|]. by rewrite E, IH. Qed.

Lemma on_file_some path l w : file w path = Some l -> fits l -> is_Some (output w 1) -> exists w', returns (on_file path) w tt w' /\ seen (text path l) w w'.
Proof.
  intros El Hl Ho. pose proof (os_open w path) as Hop. rewrite El in Hop. destruct Hop as (w1 & fd & E & Hfd & Hn & F & I & O).
  assert (E1 : input w1 fd = Some l) by (by rewrite I, Z.eqb_refl).
  destruct (Hwork fd path l w1 E1) as (w2 & H2 & F2 & I2 & O2); [by rewrite O|done|].
  destruct (os_close w2 fd) as (w3 & r & E3 & F3 & I3 & O3). exists w3. split.
  - unfold on_file. eapply returns_bind; [by apply returns_call|]. rewrite (proj2 (Z.ltb_ge _ _)) by done.
    eapply returns_bind; [exact H2|]. eapply returns_bind; [by apply returns_call|apply returns_ret].
  - split; [intros p; by rewrite F3, F2, F|]. destruct (decide (1 = fd)) as [<-|Hne]; [rewrite Hn in Ho; by destruct Ho|].
    rewrite O3, O2, O by done. done.
Qed.

Lemma on_file_none path w : file w path = None -> is_Some (output w 1) -> exists w', ends (on_file path) w w' /\ seen (sorry path) w w'.
Proof.
  intros El Ho. pose proof (os_open w path) as Hop. rewrite El in Hop. destruct Hop as (w1 & r & E & Hr & F & I & O).
  destruct (Hmessage path w1) as (w2 & H2 & F2 & _ & O2); [by rewrite O|]. exists w2. split.
  - unfold on_file. eapply ends_bind; [by apply returns_call|]. rewrite (proj2 (Z.ltb_lt _ _)) by done. eapply ends_bind; [exact H2|apply ends_exit].
  - split; [intros p; by rewrite F2|]. by rewrite O2, O.
Qed.

Lemma files_shown {A} paths : forall w, is_Some (output w 1) -> (forall p l, file w p = Some l -> fits l) ->
  exists w', ends (do! each on_file paths in (uexit : uprog A)) w w' /\ seen (shows (file w) paths) w w'.
Proof.
  induction paths as [|path paths IH]; intros w Ho Hf; cbn [each shows].
  { exists w. split; [|apply seen_nil]. eapply ends_bind; [apply returns_ret|apply ends_exit]. }
  destruct (file w path) as [l|] eqn:El.
  - destruct (on_file_some path l w El (Hf _ _ El) Ho) as (w1 & H1 & S1).
    destruct (IH w1) as (w2 & H2 & S2); [by eapply seen_open|intros p l' Ep; destruct S1 as [F1 _]; rewrite F1 in Ep; by eapply Hf|].
    exists w2. split.
    + unfold User.ends, run in *. rewrite bind_bind, interp_state_bind. unfold User.returns, run in H1. rewrite H1, bind_ret_l. exact H2.
    + eapply seen_app; [exact S1|]. destruct S1 as [F1 _]. by rewrite <- (shows_ext (file w1) (file w)) by done.
  - destruct (on_file_none path w El Ho) as (w1 & H1 & S1). exists w1. split; [|done]. apply ends_bind_l. by apply ends_bind_l.
Qed.
End files.

(** C99 "cat files..." writes the contents of the files one after the other,
    however the reads split them, and ends; at the first file that cannot be
    opened it says so and stops. *)
Theorem cat_main_shows name path paths w : is_Some (output w 1) ->
  exists w', ends (cat_main (name :: path :: paths)) w w' /\
    seen (shows (fun _ l => l) (fun p => u8 <$> (chars "cat: cannot open " ++ p ++ [10])) (file w) (path :: paths)) w w'.
Proof.
  intros Ho. unfold cat_main. cbn [length]. rewrite (proj2 (Z.leb_gt _ _)) by lia. cbn [drop].
  apply (files_shown (fun fd _ => cat fd) _ _ _ (fun _ => True)).
  - intros fd p l w1 E1 H1 _. by apply cat_copies.
  - intros p. apply printf_prints. rewrite !fmap_app. reflexivity.
  - done.
  - done.
Qed.

(** ** wc *)

(** A word starts at [i]. *)
Definition word_at (l : list Z) (i : nat) : bool := negb (is_blank (nth i l 32)) && ((i =? 0)%nat || is_blank (nth (i - 1) l 32)).
Definition lines_of (l : list Z) : Z := Z.of_nat (length (filter (fun c => c = 10) l)).
Definition words_of (l : list Z) : Z := Z.of_nat (length (filter (fun i => word_at l i = true) (seq 0 (length l)))).

(** The counters after [l]. *)
Definition counted (l : list Z) : Z * Z * Z * bool := (lines_of l, words_of l, Z.of_nat (length l), negb (is_blank (List.last l 32))).

Lemma nth_last (l : list Z) : nth (length l - 1) l 32 = List.last l 32.
Proof.
  destruct l as [|c l] using rev_ind; [done|]. rewrite length_app, List.last_last. simpl. rewrite Nat.add_sub, app_nth2, Nat.sub_diag by lia. done.
Qed.

Lemma filter_same (P Q : nat -> bool) (l : list nat) : (forall i, i ∈ l -> P i = Q i) -> filter (fun i => P i = true) l = filter (fun i => Q i = true) l.
Proof.
  induction l as [|i l IH]; intros Hl; [done|]. assert (E : P i = Q i) by (apply Hl; by left). assert (Hr : forall j, j ∈ l -> P j = Q j) by (intros j Hj; apply Hl; by right).
  destruct (Q i) eqn:Eq.
  - rewrite !filter_cons_True by done. f_equal. by apply IH.
  - rewrite !filter_cons_False by (rewrite ?E, ?Eq; done). by apply IH.
Qed.

Lemma lines_snoc l b : lines_of (l ++ [b]) = lines_of l + if b =? 10 then 1 else 0.
Proof.
  unfold lines_of. rewrite filter_app, length_app. destruct (Z.eqb_spec b 10) as [->|Hne].
  - rewrite filter_cons_True by done. simpl. lia.
  - rewrite filter_cons_False by done. simpl. lia.
Qed.

Lemma words_snoc l b : words_of (l ++ [b]) = words_of l + if negb (is_blank b) && is_blank (List.last l 32) then 1 else 0.
Proof.
  unfold words_of. rewrite length_app. cbn [length]. rewrite Nat.add_1_r, seq_S, filter_app, length_app. cbn [plus].
  assert (E : filter (fun i => word_at (l ++ [b]) i = true) (seq 0 (length l)) = filter (fun i => word_at l i = true) (seq 0 (length l))).
  { apply filter_same. intros i Hi%elem_of_seq. unfold word_at. rewrite !app_nth1 by lia. done. }
  rewrite E. assert (Hw : word_at (l ++ [b]) (length l) = negb (is_blank b) && is_blank (List.last l 32)).
  { unfold word_at. rewrite app_nth2, Nat.sub_diag by lia. cbn [nth]. f_equal. destruct l as [|c l]; [done|].
    rewrite app_nth1 by (simpl; lia). rewrite nth_last. done. }
  destruct (negb (is_blank b) && is_blank (List.last l 32)).
  - rewrite filter_cons_True by done. simpl. lia.
  - rewrite filter_cons_False by (rewrite Hw; done). simpl. lia.
Qed.

Lemma count_le l : 0 <= lines_of l <= Z.of_nat (length l) /\ 0 <= words_of l <= Z.of_nat (length l).
Proof.
  unfold lines_of, words_of. pose proof (length_filter (fun c => c = 10) l). pose proof (length_filter (fun i => word_at l i = true) (seq 0 (length l))) as Hs.
  rewrite length_seq in Hs. lia.
Qed.

Lemma counted_snoc l b : Z.of_nat (length l) + 1 < 2147483648 -> counted (l ++ [b]) = wc_count [b] (counted l).
Proof.
  intros Hl. destruct (count_le l). unfold counted. cbn [wc_count]. rewrite lines_snoc, words_snoc, length_app, List.last_last. cbn [length].
  rewrite !s32_small by (unfold is_s32; lia).
  destruct (is_blank b), (is_blank (List.last l 32)), (b =? 10); cbn [negb andb]; repeat f_equal; lia.
Qed.

Lemma wc_count_counted a : forall l, Z.of_nat (length (l ++ a)) < 2147483648 -> wc_count a (counted l) = counted (l ++ a).
Proof.
  induction a as [|b a IH]; intros l Hl; [by rewrite app_nil_r|]. rewrite cons_middle, app_assoc in Hl |- *.
  rewrite <- IH by done. rewrite counted_snoc; [done|]. rewrite !length_app in Hl. simpl in Hl. lia.
Qed.

(** A number as printed with %d, and its value. *)
Definition dec (z : Z) : list Z := u8 <$> rev (uprintint_buf (s32 z) 10 true).
Definition value (l : list Z) : Z := foldl (fun n c => 10 * n + (c - 48)) 0 l.

Lemma value_rev l : value (rev l) = foldr (fun c n => 10 * n + (c - 48)) 0 l.
Proof. induction l as [|c l IH]; [done|]. cbn [rev foldr]. rewrite <- IH. unfold value. by rewrite foldl_app. Qed.

Lemma udigits_value fuel : forall x, 0 <= x < 10 ^ Z.of_nat fuel -> foldr (fun c n => 10 * n + (c - 48)) 0 (u8 <$> udigits fuel x 10) = x.
Proof.
  induction fuel as [|fuel IH]; intros x Hx; [simpl in *; lia|]. cbn [udigits fmap list_fmap foldr].
  assert (Hd : forallb (fun d => u8 (default 0 (chars "0123456789ABCDEF" !! Z.to_nat d)) - 48 =? d) (seqZ 0 10) = true) by reflexivity.
  apply (forall_range _ 0 10) with (k := x mod 10) in Hd; [|zlia]. apply Z.eqb_eq in Hd. rewrite Hd.
  assert (E : 10 ^ Z.of_nat (S fuel) = 10 * 10 ^ Z.of_nat fuel) by (rewrite Nat2Z.inj_succ, Z.pow_succ_r by lia; done). rewrite E in Hx.
  destruct (Z.eqb_spec (x / 10) 0); [simpl; zlia|]. rewrite IH by zlia. zlia.
Qed.

Lemma dec_value z : 0 <= z < 2147483648 -> value (dec z) = z.
Proof.
  intros Hz. unfold dec, uprintint_buf. rewrite s32_small by (unfold is_s32; lia). replace (z <? 0) with false by lia. cbn [andb].
  rewrite app_nil_r, map_rev, value_rev, u32_small by (unfold is_u32; lia). apply (udigits_value 16). simpl. lia.
Qed.

(** The line that wc prints for a file. *)
Definition wc_line (name l : list Z) : list Z :=
  dec (lines_of l) ++ [32] ++ dec (words_of l) ++ [32] ++ dec (Z.of_nat (length l)) ++ [32] ++ (u8 <$> name) ++ [10].

Lemma wc_counts fd name l : forall w, input w fd = Some l -> is_Some (output w 1) -> Z.of_nat (length l) < 2147483648 ->
  exists w', returns (wc fd name) w tt w' /\ shown fd (wc_line name l) w w'.
Proof.
  intros w El Ho Hl. unfold wc. set (body := fun st => _ : uprog ((Z * Z * Z * bool) + (Z * (Z * Z * Z * bool)))).
  assert (Hloop : forall a b w, a ++ b = l -> input w fd = Some b -> exists w', returns (ITree.iter body (counted a)) w (0, counted l) w' /\ shown fd [] w w').
  { intros a b. remember (length b) as k eqn:Hk. revert a b Hk. induction (lt_wf k) as [k _ IH]. intros a b -> w0 Ea Eb.
    destruct (run_read fd 512 w0 b Eb) as (w1 & chunk & rest & Hr & -> & Hend & E1 & S1); [lia|]. destruct chunk as [|c chunk].
    - exists w1. split; [|done]. apply returns_iter. unfold body. eapply returns_bind; [exact Hr|].
      assert (Ha : a = l) by (rewrite <- Ea; rewrite Hend by done; by rewrite app_nil_r). rewrite Ha. apply returns_ret.
    - destruct (IH (length rest)) with (a := a ++ c :: chunk) (b := rest) (w := w1) as (w2 & H2 & S2); try done; [rewrite length_app; simpl; lia|by rewrite <- app_assoc|].
      exists w2. split; [|by eapply (shown_app fd [] [])]. eapply returns_iter_next; [|exact H2]. unfold body. eapply returns_bind; [exact Hr|].
      cbn [fst snd]. rewrite (proj2 (Z.ltb_lt _ _)) by (simpl; lia). rewrite Nat2Z.id, firstn_all, wc_count_counted; [apply returns_ret|].
      rewrite <- Ea, !length_app in Hl. rewrite length_app. lia. }
  destruct (Hloop [] l w eq_refl El) as (w1 & H1 & S1).
  destruct (printf_prints 1 ("%d %d %d %s" ++ NLs) [UInt (lines_of l); UInt (words_of l); UInt (Z.of_nat (length l)); UStr (Some name)] (wc_line name l) eq_refl w1)
    as (w2 & H2 & W2); [by eapply shown_open|].
  exists w2. split; [|eapply (shown_app fd []); [exact S1|by apply wrote_shown]]. eapply returns_bind; [exact H1|exact H2].
Qed.

(** C99 "wc files..." prints for each file the number of its lines, of its
    words and of its bytes, as digits that have these values, and its name,
    however the reads split the file, and ends; at the first file that cannot be
    opened it says so and stops. *)
Theorem wc_main_counts name path paths w : is_Some (output w 1) -> (forall p l, file w p = Some l -> Z.of_nat (length l) < 2147483648) ->
  exists w', ends (wc_main (name :: path :: paths)) w w' /\
    seen (shows wc_line (fun p => u8 <$> (chars "wc: cannot open " ++ p ++ [10])) (file w) (path :: paths)) w w' /\
    (forall z, 0 <= z < 2147483648 -> value (dec z) = z).
Proof.
  intros Ho Hf. enough (Hm : exists w', ends (wc_main (name :: path :: paths)) w w' /\
    seen (shows wc_line (fun p => u8 <$> (chars "wc: cannot open " ++ p ++ [10])) (file w) (path :: paths)) w w')
    by (destruct Hm as (w' & He & Hs); exists w'; split_and!; [done|done|exact dec_value]).
  unfold wc_main. cbn [length]. rewrite (proj2 (Z.leb_gt _ _)) by lia. cbn [drop].
  apply (files_shown wc _ _ _ (fun l => Z.of_nat (length l) < 2147483648)); [|..|done|done].
  - intros fd p l w1 E1 H1 Hl. by apply wc_counts.
  - intros p. apply printf_prints. rewrite !fmap_app. reflexivity.
Qed.
End programs.

(** ** A system in memory *)

(** Reads bring at most three bytes; descriptor 1 is the terminal. *)
Record demo_os := DemoOS { d_files : list Z -> option (list Z); d_input : Z -> option (list Z); d_next : nat; d_out : list Z }.

Definition demo_sys (A : Type) (e : sysE A) (w : demo_os) : demo_os * A :=
  let '(DemoOS files ins next out) := w in
  let put fd v := fun d => if d =? fd then v else ins d in
  match e with
  | Read fd n =>
      match ins fd with
      | Some l => let k := Nat.min 3 (Z.to_nat n) in (DemoOS files (put fd (Some (drop k l))) next out, (Z.of_nat (length (take k l)), take k l))
      | None => (w, (-1, []))
      end
  | Write fd l => if fd =? 1 then (DemoOS files ins next (out ++ l), Z.of_nat (length l)) else (w, -1)
  | Open path mode =>
      match files path with
      | Some l => let fd := Z.of_nat next + 3 in (DemoOS files (put fd (Some l)) (S next) out, fd)
      | None => (w, -1)
      end
  | Close fd => (DemoOS files (put fd None) next out, 0)
  | Fstat fd => (w, (-1, UStat 0 0 0))
  | Mkdir _ | Mknod _ _ _ | Unlink _ | Link _ _ | Kill _ | Fork | Exec _ _ | Wait | Dup _ | Sleep _ => (w, -1)
  end.

#[export] Instance demo_user : UserOS demo_os.
Proof.
  refine {| sys := demo_sys; file := d_files; input := d_input; output := fun w d => if d =? 1 then Some (d_out w) else None |}.
  - intros [files ins next out] fd n l El Hn. cbn [d_input] in El. cbn [demo_sys]. rewrite El.
    exists (DemoOS files (fun d => if d =? fd then Some (drop (Nat.min 3 (Z.to_nat n)) l) else ins d) next out), (take (Nat.min 3 (Z.to_nat n)) l), (drop (Nat.min 3 (Z.to_nat n)) l).
    split_and!; [done|by rewrite take_drop| |rewrite length_take; lia|done|done|done].
    destruct l; [done|]. intros E. apply (f_equal length) in E. rewrite length_take in E. cbn [length] in E. lia.
  - intros [files ins next out] fd l o Eo. destruct (Z.eqb_spec fd 1) as [->|]; [|done]. injection Eo as <-.
    exists (DemoOS files ins next (out ++ l)), (Z.of_nat (length l)). split_and!; [done|done|done|]. intros d. simpl. by destruct (d =? 1).
  - intros [files ins next out] path. cbn [d_files]. destruct (files path) as [l|] eqn:El; cbn [demo_sys]; rewrite El.
    + eexists _, _. split; [reflexivity|]. split_and!; [lia| |done|done|done]. destruct (Z.eqb_spec (Z.of_nat next + 3) 1); [lia|done].
    + eexists _, _. split; [reflexivity|]. split_and!; [lia|done|done|done].
  - intros [files ins next out] fd. eexists _, _. split; [reflexivity|]. split_and!; [done| |done]. intros d Hd. simpl. by rewrite (proj2 (Z.eqb_neq _ _) Hd).
Defined.

Definition demo_text : list Z := chars ("one two" ++ NLs ++ "three").
Definition demo_w : demo_os := DemoOS (fun p => if bool_decide (p = chars "a") then Some demo_text else None) (fun _ => None) 0 [].

Lemma cat_main_shows_witness : exists w', ends sys (cat_main [chars "cat"; chars "a"; chars "b"]) demo_w w' /\
  output w' 1 = Some (chars ("one two" ++ NLs ++ "threecat: cannot open b" ++ NLs)).
Proof.
  destruct (cat_main_shows (chars "cat") (chars "a") [chars "b"] demo_w) as (w' & He & _ & Ho); [by eexists|].
  exists w'. split; [exact He|]. rewrite Ho. vm_compute. reflexivity.
Defined.

Lemma wc_main_counts_witness : exists w', ends sys (wc_main [chars "wc"; chars "a"; chars "b"]) demo_w w' /\
  output w' 1 = Some (chars ("1 3 13 a" ++ NLs ++ "wc: cannot open b" ++ NLs)).
Proof.
  destruct (wc_main_counts (chars "wc") (chars "a") [chars "b"] demo_w) as (w' & He & (_ & Ho) & _); [by eexists| |].
  - intros p l. simpl. case_bool_decide; [|done]. intros [= <-]. vm_compute. reflexivity.
  - exists w'. split; [exact He|]. rewrite Ho. vm_compute. reflexivity.
Defined.
