(* ===== verification/Asm.v ===== *)
(** * Assembler: context switch, trap entry and return, system call stubs
    (swtch.S, trapasm.S, vectors.pl, usys.S, initcode.S; the stack that
    allocproc of proc.c prepares)

    The instructions that these files use act on the registers of a processor
    and on memory; a routine is the list of its instructions.  The C functions
    they call are any functions that keep the calling convention.  What the
    processor itself does on an interrupt starts from the gate and the task
    state of Seg. *)

From S2P Require Import Prelude Params Sched Seg.

(** ** The processor *)

Record x86 := X86 {
  x_eax : Z; x_ecx : Z; x_edx : Z; x_ebx : Z; x_esp : Z; x_ebp : Z; x_esi : Z; x_edi : Z;
  x_cs : Z; x_ss : Z; x_ds : Z; x_es : Z; x_fs : Z; x_gs : Z; x_eflags : Z; x_eip : Z; xm : mem }.

Inductive reg := EAX | ECX | EDX | EBX | ESP | EBP | ESI | EDI.
Inductive sreg := CS | SS | DS | ES | FS | GS.

Definition get_reg (r : reg) (x : x86) : Z :=
  match r with EAX => x_eax x | ECX => x_ecx x | EDX => x_edx x | EBX => x_ebx x | ESP => x_esp x | EBP => x_ebp x | ESI => x_esi x | EDI => x_edi x end.
Definition set_reg (r : reg) (v : Z) (x : x86) : x86 :=
  let '(X86 a c d b sp bp si di cs ss ds es fs gs fl ip m) := x in
  match r with
  | EAX => X86 v c d b sp bp si di cs ss ds es fs gs fl ip m
  | ECX => X86 a v d b sp bp si di cs ss ds es fs gs fl ip m
  | EDX => X86 a c v b sp bp si di cs ss ds es fs gs fl ip m
  | EBX => X86 a c d v sp bp si di cs ss ds es fs gs fl ip m
  | ESP => X86 a c d b v bp si di cs ss ds es fs gs fl ip m
  | EBP => X86 a c d b sp v si di cs ss ds es fs gs fl ip m
  | ESI => X86 a c d b sp bp v di cs ss ds es fs gs fl ip m
  | EDI => X86 a c d b sp bp si v cs ss ds es fs gs fl ip m
  end.
Definition get_sreg (r : sreg) (x : x86) : Z :=
  match r with CS => x_cs x | SS => x_ss x | DS => x_ds x | ES => x_es x | FS => x_fs x | GS => x_gs x end.
Definition set_sreg (r : sreg) (v : Z) (x : x86) : x86 :=
  let '(X86 a c d b sp bp si di cs ss ds es fs gs fl ip m) := x in
  match r with
  | CS => X86 a c d b sp bp si di v ss ds es fs gs fl ip m
  | SS => X86 a c d b sp bp si di cs v ds es fs gs fl ip m
  | DS => X86 a c d b sp bp si di cs ss v es fs gs fl ip m
  | ES => X86 a c d b sp bp si di cs ss ds v fs gs fl ip m
  | FS => X86 a c d b sp bp si di cs ss ds es v gs fl ip m
  | GS => X86 a c d b sp bp si di cs ss ds es fs v fl ip m
  end.
Definition set_eip (v : Z) (x : x86) : x86 :=
  let '(X86 a c d b sp bp si di cs ss ds es fs gs fl ip m) := x in X86 a c d b sp bp si di cs ss ds es fs gs fl v m.
Definition set_eflags (v : Z) (x : x86) : x86 :=
  let '(X86 a c d b sp bp si di cs ss ds es fs gs fl ip m) := x in X86 a c d b sp bp si di cs ss ds es fs gs v ip m.
Definition set_xm (v : mem) (x : x86) : x86 :=
  let '(X86 a c d b sp bp si di cs ss ds es fs gs fl ip m) := x in X86 a c d b sp bp si di cs ss ds es fs gs fl ip v.

(** A word is pushed below the stack pointer; the word or half word at it is
    read. *)
Definition xpush (v : Z) (x : x86) : x86 :=
  let a := u32 (x_esp x - 4) in set_reg ESP a (set_xm (store32 (xm x) a v) x).
Definition xtop (x : x86) : Z := load32 (xm x) (x_esp x).
Definition xtop16 (x : x86) : Z := load16 (xm x) (x_esp x).
Definition xdrop (x : x86) : x86 := set_reg ESP (u32 (x_esp x + 4)) x.

(** ** Instructions *)

(** A register, a segment register, a number, memory at an offset from a
    register. *)
Inductive operand := R (r : reg) | SR (r : sreg) | Imm (z : Z) | At (off : Z) (r : reg).

Inductive instr :=
| movl (src dst : operand)
| movw (src dst : operand)
| pushl (src : operand)
| popl (dst : operand)
| pushal
| popal
| addl (z : Z) (r : reg)
| call_ (target back : Z)
| ret
| iret.

Definition xread (o : operand) (x : x86) : Z :=
  match o with R r => get_reg r x | SR r => get_sreg r x | Imm z => z | At off r => load32 (xm x) (u32 (get_reg r x + off)) end.
Definition xwrite (o : operand) (v : Z) (x : x86) : x86 :=
  match o with
  | R r => set_reg r v x
  | SR r => set_sreg r (u16 v) x
  | Imm _ => x
  | At off r => set_xm (store32 (xm x) (u32 (get_reg r x + off)) v) x
  end.

Definition step (i : instr) (x : x86) : x86 :=
  match i with
  | movl src dst => xwrite dst (xread src x) x
  | movw src (R r) => set_reg r (get_reg r x - u16 (get_reg r x) + u16 (xread src x)) x
  | movw src dst => xwrite dst (u16 (xread src x)) x
  | pushl src => xpush (xread src x) x
  | popl (SR r) => xdrop (set_sreg r (xtop16 x) x)
  | popl dst => xwrite dst (xtop x) (xdrop x)
  | pushal =>
      let sp := x_esp x in
      xpush (x_edi x) (xpush (x_esi x) (xpush (x_ebp x) (xpush sp (xpush (x_ebx x) (xpush (x_edx x) (xpush (x_ecx x) (xpush (x_eax x) x)))))))
  | popal =>
      let x := xdrop (set_reg EDI (xtop x) x) in
      let x := xdrop (set_reg ESI (xtop x) x) in
      let x := xdrop (set_reg EBP (xtop x) x) in
      let x := xdrop x in
      let x := xdrop (set_reg EBX (xtop x) x) in
      let x := xdrop (set_reg EDX (xtop x) x) in
      let x := xdrop (set_reg ECX (xtop x) x) in
      xdrop (set_reg EAX (xtop x) x)
  | addl z r => set_reg r (u32 (get_reg r x + z)) x
  | call_ target back => set_eip target (xpush back x)
  | ret => xdrop (set_eip (xtop x) x)
  | iret =>
      let cpl := Z.land (x_cs x) 3 in
      let x := xdrop (set_eip (xtop x) x) in
      let x := xdrop (set_sreg CS (xtop16 x) x) in
      let x := xdrop (set_eflags (xtop x) x) in
      if Z.land (x_cs x) 3 =? cpl then x
      else let sp := xtop x in let x := xdrop x in set_reg ESP sp (set_sreg SS (xtop16 x) x)
  end.
Fixpoint exec (l : list instr) (x : x86) : x86 :=
  match l with [] => x | i :: l => exec l (step i x) end.

Lemma exec_app l l' x : exec (l ++ l') x = exec l' (exec l x).
Proof. revert x. induction l; simpl; auto. Qed.

(** ** The routines *)

(** swtch.S *)
Definition swtch : list instr :=
  [movl (At 4 ESP) (R EAX); movl (At 8 ESP) (R EDX);
   pushl (R EBP); pushl (R EBX); pushl (R ESI); pushl (R EDI);
   movl (R ESP) (At 0 EAX); movl (R EDX) (R ESP);
   popl (R EDI); popl (R ESI); popl (R EBX); popl (R EBP); ret].

(** vectors.pl: the entry of vector [n], before its jump to [alltraps]. *)
Definition vector (n : Z) : list instr :=
  (if negb ((n =? 8) || ((10 <=? n) && (n <=? 14)) || (n =? 17)) then [pushl (Imm 0)] else []) ++ [pushl (Imm n)].

(** trapasm.S, up to the call of [trap], and behind it. *)
Definition alltraps (trap_at back : Z) : list instr :=
  [pushl (SR DS); pushl (SR ES); pushl (SR FS); pushl (SR GS); pushal;
   movw (Imm (Z.shiftl SEG_KDATA 3)) (R EAX); movw (R EAX) (SR DS); movw (R EAX) (SR ES);
   movw (Imm (Z.shiftl SEG_KCPU 3)) (R EAX); movw (R EAX) (SR FS); movw (R EAX) (SR GS);
   pushl (R ESP); call_ trap_at back].
Definition trapret : list instr :=
  [popal; popl (SR GS); popl (SR FS); popl (SR ES); popl (SR DS); addl 8 ESP; iret].
Definition alltraps_back : list instr := addl 4 ESP :: trapret.

(** usys.S: a stub up to its [int], and behind it. *)
Definition SYSCALL (number : Z) : list instr := [movl (Imm number) (R EAX)].
Definition SYSCALL_back : list instr := [ret].

(** initcode.S, up to its first [int]; [argv] and [init] are in its text. *)
Definition initcode_start (argv init number : Z) : list instr :=
  [pushl (Imm argv); pushl (Imm init); pushl (Imm 0); movl (Imm number) (R EAX)].

(** ** Interrupts *)

(** Exceptions for which the processor pushes an error code; an [int]
    instruction pushes none. *)
Definition pushes_error (soft : bool) (n : Z) : bool := negb soft && ((n =? 8) || ((10 <=? n) && (n <=? 14)) || (n =? 17)).

(** Entry through a gate: from user mode on the kernel stack of the task
    state, where the user's stack is saved first; from the kernel on its own
    stack. *)
Definition interrupt (soft : bool) (n err : Z) (e : entry) (x : x86) : x86 :=
  let user := Z.land (x_cs x) 3 =? 3 in
  let y := if user then xpush (x_esp x) (xpush (x_ss x) (set_sreg SS (e_ss e) (set_reg ESP (e_esp e) x))) else x in
  let y := xpush (x_eip x) (xpush (x_cs x) (xpush (x_eflags x) y)) in
  let y := if pushes_error soft n then xpush err y else y in
  set_sreg CS (e_cs e) (set_eip (e_eip e) (set_eflags (if e_if e then x_eflags x else Z.land (x_eflags x) (Z.lnot FL_IF)) y)).

(** ** Frames in memory *)

(** x86.h, proc.h *)
Definition trapframe_fields : list (string * Z * Z) :=
  [uint_ "edi"; uint_ "esi"; uint_ "ebp"; uint_ "oesp"; uint_ "ebx"; uint_ "edx"; uint_ "ecx"; uint_ "eax";
   ushort_ "gs"; ushort_ "padding1"; ushort_ "fs"; ushort_ "padding2"; ushort_ "es"; ushort_ "padding3"; ushort_ "ds"; ushort_ "padding4"; uint_ "trapno";
   uint_ "err"; uint_ "eip"; ushort_ "cs"; ushort_ "padding5"; uint_ "eflags"; uint_ "esp"; ushort_ "ss"; ushort_ "padding6"].
Definition sizeof_trapframe : Z := Eval compute in offsetof trapframe_fields "end".
Definition context_fields : list (string * Z * Z) := [uint_ "edi"; uint_ "esi"; uint_ "ebx"; uint_ "ebp"; uint_ "eip"].
Definition sizeof_context : Z := Eval compute in offsetof context_fields "end".

Definition frame_at (m : mem) (a : Z) : trapframe :=
  let l f := load32 m (a + offsetof trapframe_fields f) in
  let s f := load16 m (a + offsetof trapframe_fields f) in
  Trapframe (l "edi") (l "esi") (l "ebp") (l "oesp") (l "ebx") (l "edx") (l "ecx") (l "eax") (s "gs") (s "fs") (s "es") (s "ds")
    (l "trapno") (l "err") (l "eip") (s "cs") (l "eflags") (l "esp") (s "ss").
Definition context_at (m : mem) (a : Z) : context :=
  let l f := load32 m (a + offsetof context_fields f) in Context_ (l "edi") (l "esi") (l "ebx") (l "ebp") (l "eip").

(** The registers that a frame describes. *)
Definition resumed (f : trapframe) (m : mem) : x86 :=
  X86 (tf_eax f) (tf_ecx f) (tf_edx f) (tf_ebx f) (tf_esp f) (tf_ebp f) (tf_esi f) (tf_edi f)
    (tf_cs f) (tf_ss f) (tf_ds f) (tf_es f) (tf_fs f) (tf_gs f) (tf_eflags f) (tf_eip f) m.
(** The frame of a program that was interrupted in [x]; [oesp] is whatever the
    stack pointer was. *)
Definition framed (n err oesp : Z) (x : x86) : trapframe :=
  Trapframe (x_edi x) (x_esi x) (x_ebp x) oesp (x_ebx x) (x_edx x) (x_ecx x) (x_eax x) (x_gs x) (x_fs x) (x_es x) (x_ds x)
    n err (x_eip x) (x_cs x) (x_eflags x) (x_esp x) (x_ss x).

(** proc.c, allocproc: what a new process finds on its kernel stack. *)
Definition new_stack (kstack trapret_at forkret_at : Z) (m : mem) : mem * Z * Z :=
  let sp := kstack + KSTACKSIZE in
  let sp := sp - sizeof_trapframe in
  let tf := sp in
  let sp := sp - 4 in
  let m := store32 m sp trapret_at in
  let sp := sp - sizeof_context in
  let m := fill m sp 0 sizeof_context in
  (store32 m (sp + offsetof context_fields "eip") forkret_at, tf, sp).

(** The calling convention of C: a function that was entered in [x] has
    returned in [y]. *)
Record returned (x y : x86) : Prop := {
  rt_eip : x_eip y = xtop x;
  rt_esp : x_esp y = u32 (x_esp x + 4);
  rt_ebx : x_ebx y = x_ebx x; rt_ebp : x_ebp y = x_ebp x; rt_esi : x_esi y = x_esi x; rt_edi : x_edi y = x_edi x;
  rt_cs : x_cs y = x_cs x; rt_ss : x_ss y = x_ss x; rt_ds : x_ds y = x_ds x; rt_es : x_es y = x_es x; rt_fs : x_fs y = x_fs x; rt_gs : x_gs y = x_gs x }.

Record x_ok (x : x86) : Prop := {
  ok_eax : is_u32 (x_eax x); ok_ecx : is_u32 (x_ecx x); ok_edx : is_u32 (x_edx x); ok_ebx : is_u32 (x_ebx x);
  ok_esp : is_u32 (x_esp x); ok_ebp : is_u32 (x_ebp x); ok_esi : is_u32 (x_esi x); ok_edi : is_u32 (x_edi x);
  ok_cs : 0 <= x_cs x < 65536; ok_ss : 0 <= x_ss x < 65536; ok_ds : 0 <= x_ds x < 65536; ok_es : 0 <= x_es x < 65536;
  ok_fs : 0 <= x_fs x < 65536; ok_gs : 0 <= x_gs x < 65536; ok_eflags : is_u32 (x_eflags x); ok_eip : is_u32 (x_eip x) }.
