(* ===== verification/Console.v ===== *)
(** * The console: keyboard, serial line and screen (console.c, kbd.c, kbd.h,
    uart.c; procdump of proc.c)

    Output goes to the serial line and to the screen, whose cursor is in
    registers of the video controller; input comes from the keyboard or the
    serial line, is edited in a ring of 128 bytes and handed out a line at a
    time.  The state has the file system's state below it, since reading the
    console unlocks the inode of the device. *)

From S2P Require Import Prelude Params Spinlock Sched Bio Log Fs Io.

Definition BACKSPACE : Z := 0x100.
Definition CRTPORT : Z := 0x3d4.
Definition COM1 : Z := 0x3f8.
Definition INPUT_BUF : Z := 128.
(** [C(x)], Control-x, of the characters used. *)
Definition CtrlP : Z := 16.
Definition CtrlU : Z := 21.
Definition CtrlH : Z := 8.
Definition CtrlD : Z := 4.

Definition KBSTATP : Z := 0x64.
Definition KBS_DIB : Z := 0x01.
Definition KBDATAP : Z := 0x60.
Definition SHIFT : Z := 1.
Definition CTL : Z := 2.
Definition ALT : Z := 4.
Definition CAPSLOCK : Z := 8.
Definition NUMLOCK : Z := 16.
Definition SCROLLLOCK : Z := 32.
Definition E0ESC : Z := 64.

(** ** State *)

(** [input], without its lock. *)
Record input_buf := Input { ibuf : list Z; ir : Z; iw : Z; ie : Z }.

Record con_st (D : Type) := Con {
  cfs : fs_st;
  cplat : plat D;
  locking : bool; panicked : bool;   (** [cons.locking], [panicked] *)
  uart : bool;                       (** is there a uart? *)
  shift : Z;                         (** the keyboard's modifiers *)
  crt : Z -> Z;                      (** the cells of the screen's memory *)
  input : input_buf }.
Arguments Con {D}.
Arguments cfs {D}.
Arguments cplat {D}.
Arguments locking {D}.
Arguments panicked {D}.
Arguments uart {D}.
Arguments shift {D}.
Arguments crt {D}.
Arguments input {D}.

Section console.
Context `{Device D}.
Notation MC := (M (con_st D)).
Implicit Types (s : con_st D).

Definition set_cfs (x : fs_st) s := Con x (cplat s) (locking s) (panicked s) (uart s) (shift s) (crt s) (input s).
Definition set_cplat (x : plat D) s := Con (cfs s) x (locking s) (panicked s) (uart s) (shift s) (crt s) (input s).
Definition set_locking (x : bool) s := Con (cfs s) (cplat s) x (panicked s) (uart s) (shift s) (crt s) (input s).
Definition set_panicked (x : bool) s := Con (cfs s) (cplat s) (locking s) x (uart s) (shift s) (crt s) (input s).
Definition set_uart (x : bool) s := Con (cfs s) (cplat s) (locking s) (panicked s) x (shift s) (crt s) (input s).
Definition set_shift (x : Z) s := Con (cfs s) (cplat s) (locking s) (panicked s) (uart s) x (crt s) (input s).
Definition set_crt (x : Z -> Z) s := Con (cfs s) (cplat s) (locking s) (panicked s) (uart s) (shift s) x (input s).
Definition set_input (x : input_buf) s := Con (cfs s) (cplat s) (locking s) (panicked s) (uart s) (shift s) (crt s) x.

Definition cfs_lens : lens (con_st D) fs_st := Lens cfs set_cfs.
Definition cplat_lens : lens (con_st D) (plat D) := Lens cplat set_cplat.
Definition csched (s : con_st D) : sched_st := bsched (lbio (flog (cfs s))).

Definition con_in (p : Z) : MC Z := lift cplat_lens (inb p).
Definition con_out (p v : Z) : MC unit := lift cplat_lens (outb p v).
Definition con_acquire (l : lockid) : MC unit := lift cfs_lens (fs_acquire l).
Definition con_release (l : lockid) : MC unit := lift cfs_lens (fs_release l).
Definition con_wakeup (c : chan) : MC unit := lift cfs_lens (fs_wakeup c).
Definition con_sleep (c : chan) (l : lockid) : MC unit := lift cfs_lens (fs_sleep c l).
(** A change of this processor's registers and the locks. *)
Definition con_mach (f : machine -> machine) : MC unit :=
  lift cfs_lens (lift flog_lens (lift lbio_lens (lift bsched_lens (lift mach_lens (modify f))))).

(** ** The serial line (uart.c) *)

(** At most 128 looks at the line status register; [microdelay] does nothing. *)
Fixpoint uart_wait (n : nat) : MC unit :=
  match n with
  | O => mret ()
  | S n => st ← con_in (COM1 + 5); if has st 0x20 then mret () else uart_wait n
  end.

Definition uartputc (c : Z) : MC unit :=
  u ← gets uart;
  if negb (u : bool) then mret ()
  else uart_wait 128 ;; con_out (COM1 + 0) c.

Definition uartgetc : MC Z :=
  u ← gets uart;
  if negb (u : bool) then mret (-1)
  else
    st ← con_in (COM1 + 5);
    if negb (has st 0x01) then mret (-1) else con_in (COM1 + 0).

Fixpoint uartputs (l : list Z) : MC unit :=
  match l with [] => mret () | c :: l => uartputc c ;; uartputs l end.

Definition uartinit : MC unit :=
  con_out (COM1 + 2) 0 ;;
  con_out (COM1 + 3) 0x80 ;;
  con_out (COM1 + 0) (115200 / 9600) ;;
  con_out (COM1 + 1) 0 ;;
  con_out (COM1 + 3) 0x03 ;;
  con_out (COM1 + 4) 0 ;;
  con_out (COM1 + 1) 0x01 ;;
  st ← con_in (COM1 + 5);
  if st =? 0xFF then mret ()
  else
    modify (set_uart true) ;;
    con_in (COM1 + 2) ;;
    con_in (COM1 + 0) ;;
    lift cplat_lens (picenable IRQ_COM1) ;;
    lift cplat_lens (ioapicenable IRQ_COM1 0) ;;
    uartputs (chars "xv6..." ++ [10]).

(** ** The screen *)

(** [memmove(crt, crt+80, sizeof(crt[0])*23*80)] and [memset(crt+pos, 0, n)]. *)
Definition crt_up (m : Z -> Z) : Z -> Z := fun i => if (0 <=? i) && (i <? 23 * 80) then m (i + 80) else m i.
Definition crt_clear (pos n : Z) (m : Z -> Z) : Z -> Z := fun i => if (pos <=? i) && (i <? pos + n / 2) then 0 else m i.
Definition crt_set (pos c : Z) (m : Z -> Z) : Z -> Z := fun i => if i =? pos then c else m i.

(** The cursor position, in the registers 14 and 15. *)
Definition get_cursor : MC Z :=
  con_out CRTPORT 14 ;;
  hi ← con_in (CRTPORT + 1);
  con_out CRTPORT 15 ;;
  lo ← con_in (CRTPORT + 1);
  mret (Z.lor (Z.shiftl hi 8) lo).
Definition set_cursor (pos : Z) : MC unit :=
  con_out CRTPORT 14 ;;
  con_out (CRTPORT + 1) (Z.shiftr pos 8) ;;
  con_out CRTPORT 15 ;;
  con_out (CRTPORT + 1) pos.

Definition cgaputc (c : Z) : MC unit :=
  pos ← get_cursor;
  pos ← (if c =? 10 then mret (pos + (80 - pos mod 80))
         else if c =? BACKSPACE then mret (if 0 <? pos then pos - 1 else pos)
         else modify (fun s => set_crt (crt_set pos (Z.lor (Z.land c 0xff) 0x0700) (crt s)) s) ;; mret (pos + 1));
  pos ← (if 24 <=? pos / 80 then
           modify (fun s => set_crt (crt_up (crt s)) s) ;;
           let pos := pos - 80 in
           modify (fun s => set_crt (crt_clear pos (u32 (2 * (24 * 80 - pos))) (crt s)) s) ;;
           mret pos
         else mret pos);
  set_cursor pos ;;
  modify (fun s => set_crt (crt_set pos (Z.lor 32 0x0700) (crt s)) s).

(** A processor stops here once another has panicked. *)
Definition consputc (c : Z) : MC unit :=
  p ← gets panicked;
  if (p : bool) then con_mach (fun m => set_mcpu (Cpu (ncli (mcpu m)) (intena (mcpu m)) false) m) ;; blocked
  else
    (if c =? BACKSPACE then uartputc 8 ;; uartputc 32 ;; uartputc 8 else uartputc c) ;;
    cgaputc c.

Fixpoint consputs (l : list Z) : MC unit :=
  match l with [] => mret () | c :: l => consputc c ;; consputs l end.

(** ** Formatted output *)

(** The digits of [x], the lowest first; 32 are enough for any base. *)
Fixpoint digits_loop (fuel : nat) (x base : Z) : list Z :=
  match fuel with
  | O => []
  | S fuel =>
      default 0 (chars "0123456789abcdef" !! Z.to_nat (x mod base)) ::
      (if x / base =? 0 then [] else digits_loop fuel (x / base) base)
  end.

(** What [printint] has in [buf] after its loops, which it prints backwards. *)
Definition printint_buf (xx base : Z) (sign : bool) : list Z :=
  let neg := sign && (xx <? 0) in
  let x := if neg then u32 (- xx) else u32 xx in
  digits_loop 32 x base ++ (if neg then [45] else []).

Definition printint (xx base : Z) (sign : bool) : MC unit := consputs (rev (printint_buf xx base sign)).

(** An argument of [cprintf]: a word, or a pointer to a string. *)
Inductive carg := AInt (z : Z) | AStr (o : option (list Z)).

(** The conversions of [cprintf]; an argument that is missing or of another
    kind than its conversion is undefined behaviour in C, here a fault. *)
Fixpoint cprintf_loop (fmt : list Z) (args : list carg) : MC unit :=
  match fmt with
  | [] => mret ()
  | c :: fmt =>
      if negb (c =? 37) then consputc c ;; cprintf_loop fmt args
      else
        match fmt with
        | [] => mret ()
        | c :: fmt =>
            if c =? 100 then
              match args with
              | AInt z :: args => printint (s32 z) 10 true ;; cprintf_loop fmt args
              | _ => panic "trap"
              end
            else if (c =? 120) || (c =? 112) then
              match args with
              | AInt z :: args => printint (s32 z) 16 false ;; cprintf_loop fmt args
              | _ => panic "trap"
              end
            else if c =? 115 then
              match args with
              | AStr o :: args =>
                  consputs (map s8 (default (chars "(null)") o)) ;; cprintf_loop fmt args
              | _ => panic "trap"
              end
            else if c =? 37 then consputc 37 ;; cprintf_loop fmt args
            else consputc 37 ;; consputc c ;; cprintf_loop fmt args
        end
  end.

Definition cprintf (fmt : option (list Z)) (args : list carg) : MC unit :=
  locking ← gets locking;
  (if (locking : bool) then con_acquire Lcons else mret ()) ;;
  match fmt with
  | None => panic "null fmt"
  | Some fmt => cprintf_loop fmt args
  end ;;
  (if (locking : bool) then con_release Lcons else mret ()).

Fixpoint print_pcs (pcs : list Z) : MC unit :=
  match pcs with [] => mret () | pc :: pcs => cprintf (Some (chars " %p")) [AInt pc] ;; print_pcs pcs end.

(** [panic(s)], called with its argument at the address [v]. *)
Definition kpanic (msg : list Z) (v : Z) : MC unit :=
  con_mach (fun m => set_mcpu (Cpu (ncli (mcpu m)) (intena (mcpu m)) false) m) ;;
  modify (set_locking false) ;;
  m ← gets (fun s => mach (csched s));
  cprintf (Some (chars "cpu%d: panic: ")) [AInt (Z.of_nat (me m))] ;;
  cprintf (Some msg) [] ;;
  cprintf (Some [10]) [] ;;
  print_pcs (getcallerpcs (stk m) v) ;;
  modify (set_panicked true) ;;
  blocked.

(** ** The keyboard (kbd.c) *)

(** A table given by its first entries and some others. *)
Definition table (l : list Z) (at_ : list (Z * Z)) (i : Z) : Z :=
  match list_find (fun kv => kv.1 = i) at_ with
  | Some (_, kv) => kv.2
  | None => default 0 (l !! Z.to_nat i)
  end.

Definition shiftcode : Z -> Z :=
  table [] [(0x1D, CTL); (0x2A, SHIFT); (0x36, SHIFT); (0x38, ALT); (0x9D, CTL); (0xB8, ALT)].
Definition togglecode : Z -> Z := table [] [(0x3A, CAPSLOCK); (0x45, NUMLOCK); (0x46, SCROLLLOCK)].

(** [KEY_UP] and the other special keys. *)
Definition special_keys : list (Z * Z) :=
  [(0xC8, 0xE2); (0xD0, 0xE3); (0xC9, 0xE6); (0xD1, 0xE7); (0xCB, 0xE4); (0xCD, 0xE5);
   (0x97, 0xE0); (0xCF, 0xE1); (0xD2, 0xE8); (0xD3, 0xE9)].

Definition normalmap : Z -> Z :=
  table ([0; 27] ++ chars "1234567890-=" ++ [8; 9] ++ chars "qwertyuiop[]" ++ [10; 0] ++ chars "asdfghjkl;'`" ++ [0] ++
         chars "\zxcvbnm,./" ++ [0] ++ chars "*" ++ [0] ++ chars " " ++ replicate 13 0 ++ chars "789-456+1230.")
        ([(0x9C, 10); (0xB5, 47)] ++ special_keys).
Definition shiftmap : Z -> Z :=
  table ([0; 27] ++ chars "!@#$%^&*()_+" ++ [8; 9] ++ chars "QWERTYUIOP{}" ++ [10; 0] ++ chars "ASDFGHJKL:" ++ [34] ++ chars "~" ++ [0] ++
         chars "|ZXCVBNM<>?" ++ [0] ++ chars "*" ++ [0] ++ chars " " ++ replicate 13 0 ++ chars "789-456+1230.")
        ([(0x9C, 10); (0xB5, 47)] ++ special_keys).
(** [C] of the letters of a string, in an [uchar]. *)
Definition ctl (l : string) : list Z := (fun c => u8 (c - 64)) <$> chars l.
Definition ctlmap : Z -> Z :=
  table (replicate 16 0 ++ ctl "QWERTYUIOP" ++ [0; 0] ++ [13; 0] ++ ctl "ASDFGHJKL" ++ [0; 0; 0; 0] ++
         ctl "\ZXCVBNM" ++ [0; 0] ++ ctl "/" ++ [0; 0])
        ([(0x9C, 13); (0xB5, u8 (47 - 64))] ++ special_keys).

Definition charcode (i data : Z) : Z :=
  if i =? 0 then normalmap data else if i =? 1 then shiftmap data else ctlmap data.

Definition kbdgetc : MC Z :=
  st ← con_in KBSTATP;
  if Z.land st KBS_DIB =? 0 then mret (-1)
  else
    data ← con_in KBDATAP;
    sh ← gets shift;
    if data =? 0xE0 then modify (set_shift (Z.lor sh E0ESC)) ;; mret 0
    else if has data 0x80 then
      let data := if has sh E0ESC then data else Z.land data 0x7F in
      modify (set_shift (Z.land sh (Z.lnot (Z.lor (shiftcode data) E0ESC)))) ;; mret 0
    else
      let '(data, sh) := if has sh E0ESC then (Z.lor data 0x80, Z.land sh (Z.lnot E0ESC)) else (data, sh) in
      let sh := Z.lor sh (shiftcode data) in
      let sh := Z.lxor sh (togglecode data) in
      modify (set_shift sh) ;;
      let c := charcode (Z.land sh (Z.lor CTL SHIFT)) data in
      let c := if has sh CAPSLOCK then
          if (97 <=? c) && (c <=? 122) then u32 (c + (65 - 97))
          else if (65 <=? c) && (c <=? 90) then u32 (c + (97 - 65)) else c
        else c in
      mret (s32 c).

(** ** Input *)

Definition ibyte (i : input_buf) (k : Z) : Z := default 0 (ibuf i !! Z.to_nat (k mod INPUT_BUF)).
Definition set_ie x (i : input_buf) := Input (ibuf i) (ir i) (iw i) x.
Definition upd_input (f : input_buf -> input_buf) : MC unit := modify (fun s => set_input (f (input s)) s).

(** The loop of Control-U, which erases at most the 128 characters of the buffer. *)
Fixpoint kill_line (fuel : nat) : MC unit :=
  match fuel with
  | O => blocked
  | S fuel =>
      i ← gets input;
      if negb (ie i =? iw i) && negb (ibyte i (u32 (ie i - 1)) =? 10) then
        upd_input (set_ie (u32 (ie i - 1))) ;;
        consputc BACKSPACE ;;
        kill_line fuel
      else mret ()
  end.

(** [input.buf[input.e++ % INPUT_BUF] = c]. *)
Definition put_input (c : Z) (i : input_buf) : input_buf :=
  Input (<[Z.to_nat (ie i mod INPUT_BUF) := u8 c]> (ibuf i)) (ir i) (iw i) (u32 (ie i + 1)).
Definition commit_input (i : input_buf) : input_buf := Input (ibuf i) (ir i) (ie i) (ie i).

(** The names of the states in [procdump]. *)
Definition state_name (st : procstate) : list Z :=
  chars match st with
        | UNUSED => "unused" | EMBRYO => "embryo" | SLEEPING => "sleep " | RUNNABLE => "runble"
        | RUNNING => "run   " | ZOMBIE => "zombie"
        end.

(** [for(i=0; i<10 && pc[i] != 0; i++)]. *)
Fixpoint dump_pcs (pcs : list Z) : MC unit :=
  match pcs with
  | [] => mret ()
  | pc :: pcs => if pc =? 0 then mret () else cprintf (Some (chars " %p")) [AInt pc] ;; dump_pcs pcs
  end.

Fixpoint procdump_loop (ps : list proc) : MC unit :=
  match ps with
  | [] => mret ()
  | p :: ps =>
      (if bool_decide (state p = UNUSED) then mret ()
       else
         cprintf (Some (chars "%d %s %s")) [AInt (pid p); AStr (Some (state_name (state p))); AStr (Some (pname p))] ;;
         (if bool_decide (state p = SLEEPING) then
            m ← gets (fun s => mach (csched s));
            dump_pcs (getcallerpcs (stk m) (cx_ebp (p_context p) + 2 * 4))
          else mret ()) ;;
         cprintf (Some [10]) []) ;;
      procdump_loop ps
  end.
Definition procdump : MC unit := ps ← gets (fun s => procs (csched s)); procdump_loop ps.

(** One character of [consoleintr]. *)
Definition console_char (c : Z) : MC unit :=
  if c =? CtrlP then procdump
  else if c =? CtrlU then kill_line (S (Z.to_nat INPUT_BUF))
  else if (c =? CtrlH) || (c =? 0x7f) then
    i ← gets input;
    if negb (ie i =? iw i) then upd_input (set_ie (u32 (ie i - 1))) ;; consputc BACKSPACE else mret ()
  else
    i ← gets input;
    if negb (c =? 0) && (u32 (ie i - ir i) <? INPUT_BUF) then
      let c := if c =? 13 then 10 else c in
      upd_input (put_input c) ;;
      consputc c ;;
      i ← gets input;
      if (c =? 10) || (c =? CtrlD) || (ie i =? u32 (ir i + INPUT_BUF)) then
        upd_input commit_input ;; con_wakeup CInput
      else mret ()
    else mret ().

(** The loop of [consoleintr], for as many characters as there is fuel. *)
Fixpoint consoleintr_loop (fuel : nat) (getc : MC Z) : MC unit :=
  match fuel with
  | O => blocked
  | S fuel => c ← getc; if 0 <=? c then console_char c ;; consoleintr_loop fuel getc else mret ()
  end.
Definition consoleintr (fuel : nat) (getc : MC Z) : MC unit :=
  con_acquire Linput ;; consoleintr_loop fuel getc ;; con_release Linput.

Definition kbdintr (fuel : nat) : MC unit := consoleintr fuel kbdgetc.
Definition uartintr (fuel : nat) : MC unit := consoleintr fuel uartgetc.

(** ** The device functions *)

(** The copying loop of [consoleread] with [n] bytes to go: whether the
    process was killed, the bytes still to go, and those stored. *)
Fixpoint consoleread_loop (n : nat) (target : Z) : MC (bool * Z * list Z) :=
  match n with
  | O => mret (false, 0, [])
  | S n' =>
      i ← gets input;
      if ir i =? iw i then
        p ← gets (fun s => j ← curproc (csched s); procs (csched s) !! j);
        match (p : option proc) with
        | None => panic "trap"
        | Some p =>
            if negb (killed p =? 0) then mret (true, Z.of_nat n, [])
            else con_sleep CInput Linput ;; blocked
        end
      else
        let c := ibyte i (ir i) in
        upd_input (fun i => Input (ibuf i) (u32 (ir i + 1)) (iw i) (ie i)) ;;
        if c =? CtrlD then
          (if Z.of_nat n <? target then upd_input (fun i => Input (ibuf i) (u32 (ir i - 1)) (iw i) (ie i)) else mret ()) ;;
          mret (false, Z.of_nat n, [])
        else if c =? 10 then mret (false, Z.of_nat n', [c])
        else
          '(k, m, l) ← consoleread_loop n' target;
          mret (k, m, c :: l)
  end.

(** The return value and the bytes stored at [dst]. *)
Definition consoleread (ip : nat) (n : Z) : MC (Z * list Z) :=
  lift cfs_lens (iunlock ip) ;;
  let target := u32 n in
  con_acquire Linput ;;
  '(k, m, l) ← consoleread_loop (Z.to_nat n) target;
  con_release Linput ;;
  lift cfs_lens (ilock ip) ;;
  if (k : bool) then mret (-1, l) else mret (s32 (target - (if 0 <? n then m else n)), l).

Definition consolewrite (ip : nat) (buf : list Z) : MC Z :=
  lift cfs_lens (iunlock ip) ;;
  con_acquire Lcons ;;
  consputs ((fun b => Z.land b 0xff) <$> buf) ;;
  con_release Lcons ;;
  lift cfs_lens (ilock ip) ;;
  mret (Z.of_nat (length buf)).

(** Without the assignments to [devsw], whose entries are parameters of [readi]
    and [writei]. *)
Definition consoleinit : MC unit :=
  con_mach (fun m => upd_lock Lcons (Spinlock.initlock "console" (locks m Lcons)) m) ;;
  con_mach (fun m => upd_lock Linput (Spinlock.initlock "input" (locks m Linput)) m) ;;
  modify (set_locking true) ;;
  lift cplat_lens (picenable IRQ_KBD) ;;
  lift cplat_lens (ioapicenable IRQ_KBD 0).
End console.
