(* ===== verification/ConsoleOut.v ===== *)
(** * What the console prints

    The devices behind the console's ports as the class [PcPorts]: the
    registers of the video controller, the serial line and the keyboard.
    Characters reach the serial line and the screen, which is a terminal of 24
    lines of 80 cells; nothing outside its memory is written. *)

From S2P Require Import Prelude Params Spinlock Sched Bio Log Fs Io Console.

(** ** Devices *)

(** The register index and registers of the video controller; the bytes sent
    on the serial line, and those waiting to be read from it and from the
    keyboard. *)
Record pcdev := Pc { pc_idx : Z; pc_reg : Z -> Z; pc_sent : list Z; pc_line : list Z; pc_keys : list Z }.

Class PcPorts (D : Type) `{Device D} := {
  pc : D -> pcdev;
  pc_out_idx : forall v d, pc (port_out CRTPORT v d) =
    let p := pc d in Pc v (pc_reg p) (pc_sent p) (pc_line p) (pc_keys p);
  pc_out_reg : forall v d, pc (port_out (CRTPORT + 1) v d) =
    let p := pc d in Pc (pc_idx p) (crt_set (pc_idx p) v (pc_reg p)) (pc_sent p) (pc_line p) (pc_keys p);
  pc_in_reg : forall d, let '(v, d') := port_in (CRTPORT + 1) d in v = pc_reg (pc d) (pc_idx (pc d)) /\ pc d' = pc d;
  pc_out_com : forall v d, pc (port_out (COM1 + 0) v d) =
    let p := pc d in Pc (pc_idx p) (pc_reg p) (pc_sent p ++ [v]) (pc_line p) (pc_keys p);
  pc_in_lsr : forall d, let '(v, d') := port_in (COM1 + 5) d in
    is_u8 v /\ pc d' = pc d /\ has v 0x01 = negb (bool_decide (pc_line (pc d) = []));
  pc_in_com : forall d c l, pc_line (pc d) = c :: l -> let '(v, d') := port_in (COM1 + 0) d in
    let p := pc d in v = c /\ pc d' = Pc (pc_idx p) (pc_reg p) (pc_sent p) l (pc_keys p);
  pc_in_kbs : forall d, let '(v, d') := port_in KBSTATP d in
    is_u8 v /\ pc d' = pc d /\ has v KBS_DIB = negb (bool_decide (pc_keys (pc d) = []));
  pc_in_kbd : forall d c l, pc_keys (pc d) = c :: l -> let '(v, d') := port_in KBDATAP d in
    let p := pc d in v = c /\ pc d' = Pc (pc_idx p) (pc_reg p) (pc_sent p) (pc_line p) l }.

Section output.
Context `{PcPorts D}.
Implicit Types (s : con_st D).

Definition pcof (s : con_st D) : pcdev := pc (pdev (cplat s)).
Definition with_dev (d : D) (s : con_st D) : con_st D := set_cplat (set_pdev d (cplat s)) s.

Lemma wp_con_out p v (Q : unit -> con_st D -> Prop) s :
  Q () (with_dev (port_out p (u8 v) (pdev (cplat s))) s) -> wp (con_out p v) Q s.
Proof. intros HQ. apply wp_lift, wp_on_dev. exact HQ. Qed.

Lemma wp_con_in p (Q : Z -> con_st D -> Prop) s :
  (forall v d, port_in p (pdev (cplat s)) = (v, d) -> Q (u8 v) (with_dev d s)) -> wp (con_in p) Q s.
Proof.
  intros HQ. apply wp_lift, wp_on_dev. destruct (port_in p (pdev (cplat s))) as [v d] eqn:E.
  simpl in *. rewrite E. by apply HQ.
Qed.

(** ** What printing may change

    The devices and the screen; the locks while it lasts. *)
Definition with_sched (x : sched_st) (f : fs_st) : fs_st :=
  lset flog_lens (lset lbio_lens (lset bsched_lens x (lbio (flog f))) (flog f)) f.

Record printed (s s' : con_st D) : Prop := {
  pr_fs : cfs s' = with_sched (csched s') (cfs s);
  pr_procs : same_procs (csched s) (csched s');
  pr_locks : forall ie L, locked_by ie L (csched s) -> locked_by ie L (csched s');
  pr_plat : exists d, cplat s' = set_pdev d (cplat s);
  pr_locking : locking s' = locking s;
  pr_panicked : panicked s' = panicked s;
  pr_uart : uart s' = uart s;
  pr_shift : shift s' = shift s;
  pr_input : input s' = input s;
  pr_line : pc_line (pcof s') = pc_line (pcof s);
  pr_keys : pc_keys (pcof s') = pc_keys (pcof s) }.

#[export] Instance printed_refl : Reflexive printed.
Proof. intros s. split; try done; [by destruct s as [[[[]]]]|exists (pdev (cplat s)); by destruct s as [? []]]. Qed.
#[export] Instance printed_trans : Transitive printed.
Proof.
  intros s1 s2 s3 [F1 P1 L1 [d1 D1] ? ? ? ? ? ? ?] [F2 P2 L2 [d2 D2] ? ? ? ? ? ? ?]. split; try congruence; eauto.
  - by rewrite F2, F1.
  - by eapply same_procs_trans.
  - exists d2. by rewrite D2, D1.
Qed.

(** ** The serial line *)

(** Only the devices have changed, to ones that look like [p]. *)
Definition only_dev (s : con_st D) (p : pcdev) (s' : con_st D) : Prop := exists d, s' = with_dev d s /\ pc d = p.

Lemma only_dev_printed s p s' : only_dev s p s' -> pc_line p = pc_line (pcof s) -> pc_keys p = pc_keys (pcof s) -> printed s s'.
Proof.
  intros (d & -> & <-) Hl Hk. split; try done; [by destruct s as [[[[]]]]|by exists d].
Qed.

Lemma wp_uart_wait n : forall s, wp (uart_wait n) (fun _ s' => only_dev s (pcof s) s') s.
Proof.
  induction n as [|n IH]; intros s; simpl.
  { apply wp_ret. exists (pdev (cplat s)). split; [|done]. by destruct s as [? []]. }
  apply wp_bind, wp_con_in. intros v d E. pose proof (pc_in_lsr (pdev (cplat s))) as Hl. rewrite E in Hl. destruct Hl as (_ & Hl & _).
  case_match; [apply wp_ret; by exists d|]. eapply wp_mono; [apply IH|]. intros [] s' (d' & -> & Hd'). exists d'. split; [done|].
  rewrite Hd'. exact Hl.
Qed.

Lemma wp_uartputc c s : wp (uartputc c) (fun _ s' => printed s s' /\ crt s' = crt s /\
  pcof s' = let p := pcof s in Pc (pc_idx p) (pc_reg p) (pc_sent p ++ (if uart s then [u8 c] else [])) (pc_line p) (pc_keys p)) s.
Proof.
  unfold uartputc. apply wp_bind, wp_gets. destruct (uart s); cbn [negb].
  - eapply wp_seq; [apply wp_uart_wait|]. intros [] s1 (d & -> & Hd). apply wp_con_out.
    assert (E : pcof (with_dev (port_out (COM1 + 0) (u8 c) d) (with_dev d s)) =
      Pc (pc_idx (pcof s)) (pc_reg (pcof s)) (pc_sent (pcof s) ++ [u8 c]) (pc_line (pcof s)) (pc_keys (pcof s))).
    { unfold pcof at 1. simpl. by rewrite pc_out_com, Hd. }
    split; [|split; [done|exact E]]. eapply only_dev_printed; [eexists; split; [reflexivity|exact E]|done..].
  - apply wp_ret. split; [done|]. split; [done|]. rewrite app_nil_r. by destruct (pcof s).
Qed.

(** ** The screen as a terminal *)

Record term := Term { tcells : list Z; tcur : nat }.
Definition rows : nat := 24.
Definition cols : nat := 80.

(** A character, a new line or a backspace; the screen scrolls when the cursor
    leaves its last line. *)
Definition term_put (c : Z) (t : term) : term :=
  let '(cells, cur) :=
    if c =? 10 then (tcells t, (tcur t / cols + 1) * cols)%nat
    else if c =? BACKSPACE then (tcells t, pred (tcur t))
    else (<[tcur t := Z.lor (Z.land c 0xff) 0x0700]> (tcells t), S (tcur t)) in
  let '(cells, cur) :=
    if (rows * cols <=? cur)%nat then (drop cols cells ++ replicate cols 0, (cur - cols)%nat) else (cells, cur) in
  Term (<[cur := Z.lor 32 0x0700]> cells) cur.

(** The terminal [t] is what the screen's memory and the cursor registers show. *)
Record term_shown (t : term) (s : con_st D) : Prop := {
  ts_length : length (tcells t) = (rows * cols)%nat;
  ts_cur : (tcur t < rows * cols)%nat;
  ts_hi : pc_reg (pcof s) 14 = Z.of_nat (tcur t) / 256;
  ts_lo : pc_reg (pcof s) 15 = Z.of_nat (tcur t) mod 256;
  ts_cells : forall i x, tcells t !! i = Some x -> crt s (Z.of_nat i) = x }.

(** The cursor position read from the two registers. *)
Lemma cursor_read (n : nat) : (n < rows * cols)%nat ->
  Z.lor (Z.shiftl (u8 (Z.of_nat n / 256)) 8) (u8 (Z.of_nat n mod 256)) = Z.of_nat n.
Proof. intros Hn. unfold rows, cols in Hn. rewrite lor_shiftl by zlia. change (2 ^ 8) with 256. zlia. Qed.

Lemma wp_set_index v (Q : unit -> con_st D -> Prop) s :
  (forall d, pc d = (let p := pcof s in Pc (u8 v) (pc_reg p) (pc_sent p) (pc_line p) (pc_keys p)) -> Q () (with_dev d s)) ->
  wp (con_out CRTPORT v) Q s.
Proof. intros HQ. apply wp_con_out, HQ. apply pc_out_idx. Qed.

Lemma wp_get_reg (Q : Z -> con_st D -> Prop) s :
  (forall d, pc d = pcof s -> Q (u8 (pc_reg (pcof s) (pc_idx (pcof s)))) (with_dev d s)) -> wp (con_in (CRTPORT + 1)) Q s.
Proof.
  intros HQ. apply wp_con_in. intros v d E. pose proof (pc_in_reg (pdev (cplat s))) as Hr. rewrite E in Hr.
  destruct Hr as [-> Hr]. by apply HQ.
Qed.

Lemma wp_set_reg v (Q : unit -> con_st D -> Prop) s :
  (forall d, pc d = (let p := pcof s in Pc (pc_idx p) (crt_set (pc_idx p) (u8 v) (pc_reg p)) (pc_sent p) (pc_line p) (pc_keys p)) ->
    Q () (with_dev d s)) -> wp (con_out (CRTPORT + 1) v) Q s.
Proof. intros HQ. apply wp_con_out, HQ. apply pc_out_reg. Qed.

Lemma wp_get_cursor t s : term_shown t s ->
  wp get_cursor (fun pos s' => pos = Z.of_nat (tcur t) /\
    only_dev s (let p := pcof s in Pc 15 (pc_reg p) (pc_sent p) (pc_line p) (pc_keys p)) s') s.
Proof.
  intros [_ Hc Hhi Hlo _]. apply wp_bind, wp_set_index. intros d1 E1. apply wp_bind, wp_get_reg. intros d2 E2.
  apply wp_bind, wp_set_index. intros d3 E3. apply wp_bind, wp_get_reg. intros d4 E4. apply wp_ret.
  unfold pcof in *. simpl in *. rewrite E1 in E2. rewrite E2 in E3. rewrite E3 in E4. simpl in *.
  rewrite E1, E3. simpl. change (u8 14) with 14. change (u8 15) with 15 in *. rewrite Hhi, Hlo, cursor_read by done.
  split; [done|]. by exists d4.
Qed.

Lemma wp_set_cursor pos s : 0 <= pos < 65536 ->
  wp (set_cursor pos) (fun _ s' => only_dev s (let p := pcof s in
      Pc 15 (crt_set 15 (pos mod 256) (crt_set 14 (pos / 256) (pc_reg p))) (pc_sent p) (pc_line p) (pc_keys p)) s') s.
Proof.
  intros Hp. apply wp_bind, wp_set_index. intros d1 E1. apply wp_bind, wp_set_reg. intros d2 E2.
  apply wp_bind, wp_set_index. intros d3 E3. apply wp_set_reg. intros d4 E4. exists d4. split; [done|].
  unfold pcof in *. simpl in *. rewrite E4, E3, E2, E1. simpl. change (u8 15) with 15. change (u8 14) with 14.
  rewrite Z.shiftr_div_pow2 by lia. change (2 ^ 8) with 256. unfold u8. rewrite (Z.mod_small (pos / 256)) by zlia. done.
Qed.

(** *** Cells in memory *)

Definition cells_in (l : list Z) (m : Z -> Z) : Prop := forall i x, l !! i = Some x -> m (Z.of_nat i) = x.

Lemma cells_set l m i c : cells_in l m -> (i < length l)%nat -> cells_in (<[i := c]> l) (crt_set (Z.of_nat i) c m).
Proof.
  intros Hl Hi j x Hj. unfold crt_set. destruct (decide (j = i)) as [->|Hne].
  - rewrite list_lookup_insert_eq in Hj by done. injection Hj as <-. by rewrite Z.eqb_refl.
  - rewrite list_lookup_insert_ne in Hj by done. replace (Z.of_nat j =? Z.of_nat i) with false by lia. by apply Hl.
Qed.

Lemma cells_scroll l m : length l = (rows * cols)%nat -> cells_in l m ->
  cells_in (drop cols l ++ replicate cols 0) (crt_clear 1840 160 (crt_up m)).
Proof.
  intros Hlen Hl i x Hi. unfold crt_clear, crt_up, rows, cols in *. change (160 / 2) with 80.
  apply lookup_app_Some in Hi as [Hi|[Hge Hi]].
  - pose proof Hi as Hlt%lookup_lt_Some. rewrite length_drop in Hlt. rewrite lookup_drop in Hi.
    replace ((1840 <=? Z.of_nat i) && _) with false by lia. replace ((0 <=? Z.of_nat i) && _) with true by lia.
    rewrite <- (Hl _ _ Hi). f_equal. lia.
  - rewrite length_drop in Hge, Hi. apply lookup_replicate in Hi as [-> Hi].
    by replace ((1840 <=? Z.of_nat i) && _) with true by lia.
Qed.

(** Where the cursor is before the screen scrolls. *)
Definition term_move (c : Z) (t : term) : list Z * nat :=
  if c =? 10 then (tcells t, (tcur t / cols + 1) * cols)%nat
  else if c =? BACKSPACE then (tcells t, pred (tcur t))
  else (<[tcur t := Z.lor (Z.land c 0xff) 0x0700]> (tcells t), S (tcur t)).

Lemma term_move_bounds c t : length (tcells t) = (rows * cols)%nat -> (tcur t < rows * cols)%nat ->
  length (term_move c t).1 = (rows * cols)%nat /\ ((term_move c t).2 <= rows * cols)%nat.
Proof.
  intros Hl Hc. unfold term_move, rows, cols in *. destruct (c =? 10); cbn [fst snd].
  - split; [done|]. pose proof (Nat.Div0.div_lt_upper_bound (tcur t) 80 24 ltac:(lia)). lia.
  - destruct (c =? BACKSPACE); cbn [fst snd]; [lia|]. rewrite length_insert. lia.
Qed.

(** The memory outside the screen. *)
Definition only_screen (m m' : Z -> Z) : Prop := forall i, ~ (0 <= i < 1920) -> m' i = m i.

Lemma wp_move c t s : term_shown t s -> let pos := Z.of_nat (tcur t) in
  wp (if c =? 10 then mret (pos + (80 - pos mod 80))
      else if c =? BACKSPACE then mret (if 0 <? pos then pos - 1 else pos)
      else modify (fun s => set_crt (crt_set pos (Z.lor (Z.land c 0xff) 0x0700) (crt s)) s) ;; mret (pos + 1))
    (fun pos' s' => pos' = Z.of_nat (term_move c t).2 /\ exists m, s' = set_crt m s /\
       cells_in (term_move c t).1 m /\ only_screen (crt s) m) s.
Proof.
  intros [Hl Hc _ _ Hcells] pos. unfold term_move, rows, cols in *. destruct (c =? 10); cbn [fst snd].
  - apply wp_ret. split; [|exists (crt s); split; [by destruct s|done]].
    rewrite Nat2Z.inj_mul, Nat2Z.inj_add, Nat2Z.inj_div. unfold pos. change (Z.of_nat 80) with 80. zlia.
  - destruct (c =? BACKSPACE); cbn [fst snd].
    + apply wp_ret. split; [unfold pos; case_match; lia|exists (crt s); split; [by destruct s|done]].
    + apply wp_bind, wp_modify, wp_ret. split; [lia|]. eexists. split; [done|]. split; [apply cells_set; (done || lia)|].
      intros i Hi. unfold crt_set. by replace (i =? pos) with false by lia.
Qed.

Lemma wp_scroll (l : list Z) (cur : nat) s : length l = (rows * cols)%nat -> (cur <= rows * cols)%nat -> cells_in l (crt s) ->
  wp (if 24 <=? Z.of_nat cur / 80 then
        modify (fun s => set_crt (crt_up (crt s)) s) ;;
        let pos := Z.of_nat cur - 80 in
        modify (fun s => set_crt (crt_clear pos (u32 (2 * (24 * 80 - pos))) (crt s)) s) ;;
        mret pos
      else mret (Z.of_nat cur))
    (fun pos' s' => let '(l', cur') :=
        if (rows * cols <=? cur)%nat then (drop cols l ++ replicate cols 0, (cur - cols)%nat) else (l, cur) in
      pos' = Z.of_nat cur' /\ (cur' < rows * cols)%nat /\ length l' = (rows * cols)%nat /\
      exists m, s' = set_crt m s /\ cells_in l' m /\ only_screen (crt s) m) s.
Proof.
  intros Hl Hc Hcells. unfold rows, cols in *. destruct (Nat.leb_spec (24 * 80) cur) as [Hge|Hlt].
  - assert (cur = 1920)%nat as -> by lia. change (24 <=? Z.of_nat 1920 / 80) with true.
    apply wp_bind, wp_modify, wp_bind, wp_modify, wp_ret. split; [done|]. split; [lia|].
    split; [rewrite length_app, length_drop, length_replicate; lia|]. eexists. split; [done|]. split.
    + by apply (cells_scroll l (crt s)).
    + intros i Hi. unfold crt_clear, crt_up. simpl. change (Z.of_nat 1920 - 80) with 1840. change (u32 (2 * (24 * 80 - 1840)) / 2) with 80.
      replace ((1840 <=? i) && _) with false by lia. by replace ((0 <=? i) && _) with false by lia.
  - replace (24 <=? Z.of_nat cur / 80) with false by zlia. apply wp_ret. split; [done|]. split; [done|]. split; [done|].
    exists (crt s). split; [by destruct s|done].
Qed.

(** [term_put] in two steps. *)
Definition term_scroll (l : list Z) (cur : nat) : list Z * nat :=
  if (rows * cols <=? cur)%nat then (drop cols l ++ replicate cols 0, (cur - cols)%nat) else (l, cur).

Lemma term_put_eq c t : let '(l, cur) := term_scroll (term_move c t).1 (term_move c t).2 in
  term_put c t = Term (<[cur := Z.lor 32 0x0700]> l) cur.
Proof.
  unfold term_scroll, term_put, term_move. destruct (c =? 10); [|destruct (c =? BACKSPACE)]; cbn [fst snd]; by destruct (_ <=? _)%nat.
Qed.

Lemma wp_cgaputc c t s : term_shown t s ->
  wp (cgaputc c) (fun _ s' => printed s s' /\ term_shown (term_put c t) s' /\ pc_sent (pcof s') = pc_sent (pcof s) /\
    only_screen (crt s) (crt s')) s.
Proof.
  intros Ht. unfold cgaputc. eapply wp_seq; [by apply wp_get_cursor|]. intros pos s0 (-> & d & -> & E).
  assert (Ht1 : term_shown t (with_dev d s)).
  { destruct Ht. split; try done; unfold pcof in *; simpl; by rewrite E. }
  eapply wp_seq; [by apply wp_move|]. intros pos s1 (-> & m1 & -> & Hm1 & Ho1).
  destruct (term_move_bounds c t (ts_length _ _ Ht) (ts_cur _ _ Ht)) as [Hl Hc]. pose proof (term_put_eq c t) as Hput.
  eapply wp_seq; [by apply (wp_scroll (term_move c t).1 (term_move c t).2)|]. intros pos s2 Hs2.
  fold (term_scroll (term_move c t).1 (term_move c t).2) in Hs2.
  destruct (term_scroll _ _) as [l cur]. destruct Hs2 as (-> & Hcur & Hlen & m2 & -> & Hm2 & Ho2). rewrite Hput.
  pose proof Hcur as Hcur'. unfold rows, cols in Hcur'.
  eapply wp_seq; [apply wp_set_cursor; lia|]. intros [] s3 (d3 & -> & E3). apply wp_modify.
  unfold pcof in *. simpl in *. rewrite E in E3. simpl in E3.
  split; [|split; [|split]].
  - split; try done; unfold pcof; simpl; [by destruct s as [[[[]]]]|by eexists|by rewrite E3..].
  - split; simpl; [by rewrite length_insert|done|..]; unfold pcof; simpl; try (by rewrite E3).
    apply cells_set; [done|]. rewrite Hlen. done.
  - by rewrite E3.
  - intros i Hi. unfold crt_set. replace (i =? Z.of_nat cur) with false by lia. by rewrite Ho2, Ho1.
Qed.

(** ** Strings *)

Definition term_puts (l : list Z) (t : term) : term := foldl (fun t c => term_put c t) t l.
(** What goes out on the serial line for a character. *)
Definition wire (c : Z) : list Z := if c =? BACKSPACE then [8; 32; 8] else [u8 c].

(** From [s], with the terminal [t] on the screen, the characters [l] have been
    printed. *)
Record prints (t : term) (l : list Z) (s s' : con_st D) : Prop := {
  po_printed : printed s s';
  po_term : term_shown (term_puts l t) s';
  po_sent : pc_sent (pcof s') = pc_sent (pcof s) ++ (if uart s then mjoin (wire <$> l) else []);
  po_screen : only_screen (crt s) (crt s') }.

Lemma prints_nil t s : term_shown t s -> prints t [] s s.
Proof. intros Ht. split; try done. destruct (uart s); by rewrite app_nil_r. Qed.

Lemma prints_app t l1 l2 s s1 s2 : prints t l1 s s1 -> prints (term_puts l1 t) l2 s1 s2 -> prints t (l1 ++ l2) s s2.
Proof.
  intros [P1 T1 S1 O1] [P2 T2 S2 O2]. split.
  - by etrans.
  - unfold term_puts in *. by rewrite foldl_app.
  - rewrite S2, S1, (pr_uart _ _ P1), fmap_app, join_app, <- app_assoc. destruct (uart s); done.
  - intros i Hi. by rewrite O2, O1.
Qed.

(** The states in which printing works: nobody has panicked. *)
Definition printable (t : term) (s : con_st D) : Prop := panicked s = false /\ term_shown t s.

Lemma prints_printable t l s s' : prints t l s s' -> panicked s = false -> printable (term_puts l t) s'.
Proof. intros [P T _ _] Hp. split; [|done]. by rewrite (pr_panicked _ _ P). Qed.

(** A transfer on the serial line leaves the screen alone. *)
Lemma term_shown_dev t s s' : term_shown t s -> crt s' = crt s -> pc_reg (pcof s') = pc_reg (pcof s) -> term_shown t s'.
Proof. intros [] Hc Hr. split; try done; by rewrite ?Hr, ?Hc. Qed.

Definition wired (l : list Z) (s s' : con_st D) : Prop :=
  printed s s' /\ crt s' = crt s /\ pc_reg (pcof s') = pc_reg (pcof s) /\
  pc_sent (pcof s') = pc_sent (pcof s) ++ (if uart s then l else []).

Lemma wp_uartputc_wired c s : wp (uartputc c) (fun _ s' => wired [u8 c] s s') s.
Proof. eapply wp_mono; [apply wp_uartputc|]. intros [] s' (P & C & E). unfold wired. rewrite E. done. Qed.

Lemma wired_app l1 l2 s s1 s2 : wired l1 s s1 -> wired l2 s1 s2 -> wired (l1 ++ l2) s s2.
Proof.
  intros (P1 & C1 & R1 & S1) (P2 & C2 & R2 & S2). split_and!; [by etrans|congruence|congruence|].
  rewrite S2, S1, (pr_uart _ _ P1). destruct (uart s); by rewrite <- app_assoc.
Qed.

Lemma wp_wire c s : wp (if c =? BACKSPACE then uartputc 8 ;; uartputc 32 ;; uartputc 8 else uartputc c)
  (fun _ s' => wired (wire c) s s') s.
Proof.
  unfold wire. destruct (c =? BACKSPACE); [|apply wp_uartputc_wired].
  eapply wp_seq; [apply wp_uartputc_wired|]. intros [] s1 H1. eapply wp_seq; [apply wp_uartputc_wired|]. intros [] s2 H2.
  eapply wp_mono; [apply wp_uartputc_wired|]. intros [] s3 H3.
  apply (wired_app [8] [32; 8] s s1); [done|]. by apply (wired_app [32] [8] s1 s2).
Qed.

Lemma wp_consputc c t s : printable t s -> wp (consputc c) (fun _ s' => prints t [c] s s') s.
Proof.
  intros [Hp Ht]. unfold consputc. apply wp_bind, wp_gets. rewrite Hp.
  eapply wp_seq; [apply wp_wire|]. intros [] s1 (P1 & C1 & R1 & S1).
  eapply wp_mono; [apply (wp_cgaputc c t); by eapply term_shown_dev|]. intros [] s2 (P2 & T2 & S2 & O2). split.
  - by etrans.
  - done.
  - simpl. by rewrite app_nil_r, S2.
  - intros i Hi. by rewrite O2, C1.
Qed.

Lemma wp_consputs l : forall t s, printable t s -> wp (consputs l) (fun _ s' => prints t l s s') s.
Proof.
  induction l as [|c l IH]; intros t s Hp; simpl; [apply wp_ret, prints_nil, Hp|].
  eapply wp_seq; [by apply wp_consputc|]. intros [] s1 H1. eapply wp_mono; [apply IH, (prints_printable _ _ _ _ H1), Hp|].
  intros [] s2 H2. by apply (prints_app t [c] l s s1).
Qed.

(** The characters of a formatted text, [None] when an argument is missing. *)
Fixpoint format (fmt : list Z) (args : list carg) : option (list Z) :=
  match fmt with
  | [] => Some []
  | c :: fmt =>
      if negb (c =? 37) then (c ::.) <$> format fmt args
      else
        match fmt with
        | [] => Some []
        | c :: fmt =>
            if c =? 100 then
              match args with AInt z :: args => (rev (printint_buf (s32 z) 10 true) ++.) <$> format fmt args | _ => None end
            else if (c =? 120) || (c =? 112) then
              match args with AInt z :: args => (rev (printint_buf (s32 z) 16 false) ++.) <$> format fmt args | _ => None end
            else if c =? 115 then
              match args with AStr o :: args => (map s8 (default (chars "(null)") o) ++.) <$> format fmt args | _ => None end
            else if c =? 37 then (37 ::.) <$> format fmt args
            else (fun l => 37 :: c :: l) <$> format fmt args
        end
  end.

Lemma wp_print_seq (m k : M (con_st D) unit) l1 l2 t s : printable t s -> wp m (fun _ s1 => prints t l1 s s1) s ->
  (forall s1, printable (term_puts l1 t) s1 -> wp k (fun _ s2 => prints (term_puts l1 t) l2 s1 s2) s1) ->
  wp (m ;; k) (fun _ s2 => prints t (l1 ++ l2) s s2) s.
Proof.
  intros Hp Hm Hk. eapply wp_seq; [exact Hm|]. intros [] s1 H1.
  eapply wp_mono; [apply Hk, (prints_printable _ _ _ _ H1), Hp|]. intros [] s2 H2. by eapply prints_app.
Qed.

Lemma wp_cprintf_loop n : forall fmt args l t s, (length fmt <= n)%nat -> format fmt args = Some l -> printable t s ->
  wp (cprintf_loop fmt args) (fun _ s' => prints t l s s') s.
Proof.
  induction n as [|n IH]; intros [|c fmt] args l t s Hn Hf Hp; cbn [format cprintf_loop length] in *; simplify_eq; try lia;
    try (apply wp_ret, prints_nil, Hp).
  destruct (c =? 37); cbn [negb] in *.
  2:{ apply fmap_Some in Hf as (l' & Hf & ->). apply (wp_print_seq _ _ [c] l'); [done|by apply wp_consputc|].
      intros s1 H1. apply IH; (done || lia). }
  destruct fmt as [|d fmt]; [injection Hf as <-; apply wp_ret, prints_nil, Hp|]. cbn [length] in Hn.
  assert (Hrest : forall (m : M (con_st D) unit) l1 args' (f : list Z -> list Z), (forall l', f l' = l1 ++ l') -> f <$> format fmt args' = Some l ->
    wp m (fun _ s1 => prints t l1 s s1) s -> wp (m ;; cprintf_loop fmt args') (fun _ s' => prints t l s s') s).
  { intros m l1 args' f Ef (l' & Hl' & ->)%fmap_Some Hm. rewrite Ef. apply wp_print_seq; [done..|].
    intros s1 H1. apply IH; (done || lia). }
  destruct (d =? 100); [|destruct ((d =? 120) || (d =? 112)); [|destruct (d =? 115)]].
  - destruct args as [|[z|o] args]; try done. by eapply Hrest; [|exact Hf|apply wp_consputs].
  - destruct args as [|[z|o] args]; try done. by eapply Hrest; [|exact Hf|apply wp_consputs].
  - destruct args as [|[z|o] args]; try done. by eapply Hrest; [|exact Hf|apply wp_consputs].
  - destruct (d =? 37); [by eapply (Hrest _ [37]); [|exact Hf|apply wp_consputc]|].
    apply fmap_Some in Hf as (l' & Hf & ->). apply (wp_print_seq _ _ [37] (d :: l')); [done|by apply wp_consputc|].
    intros s1 H1. apply (wp_print_seq _ _ [d] l'); [done|by apply wp_consputc|]. intros s2 H2. apply IH; (done || lia).
Qed.

(** ** Locks *)

Lemma with_sched_with x y f : with_sched x (with_sched y f) = with_sched x f.
Proof. done. Qed.

Lemma wp_con_sched (m : M sched_st unit) (R : sched_st -> Prop) s : wp m (fun _ x => R x) (csched s) ->
  wp (lift cfs_lens (lift flog_lens (lift lbio_lens (lift bsched_lens m)))) (fun _ s' => exists x, R x /\ s' = set_cfs (with_sched x (cfs s)) s) s.
Proof.
  intros Hm. apply wp_lift, wp_lift, wp_lift, wp_lift. eapply wp_mono; [exact Hm|]. intros [] x Hx. exists x. done.
Qed.

Lemma wp_con_acquire ie L l s : locked_by ie L (csched s) -> l ∉ L -> (length L < 1000)%nat ->
  wp (con_acquire l) (fun _ s' => exists x, (locked_by ie (l :: L) x /\ same_procs (csched s) x) /\ s' = set_cfs (with_sched x (cfs s)) s) s.
Proof. intros HL Hl Hlen. apply (wp_con_sched (Sched.acquire l)). apply wp_acquire; (done || lia). Qed.

Lemma wp_con_release ie L l s : locked_by ie (l :: L) (csched s) ->
  wp (con_release l) (fun _ s' => exists x, (locked_by ie L x /\ same_procs (csched s) x) /\ s' = set_cfs (with_sched x (cfs s)) s) s.
Proof. intros HL. apply (wp_con_sched (Sched.release l)). by apply wp_release_hd. Qed.

Lemma printed_sched x s : same_procs (csched s) x -> (forall ie L, locked_by ie L (csched s) -> locked_by ie L x) ->
  printed s (set_cfs (with_sched x (cfs s)) s).
Proof. intros Hx HL. split; try done. exists (pdev (cplat s)). by destruct s as [? []]. Qed.

(** The states in which [cprintf] works: if it locks, the lock is free. *)
Definition may_print (t : term) (s : con_st D) : Prop :=
  printable t s /\ (locking s = true -> exists ie L, locked_by ie L (csched s) /\ Lcons ∉ L /\ (length L < 1000)%nat).

Lemma prints_may_print t l s s' : may_print t s -> prints t l s s' -> may_print (term_puts l t) s'.
Proof.
  intros [Hp Hl] H1. split; [eapply prints_printable; [done|apply Hp]|]. rewrite (pr_locking _ _ (po_printed _ _ _ _ H1)).
  intros E. destruct (Hl E) as (ie & L & HL & Hn). exists ie, L. split; [|done]. by apply (pr_locks _ _ (po_printed _ _ _ _ H1)).
Qed.

Lemma wp_cprintf fmt args l t s : format fmt args = Some l -> may_print t s ->
  wp (cprintf (Some fmt) args) (fun _ s' => prints t l s s') s.
Proof.
  intros Hf [Hp Hlock]. unfold cprintf. apply wp_bind, wp_gets. destruct (locking s) eqn:El.
  2:{ apply wp_bind, wp_ret. eapply wp_seq; [by apply (wp_cprintf_loop (length fmt))|]. intros [] s' Hs'. by apply wp_ret. }
  destruct (Hlock eq_refl) as (ie & L & HL & Hn & Hlen).
  eapply wp_seq; [by apply (wp_con_acquire ie L)|]. intros [] s1 (x & [HL1 Hx1] & ->).
  set (s1 := set_cfs _ _). assert (Hp1 : printable t s1).
  { destruct Hp as [Hp Ht]. split; [done|]. by eapply term_shown_dev. }
  eapply wp_seq; [by apply (wp_cprintf_loop (length fmt) fmt args l t s1)|]. intros [] s2 [P T S O].
  eapply wp_mono; [apply (wp_con_release ie L); by apply (pr_locks _ _ P)|]. intros [] s3 (y & [HL3 Hx3] & ->).
  assert (Hsp : same_procs (csched s) y) by (eapply same_procs_trans; [exact Hx1|]; eapply same_procs_trans; [apply P|done]).
  split; [|by eapply term_shown_dev|done|done]. destruct P as [F P LK PD ? ? ? ? ? ? ?]. split; try done.
  - simpl. by rewrite F.
  - intros ie' L' HL'. destruct (lockstate_unique ie L ie' L' _ HL HL') as [Hperm ->]. by apply (lockstate_perm ie L).
Qed.

Lemma wp_dump_pcs pcs : forall t s, may_print t s -> wp (dump_pcs pcs) (fun _ s' => exists l, prints t l s s') s.
Proof.
  induction pcs as [|pc pcs IH]; intros t s Hp; simpl; [apply wp_ret; exists []; apply prints_nil, Hp|].
  destruct (pc =? 0); [apply wp_ret; exists []; apply prints_nil, Hp|].
  eapply wp_seq; [by eapply wp_cprintf|]. intros [] s1 Ha. eapply wp_mono; [by eapply IH, prints_may_print|].
  intros [] s2 [l Hb]. eexists. by eapply prints_app.
Qed.

Lemma wp_procdump_loop ps : forall t s, may_print t s -> wp (procdump_loop ps) (fun _ s' => exists l, prints t l s s') s.
Proof.
  induction ps as [|p ps IH]; intros t s Hp; cbn [procdump_loop]; [apply wp_ret; exists []; apply prints_nil, Hp|].
  apply (wp_seq _ _ _ (fun _ s' => exists l, prints t l s s')).
  2:{ intros [] s1 [l1 Ha]. eapply wp_mono; [by eapply IH, prints_may_print|]. intros [] s2 [l2 Hb]. eexists. by eapply prints_app. }
  case_bool_decide; [apply wp_ret; exists []; apply prints_nil, Hp|].
  eapply wp_seq; [by eapply wp_cprintf|]. intros [] s1 Ha. pose proof (prints_may_print _ _ _ _ Hp Ha) as Hp1.
  match type of Hp1 with may_print ?t1 _ => apply (wp_seq _ _ _ (fun _ s' => exists l, prints t1 l s1 s')) end.
  { case_bool_decide; [apply wp_bind, wp_gets; by apply wp_dump_pcs|]. apply wp_ret. exists []. apply prints_nil, Hp1. }
  intros [] s2 [l2 Hb]. eapply wp_mono; [eapply wp_cprintf; [done|by eapply prints_may_print]|]. intros [] s3 Hc.
  eexists. eapply prints_app; [done|]. by eapply prints_app.
Qed.

Lemma wp_procdump t s : may_print t s -> wp procdump (fun _ s' => exists l, prints t l s s') s.
Proof. intros Hp. apply wp_bind, wp_gets. by apply wp_procdump_loop. Qed.
End output.

(** ** A text on the screen *)

Definition attr (c : Z) : Z := Z.lor (Z.land c 0xff) 0x0700.

Lemma term_put_char c t : c <> 10 -> c <> BACKSPACE -> (S (tcur t) < rows * cols)%nat -> term_put c t =
  Term (<[S (tcur t) := attr 32]> (<[tcur t := attr c]> (tcells t))) (S (tcur t)).
Proof.
  intros H1 H2 Hc. unfold term_put. replace (c =? 10) with false by lia. replace (c =? BACKSPACE) with false by lia.
  by replace (rows * cols <=? S (tcur t))%nat with false by (symmetry; by apply Nat.leb_gt).
Qed.

(** A text without new lines that fits in front of the end of the screen
    appears at the cursor, and a blank behind it. *)
Lemma term_puts_text w : forall t, Forall (fun c => c <> 10 /\ c <> BACKSPACE) w -> (tcur t + length w < rows * cols)%nat ->
  length (tcells t) = (rows * cols)%nat -> tcur (term_puts w t) = (tcur t + length w)%nat /\
  forall i, tcells (term_puts w t) !! i =
    if decide (i < tcur t \/ tcur t + length w < i)%nat then tcells t !! i
    else match w !! (i - tcur t)%nat with Some c => Some (attr c) | None => if decide (w = []) then tcells t !! i else Some (attr 32) end.
Proof.
  induction w as [|c w IH]; intros t Hw Hf Hl.
  { split; [simpl; lia|]. intros i. simpl. by case_decide. }
  apply Forall_cons in Hw as [[H1 H2] Hw]. simpl length in *.
  change (term_puts (c :: w) t) with (term_puts w (term_put c t)). rewrite term_put_char by (done || lia).
  destruct (IH (Term (<[S (tcur t) := attr 32]> (<[tcur t := attr c]> (tcells t))) (S (tcur t)))) as [IHc IHl]; cbn [tcur tcells]; [done|lia|by rewrite !length_insert|].
  split; [rewrite IHc; simpl; lia|]. intros i. rewrite IHl. clear IHc IHl. cbn [tcells tcur].
  destruct (decide (i < tcur t)%nat).
  { rewrite !decide_True by lia. by rewrite !list_lookup_insert_ne by lia. }
  destruct (decide (i = tcur t)) as [->|].
  { rewrite decide_True by lia. rewrite decide_False by lia. rewrite Nat.sub_diag. simpl.
    rewrite list_lookup_insert_ne by lia. by rewrite list_lookup_insert_eq by lia. }
  destruct (decide (tcur t + S (length w) < i)%nat).
  { rewrite !decide_True by lia. by rewrite !list_lookup_insert_ne by lia. }
  rewrite !(decide_False (P := (_ < _)%nat \/ _)) by lia. replace (i - tcur t)%nat with (S (i - S (tcur t))) by lia.
  change ((c :: w) !! S (i - S (tcur t))) with (w !! (i - S (tcur t))%nat). rewrite (decide_False (P := c :: w = [])) by done.
  destruct (w !! (i - S (tcur t))%nat) eqn:E; [done|]. case_decide; [|done]. subst w. simpl in *.
  replace i with (S (tcur t)) by lia. by rewrite list_lookup_insert_eq by (rewrite length_insert; lia).
Qed.

(** ** Numbers *)

(** The value of digits, the lowest first, and of a printed number. *)
Definition digit_val (c : Z) : Z := if c <? 58 then c - 48 else c - 87.
Definition digits_val (base : Z) (l : list Z) : Z := foldr (fun c acc => digit_val c + base * acc) 0 l.
Definition parse_int (base : Z) (l : list Z) : Z :=
  match l with
  | [] => 0
  | c :: l' => if c =? 45 then - digits_val base (rev l') else digits_val base (rev l)
  end.

Definition is_digit (base c : Z) : Prop := 0 <= digit_val c < base /\ 48 <= c.

Lemma digit_char d : 0 <= d < 16 -> let c := default 0 (chars "0123456789abcdef" !! Z.to_nat d) in digit_val c = d /\ 48 <= c.
Proof.
  intros Hd. assert (Hc : d = 0 \/ d = 1 \/ d = 2 \/ d = 3 \/ d = 4 \/ d = 5 \/ d = 6 \/ d = 7 \/ d = 8 \/ d = 9 \/
    d = 10 \/ d = 11 \/ d = 12 \/ d = 13 \/ d = 14 \/ d = 15) by lia.
  repeat destruct Hc as [->|Hc]; try subst; by vm_compute.
Qed.

Lemma digits_loop_spec base : 2 <= base <= 16 -> forall fuel x, 0 <= x < base ^ Z.of_nat fuel ->
  digits_val base (digits_loop fuel x base) = x /\ Forall (is_digit base) (digits_loop fuel x base).
Proof.
  intros Hb. induction fuel as [|fuel IH]; intros x Hx; [simpl in Hx; split; [simpl; lia|constructor]|].
  cbn [digits_loop]. rewrite Nat2Z.inj_succ, Z.pow_succ_r in Hx by lia.
  pose proof (Z.mod_pos_bound x base ltac:(lia)) as Hm. destruct (digit_char (x mod base)) as [Hv Hc]; [lia|].
  pose proof (Z.div_mod x base ltac:(lia)) as Hdm.
  assert (Hd : is_digit base (default 0 (chars "0123456789abcdef" !! Z.to_nat (x mod base)))) by (unfold is_digit; rewrite Hv; lia).
  destruct (Z.eqb_spec (x / base) 0) as [E|E]; cbn [digits_val foldr].
  - rewrite Hv. split; [lia|by apply Forall_singleton].
  - destruct (IH (x / base)) as [IHv IHd].
    { split; [apply Z.div_pos; lia|]. apply Z.div_lt_upper_bound; lia. }
    split; [|by constructor]. fold (digits_val base (digits_loop fuel (x / base) base)). rewrite Hv, IHv. lia.
Qed.

Lemma digits_loop_length base : 2 <= base -> forall k fuel x, 0 <= x < base ^ Z.of_nat k -> (length (digits_loop fuel x base) <= Nat.max 1 k)%nat.
Proof.
  intros Hb. induction k as [|k IH]; intros [|fuel] x Hx; cbn [digits_loop length]; try lia.
  - simpl in Hx. replace x with 0 by lia. rewrite Z.div_0_l by lia. simpl. lia.
  - rewrite Nat2Z.inj_succ, Z.pow_succ_r in Hx by lia. destruct (Z.eqb_spec (x / base) 0); [simpl; lia|].
    assert (Hd : 0 <= x / base < base ^ Z.of_nat k).
    { split; [apply Z.div_pos; lia|]. apply Z.div_lt_upper_bound; lia. }
    destruct k as [|k]; [simpl in Hd; lia|]. pose proof (IH fuel (x / base) Hd). lia.
Qed.

Lemma parse_digits base l : Forall (is_digit base) l -> parse_int base (rev l) = digits_val base l.
Proof.
  intros Hl. unfold parse_int. destruct (rev l) as [|c l'] eqn:E.
  - apply (f_equal (@rev Z)) in E. rewrite rev_involutive in E. by subst l.
  - assert (Hc : is_digit base c).
    { rewrite Forall_forall in Hl. apply Hl. apply list_elem_of_In, in_rev. rewrite E. by left. }
    destruct Hc as [_ Hc]. replace (c =? 45) with false by lia. by rewrite <- E, rev_involutive.
Qed.


