(* ===== verification/ConsoleIn.v ===== *)
(** * What the console reads

    The input buffer as a line discipline: a queue of finished lines and the
    line being typed.  [consoleintr] edits the line and moves it to the queue,
    [consoleread] hands out the queue a line at a time; a line typed on the
    serial line or the keyboard is what a process reads.  The device functions
    with the locking of the inode around them. *)

From S2P Require Import Prelude Params Spinlock Sched Bio Log Fs Io Console ConsoleOut.

(** ** The inode of the device *)

Definition fsched (f : fs_st) : sched_st := bsched (lbio (flog f)).

Lemma wp_fs_sched (m : M sched_st unit) (R : sched_st -> Prop) f : wp m (fun _ x => R x) (fsched f) ->
  wp (lift flog_lens (lift lbio_lens (lift bsched_lens m))) (fun _ f' => exists x, R x /\ f' = with_sched x f) f.
Proof. intros Hm. apply wp_lift, wp_lift, wp_lift. eapply wp_mono; [exact Hm|]. intros [] x Hx. exists x. done. Qed.

(** [iunlock] of a locked inode, and [ilock] of a valid one that is not locked. *)
Lemma wp_iunlock_valid ie ip f : locked_by ie [] (fsched f) -> has (i_flags (icache f ip)) I_BUSY = true -> 1 <= i_ref (icache f ip) ->
  wp (iunlock ip) (fun _ f' => exists x, (locked_by ie [] x /\ wakes (fsched f) x) /\
    f' = set_icache (alter (fun i => set_i_flags (clear_flag (i_flags i) I_BUSY) i) ip (icache f)) (with_sched x f)) f.
Proof.
  intros HL Hb Hr. unfold iunlock. apply wp_bind, wp_gets. rewrite Hb. replace (i_ref (icache f ip) <? 1) with false by lia. simpl.
  eapply wp_seq; [apply (wp_fs_sched (Sched.acquire Licache)), (wp_acquire_quiet ie (fsched f)); by split|].
  intros [] f1 (x1 & [HL1 W1] & ->). apply wp_bind, wp_modify.
  eapply wp_seq; [apply (wp_fs_sched (Sched.wakeup (CInode ip))), (wp_wakeup_quiet ie (fsched f) Licache); done|].
  intros [] f2 (x2 & [HL2 W2] & ->).
  eapply wp_mono; [apply (wp_fs_sched (Sched.release Licache)), (wp_release_quiet ie (fsched f)); done|].
  intros [] f3 (x3 & [HL3 W3] & ->). exists x3. done.
Qed.

Lemma wp_ilock_valid ie ip f : locked_by ie [] (fsched f) -> has (i_flags (icache f ip)) I_BUSY = false -> 1 <= i_ref (icache f ip) ->
  has (i_flags (icache f ip)) I_VALID = true ->
  wp (ilock ip) (fun _ f' => exists x, (locked_by ie [] x /\ wakes (fsched f) x) /\
    f' = set_icache (alter (fun i => set_i_flags (set_flag (i_flags i) I_BUSY) i) ip (icache f)) (with_sched x f)) f.
Proof.
  intros HL Hb Hr Hv. unfold ilock. apply wp_bind, wp_gets. replace (i_ref (icache f ip) <? 1) with false by lia.
  eapply wp_seq; [apply (wp_fs_sched (Sched.acquire Licache)), (wp_acquire_quiet ie (fsched f)); by split|].
  intros [] f1 (x1 & [HL1 W1] & ->). apply wp_bind, wp_gets. simpl. rewrite Hb. apply wp_bind, wp_ret, wp_bind, wp_modify.
  eapply wp_seq; [apply (wp_fs_sched (Sched.release Licache)), (wp_release_quiet ie (fsched f)); done|].
  intros [] f3 (x3 & [HL3 W3] & ->). apply wp_bind, wp_gets. simpl. rewrite fn_lookup_alter. simpl.
  rewrite has_set_other, Hv by done. simpl. apply wp_ret. exists x3. done.
Qed.

(** The inode [ip] of a file that is open and locked. *)
Definition open_locked (ip : nat) (f : fs_st) : Prop :=
  has (i_flags (icache f ip)) I_BUSY = true /\ has (i_flags (icache f ip)) I_VALID = true /\ 1 <= i_ref (icache f ip).

Definition open_unlocked (ip : nat) (f : fs_st) : Prop :=
  has (i_flags (icache f ip)) I_BUSY = false /\ has (i_flags (icache f ip)) I_VALID = true /\ 1 <= i_ref (icache f ip).

Section devfun.
Context `{PcPorts D}.
Implicit Types (s : con_st D).

(** Only the inodes and the state of the scheduler have changed. *)
Definition only_fs ie (s s' : con_st D) : Prop :=
  (exists x ic, s' = set_cfs (set_icache ic (with_sched x (cfs s))) s) /\ locked_by ie [] (csched s') /\ wakes (csched s) (csched s').

Lemma wp_con_iunlock ie ip s : locked_by ie [] (csched s) -> open_locked ip (cfs s) ->
  wp (lift cfs_lens (iunlock ip)) (fun _ s' => only_fs ie s s' /\ open_unlocked ip (cfs s')) s.
Proof.
  intros HL (Hb & Hv & Hr). apply wp_lift. eapply wp_mono; [by apply (wp_iunlock_valid ie ip (cfs s))|].
  intros [] f' (x & [HLx Wx] & ->). split; [split; [by do 2 eexists|done]|].
  unfold open_unlocked. simpl. rewrite fn_lookup_alter. simpl. by rewrite has_clear_same, has_clear_other.
Qed.

Lemma wp_con_ilock ie ip s : locked_by ie [] (csched s) -> open_unlocked ip (cfs s) ->
  wp (lift cfs_lens (ilock ip)) (fun _ s' => only_fs ie s s' /\ open_locked ip (cfs s')) s.
Proof.
  intros HL (Hb & Hv & Hr). apply wp_lift. eapply wp_mono; [by apply (wp_ilock_valid ie ip (cfs s))|].
  intros [] f' (x & [HLx Wx] & ->). split; [split; [by do 2 eexists|done]|].
  unfold open_locked. simpl. rewrite fn_lookup_alter. simpl. by rewrite has_set_same, has_set_other.
Qed.

Lemma wire_bytes buf : mjoin (wire <$> (u8 <$> buf)) = u8 <$> buf.
Proof.
  induction buf as [|b buf IH]; [done|]. rewrite !fmap_cons.
  change (mjoin (wire (u8 b) :: (wire <$> (u8 <$> buf)))) with (wire (u8 b) ++ mjoin (wire <$> (u8 <$> buf))). rewrite IH. unfold wire.
  replace (u8 b =? BACKSPACE) with false by (unfold BACKSPACE; zlia). simpl. f_equal. zlia.
Qed.

(** C38 [consolewrite] puts every byte on the serial line and on the screen:
    the terminal that the screen shows is the one before with the bytes written
    to it, no memory beyond the screen changes, and the inode is locked again. *)
Theorem consolewrite_shows ie ip buf t s : locked_by ie [] (csched s) -> open_locked ip (cfs s) -> printable t s ->
  wp (consolewrite ip buf) (fun r s' => r = Z.of_nat (length buf) /\
    term_shown (term_puts (u8 <$> buf) t) s' /\
    pc_sent (pcof s') = pc_sent (pcof s) ++ (if uart s then u8 <$> buf else []) /\
    only_screen (crt s) (crt s') /\ input s' = input s /\ wakes (csched s) (csched s') /\
    open_locked ip (cfs s') /\ locked_by ie [] (csched s')) s.
Proof.
  intros HL Ho [Hp Ht]. unfold consolewrite. wp_call (wp_con_iunlock ie ip); [done..|].
  intros [] s1 [((x & ic & ->) & HL1 & W1) Ho1].
  eapply wp_seq; [apply (wp_con_acquire ie []); [done|set_solver|simpl; lia]|]. intros [] s2 (y & [HL2 P2] & ->).
  set (s2 := set_cfs _ _). eapply wp_seq; [apply (wp_consputs _ t s2); split; [done|by eapply term_shown_dev]|].
  replace ((fun b => Z.land b 0xff) <$> buf) with (u8 <$> buf).
  2:{ apply list_fmap_ext. intros i b _. unfold u8. change 0xff with (Z.ones 8). by rewrite Z.land_ones by lia. }
  intros [] s3 [P3 T3 S3 O3].
  eapply wp_seq; [apply (wp_con_release ie []); by apply (pr_locks _ _ P3)|]. intros [] s4 (z & [HL4 P4] & ->).
  set (s4 := set_cfs _ _). assert (Ho4 : open_unlocked ip (cfs s4)).
  { unfold open_unlocked in *. simpl. by rewrite (pr_fs _ _ P3). }
  wp_call (wp_con_ilock ie ip s4); [done..|]. intros [] s5 [((w & ic5 & ->) & HL5 & W5) Ho5]. apply wp_ret.
  split; [done|]. split; [by eapply term_shown_dev; [exact T3|..]|]. split; [|split; [done|]].
  { simpl. unfold pcof in *. simpl in *. rewrite S3, wire_bytes. done. }
  split; [exact (pr_input _ _ P3)|]. split; [|done].
  etrans; [exact W1|]. etrans; [by apply wakes_same_procs|]. etrans; [apply wakes_same_procs, P3|].
  etrans; [by apply wakes_same_procs|]. exact W5.
Qed.
End devfun.

(** ** The input buffer *)

(** The buffer holds the finished input [q] and the line [l] being typed. *)
Record input_rep (q l : list Z) (i : input_buf) : Prop := {
  in_len : length (ibuf i) = Z.to_nat INPUT_BUF;
  in_r : is_u32 (ir i);
  in_w : iw i = u32 (ir i + Z.of_nat (length q));
  in_e : ie i = u32 (ir i + Z.of_nat (length (q ++ l)));
  in_room : Z.of_nat (length (q ++ l)) <= INPUT_BUF;
  in_bytes : forall k b, (q ++ l) !! k = Some b -> ibyte i (ir i + Z.of_nat k) = b }.

Lemma ibyte_wrap i k : ibyte i (u32 k) = ibyte i k.
Proof. unfold ibyte, INPUT_BUF. do 3 f_equal. zlia. Qed.

Lemma input_rep_empty i : length (ibuf i) = Z.to_nat INPUT_BUF -> is_u32 (ir i) -> iw i = ir i -> ie i = ir i -> input_rep [] [] i.
Proof. intros Hl Hr Hw He. split; try done; simpl; rewrite ?Z.add_0_r, ?u32_small by done; done. Qed.

(** Where the indices are. *)
Lemma input_indices q l i : input_rep q l i ->
  (ie i =? iw i) = bool_decide (l = []) /\ (ir i =? iw i) = bool_decide (q = []) /\
  u32 (ie i - ir i) = Z.of_nat (length (q ++ l)) /\
  (ie i =? u32 (ir i + INPUT_BUF)) = (Z.of_nat (length (q ++ l)) =? INPUT_BUF).
Proof.
  intros [_ Hr Hw He Hroom _]. rewrite Hw, He. rewrite length_app in *. unfold INPUT_BUF in *. split_and!.
  - case_bool_decide as E; [subst; simpl; apply Z.eqb_eq; do 2 f_equal; lia|]. destruct l; [done|]. simpl in *. zlia.
  - case_bool_decide as E; [subst; simpl; zlia|]. destruct q; [done|]. simpl in *. zlia.
  - zlia.
  - zlia.
Qed.

(** Putting a character at the end, taking it away, finishing the line, and
    reading the first character. *)
Lemma input_put q l i c : input_rep q l i -> Z.of_nat (length (q ++ l)) < INPUT_BUF ->
  input_rep q (l ++ [u8 c]) (put_input c i).
Proof.
  intros [Hl Hr Hw He Hroom Hb] Hlt. unfold put_input. rewrite He.
  split; simpl; [by rewrite length_insert|done|done|..]; rewrite app_assoc, ?length_app in *; simpl; [|lia|].
  - unfold INPUT_BUF in *. zlia.
  - intros k b Hk. unfold ibyte. simpl. unfold INPUT_BUF in *.
    apply lookup_snoc_Some in Hk as [[Hlk Hk]|[-> <-]].
    + rewrite list_lookup_insert_ne; [by apply Hb|]. rewrite length_app in Hlk. zlia.
    + rewrite length_app. replace (u32 (ir i + Z.of_nat (length q + length l)) mod 128)
        with ((ir i + Z.of_nat (length q + length l)) mod 128) by zlia.
      rewrite list_lookup_insert_eq; [done|]. rewrite Hl. zlia.
Qed.

Lemma input_unput q l i b : input_rep q (l ++ [b]) i -> input_rep q l (set_ie (u32 (ie i - 1)) i).
Proof.
  intros [Hl Hr Hw He Hroom Hb]. rewrite app_assoc in *. split; try done; simpl; rewrite ?length_app in *; simpl in *; [zlia|lia|].
  intros k c Hk. apply (Hb k c). by apply lookup_app_l_Some.
Qed.

Lemma input_commit q l i : input_rep q l i -> input_rep (q ++ l) [] (commit_input i).
Proof. intros [Hl Hr Hw He Hroom Hb]. split; simpl; rewrite ?app_nil_r; done. Qed.

Lemma input_get q l i b : input_rep (b :: q) l i ->
  ibyte i (ir i) = b /\ input_rep q l (Input (ibuf i) (u32 (ir i + 1)) (iw i) (ie i)).
Proof.
  intros [Hl Hr Hw He Hroom Hb]. split.
  - rewrite <- (Hb 0%nat b eq_refl). f_equal. lia.
  - split; simpl in *; try done; [apply u32_range|zlia|zlia|lia|].
    intros k c Hk. rewrite <- (Hb (S k) c Hk). unfold ibyte, INPUT_BUF. simpl. do 3 f_equal. zlia.
Qed.

(** ** Editing *)

(** What a character does to the finished input and the line. *)
Definition edit (c : Z) (ql : list Z * list Z) : list Z * list Z :=
  let '(q, l) := ql in
  if c =? CtrlP then (q, l)
  else if c =? CtrlU then (q, [])
  else if (c =? CtrlH) || (c =? 0x7f) then (q, take (pred (length l)) l)
  else if negb (c =? 0) && (Z.of_nat (length (q ++ l)) <? INPUT_BUF) then
    let c := if c =? 13 then 10 else c in
    let l := l ++ [u8 c] in
    if (c =? 10) || (c =? CtrlD) || (Z.of_nat (length (q ++ l)) =? INPUT_BUF) then (q ++ l, []) else (q, l)
  else (q, l).

(** What typing may change, apart from the input buffer. *)
Section typing.
Context `{PcPorts D}.
Implicit Types (s : con_st D).

Record kept (s s' : con_st D) : Prop := {
  kp_fs : cfs s' = with_sched (csched s') (cfs s);
  kp_wakes : wakes (csched s) (csched s');
  kp_locking : locking s' = locking s;
  kp_panicked : panicked s' = panicked s;
  kp_uart : uart s' = uart s;
  kp_shift : shift s' = shift s;
  kp_line : pc_line (pcof s') = pc_line (pcof s);
  kp_keys : pc_keys (pcof s') = pc_keys (pcof s);
  kp_screen : only_screen (crt s) (crt s') }.

#[export] Instance kept_refl : Reflexive kept.
Proof. intros s. split; try done. by destruct s as [[[[]]]]. Qed.
#[export] Instance kept_trans : Transitive kept.
Proof.
  intros s1 s2 s3 [F1 W1 ? ? ? ? ? ? O1] [F2 W2 ? ? ? ? ? ? O2]. split; try congruence.
  - by rewrite F2, F1.
  - by etrans.
  - intros i Hi. by rewrite O2, O1.
Qed.

Lemma prints_kept t l s s' : prints t l s s' -> kept s s'.
Proof. intros [[F P LK PD ? ? ? ? ? ? ?] _ _ O]. split; try done. by apply wakes_same_procs. Qed.

Lemma kept_input f s : kept s (set_input (f (input s)) s).
Proof. split; try done. by destruct s as [[[[]]]]. Qed.

(** A console at rest, with its lock held: what is typed and what the screen
    shows. *)
Definition console_ok en (q l : list Z) (s : con_st D) : Prop :=
  input_rep q l (input s) /\ locked_by en [Linput] (csched s) /\
  panicked s = false /\ exists t, term_shown t s.

Lemma console_may_print en q l t s : console_ok en q l s -> term_shown t s -> may_print t s.
Proof.
  intros (_ & HL & Hp & _) Ht. split; [by split|]. intros _. exists en, [Linput]. split; [done|]. split; [set_solver|simpl; lia].
Qed.

Lemma console_prints en q l t w s s' : console_ok en q l s -> prints t w s s' -> console_ok en q l s'.
Proof.
  intros (Hi & HL & Hp & _) [P T _ _]. split; [by rewrite (pr_input _ _ P)|]. split; [by apply (pr_locks _ _ P)|]. split; [by rewrite (pr_panicked _ _ P)|by eexists].
Qed.

(** [consputc] and [procdump] in such a state. *)
Lemma wp_echo en q l c s : console_ok en q l s -> wp (consputc c) (fun _ s' => console_ok en q l s' /\ kept s s') s.
Proof.
  intros Hok. pose proof Hok as (Hi & HL & Hp & t & Ht). eapply wp_mono; [by apply (wp_consputc c t)|].
  intros [] s' Hpr. split; [by eapply console_prints|by eapply prints_kept].
Qed.

Lemma console_input en q l q' l' i s : console_ok en q l s -> input_rep q' l' i -> console_ok en q' l' (set_input i s).
Proof. intros (_ & HL & Hp & t & Ht) Hi. split; [done|]. split; [done|]. split; [done|]. exists t. by eapply term_shown_dev. Qed.

(** The line being typed has no new line: Control-U erases all of it. *)
Definition one_line (l : list Z) : Prop := Forall (fun b => b <> 10) l.

Lemma wp_kill_line en q : forall l fuel s, console_ok en q l s -> one_line l -> (length l < fuel)%nat ->
  wp (kill_line fuel) (fun _ s' => console_ok en q [] s' /\ kept s s') s.
Proof.
  induction l as [|b l IH] using rev_ind; intros fuel s Hok Hn Hf; (destruct fuel as [|fuel]; [lia|]); cbn [kill_line];
    apply wp_bind, wp_gets; destruct (input_indices _ _ _ (proj1 Hok)) as (-> & _).
  { rewrite bool_decide_eq_true_2 by done. simpl. by apply wp_ret. }
  rewrite bool_decide_eq_false_2 by (by destruct l). cbn [negb andb]. pose proof (proj1 Hok) as Hi.
  apply Forall_app in Hn as [Hn [Hb _]%Forall_cons].
  assert (Eb : ibyte (input s) (u32 (ie (input s) - 1)) = b).
  { rewrite <- (in_bytes _ _ _ Hi (length (q ++ l)) b) by (rewrite app_assoc; apply list_lookup_middle; done).
    rewrite (in_e _ _ _ Hi), ibyte_wrap. unfold ibyte. do 3 f_equal. rewrite app_assoc, !length_app. simpl. unfold INPUT_BUF. zlia. }
  rewrite Eb. replace (b =? 10) with false by lia. cbn [negb]. apply wp_bind, wp_modify.
  pose proof (console_input _ _ _ _ _ _ _ Hok (input_unput _ _ _ _ Hi)) as H1.
  eapply wp_seq; [by apply (wp_echo en q l)|]. intros [] s2 [H2 K2].
  eapply wp_mono; [apply (IH fuel s2 H2 Hn); rewrite length_app in Hf; simpl in Hf; lia|]. intros [] s3 [H3 K3]. split; [done|].
  etrans; [by apply (kept_input (set_ie (u32 (ie (input s) - 1))))|]. by etrans.
Qed.

(** Nobody sleeps waiting for input. *)
Definition readers_awake (x : sched_st) : Prop := Forall (fun p => ~ (state p = SLEEPING /\ pchan p = CInput)) (procs x).

Lemma readers_awake_woken x y : woken CInput x y -> readers_awake y.
Proof.
  intros (E & _). unfold readers_awake. rewrite E. apply Forall_fmap, Forall_true. intros p [Hs Hc].
  unfold compose, wake in Hs, Hc. destruct (bool_decide (state p = SLEEPING)) eqn:E1; simpl in *;
    [apply bool_decide_eq_true in E1|by apply bool_decide_eq_false in E1].
  destruct (bool_decide (pchan p = CInput)) eqn:E2; simpl in *; [done|]. by apply bool_decide_eq_false in E2.
Qed.

Lemma readers_awake_wakes x y : wakes x y -> readers_awake x -> readers_awake y.
Proof.
  intros W. unfold readers_awake. generalize (wk_procs _ _ W). generalize (procs x) (procs y).
  induction 1 as [|p p' l l' Hp _ IH]; [done|]. intros [Ha Hl]%Forall_cons. constructor; [|by apply IH].
  intros [Hs Hc]. destruct Hp as [->|[_ ->]]; [by apply Ha|done].
Qed.

Lemma wp_con_wakeup en q l c s : console_ok en q l s ->
  wp (con_wakeup c) (fun _ s' => console_ok en q l s' /\ kept s s' /\ woken c (csched s) (csched s')) s.
Proof.
  intros (Hi & HL & Hp & t & Ht).
  eapply wp_mono; [apply (wp_con_sched (Sched.wakeup c)), (wp_wakeup en [Linput]); [done|set_solver|simpl; lia]|].
  intros [] s' (x & [HL' Hw] & ->). split; [|split; [|done]].
  - split; [done|]. split; [done|]. split; [done|]. exists t. by eapply term_shown_dev.
  - split; try done. by eapply wakes_woken.
Qed.

(** One character. *)
Definition typed en (c : Z) (q l : list Z) (s s' : con_st D) : Prop :=
  console_ok en (edit c (q, l)).1 (edit c (q, l)).2 s' /\ kept s s' /\ ((edit c (q, l)).1 <> q -> readers_awake (csched s')).

Lemma wp_put_char en q l d s : console_ok en q l s -> Z.of_nat (length (q ++ l)) < INPUT_BUF ->
  wp (upd_input (put_input d) ;; consputc d ;; i ← gets input;
      if (d =? 10) || (d =? CtrlD) || (ie i =? u32 (ir i + INPUT_BUF)) then upd_input commit_input ;; con_wakeup CInput else mret ())
    (fun _ s' => let l' := l ++ [u8 d] in
       if (d =? 10) || (d =? CtrlD) || (Z.of_nat (length (q ++ l')) =? INPUT_BUF)
       then console_ok en (q ++ l') [] s' /\ kept s s' /\ readers_awake (csched s')
       else console_ok en q l' s' /\ kept s s') s.
Proof.
  intros Hok Hroom. cbv zeta. apply wp_bind, wp_modify.
  pose proof (console_input _ _ _ _ _ _ _ Hok (input_put q l (input s) d (proj1 Hok) Hroom)) as H1.
  eapply wp_seq; [by apply (wp_echo en q (l ++ [u8 d]))|]. intros [] s2 [H2 K2]. apply wp_bind, wp_gets.
  assert (K : kept s s2) by (etrans; [by apply (kept_input (put_input d))|done]).
  destruct (input_indices _ _ _ (proj1 H2)) as (_ & _ & _ & ->).
  destruct (_ || _); [|by apply wp_ret]. apply wp_bind, wp_modify.
  pose proof (console_input _ _ _ _ _ _ _ H2 (input_commit _ _ _ (proj1 H2))) as H3.
  eapply wp_mono; [by apply (wp_con_wakeup en (q ++ l ++ [u8 d]) [])|]. intros [] s4 (H4 & K4 & W4).
  split; [done|]. split; [|by eapply readers_awake_woken]. etrans; [exact K|]. etrans; [by apply (kept_input commit_input)|done].
Qed.

Lemma wp_console_char en q l c s : console_ok en q l s -> one_line l -> is_u8 c ->
  wp (console_char c) (fun _ s' => typed en c q l s s' /\ one_line (edit c (q, l)).2) s.
Proof.
  intros Hok Hn Hc. unfold console_char, typed, edit. destruct (Z.eqb_spec c CtrlP).
  { pose proof Hok as (_ & _ & _ & t & Ht). eapply wp_mono; [eapply wp_procdump, console_may_print; done|].
    intros [] s' [w Hw]. split; [|done]. split; [by eapply console_prints|]. split; [by eapply prints_kept|done]. }
  destruct (Z.eqb_spec c CtrlU).
  { eapply wp_mono; [apply (wp_kill_line en q l); [done|done|]|].
    { pose proof (in_room _ _ _ (proj1 Hok)). rewrite length_app in *. unfold INPUT_BUF in *. lia. }
    intros [] s' [H1 K1]. split; [|by constructor]. by split. }
  destruct ((c =? CtrlH) || (c =? 0x7f)).
  { apply wp_bind, wp_gets. destruct (input_indices _ _ _ (proj1 Hok)) as (-> & _). case_bool_decide as El; simpl.
    - subst l. apply wp_ret. split; [by split|done].
    - destruct (exists_last El) as (l' & b & ->). rewrite length_app, Nat.add_comm. simpl. rewrite take_app_length.
      apply wp_bind, wp_modify. pose proof (console_input _ _ _ _ _ _ _ Hok (input_unput _ _ _ _ (proj1 Hok))) as H1.
      eapply wp_mono; [by apply (wp_echo en q l')|]. intros [] s2 [H2 K2]. apply Forall_app in Hn as [Hn _]. split; [|done].
      split; [done|]. split; [|done]. etrans; [by apply (kept_input (set_ie (u32 (ie (input s) - 1))))|done]. }
  apply wp_bind, wp_gets. destruct (input_indices _ _ _ (proj1 Hok)) as (_ & _ & -> & _).
  destruct (negb (c =? 0) && _) eqn:Eroom; [|by apply wp_ret].
  apply andb_true_iff in Eroom as [_ Hroom%Z.ltb_lt]. set (d := if c =? 13 then 10 else c).
  eapply wp_mono; [by apply (wp_put_char en q l d)|]. intros [] s'. cbv zeta.
  destruct (_ || _) eqn:Ecommit.
  - intros (H1 & K1 & R1). split; [|by constructor]. by split.
  - intros (H1 & K1). split; [by split|]. simpl. apply Forall_app. split; [done|]. constructor; [|done].
    rewrite !orb_false_iff in Ecommit. destruct Ecommit as [[E10 _] _].
    assert (u8 d = d) as -> by (unfold d in *; case_match; zlia). lia.
Qed.

(** ** Where characters come from *)

(** What fetching a character may change: the devices, but not the screen. *)
Record fetched (s s' : con_st D) : Prop := {
  ft_fs : cfs s' = cfs s;
  ft_locking : locking s' = locking s;
  ft_panicked : panicked s' = panicked s;
  ft_uart : uart s' = uart s;
  ft_crt : crt s' = crt s;
  ft_input : input s' = input s;
  ft_reg : pc_reg (pcof s') = pc_reg (pcof s) }.

(** A source has some characters to give, one at a time, and then none. *)
Class Source (getc : M (con_st D) Z) := {
  src : list Z -> con_st D -> Prop;
  src_nil : forall s, src [] s -> wp getc (fun c s' => c = -1 /\ fetched s s' /\ src [] s') s;
  src_cons : forall c cs s, src (c :: cs) s -> is_u8 c /\ wp getc (fun r s' => r = c /\ fetched s s' /\ src cs s') s;
  src_kept : forall cs s s', kept s s' -> src cs s -> src cs s' }.

Lemma console_fetched en q l s s' : console_ok en q l s -> fetched s s' -> console_ok en q l s'.
Proof.
  intros (Hi & HL & Hp & t & Ht) []. split; [by rewrite ft_input0|]. split; [unfold csched in *; by rewrite ft_fs0|].
  split; [by rewrite ft_panicked0|]. exists t. by eapply term_shown_dev.
Qed.

(** What serving an interrupt may change. *)
Record served (s s' : con_st D) : Prop := {
  sv_fs : cfs s' = with_sched (csched s') (cfs s);
  sv_wakes : wakes (csched s) (csched s');
  sv_locking : locking s' = locking s;
  sv_panicked : panicked s' = panicked s;
  sv_uart : uart s' = uart s;
  sv_screen : only_screen (crt s) (crt s') }.

#[export] Instance served_trans : Transitive served.
Proof.
  intros s1 s2 s3 [F1 W1 ? ? ? O1] [F2 W2 ? ? ? O2]. split; try congruence.
  - by rewrite F2, F1.
  - by etrans.
  - intros i Hi. by rewrite O2, O1.
Qed.
Lemma kept_served s s' : kept s s' -> served s s'.
Proof. by intros []. Qed.
Lemma fetched_served s s' : fetched s s' -> served s s'.
Proof.
  intros []. split; try done; [..|by intros i _; rewrite ft_crt0].
  - unfold csched. rewrite ft_fs0. by destruct (cfs s) as [[[]]].
  - unfold csched. by rewrite ft_fs0.
Qed.

(** The characters [cs], one after the other. *)
Definition edits (cs : list Z) (ql : list Z * list Z) : list Z * list Z := foldl (fun ql c => edit c ql) ql cs.

Lemma wp_consoleintr_loop en `{!Source getc} cs : forall q l fuel s, console_ok en q l s -> one_line l -> src cs s ->
  (length cs < fuel)%nat ->
  wp (consoleintr_loop fuel getc) (fun _ s' => console_ok en (edits cs (q, l)).1 (edits cs (q, l)).2 s' /\
    one_line (edits cs (q, l)).2 /\ src [] s' /\ served s s' /\ ((edits cs (q, l)).1 <> q -> readers_awake (csched s'))) s.
Proof.
  induction cs as [|c cs IH]; intros q l fuel s Hok Hn Hs Hf; (destruct fuel as [|fuel]; [simpl in Hf; lia|]); cbn [consoleintr_loop].
  { eapply wp_seq; [by apply src_nil|]. intros c s' (-> & F & Hs'). apply wp_ret. split; [by eapply console_fetched|].
    split; [done|]. split; [done|]. split; [by apply fetched_served|done]. }
  destruct (src_cons c cs s Hs) as [Hc Hget]. eapply wp_seq; [exact Hget|]. intros r s1 (-> & F1 & Hs1).
  replace (0 <=? c) with true by (unfold is_u8 in Hc; lia).
  eapply wp_seq; [by apply (wp_console_char en q l); [eapply console_fetched|..]|]. intros [] s2 [(H2 & K2 & R2) Hn2].
  destruct (edit c (q, l)) as [q2 l2] eqn:Ee. simpl in H2, R2, Hn2.
  eapply wp_mono; [apply (IH q2 l2 fuel s2 H2 Hn2); [by eapply src_kept|simpl in Hf; lia]|].
  unfold edits. cbn [foldl]. rewrite Ee. fold (edits cs (q2, l2)). intros [] s3 (H3 & Hn3 & Hs3 & V3 & R3).
  split; [done|]. split; [done|]. split; [done|]. split; [etrans; [by apply fetched_served|]; etrans; [by apply kept_served|done]|].
  intros Hq. destruct (decide (q2 = q)) as [->|Hq2]; [by apply R3|]. eapply readers_awake_wakes; [apply V3|by apply R2].
Qed.

(** *** The serial line *)

#[export] Instance uart_source : Source uartgetc.
Proof.
  refine {| src cs s := uart s = true /\ pc_line (pcof s) = cs /\ Forall is_u8 cs |}.
  - intros s (Hu & Hl & _). unfold uartgetc. apply wp_bind, wp_gets. rewrite Hu. cbn [negb].
    apply wp_bind, wp_con_in. intros v d E. pose proof (pc_in_lsr (pdev (cplat s))) as Hr. rewrite E in Hr.
    destruct Hr as (Hv & Hd & Hb). change (pc (pdev (cplat s))) with (pcof s) in *. unfold u8. rewrite Z.mod_small by done.
    rewrite Hb, Hl. simpl. apply wp_ret. split; [done|]. split; [|split; [done|split; [|done]]].
    + split; try done. unfold pcof at 1. simpl. by rewrite Hd.
    + unfold pcof. simpl. by rewrite Hd.
  - intros c cs s (Hu & Hl & [Hc Hcs]%Forall_cons). split; [done|]. unfold uartgetc. apply wp_bind, wp_gets. rewrite Hu. cbn [negb].
    apply wp_bind, wp_con_in. intros v d E. pose proof (pc_in_lsr (pdev (cplat s))) as Hr. rewrite E in Hr.
    destruct Hr as (Hv & Hd & Hb). change (pc (pdev (cplat s))) with (pcof s) in *. unfold u8 at 1. rewrite Z.mod_small by done.
    rewrite Hb, Hl. simpl. apply wp_con_in. intros v' d' E'. simpl in E'.
    pose proof (pc_in_com d c cs) as Hr. rewrite Hd, Hl, E' in Hr. destruct (Hr eq_refl) as [-> Hd'].
    split; [by apply Z.mod_small|]. split; [|split; [done|split; [|done]]].
    + split; try done. unfold pcof at 1. simpl. by rewrite Hd'.
    + unfold pcof. simpl. by rewrite Hd'.
  - intros cs s s' [] (Hu & Hl & Hcs). split; [congruence|]. split; [congruence|done].
Defined.

(** *** The keyboard *)

(** The new modifiers and the character for a scan code. *)
Definition kbd_step (sh data : Z) : Z * Z :=
  if data =? 0xE0 then (Z.lor sh E0ESC, 0)
  else if has data 0x80 then
    let data := if has sh E0ESC then data else Z.land data 0x7F in
    (Z.land sh (Z.lnot (Z.lor (shiftcode data) E0ESC)), 0)
  else
    let '(data, sh) := if has sh E0ESC then (Z.lor data 0x80, Z.land sh (Z.lnot E0ESC)) else (data, sh) in
    let sh := Z.lxor (Z.lor sh (shiftcode data)) (togglecode data) in
    let c := charcode (Z.land sh (Z.lor CTL SHIFT)) data in
    (sh, if has sh CAPSLOCK then
           if (97 <=? c) && (c <=? 122) then c - 32 else if (65 <=? c) && (c <=? 90) then c + 32 else c
         else c).

Fixpoint kbd_decode (sh : Z) (keys : list Z) : list Z :=
  match keys with
  | [] => []
  | k :: keys => (kbd_step sh k).2 :: kbd_decode (kbd_step sh k).1 keys
  end.

Lemma table_u8 (l : list Z) at_ i : Forall is_u8 l -> Forall (fun kv => is_u8 kv.2) at_ -> is_u8 (table l at_ i).
Proof.
  intros Hl Ha. unfold table. destruct (list_find _ at_) as [[j kv]|] eqn:E.
  - apply list_find_Some in E as (E & _). rewrite Forall_lookup in Ha. by apply (Ha j).
  - destruct (l !! Z.to_nat i) as [x|] eqn:Ex; simpl; [|by vm_compute]. rewrite Forall_lookup in Hl. by apply (Hl (Z.to_nat i)).
Qed.

Lemma charcode_u8 i data : is_u8 (charcode i data).
Proof.
  unfold charcode, normalmap, shiftmap, ctlmap. repeat case_match; apply table_u8; by apply (bool_decide_unpack _); vm_compute.
Qed.

Lemma kbd_step_u8 sh data : is_u8 (kbd_step sh data).2.
Proof.
  unfold kbd_step. destruct (data =? 0xE0); [by vm_compute|]. destruct (has data 0x80); [by vm_compute|].
  destruct (if has sh E0ESC then _ else _) as [data' sh']. simpl.
  pose proof (charcode_u8 (Z.land (Z.lxor (Z.lor sh' (shiftcode data')) (togglecode data')) (Z.lor CTL SHIFT)) data') as Hc.
  unfold is_u8 in *. repeat case_match; lia.
Qed.

Lemma kbd_decode_u8 keys : forall sh, Forall is_u8 (kbd_decode sh keys).
Proof. induction keys as [|k keys IH]; intros sh; simpl; constructor; [apply kbd_step_u8|apply IH]. Qed.

Lemma wp_kbdgetc k keys s : pc_keys (pcof s) = k :: keys -> is_u8 k ->
  wp kbdgetc (fun c s' => c = (kbd_step (shift s) k).2 /\ shift s' = (kbd_step (shift s) k).1 /\ fetched s s' /\ pc_keys (pcof s') = keys) s.
Proof.
  intros Hk Hk8. unfold kbdgetc. apply wp_bind, wp_con_in. intros v d E. pose proof (pc_in_kbs (pdev (cplat s))) as Hr. rewrite E in Hr.
  destruct Hr as (Hv & Hd & Hb). change (pc (pdev (cplat s))) with (pcof s) in *. unfold u8. rewrite Z.mod_small by done.
  unfold has in Hb. rewrite Hk in Hb. destruct (Z.land v KBS_DIB =? 0); [done|].
  apply wp_bind, wp_con_in. intros v' d' E'. simpl in E'. pose proof (pc_in_kbd d k keys) as Hr. rewrite Hd, Hk, E' in Hr.
  destruct (Hr eq_refl) as [-> Hd']. unfold u8. rewrite Z.mod_small by done. apply wp_bind, wp_gets.
  change (shift (with_dev d' (with_dev d s))) with (shift s).
  assert (F : forall sh, fetched s (set_shift sh (with_dev d' (with_dev d s))) /\ pc_keys (pcof (set_shift sh (with_dev d' (with_dev d s)))) = keys).
  { intros sh. unfold pcof at 1. simpl. rewrite Hd'. split; [|done]. split; try done. unfold pcof at 1. simpl. by rewrite Hd'. }
  unfold kbd_step. destruct (k =? 0xE0); [apply wp_bind, wp_modify, wp_ret; split; [done|]; split; [done|]; apply F|].
  destruct (has k 0x80); [apply wp_bind, wp_modify, wp_ret; split; [done|]; split; [done|]; apply F|].
  destruct (if has (shift s) E0ESC then _ else _) as [data sh]. apply wp_bind, wp_modify, wp_ret.
  split; [|split; [done|apply F]]. simpl.
  pose proof (charcode_u8 (Z.land (Z.lxor (Z.lor sh (shiftcode data)) (togglecode data)) (Z.lor CTL SHIFT)) data) as Hc.
  unfold is_u8 in Hc. repeat case_match; zlia.
Qed.

#[export] Instance kbd_source : Source kbdgetc.
Proof.
  refine {| src cs s := kbd_decode (shift s) (pc_keys (pcof s)) = cs /\ Forall is_u8 (pc_keys (pcof s)) |}.
  - intros s [Hs _]. destruct (pc_keys (pcof s)) as [|k keys] eqn:Hk; [|done]. unfold kbdgetc.
    apply wp_bind, wp_con_in. intros v d E. pose proof (pc_in_kbs (pdev (cplat s))) as Hr. rewrite E in Hr.
    destruct Hr as (Hv & Hd & Hb). change (pc (pdev (cplat s))) with (pcof s) in *. unfold u8. rewrite Z.mod_small by done.
    unfold has in Hb. rewrite Hk in Hb. destruct (Z.land v KBS_DIB =? 0); [|done].
    assert (E1 : pcof (with_dev d s) = pcof s) by (unfold pcof at 1; simpl; by rewrite Hd).
    apply wp_ret. split; [done|]. split; [split; try done; by rewrite E1|]. rewrite E1, Hk. done.
  - intros c cs s [Hs Hk8]. destruct (pc_keys (pcof s)) as [|k keys] eqn:Hk; [done|]. simpl in Hs. injection Hs as <- <-.
    apply Forall_cons in Hk8 as [Hk1 Hk8]. split; [apply kbd_step_u8|].
    eapply wp_mono; [by apply wp_kbdgetc|]. intros r s' (-> & Hsh & F & Hk'). split; [done|]. split; [done|].
    rewrite Hsh, Hk'. done.
  - intros cs s s' [] [Hs Hk8]. rewrite kp_shift0, kp_keys0. done.
Defined.

(** ** Interrupts *)

(** The console between calls. *)
Definition console_idle en (q l : list Z) (s : con_st D) : Prop :=
  input_rep q l (input s) /\ one_line l /\ locked_by en [] (csched s) /\ panicked s = false /\ exists t, term_shown t s.

Lemma wp_consoleintr en `{!Source getc} cs q l fuel s : console_idle en q l s -> src cs s -> (length cs < fuel)%nat ->
  wp (consoleintr fuel getc) (fun _ s' => console_idle en (edits cs (q, l)).1 (edits cs (q, l)).2 s' /\ served s s' /\
    ((edits cs (q, l)).1 <> q -> readers_awake (csched s'))) s.
Proof.
  intros (Hi & Hn & HL & Hp & t & Ht) Hs Hf. unfold consoleintr.
  eapply wp_seq; [apply (wp_con_acquire en []); [done|set_solver|simpl; lia]|]. intros [] s1 (x & [HL1 P1] & ->).
  set (s1 := set_cfs _ s). assert (K1 : kept s s1).
  { split; try done. by apply wakes_same_procs. }
  assert (H1 : console_ok en q l s1) by (split; [done|]; split; [done|]; split; [done|]; exists t; by eapply term_shown_dev).
  eapply wp_seq; [apply (wp_consoleintr_loop en cs q l fuel s1 H1 Hn); [by eapply src_kept|done]|].
  intros [] s2 ((Hi2 & HL2 & Hp2 & t2 & Ht2) & Hn2 & _ & V2 & R2).
  eapply wp_mono; [apply (wp_con_release en [] Linput); done|]. intros [] s3 (y & [HL3 P3] & ->).
  split; [|split].
  - split; [done|]. split; [done|]. split; [done|]. split; [done|]. exists t2. by eapply term_shown_dev.
  - etrans; [by apply kept_served|]. etrans; [exact V2|]. split; try done. by apply wakes_same_procs.
  - intros Hq. eapply readers_awake_wakes; [by apply wakes_same_procs|]. by apply R2.
Qed.

(** ** Reading *)

(** The bytes that a read for [n] bytes takes from the finished input, and what
    it leaves; [None] if it has to wait.  [fresh]: nothing has been read yet. *)
Fixpoint read_line (fresh : bool) (n : nat) (q : list Z) : option (list Z * list Z) :=
  match n, q with
  | O, _ => Some ([], q)
  | S n, [] => None
  | S n, c :: q' =>
      if c =? CtrlD then Some ([], if fresh then q' else q)
      else if c =? 10 then Some ([c], q')
      else '(b, r) ← read_line false n q'; Some (c :: b, r)
  end.

Lemma wp_consoleread_loop en q : forall n target l b r s, console_ok en q l s ->
  read_line (Z.of_nat n =? target) n q = Some (b, r) -> Z.of_nat n <= target ->
  wp (consoleread_loop n target) (fun kml s' => kml = (false, Z.of_nat n - Z.of_nat (length b), b) /\
    console_ok en r l s' /\ exists i, s' = set_input i s) s.
Proof.
  induction q as [|c q IH]; intros [|n] target l b r s Hok Hr Ht; cbn [read_line consoleread_loop] in *; try done.
  - injection Hr as <- <-. apply wp_ret. split; [done|]. split; [done|]. exists (input s). by destruct s.
  - injection Hr as <- <-. apply wp_ret. split; [done|]. split; [done|]. exists (input s). by destruct s.
  - apply wp_bind, wp_gets. destruct (input_indices _ _ _ (proj1 Hok)) as (_ & -> & _). simpl.
    destruct (input_get _ _ _ _ (proj1 Hok)) as [-> Hget]. apply wp_bind, wp_modify.
    pose proof (console_input _ _ _ _ _ _ _ Hok Hget) as H1.
    destruct (c =? CtrlD) eqn:Ed.
    + destruct (Z.ltb_spec (Z.of_nat (S n)) target).
      * replace (Z.of_nat (S n) =? target) with false in Hr by lia. injection Hr as <- <-. rewrite Z.sub_0_r.
        apply wp_bind, wp_modify, wp_ret. split; [done|]. split; [|by eexists]. eapply console_input; [exact H1|].
        cbn [input set_input ibuf ir iw ie]. replace (u32 (u32 (ir (input s) + 1) - 1)) with (ir (input s)).
        -- replace (Input _ _ _ _) with (input s) by (by destruct (input s)). exact (proj1 Hok).
        -- pose proof (in_r _ _ _ (proj1 Hok)). zlia.
      * replace (Z.of_nat (S n) =? target) with true in Hr by lia. injection Hr as <- <-. rewrite Z.sub_0_r.
        apply wp_bind, wp_ret, wp_ret. split; [done|]. split; [done|by eexists].
    + destruct (c =? 10).
      * injection Hr as <- <-. apply wp_ret. split; [do 2 f_equal; simpl; lia|]. split; [done|by eexists].
      * destruct (read_line false n q) as [[b' r']|] eqn:Er; [|done]. injection Hr as <- <-.
        eapply wp_seq; [apply (IH n target l b' r' _ H1); [|lia]|].
        { by replace (Z.of_nat n =? target) with false by lia. }
        intros [[k m] b] s' (E & H2 & i & ->). injection E as -> -> ->. apply wp_ret. split; [do 2 f_equal; simpl; lia|]. split; [done|by eexists].
Qed.

Lemma read_line_length q : forall f n b r, read_line f n q = Some (b, r) -> (length b <= n)%nat.
Proof.
  induction q as [|c q IH]; intros f [|n] b r Hr; cbn [read_line] in Hr; try (injection Hr as <- <-; simpl; lia); [done|].
  destruct (c =? CtrlD); [injection Hr as <- <-; simpl; lia|]. destruct (c =? 10); [injection Hr as <- <-; simpl; lia|].
  destruct (read_line false n q) as [[b' r']|] eqn:E; [|done]. injection Hr as <- <-. apply IH in E. simpl. lia.
Qed.

Lemma wp_consoleread en ip n q l b r s : console_idle en q l s -> open_locked ip (cfs s) -> 0 <= n < 2147483648 ->
  read_line true (Z.to_nat n) q = Some (b, r) ->
  wp (consoleread ip n) (fun res s' => res = (Z.of_nat (length b), b) /\ console_idle en r l s' /\ open_locked ip (cfs s')) s.
Proof.
  intros (Hi & Hn & HL & Hp & t & Ht) Ho Hn0 Hr. unfold consoleread. wp_call (wp_con_iunlock en ip); [done..|].
  intros [] s1 [((x & ic & ->) & HL1 & W1) Ho1]. cbv zeta.
  eapply wp_seq; [apply (wp_con_acquire en []); [done|set_solver|simpl; lia]|]. intros [] s2 (y & [HL2 P2] & ->).
  set (s2 := set_cfs _ _).
  assert (H2 : console_ok en q l s2) by (split; [done|]; split; [done|]; split; [done|]; exists t; by eapply term_shown_dev).
  unfold u32. rewrite (Z.mod_small n) by lia.
  eapply wp_seq; [apply (wp_consoleread_loop en q (Z.to_nat n) n l b r s2 H2); [|lia]|].
  { by replace (Z.of_nat (Z.to_nat n) =? n) with true by lia. }
  intros [[k m] b'] s3 (E & H3 & i & ->). injection E as -> -> ->. pose proof (read_line_length _ _ _ _ _ Hr) as Hlen.
  destruct H3 as (Hi3 & HL3 & Hp3 & t3 & Ht3).
  eapply wp_seq; [apply (wp_con_release en [] Linput); done|]. intros [] s4 (z & [HL4 P4] & ->). set (s4 := set_cfs _ _).
  wp_call (wp_con_ilock en ip s4); [done..|]. intros [] s5 [((w & ic5 & ->) & HL5 & W5) Ho5]. apply wp_ret.
  split; [|split; [|done]].
  - f_equal. destruct (Z.ltb_spec 0 n); rewrite s32_small by (unfold is_s32; lia); lia.
  - split; [done|]. split; [done|]. split; [done|]. split; [done|]. exists t3. by eapply term_shown_dev.
Qed.

(** ** A line from the device to the process *)

(** Characters that are no editing characters. *)
Definition plain (c : Z) : Prop := is_u8 c /\ c ∉ [0; CtrlD; CtrlH; 10; 13; CtrlP; CtrlU; 0x7f].

Lemma edit_plain c q l : plain c -> Z.of_nat (length (q ++ l)) + 1 < INPUT_BUF -> edit c (q, l) = (q, l ++ [c]).
Proof.
  intros [Hc Hn] Hl. rewrite !not_elem_of_cons in Hn. destruct Hn as (N0 & ND & NH & N10 & N13 & NP & NU & N7 & _). unfold edit.
  replace (c =? CtrlP) with false by lia. replace (c =? CtrlU) with false by lia. replace ((c =? CtrlH) || (c =? 0x7f)) with false by lia.
  replace (c =? 0) with false by lia. replace (Z.of_nat (length (q ++ l)) <? INPUT_BUF) with true by lia. cbn [negb andb].
  replace (c =? 13) with false by lia. replace (u8 c) with c by zlia. rewrite app_assoc, (length_app (q ++ l)). simpl length.
  by replace ((c =? 10) || (c =? CtrlD) || _) with false by lia.
Qed.

Lemma edits_plain w : forall q l, Forall plain w -> Z.of_nat (length (q ++ l) + length w) < INPUT_BUF -> edits w (q, l) = (q, l ++ w).
Proof.
  induction w as [|c w IH]; intros q l Hw Hl; [by rewrite app_nil_r|]. apply Forall_cons in Hw as [Hc Hw]. simpl length in Hl.
  unfold edits. cbn [foldl]. rewrite edit_plain by (done || lia). fold (edits w (q, l ++ [c])).
  rewrite IH, <- app_assoc; [done|done|]. rewrite app_assoc, (length_app (q ++ l)). simpl. lia.
Qed.

Lemma edits_nonzero cs : forall ql, edits cs ql = edits (filter (fun c => c <> 0) cs) ql.
Proof.
  induction cs as [|c cs IH]; intros [q l]; [done|]. rewrite filter_cons. case_decide as E; unfold edits; cbn [foldl]; [apply IH|].
  assert (c = 0) as -> by lia. apply IH.
Qed.

Lemma edits_line line e q : Forall plain line -> e ∈ [10; 13] -> Z.of_nat (length (q ++ line)) < INPUT_BUF ->
  edits (line ++ [e]) (q, []) = (q ++ line ++ [10], []).
Proof.
  intros Hl He Hlen. unfold edits. rewrite foldl_app. fold (edits line (q, [])). rewrite edits_plain; [|done|rewrite app_nil_r, <- length_app; done].
  simpl app. cbn [foldl]. unfold edit. rewrite !elem_of_cons in He. destruct He as [->|[->|He]]; [..|by apply elem_of_nil in He];
    cbn -[Z.ltb length]; (replace (_ <? INPUT_BUF) with true by lia); done.
Qed.

Lemma read_line_whole line : forall f n, Forall plain line -> (length line < n)%nat -> read_line f n (line ++ [10]) = Some (line ++ [10], []).
Proof.
  induction line as [|c line IH]; intros f [|n] Hl Hn; simpl in Hn; try lia; [done|]. apply Forall_cons in Hl as [[Hc Hx] Hl].
  rewrite !not_elem_of_cons in Hx. destruct Hx as (_ & ND & _ & N10 & _). cbn [read_line app].
  replace (c =? CtrlD) with false by lia. replace (c =? 10) with false by lia. rewrite IH by (done || lia). done.
Qed.

(** C39 A line typed on the keyboard or arriving on the serial line, ended by
    Enter, is what the next read of the console returns, with a new line at its
    end; the interrupt leaves nobody asleep who waits for input, and nothing is
    left over. *)
Theorem typed_line_read en `{!Source getc} ip cs line e n fuel s :
  console_idle en [] [] s -> open_locked ip (cfs s) -> src cs s -> filter (fun c => c <> 0) cs = line ++ [e] -> e ∈ [10; 13] ->
  Forall plain line -> Z.of_nat (length line) < INPUT_BUF -> Z.of_nat (length line) < n < 2147483648 -> (length cs < fuel)%nat ->
  wp (consoleintr fuel getc) (fun _ s1 => readers_awake (csched s1) /\
    wp (consoleread ip n) (fun res s' => res = (Z.of_nat (length line) + 1, line ++ [10]) /\
      console_idle en [] [] s' /\ open_locked ip (cfs s')) s1) s.
Proof.
  intros Hid Ho Hs Hcs He Hl Hlen Hn Hf. eapply wp_mono; [by apply (wp_consoleintr en cs [] [] fuel)|].
  rewrite edits_nonzero, Hcs, edits_line by done. simpl. intros [] s1 (H1 & V1 & R1). split; [apply R1; by destruct line|].
  eapply wp_mono; [apply (wp_consoleread en ip n (line ++ [10]) [] (line ++ [10]) [] s1); [done| |lia|apply read_line_whole; (done || lia)]|].
  - unfold open_locked. by rewrite (sv_fs _ _ V1).
  - intros res s' (-> & H2 & Ho2). split; [|done]. rewrite length_app. simpl. f_equal. lia.
Qed.
End typing.

(** ** A PC *)

#[export] Instance pc_device : Device pcdev := {
  port_in p d :=
    if p =? CRTPORT + 1 then (pc_reg d (pc_idx d), d)
    else if p =? COM1 + 5 then (if bool_decide (pc_line d = []) then 0x20 else 0x21, d)
    else if p =? KBSTATP then (if bool_decide (pc_keys d = []) then 0 else 1, d)
    else if p =? COM1 + 0 then
      match pc_line d with [] => (0, d) | c :: l => (c, Pc (pc_idx d) (pc_reg d) (pc_sent d) l (pc_keys d)) end
    else if p =? KBDATAP then
      match pc_keys d with [] => (0, d) | c :: l => (c, Pc (pc_idx d) (pc_reg d) (pc_sent d) (pc_line d) l) end
    else (0, d);
  port_out p v d :=
    if p =? CRTPORT then Pc v (pc_reg d) (pc_sent d) (pc_line d) (pc_keys d)
    else if p =? CRTPORT + 1 then Pc (pc_idx d) (crt_set (pc_idx d) v (pc_reg d)) (pc_sent d) (pc_line d) (pc_keys d)
    else if p =? COM1 + 0 then Pc (pc_idx d) (pc_reg d) (pc_sent d ++ [v]) (pc_line d) (pc_keys d)
    else d;
  port_inl p d := (0, d); port_outl p v d := d; mm_read a d := (0, d); mm_write a v d := d }.

#[export] Instance pc_ports : PcPorts pcdev.
Proof.
  refine {| pc := fun d => d |}; try done.
  - intros d. simpl. case_bool_decide; split_and!; done.
  - intros d c l E. simpl. by rewrite E.
  - intros d. simpl. case_bool_decide; split_and!; done.
  - intros d c l E. simpl. by rewrite E.
Defined.

(** The state after booting, with the console's inode open and locked. *)
Definition demo_con (line keys : list Z) : con_st pcdev :=
  Con (FsSt (LogSt (BioSt boot_sched (fun _ => Buf 0 0 0 0 0 None []) (fun _ => []) 0 []) (Log 0 0 0 0 0 0 []))
         (fun _ => Inode 1 1 1 3 3 1 0 1 0 []) (Superblock 0 0 0 0 0 0 0))
      (Plat (Pc 0 (fun _ => 0) [] line keys) 0xFFFB false 1 0 0) true false true 0 (fun _ => 0)
      (Input (replicate 128 0) 4294967295 4294967295 4294967295).

Definition demo_term : term := Term (replicate (rows * cols) 0) 0.

Lemma demo_term_shown line keys : term_shown demo_term (demo_con line keys).
Proof.
  split; [apply length_replicate|unfold rows, cols; simpl; lia|done|done|].
  intros i x [-> _]%lookup_replicate. done.
Qed.

Lemma demo_console_idle line keys : console_idle true [] [] (demo_con line keys).
Proof.
  split; [apply input_rep_empty; (done || by vm_compute)|]. split; [constructor|]. split; [apply boot_lockstate|]. split; [done|].
  exists demo_term. apply demo_term_shown.
Qed.

(** Shift and H, i, Enter, with the releases of the keys. *)
Definition demo_keys : list Z := [0x2A; 0x23; 0xA3; 0xAA; 0x17; 0x97; 0x1C; 0x9C].

Lemma typed_line_read_witness :
  wp (consoleintr 9 kbdgetc) (fun _ s1 => readers_awake (csched s1) /\
    wp (consoleread 0 100) (fun res s' => res = (3, chars "Hi" ++ [10]) /\ console_idle true [] [] s' /\ open_locked 0 (cfs s')) s1)
    (demo_con [] demo_keys).
Proof.
  apply (typed_line_read true 0 (kbd_decode 0 demo_keys) (chars "Hi") 10 100 9).
  - apply demo_console_idle.
  - vm_compute. split_and!; (done || discriminate).
  - split; [reflexivity|]. apply (bool_decide_unpack _). vm_compute. exact I.
  - vm_compute. reflexivity.
  - set_solver.
  - apply (bool_decide_unpack _). vm_compute. exact I.
  - vm_compute. reflexivity.
  - vm_compute. done.
  - vm_compute. lia.
Defined.

Definition demo_text : list Z := chars "ok" ++ [10].

Definition demo_con0 : con_st pcdev := demo_con [] [].

Lemma consolewrite_shows_witness :
  wp (consolewrite 0 demo_text) (fun r s' => r = Z.of_nat (length demo_text) /\ term_shown (term_puts (u8 <$> demo_text) demo_term) s' /\
    pc_sent (pcof s') = pc_sent (pcof demo_con0) ++ (if uart demo_con0 then u8 <$> demo_text else []) /\
    only_screen (crt demo_con0) (crt s') /\ input s' = input demo_con0 /\
    wakes (csched demo_con0) (csched s') /\ open_locked 0 (cfs s') /\ locked_by true [] (csched s')) demo_con0.
Proof.
  apply (consolewrite_shows true 0 demo_text demo_term demo_con0).
  - apply boot_lockstate.
  - vm_compute. split_and!; (done || discriminate).
  - split; [reflexivity|apply demo_term_shown].
Defined.
