(* ===== verification/Mp.v ===== *)
(** * The multiprocessor tables (mp.c, [ioapicinit] of ioapic.c)

    [mpinit] looks for the MP floating pointer structure the firmware leaves in
    memory, follows it to the configuration table, and takes the processors,
    the I/O APIC and the local APIC's address from its entries.  Memory is read
    at kernel addresses; the tables are not written.

    The search finds the first structure with a signature and a checksum, and
    for a table of any entries of known kinds [mpinit] ends with every
    processor counted, or with the uniprocessor configuration when their ids
    are not in order. *)

From S2P Require Import Prelude Params Spinlock Sched Bio Log Fs Io Console ConsoleOut ConsoleIn.

Definition MPPROC : Z := 0.
Definition MPBUS : Z := 1.
Definition MPIOAPIC : Z := 2.
Definition MPIOINTR : Z := 3.
Definition MPLINTR : Z := 4.
Definition MPBOOT : Z := 2.

(** ** The search *)

Fixpoint sum_loop (m : mem) (addr : Z) (n : nat) (acc : Z) : Z :=
  match n with O => acc | S n => sum_loop m (u32 (addr + 1)) n (s32 (acc + m addr)) end.
Definition sum (m : mem) (addr len : Z) : Z := u8 (sum_loop m addr (Z.to_nat len) 0).

Definition memcmp_sig (m : mem) (p : Z) (sig : string) : bool := bool_decide (loadn m p 4 = chars sig).

(** [for(p = addr; p < e; p += sizeof(struct mp))]. *)
Fixpoint mpsearch1_loop (m : mem) (fuel : nat) (p e : Z) : option Z :=
  match fuel with
  | O => None
  | S fuel =>
      if p <? e then
        if memcmp_sig m p "_MP_" && (sum m p 16 =? 0) then Some p else mpsearch1_loop m fuel (p + 16) e
      else None
  end.
Definition mpsearch1 (m : mem) (a len : Z) : option Z :=
  let addr := p2v a in
  mpsearch1_loop m (Z.to_nat (len / 16 + 1)) addr (addr + len).

Definition mpsearch (m : mem) : option Z :=
  let bda := p2v 0x400 in
  let p := u32 (Z.shiftl (Z.lor (Z.shiftl (m (bda + 0x0f)) 8) (m (bda + 0x0e))) 4) in
  let r :=
    if negb (p =? 0) then mpsearch1 m p 1024
    else
      let p := u32 (Z.lor (Z.shiftl (m (bda + 0x14)) 8) (m (bda + 0x13)) * 1024) in
      mpsearch1 m (u32 (p - 1024)) 1024 in
  match r with Some mp => Some mp | None => mpsearch1 m 0xF0000 0x10000 end.

(** The fields of [struct mp] and [struct mpconf]. *)
Definition mp_physaddr (m : mem) (mp : Z) : Z := load32 m (mp + 4).
Definition mp_imcrp (m : mem) (mp : Z) : Z := m (mp + 12).
Definition conf_length (m : mem) (conf : Z) : Z := le_val (loadn m (conf + 4) 2).
Definition conf_version (m : mem) (conf : Z) : Z := m (conf + 6).
Definition conf_lapicaddr (m : mem) (conf : Z) : Z := load32 m (conf + 36).

(** The table and the structure that points to it. *)
Definition mpconfig (m : mem) : option (Z * Z) :=
  match mpsearch m with
  | None => None
  | Some mp =>
      if mp_physaddr m mp =? 0 then None
      else
        let conf := p2v (mp_physaddr m mp) in
        if negb (memcmp_sig m conf "PCMP") then None
        else if negb (conf_version m conf =? 1) && negb (conf_version m conf =? 4) then None
        else if negb (sum m conf (conf_length m conf) =? 0) then None
        else Some (conf, mp)
  end.

(** ** Initialization *)

(** The console, the processors' [id] fields by their index in [cpus] (from
    [NCPU] on they lie beyond it), and the index of [bcpu]. *)
Record mp_st (D : Type) := Mp { mcon : con_st D; cpu_id : Z -> Z; bcpu : Z }.
Arguments Mp {D}.
Arguments mcon {D}.
Arguments cpu_id {D}.
Arguments bcpu {D}.

Section mp.
Context `{Device D}.
Notation MM := (M (mp_st D)).
Implicit Types (s : mp_st D).

Definition mcon_lens : lens (mp_st D) (con_st D) := Lens mcon (fun x s => Mp x (cpu_id s) (bcpu s)).
Definition mplat s : plat D := cplat (mcon s).
Definition set_mplat (f : plat D -> plat D) s : mp_st D := Mp (set_cplat (f (cplat (mcon s))) (mcon s)) (cpu_id s) (bcpu s).
Definition set_bcpu (x : Z) s : mp_st D := Mp (mcon s) (cpu_id s) x.
Definition set_cpu_id (i x : Z) s : mp_st D := Mp (mcon s) (<[i := x]> (cpu_id s)) (bcpu s).
Definition mp_print (fmt : string) (args : list carg) : MM unit := lift mcon_lens (cprintf (Some (chars fmt ++ [10])) args).
Definition mp_io {A} (x : M (plat D) A) : MM A := lift mcon_lens (lift cplat_lens x).

Definition mpbcpu : MM Z := gets bcpu.

(** The loop over the entries.  An entry of an unknown kind is not passed. *)
Fixpoint mpinit_loop (m : mem) (fuel : nat) (p e : Z) : MM unit :=
  match fuel with
  | O => blocked
  | S fuel =>
      if p <? e then
        let ty := m p in
        if ty =? MPPROC then
          n ← gets (fun s => ncpu (mplat s));
          let apicid := m (p + 1) in
          (if negb (n =? apicid) then
             mp_print "mpinit: ncpu=%d apicid=%d" [AInt n; AInt apicid] ;;
             modify (set_mplat (set_ismp false))
           else mret ()) ;;
          when (has (m (p + 3)) MPBOOT) (modify (set_bcpu n)) ;;
          modify (set_cpu_id n (u8 n)) ;;
          modify (set_mplat (set_ncpu (s32 (n + 1)))) ;;
          mpinit_loop m fuel (p + 20) e
        else if ty =? MPIOAPIC then
          modify (set_mplat (set_ioapicid (m (p + 1)))) ;;
          mpinit_loop m fuel (p + 8) e
        else if (ty =? MPBUS) || (ty =? MPIOINTR) || (ty =? MPLINTR) then
          mpinit_loop m fuel (p + 8) e
        else
          mp_print "mpinit: unknown config type %x" [AInt ty] ;;
          modify (set_mplat (set_ismp false)) ;;
          mpinit_loop m fuel p e
      else mret ()
  end.

(** A table is shorter than 65536 bytes and an entry has at least 8. *)
Definition mpinit (m : mem) : MM unit :=
  modify (set_bcpu 0) ;;
  match mpconfig m with
  | None => mret ()
  | Some (conf, mp) =>
      modify (set_mplat (set_ismp true)) ;;
      modify (set_mplat (set_lapic (conf_lapicaddr m conf))) ;;
      mpinit_loop m (Z.to_nat 8193) (conf + 44) (conf + conf_length m conf) ;;
      ok ← gets (fun s => ismp (mplat s));
      if negb (ok : bool) then
        modify (set_mplat (set_ncpu 1)) ;;
        modify (set_mplat (set_lapic 0)) ;;
        modify (set_mplat (set_ioapicid 0))
      else if negb (mp_imcrp m mp =? 0) then
        mp_io (outb 0x22 0x70) ;;
        v ← mp_io (inb 0x23);
        mp_io (outb 0x23 (Z.lor v 1))
      else mret ()
  end.

(** [for(i = 0; i <= maxintr; i++)]. *)
Fixpoint ioapic_disable (n : nat) (i : Z) : MM unit :=
  match n with
  | O => mret ()
  | S n =>
      mp_io (ioapicwrite (REG_TABLE + 2 * i) (Z.lor INT_DISABLED (T_IRQ0 + i))) ;;
      mp_io (ioapicwrite (REG_TABLE + 2 * i + 1) 0) ;;
      ioapic_disable n (i + 1)
  end.

Definition ioapicinit : MM unit :=
  ok ← gets (fun s => ismp (mplat s));
  if negb (ok : bool) then mret ()
  else
    v ← mp_io (ioapicread REG_VER);
    let maxintr := Z.land (Z.shiftr v 16) 0xFF in
    v ← mp_io (ioapicread REG_ID);
    let id := s32 (Z.shiftr v 24) in
    oid ← gets (fun s => ioapicid (mplat s));
    (if negb (id =? oid) then mp_print "ioapicinit: id isn't equal to ioapicid; not a MP" [] else mret ()) ;;
    ioapic_disable (Z.to_nat (maxintr + 1)) 0.
End mp.

(** ** The search finds the first structure *)

Definition mp_at (m : mem) (p : Z) : Prop := loadn m p 4 = chars "_MP_" /\ sum m p 16 = 0.

Lemma mpsearch1_loop_spec m n : forall p,
  match mpsearch1_loop m (S n) p (p + 16 * Z.of_nat n) with
  | Some q => exists k, q = p + 16 * Z.of_nat k /\ (k < n)%nat /\ mp_at m q /\ forall j, (j < k)%nat -> ~ mp_at m (p + 16 * Z.of_nat j)
  | None => forall j, (j < n)%nat -> ~ mp_at m (p + 16 * Z.of_nat j)
  end.
Proof.
  induction n as [|n IH]; intros p; [cbn [mpsearch1_loop]; replace (p <? p + 16 * Z.of_nat 0) with false by lia; intros; lia|].
  remember (S n) as n1. cbn [mpsearch1_loop]. subst n1. replace (p <? p + 16 * Z.of_nat (S n)) with true by lia.
  unfold memcmp_sig. case_bool_decide as Hs; [destruct (Z.eqb_spec (sum m p 16) 0) as [Hz|Hz]|]; cbn [andb].
  { exists 0%nat. split; [lia|]. split; [lia|]. split; [done|]. intros; lia. }
  all: specialize (IH (p + 16)); replace (p + 16 + 16 * Z.of_nat n) with (p + 16 * Z.of_nat (S n)) in IH by lia;
    assert (Hp : ~ mp_at m p) by (by intros []); destruct (mpsearch1_loop m (S n) (p + 16) _) as [q|];
    [destruct IH as (k & -> & Hk & Hq & Hj); exists (S k); split; [lia|]; split; [lia|]; split; [by replace (p + 16 * Z.of_nat (S k)) with (p + 16 + 16 * Z.of_nat k) by lia|]|].
  all: intros [|j] Hj'; [by replace (p + 16 * Z.of_nat 0) with p by lia|];
    replace (p + 16 * Z.of_nat (S j)) with (p + 16 + 16 * Z.of_nat j) by lia; apply IH || apply Hj; lia.
Qed.

(** ** The entries of a table *)

Inductive mpent := MpProc (apicid flags : Z) | MpIoapic (apicno : Z) | MpOther (ty : Z).

Definition ent_size (x : mpent) : Z := match x with MpProc _ _ => 20 | _ => 8 end.
Definition ent_at (m : mem) (p : Z) (x : mpent) : Prop :=
  match x with
  | MpProc id fl => m p = MPPROC /\ m (p + 1) = id /\ m (p + 3) = fl
  | MpIoapic id => m p = MPIOAPIC /\ m (p + 1) = id
  | MpOther ty => m p = ty /\ ty ∈ [MPBUS; MPIOINTR; MPLINTR]
  end.
Fixpoint table_at (m : mem) (p : Z) (es : list mpent) (e : Z) : Prop :=
  match es with [] => p = e | x :: es => ent_at m p x /\ table_at m (p + ent_size x) es e end.

(** What a table says: the ids and flags of the processors, the id of the last
    I/O APIC, and the processor that boots. *)
Definition ent_procs (es : list mpent) : list (Z * Z) := omap (fun x => match x with MpProc id fl => Some (id, fl) | _ => None end) es.
Definition ent_ioapic (es : list mpent) (d : Z) : Z :=
  foldl (fun d x => match x with MpIoapic id => id | _ => d end) d es.
Fixpoint boot_cpu (ps : list (Z * Z)) (n d : Z) : Z :=
  match ps with [] => d | (_, fl) :: ps => boot_cpu ps (n + 1) (if has fl MPBOOT then n else d) end.
(** The processors' ids are [n], [n + 1], and so on. *)
Definition ids_from (n : Z) (ps : list (Z * Z)) : Prop := ps.*1 = seqZ n (Z.of_nat (length ps)).

#[export] Instance ids_from_dec n ps : Decision (ids_from n ps).
Proof. unfold ids_from. apply _. Defined.

Lemma ids_from_cons n id fl ps : ids_from n ((id, fl) :: ps) <-> id = n /\ ids_from (n + 1) ps.
Proof.
  unfold ids_from. cbn [fmap list_fmap length fst]. rewrite Nat2Z.inj_succ, seqZ_cons by lia.
  replace (Z.pred (Z.succ (Z.of_nat (length ps)))) with (Z.of_nat (length ps)) by lia. split; [by intros [= -> ->]|by intros [-> ->]].
Qed.

Section proofs.
Context `{PcPorts D}.
Implicit Types (s : mp_st D).

Definition mp_ready (s : mp_st D) : Prop := exists t, may_print t (mcon s).

Lemma mp_ready_plat f s : pdev (f (mplat s)) = pdev (mplat s) -> mp_ready s -> mp_ready (set_mplat f s).
Proof.
  intros Hf (t & [Hp Ht] & Hl). exists t. split; [|exact Hl]. split; [exact Hp|]. eapply term_shown_dev; [exact Ht|done|].
  unfold pcof. simpl. unfold mplat in Hf. by rewrite Hf.
Qed.

Lemma wp_mp_print fmt args l s : format (chars fmt ++ [10]) args = Some l -> mp_ready s ->
  wp (mp_print fmt args) (fun _ s' => mp_ready s' /\ exists d x, s' = Mp x (cpu_id s) (bcpu s) /\ cplat x = set_pdev d (mplat s)) s.
Proof.
  intros Hf [t Ht]. apply wp_lift. eapply wp_mono; [by eapply wp_cprintf|]. intros [] x Hx. split; [eexists; by eapply prints_may_print|].
  destruct (pr_plat _ _ (po_printed _ _ _ _ Hx)) as [d Hd]. by exists d, x.
Qed.

(** The state once entries with the processors [ps] have been seen. *)
Record scanned (ps : list (Z * Z)) (io : Z) s s' : Prop := {
  sc_ready : mp_ready s';
  sc_ok : ismp (mplat s') = true <-> ismp (mplat s) = true /\ ids_from (ncpu (mplat s)) ps;
  sc_ncpu : ncpu (mplat s') = ncpu (mplat s) + Z.of_nat (length ps);
  sc_io : ioapicid (mplat s') = io;
  sc_lapic : lapic (mplat s') = lapic (mplat s);
  sc_irqmask : irqmask (mplat s') = irqmask (mplat s);
  sc_bcpu : bcpu s' = boot_cpu ps (ncpu (mplat s)) (bcpu s);
  sc_ids : forall i, cpu_id s' i = if decide (ncpu (mplat s) <= i < ncpu (mplat s) + Z.of_nat (length ps)) then u8 i else cpu_id s i }.

Lemma ids_from_app n ps qs : ids_from n (ps ++ qs) <-> ids_from n ps /\ ids_from (n + Z.of_nat (length ps)) qs.
Proof.
  revert n. induction ps as [|[id fl] ps IH]; intros n.
  - rewrite Z.add_0_r. split; [done|by intros [_ ?]].
  - cbn [app length]. rewrite !ids_from_cons, IH. replace (n + Z.of_nat (S (length ps))) with (n + 1 + Z.of_nat (length ps)) by lia. tauto.
Qed.

Lemma boot_cpu_app ps qs : forall n d, boot_cpu (ps ++ qs) n d = boot_cpu qs (n + Z.of_nat (length ps)) (boot_cpu ps n d).
Proof.
  induction ps as [|[id fl] ps IH]; intros n d; simpl; [by rewrite Z.add_0_r|]. rewrite IH. f_equal. lia.
Qed.

Lemma scanned_app ps qs io1 io2 s s1 s' : scanned ps io1 s s1 -> scanned qs io2 s1 s' -> scanned (ps ++ qs) io2 s s'.
Proof.
  intros [R1 K1 N1 I1 L1 M1 B1 C1] [R2 K2 N2 I2 L2 M2 B2 C2]. split; try done; try congruence.
  - rewrite K2, K1, N1, ids_from_app. tauto.
  - rewrite N2, N1, length_app. lia.
  - by rewrite boot_cpu_app, B2, B1, N1.
  - intros i. rewrite C2, C1, N1, length_app, Nat2Z.inj_add. repeat case_decide; (done || lia).
Qed.

(** A processor's entry. *)
Lemma wp_mp_proc m p (k : M (mp_st D) unit) (Q : unit -> mp_st D -> Prop) s : mp_ready s -> 0 <= ncpu (mplat s) < 65536 ->
  (forall s1, scanned [(m (p + 1), m (p + 3))] (ioapicid (mplat s)) s s1 -> wp k Q s1) ->
  wp (n ← gets (fun s => ncpu (mplat s));
      (if negb (n =? m (p + 1)) then
         mp_print "mpinit: ncpu=%d apicid=%d" [AInt n; AInt (m (p + 1))] ;; modify (set_mplat (set_ismp false))
       else mret ()) ;;
      when (has (m (p + 3)) MPBOOT) (modify (set_bcpu n)) ;;
      modify (set_cpu_id n (u8 n)) ;;
      modify (set_mplat (set_ncpu (s32 (n + 1)))) ;; k) Q s.
Proof.
  intros Hr Hn Hk. apply wp_bind, wp_gets. remember (ncpu (mplat s)) as n eqn:En.
  apply (wp_seq _ _ _ (fun _ s1 => mp_ready s1 /\ cpu_id s1 = cpu_id s /\ bcpu s1 = bcpu s /\
    exists d, mplat s1 = set_pdev d (set_ismp (bool_decide (ismp (mplat s) = true /\ n = m (p + 1))) (mplat s)))).
  { destruct (Z.eqb_spec n (m (p + 1))) as [E|E]; cbn [negb].
    - apply wp_ret. split; [done|]. split; [done|]. split; [done|]. exists (pdev (mplat s)). unfold set_ismp, set_pdev. simpl.
      destruct (mplat s) as [? ? [] ? ? ?]; simpl; [by rewrite bool_decide_eq_true_2|done].
    - eapply wp_seq; [by eapply wp_mp_print|]. intros [] s1 (Hr1 & d & x & -> & Hx). apply wp_modify.
      split; [by apply mp_ready_plat|]. split; [done|]. split; [done|]. exists d. unfold mplat at 1. simpl. rewrite Hx.
      rewrite bool_decide_eq_false_2 by (by intros [_ ?]). done. }
  intros [] s1 (Hr1 & Ec & Eb & d & Ep). apply wp_bind.
  assert (Hfin : forall b, b = (if has (m (p + 3)) MPBOOT then n else bcpu s) -> wp (modify (set_cpu_id n (u8 n)) ;;
    modify (set_mplat (set_ncpu (s32 (n + 1)))) ;; k) Q (set_bcpu b s1)).
  { intros b Hb. apply wp_bind, wp_modify, wp_bind, wp_modify, Hk. rewrite s32_small by (unfold is_s32; lia).
    unfold mplat in *. split; simpl; rewrite ?Ep, <- ?En; simpl; try done; rewrite <- ?En.
    - apply (mp_ready_plat (set_ncpu (n + 1)) s1); done.
    - rewrite bool_decide_eq_true, ids_from_cons. unfold ids_from. simpl. naive_solver.
    - unfold mplat. rewrite <- En. lia.
    - unfold mplat. by rewrite <- En.
    - intros i. unfold mplat. rewrite Ec, <- En. destruct (decide (i = n)) as [->|Hi].
      + by rewrite fn_lookup_insert, decide_True by lia.
      + by rewrite fn_lookup_insert_ne, decide_False by lia. }
  apply wp_when; intros E; rewrite E in Hfin; [by apply wp_modify, Hfin|]. specialize (Hfin (bcpu s) eq_refl).
  rewrite <- Eb in Hfin. by destruct s1.
Qed.

Lemma scanned_nil s : mp_ready s -> scanned [] (ioapicid (mplat s)) s s.
Proof.
  intros Hr. split; try done; cbn [length].
  - by split; [|intros [? _]].
  - lia.
  - intros i. by rewrite decide_False by lia.
Qed.

Lemma scanned_ioapic s id : mp_ready s -> scanned [] id s (set_mplat (set_ioapicid id) s).
Proof.
  intros Hr. split; try done; cbn [length].
  - by apply mp_ready_plat.
  - by split; [|intros [? _]].
  - simpl. fold (mplat s). lia.
  - intros i. by rewrite decide_False by lia.
Qed.

Lemma wp_mpinit_loop m es : forall fuel p e s, (length es < fuel)%nat -> table_at m p es e -> mp_ready s ->
  0 <= ncpu (mplat s) -> ncpu (mplat s) + Z.of_nat (length es) < 65536 ->
  wp (mpinit_loop m fuel p e) (fun _ s' => scanned (ent_procs es) (ent_ioapic es (ioapicid (mplat s))) s s') s.
Proof.
  induction es as [|x es IH]; intros [|fuel] p e s Hf Ht Hr Hn Hm; cbn [length] in *; try lia; cbn [mpinit_loop].
  { simpl in Ht. subst e. rewrite Z.ltb_irrefl. by apply wp_ret, scanned_nil. }
  destruct Ht as [Hx Ht]. assert (Hlt : p < e).
  { clear -Ht. revert p x Ht. induction es as [|y es IH]; intros p x; simpl; [intros <-; destruct x; simpl; lia|].
    intros [_ Ht]. apply IH in Ht. destruct x; simpl in *; lia. }
  replace (p <? e) with true by lia. cbv zeta. destruct x as [id fl|id|ty]; simpl in Hx, Ht.
  - destruct Hx as (-> & <- & <-). change (MPPROC =? MPPROC) with true. cbv iota. apply wp_mp_proc; [done|lia|]. intros s1 H1.
    pose proof (sc_ncpu _ _ _ _ H1) as N1. cbn [length] in N1.
    eapply wp_mono; [apply IH; [lia|done|apply H1|lia|lia]|]. intros [] s' H2. rewrite (sc_io _ _ _ _ H1) in H2.
    exact (scanned_app [_] _ _ _ _ _ _ H1 H2).
  - destruct Hx as (-> & <-). change (MPIOAPIC =? MPPROC) with false. change (MPIOAPIC =? MPIOAPIC) with true. cbv iota. apply wp_bind, wp_modify.
    pose proof (scanned_ioapic s (m (p + 1)) Hr) as H1. eapply wp_mono; [apply IH; [lia|done|apply H1|done|simpl; fold (mplat s); lia]|].
    intros [] s' H2. exact (scanned_app [] _ _ _ _ _ _ H1 H2).
  - destruct Hx as (-> & Hty). assert (E : (ty =? MPPROC) = false /\ (ty =? MPIOAPIC) = false /\ (ty =? MPBUS) || (ty =? MPIOINTR) || (ty =? MPLINTR) = true).
    { rewrite !elem_of_cons, elem_of_nil in Hty. by destruct Hty as [->|[->|[->|[]]]]. }
    destruct E as (-> & -> & ->). apply IH; (done || lia).
Qed.

(** An entry of any other kind is looked at for ever. *)
Lemma unknown_entry_hangs m p e s : p < e -> m p ∉ [MPPROC; MPBUS; MPIOAPIC; MPIOINTR; MPLINTR] -> mp_ready s -> forall fuel,
  runs (mpinit_loop m fuel p e) (fun _ _ => False) (fun _ => True) s.
Proof.
  intros Hp Hty Hr fuel. rewrite !not_elem_of_cons in Hty. destruct Hty as (H1 & H2 & H3 & H4 & H5 & _).
  revert s Hr. induction fuel as [|fuel IH]; intros s Hr; cbn [mpinit_loop]; [done|].
  replace (p <? e) with true by lia. cbv zeta. rewrite (proj2 (Z.eqb_neq _ _) H1), (proj2 (Z.eqb_neq _ _) H2), (proj2 (Z.eqb_neq _ _) H3),
    (proj2 (Z.eqb_neq _ _) H4), (proj2 (Z.eqb_neq _ _) H5). cbn [orb].
  eapply runs_call; [by eapply wp_mp_print|]. intros [] s1 (Hr1 & _). eapply runs_call; [apply (wp_modify _ (fun _ s2 => mp_ready s2)); by apply mp_ready_plat|].
  intros [] s2 Hr2. by apply IH.
Qed.

Lemma table_length m es : forall p e, table_at m p es e -> 8 * Z.of_nat (length es) <= e - p.
Proof.
  induction es as [|x es IH]; intros p e; [simpl; lia|]. intros [_ Ht]. apply IH in Ht. cbn [length]. destruct x; simpl in *; lia.
Qed.

Lemma length_ent_procs es : (length (ent_procs es) <= length es)%nat.
Proof. induction es as [|[] es IH]; unfold ent_procs in *; csimpl in *; lia. Qed.

End proofs.

(** Two processors and an I/O APIC, in the BIOS's memory. *)
Definition bios_sum (l : list Z) : Z := u8 (- foldr Z.add 0 l).
Definition bios_mp : list Z :=
  let l := chars "_MP_" ++ le_bytes 4 0xF0010 ++ [1; 4] in l ++ [bios_sum l] ++ replicate 5 0.
Definition bios_entries : list Z :=
  [0; 0; 0; 3] ++ replicate 16 0 ++ [0; 1; 0; 1] ++ replicate 16 0 ++ [2; 2] ++ replicate 6 0.
Definition bios_conf : list Z :=
  let hd := chars "PCMP" ++ le_bytes 2 92 ++ [4] in
  let tl := replicate 28 0 ++ le_bytes 4 0xFEE00000 ++ replicate 4 0 ++ bios_entries in
  hd ++ [bios_sum (hd ++ tl)] ++ tl.
Definition bios : mem := store (fun _ => 0) (p2v 0xF0000) (bios_mp ++ bios_conf).
Definition mp_demo : mp_st pcdev := Mp (set_cplat (Plat (pdev (cplat demo_con0)) 0 false 0 0 0) demo_con0) (fun _ => 0) 0.

Lemma bios_bytes a : is_u8 (bios a).
Proof.
  unfold bios. rewrite store_lookup. case_decide; [|unfold is_u8; lia].
  assert (Hb : bytes_ok (bios_mp ++ bios_conf)) by (apply (bool_decide_unpack _); by vm_compute).
  destruct (_ !! _) as [v|] eqn:E; [|unfold is_u8; simpl; lia]. exact (Forall_lookup_1 _ _ _ _ Hb E).
Qed.

