(* ===== verification/Ata.v ===== *)
(** * An ATA disk

    The disk that ide.c and bootmain.c drive is hardware.  [AtaPorts] says what
    they rely on: registers that select a drive and a sector, commands that
    read or write one sector, and a data port for its words.  Shared by the
    proofs about the driver and about the boot loader. *)

From S2P Require Import Prelude Params Io.

Definition IDE_BSY : Z := 0x80.
Definition IDE_DRDY : Z := 0x40.
Definition IDE_DF : Z := 0x20.
Definition IDE_ERR : Z := 0x01.
Definition IDE_CMD_READ : Z := 0x20.
Definition IDE_CMD_WRITE : Z := 0x30.

(** The sectors of its two drives, the registers at ports 0x1f2 to 0x1f6, and
    the transfer in progress: the bytes still to be read by the processor, or
    those it has written so far. *)
Record atadev := Ata {
  at_disk : Z -> Z -> list Z; at_regs : Z -> Z; at_xfer : option (bool * list Z) }.

Definition ata_lba (a : atadev) : Z :=
  at_regs a 0x1f3 + 256 * at_regs a 0x1f4 + 65536 * at_regs a 0x1f5 + 16777216 * (at_regs a 0x1f6 mod 16).
Definition ata_drive (a : atadev) : Z := at_regs a 0x1f6 / 16 mod 2.

Definition put_sector (drive lba : Z) (w : list Z) (d : Z -> Z -> list Z) : Z -> Z -> list Z :=
  fun i n => if (i =? drive) && (n =? lba) then w else d i n.

(** A command for one sector, given by its number. *)
Definition ata_cmd (v : Z) (a : atadev) : atadev :=
  if (at_regs a 0x1f2 =? 1) && (at_regs a 0x1f6 / 32 =? 7) then
    if v =? IDE_CMD_READ then Ata (at_disk a) (at_regs a) (Some (true, at_disk a (ata_drive a) (ata_lba a)))
    else if v =? IDE_CMD_WRITE then Ata (at_disk a) (at_regs a) (Some (false, []))
    else Ata (at_disk a) (at_regs a) None
  else Ata (at_disk a) (at_regs a) None.

Definition set_reg (p v : Z) (a : atadev) : atadev :=
  Ata (at_disk a) (fun q => if q =? p then v else at_regs a q) (at_xfer a).
Definition set_xfer (x : option (bool * list Z)) (a : atadev) : atadev := Ata (at_disk a) (at_regs a) x.

(** A status that says ready, or an error. *)
Definition ata_ready (v : Z) : Prop := Z.land v (Z.lor IDE_BSY IDE_DRDY) = IDE_DRDY.

(** The disk answers the status after having been busy for a while;
    [ata_failed] is set when it could not do what it was asked. *)
Class AtaPorts (D : Type) `{Device D} := {
  ata : D -> atadev;
  ata_busy : D -> nat;
  ata_failed : D -> bool;
  ata_status : forall d, let '(v, d') := port_in 0x1f7 d in ata d' = ata d /\ ata_failed d' = ata_failed d /\ is_u8 v /\
    match ata_busy d with
    | O => ata_ready v /\ has v (Z.lor IDE_DF IDE_ERR) = ata_failed d
    | S n => ~ ata_ready v /\ ata_busy d' = n
    end;
  ata_out_reg : forall p v d, 0x1f2 <= p <= 0x1f6 -> ata (port_out p v d) = set_reg p v (ata d);
  ata_out_ctl : forall v d, ata (port_out 0x3f6 v d) = ata d;
  ata_out_cmd : forall v d, ata (port_out 0x1f7 v d) = ata_cmd v (ata d);
  ata_in_data : forall d w, at_xfer (ata d) = Some (true, w) -> (4 <= length w)%nat -> let '(v, d') := port_inl 0x1f0 d in
    v = le_val (take 4 w) /\ ata d' = set_xfer (Some (true, drop 4 w)) (ata d);
  ata_out_data : forall v d w, at_xfer (ata d) = Some (false, w) -> ata (port_outl 0x1f0 v d) =
    let a := ata d in
    let w' := w ++ le_bytes 4 v in
    if (length w' <? 512)%nat then set_xfer (Some (false, w')) a
    else Ata (put_sector (ata_drive a) (ata_lba a) w' (at_disk a)) (at_regs a) None }.

(** The driver polls the status for long enough; the disk does what it is
    asked. *)
Class Patient (D : Type) `{AtaPorts D} (spins : nat) : Prop := patient : forall d, (ata_busy d < spins)%nat.
Class Reliable (D : Type) `{AtaPorts D} : Prop := reliable : forall d, ata_failed d = false.

Section ata.
Context `{AtaPorts D}.
Implicit Types (s : plat D).

Definition pl_ata (s : plat D) : atadev := ata (pdev s).

(** Only the devices have changed, to a disk like [a]. *)
Definition only_ata (s : plat D) (a : atadev) (s' : plat D) : Prop := exists d, s' = set_pdev d s /\ ata d = a.

Lemma only_ata_refl s : only_ata s (pl_ata s) s.
Proof. exists (pdev s). split; [|done]. by destruct s. Qed.
Lemma only_ata_trans s a s1 a' s2 : only_ata s a s1 -> only_ata s1 a' s2 -> only_ata s a' s2.
Proof. intros (d & -> & Hd) (d' & -> & Hd'). by exists d'. Qed.
Lemma only_ata_at s a s1 : only_ata s a s1 -> pl_ata s1 = a.
Proof. by intros (d & -> & <-). Qed.

Lemma wp_ata_reg p v s : 0x1f2 <= p <= 0x1f6 -> wp (outb p v) (fun _ s' => only_ata s (set_reg p (u8 v) (pl_ata s)) s') s.
Proof. intros Hp. apply wp_on_dev. eexists. split; [done|]. by apply ata_out_reg. Qed.
Lemma wp_ata_ctl v s : wp (outb 0x3f6 v) (fun _ s' => only_ata s (pl_ata s) s') s.
Proof. apply wp_on_dev. eexists. split; [done|]. apply ata_out_ctl. Qed.
Lemma wp_ata_cmd v s : is_u8 v -> wp (outb 0x1f7 v) (fun _ s' => only_ata s (ata_cmd v (pl_ata s)) s') s.
Proof.
  intros Hv. apply wp_on_dev. eexists. split; [done|]. simpl. unfold u8. rewrite Z.mod_small by done. apply ata_out_cmd.
Qed.

Lemma le_bytes_val w : bytes_ok w -> length w = 4%nat -> le_bytes 4 (le_val w) = w.
Proof. intros Hok Hl. rewrite <- Hl. by apply le_bytes_le_val. Qed.

Lemma wp_insl n : forall w s, at_xfer (pl_ata s) = Some (true, w) -> length w = (4 * n)%nat -> bytes_ok w ->
  wp (insl 0x1f0 n) (fun l s' => l = w /\ only_ata s (set_xfer (Some (true, [])) (pl_ata s)) s') s.
Proof.
  induction n as [|n IH]; intros w s Hx Hl Hok; cbn [insl].
  { destruct w; [|done]. apply wp_ret. split; [done|]. exists (pdev s). split; [by destruct s|].
    unfold pl_ata, set_xfer in *. destruct (ata (pdev s)); simpl in *. by subst. }
  apply wp_bind, wp_on_dev. pose proof (ata_in_data (pdev s) w Hx ltac:(lia)) as Hd. destruct (port_inl 0x1f0 _) as [v d].
  destruct Hd as [-> Hd]. cbn [fst snd].
  eapply wp_seq; [apply (IH (drop 4 w)); [unfold pl_ata; simpl; by rewrite Hd|rewrite length_drop; lia|by apply Forall_drop]|].
  intros l s' [-> Ho]. apply wp_ret. rewrite le_bytes_val; [|by apply Forall_take|rewrite length_take; lia].
  split; [apply take_drop|]. destruct Ho as (d' & -> & Hd'). exists d'. split; [done|]. rewrite Hd'. unfold pl_ata. simpl. by rewrite Hd.
Qed.

Lemma wp_outsl n : forall l w s, at_xfer (pl_ata s) = Some (false, w) -> (length w + 4 * S n = 512)%nat -> length l = (4 * S n)%nat -> bytes_ok l ->
  wp (outsl 0x1f0 l (S n)) (fun _ s' => let a := pl_ata s in
    only_ata s (Ata (put_sector (ata_drive a) (ata_lba a) (w ++ l) (at_disk a)) (at_regs a) None) s') s.
Proof.
  induction n as [|n IH]; intros l w s Hx Hw Hl Hok; cbn [outsl]; apply wp_bind, wp_on_dev; cbn [fst snd];
    pose proof (ata_out_data (le_val (take 4 l)) (pdev s) w Hx) as Hd; cbv zeta in Hd;
    rewrite (le_bytes_val (take 4 l)) in Hd by (try (by apply Forall_take); rewrite length_take; lia);
    rewrite length_app, length_take in Hd.
  - replace (length w + 4 `min` length l <? 512)%nat with false in Hd by (symmetry; apply Nat.ltb_ge; lia).
    apply wp_ret. eexists. split; [done|]. rewrite Hd. by rewrite (take_ge l) by lia.
  - replace (length w + 4 `min` length l <? 512)%nat with true in Hd by (symmetry; apply Nat.ltb_lt; lia).
    eapply wp_mono; [apply (IH (drop 4 l) (w ++ take 4 l)); [unfold pl_ata; simpl; by rewrite Hd| | |by apply Forall_drop]|].
    + rewrite length_app, length_take. lia.
    + rewrite length_drop. lia.
    + intros [] s' (d & -> & E). exists d. split; [done|]. rewrite E. unfold pl_ata. simpl. rewrite Hd. simpl.
      by rewrite <- app_assoc, take_drop.
Qed.
End ata.

(** ** A disk *)

(** A disk that is busy for one look at its status after each command. *)
Record simdisk := Sim { sd_ata : atadev; sd_busy : bool }.

#[export] Instance simdisk_device : Device simdisk := {
  port_in p d := if p =? 0x1f7 then (if sd_busy d then IDE_BSY else IDE_DRDY, Sim (sd_ata d) false) else (0, d);
  port_out p v d :=
    if p =? 0x1f7 then Sim (ata_cmd v (sd_ata d)) true
    else if (0x1f2 <=? p) && (p <=? 0x1f6) then Sim (set_reg p v (sd_ata d)) (sd_busy d)
    else d;
  port_inl p d :=
    match at_xfer (sd_ata d) with
    | Some (true, w) => (le_val (take 4 w), Sim (set_xfer (Some (true, drop 4 w)) (sd_ata d)) (sd_busy d))
    | _ => (0, d)
    end;
  port_outl p v d :=
    match at_xfer (sd_ata d) with
    | Some (false, w) =>
        let a := sd_ata d in
        let w' := w ++ le_bytes 4 v in
        Sim (if (length w' <? 512)%nat then set_xfer (Some (false, w')) a
             else Ata (put_sector (ata_drive a) (ata_lba a) w' (at_disk a)) (at_regs a) None) (sd_busy d)
    | _ => d
    end;
  mm_read a d := (0, d); mm_write a v d := d }.

#[export] Instance simdisk_ports : AtaPorts simdisk.
Proof.
  refine {| ata := sd_ata; ata_busy := fun d => if sd_busy d then 1%nat else 0%nat; ata_failed := fun _ => false |}.
  - intros [a []]; simpl; split_and!; (done || by vm_compute).
  - intros p v d Hp. simpl. destruct (Z.eqb_spec p 0x1f7); [lia|]. by replace ((0x1f2 <=? p) && (p <=? 0x1f6)) with true by lia.
  - done.
  - done.
  - intros d w Hw Hl. simpl. by rewrite Hw.
  - intros v d w Hw. simpl. by rewrite Hw.
Defined.

#[export] Instance simdisk_patient : Patient simdisk 2.
Proof. intros [a []]; simpl; lia. Qed.
#[export] Instance simdisk_reliable : Reliable simdisk.
Proof. done. Qed.
