(* ===== verification/Boot.v ===== *)
(** * The boot loader (bootmain.c)

    bootmain.c runs from the boot block.  It reads the kernel, an ELF image
    that starts at sector 1 of the boot disk, to the physical addresses its
    program headers name, and returns the address to jump to.  The disk is any
    device that satisfies [AtaPorts]. *)

From S2P Require Import Prelude Params Io Ata.

Definition SECTSIZE : Z := 512.

Record boot_st (D : Type) := Boot { bplat : plat D; bmem : mem }.
Arguments Boot {D}.
Arguments bplat {D}.
Arguments bmem {D}.

Section boot.
Context `{Device D} (spins : nat).
Notation MB := (M (boot_st D)).

Definition bplat_lens : lens (boot_st D) (plat D) := Lens bplat (fun x s => Boot x (bmem s)).
Definition set_bmem (f : mem -> mem) (s : boot_st D) : boot_st D := Boot (bplat s) (f (bmem s)).
Definition on_io {A} (m : M (plat D) A) : MB A := lift bplat_lens m.

(** [while((inb(0x1F7) & 0xC0) != 0x40)], looking [spins] times at most. *)
Fixpoint waitdisk_loop (fuel : nat) : MB unit :=
  match fuel with
  | O => blocked
  | S fuel => v ← on_io (inb 0x1f7); if negb (Z.land v 0xc0 =? 0x40) then waitdisk_loop fuel else mret ()
  end.
Definition waitdisk : MB unit := waitdisk_loop spins.

Definition readsect (dst offset : Z) : MB unit :=
  waitdisk ;;
  on_io (outb 0x1f2 1) ;;
  on_io (outb 0x1f3 offset) ;;
  on_io (outb 0x1f4 (Z.shiftr offset 8)) ;;
  on_io (outb 0x1f5 (Z.shiftr offset 16)) ;;
  on_io (outb 0x1f6 (Z.lor (Z.shiftr offset 24) 0xe0)) ;;
  on_io (outb 0x1f7 0x20) ;;
  waitdisk ;;
  l ← on_io (insl 0x1f0 (Z.to_nat (SECTSIZE / 4)));
  modify (set_bmem (fun m => store m dst l)).

(** The loop ends unless [pa] wraps around, in which case it never does. *)
Fixpoint readseg_loop (fuel : nat) (pa epa offset : Z) : MB unit :=
  match fuel with
  | O => blocked
  | S fuel =>
      if pa <? epa then readsect pa offset ;; readseg_loop fuel (u32 (pa + SECTSIZE)) epa (u32 (offset + 1))
      else mret ()
  end.
Definition readseg (pa count offset : Z) : MB unit :=
  let epa := u32 (pa + count) in
  let pa := u32 (pa - offset mod SECTSIZE) in
  readseg_loop (S (Z.to_nat ((epa - pa + SECTSIZE - 1) / SECTSIZE))) pa epa (u32 (offset / SECTSIZE + 1)).

(** [for(; ph < eph; ph++)]: [phnum] headers, read from memory as they come. *)
Fixpoint load_kernel (fuel : nat) (ph eph : Z) : MB unit :=
  match fuel with
  | O => mret ()
  | S fuel =>
      if ph <? eph then
        m ← gets bmem;
        let pa := load32 m (ph + 12) in
        let filesz := load32 m (ph + 16) in
        readseg pa filesz (load32 m (ph + 4)) ;;
        m ← gets bmem;
        let filesz := load32 m (ph + 16) in
        let memsz := load32 m (ph + 20) in
        (if filesz <? memsz then modify (set_bmem (fun m => fill m (u32 (pa + filesz)) 0 (memsz - filesz))) else mret ()) ;;
        load_kernel fuel (u32 (ph + 32)) eph
      else mret ()
  end.

(** The entry point, or [None] if the image is not an ELF executable. *)
Definition bootmain : MB (option Z) :=
  let elf := 0x10000 in
  readseg elf 4096 0 ;;
  m ← gets bmem;
  if negb (load32 m elf =? ELF_MAGIC) then mret None
  else
    let ph := u32 (elf + load32 m (elf + 28)) in
    let phnum := le_val (loadn m (elf + 44) 2) in
    let eph := u32 (ph + phnum * 32) in
    load_kernel (Z.to_nat phnum) ph eph ;;
    m ← gets bmem;
    mret (Some (load32 m (elf + 24))).
End boot.

(** ** One sector *)

Section proofs.
Context `{AtaPorts D} (spins : nat) `{!Patient D spins}.
Implicit Types (s : boot_st D) (dk : Z -> list Z).

Definition disk0 (s : boot_st D) : Z -> list Z := at_disk (pl_ata (bplat s)) 0.

(** Only the devices change, and not what the disk holds. *)
Definition io_only (s : boot_st D) (a : atadev) (s' : boot_st D) : Prop := only_ata (bplat s) a (bplat s') /\ bmem s' = bmem s.

Lemma io_only_at s a s' : io_only s a s' -> pl_ata (bplat s') = a.
Proof. intros [Ha _]. by eapply only_ata_at. Qed.
Lemma io_only_trans s a s1 a' s2 : io_only s a s1 -> io_only s1 a' s2 -> io_only s a' s2.
Proof. intros [H1 E1] [H2 E2]. split; [by eapply only_ata_trans|by rewrite E2]. Qed.

Lemma wp_on_io {A} (m : M (plat D) A) (R : A -> Prop) a s : wp m (fun r p' => R r /\ only_ata (bplat s) a p') (bplat s) ->
  wp (on_io m) (fun r s' => R r /\ io_only s a s') s.
Proof. intros Hm. apply wp_lift. eapply wp_mono; [exact Hm|]. intros r p' [HR Hp]. by split. Qed.

Lemma wp_boot_reg p v s : 0x1f2 <= p <= 0x1f6 -> wp (on_io (outb p v)) (fun _ s' => io_only s (set_reg p (u8 v) (pl_ata (bplat s))) s') s.
Proof. intros Hp. apply wp_lift. eapply wp_mono; [by apply wp_ata_reg|]. by intros [] p' Hp'. Qed.

Lemma wp_waitdisk_loop fuel : forall s, (ata_busy (pdev (bplat s)) < fuel)%nat ->
  wp (waitdisk_loop fuel) (fun _ s' => io_only s (pl_ata (bplat s)) s') s.
Proof.
  induction fuel as [|fuel IH]; intros s Hb; [lia|]. cbn [waitdisk_loop]. apply wp_bind, wp_lift, wp_on_dev. cbn [bplat_lens lget lset].
  pose proof (ata_status (pdev (bplat s))) as Hs. destruct (port_in 0x1f7 (pdev (bplat s))) as [v d].
  destruct Hs as (Ha & Hfa & Hv & Hst). cbn [fst snd]. unfold u8. rewrite Z.mod_small by done.
  set (s1 := Boot _ _). assert (H1 : io_only s (pl_ata (bplat s)) s1) by (split; [exists d; done|done]).
  change 0xc0 with (Z.lor IDE_BSY IDE_DRDY). change 0x40 with IDE_DRDY. destruct (ata_busy (pdev (bplat s))) as [|n].
  - destruct Hst as [Hr _]. unfold ata_ready in Hr. rewrite Hr. by apply wp_ret.
  - destruct Hst as [Hne En]. replace (_ =? IDE_DRDY) with false by (symmetry; by apply Z.eqb_neq). cbn [negb].
    eapply wp_mono; [apply IH; simpl; lia|]. intros [] s' Ho. rewrite (io_only_at _ _ _ H1) in Ho. exact (io_only_trans _ _ _ _ _ H1 Ho).
Qed.

Lemma wp_waitdisk s : wp (waitdisk spins) (fun _ s' => io_only s (pl_ata (bplat s)) s') s.
Proof. apply wp_waitdisk_loop, patient. Qed.

(** The registers that select sector [n] of the boot disk. *)
Definition boot_select (n : Z) (a : atadev) : atadev :=
  set_reg 0x1f6 (u8 (Z.lor (Z.shiftr n 24) 0xe0)) (set_reg 0x1f5 (u8 (Z.shiftr n 16)) (set_reg 0x1f4 (u8 (Z.shiftr n 8))
    (set_reg 0x1f3 (u8 n) (set_reg 0x1f2 (u8 1) a)))).

Lemma boot_select_cmd n a : 0 <= n < 268435456 -> ata_cmd 0x20 (boot_select n a) = set_xfer (Some (true, at_disk a 0 n)) (boot_select n a).
Proof.
  intros Hn. unfold ata_cmd.
  assert (E : u8 (Z.lor (Z.shiftr n 24) 0xe0) = 224 + n / 16777216).
  { rewrite Z.lor_comm. change 0xe0 with (Z.shiftl 7 5). rewrite Z.shiftr_div_pow2 by lia. change (2 ^ 24) with 16777216. assert (0 <= n / 16777216 < 16) by zlia. rewrite lor_shiftl by lia. change (7 * 2 ^ 5) with 224. unfold u8. rewrite Z.mod_small by lia. done. }
  assert (H2 : at_regs (boot_select n a) 0x1f2 = 1) by done.
  assert (H6 : at_regs (boot_select n a) 0x1f6 = 224 + n / 16777216) by exact E.
  assert (Hd : ata_drive (boot_select n a) = 0) by (unfold ata_drive; rewrite H6; zlia).
  assert (Hl : ata_lba (boot_select n a) = n).
  { unfold ata_lba. rewrite H6. simpl. unfold u8. rewrite !Z.shiftr_div_pow2 by lia. simpl (2 ^ _). zlia. }
  rewrite H2, H6, Hd, Hl. replace ((224 + n / 16777216) / 32 =? 7) with true by zlia. done.
Qed.

Lemma wp_readsect dst n s : 0 <= n < 268435456 -> (length (disk0 s n) = 512)%nat -> bytes_ok (disk0 s n) ->
  wp (readsect spins dst n) (fun _ s' => bmem s' = store (bmem s) dst (disk0 s n) /\ disk0 s' = disk0 s) s.
Proof.
  intros Hn Hl Hok. unfold readsect.
  eapply wp_seq; [apply wp_waitdisk|]. intros [] s0 D0. eapply wp_seq; [apply wp_boot_reg; lia|]. intros [] s1 D1.
  eapply wp_seq; [apply wp_boot_reg; lia|]. intros [] s2 D2. eapply wp_seq; [apply wp_boot_reg; lia|]. intros [] s3 D3.
  eapply wp_seq; [apply wp_boot_reg; lia|]. intros [] s4 D4. eapply wp_seq; [apply wp_boot_reg; lia|]. intros [] s5 D5.
  rewrite (io_only_at _ _ _ D0) in D1. rewrite (io_only_at _ _ _ D1) in D2. rewrite (io_only_at _ _ _ D2) in D3.
  rewrite (io_only_at _ _ _ D3) in D4. rewrite (io_only_at _ _ _ D4) in D5. fold (boot_select n (pl_ata (bplat s))) in D5.
  assert (Dn : io_only s (boot_select n (pl_ata (bplat s))) s5) by eauto 10 using io_only_trans. clear D0 D1 D2 D3 D4 D5.
  eapply wp_seq; [apply (wp_on_io _ (fun _ => True)); eapply wp_mono; [by apply wp_ata_cmd|by intros [] p' Hp']|]. intros [] s6 [_ D6].
  rewrite (io_only_at _ _ _ Dn), boot_select_cmd in D6 by done. assert (Da := io_only_trans _ _ _ _ _ Dn D6). clear D6 Dn.
  eapply wp_seq; [apply wp_waitdisk|]. intros [] s7 D7. rewrite (io_only_at _ _ _ Da) in D7. assert (Db := io_only_trans _ _ _ _ _ Da D7). clear Da D7.
  eapply wp_seq; [apply (wp_on_io _ (fun l => l = disk0 s n)); apply (wp_insl 128); [rewrite (io_only_at _ _ _ Db); reflexivity|exact Hl|exact Hok]|].
  intros l s8 [-> D8]. rewrite (io_only_at _ _ _ Db) in D8. assert (Dc := io_only_trans _ _ _ _ _ Db D8).
  apply wp_modify. simpl. split; [by rewrite (proj2 Dc)|]. unfold disk0 at 1. simpl. by rewrite (io_only_at _ _ _ Dc).
Qed.

(** ** A range of the image *)

(** The byte at offset [k] of a disk, and of the kernel image. *)
Definition sbyte dk (k : Z) : Z := default 0 (dk (k / 512) !! Z.to_nat (k mod 512)).
Definition kbyte dk (k : Z) : Z := sbyte dk (512 + k).

Definition sectors_ok dk : Prop := forall n, (length (dk n) = 512)%nat /\ bytes_ok (dk n).

Lemma wp_readseg_loop fuel : forall pa epa n s, sectors_ok (disk0 s) -> epa - pa <= 512 * (Z.of_nat fuel - 1) ->
  0 <= pa < 4294967296 -> epa + 511 < 4294967296 -> 0 <= n -> n + Z.of_nat fuel < 268435456 -> (0 < fuel)%nat ->
  wp (readseg_loop spins fuel pa epa n) (fun _ s' => disk0 s' = disk0 s /\
    forall x, bmem s' x = if decide (pa <= x < pa + 512 * ((epa - pa + 511) / 512)) then sbyte (disk0 s) (512 * n + (x - pa)) else bmem s x) s.
Proof.
  induction fuel as [|fuel IH]; intros pa epa n s Hok Hf Hpa Hepa Hn Hm Hp; [lia|]. cbn [readseg_loop]. destruct (Z.ltb_spec pa epa).
  - destruct (Hok n) as [Hl Hb]. eapply wp_seq; [apply wp_readsect; [lia|done|done]|]. intros [] s1 [Em Ed].
    change SECTSIZE with 512. rewrite !u32_small by (unfold is_u32; lia).
    eapply wp_mono; [apply IH; rewrite ?Ed; (done || lia)|]. intros [] s' [Ed' Em']. split; [congruence|]. intros x.
    rewrite Em', Ed, Em. rewrite store_lookup, Hl. replace (epa - (pa + 512) + 511) with (epa - pa + 511 + -1 * 512) by lia.
    rewrite Z.div_add by lia. assert (1 <= (epa - pa + 511) / 512) by (apply Z.div_le_lower_bound; lia). unfold sbyte.
    repeat case_decide; try lia.
    + f_equal. replace (512 * (n + 1) + (x - (pa + 512))) with (512 * n + (x - pa)) by lia. done.
    + replace (512 * n + (x - pa)) with (x - pa + n * 512) by lia. rewrite Z.div_add, Z.mod_add by lia.
      rewrite Z.div_small, Z.mod_small by lia. done.
  - apply wp_ret. split; [done|]. intros x. rewrite decide_False; [done|]. assert ((epa - pa + 511) / 512 < 1) by (apply Z.div_lt_upper_bound; lia). lia.
Qed.

Lemma wp_readseg pa count off s : sectors_ok (disk0 s) -> off mod 512 <= pa -> 0 <= count -> pa + count + 1024 < 4294967296 ->
  0 <= off -> off + count < 134217728000 ->
  wp (readseg spins pa count off) (fun _ s' => disk0 s' = disk0 s /\
    (forall x, pa <= x < pa + count -> bmem s' x = kbyte (disk0 s) (off + (x - pa))) /\
    (forall x, x < pa - off mod 512 -> bmem s' x = bmem s x)) s.
Proof.
  intros Hok Hpa Hc Hend Hoff Hmax. unfold readseg. change SECTSIZE with 512.
  pose proof (Z.mod_pos_bound off 512 ltac:(lia)). assert (0 <= off / 512) by (apply Z.div_pos; lia).
  assert (off / 512 <= 262144000) by (apply Z.div_le_upper_bound; lia).
  rewrite (u32_small (pa + count)), (u32_small (pa - off mod 512)), (u32_small (off / 512 + 1)) by (unfold is_u32; lia).
  set (a := pa - off mod 512). set (e := pa + count). set (k := (e - a + 512 - 1) / 512).
  assert (Hk : 0 <= k /\ e - a <= 512 * k /\ k <= (count + 1023) / 512).
  { subst k a e. split; [apply Z.div_pos; lia|]. split; [zlia|]. apply Z.div_le_mono; lia. }
  assert ((count + 1023) / 512 + off / 512 + 2 < 268435456) by zlia.
  eapply wp_mono; [apply wp_readseg_loop; (done || lia)|]. intros [] s' [Ed Em]. split; [done|].
  split; intros x Hx; rewrite Em; replace ((e - a + 511) / 512) with k by (unfold k; f_equal; lia).
  - rewrite decide_True by lia. unfold kbyte. f_equal. unfold a. pose proof (Z.div_mod off 512). lia.
  - rewrite decide_False by lia. done.
Qed.

(** ** The segments *)

Record seg := Seg { g_pa : Z; g_off : Z; g_filesz : Z; g_memsz : Z }.

(** The segment a program header at [ph] describes, and the headers' own. *)
Definition seg_at (m : mem) (ph : Z) : seg := Seg (load32 m (ph + 12)) (load32 m (ph + 4)) (load32 m (ph + 16)) (load32 m (ph + 20)).
Definition segs_at (m : mem) (ph : Z) (n : nat) : list seg := (fun i => seg_at m (ph + 32 * Z.of_nat i)) <$> seq 0 n.

Record seg_ok (g : seg) : Prop := {
  sg_off : 0 <= g_off g;
  sg_size : 0 <= g_filesz g <= g_memsz g;
  sg_disk : g_off g + g_filesz g < 134217728000;
  sg_end : g_pa g + g_memsz g + 1024 < 4294967296 }.

(** Segments at increasing addresses, from [lo] on; a sector that is read for
    the start of one may begin before it. *)
Fixpoint in_order (lo : Z) (gs : list seg) : Prop :=
  match gs with
  | [] => True
  | g :: gs => lo <= g_pa g - g_off g mod 512 /\ in_order (g_pa g + g_memsz g) gs
  end.

Definition loaded dk (m : mem) (g : seg) : Prop := forall k, 0 <= k < g_memsz g ->
  m (g_pa g + k) = if k <? g_filesz g then kbyte dk (g_off g + k) else 0.

Lemma load32_scratch m m' lo a : (forall x, x < lo -> m' x = m x) -> a + 4 <= lo -> load32 m' a = load32 m a.
Proof. intros Hm Ha. apply load32_ext. intros k Hk. apply Hm. lia. Qed.

Lemma seg_at_scratch m m' lo ph : (forall x, x < lo -> m' x = m x) -> ph + 32 <= lo -> seg_at m' ph = seg_at m ph.
Proof. intros Hm Hp. unfold seg_at. by rewrite !(load32_scratch m m' lo) by (done || lia). Qed.

Lemma segs_at_cons m ph n : segs_at m ph (S n) = seg_at m ph :: segs_at m (ph + 32) n.
Proof.
  unfold segs_at. rewrite <- cons_seq, <- fmap_S_seq, fmap_cons, <- list_fmap_compose. f_equal; [f_equal; lia|].
  apply list_fmap_ext. intros i j _. simpl. f_equal. lia.
Qed.

Lemma in_order_le lo gs : Forall seg_ok gs -> in_order lo gs -> Forall (fun g => lo <= g_pa g) gs.
Proof.
  revert lo. induction gs as [|g gs IH]; intros lo Hok Ho; [done|]. apply Forall_cons in Hok as [[? ? ? ?] Hok]. destruct Ho as [Hg Ho].
  pose proof (Z.mod_pos_bound (g_off g) 512 ltac:(lia)). apply Forall_cons. split; [lia|].
  eapply Forall_impl; [by apply IH|]. intros g' Hg'. simpl in Hg'. lia.
Qed.

(** One iteration: read the part that is in the file, clear the rest. *)
Lemma wp_load_segment ph s lo : let g := seg_at (bmem s) ph in sectors_ok (disk0 s) -> seg_ok g -> lo <= g_pa g - g_off g mod 512 -> 0 <= ph -> ph + 32 <= lo ->
  forall (k : M (boot_st D) unit) Q,
  (forall s', disk0 s' = disk0 s -> loaded (disk0 s) (bmem s') g -> (forall x, x < lo -> bmem s' x = bmem s x) -> wp k Q s') ->
  wp (readseg spins (g_pa g) (g_filesz g) (g_off g) ;;
      m ← gets bmem;
      (if load32 m (ph + 16) <? load32 m (ph + 20)
       then modify (set_bmem (fun m' => fill m' (u32 (g_pa g + load32 m (ph + 16))) 0 (load32 m (ph + 20) - load32 m (ph + 16)))) else mret ()) ;; k) Q s.
Proof.
  intros g Hdk [Ho Hsz Hd He] Hlo Hph Hph2 k Q Hk. pose proof (Z.mod_pos_bound (g_off g) 512 ltac:(lia)).
  eapply wp_seq; [apply wp_readseg; (done || lia)|]. intros [] s1 (Ed & Hin & Hout). apply wp_bind, wp_gets.
  assert (Hs : forall x, x < lo -> bmem s1 x = bmem s x) by (intros x Hx; apply Hout; lia).
  rewrite !(load32_scratch (bmem s) (bmem s1) lo) by (done || lia).
  change (load32 (bmem s) (ph + 16)) with (g_filesz g). change (load32 (bmem s) (ph + 20)) with (g_memsz g).
  rewrite u32_small by (unfold is_u32; lia). apply wp_bind. destruct (Z.ltb_spec (g_filesz g) (g_memsz g)).
  - apply wp_modify. apply Hk; [done| |]; cbn [bmem set_bmem]; unfold fill.
    + intros i Hi. destruct (Z.ltb_spec i (g_filesz g)).
      * replace (_ && _) with false by lia. rewrite Hin by lia. f_equal. lia.
      * by replace (_ && _) with true by lia.
    + intros x Hx. replace (_ && _) with false by lia. by apply Hs.
  - apply wp_ret. apply Hk; [done| |done]. intros i Hi. replace (i <? g_filesz g) with true by lia. rewrite Hin by lia. f_equal. lia.
Qed.

Lemma wp_load_kernel n : forall ph lo s, sectors_ok (disk0 s) -> 0 <= ph -> ph + 32 * Z.of_nat n <= lo -> lo < 4294967296 ->
  Forall seg_ok (segs_at (bmem s) ph n) -> in_order lo (segs_at (bmem s) ph n) ->
  wp (load_kernel spins n ph (ph + 32 * Z.of_nat n)) (fun _ s' => disk0 s' = disk0 s /\
    Forall (loaded (disk0 s) (bmem s')) (segs_at (bmem s) ph n) /\ forall x, x < lo -> bmem s' x = bmem s x) s.
Proof.
  induction n as [|n IH]; intros ph lo s Hdk Hph Hlo Hmax Hok Hord; [by apply wp_ret|].
  rewrite segs_at_cons in *. apply Forall_cons in Hok as [Hg Hok]. destruct Hord as [Hg1 Hord]. cbn [load_kernel].
  replace (ph <? ph + 32 * Z.of_nat (S n)) with true by lia. apply wp_bind, wp_gets. cbv zeta.
  apply (wp_load_segment ph s lo); [done|done|done|done|lia|]. intros s1 Ed Hld Hs1.
  rewrite u32_small by (unfold is_u32; lia). replace (ph + 32 * Z.of_nat (S n)) with (ph + 32 + 32 * Z.of_nat n) by lia.
  set (g := seg_at (bmem s) ph) in *. set (lo' := g_pa g + g_memsz g) in *.
  assert (Es : segs_at (bmem s1) (ph + 32) n = segs_at (bmem s) (ph + 32) n).
  { apply list_fmap_ext. intros i j Hij. apply lookup_seq in Hij as [-> Hij]. apply (seg_at_scratch _ _ lo); [done|lia]. }
  assert (lo <= lo') by (destruct Hg; pose proof (Z.mod_pos_bound (g_off g) 512 ltac:(lia)); unfold lo'; lia).
  eapply wp_mono; [apply (IH (ph + 32) lo'); rewrite ?Ed, ?Es; try done; try lia; destruct Hg; unfold lo'; lia|].
  intros [] s' (Ed' & Hall & Hs'). rewrite Ed, Es in *. split; [done|]. split.
  - apply Forall_cons. split; [|done]. intros k Hk. rewrite Hs' by (unfold lo'; lia). by apply Hld.
  - intros x Hx. rewrite Hs' by lia. by apply Hs1.
Qed.

(** ** The kernel *)

(** The first page of the image, where the loader puts it. *)
Definition elf_page dk : mem := fun x => kbyte dk (x - 0x10000).
Definition elf_phoff dk : Z := load32 (elf_page dk) (0x10000 + 28).
Definition elf_phnum dk : Z := le_val (loadn (elf_page dk) (0x10000 + 44) 2).
Definition elf_entry dk : Z := load32 (elf_page dk) (0x10000 + 24).
Definition elf_segs dk : list seg := segs_at (elf_page dk) (0x10000 + elf_phoff dk) (Z.to_nat (elf_phnum dk)).

(** An image the loader can load: its headers are in the first page and its
    segments, in increasing order, do not overlap that page's copy. *)
Record kernel_ok dk : Prop := {
  ko_table : elf_phoff dk + 32 * elf_phnum dk <= 4096;
  ko_segs : Forall seg_ok (elf_segs dk);
  ko_order : in_order 0x11000 (elf_segs dk) }.

Lemma kbyte_u8 dk k : sectors_ok dk -> is_u8 (kbyte dk k).
Proof.
  intros Hdk. unfold kbyte, sbyte. destruct (dk _ !! _) as [v|] eqn:E; [|unfold is_u8; simpl; lia].
  destruct (Hdk ((512 + k) / 512)) as [_ Hb]. exact (Forall_lookup_1 _ _ _ _ Hb E).
Qed.

Lemma elf_val dk a n : sectors_ok dk -> 0 <= le_val (loadn (elf_page dk) a n) < 256 ^ Z.of_nat n.
Proof.
  intros Hdk. pose proof (le_val_range (loadn (elf_page dk) a n)) as Hr. rewrite length_loadn in Hr. apply Hr.
  apply Forall_lookup_2. intros i v Hi. assert ((i < n)%nat) by (apply lookup_lt_Some in Hi; by rewrite length_loadn in Hi).
  rewrite lookup_loadn in Hi by done. injection Hi as <-. by apply kbyte_u8.
Qed.

Lemma segs_at_ext m m' ph n : (forall x, ph <= x < ph + 32 * Z.of_nat n -> m' x = m x) -> segs_at m' ph n = segs_at m ph n.
Proof.
  intros Hm. apply list_fmap_ext. intros i j Hij. apply lookup_seq in Hij as [-> Hij]. unfold seg_at.
  by rewrite !(load32_ext m' m) by (intros k Hk; apply Hm; lia).
Qed.

(** C35 The boot loader gives the kernel's entry point and has every segment of
    its image at its physical address, the part beyond the file cleared; an
    image that is not an ELF executable is not loaded. *)
Theorem bootmain_loads s : let dk := disk0 s in sectors_ok dk ->
  (load32 (elf_page dk) 0x10000 = ELF_MAGIC -> kernel_ok dk) ->
  wp (bootmain spins) (fun r s' => if load32 (elf_page dk) 0x10000 =? ELF_MAGIC
    then r = Some (elf_entry dk) /\ Forall (loaded dk (bmem s')) (elf_segs dk) else r = None) s.
Proof.
  intros dk Hdk Hko. unfold bootmain. cbv zeta.
  eapply wp_seq; [apply (wp_readseg 0x10000 4096 0); (done || lia)|]. intros [] s1 (Ed & Hin & _). apply wp_bind, wp_gets.
  assert (Hp : forall x, 0x10000 <= x < 0x11000 -> bmem s1 x = elf_page dk x) by (intros x Hx; rewrite Hin by lia; unfold elf_page; f_equal; lia).
  assert (H32 : forall a, 0x10000 <= a -> a + 4 <= 0x11000 -> load32 (bmem s1) a = load32 (elf_page dk) a).
  { intros a Ha1 Ha2. apply load32_ext. intros k Hk. apply Hp. lia. }
  rewrite !H32 by lia. rewrite (loadn_ext (bmem s1) (elf_page dk)) by (intros k Hk; apply Hp; lia).
  fold (elf_phoff dk) (elf_phnum dk). destruct (Z.eqb_spec (load32 (elf_page dk) 0x10000) ELF_MAGIC) as [Hmag|]; cbn [negb]; [|by apply wp_ret].
  destruct (Hko Hmag) as [Ht Hs Ho]. pose proof (elf_val dk (0x10000 + 28) 4 Hdk) as Hoff. fold (load32 (elf_page dk) (0x10000 + 28)) (elf_phoff dk) in Hoff.
  pose proof (elf_val dk (0x10000 + 44) 2 Hdk) as Hnum. fold (elf_phnum dk) in Hnum.
  rewrite !u32_small by (rewrite ?u32_small; unfold is_u32; lia).
  set (ph := 0x10000 + elf_phoff dk) in *. set (n := Z.to_nat (elf_phnum dk)) in *.
  assert (Es : segs_at (bmem s1) ph n = elf_segs dk) by (apply segs_at_ext; intros x Hx; apply Hp; lia).
  replace (ph + elf_phnum dk * 32) with (ph + 32 * Z.of_nat n) by lia.
  eapply wp_seq; [apply (wp_load_kernel n ph 0x11000); rewrite ?Es, ?Ed; (done || lia)|]. intros [] s2 (Ed2 & Hld & Hs2). rewrite Es, Ed in Hld.
  apply wp_bind, wp_gets, wp_ret. split; [|done]. f_equal. rewrite (load32_scratch (bmem s1) (bmem s2) 0x11000) by (done || lia). by rewrite H32 by lia.
Qed.
End proofs.

(** A kernel with one segment of 1000 bytes at 1 MB, 500 of them in the file. *)
Definition boot_image : list Z :=
  le_bytes 4 ELF_MAGIC ++ replicate 20 0 ++ le_bytes 4 0x10000c ++ le_bytes 4 52 ++ replicate 12 0 ++ le_bytes 2 1 ++ replicate 6 0 ++
  le_bytes 4 1 ++ le_bytes 4 1024 ++ le_bytes 4 0x100000 ++ le_bytes 4 0x100000 ++ le_bytes 4 500 ++ le_bytes 4 1000 ++ replicate 8 0.
Definition boot_disk : Z -> Z -> list Z := fun _ n =>
  if n =? 1 then boot_image ++ replicate (512 - length boot_image) 0 else replicate 512 (n mod 256).
Definition boot_demo : boot_st simdisk := Boot (Plat (Sim (Ata boot_disk (fun _ => 0) None) false) 0 false 1 0 0) (fun _ => 0).

Lemma boot_demo_sectors : sectors_ok (disk0 boot_demo).
Proof.
  intros n. unfold disk0. cbn [boot_demo bplat]. change (at_disk (pl_ata _) 0 n) with (boot_disk 0 n). unfold boot_disk. destruct (n =? 1).
  - split; [by vm_compute|]. apply (bool_decide_unpack _). by vm_compute.
  - split; [apply length_replicate|]. apply Forall_replicate, Z.mod_pos_bound. lia.
Qed.

Lemma bootmain_loads_witness :
  wp (bootmain 2) (fun r s' => if load32 (elf_page (disk0 boot_demo)) 0x10000 =? ELF_MAGIC
    then r = Some (elf_entry (disk0 boot_demo)) /\ Forall (loaded (disk0 boot_demo) (bmem s')) (elf_segs (disk0 boot_demo)) else r = None) boot_demo.
Proof.
  apply (bootmain_loads 2 boot_demo boot_demo_sectors). intros _.
  assert (E : elf_segs (disk0 boot_demo) = [Seg 0x100000 1024 500 1000]) by (vm_compute; reflexivity).
  split; [by vm_compute|rewrite E; repeat constructor; simpl; lia|]. rewrite E. by vm_compute.
Defined.
