(* ===== verification/Ide.v ===== *)
(** * The IDE disk driver (ide.c)

    Requests wait in a queue of buffers linked through [qnext]; the first is
    the one the disk is working on.  [iderw] appends a request and sleeps until
    its buffer is done; the interrupt handler [ideintr] finishes the first
    request, wakes its process and starts the next.  The disk is a device
    behind ports that satisfies [AtaPorts].

    Requests are served in the order of [iderw], each exactly once, and a
    request has the same effect on its buffer and on the disk as that of the
    memory disk (memide.c), which the file system's theorems are about. *)

From S2P Require Import Prelude Params Spinlock Sched Ring Bio Io Ata.

Definition SECTOR_SIZE : Z := 512.

(** ** State *)

Record ide_st (D : Type) := Ide {
  ibio : bio_st; iplat : plat D; idequeue : option nat; havedisk1 : bool }.
Arguments Ide {D}.
Arguments ibio {D}.
Arguments iplat {D}.
Arguments idequeue {D}.
Arguments havedisk1 {D}.

Section ide.
Context `{Device D} (spins : nat).
Notation MI := (M (ide_st D)).
Implicit Types (s : ide_st D).

Definition set_ibio (x : bio_st) s := Ide x (iplat s) (idequeue s) (havedisk1 s).
Definition set_iplat (x : plat D) s := Ide (ibio s) x (idequeue s) (havedisk1 s).
Definition set_idequeue (x : option nat) s := Ide (ibio s) (iplat s) x (havedisk1 s).
Definition set_havedisk1 (x : bool) s := Ide (ibio s) (iplat s) (idequeue s) x.

Definition ibio_lens : lens (ide_st D) bio_st := Lens ibio set_ibio.
Definition iplat_lens : lens (ide_st D) (plat D) := Lens iplat set_iplat.

Definition on_bio {A} (m : M bio_st A) : MI A := lift ibio_lens m.
Definition on_plat {A} (m : M (plat D) A) : MI A := lift iplat_lens m.
Definition ide_in (p : Z) : MI Z := on_plat (inb p).
Definition ide_out (p v : Z) : MI unit := on_plat (outb p v).

Definition set_b_qnext (x : option nat) (b : buf) : buf :=
  Buf (b_flags b) (b_dev b) (b_blockno b) (b_prev b) (b_next b) x (b_data b).

(** ** Operations *)

(** The status once the disk is ready. *)
Fixpoint idewait_loop (fuel : nat) : MI Z :=
  match fuel with
  | O => blocked
  | S fuel =>
      r ← ide_in 0x1f7;
      if Z.land r (Z.lor IDE_BSY IDE_DRDY) =? IDE_DRDY then mret r else idewait_loop fuel
  end.

Definition idewait (checkerr : bool) : MI Z :=
  r ← idewait_loop spins;
  if checkerr && has r (Z.lor IDE_DF IDE_ERR) then mret (-1) else mret 0.

(** [for(i=0; i<1000; i++)]: is there an answer from disk 1? *)
Fixpoint probe (n : nat) : MI unit :=
  match n with
  | O => mret ()
  | S n => v ← ide_in 0x1f7; if negb (v =? 0) then modify (set_havedisk1 true) else probe n
  end.

Definition ideinit : MI unit :=
  on_bio (initlock Lide "ide") ;;
  on_plat (picenable IRQ_IDE) ;;
  n ← gets (fun s => ncpu (iplat s));
  on_plat (ioapicenable IRQ_IDE (n - 1)) ;;
  idewait false ;;
  ide_out 0x1f6 (Z.lor 0xe0 (Z.shiftl 1 4)) ;;
  probe 1000 ;;
  ide_out 0x1f6 (Z.lor 0xe0 (Z.shiftl 0 4)).

Definition idestart (o : option nat) : MI unit :=
  match o with
  | None => panic "idestart"
  | Some i =>
      b ← on_bio (buf_at i);
      if FSSIZE <=? b_blockno b then panic "incorrect blockno"
      else
        let sector_per_block := Z.of_nat BSIZE / SECTOR_SIZE in
        let sector := s32 (b_blockno b * sector_per_block) in
        if 7 <? sector_per_block then panic "idestart"
        else
          idewait false ;;
          ide_out 0x3f6 0 ;;
          ide_out 0x1f2 sector_per_block ;;
          ide_out 0x1f3 (Z.land sector 0xff) ;;
          ide_out 0x1f4 (Z.land (Z.shiftr sector 8) 0xff) ;;
          ide_out 0x1f5 (Z.land (Z.shiftr sector 16) 0xff) ;;
          ide_out 0x1f6 (Z.lor (Z.lor 0xe0 (Z.shiftl (Z.land (b_dev b) 1) 4)) (Z.land (Z.shiftr sector 24) 0x0f)) ;;
          if has (b_flags b) B_DIRTY then
            ide_out 0x1f7 IDE_CMD_WRITE ;;
            on_plat (outsl 0x1f0 (b_data b) (BSIZE / 4))
          else ide_out 0x1f7 IDE_CMD_READ
  end.

Definition ideintr : MI unit :=
  on_bio (acquire Lide) ;;
  q ← gets idequeue;
  match q with
  | None => on_bio (release Lide)
  | Some i =>
      b ← on_bio (buf_at i);
      modify (set_idequeue (b_qnext b)) ;;
      (if negb (has (b_flags b) B_DIRTY) then
         r ← idewait true;
         if 0 <=? r then d ← on_plat (insl 0x1f0 (BSIZE / 4)); on_bio (upd_buf i (set_b_data d)) else mret ()
       else mret ()) ;;
      on_bio (upd_buf i (fun b => set_b_flags (set_flag (b_flags b) B_VALID) b)) ;;
      on_bio (upd_buf i (fun b => set_b_flags (clear_flag (b_flags b) B_DIRTY) b)) ;;
      on_bio (wakeup (CBuf i)) ;;
      q ← gets idequeue;
      (match q with None => mret () | Some _ => idestart q end) ;;
      on_bio (release Lide)
  end.

(** The walk to the end of the queue: the last buffer in it, if any.  There are
    at most [NBUF] buffers. *)
Fixpoint queue_end (fuel : nat) (bs : nat -> buf) (last q : option nat) : option (option nat) :=
  match fuel with
  | O => None
  | S fuel => match q with None => Some last | Some i => queue_end fuel bs q (b_qnext (bs i)) end
  end.

(** [*pp = b] at the end of the queue. *)
Definition append (i : nat) : MI unit :=
  s ← get;
  match queue_end (S NBUF) (bufs (ibio s)) None (idequeue s) with
  | None => blocked
  | Some None => modify (set_idequeue (Some i))
  | Some (Some j) => on_bio (upd_buf j (set_b_qnext (Some i)))
  end.

(** The last part of [iderw]: the process sleeps until its buffer is done. *)
Definition iderw_wait (i : nat) : MI unit :=
  b ← on_bio (buf_at i);
  if negb (Z.land (b_flags b) (Z.lor B_VALID B_DIRTY) =? B_VALID) then on_bio (sleep (CBuf i) Lide) ;; blocked
  else on_bio (release Lide).

Definition iderw (i : nat) : MI unit :=
  b ← on_bio (buf_at i);
  h ← gets havedisk1;
  if negb (has (b_flags b) B_BUSY) then panic "iderw: buf not busy"
  else if Z.land (b_flags b) (Z.lor B_VALID B_DIRTY) =? B_VALID then panic "iderw: nothing to do"
  else if negb (b_dev b =? 0) && negb h then panic "iderw: ide disk 1 not present"
  else
    on_bio (acquire Lide) ;;
    on_bio (upd_buf i (set_b_qnext None)) ;;
    append i ;;
    q ← gets idequeue;
    (if bool_decide (q = Some i) then idestart (Some i) else mret ()) ;;
    iderw_wait i.
End ide.

(** ** The queue *)

Fixpoint qlinks (bs : nat -> buf) (q : option nat) (Q : list nat) : Prop :=
  match Q with
  | [] => q = None
  | i :: Q => q = Some i /\ qlinks bs (b_qnext (bs i)) Q
  end.

Lemma qlinks_ext bs bs' Q : forall q, (forall i, i ∈ Q -> b_qnext (bs' i) = b_qnext (bs i)) -> qlinks bs q Q -> qlinks bs' q Q.
Proof.
  induction Q as [|i Q IH]; intros q Hb; simpl; [done|]. intros [-> Hq]. split; [done|]. rewrite Hb by set_solver.
  apply IH; [|done]. intros j Hj. apply Hb. set_solver.
Qed.

Lemma queue_end_links bs Q : forall q l fuel, qlinks bs q Q -> (length Q < fuel)%nat ->
  queue_end fuel bs l q = Some (match last Q with Some j => Some j | None => l end).
Proof.
  induction Q as [|i Q IH]; intros q l [|fuel] Hq Hf; simpl in Hf; try lia; cbn [queue_end qlinks] in *; [by subst|].
  destruct Hq as [-> Hq]. rewrite (IH _ _ _ Hq) by lia. rewrite last_cons. by destruct (last Q).
Qed.

Lemma qlinks_snoc bs i Q : forall q j, qlinks bs q (Q ++ [j]) -> NoDup (Q ++ [j]) -> i ∉ Q ++ [j] -> b_qnext (bs i) = None ->
  qlinks (alter (set_b_qnext (Some i)) j bs) q (Q ++ [j; i]).
Proof.
  induction Q as [|k Q IH]; intros q j Hq Hnd Hi Hn; simpl in *.
  - destruct Hq as [-> Hq]. split; [done|]. rewrite fn_lookup_alter. split; [done|]. rewrite fn_lookup_alter_ne by set_solver. done.
  - destruct Hq as [-> Hq]. apply NoDup_cons in Hnd as [Hk Hnd]. split; [done|].
    rewrite fn_lookup_alter_ne by set_solver. apply IH; (done || set_solver).
Qed.

(** ** One request *)

Section proofs.
Context `{AtaPorts D} (spins : nat) `{!Patient D spins}.
Implicit Types (s : ide_st D).

Definition ataof (s : ide_st D) : atadev := pl_ata (iplat s).
(** Only the devices have changed, to a disk like [a]. *)
Definition dev_step (s : ide_st D) (a : atadev) (s' : ide_st D) : Prop := exists d, s' = set_iplat (set_pdev d (iplat s)) s /\ ata d = a.

Lemma wp_on_plat {A} (m : M (plat D) A) (R : A -> Prop) a s : wp m (fun r p' => R r /\ only_ata (iplat s) a p') (iplat s) ->
  wp (on_plat m) (fun r s' => R r /\ dev_step s a s') s.
Proof. intros Hm. apply wp_lift. eapply wp_mono; [exact Hm|]. intros r p' [HR (d & -> & Hd)]. split; [done|]. by exists d. Qed.

Lemma dev_step_at s a s' : dev_step s a s' -> ataof s' = a.
Proof. by intros (d & -> & <-). Qed.
Lemma dev_step_trans s a s1 a' s2 : dev_step s a s1 -> dev_step s1 a' s2 -> dev_step s a' s2.
Proof. intros (d & -> & Hd) (d' & -> & Hd'). by exists d'. Qed.

Lemma wp_out_reg p v s : 0x1f2 <= p <= 0x1f6 -> wp (ide_out p v) (fun _ s' => dev_step s (set_reg p (u8 v) (ataof s)) s') s.
Proof.
  intros Hp. eapply wp_mono; [apply (wp_on_plat _ (fun _ => True)); eapply wp_mono; [by apply wp_ata_reg|by intros [] p' Hp']|]. by intros [] s' [_ Hs'].
Qed.
Lemma wp_out_ctl v s : wp (ide_out 0x3f6 v) (fun _ s' => dev_step s (ataof s) s') s.
Proof.
  eapply wp_mono; [apply (wp_on_plat _ (fun _ => True)); eapply wp_mono; [by apply wp_ata_ctl|by intros [] p' Hp']|]. by intros [] s' [_ Hs'].
Qed.
Lemma wp_out_cmd v s : is_u8 v -> wp (ide_out 0x1f7 v) (fun _ s' => dev_step s (ata_cmd v (ataof s)) s') s.
Proof.
  intros Hv. eapply wp_mono; [apply (wp_on_plat _ (fun _ => True)); eapply wp_mono; [by apply wp_ata_cmd|by intros [] p' Hp']|]. by intros [] s' [_ Hs'].
Qed.

Lemma wp_idewait_loop fuel : forall s, (ata_busy (pdev (iplat s)) < fuel)%nat ->
  wp (idewait_loop fuel) (fun r s' => dev_step s (ataof s) s' /\ has r (Z.lor IDE_DF IDE_ERR) = ata_failed (pdev (iplat s))) s.
Proof.
  induction fuel as [|fuel IH]; intros s Hb; [lia|]. cbn [idewait_loop]. apply wp_bind, wp_lift, wp_on_dev. cbn [iplat_lens lget].
  pose proof (ata_status (pdev (iplat s))) as Hs. destruct (port_in 0x1f7 (pdev (iplat s))) as [v d].
  destruct Hs as (Ha & Hfa & Hv & Hst). cbn [fst snd]. unfold u8. rewrite Z.mod_small by done.
  assert (H1 : dev_step s (ataof s) (lset iplat_lens (set_pdev d (iplat s)) s)) by (exists d; split; [reflexivity|exact Ha]).
  destruct (ata_busy (pdev (iplat s))) as [|n].
  - destruct Hst as [Hr He]. unfold ata_ready in Hr. rewrite Hr, Z.eqb_refl. by apply wp_ret.
  - destruct Hst as [Hne En]. replace (_ =? IDE_DRDY) with false by (symmetry; by apply Z.eqb_neq).
    eapply wp_mono; [apply IH; simpl; lia|]. intros r s' [Ho He]. split.
    + rewrite (dev_step_at _ _ _ H1) in Ho. exact (dev_step_trans _ _ _ _ _ H1 Ho).
    + rewrite He. simpl. exact Hfa.
Qed.

Lemma wp_idewait c s : wp (idewait spins c) (fun r s' => dev_step s (ataof s) s' /\
  r = if c && ata_failed (pdev (iplat s)) then -1 else 0) s.
Proof.
  unfold idewait. eapply wp_seq; [apply wp_idewait_loop, patient|]. intros r s' [Ho He]. rewrite He. by destruct (c && _); apply wp_ret.
Qed.

(** A buffer that can be a request. *)
Record request_ok (b : buf) : Prop := {
  rq_block : 0 <= b_blockno b < FSSIZE;
  rq_dev : 0 <= b_dev b;
  rq_size : length (b_data b) = BSIZE;
  rq_bytes : bytes_ok (b_data b) }.

Definition drive (b : buf) : Z := Z.land (b_dev b) 1.

Lemma drive_cases b : 0 <= b_dev b -> drive b = 0 \/ drive b = 1.
Proof.
  intros Hd. unfold drive. pose proof (Z.land_ones (b_dev b) 1 ltac:(lia)) as E. change (Z.ones 1) with 1 in E. change (2 ^ 1) with 2 in E.
  rewrite E. zlia.
Qed.

(** What the disk does when the request for [b] is started: a write puts the
    data on the disk, a read has the sector ready. *)
Definition ata_started (b : buf) (a a' : atadev) : Prop :=
  if has (b_flags b) B_DIRTY then at_disk a' = put_sector (drive b) (b_blockno b) (b_data b) (at_disk a)
  else at_disk a' = at_disk a /\ at_xfer a' = Some (true, at_disk a (drive b) (b_blockno b)).

Lemma sector_regs n : 0 <= n < FSSIZE -> Z.land n 0xff = n mod 256 /\ Z.land (Z.shiftr n 8) 0xff = n / 256 /\
  Z.land (Z.shiftr n 16) 0xff = 0 /\ Z.land (Z.shiftr n 24) 0x0f = 0.
Proof.
  intros Hn. unfold FSSIZE in Hn. change 0xff with (Z.ones 8). change 0x0f with (Z.ones 4).
  rewrite !Z.land_ones, !Z.shiftr_div_pow2 by lia. simpl (2 ^ _). zlia.
Qed.

(** The registers that select the sector of [b]. *)
Definition select (b : buf) (a : atadev) : atadev :=
  set_reg 0x1f6 (u8 (Z.lor (Z.lor 0xe0 (Z.shiftl (drive b) 4)) 0)) (set_reg 0x1f5 (u8 0) (set_reg 0x1f4 (u8 (b_blockno b / 256))
    (set_reg 0x1f3 (u8 (b_blockno b mod 256)) (set_reg 0x1f2 (u8 1) a)))).

Lemma select_regs b a : request_ok b -> at_regs (select b a) 0x1f2 = 1 /\ at_regs (select b a) 0x1f6 / 32 = 7 /\
  ata_drive (select b a) = drive b /\ ata_lba (select b a) = b_blockno b.
Proof.
  intros [Hn Hd _ _]. unfold FSSIZE in Hn.
  assert (E : u8 (Z.lor (Z.lor 0xe0 (Z.shiftl (drive b) 4)) 0) = 224 + 16 * drive b) by (by destruct (drive_cases b Hd) as [-> | ->]).
  unfold ata_drive, ata_lba, select. rewrite E. simpl. pose proof (drive_cases b Hd). zlia.
Qed.

Lemma select_cmd b a v : request_ok b -> ata_cmd v (select b a) =
  if v =? IDE_CMD_READ then set_xfer (Some (true, at_disk a (drive b) (b_blockno b))) (select b a)
  else if v =? IDE_CMD_WRITE then set_xfer (Some (false, [])) (select b a)
  else set_xfer None (select b a).
Proof. intros Hrq. unfold ata_cmd. by destruct (select_regs b a Hrq) as (-> & -> & -> & ->). Qed.

Lemma wp_idestart i s : request_ok (bufs (ibio s) i) ->
  wp (idestart spins (Some i)) (fun _ s' => exists a', dev_step s a' s' /\ ata_started (bufs (ibio s) i) (ataof s) a') s.
Proof.
  intros Hrq. pose proof Hrq as [Hn Hd Hl Hb]. unfold idestart. apply wp_bind, wp_lift, wp_gets. cbn [ibio_lens lget lset]. set (b := bufs (ibio s) i) in *.
  replace (FSSIZE <=? b_blockno b) with false by lia. change (Z.of_nat BSIZE / SECTOR_SIZE) with 1. cbv zeta. rewrite Z.mul_1_r.
  rewrite s32_small by (unfold is_s32, FSSIZE in *; lia). change (7 <? 1) with false. destruct (sector_regs _ Hn) as (-> & -> & -> & ->).
  replace (set_ibio (ibio s) s) with s by (by destruct s).
  eapply wp_seq; [apply wp_idewait|]. intros r s0 [D0 _]. eapply wp_seq; [apply wp_out_ctl|]. intros [] s1 D1.
  eapply wp_seq; [apply wp_out_reg; lia|]. intros [] s2 D2. eapply wp_seq; [apply wp_out_reg; lia|]. intros [] s3 D3.
  eapply wp_seq; [apply wp_out_reg; lia|]. intros [] s4 D4. eapply wp_seq; [apply wp_out_reg; lia|]. intros [] s5 D5.
  eapply wp_seq; [apply wp_out_reg; lia|]. intros [] s6 D6. fold (drive b) in D6.
  rewrite (dev_step_at _ _ _ D0) in D1. rewrite (dev_step_at _ _ _ D1) in D2. rewrite (dev_step_at _ _ _ D2) in D3.
  rewrite (dev_step_at _ _ _ D3) in D4. rewrite (dev_step_at _ _ _ D4) in D5. rewrite (dev_step_at _ _ _ D5) in D6.
  fold (select b (ataof s)) in D6.
  assert (Dn : dev_step s (select b (ataof s)) s6) by eauto 10 using dev_step_trans. clear D0 D1 D2 D3 D4 D5 D6.
  pose proof (dev_step_at _ _ _ Dn) as E6. unfold ata_started. destruct (has (b_flags b) B_DIRTY).
  - eapply wp_seq; [by apply wp_out_cmd|]. intros [] s7 D7. rewrite E6, select_cmd in D7 by done.
    change (IDE_CMD_WRITE =? IDE_CMD_READ) with false in D7. change (IDE_CMD_WRITE =? IDE_CMD_WRITE) with true in D7.
    pose proof (dev_step_at _ _ _ D7) as E7.
    eapply wp_mono; [apply (wp_on_plat _ (fun _ => True)); eapply wp_mono; [eapply (wp_outsl 127 (b_data b) [])|]|].
    + change (pl_ata (iplat s7)) with (ataof s7). by rewrite E7.
    + done.
    + by rewrite Hl.
    + done.
    + intros [] p' Hp'. split; [done|exact Hp'].
    + intros [] s8 [_ D8]. cbv zeta in D8. change (pl_ata (iplat s7)) with (ataof s7) in D8. rewrite E7 in D8.
      eexists. split; [eauto using dev_step_trans|]. destruct (select_regs b (ataof s) Hrq) as (_ & _ & E1 & E2).
      change (at_disk (Ata ?x _ _)) with x. change (ata_drive (set_xfer _ ?a)) with (ata_drive a). change (ata_lba (set_xfer _ ?a)) with (ata_lba a).
      by rewrite E1, E2.
  - eapply wp_mono; [by apply wp_out_cmd|]. intros [] s7 D7. rewrite E6, select_cmd in D7 by done.
    change (IDE_CMD_READ =? IDE_CMD_READ) with true in D7. eexists. split; [eauto using dev_step_trans|]. done.
Qed.

(** ** The driver's invariant *)

(** The disk is working on the request for [b]: its data is on the disk, or the
    sector is ready to be read. *)
Definition active (b : buf) (a : atadev) : Prop :=
  if has (b_flags b) B_DIRTY then at_disk a (drive b) (b_blockno b) = b_data b
  else at_xfer a = Some (true, at_disk a (drive b) (b_blockno b)).

Definition pending (b : buf) : Prop := Z.land (b_flags b) (Z.lor B_VALID B_DIRTY) <> B_VALID.

Record ide_inv (Q : list nat) (s : ide_st D) : Prop := {
  iq_links : qlinks (bufs (ibio s)) (idequeue s) Q;
  iq_nodup : NoDup Q;
  iq_index : Forall (fun i => (i < NBUF)%nat) Q;
  iq_req : forall i, i ∈ Q -> request_ok (bufs (ibio s) i) /\ pending (bufs (ibio s) i);
  iq_disk : forall i n, length (at_disk (ataof s) i n) = BSIZE /\ bytes_ok (at_disk (ataof s) i n);
  iq_active : match Q with [] => True | i :: _ => active (bufs (ibio s) i) (ataof s) end }.

Lemma started_active b a a' : ata_started b a a' -> active b a'.
Proof.
  unfold ata_started, active. destruct (has (b_flags b) B_DIRTY).
  - intros ->. unfold put_sector. by rewrite !Z.eqb_refl.
  - by intros [-> ->].
Qed.

Lemma started_disk b a a' : request_ok b -> ata_started b a a' ->
  (forall i n, length (at_disk a i n) = BSIZE /\ bytes_ok (at_disk a i n)) -> forall i n, length (at_disk a' i n) = BSIZE /\ bytes_ok (at_disk a' i n).
Proof.
  intros [_ _ Hl Hb]. unfold ata_started. destruct (has (b_flags b) B_DIRTY); [intros ->|by intros [-> _]].
  intros Hd i n. unfold put_sector. by case_match.
Qed.

Lemma queue_short Q s : ide_inv Q s -> (length Q <= NBUF)%nat.
Proof.
  intros []. replace NBUF with (length (seq 0 NBUF)) by apply length_seq. apply (submseteq_length (A := nat)), NoDup_submseteq; [done|].
  intros i Hi. rewrite Forall_forall in iq_index0. apply elem_of_seq. pose proof (iq_index0 i Hi). lia.
Qed.

(** ** Operations on buffers *)

Lemma wp_ide_upd i f (Q : unit -> ide_st D -> Prop) s :
  Q () (set_ibio (set_bufs (alter f i (bufs (ibio s))) (ibio s)) s) -> wp (on_bio (upd_buf i f)) Q s.
Proof. intros HQ. apply wp_lift, wp_modify. exact HQ. Qed.

(** What happens to the scheduler's part alone. *)
Definition set_isched (x : sched_st) (s : ide_st D) : ide_st D := set_ibio (lset bsched_lens x (ibio s)) s.
Definition isched (s : ide_st D) : sched_st := bsched (ibio s).

Lemma wp_ide_sched (m : M sched_st unit) (R : sched_st -> Prop) s : wp m (fun _ x => R x) (isched s) ->
  wp (on_bio (lift bsched_lens m)) (fun _ s' => exists x, R x /\ s' = set_isched x s) s.
Proof. intros Hm. apply wp_lift, wp_lift. eapply wp_mono; [exact Hm|]. intros [] x Hx. by exists x. Qed.

Lemma ide_inv_sched Q x s : ide_inv Q s -> ide_inv Q (set_isched x s).
Proof. by intros []. Qed.

(** ** The interrupt handler *)

(** The buffer when its request is done. *)
Definition finished (b : buf) (w : list Z) : buf :=
  let b := if has (b_flags b) B_DIRTY then b else set_b_data w b in
  set_b_flags (clear_flag (set_flag (b_flags b) B_VALID) B_DIRTY) b.

(** Buffers that differ at [i] only. *)
Definition buf_step (i : nat) (b : buf) (bs bs' : nat -> buf) : Prop := bs' i = b /\ forall j, j <> i -> bs' j = bs j.

Lemma buf_step_alter i f bs : buf_step i (f (bs i)) bs (alter f i bs).
Proof. split; [by rewrite fn_lookup_alter|]. intros j Hj. by rewrite fn_lookup_alter_ne. Qed.
Lemma buf_step_trans i b1 b2 bs bs1 bs2 : buf_step i b1 bs bs1 -> buf_step i b2 bs1 bs2 -> buf_step i b2 bs bs2.
Proof. intros [_ H1] [H2 H3]. split; [done|]. intros j Hj. by rewrite H3, H1. Qed.

(** The change of a step of the handler: buffer [i] and the devices. *)
Definition io_step (i : nat) (b : buf) (s s' : ide_st D) : Prop := exists bs d,
  s' = set_ibio (set_bufs bs (ibio s)) (set_iplat (set_pdev d (iplat s)) s) /\ buf_step i b (bufs (ibio s)) bs /\
  at_disk (ata d) = at_disk (ataof s).

(** The data the handler has for a read; it is what was in the buffer if the
    disk failed. *)
Definition got (b : buf) (s : ide_st D) : list Z :=
  if ata_failed (pdev (iplat s)) then b_data b else at_disk (ataof s) (drive b) (b_blockno b).

Lemma wp_take_data i s : let b := bufs (ibio s) i in active b (ataof s) ->
  (forall i n, length (at_disk (ataof s) i n) = BSIZE /\ bytes_ok (at_disk (ataof s) i n)) ->
  wp (if negb (has (b_flags b) B_DIRTY) then
        r ← idewait spins true;
        if 0 <=? r then d ← on_plat (insl 0x1f0 (BSIZE / 4)); on_bio (upd_buf i (set_b_data d)) else mret ()
      else mret ())
    (fun _ s' => io_step i (if has (b_flags b) B_DIRTY then b else set_b_data (got b s) b) s s') s.
Proof.
  intros b Hact Hdisk. unfold active in Hact.
  destruct (has (b_flags b) B_DIRTY); simpl.
  { apply wp_ret. exists (bufs (ibio s)), (pdev (iplat s)). split; [by destruct s as [[] []]|]. done. }
  eapply wp_seq; [apply wp_idewait|]. intros r s1 [(d1 & -> & E1) ->]. unfold got. destruct (ata_failed _); simpl.
  { apply wp_ret. exists (bufs (ibio s)), d1. split; [by destruct s as [[] []]|]. split; [|by rewrite E1]. split; [unfold b; by destruct (bufs (ibio s) i)|done]. }
  set (s1 := set_iplat _ s). destruct (Hdisk (drive b) (b_blockno b)) as [Hl Hb].
  eapply wp_seq; [apply (wp_on_plat _ (fun l => l = at_disk (ataof s) (drive b) (b_blockno b)))|].
  { apply (wp_insl (BSIZE / 4)); [|by rewrite Hl|done]. unfold pl_ata. simpl. by rewrite E1. }
  intros l s2 [-> (d2 & -> & E2)]. apply wp_ide_upd. eexists _, d2. split; [done|]. split; [apply (buf_step_alter i (set_b_data _))|].
  rewrite E2. unfold pl_ata. simpl. by rewrite E1.
Qed.

(** The invariant for what is left in the queue, once [i] has been finished and
    the next request has been started. *)
Lemma ide_inv_next i Q s s' : ide_inv (i :: Q) s ->
  idequeue s' = b_qnext (bufs (ibio s) i) -> (forall j, j ∈ Q -> bufs (ibio s') j = bufs (ibio s) j) ->
  match Q with
  | [] => at_disk (ataof s') = at_disk (ataof s)
  | j :: _ => exists a, at_disk a = at_disk (ataof s) /\ ata_started (bufs (ibio s) j) a (ataof s')
  end -> ide_inv Q s'.
Proof.
  intros [Hq Hnd Hix Hreq Hdisk _] Hq' Hbs Hst. destruct Hq as [_ Hq]. apply NoDup_cons in Hnd as [Hi Hnd]. apply Forall_cons in Hix as [_ Hix].
  split; try done.
  - rewrite Hq'. eapply qlinks_ext; [|exact Hq]. intros j Hj. by rewrite Hbs.
  - intros j Hj. rewrite Hbs by done. apply Hreq. set_solver.
  - destruct Q as [|j Q]; [by rewrite Hst|]. destruct Hst as (a & Ea & Hst).
    eapply started_disk; [apply (Hreq j); set_solver|exact Hst|]. by rewrite Ea.
  - destruct Q as [|j Q]; [done|]. destruct Hst as (a & Ea & Hst). rewrite Hbs by set_solver. by eapply started_active.
Qed.

(** The disk after the next request of the queue has been started. *)
Definition next_disk (Q : list nat) (bs : nat -> buf) (d : Z -> Z -> list Z) : Z -> Z -> list Z :=
  match Q with
  | j :: _ => if has (b_flags (bs j)) B_DIRTY then put_sector (drive (bs j)) (b_blockno (bs j)) (b_data (bs j)) d else d
  | [] => d
  end.

Lemma wp_start_next i Q s s1 : ide_inv (i :: Q) s -> idequeue s1 = b_qnext (bufs (ibio s) i) ->
  (forall j, j ∈ Q -> bufs (ibio s1) j = bufs (ibio s) j) -> at_disk (ataof s1) = at_disk (ataof s) ->
  wp (q ← gets idequeue; match q with None => mret () | Some _ => idestart spins q end)
    (fun _ s2 => ide_inv Q s2 /\ (exists d, s2 = set_iplat (set_pdev d (iplat s1)) s1) /\
       at_disk (ataof s2) = next_disk Q (bufs (ibio s)) (at_disk (ataof s))) s1.
Proof.
  intros Hinv Hq Hbs Hd. pose proof (iq_links _ _ Hinv) as [_ Hl]. apply wp_bind, wp_gets. rewrite Hq. rewrite <- Hq in Hl.
  destruct Q as [|j Q].
  - simpl in Hl. rewrite <- Hq, Hl. apply wp_ret. split; [|split; [|done]].
    + by apply (ide_inv_next i [] s).
    + exists (pdev (iplat s1)). by destruct s1 as [? []].
  - destruct Hl as [Hl _]. rewrite <- Hq, Hl. assert (Hj : bufs (ibio s1) j = bufs (ibio s) j) by (apply Hbs; set_solver).
    eapply wp_mono; [apply wp_idestart; rewrite Hj; apply (iq_req _ _ Hinv); set_solver|]. rewrite Hj.
    intros [] s2 (a & (d & -> & Ea) & Hst). split; [|split; [by exists d|]].
    + apply (ide_inv_next i (j :: Q) s); try done. exists (ataof s1). split; [done|]. unfold ataof at 2. unfold pl_ata. simpl. by rewrite Ea.
    + unfold ataof at 1. unfold pl_ata. simpl. rewrite Ea. unfold ata_started in Hst. rewrite Hd in Hst.
      destruct (has (b_flags (bufs (ibio s) j)) B_DIRTY); [done|apply Hst].
Qed.

(** The disk's interrupt finishes the oldest request: its buffer has the
    sector's contents, or they are on the disk, and is valid and not dirty (also
    if the disk failed, when the buffer has what it had before); its process is awake; no other buffer changes, and the next request has been
    given to the disk. *)
Lemma wp_ideintr ien i Q s : ide_inv (i :: Q) s -> locked_by ien [] (isched s) ->
  let b := bufs (ibio s) i in
  wp (ideintr spins) (fun _ s' => ide_inv Q s' /\ locked_by ien [] (isched s') /\
    procs (isched s') = wake (CBuf i) <$> procs (isched s) /\
    buf_step i (finished b (got b s)) (bufs (ibio s)) (bufs (ibio s')) /\
    at_disk (ataof s') = next_disk Q (bufs (ibio s)) (at_disk (ataof s)) /\ havedisk1 s' = havedisk1 s) s.
Proof.
  intros Hinv HL b. unfold ideintr.
  eapply wp_seq; [apply (wp_ide_sched (Sched.acquire Lide)), (wp_acquire ien []); [done|set_solver|simpl; lia]|].
  intros [] s1 (x1 & [HL1 P1] & ->). apply wp_bind, wp_gets. pose proof (iq_links _ _ Hinv) as [Hq _].
  cbn [idequeue set_isched set_ibio]. rewrite Hq. apply wp_bind, wp_lift, wp_gets. cbn [ibio_lens lget lset].
  apply wp_bind, wp_modify. set (sa := set_idequeue _ _).
  eapply wp_seq; [apply (wp_take_data i sa); [exact (iq_active _ _ Hinv)|exact (iq_disk _ _ Hinv)]|].
  intros [] s2 (bs2 & d2 & -> & B2 & E2). apply wp_bind, wp_ide_upd, wp_bind, wp_ide_upd.
  set (sb := set_ibio _ _).
  eapply wp_seq; [apply (wp_ide_sched (Sched.wakeup (CBuf i))), (wp_wakeup ien [Lide]); [done|set_solver|simpl; lia]|].
  intros [] s3 (x3 & [HL3 W3] & ->).
  assert (B : buf_step i (finished b (got b s)) (bufs (ibio s)) (bufs (ibio sb))).
  { unfold sb. simpl. split.
    - rewrite !fn_lookup_alter, (proj1 B2). change (bufs (ibio sa) i) with b. change (got b sa) with (got b s). unfold finished. by destruct (has (b_flags b) B_DIRTY).
    - intros j Hj. rewrite !fn_lookup_alter_ne by done. by apply B2. }
  rewrite <- bind_assoc_wp. eapply wp_seq.
  { apply (wp_start_next i Q s); [done|done| |exact E2]. intros j Hj. apply B. intros ->.
    pose proof (iq_nodup _ _ Hinv) as Hnd. apply NoDup_cons in Hnd as [Hnd _]. done. }
  intros [] s4 (Hinv4 & (d4 & ->) & Hd4).
  eapply wp_mono; [apply (wp_ide_sched (Sched.release Lide)), (wp_release_hd ien []); done|].
  intros [] s5 (x5 & [HL5 P5] & ->). split; [by apply ide_inv_sched|]. split; [done|]. split; [|by split_and!].
  destruct P5 as (E5 & _), W3 as (E3 & _), P1 as (E1 & _). etrans; [exact E5|]. etrans; [exact E3|]. f_equal. exact E1.
Qed.

(** ** Requests *)

(** Buffers that differ in their place in the queue only. *)
Definition same_bufs (bs bs' : nat -> buf) : Prop := forall j, set_b_qnext None (bs' j) = set_b_qnext None (bs j).

Lemma same_bufs_eq bs bs' j : same_bufs bs bs' -> b_flags (bs' j) = b_flags (bs j) /\ b_dev (bs' j) = b_dev (bs j) /\
  b_blockno (bs' j) = b_blockno (bs j) /\ b_data (bs' j) = b_data (bs j).
Proof. intros Hb. specialize (Hb j). destruct (bs j), (bs' j). simpl in *. by simplify_eq. Qed.

Lemma same_bufs_request bs bs' j : same_bufs bs bs' -> request_ok (bs j) -> request_ok (bs' j).
Proof. intros Hb []. destruct (same_bufs_eq _ _ j Hb) as (_ & E1 & E2 & E3). split; by rewrite ?E1, ?E2, ?E3. Qed.
Lemma same_bufs_pending bs bs' j : same_bufs bs bs' -> pending (bs j) -> pending (bs' j).
Proof. intros Hb. unfold pending. by destruct (same_bufs_eq _ _ j Hb) as (-> & _). Qed.
Lemma same_bufs_active bs bs' j a : same_bufs bs bs' -> active (bs j) a -> active (bs' j) a.
Proof. intros Hb. unfold active, drive. by destruct (same_bufs_eq _ _ j Hb) as (-> & -> & -> & ->). Qed.
Lemma same_bufs_trans bs1 bs2 bs3 : same_bufs bs1 bs2 -> same_bufs bs2 bs3 -> same_bufs bs1 bs3.
Proof. intros H1 H2 j. by rewrite H2. Qed.
Lemma same_bufs_alter q i bs : same_bufs bs (alter (set_b_qnext q) i bs).
Proof. intros j. destruct (decide (j = i)) as [->|]; [by rewrite fn_lookup_alter|by rewrite fn_lookup_alter_ne]. Qed.

(** The queue with [i] at its end. *)
Lemma wp_append_queue i Q s : ide_inv Q s -> i ∉ Q -> b_qnext (bufs (ibio s) i) = None ->
  wp (append i) (fun _ s' => qlinks (bufs (ibio s')) (idequeue s') (Q ++ [i]) /\ same_bufs (bufs (ibio s)) (bufs (ibio s')) /\
    isched s' = isched s /\ iplat s' = iplat s /\ havedisk1 s' = havedisk1 s) s.
Proof.
  intros Hinv Hi Hn. pose proof (queue_short _ _ Hinv) as Hlen. unfold append. apply wp_bind, wp_get.
  rewrite (queue_end_links _ Q _ None) by (try apply Hinv; lia). destruct (last Q) as [j|] eqn:El.
  - apply last_Some in El as [Q' ->]. apply wp_ide_upd. simpl. split; [|split; [apply same_bufs_alter|done]].
    rewrite <- app_assoc. apply qlinks_snoc; try done; apply Hinv.
  - apply last_None in El as ->. apply wp_modify. simpl. done.
Qed.

Lemma iderw_wait_blocks ien i s p pr : pending (bufs (ibio s) i) -> locked_by ien [Lide] (isched s) ->
  curproc (isched s) = Some p -> procs (isched s) !! p = Some pr ->
  exists x, iderw_wait i s = Blocked (set_isched x s) /\ locked_by ien [Lptable] x /\ procs x = alter (asleep (CBuf i)) p (procs (isched s)).
Proof.
  intros Hp HL Hc Hpr. destruct (sleep_blocks ien (CBuf i) Lide (isched s) p pr HL Hc Hpr) as (x & Hx & HLx & Ex & _).
  exists x. split; [|done]. unfold iderw_wait, on_bio, lift, buf_at, gets, mbind, M_bind. cbn [ibio_lens lget lset].
  unfold pending in Hp. replace (_ =? B_VALID) with false by (symmetry; by apply Z.eqb_neq). cbn [negb].
  unfold sleep, lift. cbn [bsched_lens lget lset]. unfold isched in Hx. replace (ibio (set_ibio (ibio s) s)) with (ibio s) by done.
  rewrite Hx. done.
Qed.

Lemma ide_inv_bufs Q s bs : ide_inv Q s -> same_bufs (bufs (ibio s)) bs -> qlinks bs (idequeue s) Q ->
  ide_inv Q (set_ibio (set_bufs bs (ibio s)) s).
Proof.
  intros [_ Hnd Hix Hreq Hdisk Hact] Hb Hq. split; try done; simpl.
  - intros i Hi. destruct (Hreq i Hi). split; [by eapply same_bufs_request|by eapply same_bufs_pending].
  - destruct Q; [done|]. by eapply same_bufs_active.
Qed.

(** The queue once the new request has been started, if it is the only one. *)
Lemma ide_inv_append i Q s s' : ide_inv Q s -> i ∉ Q -> (i < NBUF)%nat -> same_bufs (bufs (ibio s)) (bufs (ibio s')) ->
  request_ok (bufs (ibio s) i) -> pending (bufs (ibio s) i) -> qlinks (bufs (ibio s')) (idequeue s') (Q ++ [i]) ->
  match Q with [] => ata_started (bufs (ibio s) i) (ataof s) (ataof s') | _ => ataof s' = ataof s end -> ide_inv (Q ++ [i]) s'.
Proof.
  intros [_ Hnd Hix Hreq Hdisk Hact] Hi Hlt Hb Hrq Hp Hq Hst. split; try done.
  - apply NoDup_app. split; [done|]. split; [set_solver|apply NoDup_singleton].
  - apply Forall_app. split; [done|by apply Forall_singleton].
  - intros j Hj. assert (request_ok (bufs (ibio s) j) /\ pending (bufs (ibio s) j)) as [Hr1 Hp1].
    { apply elem_of_app in Hj as [Hj|Hj]; [by apply Hreq|]. apply list_elem_of_singleton in Hj as ->. done. }
    split; [by eapply same_bufs_request|by eapply same_bufs_pending].
  - destruct Q as [|j Q]; [by eapply started_disk|]. by rewrite Hst.
  - destruct Q as [|j Q]; simpl; [eapply same_bufs_active; [done|by eapply started_active]|]. rewrite Hst. by eapply same_bufs_active.
Qed.

Lemma wp_ide_buf i s : wp (on_bio (buf_at i)) (fun b s' => b = bufs (ibio s) i /\ s' = s) s.
Proof. apply wp_lift, wp_gets. split; [done|]. by destruct s. Qed.

(** [if(idequeue == b) idestart(b)]. *)
Lemma wp_start_first i Q s s3 : ide_inv Q s -> i ∉ Q -> (i < NBUF)%nat -> request_ok (bufs (ibio s) i) -> pending (bufs (ibio s) i) ->
  qlinks (bufs (ibio s3)) (idequeue s3) (Q ++ [i]) -> same_bufs (bufs (ibio s)) (bufs (ibio s3)) -> iplat s3 = iplat s ->
  wp (if bool_decide (idequeue s3 = Some i) then idestart spins (Some i) else mret ()) (fun _ s4 =>
    ide_inv (Q ++ [i]) s4 /\ ibio s4 = ibio s3 /\ havedisk1 s4 = havedisk1 s3 /\
    at_disk (ataof s4) = match Q with [] => next_disk [i] (bufs (ibio s)) (at_disk (ataof s)) | _ => at_disk (ataof s) end) s3.
Proof.
  intros Hinv Hi Hlt Hrq Hp Hq3 Hb Ep3. set (b := bufs (ibio s) i) in *. destruct Q as [|j Q]; simpl in Hq3; pose proof Hq3 as [Hq _].
  - rewrite bool_decide_eq_true_2 by done. eapply wp_mono; [apply wp_idestart; by eapply same_bufs_request|].
    intros [] s4 (a & (d & -> & Ea) & Hst).
    assert (Hst' : ata_started b (ataof s) a).
    { unfold ata_started, drive in *. destruct (same_bufs_eq _ _ i Hb) as (E1 & E2 & E3 & E4). rewrite E1, E2, E3, E4 in Hst.
      unfold ataof in Hst. rewrite Ep3 in Hst. exact Hst. }
    split; [|split; [done|split; [done|]]].
    + apply (ide_inv_append i [] s); try done. unfold ataof at 2, pl_ata. simpl. by rewrite Ea.
    + unfold ataof at 1, pl_ata. simpl. rewrite Ea. unfold ata_started in Hst'. fold b.
      destruct (has (b_flags b) B_DIRTY); [done|apply Hst'].
  - rewrite bool_decide_eq_false_2 by (rewrite Hq; intros [=]; set_solver). apply wp_ret. split; [|split; [done|split; [done|unfold ataof; by rewrite Ep3]]].
    apply (ide_inv_append i (j :: Q) s); try done. unfold ataof. by rewrite Ep3.
Qed.

Lemma iderw_queues ien i Q s p pr : ide_inv Q s -> locked_by ien [] (isched s) -> i ∉ Q -> (i < NBUF)%nat ->
  let b := bufs (ibio s) i in request_ok b -> pending b -> has (b_flags b) B_BUSY = true -> b_dev b = 0 \/ havedisk1 s = true ->
  curproc (isched s) = Some p -> procs (isched s) !! p = Some pr ->
  runs (iderw spins i) (fun _ _ => False) (fun s' => ide_inv (Q ++ [i]) s' /\ locked_by ien [Lptable] (isched s') /\
    procs (isched s') = alter (asleep (CBuf i)) p (procs (isched s)) /\ same_bufs (bufs (ibio s)) (bufs (ibio s')) /\
    at_disk (ataof s') = match Q with [] => next_disk [i] (bufs (ibio s)) (at_disk (ataof s)) | _ => at_disk (ataof s) end /\
    havedisk1 s' = havedisk1 s) s.
Proof.
  intros Hinv HL Hi Hlt b Hrq Hp Hbusy Hdev Hc Hpr. unfold iderw.
  eapply runs_call; [apply wp_ide_buf|]. intros ? ? [-> ->]. fold b.
  apply runs_gets. rewrite Hbusy. cbn [negb]. replace (_ =? B_VALID) with false by (symmetry; by apply Z.eqb_neq).
  replace (negb (b_dev b =? 0) && negb (havedisk1 s)) with false by (destruct Hdev as [-> | ->]; [done|by rewrite andb_false_r]).
  eapply runs_call; [apply (wp_ide_sched (Sched.acquire Lide)), (wp_acquire ien []); [done|set_solver|simpl; lia]|].
  intros [] s1 (x1 & [HL1 (Ep1 & Ec1 & _)] & ->). set (s1 := set_isched x1 s).
  eapply runs_call; [apply (wp_ide_upd _ _ (fun _ s2 => s2 = set_ibio (set_bufs (alter (set_b_qnext None) i (bufs (ibio s1))) (ibio s1)) s1)); done|].
  intros [] s2 ->. set (s2 := set_ibio _ s1).
  assert (Hinv2 : ide_inv Q s2).
  { apply ide_inv_bufs; [by apply ide_inv_sched|apply same_bufs_alter|]. eapply qlinks_ext; [|apply Hinv].
    intros j Hj. simpl. rewrite fn_lookup_alter_ne; [done|]. intros ->. done. }
  eapply runs_call; [apply (wp_append_queue i Q s2 Hinv2 Hi); simpl; by rewrite fn_lookup_alter|].
  intros [] s3 (Hq3 & Hb3 & Ex3 & Ep3 & Eh3). apply runs_gets.
  assert (Hb : same_bufs (bufs (ibio s)) (bufs (ibio s3))) by (eapply same_bufs_trans; [apply (same_bufs_alter None i)|done]).
  eapply runs_call; [by apply (wp_start_first i Q s)|]. intros [] s4 (Hinv4 & Eb4 & Eh4 & Hd4).
  assert (Ei4 : isched s4 = x1) by (unfold isched; rewrite Eb4; exact Ex3).
  destruct (iderw_wait_blocks ien i s4 p pr) as (x & Hw & HLx & Epx); [rewrite Eb4; by eapply same_bufs_pending|by rewrite Ei4|
    by rewrite Ei4, Ec1|by rewrite Ei4, Ep1|].
  unfold runs. rewrite Hw. split; [by apply ide_inv_sched|]. split; [done|]. split; [|split; [simpl; by rewrite Eb4|split; [done|simpl; by rewrite Eh4, Eh3]]].
  rewrite Ei4, Ep1 in Epx. exact Epx.
Qed.
End proofs.
