(* ===== verification/IdeMem.v ===== *)
(** * The IDE driver does what the memory disk does

    The file system's theorems are about the memory disk of memide.c, whose
    [iderw] has the request done when it returns.  With ide.c a request is
    queued, its process sleeps, and an interrupt finishes it.  For any sequence
    of requests and interrupts the buffers and the disk end as memide.c leaves
    them for the requests in their order. *)

From S2P Require Import Prelude Params Spinlock Sched Ring Bio Io Ata Ide.

(** ** Requests, one at a time *)

(** Buffers and the sectors of drive 1, up to the queue's links. *)
Notation memst := ((nat -> buf) * (Z -> list Z))%type.

Definition io_eq (m m' : memst) : Prop := same_bufs m.1 m'.1 /\ forall n, m'.2 n = m.2 n.

#[export] Instance io_eq_equiv : Equivalence io_eq.
Proof.
  split.
  - by intros m.
  - intros m m' [Hb Hd]. by split; [intros j|].
  - intros m1 m2 m3 [H1 D1] [H2 D2]. split; [by eapply same_bufs_trans|]. intros n. by rewrite D2, D1.
Qed.

(** The effect of [iderw] of memide.c. *)
Definition mem_io (i : nat) (m : memst) : memst :=
  let b := m.1 i in
  (alter (fun b => finished b (m.2 (b_blockno b))) i m.1, if has (b_flags b) B_DIRTY then <[b_blockno b := b_data b]> m.2 else m.2).

Definition serve (Q : list nat) (m : memst) : memst := foldl (fun m i => mem_io i m) m Q.

#[export] Instance mem_io_proper i : Proper (io_eq ==> io_eq) (mem_io i).
Proof.
  intros [bs d] [bs' d'] [Hb Hd]. simpl in *. destruct (same_bufs_eq _ _ i Hb) as (E1 & E2 & E3 & E4). split; simpl.
  - intros j. destruct (decide (j = i)) as [->|Hj]; [|rewrite !fn_lookup_alter_ne by done; apply Hb].
    rewrite !fn_lookup_alter. specialize (Hb i). unfold finished. rewrite E1, E3, Hd. destruct (bs i), (bs' i). simpl in *. simplify_eq.
    by case_match.
  - intros n. rewrite E1, E3, E4. case_match; [|apply Hd]. destruct (decide (n = b_blockno (bs i))) as [->|Hn];
      [by rewrite !fn_lookup_insert|by rewrite !fn_lookup_insert_ne].
Qed.

#[export] Instance serve_proper Q : Proper (io_eq ==> io_eq) (serve Q).
Proof. induction Q as [|i Q IH]; intros m m' Hm; [done|]. unfold serve. simpl. apply IH. by rewrite Hm. Qed.

Lemma serve_snoc Q i m : serve (Q ++ [i]) m = mem_io i (serve Q m).
Proof. unfold serve. by rewrite foldl_app. Qed.
Lemma serve_cons i Q m : serve (i :: Q) m = serve Q (mem_io i m).
Proof. done. Qed.

(** A buffer that is not asked for stays as it is, and may as well be filled
    before or after. *)
Definition fill_mem (i : nat) (b : buf) (m : memst) : memst := (<[i := b]> m.1, m.2).

#[export] Instance fill_mem_proper i b : Proper (io_eq ==> io_eq) (fill_mem i b).
Proof.
  intros m m' [Hb Hd]. split; [|done]. intros j. simpl.
  destruct (decide (j = i)) as [->|Hj]; [by rewrite !fn_lookup_insert|by rewrite !fn_lookup_insert_ne].
Qed.

Lemma mem_io_fill i j b m : i <> j -> io_eq (mem_io i (fill_mem j b m)) (fill_mem j b (mem_io i m)).
Proof.
  intros Hij. split; simpl.
  - intros k. destruct (decide (k = j)) as [->|Hk].
    + by rewrite fn_lookup_insert, fn_lookup_alter_ne, fn_lookup_insert.
    + rewrite fn_lookup_insert_ne by done. destruct (decide (k = i)) as [->|Hi].
      * by rewrite !fn_lookup_alter, fn_lookup_insert_ne.
      * by rewrite !fn_lookup_alter_ne, fn_lookup_insert_ne.
  - intros n. by rewrite !(fn_lookup_insert_ne m.1) by done.
Qed.

Lemma serve_fill Q j b : forall m, j ∉ Q -> io_eq (serve Q (fill_mem j b m)) (fill_mem j b (serve Q m)).
Proof.
  induction Q as [|i Q IH]; intros m Hj; [done|]. rewrite !serve_cons, mem_io_fill by set_solver. apply IH. set_solver.
Qed.

(** The disk may get the data of the first request early. *)
Lemma mem_io_early i bs d : let b := bs i in
  io_eq (mem_io i (bs, d)) (mem_io i (bs, if has (b_flags b) B_DIRTY then <[b_blockno b := b_data b]> d else d)).
Proof.
  intros b. destruct (has (b_flags b) B_DIRTY) eqn:Ed; [|done]. split; simpl; fold b; rewrite ?Ed.
  - intros j. destruct (decide (j = i)) as [->|Hj]; [|by rewrite !fn_lookup_alter_ne]. rewrite !fn_lookup_alter. fold b. unfold finished. by rewrite Ed.
  - intros n. destruct (decide (n = b_blockno b)) as [->|Hn]; [by rewrite !fn_lookup_insert|by rewrite !fn_lookup_insert_ne].
Qed.

(** memide.c's [iderw] is [mem_io]. *)
Record mem_request (b : buf) : Prop := {
  mr_ok : request_ok b;
  mr_pending : pending b;
  mr_busy : has (b_flags b) B_BUSY = true;
  mr_dev : b_dev b = 1 }.

Definition memst_of (x : bio_st) : memst := (bufs x, disk x).

Lemma flags_commute f : clear_flag (set_flag f B_VALID) B_DIRTY = set_flag (clear_flag f B_DIRTY) B_VALID.
Proof. unfold clear_flag, set_flag. by rewrite Z.land_lor_distr_l. Qed.

Lemma clear_clean f : has f B_DIRTY = false -> clear_flag f B_DIRTY = f.
Proof.
  unfold has, clear_flag. intros Hf. apply negb_false_iff, Z.eqb_eq in Hf.
  transitivity (Z.land f (Z.lor (Z.lnot B_DIRTY) B_DIRTY)); [by rewrite Z.land_lor_distr_r, Hf, Z.lor_0_r|apply Z.land_m1_r].
Qed.

Lemma wp_mem_iderw i x : mem_request (bufs x i) -> disksize x = FSSIZE ->
  wp (Bio.iderw i) (fun _ x' => io_eq (mem_io i (memst_of x)) (memst_of x') /\ disksize x' = FSSIZE) x.
Proof.
  intros [[Hn _ _ _] Hp Hbusy Hdev] Hsz. unfold FSSIZE in Hn. set (b := bufs x i) in *. unfold Bio.iderw.
  apply wp_bind, wp_gets, wp_bind, wp_gets. fold b. rewrite Hbusy, Hsz. cbn [negb].
  replace (_ =? B_VALID) with false by (symmetry; by apply Z.eqb_neq). rewrite Hdev. cbn [negb Z.eqb Pos.eqb].
  change (u32 FSSIZE) with 1000. replace (1000 <=? b_blockno b) with false by lia.
  unfold io_eq, mem_io. cbn [fst snd memst_of]. fold b. destruct (has (b_flags b) B_DIRTY) eqn:Ed.
  - apply wp_bind, wp_bind, wp_modify, wp_modify, wp_modify. simpl. split; [split; [|done]|done]. intros j.
    destruct (decide (j = i)) as [->|Hj]; [|by rewrite !fn_lookup_alter_ne]. rewrite !fn_lookup_alter. fold b. unfold finished. rewrite Ed.
    simpl. by rewrite flags_commute.
  - apply wp_bind, wp_bind, wp_gets, wp_modify, wp_modify. simpl. split; [split; [|done]|done]. intros j.
    destruct (decide (j = i)) as [->|Hj]; [|by rewrite !fn_lookup_alter_ne]. rewrite !fn_lookup_alter. fold b. unfold finished. rewrite Ed.
    simpl. by rewrite flags_commute, clear_clean.
Qed.

(** ** Requests and interrupts *)

(** A process fills a buffer and asks for it, or the disk interrupts. *)
Inductive ide_event := EReq (i : nat) (b : buf) (p : nat) | EIntr.

Section events.
Context `{AtaPorts D} (spins : nat) `{!Patient D spins} `{!Reliable D}.
Implicit Types (s : ide_st D).

Definition set_cur (p : nat) (x : sched_st) : sched_st := SchedSt (mach x) (procs x) (Some p) (nextpid x) (initproc x).

(** Process [p] runs and fills buffer [i]. *)
Definition prepare (i : nat) (b : buf) (p : nat) s : ide_st D :=
  set_isched (set_cur p (isched s)) (set_ibio (set_bufs (<[i := b]> (bufs (ibio s))) (ibio s)) s).

(** A request ends in the scheduler, which gives up [ptable.lock] for the next
    process. *)
Definition ide_event_run (e : ide_event) s : option (ide_st D) :=
  match e with
  | EReq i b p =>
      match iderw spins i (prepare i b p s) with
      | Blocked s1 => match on_bio (Bio.release Lptable) s1 with Ok _ s2 => Some s2 | _ => None end
      | _ => None
      end
  | EIntr => match ideintr spins s with Ok _ s' => Some s' | _ => None end
  end.

Fixpoint ide_run (l : list ide_event) s : option (ide_st D) :=
  match l with
  | [] => Some s
  | e :: l => match ide_event_run e s with Some s1 => ide_run l s1 | None => None end
  end.

(** The same requests to memide.c, whose [ideintr] does nothing. *)
Fixpoint mem_run (l : list ide_event) : M bio_st unit :=
  match l with
  | [] => mret ()
  | EReq i b p :: l => modify (fun x => set_bufs (<[i := b]> (bufs x)) x) ;; Bio.iderw i ;; mem_run l
  | EIntr :: l => mem_run l
  end.

(** The requests in the queue after an event. *)
Definition queue_next (e : ide_event) (Q : list nat) : list nat :=
  match e with EReq i _ _ => Q ++ [i] | EIntr => tail Q end.
Definition queue_after (l : list ide_event) (Q : list nat) : list nat := foldl (fun Q e => queue_next e Q) Q l.

(** A process asks only for a buffer that is its own: one that is not in the
    queue. *)
Definition event_ok (n : nat) (e : ide_event) (Q : list nat) : Prop :=
  match e with
  | EReq i b p => (i < NBUF)%nat /\ i ∉ Q /\ mem_request b /\ (p < n)%nat
  | EIntr => True
  end.
Fixpoint events_ok (n : nat) (l : list ide_event) (Q : list nat) : Prop :=
  match l with
  | [] => True
  | e :: l => event_ok n e Q /\ events_ok n l (queue_next e Q)
  end.

(** What the buffers and the disk become once the queue has been served. *)
Definition ide_mem s : memst := (bufs (ibio s), at_disk (ataof s) 1).

Record ide_sim (ien : bool) (n : nat) (Q : list nat) s (m : memst) : Prop := {
  sim_inv : ide_inv Q s;
  sim_locks : locked_by ien [] (isched s);
  sim_procs : length (procs (isched s)) = n;
  sim_disk1 : havedisk1 s = true;
  sim_dev : forall i, i ∈ Q -> b_dev (bufs (ibio s) i) = 1;
  sim_mem : io_eq (serve Q (ide_mem s)) m }.

Lemma drive1 b : b_dev b = 1 -> drive b = 1.
Proof. unfold drive. by intros ->. Qed.

(** The drive's contents when the first request of [Q] has been started. *)
Lemma serve_started Q bs bs' a a' : same_bufs bs bs' -> (forall i, i ∈ Q -> b_dev (bs i) = 1) -> at_disk a' = next_disk Q bs (at_disk a) ->
  io_eq (serve Q (bs, at_disk a 1)) (serve Q (bs', at_disk a' 1)).
Proof.
  intros Hb Hdev Ha. destruct Q as [|i Q]; [by rewrite Ha|]. rewrite !serve_cons. apply serve_proper. etrans; [apply mem_io_early|].
  apply mem_io_proper. split; [done|]. intros n. cbn [snd]. rewrite Ha. cbn [next_disk]. destruct (has (b_flags (bs i)) B_DIRTY); [|done].
  rewrite drive1 by (apply Hdev; set_solver). unfold put_sector. simpl.
  destruct (Z.eqb_spec n (b_blockno (bs i))) as [->|Hne]; [by rewrite fn_lookup_insert|by rewrite fn_lookup_insert_ne].
Qed.

(** The interrupt finishes what was the first request. *)
Lemma mem_io_active i s bs : b_dev (bufs (ibio s) i) = 1 -> active (bufs (ibio s) i) (ataof s) ->
  buf_step i (finished (bufs (ibio s) i) (at_disk (ataof s) 1 (b_blockno (bufs (ibio s) i)))) (bufs (ibio s)) bs ->
  io_eq (mem_io i (ide_mem s)) (bs, at_disk (ataof s) 1).
Proof.
  intros Hdev Hact [Hi Hj]. split; simpl.
  - intros j. destruct (decide (j = i)) as [->|Hne]; [by rewrite Hi, fn_lookup_alter|by rewrite Hj, fn_lookup_alter_ne].
  - intros n. unfold active in Hact. destruct (has (b_flags (bufs (ibio s) i)) B_DIRTY); [|done]. rewrite drive1 in Hact by done.
    destruct (decide (n = b_blockno (bufs (ibio s) i))) as [->|Hne]; [by rewrite fn_lookup_insert|by rewrite fn_lookup_insert_ne].
Qed.

Lemma sim_intr ien n Q s m : ide_sim ien n Q s m -> exists s', ide_event_run EIntr s = Some s' /\ ide_sim ien n (tail Q) s' m.
Proof.
  intros [Hinv HL Hn Hd1 Hdev Hm]. simpl. destruct Q as [|i Q].
  - assert (Hw : wp (ideintr spins) (fun _ s' => ide_sim ien n [] s' m) s); [|apply wp_result in Hw as ([] & s' & -> & Hs'); by exists s'].
    unfold ideintr.
    eapply wp_seq; [apply (wp_ide_sched (Sched.acquire Lide)), (wp_acquire ien []); [done|set_solver|simpl; lia]|].
    intros [] s1 (x1 & [HL1 (P1 & _)] & ->). apply wp_bind, wp_gets. pose proof (iq_links _ _ Hinv) as Hq. simpl in Hq.
    cbn [idequeue set_isched set_ibio]. rewrite Hq.
    eapply wp_mono; [apply (wp_ide_sched (Sched.release Lide)), (wp_release_hd ien []); done|].
    intros [] s2 (x2 & [HL2 (P2 & _)] & ->). split; try done; [by repeat apply ide_inv_sched|]. simpl. unfold isched in *. simpl in *. by rewrite P2, P1.
  - pose proof (wp_ideintr spins ien i Q s Hinv HL) as Hw. cbv zeta in Hw. unfold got in Hw. rewrite reliable in Hw.
    apply wp_result in Hw as ([] & s' & Hr & Hinv' & HL' & Hp & Hbs & Hd' & Hh). rewrite Hr. exists s'. split; [done|].
    assert (Hi : b_dev (bufs (ibio s) i) = 1) by (apply Hdev; set_solver). rewrite drive1 in Hbs by done.
    assert (HQ : forall j, j ∈ Q -> bufs (ibio s') j = bufs (ibio s) j).
    { intros j Hj. apply Hbs. intros ->. pose proof (iq_nodup _ _ Hinv) as Hnd. apply NoDup_cons in Hnd as [Hnd _]. done. }
    split; try done.
    + by rewrite Hp, length_fmap.
    + by rewrite Hh.
    + intros j Hj. rewrite HQ by done. apply Hdev. set_solver.
    + rewrite <- Hm, serve_cons, (mem_io_active i s (bufs (ibio s'))); [|done|apply (iq_active _ _ Hinv)|done].
      symmetry. apply serve_started; [done| |].
      * intros j Hj. rewrite HQ by done. apply Hdev. set_solver.
      * rewrite Hd'. destruct Q as [|j Q]; [done|]. simpl. by rewrite HQ by set_solver.
Qed.

Lemma ide_inv_prepare i b p Q s : i ∉ Q -> ide_inv Q s -> ide_inv Q (prepare i b p s).
Proof.
  intros Hi [Hq Hnd Hix Hreq Hdisk Hact]. unfold prepare. split; try done; simpl.
  - eapply qlinks_ext; [|exact Hq]. intros j Hj. rewrite fn_lookup_insert_ne; [done|]. by intros ->.
  - intros j Hj. rewrite fn_lookup_insert_ne by (by intros ->). by apply Hreq.
  - destruct Q as [|j Q]; [done|]. rewrite fn_lookup_insert_ne by set_solver. done.
Qed.

Lemma sim_req ien n Q s m i b p : ide_sim ien n Q s m -> event_ok n (EReq i b p) Q ->
  exists s', ide_event_run (EReq i b p) s = Some s' /\ ide_sim ien n (Q ++ [i]) s' (mem_io i (fill_mem i b m)).
Proof.
  intros [Hinv HL Hn Hd1 Hdev Hm] (Hlt & Hi & [Hrq Hp Hbusy Hb1] & Hpn). simpl. set (s0 := prepare i b p s).
  destruct (lookup_lt_is_Some_2 (procs (isched s)) p ltac:(lia)) as [pr Hpr].
  assert (E0 : bufs (ibio s0) i = b) by (unfold s0, prepare; simpl; by rewrite fn_lookup_insert).
  pose proof (iderw_queues spins ien i Q s0 p pr) as Hw. cbv zeta in Hw. rewrite E0 in Hw.
  specialize (Hw ltac:(by apply ide_inv_prepare) HL Hi Hlt Hrq Hp Hbusy (or_intror Hd1) eq_refl Hpr). unfold runs in Hw.
  destruct (iderw spins i s0) as [? ?|?|s1]; [done|done|]. destruct Hw as (Hinv1 & HL1 & Hp1 & Hb & Hd & Hh).
  assert (Hr : wp (on_bio (Bio.release Lptable)) (fun _ s2 => exists x, (locked_by ien [] x /\ same_procs (isched s1) x) /\ s2 = set_isched x s1) s1).
  { apply (wp_ide_sched (Sched.release Lptable)), (wp_release_hd ien []). done. }
  apply wp_result in Hr as ([] & s2 & -> & x & [HLx (Px & _)] & ->). eexists. split; [done|]. split; try done.
  - by apply ide_inv_sched.
  - change (isched (set_isched x s1)) with x. by rewrite Px, Hp1, length_alter.
  - simpl. by rewrite Hh.
  - intros j Hj. simpl. destruct (same_bufs_eq _ _ j Hb) as (_ & -> & _). destruct (decide (j = i)) as [->|Hne]; [by rewrite E0|].
    unfold s0, prepare. simpl. rewrite fn_lookup_insert_ne by done. apply Hdev. set_solver.
  - rewrite <- Hm. change (ide_mem (set_isched x s1)) with (ide_mem s1).
    assert (Hs : io_eq (serve (Q ++ [i]) (fill_mem i b (ide_mem s))) (mem_io i (fill_mem i b (serve Q (ide_mem s))))).
    { rewrite serve_snoc. apply mem_io_proper. by apply serve_fill. }
    rewrite <- Hs. symmetry. destruct Q as [|j Q].
    + apply (serve_started [i] _ _ (ataof s)); [exact Hb| |exact Hd]. intros j Hj. apply list_elem_of_singleton in Hj as ->. by rewrite fn_lookup_insert.
    + apply serve_proper. split; [exact Hb|]. intros k. simpl. by rewrite Hd.
Qed.

Lemma sim_events_run ien n l : forall Q s x, ide_sim ien n Q s (memst_of x) -> disksize x = FSSIZE -> events_ok n l Q ->
  exists s' x', ide_run l s = Some s' /\ mem_run l x = Ok () x' /\ ide_sim ien n (queue_after l Q) s' (memst_of x') /\ disksize x' = FSSIZE.
Proof.
  induction l as [|e l IH]; intros Q s x Hs Hsz Hl; [by exists s, x|]. destruct Hl as [He Hl]. cbn [ide_run mem_run].
  destruct e as [i b p|].
  - destruct (sim_req ien n Q s _ i b p Hs He) as (s1 & -> & Hs1). set (x0 := set_bufs (<[i := b]> (bufs x)) x).
    assert (Hx0 : mem_request (bufs x0 i)) by (unfold x0; simpl; rewrite fn_lookup_insert; apply He).
    destruct (wp_result _ _ _ (wp_mem_iderw i x0 Hx0 Hsz)) as ([] & x1 & Ex1 & Hm1 & Hsz1).
    destruct (IH (Q ++ [i]) s1 x1) as (s' & x' & Hs' & Hx' & Hsim); [|done|done|].
    + destruct Hs1 as [H1 H2 H3 H4 H5 H6]. split; try done. rewrite H6. exact Hm1.
    + exists s', x'. split; [done|]. split; [|done]. unfold mbind, M_bind, modify. fold x0. rewrite Ex1. done.
  - destruct (sim_intr ien n Q s _ Hs) as (s1 & -> & Hs1). by apply IH.
Qed.

Lemma queue_drained Q : queue_after (replicate (length Q) EIntr) Q = [].
Proof. by induction Q. Qed.
Lemma intrs_ok n k : forall Q, events_ok n (replicate k EIntr) Q.
Proof. induction k as [|k IH]; intros Q; [done|]. split; [done|apply IH]. Qed.
Lemma mem_run_intrs k x : mem_run (replicate k EIntr) x = Ok () x.
Proof. by induction k. Qed.

Lemma ide_run_app l1 l2 s s1 : ide_run l1 s = Some s1 -> ide_run (l1 ++ l2) s = ide_run l2 s1.
Proof. revert s. induction l1 as [|e l IH]; intros s; simpl; [by intros [= ->]|]. destruct (ide_event_run e s); [apply IH|done]. Qed.

End events.

(** ** An example *)

Definition sim_disk : Z -> Z -> list Z := fun _ n => replicate 512 (n mod 256).
(** Three processes. *)
Definition sim_sched : sched_st := SchedSt boot_machine (replicate 3 proc1) (Some 0%nat) 2 (Some 0%nat).
Definition sim_bio : bio_st := BioSt sim_sched (fun _ => Buf 0 0 0 0 0 None (replicate 512 0)) (sim_disk 1) FSSIZE [].
Definition sim_ide : ide_st simdisk :=
  Ide sim_bio (Plat (Sim (Ata sim_disk (fun _ => 0) None) false) 0 false 1 0 0) None true.

Definition sim_buf (f n v : Z) : buf := Buf f 1 n 0 0 None (replicate 512 v).

Lemma sim_request f n v : 0 <= n < FSSIZE -> is_u8 v -> Z.land f (Z.lor B_VALID B_DIRTY) <> B_VALID -> has f B_BUSY = true ->
  mem_request (sim_buf f n v).
Proof. intros Hn Hv Hp Hb. split; try done. split; [done|done|apply length_replicate|by apply Forall_replicate]. Qed.

(** Two processes read and write block 7 while a third reads block 8. *)
Definition sim_events : list ide_event :=
  [EReq 4 (sim_buf B_BUSY 7 0) 0; EReq 2 (sim_buf (Z.lor B_BUSY (Z.lor B_VALID B_DIRTY)) 7 99) 1; EIntr; EReq 9 (sim_buf B_BUSY 8 0) 2].

