(* ===== verification/Umalloc.v ===== *)
(** * The user memory allocator (umalloc.c)

    Kernighan and Ritchie's allocator: a circular list of free blocks in the
    order of their addresses, through the headers of the blocks themselves.
    The list starts at the static variable [base], a block without units that
    lies below the heap.  Whether the kernel grants [sbrk] is a parameter. *)

From S2P Require Import Prelude Params.

(** ** The program *)

(** Memory, the static variable [freep], and the size of the process. *)
Record ust := Ust { um : mem; freep : Z; ubrk : Z }.

Definition set_um x s := Ust x (freep s) (ubrk s).
Definition set_freep x s := Ust (um s) x (ubrk s).
Definition set_ubrk x s := Ust (um s) (freep s) x.

(** [sizeof(Header)]; [p->s.ptr] and [p->s.size]. *)
Definition HDR : Z := 8.
Definition hptr (p : Z) : M ust Z := gets (fun s => load32 (um s) p).
Definition hsize (p : Z) : M ust Z := gets (fun s => load32 (um s) (p + 4)).
Definition set_hptr (p x : Z) : M ust unit := modify (fun s => set_um (store32 (um s) p x) s).
Definition set_hsize (p x : Z) : M ust unit := modify (fun s => set_um (store32 (um s) (p + 4) x) s).

Section program.
(** The address of [base]; the kernel's answer to [sbrk(n)] at a size. *)
Context (base : Z) (grant : Z -> Z -> bool).

(** As [growproc] does it: a size below 0 shrinks the process, unless the sum
    wraps to a size that is no smaller ([deallocuvm]). *)
Definition sbrk (n : Z) : M ust Z :=
  b ← gets ubrk;
  if grant b n then
    modify (set_ubrk (if (n <? 0) && (b <=? u32 (b + n)) then b else u32 (b + n))) ;; mret b
  else mret (u32 (-1)).

Fixpoint free_loop (fuel : nat) (bp p : Z) : M ust Z :=
  match fuel with
  | O => blocked
  | S fuel =>
      q ← hptr p;
      if (p <? bp) && (bp <? q) then mret p
      else if (q <=? p) && ((p <? bp) || (bp <? q)) then mret p
      else free_loop fuel bp q
  end.

(** There are fewer blocks than bytes: the size of the process is fuel for a
    walk around the list. *)
Definition rounds : M ust nat := gets (fun s => S (S (Z.to_nat (ubrk s)))).

Definition free (ap : Z) : M ust unit :=
  let bp := u32 (ap - HDR) in
  fuel ← rounds;
  p ← gets freep;
  p ← free_loop fuel bp p;
  bs ← hsize bp;
  q ← hptr p;
  (if u32 (bp + HDR * bs) =? q then
     qs ← hsize q;
     set_hsize bp (u32 (bs + qs)) ;;
     qq ← hptr q;
     set_hptr bp qq
   else set_hptr bp q) ;;
  ps ← hsize p;
  (if u32 (p + HDR * ps) =? bp then
     bs ← hsize bp;
     set_hsize p (u32 (ps + bs)) ;;
     bq ← hptr bp;
     set_hptr p bq
   else set_hptr p bp) ;;
  modify (set_freep p).

Definition morecore (nu : Z) : M ust Z :=
  let nu := if nu <? 4096 then 4096 else nu in
  p ← sbrk (s32 (u32 (nu * HDR)));
  if p =? u32 (-1) then mret 0
  else set_hsize p nu ;; free (u32 (p + HDR)) ;; gets freep.

Fixpoint malloc_loop (fuel : nat) (nunits prevp p : Z) : M ust Z :=
  match fuel with
  | O => blocked
  | S fuel =>
      sz ← hsize p;
      if nunits <=? sz then
        p ← (if sz =? nunits then q ← hptr p; set_hptr prevp q ;; mret p
             else
               let sz := u32 (sz - nunits) in
               set_hsize p sz ;;
               let p := u32 (p + HDR * sz) in
               set_hsize p nunits ;;
               mret p);
        modify (set_freep prevp) ;;
        mret (u32 (p + HDR))
      else
        f ← gets freep;
        if p =? f then
          p ← morecore nunits;
          if p =? 0 then mret 0 else q ← hptr p; malloc_loop fuel nunits p q
        else q ← hptr p; malloc_loop fuel nunits p q
  end.

Definition malloc (nbytes : Z) : M ust Z :=
  let nunits := u32 (nbytes + HDR - 1) / HDR + 1 in
  prevp ← gets freep;
  prevp ← (if prevp =? 0 then
             modify (set_freep base) ;; set_hptr base base ;; set_hsize base 0 ;; mret base
           else mret prevp);
  fuel ← rounds;
  p ← hptr prevp;
  malloc_loop (2 * fuel) nunits prevp p.
End program.

(** ** Lists of blocks in memory *)

Notation block := (Z * Z)%type (only parsing).

(** From [Forall P l] to [Forall Q l]. *)
Ltac each H c Hc := eapply Forall_impl; [exact H|]; intros c Hc; cbv beta in Hc |- *.

Definition first (l : list block) (e : Z) : Z := match l with [] => e | b :: _ => b.1 end.

(** The headers of the blocks [l], the last one linked to [e]. *)
Fixpoint seg (m : mem) (l : list block) (e : Z) : Prop :=
  match l with
  | [] => True
  | b :: l => load32 m b.1 = first l e /\ load32 m (b.1 + 4) = b.2 /\ seg m l e
  end.

Lemma first_app l1 l2 e : first (l1 ++ l2) e = first l1 (first l2 e).
Proof. by destruct l1. Qed.

Lemma seg_app m l1 l2 e : seg m (l1 ++ l2) e <-> seg m l1 (first l2 e) /\ seg m l2 e.
Proof. induction l1 as [|b l1 IH]; simpl; [tauto|]. rewrite first_app, IH. tauto. Qed.

(** Memory in which the header at [a] has not changed. *)
Definition same_header (m m' : mem) (a : Z) : Prop := forall x, a <= x < a + 8 -> m x = m' x.

Lemma seg_ext m m' l e : seg m l e -> Forall (fun b => same_header m m' b.1) l -> seg m' l e.
Proof.
  induction l as [|b l IH]; simpl; [done|]. intros (H1 & H2 & H3) [Hb Hl]%Forall_cons.
  rewrite <- (load32_ext m m'), <- (load32_ext m m' (b.1 + 4)); [by split_and!; auto|..]; intros x Hx; apply Hb; lia.
Qed.

Lemma seg_lookup m l : forall e i b, seg m l e -> l !! i = Some b ->
  load32 m b.1 = default e (fst <$> l !! S i) /\ load32 m (b.1 + 4) = b.2.
Proof.
  induction l as [|c l IH]; intros e i b Hs Hi; [done|]. destruct Hs as (H1 & H2 & H3).
  destruct i as [|i]; simpl in *; [|by apply IH]. injection Hi as ->. split; [|done]. rewrite H1. by destruct l.
Qed.

(** Block [b] lies below [c], and they cannot be joined. *)
Definition apart (b c : block) : Prop := b.1 + 8 * b.2 < c.1 /\ b.1 + 8 <= c.1.

Fixpoint ordered (l : list block) : Prop :=
  match l with [] => True | b :: l => Forall (apart b) l /\ ordered l end.

Lemma ordered_app l1 l2 : ordered (l1 ++ l2) <-> ordered l1 /\ ordered l2 /\ Forall (fun b => Forall (apart b) l2) l1.
Proof.
  induction l1 as [|b l1 IH]; simpl; [split; [intros; split_and!; (done || constructor)|tauto]|].
  rewrite IH, Forall_app, Forall_cons. tauto.
Qed.

Lemma ordered_lookup l : forall i j b c, ordered l -> (i < j)%nat -> l !! i = Some b -> l !! j = Some c -> apart b c.
Proof.
  induction l as [|x l IH]; intros i j b c Ho Hij Hi Hj; [done|]. destruct Ho as [Hx Ho].
  destruct j as [|j]; [lia|]. destruct i as [|i]; simpl in *; [|by apply (IH i j); [|lia|..]].
  injection Hi as ->. rewrite Forall_forall in Hx. apply Hx. by eapply list_elem_of_lookup_2.
Qed.

(** ** The heap *)

Section heap.
(** [base] lies below the heap, which begins at [lo]; the kernel does not let a
    process grow to the kernel's addresses. *)
Context (base lo : Z) (grant : Z -> Z -> bool).
Hypothesis Hbase : 0 < base /\ base + 8 <= lo.
Hypothesis Hgrant : forall b n, grant b n = true -> b + n < 2147483648.

(** The blocks in use, by the address of their header. *)
Notation blocks := (gmap Z Z).

Definition disjoint_blocks (b c : block) : Prop := b.1 + 8 * b.2 <= c.1 \/ c.1 + 8 * c.2 <= b.1.

(** A block of the heap that overlaps no block in use. *)
Record unused (used : blocks) (brk : Z) (b : block) : Prop := {
  un_size : 1 <= b.2;
  un_lo : lo <= b.1;
  un_hi : b.1 + 8 * b.2 <= brk;
  un_used : forall a n, used !! a = Some n -> disjoint_blocks b (a, n) }.

Record heap_rep (fr : list block) (used : blocks) (s : ust) : Prop := {
  hr_brk : lo <= ubrk s < 2147483648;
  hr_ring : seg (um s) ((base, 0) :: fr) base;
  hr_order : ordered ((base, 0) :: fr);
  hr_free : Forall (unused used (ubrk s)) fr;
  hr_freep : exists n, (freep s, n) ∈ (base, 0) :: fr;
  hr_size : forall a n, used !! a = Some n -> load32 (um s) (a + 4) = n;
  hr_used : forall a n, used !! a = Some n -> unused (delete a used) (ubrk s) (a, n) }.

(** What the allocator does to memory: no byte of a block in use behind its
    header changes. *)
Definition payload_kept (used : blocks) (m m' : mem) : Prop :=
  forall a n x, used !! a = Some n -> a + 8 <= x < a + 8 * n -> m' x = m x.

Definition sizes_pos (used : blocks) : Prop := forall a n, used !! a = Some n -> 1 <= n.

Lemma unused_merge used brk b c : sizes_pos used -> unused used brk b -> unused used brk c -> c.1 = b.1 + 8 * b.2 ->
  unused used brk (b.1, b.2 + c.2).
Proof.
  intros Hpos [B1 B2 B3 B4] [C1 C2 C3 C4] E. split; simpl; [lia|done|lia|].
  intros a n Ha. pose proof (Hpos a n Ha). pose proof (B4 a n Ha) as H1. pose proof (C4 a n Ha) as H2.
  unfold disjoint_blocks in *. simpl in *. lia.
Qed.

Lemma unused_delete used brk b a : unused used brk b -> unused (delete a used) brk b.
Proof.
  intros []. split; try done. intros x n Hx. apply un_used0. by apply lookup_delete_Some in Hx as [_ Hx].
Qed.

Lemma length_ordered l : forall k brk, ordered l -> Forall (fun b => k <= b.1 /\ b.1 + 8 <= brk) l -> k <= brk ->
  8 * Z.of_nat (length l) <= brk - k.
Proof.
  induction l as [|b l IH]; intros k brk Ho Hl Hk; [simpl; lia|]. destruct Ho as [Hb Ho].
  apply Forall_cons in Hl as [Hk' Hl]. simpl length.
  enough (8 * Z.of_nat (length l) <= brk - (b.1 + 8)) by lia. apply IH; [done| |lia].
  rewrite Forall_forall in *. intros c Hc. destruct (Hb c Hc), (Hl c Hc). lia.
Qed.

Lemma length_free fr used s : heap_rep fr used s -> (length fr <= Z.to_nat (ubrk s))%nat.
Proof.
  intros []. destruct hr_order0 as [_ Ho].
  enough (8 * Z.of_nat (length fr) <= ubrk s - lo) by lia. apply length_ordered; [done| |lia].
  eapply Forall_impl; [done|]. intros b []. lia.
Qed.

(** The place of a new block [bp] in the ring. *)
Lemma ring_split l : forall b bp, ordered (b :: l) -> b.1 < bp -> Forall (fun c => c.1 <> bp) l ->
  exists pre p post, b :: l = pre ++ p :: post /\ p.1 < bp /\ Forall (fun c => bp < c.1) post.
Proof.
  induction l as [|c l IH]; intros b bp Ho Hb Hne.
  { exists [], b, []. split_and!; (done || constructor). }
  apply Forall_cons in Hne as [Hc Hne]. destruct Ho as [Hbl Ho]. destruct (decide (bp < c.1)) as [Hlt|Hge].
  - exists [], b, (c :: l). split; [done|]. split; [done|]. constructor; [done|]. destruct Ho as [Hcl _].
    eapply Forall_impl; [exact Hcl|]. intros d [Hd1 Hd2]. lia.
  - destruct (IH c bp Ho ltac:(lia) Hne) as (pre & p & post & E & Hp & Hpost).
    exists (b :: pre), p, post. by rewrite E.
Qed.

(** The ring that begins with [base]: what follows the block at index [i]. *)
Lemma ring_next m R i b : seg m R base -> ordered R -> first R base = base -> R !! i = Some b ->
  (exists c, R !! S i = Some c /\ load32 m b.1 = c.1 /\ b.1 < c.1) \/
  (length R = S i /\ load32 m b.1 = base /\ base <= b.1 /\ exists n, R !! 0%nat = Some (base, n)).
Proof.
  intros Hseg Hord Hfirst Hi. destruct (seg_lookup _ _ _ _ _ Hseg Hi) as [E _]. apply lookup_lt_Some in Hi as Hlt.
  destruct (R !! S i) as [c|] eqn:Ec.
  - left. exists c. split; [done|]. split; [by rewrite E|]. destruct (ordered_lookup R i (S i) b c); (lia || done).
  - right. apply lookup_ge_None in Ec. split; [lia|]. split; [done|].
    destruct R as [|[x n] R]; [done|]. simpl in Hfirst. subst x. split; [|by exists n].
    destruct i as [|i]; [by injection Hi as <-|].
    destruct (ordered_lookup _ 0 (S i) _ _ Hord ltac:(lia) eq_refl Hi) as [_ H]. simpl in H. lia.
Qed.

(** The walk of [free] ends there, from wherever it starts. *)
Lemma wp_free_loop pre p post bp s : let R := pre ++ p :: post in let j := length pre in
  seg (um s) R base -> ordered R -> first R base = base -> base < bp ->
  p.1 < bp -> Forall (fun c => bp < c.1) post ->
  forall fuel i b, R !! i = Some b ->
  ((if decide (i <= j)%nat then j - i else length R - i + j) < fuel)%nat ->
  wp (free_loop fuel bp b.1) (fun r s' => r = p.1 /\ s' = s) s.
Proof.
  intros R j Hseg Hord Hfirst Hbp Hp Hpost.
  assert (Hj : R !! j = Some p) by (by apply list_lookup_middle).
  assert (Hafter : forall i c, (j < i)%nat -> R !! i = Some c -> bp < c.1).
  { intros i c Hi Hc. unfold R in Hc. rewrite lookup_app_r in Hc by (unfold j in *; lia).
    destruct (i - length pre)%nat as [|k] eqn:Ek; [unfold j in *; lia|]. simpl in Hc.
    rewrite Forall_forall in Hpost. apply Hpost. by eapply list_elem_of_lookup_2. }
  assert (Hbefore : forall i c, (i <= j)%nat -> R !! i = Some c -> c.1 < bp).
  { intros i c Hi Hc. destruct (decide (i = j)) as [->|]; [congruence|].
    destruct (ordered_lookup R i j c p Hord); (done || lia). }
  induction fuel as [|fuel IH]; intros i b Hi Hf; [lia|]. cbn [free_loop]. apply wp_bind, wp_gets.
  apply lookup_lt_Some in Hi as Hil. apply lookup_lt_Some in Hj as Hjl.
  destruct (ring_next (um s) R i b Hseg Hord Hfirst Hi) as [(c & Hc & -> & Hbc)|(Hlen & -> & Hb & n0 & H0)].
  - replace (c.1 <=? b.1) with false by lia. simpl.
    destruct (decide (i = j)) as [->|Hij].
    { pose proof (Hafter (S j) c ltac:(lia) Hc). replace (b.1 <? bp) with true by (pose proof (Hbefore j b ltac:(lia) Hi); lia).
      replace (bp <? c.1) with true by lia. apply wp_ret. split; [congruence|done]. }
    replace ((b.1 <? bp) && (bp <? c.1)) with false.
    + apply (IH (S i) c Hc). repeat case_decide; lia.
    + symmetry. apply andb_false_iff. destruct (decide (i < j)%nat).
      * right. pose proof (Hbefore (S i) c ltac:(lia) Hc). lia.
      * left. pose proof (Hafter i b ltac:(lia) Hi). lia.
  - replace (bp <? base) with false by lia. rewrite andb_false_r, orb_false_r. simpl. replace (base <=? b.1) with true by lia. simpl.
    destruct (decide (i = j)) as [->|Hij].
    + replace (b.1 <? bp) with true by (pose proof (Hbefore j b ltac:(lia) Hi); lia). apply wp_ret. split; [congruence|done].
    + replace (b.1 <? bp) with false by (pose proof (Hafter i b ltac:(lia) Hi); lia).
      apply (IH 0%nat (base, n0) H0). repeat case_decide; lia.
Qed.

(** ** Joining neighbours *)

Definition good (used : blocks) (brk : Z) (b : block) : Prop := b = (base, 0) \/ unused used brk b.

(** The new block [b] and the blocks [l] behind it: joined when they touch. *)
Definition join_up (b : block) (l : list block) : block * list block :=
  match l with
  | c :: l' => if b.1 + 8 * b.2 =? c.1 then ((b.1, b.2 + c.2), l') else (b, l)
  | [] => (b, [])
  end.
Definition join_down (p b : block) (l : list block) : list block :=
  if p.1 + 8 * p.2 =? b.1 then (p.1, p.2 + b.2) :: l else p :: b :: l.
Definition joined (p b : block) (l : list block) : list block :=
  let '(b', l') := join_up b l in join_down p b' l'.

Lemma joined_head p b l : exists k jl, joined p b l = (p.1, k) :: jl.
Proof.
  unfold joined, join_down. destruct (join_up b l) as [b' l']. case_match; [by eauto|]. destruct p. by eauto.
Qed.

Lemma length_joined p b l : (length (joined p b l) <= S (S (length l)))%nat.
Proof.
  unfold joined, join_down. destruct l as [|c l]; simpl; repeat (case_match; simplify_eq/=); lia.
Qed.

Lemma joined_big p b l : 0 <= p.2 -> Forall (fun c => 0 <= c.2) l -> exists c, c ∈ joined p b l /\ b.2 <= c.2.
Proof.
  intros Hp Hl. assert (Hj : b.2 <= (join_up b l).1.2).
  { destruct l as [|c l]; simpl; [lia|]. apply Forall_inv in Hl. case_match; simpl; lia. }
  unfold joined, join_down. destruct (join_up b l) as [b' l']. simpl in Hj.
  case_match; [exists (p.1, p.2 + b'.2)|exists b']; (split; [set_solver|simpl; lia]).
Qed.

Lemma join_up_ok used brk b l : sizes_pos used -> unused used brk b -> Forall (unused used brk) l -> ordered l ->
  Forall (fun c => b.1 + 8 * b.2 <= c.1) l ->
  let '(b', l') := join_up b l in
    b'.1 = b.1 /\ b.2 <= b'.2 /\ unused used brk b' /\ Forall (unused used brk) l' /\ ordered l' /\ Forall (apart b') l'.
Proof.
  intros Hpos Hb Hl Ho Hlt. pose proof (un_size _ _ _ Hb). destruct l as [|c l]; simpl; [split_and!; (done || lia)|].
  apply Forall_cons in Hl as [Hc Hl], Hlt as [Hcb Hlt]. destruct Ho as [Hcl Ho].
  pose proof (un_size _ _ _ Hc).
  destruct (Z.eqb_spec (b.1 + 8 * b.2) c.1) as [E|E].
  - split_and!; try done; simpl; [lia|by apply unused_merge|].
    each Hcl d H12. destruct H12 as [H1 H2]. unfold apart in *. simpl. lia.
  - split; [done|]. split; [lia|]. split; [done|]. split; [by constructor|]. split; [done|]. constructor; [unfold apart; lia|].
    each Hcl d H12. destruct H12 as [H1 H2]. unfold apart in *. lia.
Qed.

Lemma joined_ok used brk pre p b l : sizes_pos used -> ordered (pre ++ p :: l) -> Forall (good used brk) (pre ++ p :: l) ->
  Forall (fun c => base < c.1) l -> unused used brk b ->
  p.1 + 8 * p.2 <= b.1 -> p.1 + 8 <= b.1 -> Forall (fun c => b.1 + 8 * b.2 <= c.1) l ->
  ordered (pre ++ joined p b l) /\ Forall (good used brk) (pre ++ joined p b l) /\
  first (joined p b l) base = p.1 /\ (p.2 = 0 -> exists l', joined p b l = p :: l').
Proof.
  intros Hpos Ho Hg Hbl Hb Hpb Hpb' Hlt. apply ordered_app in Ho as (Hpre & [Hpl Hl] & Hx).
  apply Forall_app in Hg as [Hgpre [Hgp Hgl]%Forall_cons].
  assert (Hul : Forall (unused used brk) l).
  { rewrite Forall_forall in *. intros c Hc. destruct (Hgl c Hc) as [->|?]; [|done]. specialize (Hbl _ Hc). simpl in Hbl. lia. }
  pose proof (join_up_ok used brk b l Hpos Hb Hul Hl Hlt) as Hup. unfold joined.
  destruct (join_up b l) as [b' l'] eqn:Ej. destruct Hup as (Eb & Hb2 & Hb' & Hul' & Ho' & Hap).
  assert (Hgl' : Forall (good used brk) l') by (eapply Forall_impl; [exact Hul'|]; by right).
  assert (Hpl' : Forall (fun c => p.1 + 8 * p.2 < c.1 /\ p.1 + 8 <= c.1) l').
  { each Hap c H12. destruct H12 as [H1 H2]. pose proof (un_size _ _ _ Hb). lia. }
  assert (Hxp : Forall (fun d => d.1 + 8 * d.2 < p.1 /\ d.1 + 8 <= p.1) pre).
  { eapply Forall_impl; [exact Hx|]. by intros d [[H1 H2] _]%Forall_cons. }
  unfold join_down. destruct (Z.eqb_spec (p.1 + 8 * p.2) b'.1) as [E|E].
  - assert (Hup : unused used brk p).
    { destruct Hgp as [->|?]; [simpl in *; lia|done]. }
    split_and!; [|apply Forall_app; split; [done|constructor; [right; by apply unused_merge|done]]|done|].
    + apply ordered_app. split; [done|]. split; [split; [|done]|].
      * each Hap c H12. destruct H12 as [H1 H2]. pose proof (un_size _ _ _ Hup). unfold apart. simpl. lia.
      * rewrite Forall_forall in *. intros d Hd. constructor; [by apply Hxp|]. rewrite Forall_forall. intros c Hc.
        specialize (Hxp d Hd). specialize (Hpl' c Hc). unfold apart. lia.
    + intros E0. rewrite E0 in E. lia.
  - split_and!; [|apply Forall_app; split; [done|constructor; [done|constructor; [by right|done]]]|done|by eexists].
    apply ordered_app. split; [done|]. split; [split; [constructor; [unfold apart; lia|done]|by split]|].
    rewrite Forall_forall in *. intros d Hd. specialize (Hxp d Hd).
    constructor; [done|]. constructor; [unfold apart; lia|]. rewrite Forall_forall. intros c Hc.
    specialize (Hpl' c Hc). unfold apart. lia.
Qed.

(** ** free *)

Definition only_header (a : Z) (m m' : mem) : Prop := forall x, ~ (a <= x < a + 8) -> m' x = m x.

Lemma only_header_load a b m m' : only_header a m m' -> b + 4 <= a \/ a + 8 <= b -> load32 m' b = load32 m b.
Proof. intros H Hb. apply load32_ext. intros x Hx. apply H. lia. Qed.

Lemma only_header_seg a l e m m' : only_header a m m' -> Forall (fun c => c.1 + 8 <= a \/ a + 8 <= c.1) l ->
  seg m l e -> seg m' l e.
Proof.
  intros H Hl Hs. eapply seg_ext; [done|]. each Hl c Hc. intros x Hx. symmetry. apply H. lia.
Qed.

Lemma store_header m a v w : only_header a m (store32 (store32 m (a + 4) v) a w) /\
  load32 (store32 (store32 m (a + 4) v) a w) a = u32 w /\ load32 (store32 (store32 m (a + 4) v) a w) (a + 4) = u32 v.
Proof.
  split_and!.
  - intros x Hx. by rewrite !store32_other by lia.
  - apply load32_store32.
  - rewrite load32_store32_ne by lia. apply load32_store32.
Qed.

(** The two conditional statements of [free]. *)
Definition up_step (bp bs q : Z) : M ust unit :=
  if u32 (bp + HDR * bs) =? q then
    qs ← hsize q;
    set_hsize bp (u32 (bs + qs)) ;;
    qq ← hptr q;
    set_hptr bp qq
  else set_hptr bp q.
Definition down_step (p ps bp : Z) : M ust unit :=
  if u32 (p + HDR * ps) =? bp then
    bs ← hsize bp;
    set_hsize p (u32 (ps + bs)) ;;
    bq ← hptr bp;
    set_hptr p bq
  else set_hptr p bp.

Lemma first_addr l : Forall (fun c => base < c.1 < 2147483648) l -> base < 2147483648 -> is_u32 (first l base).
Proof. intros Hl Hb. unfold is_u32. destruct l as [|c l]; simpl; [lia|]. apply Forall_inv in Hl. lia. Qed.

Lemma wp_up b l s : base < b.1 -> 1 <= b.2 -> b.1 + 8 * b.2 < 2147483648 ->
  load32 (um s) (b.1 + 4) = b.2 -> seg (um s) l base ->
  Forall (fun c => b.1 + 8 * b.2 <= c.1 /\ 0 <= c.2 /\ c.1 + 8 * c.2 < 2147483648) l ->
  wp (up_step b.1 b.2 (first l base)) (fun _ s' => let '(b', l') := join_up b l in
    exists m', s' = set_um m' s /\ load32 m' b.1 = first l' base /\ load32 m' (b.1 + 4) = b'.2 /\
      seg m' l' base /\ only_header b.1 (um s) m') s.
Proof.
  intros Hb Hb2 Hhi Hs Hseg Hl. unfold up_step, HDR. rewrite u32_small by (unfold is_u32; lia).
  assert (Hf : is_u32 (first l base)).
  { apply first_addr; [|lia]. each Hl c Hc. lia. }
  assert (Hout : Forall (fun c => c.1 + 8 <= b.1 \/ b.1 + 8 <= c.1) l) by (each Hl c Hc; lia).
  assert (Hplain : wp (set_hptr b.1 (first l base)) (fun _ s' => exists m', s' = set_um m' s /\ load32 m' b.1 = first l base /\
    load32 m' (b.1 + 4) = b.2 /\ seg m' l base /\ only_header b.1 (um s) m') s).
  { apply wp_modify. eexists. split; [done|].
    assert (Ho : only_header b.1 (um s) (store32 (um s) b.1 (first l base))) by (intros x Hx; apply store32_other; lia).
    rewrite load32_store32, u32_small, load32_store32_ne by (done || lia). split_and!; try done. by eapply only_header_seg. }
  destruct l as [|c l]; simpl.
  { replace (b.1 + 8 * b.2 =? base) with false by lia. exact Hplain. }
  destruct (Z.eqb_spec (b.1 + 8 * b.2) c.1) as [E|E]; [|exact Hplain]. clear Hplain.
  apply Forall_cons in Hl as [Hc Hl], Hout as [_ Hout]. destruct Hseg as (Hc1 & Hc2 & Hseg).
  apply wp_bind, wp_gets, wp_bind, wp_modify. cbn [um set_um freep ubrk]. rewrite Hc2.
  apply wp_bind, wp_gets, wp_modify. cbn [um set_um freep ubrk]. rewrite load32_store32_ne, Hc1 by lia.
  rewrite (u32_small (b.2 + c.2)) by (unfold is_u32; lia).
  destruct (store_header (um s) b.1 (b.2 + c.2) (first l base)) as (Ho & H1 & H2).
  eexists. split; [done|]. rewrite H1, H2, !u32_small; [|unfold is_u32; lia|].
  - split_and!; try done. by eapply only_header_seg.
  - apply first_addr; [|lia]. each Hl d Hd. lia.
Qed.

Lemma wp_down p b l s : 0 < p.1 -> 0 <= p.2 -> p.1 + 8 * p.2 <= b.1 -> p.1 + 8 <= b.1 -> 0 <= b.2 -> b.1 + 8 * b.2 < 2147483648 ->
  load32 (um s) (p.1 + 4) = p.2 -> load32 (um s) b.1 = first l base -> load32 (um s) (b.1 + 4) = b.2 ->
  is_u32 (first l base) -> seg (um s) l base -> Forall (fun c => p.1 + 8 <= c.1) l ->
  wp (down_step p.1 p.2 b.1) (fun _ s' => exists m', s' = set_um m' s /\ seg m' (join_down p b l) base /\
    only_header p.1 (um s) m') s.
Proof.
  intros Hp0 Hp2 Hpb Hpb' Hb2 Hhi Hs Hb1 Hbs Hf Hseg Hl. unfold down_step, join_down, HDR.
  assert (Hout : Forall (fun c => c.1 + 8 <= p.1 \/ p.1 + 8 <= c.1) l) by (each Hl c Hc; by right).
  rewrite u32_small by (unfold is_u32; lia). destruct (Z.eqb_spec (p.1 + 8 * p.2) b.1) as [E|E].
  - apply wp_bind, wp_gets, wp_bind, wp_modify. cbn [um set_um freep ubrk]. rewrite Hbs.
    apply wp_bind, wp_gets, wp_modify. cbn [um set_um freep ubrk]. rewrite load32_store32_ne, Hb1 by lia.
    rewrite (u32_small (p.2 + b.2)) by (unfold is_u32; lia).
    destruct (store_header (um s) p.1 (p.2 + b.2) (first l base)) as (Ho & H1 & H2).
    eexists. split; [done|]. split; [|done]. simpl. rewrite H1, H2, !u32_small by (done || unfold is_u32; lia).
    split_and!; try done. by eapply only_header_seg.
  - apply wp_modify. eexists. split; [done|].
    assert (Ho : only_header p.1 (um s) (store32 (um s) p.1 b.1)) by (intros x Hx; apply store32_other; lia).
    split; [|done]. simpl. rewrite load32_store32, u32_small by (unfold is_u32; lia).
    rewrite load32_store32_ne by lia. rewrite !(only_header_load _ _ _ _ Ho) by lia.
    split_and!; try done. by eapply only_header_seg.
Qed.

Lemma heap_sizes_pos fr used s : heap_rep fr used s -> sizes_pos used.
Proof. intros H a n Ha. apply (un_size _ _ _ (hr_used _ _ _ H a n Ha)). Qed.

Lemma heap_good fr used s : heap_rep fr used s -> Forall (good used (ubrk s)) ((base, 0) :: fr).
Proof. intros []. constructor; [by left|]. each hr_free0 c Hc. by right. Qed.

(** Bytes of a block in use are in no header of the ring. *)
Lemma good_payload used brk b a n x : good used brk b -> used !! a = Some n -> lo <= a -> a + 4 <= x < a + 8 * n ->
  ~ (b.1 <= x < b.1 + 8).
Proof.
  intros [->|Hb] Ha Hlo Hx; [simpl; lia|]. pose proof (un_size _ _ _ Hb).
  destruct (un_used _ _ _ Hb a n Ha) as [H1|H1]; simpl in *; lia.
Qed.

(** The heap after a change of the ring only. *)
Lemma heap_ring_change fr fr' used s s' : heap_rep fr used s -> ubrk s' = ubrk s ->
  seg (um s') ((base, 0) :: fr') base -> ordered ((base, 0) :: fr') -> Forall (good used (ubrk s)) ((base, 0) :: fr') ->
  (exists n, (freep s', n) ∈ (base, 0) :: fr') -> (forall a n x, used !! a = Some n -> a + 4 <= x < a + 8 * n -> um s' x = um s x) ->
  heap_rep fr' used s'.
Proof.
  intros H Eb Hseg Ho Hg Hf Hk. pose proof (heap_sizes_pos _ _ _ H) as Hpos. destruct H. split; rewrite ?Eb; try done.
  - apply Forall_cons in Hg as [_ Hg]. destruct Ho as [Hb _]. rewrite Forall_forall in *. intros c Hc.
    destruct (Hg c Hc) as [->|?]; [|done]. destruct (Hb _ Hc) as [_ Hbb]. simpl in Hbb. lia.
  - intros a n Ha. rewrite <- (hr_size0 a n Ha). apply load32_ext. intros x Hx.
    pose proof (Hpos a n Ha). apply (Hk a n); [done|lia].
Qed.

Lemma join_up_bounds b l : 1 <= b.2 -> b.1 + 8 * b.2 < 2147483648 ->
  Forall (fun c => b.1 + 8 * b.2 <= c.1 /\ 0 <= c.2 /\ c.1 + 8 * c.2 < 2147483648) l ->
  let '(b', l') := join_up b l in
    b'.1 = b.1 /\ b.2 <= b'.2 /\ b.1 + 8 * b'.2 < 2147483648 /\ Forall (fun c => b.1 + 8 <= c.1 < 2147483648) l'.
Proof.
  intros Hb Hhi Hl. assert (Hl' : Forall (fun c => b.1 + 8 <= c.1 < 2147483648) l) by (each Hl c Hc; lia).
  destruct l as [|c l]; simpl; [split_and!; (done || lia)|]. apply Forall_inv in Hl as Hc. cbv beta in Hc.
  destruct (Z.eqb_spec (b.1 + 8 * b.2) c.1); simpl; (split; [done|]); (split; [lia|]); (split; [lia|]); [|done].
  by apply Forall_cons in Hl' as [_ Hl'].
Qed.

(** The neighbours of a block [b] that is neither in use nor free. *)
Record between (fr : list block) (b : block) (pre : list block) (p : block) (l : list block) : Prop := {
  bt_ring : (base, 0) :: fr = pre ++ p :: l;
  bt_size : 0 <= p.2;
  bt_lo : base <= p.1;
  bt_below : p.1 + 8 * p.2 <= b.1;
  bt_head : p.1 + 8 <= b.1;
  bt_above : Forall (fun c => b.1 + 8 * b.2 <= c.1) l }.

Lemma between_ex fr used b s : heap_rep fr used s -> unused used (ubrk s) b -> Forall (disjoint_blocks b) fr ->
  exists pre p l, between fr b pre p l.
Proof.
  intros H Hb Hdis. pose proof (un_size _ _ _ Hb). pose proof (un_lo _ _ _ Hb).
  pose proof (hr_free _ _ _ H) as Hfr. rewrite Forall_forall in Hfr, Hdis.
  destruct (ring_split fr (base, 0) b.1 (hr_order _ _ _ H)) as (pre & p & l & E & Hp & Hl); [simpl; lia|..].
  { apply Forall_forall. intros c Hc. pose proof (un_size _ _ _ (Hfr c Hc)). destruct (Hdis c Hc); lia. }
  assert (Hin : forall c, c ∈ pre ++ p :: l -> c = (base, 0) \/ c ∈ fr) by (rewrite <- E; set_solver).
  exists pre, p, l. assert (Hp' : p = (base, 0) \/ p ∈ fr) by (apply Hin; set_solver).
  assert (Hpp : 0 <= p.2 /\ base <= p.1 /\ p.1 + 8 * p.2 <= b.1 /\ p.1 + 8 <= b.1).
  { destruct Hp' as [->|Hp']; [simpl; lia|]. pose proof (un_size _ _ _ (Hfr p Hp')). pose proof (un_lo _ _ _ (Hfr p Hp')).
    destruct (Hdis p Hp'); lia. }
  split; try tauto. rewrite Forall_forall in Hl |- *. intros c Hc. specialize (Hl c Hc).
  destruct (Hin c) as [->|Hc']; [set_solver|simpl in *; lia|]. destruct (Hdis c Hc') as [?|?]; [lia|].
  pose proof (un_size _ _ _ (Hfr c Hc')). lia.
Qed.

(** [free] behind its loop. *)
Definition free_link (bp p : Z) : M ust unit :=
  bs ← hsize bp; q ← hptr p; up_step bp bs q ;; ps ← hsize p; down_step p ps bp ;; modify (set_freep p).

Lemma wp_free_link fr used b pre p l s : heap_rep fr used s -> unused used (ubrk s) b -> load32 (um s) (b.1 + 4) = b.2 ->
  between fr b pre p l ->
  wp (free_link b.1 p.1) (fun _ s' => exists m', s' = set_freep p.1 (set_um m' s) /\
    seg m' (pre ++ joined p b l) base /\ forall x, ~ (b.1 <= x < b.1 + 8) -> ~ (p.1 <= x < p.1 + 8) -> m' x = um s x) s.
Proof.
  intros H Hb Hsz [E Hp2 Hplo Hpb Hpb' Habove]. destruct (hr_brk _ _ _ H) as [_ Hbrk].
  pose proof (un_size _ _ _ Hb). pose proof (un_lo _ _ _ Hb). pose proof (un_hi _ _ _ Hb).
  pose proof (hr_ring _ _ _ H) as Hseg. pose proof (hr_order _ _ _ H) as Hord. pose proof (heap_good _ _ _ H) as Hgood.
  rewrite E in Hseg, Hord, Hgood. apply seg_app in Hseg as [Hspre (Hp1 & Hps & Hsl)]. simpl first in Hspre.
  apply ordered_app in Hord as (_ & _ & Hpre). apply Forall_app in Hgood as [_ [_ Hgl]%Forall_cons].
  assert (Hl : Forall (fun c => b.1 + 8 * b.2 <= c.1 /\ 0 <= c.2 /\ c.1 + 8 * c.2 < 2147483648) l).
  { rewrite Forall_forall in *. intros c Hc. specialize (Habove c Hc). destruct (Hgl c Hc) as [->|[]]; simpl in *; lia. }
  apply wp_bind, wp_gets. rewrite Hsz. apply wp_bind, wp_gets. rewrite Hp1.
  eapply wp_seq; [apply wp_up; done || lia|]. intros [] s'.
  pose proof (join_up_bounds b l ltac:(lia) ltac:(lia) Hl) as Hj. unfold joined.
  destruct (join_up b l) as [b' l'] eqn:Ej. destruct Hj as (Eb & Hb2 & Hhi' & Hl').
  intros (m' & -> & Hm1 & Hm2 & Hm3 & Ho). rewrite <- Eb.
  apply wp_bind, wp_gets. cbn [um set_um]. rewrite (only_header_load _ _ _ _ Ho), Hps by lia.
  eapply wp_seq; [apply (wp_down p b' l'); cbn [um set_um]; try (done || lia || congruence)|].
  { by rewrite (only_header_load _ _ _ _ Ho) by lia. }
  { apply first_addr; [|lia]. each Hl' c Hc. lia. } { each Hl' c Hc. lia. }
  intros [] s' (m2 & -> & Hs2 & Ho2). apply wp_modify. exists m2. cbn [um set_um] in *. split; [done|]. split.
  - apply seg_app. split; [|done].
    replace (first (join_down p b' l') base) with p.1 by (unfold join_down; by case_match).
    eapply only_header_seg, only_header_seg; [done| |done| |done]; each Hpre d Hd; apply Forall_inv in Hd as [_ Hd]; lia.
  - intros x Hx1 Hx2. rewrite Ho2, Ho; [done|lia|done].
Qed.

Lemma wp_free_block fr used b s : heap_rep fr used s -> unused used (ubrk s) b ->
  Forall (disjoint_blocks b) fr -> load32 (um s) (b.1 + 4) = b.2 ->
  wp (free (b.1 + 8)) (fun _ s' => exists pre p l fr', between fr b pre p l /\
    (base, 0) :: fr' = pre ++ joined p b l /\ heap_rep fr' used s' /\ ubrk s' = ubrk s /\ freep s' = p.1 /\
    payload_kept used (um s) (um s')) s.
Proof.
  intros H Hb Hdis Hsz. pose proof (heap_sizes_pos _ _ _ H) as Hpos.
  destruct (between_ex fr used b s H Hb Hdis) as (pre & p & l & Hbt). pose proof Hbt as [E Hp2 Hplo Hpb Hpb' Habove].
  pose proof (un_size _ _ _ Hb). pose proof (un_lo _ _ _ Hb). pose proof (un_hi _ _ _ Hb). destruct (hr_brk _ _ _ H) as [_ Hbrk].
  pose proof (hr_ring _ _ _ H) as Hseg. pose proof (hr_order _ _ _ H) as Hord. pose proof (heap_good _ _ _ H) as Hgood.
  destruct (hr_freep _ _ _ H) as [n Hn]. apply list_elem_of_lookup in Hn as [i Hi]. pose proof (length_free _ _ _ H) as Hlen.
  assert (Hfirst : first (pre ++ p :: l) base = base) by (by rewrite <- E).
  assert (HlenR : (length (pre ++ p :: l) = S (length fr))%nat) by (by rewrite <- E).
  rewrite E in Hi, Hseg, Hord, Hgood.
  unfold free, HDR. rewrite (u32_small (b.1 + 8 - 8)) by (unfold is_u32; lia). replace (b.1 + 8 - 8) with b.1 by lia.
  apply wp_bind, wp_gets, wp_bind, wp_gets. eapply wp_seq.
  { apply (wp_free_loop pre p l b.1 s Hseg Hord Hfirst ltac:(lia) ltac:(lia) ltac:(each Habove c Hc; lia) _ i _ Hi).
    apply lookup_lt_Some in Hi. rewrite HlenR in *. rewrite length_app in HlenR. simpl in HlenR. case_decide; lia. }
  intros r s' [-> ->]. eapply wp_mono; [apply (wp_free_link fr used b pre p l s H Hb Hsz Hbt)|].
  intros [] s' (m' & -> & Hsm & Hx).
  destruct (joined_ok used (ubrk s) pre p b l Hpos Hord Hgood) as (Jo & Jg & Jf & Jb); try done.
  { each Habove c Hc. lia. }
  assert (HR : exists fr', (base, 0) :: fr' = pre ++ joined p b l).
  { destruct pre as [|x pre]; injection E as <- Er; [|by exists (pre ++ joined p b l)].
    destruct (Jb eq_refl) as [l' ->]. by exists l'. }
  destruct HR as [fr' HR]. exists pre, p, l, fr'. 
assert (Hk : forall a n x, used !! a = Some n -> a + 4 <= x < a + 8 * n -> um (set_freep p.1 (set_um m' s)) x = um s x).
  { intros a k x Ha Hxx. pose proof (un_lo _ _ _ (hr_used _ _ _ H a k Ha)) as Hlo. simpl in Hlo. apply Hx.
    - apply (good_payload used (ubrk s) b a k); try done. by right.
    - apply (good_payload used (ubrk s) p a k); try done. rewrite Forall_forall in Hgood. apply Hgood. set_solver. }
  split; [done|]. split; [done|]. split; [|split_and!; try done; intros a k x Ha Hxx; apply (Hk a k); [done|lia]].
  apply (heap_ring_change fr fr' used s); rewrite ?HR; try done.
  destruct (joined_head p b l) as (k & jl & ->). exists k. set_solver.
Qed.

(** *** morecore *)

Lemma heap_rep_brk fr used s brk : heap_rep fr used s -> ubrk s <= brk < 2147483648 -> heap_rep fr used (set_ubrk brk s).
Proof.
  intros [] Hb. split; try done; simpl; [lia|..].
  - each hr_free0 c Hc. destruct Hc. split; (done || lia).
  - intros a n Ha. destruct (hr_used0 a n Ha). split; (done || lia).
Qed.

(** The header of a block that is neither free nor in use is no part of the heap. *)
Lemma heap_rep_outside fr used b s m' : heap_rep fr used s -> unused used (ubrk s) b -> Forall (disjoint_blocks b) fr ->
  only_header b.1 (um s) m' -> heap_rep fr used (set_um m' s) /\ payload_kept used (um s) m'.
Proof.
  intros H Hb Hdis Ho. pose proof (un_size _ _ _ Hb). pose proof (un_lo _ _ _ Hb).
  assert (Hk : forall a n x, used !! a = Some n -> a + 4 <= x < a + 8 * n -> m' x = um s x).
  { intros a n x Ha Hx. pose proof (un_lo _ _ _ (hr_used _ _ _ H a n Ha)) as Hlo. simpl in Hlo.
    apply Ho, (good_payload used (ubrk s) b a n); try done. by right. }
  split; [|intros a n x Ha Hx; apply (Hk a n); (done || lia)].
  apply (heap_ring_change fr fr used s); try done; try apply H; [|by apply heap_good].
  apply (only_header_seg b.1 _ _ (um s)); [done| |by apply H]. constructor; [simpl; lia|].
  pose proof (hr_free _ _ _ H) as Hfr. rewrite Forall_forall in *. intros c Hc.
  pose proof (un_size _ _ _ (Hfr c Hc)). destruct (Hdis c Hc); lia.
Qed.

Lemma wp_morecore fr used s nu : heap_rep fr used s -> 1 <= nu -> 8 * nu < 2147483648 ->
  wp (morecore grant nu) (fun r s' =>
    if grant (ubrk s) (8 * Z.max 4096 nu) then
      exists fr', heap_rep fr' used s' /\ r = freep s' /\ (length fr' <= S (length fr))%nat /\
        payload_kept used (um s) (um s') /\ exists c, c ∈ (base, 0) :: fr' /\ nu <= c.2
    else r = 0 /\ s' = s) s.
Proof.
  intros H Hn1 Hn2. unfold morecore, sbrk, HDR. pose proof (hr_brk _ _ _ H) as Hbrk.
  replace (if nu <? 4096 then 4096 else nu) with (Z.max 4096 nu) by (case_match; lia).
  set (n := Z.max 4096 nu). assert (Hn : 1 <= n /\ nu <= n /\ 8 * n < 2147483648) by lia. clearbody n.
  replace (s32 (u32 (n * 8))) with (8 * n) by (rewrite s32_u32, s32_small by (unfold is_s32; lia); lia).
  apply wp_bind, wp_bind, wp_gets. destruct (grant (ubrk s) (8 * n)) eqn:Hg; [|by repeat (apply wp_ret || simpl)].
  pose proof (Hgrant _ _ Hg) as Hgn. replace (8 * n <? 0) with false by lia. cbn [andb]. rewrite (u32_small (ubrk s + 8 * n)) by (unfold is_u32; lia).
  apply wp_bind, wp_modify, wp_ret. replace (ubrk s =? u32 (-1)) with false by (change (u32 (-1)) with 4294967295; lia).
  apply wp_bind, wp_modify. set (s1 := set_ubrk _ s).
  assert (H1 : heap_rep fr used s1) by (apply heap_rep_brk; [done|lia]).
  assert (Hb : unused used (ubrk s1) (ubrk s, n)).
  { split; simpl; [lia|lia|lia|]. intros a k Ha. right. apply (un_hi _ _ _ (hr_used _ _ _ H a k Ha)). }
  assert (Hd : Forall (disjoint_blocks (ubrk s, n)) fr).
  { pose proof (hr_free _ _ _ H) as Hfr. each Hfr c Hc. right. apply Hc. }
  destruct (heap_rep_outside fr used _ s1 (store32 (um s1) (ubrk s + 4) n) H1 Hb Hd) as [H2 Hk].
  { intros x Hx. simpl in Hx. apply store32_other. lia. }
  rewrite (u32_small (ubrk s + 8)) by (unfold is_u32; lia).
  eapply wp_seq; [apply (wp_free_block fr used (ubrk s, n)); [done..|]|].
  { simpl. rewrite load32_store32, u32_small by (unfold is_u32; lia). done. }
  intros [] s' (pre & p & l & fr' & Hbt & E & H' & _ & Ef & Hk'). apply wp_gets.
  exists fr'. split; [done|]. split; [done|]. split; [|split].
  - apply (f_equal length) in E. pose proof (f_equal length (bt_ring _ _ _ _ _ Hbt)) as E0.
    rewrite length_app in E, E0. pose proof (length_joined p (ubrk s, n) l). simpl in *. lia.
  - intros a k x Ha Hx. rewrite (Hk' a k) by done. by apply (Hk a k).
  - rewrite E. destruct (joined_big p (ubrk s, n) l) as (c & Hc & Hc2).
    + apply Hbt.
    + pose proof (heap_good _ _ _ H) as Hg'. rewrite (bt_ring _ _ _ _ _ Hbt), Forall_app, Forall_cons in Hg'.
      destruct Hg' as (_ & _ & Hg'). each Hg' c Hc. destruct Hc as [->|[]]; simpl; lia.
    + exists c. split; [set_solver|]. simpl in Hc2. lia.
Qed.

(** *** malloc *)

Lemma heap_alloc fr used b s : heap_rep fr used s -> unused used (ubrk s) b -> Forall (disjoint_blocks b) fr ->
  load32 (um s) (b.1 + 4) = b.2 -> heap_rep fr (<[b.1 := b.2]> used) s /\ used !! b.1 = None.
Proof.
  intros H Hb Hd Hsz. pose proof (heap_sizes_pos _ _ _ H) as Hpos. pose proof (un_size _ _ _ Hb) as Hb1.
  assert (Hnone : used !! b.1 = None).
  { apply eq_None_not_Some. intros [n Hn]. pose proof (Hpos _ _ Hn). destruct (un_used _ _ _ Hb _ _ Hn); simpl in *; lia. }
  split; [|done]. destruct H. split; try done.
  - rewrite Forall_forall in *. intros c Hc. destruct (hr_free0 c Hc). split; try done.
    intros a n [[<- <-]|[_ Ha]]%lookup_insert_Some; [|by apply un_used0].
    destruct (Hd c Hc); unfold disjoint_blocks; simpl; lia.
  - intros a n [[<- <-]|[_ Ha]]%lookup_insert_Some; [done|by apply hr_size0].
  - intros a n [[<- <-]|[Hne Ha]]%lookup_insert_Some.
    + rewrite delete_insert_id by done. by destruct b.
    + rewrite delete_insert_ne by done. destruct (hr_used0 a n Ha). split; try done.
      intros x k [[<- <-]|[_ Hx]]%lookup_insert_Some; [|by apply un_used0].
      destruct (un_used _ _ _ Hb a n Ha); unfold disjoint_blocks in *; simpl in *; lia.
Qed.

(** Parts of a free block. *)
Lemma unused_part used brk b a n : unused used brk b -> 1 <= n -> b.1 <= a -> a + 8 * n <= b.1 + 8 * b.2 -> unused used brk (a, n).
Proof.
  intros [] Hn Ha Hhi. split; simpl; [lia|lia|lia|]. intros x k Hx. destruct (un_used0 x k Hx); [left|right]; simpl in *; lia.
Qed.

Definition granted (fr : list block) (used : blocks) (n r : Z) (s s' : ust) : Prop :=
  heap_rep fr (<[r - 8 := n]> used) s' /\ used !! (r - 8) = None /\ 0 < r /\ ubrk s' = ubrk s /\ payload_kept used (um s) (um s').

(** The block [c] is taken, or its upper part. *)
Definition take_block (nunits prevp p sz : Z) : M ust Z :=
  p ← (if sz =? nunits then q ← hptr p; set_hptr prevp q ;; mret p
       else
         let sz := u32 (sz - nunits) in
         set_hsize p sz ;;
         let p := u32 (p + HDR * sz) in
         set_hsize p nunits ;;
         mret p);
  modify (set_freep prevp) ;;
  mret (u32 (p + HDR)).

Lemma ring_cons pre x l R : (base, 0) :: R = pre ++ x :: l -> forall l', exists R', (base, 0) :: R' = pre ++ x :: l'.
Proof. intros E l'. destruct pre as [|y pre]; injection E as <- E; by eexists. Qed.

Lemma ring_drop m pre x c post : seg m (pre ++ x :: c :: post) base -> ordered (pre ++ x :: c :: post) ->
  is_u32 (first post base) -> 
  seg (store32 m x.1 (load32 m c.1)) (pre ++ x :: post) base /\ ordered (pre ++ x :: post).
Proof.
  intros Hs Ho Hf. apply seg_app in Hs as (S1 & S2 & S3 & S4 & S5 & S6). apply ordered_app in Ho as (O1 & [O2 [O3 O4]] & O5).
  assert (Hoh : only_header x.1 m (store32 m x.1 (load32 m c.1))) by (intros y Hy; apply store32_other; lia).
  apply Forall_cons in O2 as [O2c O2]. split.
  - apply seg_app. split; [|simpl; split_and!].
    + apply (only_header_seg x.1 _ _ m); [done| |done]. each O5 d Hd. apply Forall_inv in Hd as [_ Hd]. lia.
    + by rewrite load32_store32, S4, u32_small.
    + by rewrite load32_store32_ne by lia.
    + apply (only_header_seg x.1 _ _ m); [done| |done]. each O2 d Hd. destruct Hd. lia.
  - apply ordered_app. split; [done|]. split; [by split|]. each O5 d Hd. rewrite !Forall_cons in Hd. constructor; apply Hd.
Qed.

Lemma ring_apart pre x c post : ordered (pre ++ x :: c :: post) -> Forall (disjoint_blocks c) (pre ++ x :: post).
Proof.
  intros (_ & [O2 [O3 _]] & O5)%ordered_app. apply Forall_cons in O2 as [[O2 _] _]. apply Forall_app. split.
  - each O5 d Hd. rewrite !Forall_cons in Hd. destruct Hd as (_ & [Hd _] & _). right. lia.
  - constructor; [right; lia|]. each O3 d Hd. destruct Hd. left. lia.
Qed.

Lemma ring_shrink m pre x c post k : seg m (pre ++ x :: c :: post) base -> ordered (pre ++ x :: c :: post) ->
  0 <= k <= c.2 -> c.2 < 2147483648 ->
  seg (store32 m (c.1 + 4) k) (pre ++ x :: (c.1, k) :: post) base /\ ordered (pre ++ x :: (c.1, k) :: post).
Proof.
  intros Hs Ho Hk Hc. apply seg_app in Hs as (S1 & S2 & S3 & S4 & S5 & S6). apply ordered_app in Ho as (O1 & [O2 [O3 O4]] & O5).
  assert (Hoh : only_header c.1 m (store32 m (c.1 + 4) k)) by (intros y Hy; apply store32_other; lia).
  apply Forall_cons in O2 as [[O2a O2c] O2]. split.
  - apply seg_app. split; [|simpl; split_and!].
    + apply (only_header_seg c.1 _ _ m); [done| |done]. each O5 d Hd. rewrite !Forall_cons in Hd. destruct Hd as (_ & [_ Hd] & _). lia.
    + rewrite (only_header_load _ _ _ _ Hoh) by lia. done.
    + rewrite (only_header_load _ _ _ _ Hoh) by lia. done.
    + rewrite load32_store32_ne by lia. done.
    + rewrite load32_store32, u32_small by (unfold is_u32; lia). done.
    + apply (only_header_seg c.1 _ _ m); [done| |done]. each O3 d Hd. destruct Hd. lia.
  - apply ordered_app. split; [done|]. split.
    + split; [by constructor|]. split; [|done]. each O3 d Hd. unfold apart in *. simpl. lia.
    + each O5 d Hd. rewrite !Forall_cons in Hd. constructor; [apply Hd|]. constructor; apply Hd.
Qed.

Lemma wp_take_exact fr used s pre x c post n : heap_rep fr used s -> (base, 0) :: fr = pre ++ x :: c :: post ->
  unused used (ubrk s) c -> c.2 = n ->
  wp (take_block n x.1 c.1 c.2) (fun r s' => exists fr', granted fr' used n r s s') s.
Proof.
  intros H E Hc <-. unfold take_block, HDR. rewrite Z.eqb_refl. pose proof (hr_brk _ _ _ H) as Hbrk.
  pose proof (un_size _ _ _ Hc) as Hc1. pose proof (un_lo _ _ _ Hc) as Hc2. pose proof (un_hi _ _ _ Hc) as Hc3.
  pose proof (hr_ring _ _ _ H) as Hseg. pose proof (hr_order _ _ _ H) as Hord. pose proof (heap_good _ _ _ H) as Hg.
  rewrite E in Hseg, Hord, Hg. apply wp_bind, wp_bind, wp_gets, wp_bind, wp_modify, wp_ret, wp_bind, wp_modify, wp_ret.
  rewrite u32_small by (unfold is_u32; lia). destruct (ring_cons _ _ _ _ E post) as [fr' E'].
  destruct (ring_drop (um s) pre x c post Hseg Hord) as [Hseg' Hord'].
  { apply first_addr; [|lia]. apply ordered_app in Hord as (_ & [_ [Ho _]] & _). apply Forall_app in Hg as [_ Hg].
    rewrite !Forall_cons in Hg. destruct Hg as (_ & _ & Hg). rewrite Forall_forall in *. intros d Hd.
    destruct (Ho d Hd). destruct (Hg d Hd) as [->|[]]; simpl in *; lia. }
  set (s1 := set_freep _ _).
  assert (Hk : forall a n y, used !! a = Some n -> a + 4 <= y < a + 8 * n -> um s1 y = um s y).
  { intros a n y Ha Hy. pose proof (un_lo _ _ _ (hr_used _ _ _ H a n Ha)) as Hlo. simpl in Hlo. apply store32_other.
    enough (~ (x.1 <= y < x.1 + 8)) by lia. apply (good_payload used (ubrk s) x a n); try done.
    apply Forall_app in Hg as [_ Hg]. by apply Forall_inv in Hg. }
  assert (H1 : heap_rep fr' used s1).
  { apply (heap_ring_change fr fr' used s); rewrite ?E'; try done.
    - rewrite Forall_app, !Forall_cons in *. tauto.
    - exists x.2. destruct x. set_solver. }
  pose proof (ring_apart _ _ _ _ Hord) as Hdis. rewrite <- E' in Hdis. apply Forall_cons in Hdis as [_ Hdis].
  destruct (heap_alloc fr' used c s1 H1 Hc Hdis) as [H2 Hnone].
  { simpl. apply ordered_app in Hord as (_ & [[[_ Hxc] _]%Forall_cons _] & _). rewrite load32_store32_ne by lia.
    by apply seg_app in Hseg as (_ & _ & _ & _ & Hseg & _). }
  exists fr'. unfold granted. replace (c.1 + 8 - 8) with c.1 by lia. split_and!; try (done || lia).
  intros a n y Ha Hy. apply (Hk a n); [done|lia].
Qed.

Lemma wp_take_split fr used s pre x c post n : heap_rep fr used s -> (base, 0) :: fr = pre ++ x :: c :: post ->
  unused used (ubrk s) c -> 1 <= n < c.2 ->
  wp (take_block n x.1 c.1 c.2) (fun r s' => exists fr', granted fr' used n r s s') s.
Proof.
  intros H E Hc Hn. unfold take_block, HDR. replace (c.2 =? n) with false by lia. pose proof (hr_brk _ _ _ H) as Hbrk.
  pose proof (un_lo _ _ _ Hc) as Hc2. pose proof (un_hi _ _ _ Hc) as Hc3.
  pose proof (hr_ring _ _ _ H) as Hseg. pose proof (hr_order _ _ _ H) as Hord. pose proof (heap_good _ _ _ H) as Hg.
  rewrite E in Hseg, Hord, Hg. rewrite (u32_small (c.2 - n)) by (unfold is_u32; lia).
  rewrite (u32_small (c.1 + _)) by (unfold is_u32; lia). set (k := c.2 - n). set (b := c.1 + 8 * k).
  apply wp_bind, wp_bind, wp_modify, wp_bind, wp_modify, wp_ret, wp_bind, wp_modify, wp_ret.
  rewrite u32_small by (unfold is_u32; lia). destruct (ring_cons _ _ _ _ E ((c.1, k) :: post)) as [fr' E'].
  destruct (ring_shrink (um s) pre x c post k Hseg Hord) as [Hseg' Hord']; [lia..|].
  set (s1 := set_um (store32 (um s) (c.1 + 4) k) s).
  assert (Hk : forall a n y, used !! a = Some n -> a + 4 <= y < a + 8 * n -> um s1 y = um s y).
  { intros a n' y Ha Hy. pose proof (un_lo _ _ _ (hr_used _ _ _ H a n' Ha)) as Hlo. simpl in Hlo. apply store32_other.
    enough (~ (c.1 <= y < c.1 + 8)) by lia. apply (good_payload used (ubrk s) c a n'); try done. by right. }
  assert (Hg' : Forall (good used (ubrk s)) ((base, 0) :: fr')).
  { rewrite E'. rewrite Forall_app, !Forall_cons in *. destruct Hg as (G1 & G2 & _ & G3). split_and!; try done.
    right. apply (unused_part _ _ c); simpl; (done || lia). }
  assert (Hf : heap_rep fr' used (set_freep x.1 s1)).
  { apply (heap_ring_change fr fr' used s); rewrite ?E'; try done; [by rewrite <- E'|].
    exists x.2. destruct x. set_solver. }
  assert (Hb : unused used (ubrk s) (b, n)) by (apply (unused_part _ _ c); simpl; (done || lia)).
  assert (Hd : Forall (disjoint_blocks (b, n)) ((base, 0) :: fr')).
  { pose proof (ring_apart _ _ _ _ Hord) as Hd. rewrite E'. rewrite Forall_app, !Forall_cons in *. destruct Hd as (D1 & D2 & D3).
    assert (Hsub : forall d, disjoint_blocks c d -> disjoint_blocks (b, n) d) by (intros d [?|?]; [left|right]; simpl; lia).
    split_and!; [by each D1 d D; apply Hsub|by apply Hsub|right; simpl; lia|by each D3 d D; apply Hsub]. }
  apply Forall_cons in Hd as [_ Hd].
  destruct (heap_rep_outside fr' used (b, n) _ (store32 (um s1) (b + 4) n) Hf Hb Hd) as [H2 Hk2].
  { intros y Hy. simpl in Hy. apply store32_other. lia. }
  destruct (heap_alloc fr' used (b, n) _ H2 Hb Hd) as [H3 Hnone].
  { simpl. rewrite load32_store32, u32_small by (unfold is_u32; lia). done. }
  exists fr'. unfold granted. replace (b + 8 - 8) with b by lia. split_and!; try (done || lia).
  intros a m y Ha Hy. etransitivity; [by apply (Hk2 a m)|]. apply (Hk a m); [done|lia].
Qed.

(** The walk of [malloc] from [f], the block at [freep], around the ring to [f]. *)
Definition more (n : Z) (fuel : nat) : M ust Z :=
  p ← morecore grant n; if p =? 0 then mret 0 else q ← hptr p; malloc_loop grant fuel n p q.

Lemma wp_list_walk n f k Q s e mid : freep s = f.1 -> forall x fuel, seg (um s) (mid ++ [f]) e -> Forall (fun c => c.1 <> f.1) mid ->
  load32 (um s) x.1 = first (mid ++ [f]) e ->
  (forall b c, b ∈ x :: mid -> c ∈ mid ++ [f] -> load32 (um s) b.1 = c.1 -> n <= c.2 -> wp (take_block n b.1 c.1 c.2) Q s) ->
  (Forall (fun c => c.2 < n) (mid ++ [f]) -> forall fuel, (k <= fuel)%nat -> wp (more n fuel) Q s) ->
  (length mid + 1 + k <= fuel)%nat -> wp (malloc_loop grant fuel n x.1 (first (mid ++ [f]) e)) Q s.
Proof.
  intros Hf. induction mid as [|c mid IH]; intros x fuel Hs Hne Hx Htake Hmore Hfuel; destruct fuel as [|fuel]; simpl in Hfuel; try lia;
    cbn [malloc_loop app first] in *; destruct Hs as (S1 & S2 & S3); apply wp_bind, wp_gets; rewrite S2.
  - destruct (Z.leb_spec n f.2) as [Hn|Hn]; [apply (Htake x f); (done || set_solver)|].
    apply wp_bind, wp_gets. rewrite Hf, Z.eqb_refl. apply Hmore; [by repeat constructor|lia].
  - apply Forall_cons in Hne as [Hc Hne]. destruct (Z.leb_spec n c.2) as [Hn|Hn]; [apply (Htake x c); (done || set_solver)|].
    apply wp_bind, wp_gets. rewrite Hf. replace (c.1 =? f.1) with false by lia. apply wp_bind, wp_gets. rewrite S1.
    apply IH; try done; [|intros Hall; apply Hmore; by constructor|lia].
    intros b d Hb Hd. apply Htake; set_solver.
Qed.

Lemma ordered_inj R b c i j : ordered R -> R !! i = Some b -> R !! j = Some c -> b.1 = c.1 -> i = j.
Proof.
  intros Ho Hi Hj E. destruct (Nat.lt_trichotomy i j) as [Hl|[?|Hl]]; [|done|].
  - destruct (ordered_lookup _ _ _ _ _ Ho Hl Hi Hj). lia.
  - destruct (ordered_lookup _ _ _ _ _ Ho Hl Hj Hi). lia.
Qed.

(** A block that is linked to a free block is the one before it. *)
Lemma ring_before fr used s b c : heap_rep fr used s -> b ∈ (base, 0) :: fr -> c ∈ fr -> load32 (um s) b.1 = c.1 ->
  exists pre post, (base, 0) :: fr = pre ++ b :: c :: post.
Proof.
  intros H [i Hi]%list_elem_of_lookup Hc E. pose proof (hr_order _ _ _ H) as Ho.
  pose proof (proj1 (Forall_forall _ _) (hr_free _ _ _ H) c Hc) as Hcu. pose proof (un_lo _ _ _ Hcu).
  apply list_elem_of_lookup in Hc as [j Hj]. assert (Hj' : ((base, 0) :: fr) !! S j = Some c) by done.
  destruct (ring_next (um s) _ i b (hr_ring _ _ _ H) Ho eq_refl Hi) as [(d & Hd & El & _)|(_ & El & _)]; [|lia].
  assert (Eij : S i = S j) by (eapply ordered_inj; [exact Ho|done..|congruence]). rewrite Eij, Hj' in Hd. injection Hd as <-.
  exists (take i ((base, 0) :: fr)), (drop (S (S i)) ((base, 0) :: fr)).
  rewrite <- (take_drop_middle _ _ _ Hi) at 1. f_equal. f_equal.
  rewrite <- Eij in Hj'. by rewrite (drop_S _ c (S i)).
Qed.

Lemma wp_take fr used s b c n : heap_rep fr used s -> 1 <= n -> b ∈ (base, 0) :: fr -> c ∈ (base, 0) :: fr ->
  load32 (um s) b.1 = c.1 -> n <= c.2 ->
  wp (take_block n b.1 c.1 c.2) (fun r s' => exists fr', granted fr' used n r s s') s.
Proof.
  intros H Hn Hb [->|Hc]%elem_of_cons E Hle; [simpl in Hle; lia|].
  destruct (ring_before fr used s b c H Hb Hc E) as (pre & post & ER).
  pose proof (proj1 (Forall_forall _ _) (hr_free _ _ _ H) c Hc) as Hcu.
  destruct (decide (c.2 = n)); [by eapply wp_take_exact|]. eapply wp_take_split; (done || lia).
Qed.

Lemma wp_scan fr used s n fuel k (Q : Z -> ust -> Prop) : heap_rep fr used s -> 1 <= n -> (length fr + 1 + k <= fuel)%nat ->
  (forall r s' fr', granted fr' used n r s s' -> Q r s') ->
  (Forall (fun c => c.2 < n) ((base, 0) :: fr) -> forall fuel, (k <= fuel)%nat -> wp (more n fuel) Q s) ->
  wp (malloc_loop grant fuel n (freep s) (load32 (um s) (freep s))) Q s.
Proof.
  intros H Hn Hfuel HQ Hmore. destruct (hr_freep _ _ _ H) as [fz Hf]. apply list_elem_of_split in Hf as (A & B & E).
  pose proof (hr_ring _ _ _ H) as Hs. pose proof (hr_order _ _ _ H) as Ho. pose proof (f_equal length E) as El.
  remember (freep s, fz) as f eqn:Ef. assert (Ef1 : freep s = f.1) by (by rewrite Ef). assert (Hfirst : base = first (A ++ [f]) base).
  { assert (Eh : head (A ++ f :: B) = Some (base, 0)) by (by rewrite <- E). destruct A; injection Eh as Eh; simpl; by rewrite Eh. }
  rewrite E in Hs, Ho. apply seg_app in Hs as (S1 & S2 & S3 & S4). apply ordered_app in Ho as (_ & [O2 _] & O5).
  assert (Elink : forall e, load32 (um s) f.1 = first ((B ++ A) ++ [f]) e).
  { intros e. rewrite S2, <- app_assoc, first_app, Hfirst at 1. f_equal. by destruct A. }
  assert (Hin : forall c, c ∈ (B ++ A) ++ [f] <-> c ∈ (base, 0) :: fr) by (rewrite E; set_solver).
  rewrite Ef1, (Elink (load32 (um s) f.1)). apply (wp_list_walk n f k); [done|..].
  - rewrite <- app_assoc. apply seg_app. split; [|apply seg_app; by split].
    by replace (first (A ++ [f]) _) with base by (rewrite Hfirst; by destruct A).
  - apply Forall_app. split; [each O2 d Hd; destruct Hd; simpl in *; lia|].
    each O5 d Hd. apply Forall_inv in Hd as [_ Hd]. simpl in *. lia.
  - apply Elink.
  - intros b c Hb Hc Hbc Hle. eapply wp_mono; [apply (wp_take fr used s b c n); try done|].
    + apply Hin. set_solver.
    + by apply Hin.
    + intros r s' [fr' Hg]. by eapply HQ.
  - intros Hall. apply Hmore. rewrite Forall_forall in *. intros c Hc. by apply Hall, Hin.
  - rewrite length_app in *. simpl in El. lia.
Qed.

(** The heap between calls: before the first one [freep] is 0. *)
Definition heap_inv (used : blocks) (s : ust) : Prop :=
  (freep s = 0 /\ used = ∅ /\ lo <= ubrk s < 2147483648) \/ exists fr, heap_rep fr used s.

Definition units (nbytes : Z) : Z := (nbytes + 7) / 8 + 1.

Lemma freep_pos fr used s : heap_rep fr used s -> 0 < freep s.
Proof.
  intros H. destruct (hr_freep _ _ _ H) as [n [E|Hin]%elem_of_cons]; [injection E as -> _; lia|].
  pose proof (un_lo _ _ _ (proj1 (Forall_forall _ _) (hr_free _ _ _ H) _ Hin)) as Hlo. simpl in Hlo. lia.
Qed.

Lemma wp_scan_more fr used s n fuel : heap_rep fr used s -> 1 <= n -> 8 * n < 2147483648 -> (2 * length fr + 3 <= fuel)%nat ->
  wp (malloc_loop grant fuel n (freep s) (load32 (um s) (freep s))) (fun r s' =>
    (r = 0 /\ s' = s /\ grant (ubrk s) (8 * Z.max 4096 n) = false /\ Forall (fun c => c.2 < n) fr) \/
    (0 < r /\ used !! (r - 8) = None /\ payload_kept used (um s) (um s') /\ exists fr', heap_rep fr' (<[r - 8 := n]> used) s')) s.
Proof.
  intros H Hn1 Hn2 Hfuel. apply (wp_scan fr used s n fuel (length fr + 2)); [done|done|lia|..].
  { intros r s' fr' (H' & Hnone & Hr & _ & Hk). right. split_and!; try done. by exists fr'. }
  intros Hall fuel' Hf'. eapply wp_seq; [by apply (wp_morecore fr used)|]. intros p s'.
  destruct (grant _ _) eqn:Hg.
  - intros (fr' & H' & -> & Hlen & Hk & c & Hc & Hcn).
    pose proof (freep_pos _ _ _ H') as Hfp. replace (freep s' =? 0) with false by lia. apply wp_bind, wp_gets.
    apply (wp_scan fr' used s' n fuel' 0); [done|done|lia|..].
    + intros r s2 fr2 (H2 & Hnone & Hr & _ & Hk2). right. split_and!; try done; [|by exists fr2].
      intros a m x Ha Hx. rewrite (Hk2 a m) by done. by apply (Hk a m).
    + intros Hsmall. rewrite Forall_forall in Hsmall. specialize (Hsmall c Hc). cbv beta in Hsmall. lia.
  - intros [-> ->]. apply wp_ret. left. split_and!; try done. by apply Forall_cons in Hall as [_ Hall].
Qed.

Lemma heap_start s : lo <= ubrk s < 2147483648 ->
  heap_rep [] ∅ (set_um (store32 (store32 (um s) base base) (base + 4) 0) (set_freep base s)).
Proof.
  intros Hb. split; simpl; try done.
  - rewrite load32_store32_ne by lia. rewrite !load32_store32. rewrite u32_small by (unfold is_u32; lia). done.
  - exists 0. set_solver.
Qed.

Lemma wp_malloc used s nbytes : heap_inv used s -> 0 <= nbytes < 2147483632 ->
  wp (malloc base grant nbytes) (fun r s' => 
    (r = 0 /\ grant (ubrk s) (8 * Z.max 4096 (units nbytes)) = false /\ payload_kept used (um s) (um s') /\ heap_inv used s') \/
    (0 < r /\ used !! (r - 8) = None /\ payload_kept used (um s) (um s') /\ heap_inv (<[r - 8 := units nbytes]> used) s')) s.
Proof.
  intros Hinv Hn. unfold malloc, HDR. rewrite (u32_small (nbytes + 8 - 1)) by (unfold is_u32; lia).
  replace ((nbytes + 8 - 1) / 8 + 1) with (units nbytes) by (unfold units; by replace (nbytes + 8 - 1) with (nbytes + 7) by lia).
  assert (Hu : 1 <= units nbytes /\ 8 * units nbytes < 2147483648) by (unfold units; pose proof (Z.mul_div_le (nbytes + 7) 8); pose proof (Z.div_pos (nbytes + 7) 8); lia).
  assert (Hmain : forall fr s1, heap_rep fr used s1 -> ubrk s1 = ubrk s -> payload_kept used (um s) (um s1) ->
    wp (fuel ← rounds; p ← hptr (freep s1); malloc_loop grant (2 * fuel) (units nbytes) (freep s1) p) (fun r s' => 
    (r = 0 /\ grant (ubrk s) (8 * Z.max 4096 (units nbytes)) = false /\ payload_kept used (um s) (um s') /\ heap_inv used s') \/
    (0 < r /\ used !! (r - 8) = None /\ payload_kept used (um s) (um s') /\ heap_inv (<[r - 8 := units nbytes]> used) s')) s1).
  { intros fr s1 H Eb Hk. pose proof (length_free _ _ _ H). apply wp_bind, wp_gets, wp_bind, wp_gets.
    eapply wp_mono; [apply (wp_scan_more fr used s1); (done || lia)|]. intros r s' [(-> & -> & Hg & _)|(Hr & Hnone & Hk' & fr' & H')].
    - left. rewrite <- Eb. split_and!; try done. right. by exists fr.
    - right. split_and!; try done; [|right; by exists fr']. intros a m x Ha Hx. rewrite (Hk' a m) by done. by apply (Hk a m). }
  apply wp_bind, wp_gets. destruct Hinv as [(Ef & -> & Hb)|(fr & H)].
  - rewrite Ef, Z.eqb_refl. apply wp_bind, wp_bind, wp_modify, wp_bind, wp_modify, wp_bind, wp_modify, wp_ret.
    by apply (Hmain [] _ (heap_start s Hb)).
  - pose proof (freep_pos _ _ _ H). replace (freep s =? 0) with false by lia. apply wp_bind, wp_ret. by apply (Hmain fr).
Qed.

Lemma heap_rep_delete fr used a s : heap_rep fr used s -> heap_rep fr (delete a used) s.
Proof.
  intros []. split; try done.
  - each hr_free0 c Hc. by apply unused_delete.
  - intros x n [_ Hx]%lookup_delete_Some. by apply hr_size0.
  - intros x n [_ Hx]%lookup_delete_Some. rewrite delete_delete. by apply unused_delete, hr_used0.
Qed.

Lemma wp_free used a n s : heap_inv used s -> used !! a = Some n ->
  wp (free (a + 8)) (fun _ s' => heap_inv (delete a used) s' /\ payload_kept (delete a used) (um s) (um s')) s.
Proof.
  intros [(_ & -> & _)|(fr & H)] Ha; [done|]. eapply wp_mono; [apply (wp_free_block fr (delete a used) (a, n))|].
  - by apply heap_rep_delete.
  - by apply (hr_used _ _ _ H).
  - pose proof (hr_free _ _ _ H) as Hfr. each Hfr c Hc. destruct (un_used _ _ _ Hc a n Ha); unfold disjoint_blocks; simpl in *; lia.
  - by apply (hr_size _ _ _ H).
  - intros [] s' (_ & _ & _ & fr' & _ & _ & H' & _ & _ & Hk). split; [|done]. right. by exists fr'.
Qed.

(** ** What the allocator promises to its clients *)

Inductive uop := UMalloc (nbytes : Z) | UFree (p : Z) | UStore (x v : Z) | ULoad (x : Z).

Definition run_op (op : uop) : M ust Z :=
  match op with
  | UMalloc n => malloc base grant n
  | UFree p => free p ;; mret 0
  | UStore x v => modify (fun s => set_um (upd (um s) x v) s) ;; mret 0
  | ULoad x => gets (fun s => um s x)
  end.

(** The abstract heap: the blocks handed out with the sizes asked for, and the
    bytes that have been written into them. *)
Record aheap := AHeap { live : gmap Z Z; cells : gmap Z Z }.

Definition inside (h : aheap) (x : Z) : Prop := map_Exists (fun p n => p <= x < p + n) (live h).
Definition fresh (h : aheap) (p n : Z) : Prop :=
  lo <= p /\ p + n < 2147483648 /\ map_Forall (fun q k => p + n <= q \/ q + k <= p) (live h).

(** The state after [op] has returned [r], when that result is allowed. *)
Definition spec_next (h : aheap) (op : uop) (r : Z) : option aheap :=
  match op with
  | UMalloc n =>
      if decide (r = 0) then Some h
      else if decide (fresh h r n) then Some (AHeap (<[r := n]> (live h)) (cells h)) else None
  | UFree p =>
      n ← live h !! p;
      Some (AHeap (delete p (live h)) (filter (fun xv => ~ (p <= xv.1 < p + n)) (cells h)))
  | UStore x v => Some (AHeap (live h) (<[x := v]> (cells h)))
  | ULoad x =>
      match cells h !! x with
      | Some v => if decide (r = v) then Some h else None
      | None => Some h
      end
  end.

(** What a client may do: free what it was given and has not freed, write
    inside blocks, ask for less than two gigabytes. *)
Definition admissible (h : aheap) (op : uop) : Prop :=
  match op with
  | UMalloc n => 0 <= n < 2147483632
  | UFree p => is_Some (live h !! p)
  | UStore x _ => inside h x
  | ULoad _ => True
  end.

Fixpoint accepts (h : aheap) (tr : list (uop * Z)) : option aheap :=
  match tr with
  | [] => Some h
  | (op, r) :: tr => h' ← spec_next h op r; accepts h' tr
  end.

(** A client chooses its next operation by the results so far. *)
Fixpoint run_client (client : list (uop * Z) -> option uop) (n : nat) (tr : list (uop * Z)) : M ust (list (uop * Z)) :=
  match n, client tr with
  | S n, Some op => r ← run_op op; run_client client n (tr ++ [(op, r)])
  | _, _ => mret tr
  end.

Definition well_behaved (client : list (uop * Z) -> option uop) : Prop :=
  forall tr h op, accepts (AHeap ∅ ∅) tr = Some h -> client tr = Some op -> admissible h op.

Definition live_used (h : aheap) (used : blocks) : Prop :=
  forall p n, live h !! p = Some n -> used !! (p - 8) = Some (units n) /\ 0 <= n.

Record heap_abs (h : aheap) (s : ust) : Prop := {
  ha_used : exists used, heap_inv used s /\ live_used h used;
  ha_cells : forall x v, cells h !! x = Some v -> inside h x /\ um s x = v }.

(** A byte inside a block given to the client is behind the block's header. *)
Lemma inside_payload n x p : p <= x < p + n -> p - 8 + 8 <= x < p - 8 + 8 * units n.
Proof. unfold units. pose proof (Z.mul_succ_div_gt (n + 7) 8). lia. Qed.

Lemma units_size n : n <= 8 * units n - 8.
Proof. unfold units. pose proof (Z.mul_succ_div_gt (n + 7) 8). lia. Qed.

Lemma cells_kept h used s s' : live_used h used -> payload_kept used (um s) (um s') ->
  (forall x v, cells h !! x = Some v -> inside h x /\ um s x = v) ->
  forall x v, cells h !! x = Some v -> inside h x /\ um s' x = v.
Proof.
  intros Hl Hk Hc x v Hx. destruct (Hc x v Hx) as [Hin <-]. split; [done|]. destruct Hin as (p & n & Hp & Hpx).
  apply (Hk (p - 8) (units n)); [by apply Hl|by apply inside_payload].
Qed.

Lemma malloc_fresh h used n r s : live_used h used -> used !! (r - 8) = None -> heap_inv (<[r - 8 := units n]> used) s -> fresh h r n.
Proof.
  intros Hl Hnone [(_ & E & _)|(fr & H)].
  { exfalso. apply (insert_non_empty used (r - 8) (units n)). done. }
  pose proof (units_size n). pose proof (hr_brk _ _ _ H) as Hbrk.
  pose proof (hr_used _ _ _ H (r - 8) (units n) (lookup_insert_eq _ _ _)) as [U1 U2 U3 U4]. simpl in *.
  split; [lia|]. split; [lia|]. intros q k Hq. destruct (Hl q k Hq) as [Hu Hk]. pose proof (units_size k).
  rewrite delete_insert_id in U4 by done. destruct (U4 (q - 8) (units k) Hu) as [D|D]; simpl in D; lia.
Qed.

Lemma heap_abs_malloc h used n r s : live_used h used -> 0 <= n -> used !! (r - 8) = None ->
  heap_inv (<[r - 8 := units n]> used) s -> (forall x v, cells h !! x = Some v -> inside h x /\ um s x = v) ->
  heap_abs (AHeap (<[r := n]> (live h)) (cells h)) s.
Proof.
  intros Hl Hn Hnone Hinv Hc. assert (Hr : live h !! r = None).
  { apply eq_None_not_Some. intros [k Hk]. destruct (Hl r k Hk). congruence. }
  split; simpl.
  - eexists. split; [done|]. unfold live_used. simpl. intros p k [[<- <-]|[Hne Hp]]%lookup_insert_Some; [by rewrite lookup_insert_eq|].
    rewrite lookup_insert_ne by lia. by apply Hl.
  - intros x v Hx. destruct (Hc x v Hx) as [(p & k & Hp & Hpx) Hv]. split; [|done]. exists p, k. split; [|done].
    simpl. rewrite lookup_insert_ne; [done|]. congruence.
Qed.

Lemma heap_abs_free h used p n s : live_used h used -> live h !! p = Some n -> heap_inv (delete (p - 8) used) s ->
  (forall x v, cells h !! x = Some v -> inside h x) ->
  (forall x v, cells h !! x = Some v -> ~ (p <= x < p + n) -> um s x = v) ->
  heap_abs (AHeap (delete p (live h)) (filter (fun xv => ~ (p <= xv.1 < p + n)) (cells h))) s.
Proof.
  intros Hl Hp Hinv Hin Hc. split; simpl.
  - eexists. split; [done|]. unfold live_used. simpl. intros q k [Hne Hq]%lookup_delete_Some. rewrite lookup_delete_ne by lia. by apply Hl.
  - intros x v [Hx Hout]%map_lookup_filter_Some. simpl in Hout. split; [|by apply Hc].
    destruct (Hin x v Hx) as (q & k & Hq & Hqx). exists q, k. split; [|done]. simpl.
    apply lookup_delete_Some. split; [|done]. intros <-. congruence.
Qed.

Lemma heap_inv_write used s a n x v : heap_inv used s -> used !! a = Some n -> a + 8 <= x < a + 8 * n ->
  heap_inv used (set_um (upd (um s) x v) s).
Proof.
  intros [(_ & -> & _)|(fr & H)] Ha Hx; [done|]. right. exists fr. pose proof (heap_good _ _ _ H) as Hg.
  pose proof (un_lo _ _ _ (hr_used _ _ _ H a n Ha)) as Hlo. simpl in Hlo.
  assert (Hu : forall y, y <> x -> upd (um s) x v y = um s y) by (intros y Hy; unfold upd; by replace (y =? x) with false by lia).
  pose proof (heap_sizes_pos _ _ _ H) as Hpos. destruct H. split; try done.
  - eapply seg_ext; [exact hr_ring0|]. each Hg c Hc. intros y Hy. symmetry. apply Hu. intros ->.
    by apply (good_payload used (ubrk s) c a n x); try (done || lia).
  - intros b k Hb. rewrite <- (hr_size0 b k Hb). apply load32_ext. intros y Hy. apply Hu. intros ->.
    pose proof (Hpos b k Hb). destruct (decide (b = a)) as [->|Hne]; [lia|].
    destruct (un_used _ _ _ (hr_used0 a n Ha) b k) as [D|D]; [by rewrite lookup_delete_ne|simpl in D; lia..].
Qed.

Lemma op_refines h op s : heap_abs h s -> admissible h op ->
  wp (run_op op) (fun r s' => exists h', spec_next h op r = Some h' /\ heap_abs h' s') s.
Proof.
  intros [(used & Hinv & Hl) Hc] Hadm. destruct op as [n|p|x v|x]; simpl in Hadm |- *.
  - wp_call (wp_malloc used s n Hinv Hadm). intros r s' [(-> & _ & Hk & Hi)|(Hr & Hnone & Hk & Hi)].
    + exists h. rewrite decide_True by done. split; [done|]. split; [by exists used|]. by apply (cells_kept h used s).
    + rewrite decide_False by lia. rewrite decide_True by (by eapply malloc_fresh). eexists. split; [done|].
      apply (heap_abs_malloc h used n r); try (done || lia). by apply (cells_kept h used s).
  - destruct Hadm as [n Hp]. rewrite Hp. destruct (Hl p n Hp) as [Hu _]. replace p with (p - 8 + 8) at 1 by lia.
    wp_call (wp_free used (p - 8) (units n) s Hinv Hu). intros [] s' [Hi Hk]. apply wp_ret. eexists. split; [done|].
    apply (heap_abs_free h used p n); try done; [by intros x v [? _]%Hc|].
    intros x v Hx Hout. destruct (Hc x v Hx) as [(q & k & Hq & Hqx) <-].
    apply (Hk (q - 8) (units k)); [|by apply inside_payload].
    rewrite lookup_delete_ne; [by apply Hl|]. intros E. assert (q = p) as -> by lia. congruence.
  - apply wp_bind, wp_modify, wp_ret. eexists. split; [done|].
    pose proof Hadm as (p & n & Hp & Hx). destruct (Hl p n Hp) as [Hu Hn]. split; simpl.
    + exists used. split; [|done]. by apply (heap_inv_write used s (p - 8) (units n)), inside_payload.
    + intros y w [[<- <-]|[Hne Hy]]%lookup_insert_Some; unfold upd; [by rewrite Z.eqb_refl|].
      replace (y =? x) with false by lia. by apply Hc.
  - apply wp_gets. exists h. split; [|by split; [exists used|]]. destruct (cells h !! x) as [v|] eqn:Hx; [|done].
    destruct (Hc x v Hx) as [_ ->]. by rewrite decide_True.
Qed.

Lemma accepts_app h tr tr' : accepts h (tr ++ tr') = h' ← accepts h tr; accepts h' tr'.
Proof. revert h. induction tr as [|[op r] tr IH]; intros h; simpl; [done|]. destruct (spec_next h op r); simpl; [apply IH|done]. Qed.

(** C11 Any client of the allocator that frees only what it holds and writes
    only into its blocks gets what it is promised, however it chooses its calls
    by the results of the earlier ones: every call returns, every block from
    [malloc] has the size asked for and overlaps no block in use, and every byte
    of a block keeps what was written into it until the block is freed. *)
Theorem umalloc_refines client n s : well_behaved client -> freep s = 0 -> lo <= ubrk s < 2147483648 ->
  wp (run_client client n []) (fun tr s' => exists h, accepts (AHeap ∅ ∅) tr = Some h /\ heap_abs h s') s.
Proof.
  intros Hw Hf Hb. set (h0 := AHeap ∅ ∅).
  enough (Hrun : forall tr h s, accepts h0 tr = Some h -> heap_abs h s ->
    wp (run_client client n tr) (fun tr s' => exists h, accepts h0 tr = Some h /\ heap_abs h s') s).
  { apply (Hrun [] h0); [done|]. split; [exists ∅; split; [by left|]|]; done. }
  clear s Hf Hb. induction n as [|n IH]; intros tr h s Htr Ha; simpl; [apply wp_ret; by exists h|].
  destruct (client tr) as [op|] eqn:Ec; [|apply wp_ret; by exists h].
  wp_call (op_refines h op s Ha (Hw tr h op Htr Ec)). intros r s' (h' & Hn & Ha'). apply (IH _ h'); [|done].
  rewrite accepts_app, Htr. simpl. by rewrite Hn.
Qed.
End heap.

(** ** Examples *)

(** A kernel that grants everything below its own addresses. *)
Definition demo_grant (b n : Z) : bool := b + n <? 2147483648.
Definition demo_ust : ust := Ust (fun _ => 0) 0 16384.

(** A client that asks for a block, writes into it and frees it. *)
Definition demo_client (tr : list (uop * Z)) : option uop :=
  match tr with
  | [] => Some (UMalloc 10)
  | [(UMalloc 10, r)] => if r =? 0 then None else Some (UStore (r + 9) 7)
  | [(UMalloc 10, r); (UStore _ _, _)] => if r =? 0 then None else Some (ULoad (r + 9))
  | [(UMalloc 10, r); (UStore _ _, _); (ULoad _, _)] => if r =? 0 then None else Some (UFree r)
  | _ => None
  end.

Lemma demo_client_run : exists s, run_client 64 demo_grant demo_client 9 [] demo_ust =
  Ok [(UMalloc 10, 49136); (UStore 49145 7, 0); (ULoad 49145, 7); (UFree 49136, 0)] s.
Proof. eexists. vm_compute. reflexivity. Qed.

Lemma demo_well_behaved : well_behaved 4096 demo_client.
Proof.
  intros tr h op Ha Hc. unfold demo_client in Hc.
  repeat (case_match; simplify_eq/=); try done; try lia;
    repeat (case_decide || case_match; simplify_eq/=); try done; try (by eexists; apply lookup_insert_eq).
  exists z, 10. split; [apply lookup_insert_eq|lia].
Qed.

Lemma umalloc_refines_witness :
  wp (run_client 64 demo_grant demo_client 9 []) (fun tr s' => exists h, accepts 4096 (AHeap ∅ ∅) tr = Some h /\ heap_abs 64 4096 h s') demo_ust.
Proof.
  apply (umalloc_refines 64 4096 demo_grant ltac:(lia) ltac:(intros b n H; unfold demo_grant in H; lia)).
  - exact demo_well_behaved.
  - reflexivity.
  - vm_compute. split; [discriminate|reflexivity].
Defined.

(** The size is computed modulo 2^32: the last size of all gets a block without
    a byte. *)
Lemma malloc_wraps : exists r s, malloc 64 demo_grant 4294967295 demo_ust = Ok r s /\ r <> 0 /\ load32 (um s) (r - 4) = 1.
Proof. do 2 eexists. split; [vm_compute; reflexivity|]. vm_compute. done. Qed.

(** Two gigabytes are a negative number of bytes for [sbrk], which grants them
    without growing the process: the block reaches beyond its memory. *)
Lemma malloc_beyond : exists r s, malloc 64 demo_grant 2147483648 demo_ust = Ok r s /\ r <> 0 /\ ubrk s = ubrk demo_ust /\ ubrk s < r.
Proof. do 2 eexists. split; [vm_compute; reflexivity|]. vm_compute. done. Qed.
