(* ===== verification/Grep.v ===== *)
(** * The pattern matcher of grep (grep.c)

    Patterns and lines are the bytes of the C strings without their NUL.
    [match_], [matchhere] and [matchstar] follow the code; [matches] is a
    declarative meaning of patterns that the code is shown to decide.  The
    line loop of [grep] reads into a buffer of 1024 bytes. *)

From S2P Require Import Prelude Params.

Module Grep.
Definition CARET : Z := 94.
Definition DOLLAR : Z := 36.
Definition DOT : Z := 46.
Definition STAR : Z := 42.
Definition NL : Z := 10.

(** ** The matcher *)

(** The loop of [matchstar], with [here] the call of [matchhere] on the rest
    of the pattern. *)
Fixpoint matchstar (here : list Z -> bool) (c : Z) (text : list Z) : bool :=
  if here text then true
  else match text with
       | [] => false
       | t :: text' => if (t =? c) || (c =? DOT) then matchstar here c text' else false
       end.

Fixpoint matchhere (re : list Z) (text : list Z) : bool :=
  match re with
  | [] => true
  | c :: re' =>
      match re' with
      | s :: re'' =>
          if s =? STAR then matchstar (matchhere re'') c text
          else match text with
               | t :: text' => if (c =? DOT) || (c =? t) then matchhere re' text' else false
               | [] => false
               end
      | [] =>
          if c =? DOLLAR then bool_decide (text = [])
          else match text with
               | t :: text' => if (c =? DOT) || (c =? t) then matchhere re' text' else false
               | [] => false
               end
      end
  end.

(** The [do ... while] of [match]: also the empty rest is tried. *)
Fixpoint match_any (re text : list Z) : bool :=
  if matchhere re text then true
  else match text with [] => false | _ :: text' => match_any re text' end.
Definition match_ (re text : list Z) : bool :=
  match re with
  | c :: re' => if c =? CARET then matchhere re' text else match_any re text
  | [] => match_any re text
  end.

(** ** grep *)

(** [strchr(p, '\n')] on a string that ends at its first NUL or with the
    list. *)
Fixpoint strchr_nl (p : list Z) : option nat :=
  match p with
  | [] => None
  | c :: p => if c =? 0 then None else if c =? NL then Some O else S <$> strchr_nl p
  end.

(** [while((q = strchr(p, '\n')) != 0)]: the output and the text behind the
    last newline. *)
Fixpoint scan_lines (fuel : nat) (pattern p : list Z) : list Z * list Z :=
  match fuel with
  | O => ([], p)
  | S fuel =>
      match strchr_nl p with
      | None => ([], p)
      | Some k =>
          let line := take k p in
          let (out, rest) := scan_lines fuel pattern (drop (S k) p) in
          ((if match_ pattern line then line ++ [NL] else []) ++ out, rest)
      end
  end.

(** The first [m] bytes of the buffer are [buf]; [input] is what the file
    still has, and [avail] says how many bytes each [read] finds.  A [read]
    that finds nothing ends the loop. *)
Fixpoint grep (pattern : list Z) (avail : list nat) (input buf : list Z) : list Z :=
  match avail with
  | [] => []
  | k :: avail =>
      let n := Nat.min k (1024 - length buf - 1) in
      let got := take n input in
      if bool_decide (got = []) then []
      else
        let text := buf ++ got in
        let (out, p) := scan_lines (S (length text)) pattern text in
        let buf' := if bool_decide (length p = length text) then [] else p in
        out ++ grep pattern avail (drop n input) buf'
  end.

(** ** The meaning of a pattern *)

(** A pattern is a sequence of items: one character of a class, or any number
    of them. *)
Inductive item := One (c : Z) | Many (c : Z).
Definition fits (c t : Z) : Prop := c = DOT \/ c = t.
Definition item_word (i : item) (w : list Z) : Prop :=
  match i with
  | One c => exists t, w = [t] /\ fits c t
  | Many c => Forall (fits c) w
  end.

(** The items of a pattern without its leading [^], and whether it ends in
    [$]. *)
Fixpoint items (re : list Z) : list item * bool :=
  match re with
  | [] => ([], false)
  | c :: re' =>
      match re' with
      | s :: re'' =>
          if s =? STAR then let (l, e) := items re'' in (Many c :: l, e)
          else let (l, e) := items re' in (One c :: l, e)
      | [] => if c =? DOLLAR then ([], true) else ([One c], false)
      end
  end.

(** A prefix of [text], all of it for a pattern that ends in [$], is made of
    words for the items. *)
Definition begins (re text : list Z) : Prop := exists ws rest,
  text = concat ws ++ rest /\ Forall2 item_word (items re).1 ws /\ ((items re).2 = true -> rest = []).

(** A pattern that starts with [^] matches at the beginning, another one
    anywhere. *)
Definition matches (re text : list Z) : Prop :=
  match re with
  | c :: re' => if c =? CARET then begins re' text else exists pre suf, text = pre ++ suf /\ begins re suf
  | [] => exists pre suf, text = pre ++ suf /\ begins re suf
  end.

(** ** The lines of a text *)

(** The complete lines, without their newline, and what follows the last
    one. *)
Fixpoint lines (p : list Z) : list (list Z) * list Z :=
  match p with
  | [] => ([], [])
  | c :: p =>
      let (ls, r) := lines p in
      if c =? NL then ([] :: ls, r)
      else match ls with [] => ([], c :: r) | l :: ls => ((c :: l) :: ls, r) end
  end.
Definition printed (pattern line : list Z) : list Z := if match_ pattern line then line ++ [NL] else [].
Definition selected (pattern text : list Z) : list Z := concat (printed pattern <$> (lines text).1).

(** Every read brings a newline, no NUL, and fits into the buffer behind the
    unfinished line. *)
Fixpoint fed (chunks : list (list Z)) (buf : list Z) : Prop :=
  match chunks with
  | [] => True
  | c :: chunks => NL ∈ c /\ 0 ∉ c /\ (length buf + length c <= 1023)%nat /\ fed chunks (lines (buf ++ c)).2
  end.

(** ** Proofs *)

Lemma matchstar_spec here c text :
  matchstar here c text = true <-> exists u v, text = u ++ v /\ Forall (fits c) u /\ here v = true.
Proof.
  induction text as [|t text IH]; simpl; destruct (here _) eqn:E.
  - split; [|done]. intros _. by exists [], [].
  - split; [done|]. intros (u & v & Huv & _ & Hv). symmetry in Huv. apply app_nil in Huv as [-> ->]. congruence.
  - split; [|done]. intros _. by exists [], (t :: text).
  - destruct ((t =? c) || (c =? DOT)) eqn:Ef.
    + rewrite IH. split.
      * intros (u & v & -> & Hu & Hv). exists (t :: u), v. split; [done|]. split; [|done]. constructor; [|done].
        unfold fits. lia.
      * intros (u & v & Huv & Hu & Hv). destruct u as [|t' u]; [simpl in Huv; congruence|].
        injection Huv as <- ->. exists u, v. split; [done|]. split; [by inversion Hu|done].
    + split; [done|]. intros (u & v & Huv & Hu & Hv). destruct u as [|t' u]; [simpl in Huv; congruence|].
      injection Huv as <- ->. inversion Hu as [|? ? Hf]. unfold fits in Hf. lia.
Qed.

Lemma begins_nil text : begins [] text.
Proof. exists [], text. split; [done|]. split; [constructor|done]. Qed.

Lemma begins_star c re text : begins (c :: STAR :: re) text <->
  exists u v, text = u ++ v /\ Forall (fits c) u /\ begins re v.
Proof.
  unfold begins. cbn [items]. change (STAR =? STAR) with true. destruct (items re) as [l e]. cbv iota. simpl. split.
  - intros (ws & rest & -> & Hws & He). inversion Hws as [|? u ? ws' Hu Hws']; subst. simpl.
    exists u, (concat ws' ++ rest). rewrite app_assoc. split; [done|]. split; [done|]. by exists ws', rest.
  - intros (u & v & -> & Hu & ws & rest & -> & Hws & He). exists (u :: ws), rest. simpl. rewrite app_assoc.
    split; [done|]. split; [by constructor|done].
Qed.

Lemma begins_one c re text : head re <> Some STAR -> ~ (c = DOLLAR /\ re = []) -> begins (c :: re) text <->
  exists t text', text = t :: text' /\ fits c t /\ begins re text'.
Proof.
  intros Hs Hd. unfold begins.
  assert (E : items (c :: re) = (One c :: (items re).1, (items re).2)).
  { cbn [items]. destruct re as [|s re].
    - destruct (Z.eqb_spec c DOLLAR); [tauto|done].
    - destruct (Z.eqb_spec s STAR) as [->|]; [done|]. by destruct (items (s :: re)). }
  rewrite E. simpl. split.
  - intros (ws & rest & -> & Hws & He). inversion Hws as [|? u ? ws' Hu Hws']; subst. destruct Hu as (t & -> & Hf). simpl.
    exists t, (concat ws' ++ rest). split; [done|]. split; [done|]. by exists ws', rest.
  - intros (t & text' & -> & Hf & ws & rest & -> & Hws & He). exists ([t] :: ws), rest. simpl.
    split; [done|]. split; [constructor; [by exists t|done]|done].
Qed.

Lemma begins_end text : begins [DOLLAR] text <-> text = [].
Proof.
  unfold begins. simpl. split.
  - intros (ws & rest & -> & Hws & He). inversion Hws; subst. simpl. by apply He.
  - intros ->. exists [], []. split; [done|]. split; [constructor|done].
Qed.

Lemma matchhere_spec n : forall re text, (length re <= n)%nat -> matchhere re text = true <-> begins re text.
Proof.
  induction n as [|n IH]; intros [|c re] text Hl; simpl in Hl; try lia; try (by split; intros; [apply begins_nil|]).
  assert (Hone : head re <> Some STAR -> ~ (c = DOLLAR /\ re = []) ->
    match text with t :: text' => if (c =? DOT) || (c =? t) then matchhere re text' else false | [] => false end = true
    <-> begins (c :: re) text).
  { intros Hs Hd. rewrite begins_one by done. destruct text as [|t text].
    - split; [done|]. intros (? & ? & ? & _). done.
    - destruct ((c =? DOT) || (c =? t)) eqn:Ef.
      + rewrite IH by lia. split.
        * intros Hb. exists t, text. split; [done|]. split; [unfold fits; lia|done].
        * by intros (? & ? & [= <- <-] & _ & Hb).
      + split; [done|]. intros (? & ? & [= <- <-] & Hf & _). unfold fits in Hf. lia. }
  cbn [matchhere]. destruct re as [|s re].
  - destruct (Z.eqb_spec c DOLLAR) as [->|Hc]; [rewrite begins_end; apply bool_decide_eq_true|apply Hone; [done|tauto]].
  - destruct (Z.eqb_spec s STAR) as [->|Hs]; [|apply Hone; [simpl; congruence|by intros [_ ?]]].
    rewrite matchstar_spec, begins_star. simpl in Hl.
    by setoid_rewrite (IH re); [|lia].
Qed.

Lemma match_any_spec re text : match_any re text = true <-> exists pre suf, text = pre ++ suf /\ begins re suf.
Proof.
  induction text as [|t text IH]; simpl; destruct (matchhere re _) eqn:E.
  1,3: split; [intros _|done]; eexists [], _; split; [done|]; by apply (matchhere_spec (length re)).
  - split; [done|]. intros (pre & suf & Hp & Hb). symmetry in Hp. apply app_nil in Hp as [-> ->].
    apply (matchhere_spec (length re)) in Hb; [congruence|done].
  - rewrite IH. split.
    + intros (pre & suf & -> & Hb). by exists (t :: pre), suf.
    + intros (pre & suf & Hp & Hb). destruct pre as [|t' pre]; simpl in Hp.
      * subst suf. apply (matchhere_spec (length re)) in Hb; [congruence|done].
      * injection Hp as <- ->. by exists pre, suf.
Qed.

(** C20 [match] decides the meaning of patterns: it returns 1 exactly for the
    lines that contain, or with [^] begin with, a text made of the pattern's
    items, up to the end of the line when the pattern ends in [$].  The
    matcher always returns. *)
Theorem match_decides re text : match_ re text = true <-> matches re text.
Proof.
  unfold match_, matches. destruct re as [|c re]; [apply match_any_spec|].
  destruct (c =? CARET); [by apply (matchhere_spec (length re))|apply match_any_spec].
Qed.

Lemma lines_app a b : lines (a ++ b) =
  ((lines a).1 ++ (lines ((lines a).2 ++ b)).1, (lines ((lines a).2 ++ b)).2).
Proof.
  induction a as [|c a IH]; simpl; [by destruct (lines b)|]. rewrite IH.
  destruct (lines a) as [[|l ls] r]; simpl; destruct (c =? NL) eqn:E; simpl; try done.
  rewrite E. by destruct (lines (r ++ b)) as [[|? ?] ?].
Qed.

Lemma lines_none p : NL ∉ p -> lines p = ([], p).
Proof.
  induction p as [|c p IH]; [done|]. intros [Hc Hp]%not_elem_of_cons. simpl. rewrite IH by done.
  by rewrite (proj2 (Z.eqb_neq c NL)).
Qed.

Lemma lines_cut l rest : NL ∉ l -> lines (l ++ NL :: rest) = (l :: (lines rest).1, (lines rest).2).
Proof.
  intros Hl. rewrite lines_app, lines_none by done. simpl.
  induction l as [|c l IH]; simpl; [by destruct (lines rest)|]. apply not_elem_of_cons in Hl as [Hc Hl].
  specialize (IH Hl). destruct (lines (l ++ NL :: rest)) as [ls r]. simpl in IH. injection IH as -> ->.
  by rewrite (proj2 (Z.eqb_neq c NL)).
Qed.

Lemma lines_rest p : NL ∉ (lines p).2 /\ (0 ∉ p -> 0 ∉ (lines p).2) /\ (length (lines p).2 <= length p)%nat.
Proof.
  induction p as [|c p (IH1 & IH2 & IH3)]; simpl; [split_and!; auto using not_elem_of_nil|].
  rewrite not_elem_of_cons. destruct (lines p) as [ls r]. simpl in *.
  destruct (Z.eqb_spec c NL); simpl; [split_and!; [done|tauto|lia]|].
  destruct ls; simpl; rewrite ?not_elem_of_cons; split_and!; try tauto; lia.
Qed.

Lemma lines_has_nl p : NL ∈ p -> (length (lines p).2 < length p)%nat.
Proof.
  induction p as [|c p IH]; [by intros ?%elem_of_nil|]. intros Hin. pose proof (lines_rest p) as (_ & _ & Hle). simpl.
  destruct (lines p) as [ls r] eqn:E. simpl in *. destruct (Z.eqb_spec c NL); simpl; [lia|].
  apply elem_of_cons in Hin as [?|Hin]; [congruence|]. specialize (IH Hin). destruct ls; simpl; lia.
Qed.

Lemma strchr_nl_spec p : 0 ∉ p ->
  match strchr_nl p with
  | None => NL ∉ p
  | Some k => exists rest, p = take k p ++ NL :: rest /\ NL ∉ take k p /\ drop (S k) p = rest
  end.
Proof.
  induction p as [|c p IH]; simpl; [intros _; apply not_elem_of_nil|]. intros [Hc Hp]%not_elem_of_cons.
  rewrite (proj2 (Z.eqb_neq c 0)) by done. destruct (Z.eqb_spec c NL) as [->|Hn].
  { exists p. split; [done|]. split; [apply not_elem_of_nil|done]. }
  specialize (IH Hp). destruct (strchr_nl p) as [k|]; simpl.
  - destruct IH as (rest & E & Hk & Hd). exists rest. split; [by rewrite <- E|]. split; [|done].
    apply not_elem_of_cons. done.
  - by apply not_elem_of_cons.
Qed.

Lemma scan_lines_spec fuel pattern : forall p, 0 ∉ p -> (length p < fuel)%nat ->
  scan_lines fuel pattern p = (selected pattern p, (lines p).2).
Proof.
  unfold selected. induction fuel as [|fuel IH]; intros p H0 Hf; [lia|]. cbn [scan_lines].
  pose proof (strchr_nl_spec p H0) as Hs. destruct (strchr_nl p) as [k|]; [|by rewrite lines_none].
  destruct Hs as (rest & E & Hk & Hd). rewrite Hd.
  assert (Hl : length p = (length (take k p) + S (length rest))%nat) by (rewrite E at 1; rewrite length_app; done).
  rewrite IH; [| |lia].
  - rewrite E at 3 4. by rewrite lines_cut.
  - intros Hr. apply H0. rewrite E. apply elem_of_app. right. by apply elem_of_cons; right.
Qed.

(** [grep] prints exactly the lines that match, in order, whatever the
    reads return, as long as each read brings a newline and fits into the
    buffer. *)
Theorem grep_prints pattern chunks : forall buf, NL ∉ buf -> 0 ∉ buf -> fed chunks buf ->
  grep pattern (length <$> chunks) (concat chunks) buf = selected pattern (buf ++ concat chunks).
Proof.
  induction chunks as [|c chunks IH]; intros buf Hb H0 Hfed; cbn [fmap list_fmap concat grep].
  { unfold selected. by rewrite app_nil_r, lines_none. }
  destruct Hfed as (Hnl & Hc0 & Hlen & Hfed).
  replace (Nat.min (length c) (1024 - length buf - 1)) with (length c) by lia.
  rewrite take_app_length, drop_app_length. rewrite bool_decide_false by (intros ->; by apply elem_of_nil in Hnl).
  assert (H0' : 0 ∉ buf ++ c) by (rewrite elem_of_app; tauto).
  cbv zeta. rewrite scan_lines_spec by (done || lia).
  pose proof (lines_rest (buf ++ c)) as (H1 & H2 & _). rewrite bool_decide_false.
  - rewrite IH by auto. unfold selected. rewrite app_assoc, (lines_app (buf ++ c)). simpl.
    by rewrite fmap_app, concat_app.
  - apply Nat.lt_neq, lines_has_nl, elem_of_app. by right.
Qed.

Lemma grep_prints_witness :
  grep [97] [3; 2]%nat [97; 98; 10; 99; 10] [] = [97; 98; 10].
Proof.
  apply (grep_prints [97] [[97; 98; 10]; [99; 10]] []).
  - apply not_elem_of_nil.
  - apply not_elem_of_nil.
  - simpl. split_and!; try (by apply (bool_decide_unpack _); vm_compute); try lia; done.
Defined.

(** A read without a newline loses text: when the writer of a pipe is caught
    in the middle of a line, [grep] forgets the first part, and a line that
    matches is not printed. *)
Theorem grep_loses : exists pattern avail input, sum_list avail = length input /\
  grep pattern avail input [] <> selected pattern input.
Proof. by exists [97; 98; 99], [2; 2]%nat, [97; 98; 99; 10]. Qed.
End Grep.
