(* ===== verification/Sh.v ===== *)
(** * The shell's parser (sh.c)

    The command line is a buffer of bytes; pointers into it are offsets, and
    [*ps] is the state of the parser.  The shell's [panic] prints a message
    and exits.  Commands are trees over the representation [T] of their
    strings: a pair of offsets while parsing ([argv], [eargv]), the bytes
    afterwards. *)

From S2P Require Import Prelude Params.

Module Sh.

(** [struct execcmd], [redircmd], [pipecmd], [listcmd], [backcmd]. *)
Inductive cmd (T : Type) : Type :=
| EXEC (argv : list T)
| REDIR (c : cmd T) (file : T) (mode fd : Z)
| PIPE (left right : cmd T)
| LIST (left right : cmd T)
| BACK (c : cmd T).
Arguments EXEC {T} argv.
Arguments REDIR {T} c file mode fd.
Arguments PIPE {T} left right.
Arguments LIST {T} left right.
Arguments BACK {T} c.

Definition MAXARGS : nat := 10.

(** The characters of the grammar. *)
Definition whitespace : list Z := [32; 9; 13; 10; 11].
Definition symbols : list Z := [60; 124; 62; 38; 59; 40; 41].
Definition LT : Z := 60.
Definition BAR : Z := 124.
Definition GT : Z := 62.
Definition AMP : Z := 38.
Definition SEMI : Z := 59.
Definition LPAR : Z := 40.
Definition RPAR : Z := 41.
Definition PLUS : Z := 43.
Definition WORD : Z := 97.

(** [strchr(l, c)] as a truth value. *)
Definition strchr (l : list Z) (c : Z) : bool := existsb (Z.eqb c) l.
Definition word_char (c : Z) : bool := negb (strchr whitespace c) && negb (strchr symbols c).

(** How many bytes at the front of [l] satisfy [p]. *)
Fixpoint run (p : Z -> bool) (l : list Z) : nat :=
  match l with
  | [] => O
  | c :: l => if p c then S (run p l) else O
  end.

(** A string token: its first offset and the one behind its last. *)
Definition tok : Type := nat * nat.

Section parser.
Context (buf : list Z).

(** [*s]; the NUL is behind the buffer. *)
Definition byte_at (s : nat) : Z := default 0 (buf !! s).
Definition skip (p : Z -> bool) (s : nat) : nat := (s + run p (drop s buf))%nat.

(** The token from [s] on: the result of [gettoken], [*q] and [*eq]. *)
Definition token (s : nat) : Z * tok :=
  let q := skip (strchr whitespace) s in
  let c := byte_at q in
  if c =? 0 then (0, (q, q))
  else if (c =? BAR) || (c =? LPAR) || (c =? RPAR) || (c =? SEMI) || (c =? AMP) || (c =? LT) then (c, (q, S q))
  else if c =? GT then
    if byte_at (S q) =? GT then (PLUS, (q, S (S q))) else (GT, (q, S q))
  else (WORD, (q, skip word_char q)).
Definition gettoken : M nat (Z * tok) :=
  s ← get;
  let t := token s in
  modify (fun _ => skip (strchr whitespace) t.2.2) ;;
  mret t.

Definition peek (toks : list Z) : M nat bool :=
  s ← get;
  let s := skip (strchr whitespace) s in
  modify (fun _ => s) ;;
  mret (negb (byte_at s =? 0) && strchr toks (byte_at s)).

Definition redir_mode (t : Z) : Z * Z :=
  if t =? LT then (O_RDONLY, 0) else (Z.lor O_WRONLY O_CREATE, 1).

Fixpoint parseredirs (fuel : nat) (c : cmd tok) : M nat (cmd tok) :=
  match fuel with
  | O => blocked
  | S fuel =>
      b ← peek [LT; GT];
      if (b : bool) then
        '(t, _) ← gettoken;
        '(t', file) ← gettoken;
        if negb (t' =? WORD) then panic "missing file for redirection"
        else parseredirs fuel (REDIR c file (redir_mode t).1 (redir_mode t).2)
      else mret c
  end.

(** [cmd->argv[argc] = q] in the [execcmd] that the redirections in [ret]
    enclose. *)
Fixpoint add_arg {T} (a : T) (ret : cmd T) : cmd T :=
  match ret with
  | EXEC argv => EXEC (argv ++ [a])
  | REDIR c file mode fd => REDIR (add_arg a c) file mode fd
  | c => c
  end.

Fixpoint parseargs (fuel argc : nat) (ret : cmd tok) : M nat (cmd tok) :=
  match fuel with
  | O => blocked
  | S fuel =>
      b ← peek [BAR; RPAR; AMP; SEMI];
      if (b : bool) then mret ret
      else
        '(t, a) ← gettoken;
        if t =? 0 then mret ret
        else if negb (t =? WORD) then panic "syntax"
        else
          let ret := add_arg a ret in
          let argc := S argc in
          if bool_decide (MAXARGS <= argc)%nat then panic "too many args"
          else ret ← parseredirs (S (length buf)) ret; parseargs fuel argc ret
  end.

Fixpoint parsebacks (fuel : nat) (c : cmd tok) : M nat (cmd tok) :=
  match fuel with
  | O => blocked
  | S fuel =>
      b ← peek [AMP];
      if (b : bool) then gettoken ;; parsebacks fuel (BACK c) else mret c
  end.

(** The functions below call each other in a circle; it is cut at [parseline],
    which the others get as an argument. *)
Definition parseblock (parseline : M nat (cmd tok)) : M nat (cmd tok) :=
  b ← peek [LPAR];
  if negb b then panic "parseblock"
  else
    gettoken ;;
    c ← parseline;
    b ← peek [RPAR];
    if negb b then panic "syntax - missing )"
    else gettoken ;; parseredirs (S (length buf)) c.

Definition parseexec (parseline : M nat (cmd tok)) : M nat (cmd tok) :=
  b ← peek [LPAR];
  if (b : bool) then parseblock parseline
  else
    ret ← parseredirs (S (length buf)) (EXEC []);
    parseargs (S (length buf)) 0 ret.

Fixpoint parsepipe (parseline : M nat (cmd tok)) (fuel : nat) : M nat (cmd tok) :=
  match fuel with
  | O => blocked
  | S fuel =>
      c ← parseexec parseline;
      b ← peek [BAR];
      if (b : bool) then gettoken ;; r ← parsepipe parseline fuel; mret (PIPE c r) else mret c
  end.

Fixpoint parseline (fuel : nat) : M nat (cmd tok) :=
  match fuel with
  | O => blocked
  | S fuel =>
      c ← parsepipe (parseline fuel) (S (length buf));
      c ← parsebacks (S (length buf)) c;
      b ← peek [SEMI];
      if (b : bool) then gettoken ;; r ← parseline fuel; mret (LIST c r) else mret c
  end.
End parser.

(** [nulterminate] stores a NUL behind every string. *)
Fixpoint nulterminate (c : cmd tok) (buf : list Z) : list Z :=
  match c with
  | EXEC argv => foldl (fun b a => <[a.2 := 0]> b) buf argv
  | REDIR c file _ _ => <[file.2 := 0]> (nulterminate c buf)
  | PIPE l r | LIST l r => nulterminate r (nulterminate l buf)
  | BACK c => nulterminate c buf
  end.

(** [parsecmd]: the tree and the buffer, with its NUL, after [nulterminate]. *)
Definition parsecmd (s : list Z) : M nat (cmd tok * list Z) :=
  c ← parseline s (S (length s));
  peek s [] ;;
  pos ← get;
  if negb (bool_decide (pos = length s)) then panic "syntax"
  else mret (c, nulterminate c (s ++ [0])).

(** ** What the strings of a tree are *)

Fixpoint cmd_map {T U} (f : T -> U) (c : cmd T) : cmd U :=
  match c with
  | EXEC argv => EXEC (f <$> argv)
  | REDIR c file mode fd => REDIR (cmd_map f c) (f file) mode fd
  | PIPE l r => PIPE (cmd_map f l) (cmd_map f r)
  | LIST l r => LIST (cmd_map f l) (cmd_map f r)
  | BACK c => BACK (cmd_map f c)
  end.
Fixpoint strings {T} (c : cmd T) : list T :=
  match c with
  | EXEC argv => argv
  | REDIR c file _ _ => strings c ++ [file]
  | PIPE l r | LIST l r => strings l ++ strings r
  | BACK c => strings c
  end.

(** The text of a token, and the C string that starts at it. *)
Definition text (buf : list Z) (t : tok) : list Z := take (t.2 - t.1) (drop t.1 buf).
Definition cstring (buf : list Z) (t : tok) : list Z := take (run (fun c => negb (c =? 0)) (drop t.1 buf)) (drop t.1 buf).

(** ** Scanning *)

Lemma run_le p l : (run p l <= length l)%nat.
Proof. induction l as [|c l IH]; simpl; [lia|]. destruct (p c); lia. Qed.
Lemma run_in p l i : (i < run p l)%nat -> exists c, l !! i = Some c /\ p c = true.
Proof.
  revert i. induction l as [|c l IH]; intros i Hi; simpl in *; [lia|]. destruct (p c) eqn:E; [|lia].
  destruct i as [|i]; [by exists c|]. apply IH. lia.
Qed.
Lemma run_end p l c : l !! run p l = Some c -> p c = false.
Proof.
  induction l as [|c' l IH]; simpl; [done|]. destruct (p c') eqn:E; [done|]. by intros [= <-].
Qed.
Lemma run_app p a b : Forall (fun c => p c = true) a -> (forall c, head b = Some c -> p c = false) ->
  run p (a ++ b) = length a.
Proof.
  induction 1 as [|c a Hc Ha IH]; intros Hb; simpl.
  - destruct b as [|c b]; simpl; [done|]. by rewrite (Hb c).
  - by rewrite Hc, IH.
Qed.

Section scan.
Context (buf : list Z).
Hypothesis Hnul : 0 ∉ buf.
Notation es := (length buf).
Notation byte_at := (byte_at buf).
Notation skip := (skip buf).

(** A string of the line: the longest run of word characters from an offset. *)
Record tok_ok (t : tok) : Prop := {
  tk_lt : (t.1 < t.2 <= es)%nat;
  tk_in : forall i, (t.1 <= i < t.2)%nat -> exists c, buf !! i = Some c /\ word_char c = true;
  tk_end : forall c, buf !! t.2 = Some c -> word_char c = false }.

Lemma byte_at_zero s : byte_at s = 0 -> (es <= s)%nat.
Proof.
  unfold byte_at. intros H. destruct (buf !! s) as [c|] eqn:E; [|by apply lookup_ge_None].
  simpl in H. subst c. apply list_elem_of_lookup_2 in E. done.
Qed.
Lemma byte_at_some s : byte_at s <> 0 -> buf !! s = Some (byte_at s).
Proof. unfold byte_at. by destruct (buf !! s). Qed.

Lemma skip_bounds p s : (s <= es)%nat -> (s <= skip p s <= es)%nat.
Proof. intros Hs. unfold skip. pose proof (run_le p (drop s buf)). rewrite length_drop in *. lia. Qed.
Lemma skip_end p s c : buf !! skip p s = Some c -> p c = false.
Proof. unfold skip. rewrite <- lookup_drop. apply run_end. Qed.
Lemma skip_in p s i : (s <= i < skip p s)%nat -> exists c, buf !! i = Some c /\ p c = true.
Proof.
  unfold skip. intros Hi. destruct (run_in p (drop s buf) (i - s)) as (c & Hc & Hp); [lia|].
  rewrite lookup_drop in Hc. replace (s + (i - s))%nat with i in Hc by lia. eauto.
Qed.

(** The token at [s] lies behind [s]; it is empty only at the end of the
    line, and a word is a string. *)
Lemma token_spec s : (s <= es)%nat -> let q := skip (strchr whitespace) s in let t := token buf s in
  (q <= t.2.2 <= es)%nat /\ (q < es -> q < t.2.2)%nat /\ (t.1 = WORD -> tok_ok t.2) /\ (t.1 = 0 -> q = es) /\ t.2.1 = q.
Proof.
  intros Hs q t. assert (Hq : (s <= q <= es)%nat) by (by apply skip_bounds). unfold t, token. fold q. cbv zeta.
  destruct (Z.eqb_spec (byte_at q) 0) as [E|E]; [apply byte_at_zero in E; simpl; split_and!; (lia || done)|].
  assert (Hc := byte_at_some _ E). assert (Hqlt : (q < es)%nat) by (by eapply lookup_lt_Some).
  destruct (_ || _) eqn:Eb; [simpl; unfold BAR, LPAR, RPAR, SEMI, AMP, LT, WORD in *; split_and!; lia|].
  destruct (Z.eqb_spec (byte_at q) GT) as [Eg|Eg].
  { destruct (Z.eqb_spec (byte_at (S q)) GT) as [Eg2|Eg2]; [|simpl; split_and!; (lia || done)].
    assert (Hc2 : buf !! S q = Some (byte_at (S q))) by (apply byte_at_some; by rewrite Eg2).
    apply lookup_lt_Some in Hc2. simpl; split_and!; (lia || done). }
  assert (Hw : word_char (byte_at q) = true).
  { unfold word_char. rewrite (skip_end _ _ _ Hc). simpl.
    unfold strchr, symbols, BAR, LPAR, RPAR, SEMI, AMP, LT, GT in *. simpl. lia. }
  assert (Hpos : (q < skip word_char q)%nat).
  { unfold skip. erewrite (drop_S buf) by done. simpl. rewrite Hw. lia. }
  pose proof (skip_bounds word_char q ltac:(lia)). simpl. split_and!; [lia|lia|lia| |done|done].
  intros _. split; [simpl; lia|intros i; apply (skip_in word_char q)|intros c; apply (skip_end word_char q)].
Qed.

Lemma gettoken_halts s : (s <= es)%nat ->
  halts (gettoken buf) (fun r s' => (s <= s' <= es)%nat /\ (skip (strchr whitespace) s < es -> s < s')%nat /\
    (r.1 = WORD -> tok_ok r.2)) s.
Proof.
  intros Hs. destruct (token_spec s Hs) as (H1 & H2 & H3 & _ & _). pose proof (skip_bounds (strchr whitespace) s Hs).
  pose proof (skip_bounds (strchr whitespace) (token buf s).2.2 ltac:(lia)).
  unfold halts, gettoken. simpl. split; [lia|]. split; [lia|done].
Qed.

(** A word is never empty. *)
Lemma gettoken_word s : (s <= es)%nat ->
  halts (gettoken buf) (fun r s' => (s <= s' <= es)%nat /\ (r.1 = WORD -> tok_ok r.2 /\ (s < s')%nat)) s.
Proof.
  intros Hs. destruct (token_spec s Hs) as (H1 & H2 & H3 & _ & H4). pose proof (skip_bounds (strchr whitespace) s Hs).
  pose proof (skip_bounds (strchr whitespace) (token buf s).2.2 ltac:(lia)).
  unfold halts, gettoken. simpl. split; [lia|]. intros E. specialize (H3 E). split; [done|].
  destruct (tk_lt _ H3). lia.
Qed.

Lemma peek_halts toks s : (s <= es)%nat ->
  halts (peek buf toks) (fun b s' => (s <= s' <= es)%nat /\ (b = true -> skip (strchr whitespace) s' < es)%nat) s.
Proof.
  intros Hs. unfold peek. simpl. pose proof (skip_bounds (strchr whitespace) s Hs). split; [done|].
  intros Hb. destruct (Z.eqb_spec (byte_at (skip (strchr whitespace) s)) 0) as [|E]; [done|].
  assert (Hc := byte_at_some _ E). assert (Hlt := lookup_lt_Some _ _ _ Hc). rename Hc into Hc0.
  assert (E0 : skip (strchr whitespace) (skip (strchr whitespace) s) = skip (strchr whitespace) s); [|by rewrite E0].
  unfold skip at 1. erewrite drop_S by done. cbn [run]. rewrite (skip_end _ _ _ Hc0). lia.
Qed.

(** The loops of the parser end, and add only tokens. *)
Notation toks_ok c := (Forall tok_ok (strings c)).

Lemma parseredirs_halts fuel : forall s c, (s <= es)%nat -> (es - s < fuel)%nat -> toks_ok c ->
  halts (parseredirs buf fuel c) (fun c' s' => (s <= s' <= es)%nat /\ toks_ok c') s.
Proof.
  induction fuel as [|fuel IH]; intros s c Hs Hf Hc; [lia|]. cbn [parseredirs].
  eapply halts_seq; [by apply peek_halts|]. intros b s1 (H1 & Hb). destruct b; [|by apply halts_ret].
  eapply halts_seq; [apply gettoken_halts; lia|]. intros [t u] s2 (H2 & Hlt & _).
  eapply halts_seq; [apply gettoken_halts; lia|]. intros [t' file] s3 (H3 & _ & Hw). simpl in Hw.
  specialize (Hb eq_refl). specialize (Hlt Hb).
  destruct (Z.eqb_spec t' WORD) as [->|]; [|apply halts_panic]. simpl negb. cbv iota.
  eapply halts_mono; [apply IH; [lia|lia|]|].
  - simpl. apply Forall_app. split; [done|]. constructor; [by apply Hw|constructor].
  - intros c' s' [? ?]. split; [lia|done].
Qed.

Lemma strings_add_arg a c : toks_ok c -> tok_ok a -> toks_ok (add_arg a c).
Proof.
  intros Hc Ha. induction c; simpl in *; try done; apply Forall_app in Hc || idtac.
  - apply Forall_app. split; [done|]. by constructor.
  - apply Forall_app. destruct Hc. split; [by apply IHc|done].
Qed.

Lemma parseargs_halts fuel : forall s argc c, (s <= es)%nat -> (es - s < fuel)%nat -> toks_ok c ->
  halts (parseargs buf fuel argc c) (fun c' s' => (s <= s' <= es)%nat /\ toks_ok c') s.
Proof.
  induction fuel as [|fuel IH]; intros s argc c Hs Hf Hc; [lia|]. cbn [parseargs].
  eapply halts_seq; [by apply peek_halts|]. intros b s1 (H1 & _). destruct b; [by apply halts_ret|].
  eapply halts_seq; [apply (gettoken_word s1); lia|]. intros [t a] s2 (H2 & Hw). simpl in Hw.
  destruct (Z.eqb_spec t 0) as [->|Ht]; [apply halts_ret; split; [lia|done]|].
  destruct (Z.eqb_spec t WORD) as [->|]; [|apply halts_panic]. simpl negb. cbv iota zeta.
  destruct (Hw eq_refl) as [Ha Hlt].
  case_bool_decide; [apply halts_panic|].
  eapply halts_seq; [apply parseredirs_halts; [lia|lia|by apply strings_add_arg]|]. intros c3 s3 [H3 Hc3].
  eapply halts_mono; [apply IH; [lia|lia|done]|]. intros c' s' [? ?]. split; [lia|done].
Qed.

Lemma parsebacks_halts fuel : forall s c, (s <= es)%nat -> (es - s < fuel)%nat -> toks_ok c ->
  halts (parsebacks buf fuel c) (fun c' s' => (s <= s' <= es)%nat /\ toks_ok c') s.
Proof.
  induction fuel as [|fuel IH]; intros s c Hs Hf Hc; [lia|]. cbn [parsebacks].
  eapply halts_seq; [by apply peek_halts|]. intros b s1 (H1 & Hb). destruct b; [|by apply halts_ret].
  eapply halts_seq; [apply gettoken_halts; lia|]. intros t s2 (H2 & Hlt & _). specialize (Hlt (Hb eq_refl)).
  eapply halts_mono; [apply IH; [lia|lia|done]|]. intros c' s' [? ?]. split; [lia|done].
Qed.

(** The recursive functions: one unit of fuel for every byte of the rest of the
    line.  The inner line of a block begins behind its parenthesis. *)
Definition parses (m : M nat (cmd tok)) (s : nat) : Prop :=
  halts m (fun c s' => (s <= s' <= es)%nat /\ toks_ok c) s.
Definition parses_behind (line : M nat (cmd tok)) (s : nat) : Prop :=
  forall s', (s < s' <= es)%nat -> parses line s'.

Lemma parses_behind_le line s s' : parses_behind line s -> (s <= s')%nat -> parses_behind line s'.
Proof. intros H Hs t Ht. apply H. lia. Qed.

Lemma parseblock_halts line s : (s <= es)%nat -> parses_behind line s -> parses (parseblock buf line) s.
Proof.
  intros Hs Hl. eapply halts_seq; [by apply peek_halts|]. intros b s1 (H1 & Hb). destruct b; [|apply halts_panic].
  eapply halts_seq; [apply gettoken_halts; lia|]. intros t s2 (H2 & Hlt & _). specialize (Hlt (Hb eq_refl)).
  eapply halts_seq; [apply Hl; lia|]. intros c s3 [H3 Hc].
  eapply halts_seq; [apply peek_halts; lia|]. intros b' s4 (H4 & _). destruct b'; [|apply halts_panic].
  eapply halts_seq; [apply gettoken_halts; lia|]. intros t' s5 (H5 & _ & _).
  eapply halts_mono; [apply parseredirs_halts; [lia|lia|done]|]. intros c' s' [? ?]. split; [lia|done].
Qed.

Lemma parseexec_halts line s : (s <= es)%nat -> parses_behind line s -> parses (parseexec buf line) s.
Proof.
  intros Hs Hl. eapply halts_seq; [by apply peek_halts|]. intros b s1 (H1 & Hb). destruct b.
  - eapply halts_mono; [apply parseblock_halts; [lia|eapply parses_behind_le; [done|lia]]|]. intros c s' [? ?]. split; [lia|done].
  - eapply halts_seq; [apply parseredirs_halts; [lia|lia|constructor]|]. intros c s2 [H2 Hc].
    eapply halts_mono; [apply parseargs_halts; [lia|lia|done]|]. intros c' s' [? ?]. split; [lia|done].
Qed.

Lemma parsepipe_halts line fuel : forall s, (s <= es)%nat -> (es - s < fuel)%nat -> parses_behind line s ->
  parses (parsepipe buf line fuel) s.
Proof.
  induction fuel as [|fuel IH]; intros s Hs Hf Hl; [lia|]. cbn [parsepipe].
  eapply halts_seq; [by apply parseexec_halts|]. intros c s1 [H1 Hc].
  eapply halts_seq; [apply peek_halts; lia|]. intros b s3 (H3 & Hb).
  destruct b; [|apply halts_ret; split; [lia|done]].
  eapply halts_seq; [apply gettoken_halts; lia|]. intros t s4 (H4 & Hlt & _). specialize (Hlt (Hb eq_refl)).
  eapply halts_seq; [apply IH; [lia|lia|eapply parses_behind_le; [done|lia]]|].
  intros r s5 [H5 Hr]. apply halts_ret. split; [lia|by apply Forall_app].
Qed.

Lemma parse_halts fuel : forall s, (s <= es)%nat -> (es - s < fuel)%nat -> parses (parseline buf fuel) s.
Proof.
  induction fuel as [|fuel IH]; intros s Hs Hf; [lia|]. cbn [parseline].
  eapply halts_seq; [apply parsepipe_halts; [done|lia|intros s' Hs'; apply IH; lia]|]. intros c s1 [H1 Hc].
  eapply halts_seq; [apply parsebacks_halts; [lia|lia|done]|]. intros c2 s2 [H2 Hc2].
  eapply halts_seq; [apply peek_halts; lia|]. intros b s3 (H3 & Hb).
  destruct b; [|apply halts_ret; split; [lia|done]].
  eapply halts_seq; [apply gettoken_halts; lia|]. intros t s4 (H4 & Hlt & _). specialize (Hlt (Hb eq_refl)).
  eapply halts_seq; [apply IH; lia|]. intros r s5 [H5 Hr]. apply halts_ret. split; [lia|by apply Forall_app].
Qed.

(** After [nulterminate] every token is the C string at its first offset. *)
Lemma cstring_text b t (ends : list nat) : tok_ok t -> t.2 ∈ ends ->
  (forall e, e ∈ ends -> exists u, tok_ok u /\ u.2 = e) ->
  (forall i, (i <= es)%nat -> b !! i = if bool_decide (i ∈ ends) then Some 0 else (buf ++ [0]) !! i) ->
  cstring b t = text buf t.
Proof.
  intros [Hlt Hin Hend] Hmem Hends Hb. destruct t as [q e]. simpl in *.
  assert (Hlook : forall i, (q <= i < e)%nat -> b !! i = buf !! i).
  { intros i Hi. rewrite Hb by lia. rewrite bool_decide_false; [by rewrite lookup_app_l by lia|].
    intros (u & Hu & <-)%Hends. destruct (Hin _ Hi) as (c & Hc & Hw). by rewrite (tk_end _ Hu c Hc) in Hw. }
  assert (He : b !! e = Some 0) by (rewrite Hb by lia; by rewrite bool_decide_true).
  assert (Htake : take (e - q) (drop q b) = take (e - q) (drop q buf)).
  { apply list_eq. intros i. destruct (decide (i < e - q)%nat).
    - rewrite !lookup_take_lt, !lookup_drop by lia. apply Hlook. lia.
    - by rewrite !lookup_take_ge by lia. }
  assert (E : drop q b = text buf (q, e) ++ 0 :: drop (S e) b).
  { unfold text. simpl. rewrite <- Htake, <- (take_drop (e - q) (drop q b)) at 1. f_equal.
    rewrite drop_drop. replace (q + (e - q))%nat with e by lia. by apply drop_S. }
  unfold cstring. simpl. rewrite E, run_app; [apply take_app_length| |by intros c [= <-]].
  apply Forall_forall. intros c (i & Hi)%list_elem_of_lookup. unfold text in Hi. simpl in Hi.
  apply lookup_take_Some in Hi as [Hi _]. rewrite lookup_drop in Hi. apply list_elem_of_lookup_2 in Hi.
  destruct (Z.eqb_spec c 0) as [->|]; done.
Qed.
End scan.

Lemma nul_argv l : forall b i,
  (i ∈ snd <$> l -> (i < length b)%nat -> foldl (fun b (a : tok) => <[a.2 := 0]> b) b l !! i = Some 0) /\
  (i ∉ snd <$> l -> foldl (fun b (a : tok) => <[a.2 := 0]> b) b l !! i = b !! i).
Proof.
  induction l as [|a l IH]; intros b i; cbn [foldl fmap list_fmap]; [split; [by intros ?%elem_of_nil|done]|].
  destruct (IH (<[a.2 := 0]> b) i) as [IH1 IH2]. rewrite length_insert in IH1.
  rewrite not_elem_of_cons, elem_of_cons. split.
  - intros Hi Hl. destruct (decide (i ∈ snd <$> l)); [by apply IH1|]. destruct Hi as [->|]; [|done].
    rewrite IH2 by done. by apply list_lookup_insert_eq.
  - intros [Hne Hi]. rewrite IH2 by done. by apply list_lookup_insert_ne.
Qed.

Lemma length_nulterminate c : forall b, length (nulterminate c b) = length b.
Proof.
  induction c; intros b; simpl; rewrite ?length_insert; auto; [|by rewrite IHc2..].
  revert b. induction argv as [|a argv IH]; intros b; simpl; [done|]. by rewrite IH, length_insert.
Qed.

Lemma nulterminate_lookup c : forall b i,
  (i ∈ snd <$> strings c -> (i < length b)%nat -> nulterminate c b !! i = Some 0) /\
  (i ∉ snd <$> strings c -> nulterminate c b !! i = b !! i).
Proof.
  induction c as [argv|c IH file mode fd|l IHl r IHr|l IHl r IHr|c IH]; intros b i; simpl; [apply nul_argv| | | |apply IH].
  - rewrite fmap_app, elem_of_app. simpl. rewrite list_elem_of_singleton. destruct (IH b i) as [IH1 IH2].
    destruct (decide (i = file.2)) as [->|Hne].
    + split; [|tauto]. intros _ Hl. apply list_lookup_insert_eq. by rewrite length_nulterminate.
    + rewrite list_lookup_insert_ne by done. split; [intros [?|?]; [auto|done]|tauto].
  - rewrite fmap_app, elem_of_app. destruct (IHl b i), (IHr (nulterminate l b) i) as [Hr1 Hr2].
    rewrite length_nulterminate in Hr1. destruct (decide (i ∈ snd <$> strings r)); [tauto|]. rewrite Hr2 by done. tauto.
  - rewrite fmap_app, elem_of_app. destruct (IHl b i), (IHr (nulterminate l b) i) as [Hr1 Hr2].
    rewrite length_nulterminate in Hr1. destruct (decide (i ∈ snd <$> strings r)); [tauto|]. rewrite Hr2 by done. tauto.
Qed.

Lemma cmd_map_ext {T U} (f g : T -> U) c : Forall (fun t => f t = g t) (strings c) -> cmd_map f c = cmd_map g c.
Proof.
  induction c as [argv|c IH file mode fd|l IHl r IHr|l IHl r IHr|c IH]; simpl.
  - intros H. f_equal. by apply Forall_fmap_ext.
  - intros [H1 H2]%Forall_app. apply Forall_inv in H2. rewrite IH by done. congruence.
  - intros [H1 H2]%Forall_app. rewrite IHl, IHr by done. done.
  - intros [H1 H2]%Forall_app. rewrite IHl, IHr by done. done.
  - intros H. rewrite IH by done. done.
Qed.

(** [nulterminate] makes the tokens of a tree C strings. *)
Lemma nulterminate_strings s c : 0 ∉ s -> Forall (tok_ok s) (strings c) ->
  cmd_map (cstring (nulterminate c (s ++ [0]))) c = cmd_map (text s) c.
Proof.
  intros Hs Hc. apply cmd_map_ext. rewrite Forall_forall in *. intros t Ht.
  apply (cstring_text s Hs _ t (snd <$> strings c)); [by apply Hc|apply list_elem_of_fmap; eauto| |].
  - intros e (u & -> & Hu)%list_elem_of_fmap. eauto.
  - intros i Hi. destruct (nulterminate_lookup c (s ++ [0]) i) as [H1 H2]. rewrite length_app in H1. simpl in H1.
    case_bool_decide; [apply H1; [done|lia]|by apply H2].
Qed.

(** C17 [parsecmd] terminates on every line: it returns a tree or exits with a
    message.  Every string of the tree is a maximal run of word characters of
    the line, and after [nulterminate] the C string at its pointer is exactly
    that text: no NUL written for one string cuts another. *)
Theorem parsecmd_total s : 0 ∉ s ->
  halts (parsecmd s) (fun r _ => Forall (tok_ok s) (strings r.1) /\ cmd_map (cstring r.2) r.1 = cmd_map (text s) r.1) 0%nat.
Proof.
  intros Hs. unfold parsecmd. eapply halts_seq.
  { apply (parse_halts s Hs); lia. }
  intros c s1 [H1 Hc]. eapply halts_seq; [apply (peek_halts s); lia|].
  intros b s2 _. eapply halts_seq; [by apply wp_halts, (wp_get (fun p s' => p = s'))|]. intros p s3 _.
  case_bool_decide; [|apply halts_panic]. apply halts_ret. split; [done|by apply nulterminate_strings].
Qed.

(** [(a>b)] without blanks: the NUL behind [a] replaces the [>]. *)
Lemma parsecmd_total_witness :
  halts (parsecmd [40; 97; 62; 98; 41])
    (fun r _ => cmd_map (cstring r.2) r.1 = cmd_map (text [40; 97; 62; 98; 41]) r.1) 0%nat.
Proof.
  eapply halts_mono; [apply (parsecmd_total [40; 97; 62; 98; 41])|by intros r s' [_ ?]].
  by apply (bool_decide_unpack _); vm_compute.
Defined.
End Sh.
