(* ===== verification/ShRound.v ===== *)
(** * The shell's parser inverts printing (sh.c)

    A concrete syntax for command lines, its printing with one blank behind
    every token, and its meaning as a command tree.  Parsing a printed line
    gives its tree. *)

From S2P Require Import Prelude Params Sh.
Import Sh.

Module ShRound.

(** ** Command lines *)

Definition word : Type := list Z.
(** A redirection: [LT], [GT] or [PLUS] for [>>], and the file. *)
Definition redir : Type := Z * word.
Definition arg : Type := word * list redir.

Inductive line :=
| LEnd (p : pipeline) (backs : nat)
| LSeq (p : pipeline) (backs : nat) (l : line)
with pipeline :=
| POne (e : exe)
| PMore (e : exe) (p : pipeline)
with exe :=
| XBlock (l : line) (rs : list redir)
| XSimple (rs : list redir) (args : list arg).

Definition SP : Z := 32.
Definition pr_redir (r : redir) : list Z := (if r.1 =? PLUS then [GT; GT] else [r.1]) ++ SP :: r.2 ++ [SP].
Definition pr_redirs (rs : list redir) : list Z := concat (pr_redir <$> rs).
Definition pr_arg (a : arg) : list Z := a.1 ++ SP :: pr_redirs a.2.
Definition pr_args (l : list arg) : list Z := concat (pr_arg <$> l).
Fixpoint pr_backs (n : nat) : list Z := match n with O => [] | S n => AMP :: SP :: pr_backs n end.

Fixpoint pr_line (l : line) : list Z :=
  match l with
  | LEnd p n => pr_pipe p ++ pr_backs n
  | LSeq p n l => pr_pipe p ++ pr_backs n ++ SEMI :: SP :: pr_line l
  end
with pr_pipe (p : pipeline) : list Z :=
  match p with
  | POne e => pr_exe e
  | PMore e p => pr_exe e ++ BAR :: SP :: pr_pipe p
  end
with pr_exe (e : exe) : list Z :=
  match e with
  | XBlock l rs => LPAR :: SP :: pr_line l ++ RPAR :: SP :: pr_redirs rs
  | XSimple rs args => pr_redirs rs ++ pr_args args
  end.

(** The tree a line means. *)
Definition wrap (rs : list redir) (c : cmd word) : cmd word :=
  foldl (fun c r => REDIR c r.2 (redir_mode r.1).1 (redir_mode r.1).2) c rs.
Definition with_args (args : list arg) (c : cmd word) : cmd word :=
  foldl (fun c a => wrap a.2 (add_arg a.1 c)) c args.
Fixpoint backs (n : nat) (c : cmd word) : cmd word := match n with O => c | S n => backs n (BACK c) end.

Fixpoint den_line (l : line) : cmd word :=
  match l with
  | LEnd p n => backs n (den_pipe p)
  | LSeq p n l => LIST (backs n (den_pipe p)) (den_line l)
  end
with den_pipe (p : pipeline) : cmd word :=
  match p with
  | POne e => den_exe e
  | PMore e p => PIPE (den_exe e) (den_pipe p)
  end
with den_exe (e : exe) : cmd word :=
  match e with
  | XBlock l rs => wrap rs (den_line l)
  | XSimple rs args => with_args args (wrap rs (EXEC []))
  end.

(** Words are not empty and made of word characters; a command has fewer than
    [MAXARGS] arguments. *)
Definition word_ok (w : word) : Prop := w <> [] /\ Forall (fun c => word_char c = true /\ c <> 0) w.
Definition redir_ok (r : redir) : Prop := r.1 ∈ [LT; GT; PLUS] /\ word_ok r.2.
Definition arg_ok (a : arg) : Prop := word_ok a.1 /\ Forall redir_ok a.2.
Fixpoint line_ok (l : line) : Prop :=
  match l with
  | LEnd p n => pipe_ok p
  | LSeq p n l => pipe_ok p /\ line_ok l
  end
with pipe_ok (p : pipeline) : Prop :=
  match p with
  | POne e => exe_ok e
  | PMore e p => exe_ok e /\ pipe_ok p
  end
with exe_ok (e : exe) : Prop :=
  match e with
  | XBlock l rs => line_ok l /\ Forall redir_ok rs
  | XSimple rs args => Forall redir_ok rs /\ Forall arg_ok args /\ (length args < MAXARGS)%nat
  end.

Scheme line_ind' := Induction for line Sort Prop
  with pipeline_ind' := Induction for pipeline Sort Prop
  with exe_ind' := Induction for exe Sort Prop.
Combined Scheme syntax_ind from line_ind', pipeline_ind', exe_ind'.

(** A concrete character belongs to a concrete set. *)
Ltac mem := cbn; apply (bool_decide_unpack _); vm_compute.

(** ** Tokens at a position *)

(** The text does not start with a blank. *)
Definition clean (l : list Z) : Prop := forall c, head l = Some c -> strchr whitespace c = false.
(** The text is empty or starts with a byte of [toks]. *)
Definition starts (toks l : list Z) : Prop := match head l with None => True | Some c => c ∈ toks end.

Section round.
Context (buf : list Z).
Notation text := (text buf).

Lemma skip_clean s rest : drop s buf = rest -> clean rest -> skip buf (strchr whitespace) s = s.
Proof.
  intros E Hc. unfold skip. rewrite E. rewrite (run_app _ [] rest); [simpl; lia|constructor|done].
Qed.
Lemma skip_space s rest : drop s buf = SP :: rest -> clean rest -> skip buf (strchr whitespace) s = S s.
Proof.
  intros E Hc. unfold skip. rewrite E. rewrite (run_app _ [SP] rest); [simpl; lia|by repeat constructor|done].
Qed.
Lemma byte_at_drop s rest : drop s buf = rest -> byte_at buf s = default 0 (head rest).
Proof. intros <-. unfold byte_at. by rewrite head_lookup, lookup_drop, Nat.add_0_r. Qed.
Lemma drop_more s n a rest : drop s buf = a ++ rest -> length a = n -> drop (s + n) buf = rest.
Proof. intros E <-. by rewrite <- drop_drop, E, drop_app_length. Qed.

Lemma wp_peek toks s rest : drop s buf = rest -> clean rest ->
  wp (peek buf toks) (fun b s' => s' = s /\
    b = match head rest with Some c => negb (c =? 0) && strchr toks c | None => false end) s.
Proof.
  intros E Hc. unfold peek. apply wp_bind, wp_get. cbv zeta. rewrite (skip_clean s rest) by done.
  apply wp_bind, wp_modify, wp_ret. split; [done|]. rewrite (byte_at_drop s rest) by done. by destruct rest.
Qed.

(** [gettoken] at the end, at an operator and at a word. *)
Lemma wp_gettoken s a rest r : drop s buf = a ++ SP :: rest -> clean rest -> clean (a ++ SP :: rest) ->
  token buf s = (r, (s, (s + length a)%nat)) ->
  wp (gettoken buf) (fun t s' => t = (r, (s, (s + length a)%nat)) /\ drop s' buf = rest) s.
Proof.
  intros E Hc Ha Et. unfold gettoken. apply wp_bind, wp_get. cbv zeta. rewrite Et. apply wp_bind, wp_modify, wp_ret.
  split; [done|]. simpl. assert (E' := drop_more _ _ _ _ E eq_refl). rewrite (skip_space _ rest) by done.
  by rewrite <- Nat.add_1_r, (drop_more _ _ [SP] rest E').
Qed.

Lemma wp_opchar c s rest : c ∈ [BAR; LPAR; RPAR; SEMI; AMP; LT; GT] -> drop s buf = c :: SP :: rest -> clean rest ->
  wp (gettoken buf) (fun t s' => t.1 = c /\ drop s' buf = rest) s.
Proof.
  intros Hc E Hr. assert (Hcl : clean (c :: SP :: rest)).
  { intros c' [= <-]. repeat (apply elem_of_cons in Hc as [->|Hc]; [done|]). by apply elem_of_nil in Hc. }
  eapply wp_mono; [apply (wp_gettoken s [c] rest c); [done|done|done|]|by intros t s' [-> ?]].
  assert (E1 := drop_more s 1 [c] (SP :: rest) E eq_refl).
  unfold token. rewrite (skip_clean s (c :: SP :: rest)) by done. cbv zeta. rewrite (byte_at_drop s (c :: SP :: rest)) by done.
  rewrite <- (Nat.add_1_r s), (byte_at_drop (s + 1) (SP :: rest)) by done. simpl.
  repeat (apply elem_of_cons in Hc as [->|Hc]; [done|]). by apply elem_of_nil in Hc.
Qed.

Lemma wp_append s rest : drop s buf = GT :: GT :: SP :: rest -> clean rest ->
  wp (gettoken buf) (fun t s' => t.1 = PLUS /\ drop s' buf = rest) s.
Proof.
  intros E Hr. assert (Hcl : clean (GT :: GT :: SP :: rest)) by (by intros c' [= <-]).
  eapply wp_mono; [apply (wp_gettoken s [GT; GT] rest PLUS); [done|done|done|]|by intros t s' [-> ?]].
  assert (E1 := drop_more s 1 [GT] _ E eq_refl).
  unfold token. rewrite (skip_clean s (GT :: GT :: SP :: rest)) by done. cbv zeta.
  rewrite (byte_at_drop s (GT :: GT :: SP :: rest)) by done.
  rewrite <- (Nat.add_1_r s), (byte_at_drop (s + 1) (GT :: SP :: rest)) by done. simpl.
  do 2 f_equal. lia.
Qed.

Lemma word_char_ws c : word_char c = true -> strchr whitespace c = false.
Proof. unfold word_char. by destruct (strchr whitespace c). Qed.

Lemma clean_word w rest : word_ok w -> clean (w ++ rest).
Proof.
  intros [Hne Hw]. destruct w as [|c w]; [done|]. intros c' [= <-]. apply word_char_ws. by apply Forall_inv in Hw as [? _].
Qed.

Lemma wp_word w s rest : word_ok w -> drop s buf = w ++ SP :: rest -> clean rest ->
  wp (gettoken buf) (fun t s' => t.1 = WORD /\ text t.2 = w /\ drop s' buf = rest) s.
Proof.
  intros Hw E Hr. eapply wp_mono.
  - apply (wp_gettoken s w rest WORD); [done|done|by apply clean_word|].
    unfold token. rewrite (skip_clean s (w ++ SP :: rest)) by (done || by apply clean_word).
    cbv zeta. rewrite (byte_at_drop s (w ++ SP :: rest)) by done. destruct Hw as [Hne Hw].
    assert (Hrun : skip buf word_char s = (s + length w)%nat).
    { unfold skip. rewrite E, run_app; [done| |by intros c [= <-]]. eapply Forall_impl; [exact Hw|]. by intros c [? _]. }
    rewrite Hrun. destruct w as [|c w]; [done|]. simpl. apply Forall_inv in Hw as [Hc H0].
    unfold word_char, strchr, symbols in Hc. simpl in Hc.
    unfold BAR, LPAR, RPAR, SEMI, AMP, LT, GT in *.
    replace (c =? 0) with false by lia. replace (_ || _) with false by lia. by replace (c =? 62) with false by lia.
  - intros t s' [-> ?]. split; [done|]. split; [|done]. unfold Sh.text. simpl.
    rewrite E, Nat.add_comm, Nat.add_sub. apply take_app_length.
Qed.

Lemma wp_end s : drop s buf = [] -> wp (gettoken buf) (fun t s' => t.1 = 0 /\ drop s' buf = []) s.
Proof.
  intros E. unfold gettoken. apply wp_bind, wp_get. cbv zeta. apply wp_bind, wp_modify, wp_ret.
  unfold token. rewrite (skip_clean s []) by done. cbv zeta. rewrite (byte_at_drop s []) by done. simpl.
  split; [done|]. by rewrite (skip_clean s []).
Qed.

(** ** Redirections and arguments *)

Lemma pr_redirs_cons r rs : pr_redirs (r :: rs) = pr_redir r ++ pr_redirs rs.
Proof. done. Qed.
Lemma pr_args_cons a l : pr_args (a :: l) = pr_arg a ++ pr_args l.
Proof. done. Qed.

Lemma cmd_map_add_arg a c : cmd_map text (add_arg a c) = add_arg (text a) (cmd_map text c).
Proof. induction c; simpl; try done; [by rewrite fmap_app|by rewrite IHc]. Qed.

Lemma starts_clean toks l : starts toks l -> Forall (fun c => strchr whitespace c = false) toks -> clean l.
Proof.
  unfold starts, clean. intros Hs Ht c Hc. rewrite Hc in Hs. rewrite Forall_forall in Ht. by apply Ht.
Qed.

Lemma clean_redirs rs post : Forall redir_ok rs -> clean post -> clean (pr_redirs rs ++ post).
Proof.
  intros Hrs Hp. destruct Hrs as [|[t w] rs [Ht _] _]; [done|]. unfold pr_redirs, pr_redir. simpl.
  simpl in Ht. repeat (apply elem_of_cons in Ht as [->|Ht]; [by intros c [= <-]|]). by apply elem_of_nil in Ht.
Qed.

Lemma clean_args args post : Forall arg_ok args -> clean post -> clean (pr_args args ++ post).
Proof.
  intros Ha Hp. destruct Ha as [|a args [Hw _] _]; [done|]. unfold pr_args, pr_arg. simpl.
  rewrite <- !app_assoc. by apply clean_word.
Qed.

(** The operator of a redirection. *)
Lemma wp_redir_op t s w rest : redir_ok (t, w) -> drop s buf = pr_redir (t, w) ++ rest -> clean rest ->
  wp (gettoken buf) (fun r s' => r.1 = t /\ drop s' buf = w ++ SP :: rest) s.
Proof.
  intros [Ht Hw] E Hr. unfold pr_redir in E. simpl in *. destruct (Z.eqb_spec t PLUS) as [->|Hne].
  - apply wp_append; [|by apply clean_word]. rewrite E. simpl. by rewrite <- app_assoc.
  - apply wp_opchar; [|rewrite E; simpl; by rewrite <- app_assoc|by apply clean_word].
    do 2 (apply elem_of_cons in Ht as [->|Ht]; [by mem|]).
    by apply list_elem_of_singleton in Ht.
Qed.

Lemma redir_op_starts r rest : redir_ok r -> exists c, head (pr_redir r ++ rest) = Some c /\ strchr [LT; GT] c = true.
Proof.
  intros [Ht _]. unfold pr_redir. destruct r as [t w]. simpl in *.
  repeat (apply elem_of_cons in Ht as [->|Ht]; [by eexists|]). by apply elem_of_nil in Ht.
Qed.

Lemma pr_redir_pos r : (0 < length (pr_redir r))%nat.
Proof. unfold pr_redir. rewrite length_app. simpl. lia. Qed.

Lemma wp_redirs rs : forall fuel s c post, drop s buf = pr_redirs rs ++ post -> Forall redir_ok rs ->
  clean post -> (forall x, head post = Some x -> strchr [LT; GT] x = false) -> (length (drop s buf) < fuel)%nat ->
  wp (parseredirs buf fuel c) (fun c' s' => drop s' buf = post /\ cmd_map text c' = wrap rs (cmd_map text c)) s.
Proof.
  induction rs as [|r rs IH]; intros fuel s c post E Hok Hp Hlt Hf; (destruct fuel as [|fuel]; [lia|]); cbn [parseredirs].
  - wp_call (wp_peek _ s post); [done|done|]. intros b s' [-> ->].
    destruct (head post) as [x|] eqn:Ex; [rewrite (Hlt x) by done; rewrite andb_false_r|]; by apply wp_ret.
  - apply Forall_cons in Hok as [Hr Hok]. rewrite pr_redirs_cons, <- app_assoc in E.
    assert (Hcl : clean (pr_redirs rs ++ post)) by (by apply clean_redirs).
    assert (Hcl0 : clean (pr_redir r ++ pr_redirs rs ++ post)).
    { destruct (redir_op_starts r (pr_redirs rs ++ post) Hr) as (x & Hx & Hs). intros x' Hx'. rewrite Hx in Hx'.
      injection Hx' as <-. unfold strchr in Hs. simpl in Hs. unfold LT, GT in Hs. unfold strchr, whitespace. simpl. lia. }
    wp_call (wp_peek _ s (pr_redir r ++ pr_redirs rs ++ post)); [done|done|]. intros b s' [-> ->].
    destruct (redir_op_starts r (pr_redirs rs ++ post) Hr) as (x & -> & Hs). rewrite Hs.
    replace (negb (x =? 0)) with true by (unfold strchr, LT, GT in Hs; simpl in Hs; lia). simpl andb. cbv iota.
    destruct r as [t w]. destruct Hr as [Ht Hw]. simpl in Hw.
    wp_call (wp_redir_op t s w (pr_redirs rs ++ post)); [done|done|done|]. intros [t0 u] s1 [E0 E1]. simpl in E0. subst t0.
    wp_call (wp_word w); [done|done|done|]. intros [t' file] s2 (E2 & E3 & E4). simpl in E2, E3. subst t'.
    simpl negb. cbv iota. eapply wp_mono; [apply (IH fuel s2 _ post); [done|done|done|done|]|].
    + rewrite E4. rewrite E, length_app in Hf. pose proof (pr_redir_pos (t, w)). lia.
    + intros c' s' [H1 H2]. split; [done|]. rewrite H2. simpl. by rewrite E3.
Qed.

Definition ends_exec : list Z := [BAR; RPAR; AMP; SEMI].

Lemma ends_exec_facts post x : starts ends_exec post -> head post = Some x ->
  strchr whitespace x = false /\ strchr [LT; GT] x = false /\ strchr ends_exec x = true /\ (x =? 0) = false.
Proof.
  unfold starts. intros Hs Hx. rewrite Hx in Hs. unfold ends_exec in Hs.
  repeat (apply elem_of_cons in Hs as [->|Hs]; [done|]). by apply elem_of_nil in Hs.
Qed.
Lemma ends_exec_clean post : starts ends_exec post -> clean post.
Proof. intros Hs x Hx. by apply (ends_exec_facts post). Qed.

Lemma head_word w rest : word_ok w -> exists c, head (w ++ rest) = Some c /\ word_char c = true /\ c <> 0.
Proof. intros [Hne Hw]. destruct w as [|c w]; [done|]. apply Forall_inv in Hw. exists c. done. Qed.
Lemma word_char_sym c : word_char c = true -> strchr symbols c = false.
Proof. unfold word_char. destruct (strchr symbols c); [|done]. by rewrite andb_false_r. Qed.

Lemma args_not_redir args post x : Forall arg_ok args -> starts ends_exec post -> head (pr_args args ++ post) = Some x ->
  strchr [LT; GT] x = false.
Proof.
  intros Ha Hs. destruct Ha as [|a args [Hw _] _]; [intros Hx; by apply (ends_exec_facts post)|].
  rewrite pr_args_cons. unfold pr_arg. rewrite <- !app_assoc. destruct (head_word a.1 ((SP :: pr_redirs a.2) ++ pr_args args ++ post) Hw)
    as (c & -> & Hc & _). intros [= <-]. apply word_char_sym in Hc. unfold strchr, symbols, LT, GT in *. simpl in *. lia.
Qed.

Lemma simple_not_block rs args post x : Forall redir_ok rs -> Forall arg_ok args -> starts ends_exec post ->
  head (pr_redirs rs ++ pr_args args ++ post) = Some x -> negb (x =? 0) && strchr [LPAR] x = false.
Proof.
  intros Hrs Ha Hs Hx. assert (Hn : strchr [LPAR] x = false); [|rewrite Hn; apply andb_false_r].
  destruct Hrs as [|r rs Hr _].
  - simpl in Hx. destruct Ha as [|a args [Hw _] _].
    + unfold starts in Hs. simpl in Hx. rewrite Hx in Hs. unfold ends_exec in Hs.
      repeat (apply elem_of_cons in Hs as [->|Hs]; [done|]). by apply elem_of_nil in Hs.
    + rewrite pr_args_cons in Hx. unfold pr_arg in Hx. rewrite <- !app_assoc in Hx.
      destruct (head_word a.1 ((SP :: pr_redirs a.2) ++ pr_args args ++ post) Hw) as (c & Hc & Hwc & _). rewrite Hc in Hx.
      injection Hx as <-. apply word_char_sym in Hwc. unfold strchr, symbols, LPAR in *. simpl in *. lia.
  - rewrite pr_redirs_cons, <- app_assoc in Hx. destruct (redir_op_starts r (pr_redirs rs ++ pr_args args ++ post) Hr) as (c & Hc & Hs').
    rewrite Hc in Hx. injection Hx as <-. unfold strchr, LT, GT, LPAR in *. simpl in *. lia.
Qed.

Lemma wp_args args : forall fuel s argc c post, drop s buf = pr_args args ++ post -> Forall arg_ok args ->
  starts ends_exec post -> (argc + length args < MAXARGS)%nat -> (length (drop s buf) < fuel)%nat ->
  wp (parseargs buf fuel argc c) (fun c' s' => drop s' buf = post /\ cmd_map text c' = with_args args (cmd_map text c)) s.
Proof.
  induction args as [|[w rs] args IH]; intros fuel s argc c post E Hok Hp Hargc Hf; (destruct fuel as [|fuel]; [lia|]); cbn [parseargs].
  - simpl in E. wp_call (wp_peek _ s post); [done|by apply ends_exec_clean|]. intros b s' [-> ->].
    destruct (head post) as [x|] eqn:Ex.
    + destruct (ends_exec_facts post x Hp Ex) as (_ & _ & H1 & H2). rewrite H2. fold ends_exec. rewrite H1. by apply wp_ret.
    + destruct post; [|done]. wp_call (wp_end s); [done|]. intros [t u] s1 [E1 E2]. simpl in E1. subst t. by apply wp_ret.
  - apply Forall_cons in Hok as [[Hw Hrs] Hok]. simpl in Hw, Hrs. rewrite pr_args_cons in E.
    unfold pr_arg in E. cbn [fst snd] in E. rewrite <- !app_assoc in E. simpl in E. rewrite <- ?app_assoc in E.
    assert (Hcl : clean (pr_args args ++ post)) by (apply clean_args; [done|by apply ends_exec_clean]).
    assert (Hcl' : clean (pr_redirs rs ++ pr_args args ++ post)) by (by apply clean_redirs).
    wp_call (wp_peek _ s _); [exact E|by apply clean_word|]. intros b s' [-> ->].
    destruct (head_word w (SP :: pr_redirs rs ++ pr_args args ++ post) Hw) as (x & -> & Hx & Hx0).
    replace (strchr [BAR; RPAR; AMP; SEMI] x) with false.
    2:{ apply word_char_sym in Hx. unfold strchr, symbols, BAR, RPAR, AMP, SEMI in *. simpl in *. lia. }
    rewrite andb_false_r. cbv iota.
    wp_call (wp_word w); [done|exact E|done|]. intros [t a] s1 (E2 & E3 & E4). simpl in E2, E3. subst t.
    change (WORD =? 0) with false. change (negb (WORD =? WORD)) with false. cbv iota zeta.
    rewrite bool_decide_false by (simpl in Hargc; lia).
    wp_call (wp_redirs rs (S (length buf)) s1 _ (pr_args args ++ post)); [done|done|done| | |].
    { intros y Hy. by eapply args_not_redir. } { rewrite length_drop. lia. }
    intros c2 s2 [E5 E6]. eapply wp_mono; [apply (IH fuel s2 (S argc) c2 post); [done|done|done|simpl in Hargc; lia|]|].
    + rewrite E5. rewrite E, length_app in Hf. cbn [length] in Hf. rewrite length_app in Hf. lia.
    + intros c' s' [H1 H2]. split; [done|]. rewrite H2, E6, cmd_map_add_arg, E3. done.
Qed.

(** ** Lines *)

Lemma starts_weaken t1 t2 l : starts t1 l -> (forall c, c ∈ t1 -> c ∈ t2) -> starts t2 l.
Proof. unfold starts. destruct (head l); auto. Qed.

Lemma clean_exe e post : exe_ok e -> starts ends_exec post -> clean (pr_exe e ++ post).
Proof.
  intros He Hp. destruct e as [l rs|rs args]; simpl in *; [by intros c [= <-]|].
  destruct He as (H1 & H2 & _). rewrite <- app_assoc.
  apply clean_redirs; [done|]. apply clean_args; [done|]. by apply ends_exec_clean.
Qed.
Lemma clean_pipe p post : pipe_ok p -> starts ends_exec post -> clean (pr_pipe p ++ post).
Proof.
  intros Hok Hp. destruct p as [e|e p]; simpl in *; [by apply clean_exe|]. rewrite <- app_assoc.
  apply clean_exe; [tauto|]. by mem.
Qed.
Lemma starts_backs n post : starts ends_exec post -> starts ends_exec (pr_backs n ++ post).
Proof. destruct n; [done|]. intros _. by mem. Qed.
Lemma clean_line l post : line_ok l -> starts ends_exec post -> clean (pr_line l ++ post).
Proof.
  intros Hok Hp. destruct l as [p n|p n l]; simpl in *; rewrite <- !app_assoc; apply clean_pipe; try tauto; apply starts_backs; [done|].
  by mem.
Qed.

Lemma wp_backs n : forall fuel s c post, drop s buf = pr_backs n ++ post -> starts [RPAR; SEMI] post ->
  (length (drop s buf) < fuel)%nat ->
  wp (parsebacks buf fuel c) (fun c' s' => drop s' buf = post /\ cmd_map text c' = backs n (cmd_map text c)) s.
Proof.
  assert (Hw : forall post, starts [RPAR; SEMI] post -> starts ends_exec post).
  { intros post Hs. eapply starts_weaken; [done|]. intros c Hc.
    repeat (apply elem_of_cons in Hc as [->|Hc]; [by mem|]). by apply elem_of_nil in Hc. }
  induction n as [|n IH]; intros fuel s c post E Hp Hf; (destruct fuel as [|fuel]; [lia|]); cbn [parsebacks].
  - wp_call (wp_peek _ s post); [done|by apply ends_exec_clean, Hw|]. intros b s' [-> ->].
    unfold starts in Hp. destruct (head post) as [x|]; [|by apply wp_ret].
    repeat (apply elem_of_cons in Hp as [->|Hp]; [by apply wp_ret|]). by apply elem_of_nil in Hp.
  - simpl in E. wp_call (wp_peek _ s (AMP :: SP :: pr_backs n ++ post)); [done|by intros x [= <-]|]. intros b s' [-> ->].
    simpl. assert (Hcl : clean (pr_backs n ++ post)) by (by apply ends_exec_clean, starts_backs, Hw).
    wp_call (wp_opchar AMP s (pr_backs n ++ post)); [by mem|done|done|].
    intros t s1 [_ E1]. eapply wp_mono; [apply (IH fuel s1 (BACK c) post); [done|done|]|done].
    rewrite E1. rewrite E in Hf. simpl in Hf. lia.
Qed.

Definition line_follow : list Z := [RPAR].
Definition pipe_follow : list Z := [RPAR; AMP; SEMI].
Lemma follow_exec post : starts line_follow post -> starts pipe_follow post.
Proof. intros H. eapply starts_weaken; [done|]. intros c ->%list_elem_of_singleton. by mem. Qed.
Lemma follow_pipe post : starts pipe_follow post -> starts ends_exec post.
Proof.
  intros H. eapply starts_weaken; [done|]. intros c Hc. unfold pipe_follow in Hc.
  repeat (apply elem_of_cons in Hc as [->|Hc]; [by mem|]). by apply elem_of_nil in Hc.
Qed.

(** [m] reads the text [pr] of a command that means [den], where less than [n]
    bytes are left of the line. *)
Definition parsed (n : nat) (m : M nat (cmd tok)) (follow pr : list Z) (den : cmd word) : Prop :=
  forall s post, drop s buf = pr ++ post -> starts follow post -> (length (drop s buf) < n)%nat ->
  wp m (fun c s' => drop s' buf = post /\ cmd_map text c = den) s.

Lemma parsed_block l rs n line : line_ok l -> Forall redir_ok rs ->
  parsed n line line_follow (pr_line l) (den_line l) ->
  parsed (S n) (parseblock buf line) ends_exec (pr_exe (XBlock l rs)) (den_exe (XBlock l rs)).
Proof.
  intros Hl Hrs IH s post E Hp Hf. unfold parseblock. simpl in E. rewrite <- app_assoc in E. simpl in E.
  assert (Hrp : starts ends_exec (RPAR :: SP :: pr_redirs rs ++ post)) by (by mem).
  wp_call (wp_peek _ s); [exact E|by intros x [= <-]|]. intros b s' [-> ->]. simpl.
  wp_call (wp_opchar LPAR s); [by mem|exact E|by apply clean_line|]. intros t s1 [_ E1].
  wp_call (IH s1 (RPAR :: SP :: pr_redirs rs ++ post)); [done|by mem| |].
  { rewrite E1. rewrite E in Hf. simpl in Hf. lia. }
  intros c s2 [E2 Ec]. wp_call (wp_peek _ s2); [exact E2|by intros x [= <-]|]. intros b s' [-> ->]. simpl.
  wp_call (wp_opchar RPAR s2 (pr_redirs rs ++ post)); [by mem|exact E2| |].
  { apply clean_redirs; [done|by apply ends_exec_clean]. }
  intros t' s3 [_ E3]. eapply wp_mono; [apply (wp_redirs rs (S (length buf)) s3 c post); try done|].
  - by apply ends_exec_clean.
  - intros x Hx. by apply (ends_exec_facts post).
  - rewrite length_drop. lia.
  - intros c' s' [H1 H2]. split; [done|]. by rewrite H2, Ec.
Qed.

Lemma parsed_exe e n line : exe_ok e ->
  (forall l rs, e = XBlock l rs -> parsed n line line_follow (pr_line l) (den_line l)) ->
  parsed (S n) (parseexec buf line) ends_exec (pr_exe e) (den_exe e).
Proof.
  intros Hok IH s post E Hp Hf. unfold parseexec.
  pose proof (clean_exe e post Hok Hp) as Hcl. wp_call (wp_peek _ s (pr_exe e ++ post)); [done|done|]. intros b s' [-> ->].
  destruct e as [l rs|rs args]; simpl in Hok.
  - destruct Hok as [Hl Hrs]. by apply (parsed_block l rs n line Hl Hrs (IH l rs eq_refl) s post).
  - destruct Hok as (H1 & H2 & H3). replace (match head _ with Some _ => _ | None => _ end) with false.
    2:{ cbn [pr_exe]. rewrite <- app_assoc. destruct (head (pr_redirs rs ++ pr_args args ++ post)) as [x|] eqn:Ex; [|done].
        by rewrite (simple_not_block rs args post x). }
    simpl in E. rewrite <- app_assoc in E.
    wp_call (wp_redirs rs (S (length buf)) s (EXEC []) (pr_args args ++ post)); [done|done| | | |].
    { apply clean_args; [done|by apply ends_exec_clean]. } { intros x Hx. by eapply args_not_redir. } { rewrite length_drop. lia. }
    intros c s1 [E1 Ec]. eapply wp_mono; [apply (wp_args args (S (length buf)) s1 0 c post); try done; rewrite length_drop; lia|].
    intros c' s' [? Hc']. split; [done|]. by rewrite Hc', Ec.
Qed.

Lemma parsed_pipe_one e n line k : exe_ok e -> parsed n (parseexec buf line) ends_exec (pr_exe e) (den_exe e) ->
  parsed (Nat.min n k) (parsepipe buf line k) pipe_follow (pr_exe e) (den_exe e).
Proof.
  intros Hok IH s post E Hp Hf. destruct k as [|k]; [lia|]. cbn [parsepipe].
  wp_call (IH s post); [done|by apply follow_pipe|lia|]. intros c s1 [E1 Ec].
  wp_call (wp_peek _ s1 post); [done|by apply ends_exec_clean, follow_pipe|]. intros b s' [-> ->].
  replace (match head post with Some _ => _ | None => _ end) with false; [by apply wp_ret|].
  unfold starts, pipe_follow in Hp. destruct (head post); [|done].
  repeat (apply elem_of_cons in Hp as [->|Hp]; [done|]). by apply elem_of_nil in Hp.
Qed.

Lemma parsed_pipe_more e p n line k : exe_ok e -> pipe_ok p -> parsed n (parseexec buf line) ends_exec (pr_exe e) (den_exe e) ->
  (forall k, parsed (Nat.min n k) (parsepipe buf line k) pipe_follow (pr_pipe p) (den_pipe p)) ->
  parsed (Nat.min n k) (parsepipe buf line k) pipe_follow (pr_pipe (PMore e p)) (den_pipe (PMore e p)).
Proof.
  intros He Hpk IHe IHp s post E Hp Hf. destruct k as [|k]; [lia|]. cbn [parsepipe].
  simpl in E. rewrite <- app_assoc in E. simpl in E.
  wp_call (IHe s (BAR :: SP :: pr_pipe p ++ post)); [done|by mem|lia|]. intros c s1 [E1 Ec].
  assert (Hl : (length (drop s1 buf) <= length (drop s buf))%nat) by (rewrite E, E1, length_app; lia).
  wp_call (wp_peek _ s1); [exact E1|by intros x [= <-]|]. intros b s' [-> ->]. simpl.
  wp_call (wp_opchar BAR s1); [by mem|exact E1|by apply clean_pipe, follow_pipe|]. intros t s2 [_ E2].
  wp_call (IHp k s2 post); [done|done| |].
  { rewrite E2. rewrite E1 in Hl. simpl in Hl. lia. }
  intros r s3 [E3 Er]. apply wp_ret. split; [done|]. simpl. by rewrite Ec, Er.
Qed.

Lemma starts_semi l : starts [RPAR; SEMI] (SEMI :: l).
Proof. by mem. Qed.
Lemma starts_line post : starts line_follow post -> starts [RPAR; SEMI] post.
Proof. intros H. eapply starts_weaken; [done|]. intros c ->%list_elem_of_singleton. by mem. Qed.
Lemma starts_pipe_backs n post : starts [RPAR; SEMI] post -> starts pipe_follow (pr_backs n ++ post).
Proof.
  destruct n; [|intros _; by mem]. intros H. eapply starts_weaken; [done|]. intros c Hc.
  repeat (apply elem_of_cons in Hc as [->|Hc]; [by mem|]). by apply elem_of_nil in Hc.
Qed.

(** A pipeline and its [&]s. *)
Lemma wp_job p m n line s post : pipe_ok p ->
  (forall k, parsed (Nat.min n k) (parsepipe buf line k) pipe_follow (pr_pipe p) (den_pipe p)) ->
  drop s buf = pr_pipe p ++ pr_backs m ++ post -> starts [RPAR; SEMI] post -> (length (drop s buf) < n)%nat ->
  wp (c ← parsepipe buf line (S (length buf)); parsebacks buf (S (length buf)) c)
    (fun c s' => drop s' buf = post /\ cmd_map text c = backs m (den_pipe p)) s.
Proof.
  intros Hok IH E Hp Hf. wp_call (IH (S (length buf)) s (pr_backs m ++ post)); [done|by apply starts_pipe_backs| |].
  { rewrite length_drop in *. lia. }
  intros c s1 [E1 Ec]. eapply wp_mono; [apply (wp_backs m (S (length buf)) s1 c post); [done|done|rewrite length_drop; lia]|].
  intros c' s' [H1 H2]. by rewrite H2, Ec.
Qed.

Lemma parsed_line_end p m fuel : pipe_ok p ->
  (forall k, parsed (Nat.min (S fuel) k) (parsepipe buf (parseline buf fuel) k) pipe_follow (pr_pipe p) (den_pipe p)) ->
  parsed (S fuel) (parseline buf (S fuel)) line_follow (pr_line (LEnd p m)) (den_line (LEnd p m)).
Proof.
  intros Hok IH s post E Hp Hf. cbn [parseline]. simpl in E. rewrite <- app_assoc in E.
  rewrite <- bind_assoc_wp. wp_call (wp_job p m (S fuel) (parseline buf fuel) s post Hok IH E (starts_line _ Hp)); [lia|]. intros c s1 [E1 Ec].
  wp_call (wp_peek _ s1 post); [done|by apply ends_exec_clean, follow_pipe, follow_exec|]. intros b s' [-> ->].
  replace (match head post with Some _ => _ | None => _ end) with false; [by apply wp_ret|].
  unfold starts, line_follow in Hp. destruct (head post); [|done]. by apply list_elem_of_singleton in Hp as ->.
Qed.

Lemma parsed_line_seq p m l fuel : pipe_ok p -> line_ok l ->
  (forall k, parsed (Nat.min (S fuel) k) (parsepipe buf (parseline buf fuel) k) pipe_follow (pr_pipe p) (den_pipe p)) ->
  parsed fuel (parseline buf fuel) line_follow (pr_line l) (den_line l) ->
  parsed (S fuel) (parseline buf (S fuel)) line_follow (pr_line (LSeq p m l)) (den_line (LSeq p m l)).
Proof.
  intros Hok Hl IH IHl s post E Hp Hf. cbn [parseline].
  simpl in E. rewrite <- !app_assoc in E. simpl in E.
  rewrite <- bind_assoc_wp. wp_call (wp_job p m (S fuel) (parseline buf fuel) s (SEMI :: SP :: pr_line l ++ post) Hok IH E (starts_semi _)); [lia|].
  intros c s1 [E1 Ec].
  assert (Hlen : (length (drop s1 buf) <= length (drop s buf))%nat) by (rewrite E, E1, !length_app; lia).
  wp_call (wp_peek _ s1); [exact E1|by intros x [= <-]|]. intros b s' [-> ->]. simpl.
  wp_call (wp_opchar SEMI s1); [by mem|exact E1|by apply clean_line, follow_pipe, follow_exec|]. intros t s2 [_ E2].
  wp_call (IHl s2 post); [done|done| |].
  { rewrite E2. rewrite E1 in Hlen. simpl in Hlen. lia. }
  intros r s3 [E3 Er]. apply wp_ret. split; [done|]. simpl. by rewrite Ec, Er.
Qed.

Lemma parsed_syntax :
  (forall l, line_ok l -> forall fuel, parsed fuel (parseline buf fuel) line_follow (pr_line l) (den_line l)) /\
  (forall p, pipe_ok p -> forall fuel k,
    parsed (Nat.min (S fuel) k) (parsepipe buf (parseline buf fuel) k) pipe_follow (pr_pipe p) (den_pipe p)) /\
  (forall e, exe_ok e -> forall fuel,
    parsed (S fuel) (parseexec buf (parseline buf fuel)) ends_exec (pr_exe e) (den_exe e)).
Proof.
  apply syntax_ind.
  - intros p IH n Hok [|fuel]; [intros ? ? ? ?; lia|]. apply parsed_line_end; auto.
  - intros p IH n l IHl [Hp Hl] [|fuel]; [intros ? ? ? ?; lia|]. apply parsed_line_seq; auto.
  - intros e IH Hok fuel k. by apply parsed_pipe_one, IH.
  - intros e IH p IHp [He Hp] fuel k. apply parsed_pipe_more; auto.
  - intros l IH rs [Hl Hrs] fuel. apply parsed_exe; [done|]. intros l' rs' [= <- <-]. by apply IH.
  - intros rs args Hok fuel. by apply parsed_exe.
Qed.
End round.

(** ** The round trip *)


(** [( a < x ; b & ) > y | c]. *)
Definition sample : line :=
  LEnd (PMore (XBlock (LSeq (POne (XSimple [] [([97], [(LT, [120])])])) 0 (LEnd (POne (XSimple [] [([98], [])])) 1)) [(GT, [121])])
    (POne (XSimple [] [([99], [])]))) 0.

End ShRound.
