(* ===== verification/ShRun.v ===== *)
(** * Running commands (sh.c: runcmd, main, getcmd; ulib.c: gets)

    [runcmd] turns a command tree into a program of system calls, a tree with
    a branch for every result the shell looks at.  [exec] and [exit] do not
    return.  The calls are given the meaning sysfile.c gives them on the
    descriptor table: [open], [dup] and [pipe] take the lowest free entries,
    [fork] copies the table. *)

From S2P Require Import Prelude Params Sh.
Import Sh.

Module ShRun.

Definition word : Type := list Z.

(** System calls of the shell. *)
Inductive uprog :=
| Exit
| Exec (argv : list word) (failed : uprog)
| Close (fd : Z) (k : uprog)
| Open (file : word) (mode : Z) (k : Z -> uprog)
| Dup (fd : Z) (k : uprog)
| Pipe (k : option (Z * Z) -> uprog)
| Fork (k : Z -> uprog)
| Wait (k : uprog)
| Print (fd : Z) (msg : string) (k : uprog).

(** The shell's [panic]. *)
Definition panic_ (msg : string) : uprog := Print 2 msg Exit.

(** [fork1]: 0 in the child, the pid in the parent. *)
Definition fork1 (k : Z -> uprog) : uprog :=
  Fork (fun pid => if pid =? -1 then panic_ "fork" else k pid).

Fixpoint runcmd (c : cmd word) : uprog :=
  match c with
  | EXEC argv =>
      if bool_decide (argv = []) then Exit
      else Exec argv (Print 2 "exec failed" Exit)
  | REDIR c file mode fd =>
      Close fd (Open file mode (fun r => if r <? 0 then Print 2 "open failed" Exit else runcmd c))
  | LIST l r => fork1 (fun pid => if pid =? 0 then runcmd l else Wait (runcmd r))
  | PIPE l r =>
      Pipe (fun p => match p with
        | None => panic_ "pipe"
        | Some (p0, p1) =>
            fork1 (fun pid =>
              if pid =? 0 then Close 1 (Dup p1 (Close p0 (Close p1 (runcmd l))))
              else fork1 (fun pid =>
                if pid =? 0 then Close 0 (Dup p0 (Close p0 (Close p1 (runcmd r))))
                else Close p0 (Close p1 (Wait (Wait Exit)))))
        end)
  | BACK c => fork1 (fun pid => if pid =? 0 then runcmd c else Exit)
  end.

(** ** Reading commands *)

(** [gets(buf, max)]: the bytes stored, without the NUL, and the rest of the
    input. *)
Fixpoint gets_loop (n : nat) (input : list Z) : list Z * list Z :=
  match n, input with
  | S n, c :: input =>
      if (c =? 10) || (c =? 13) then ([c], input)
      else let (l, rest) := gets_loop n input in (c :: l, rest)
  | _, _ => ([], input)
  end.
Definition gets (max : nat) (input : list Z) : list Z * list Z := gets_loop (max - 1) input.

(** [getcmd]: [None] at the end of the input. *)
Definition getcmd (nbuf : nat) (input : list Z) : option (list Z * list Z) :=
  let (l, rest) := gets nbuf input in
  if bool_decide (l = []) then None else Some (l, rest).

(** One turn of [main]: change the directory, or fork a child that parses and
    runs the line (the child exits when the parser panics), and wait. *)
Inductive turn := Chdir (dir : list Z) | Run (line : list Z) (child : uprog).
Definition child (line : list Z) : uprog :=
  match parsecmd line O with
  | Ok (c, buf) _ => runcmd (cmd_map (cstring buf) c)
  | Panic msg _ => panic_ msg
  | Blocked _ => Exit
  end.
Definition main_turn (buf : list Z) : turn :=
  if bool_decide (take 3 buf = [99; 100; 32]) then Chdir (drop 3 (take (length buf - 1) buf))
  else Run buf (child buf).
Fixpoint main (fuel : nat) (input : list Z) : list turn :=
  match fuel with
  | O => []
  | S fuel =>
      match getcmd 100 input with
      | None => []
      | Some (buf, rest) => main_turn buf :: main fuel rest
      end
  end.

(** ** Descriptor tables *)

Definition NOFILE : nat := 16.
(** What a descriptor refers to. *)
Inductive desc := DFile (name : word) (mode : Z) | DPipeR (id : nat) | DPipeW (id : nat) | DOther (n : nat).
#[global] Instance desc_eq_dec : EqDecision desc.
Proof. solve_decision. Defined.

Notation fdtab := (list (option desc)).
(** [fdalloc]. *)
Fixpoint lowest (t : fdtab) : option nat :=
  match t with
  | [] => None
  | None :: _ => Some O
  | Some _ :: t => S <$> lowest t
  end.
Definition put (d : desc) (t : fdtab) : option (nat * fdtab) :=
  match lowest t with Some fd => Some (fd, <[fd := Some d]> t) | None => None end.
Definition close (fd : Z) (t : fdtab) : fdtab := <[Z.to_nat fd := None]> t.

(** The programs that a tree of calls starts, in order, each with its
    descriptors; [n] numbers the pipes, [forks] succeed, and [can_open] says
    which files open. *)
Section run.
Context (can_open : word -> Z -> bool).

Fixpoint run (p : uprog) (t : fdtab) (n : nat) : list (list word * fdtab) * nat :=
  match p with
  | Exit => ([], n)
  | Exec argv _ => ([(argv, t)], n)
  | Close fd k => run k (close fd t) n
  | Open file mode k =>
      if can_open file mode then
        match put (DFile file mode) t with
        | Some (fd, t) => run (k (Z.of_nat fd)) t n
        | None => run (k (-1)) t n
        end
      else run (k (-1)) t n
  | Dup fd k =>
      match t !! Z.to_nat fd with
      | Some (Some d) => match put d t with Some (_, t) => run k t n | None => run k t n end
      | _ => run k t n
      end
  | Pipe k =>
      match put (DPipeR n) t with
      | Some (p0, t0) =>
          match put (DPipeW n) t0 with
          | Some (p1, t1) => run (k (Some (Z.of_nat p0, Z.of_nat p1))) t1 (S n)
          | None => run (k None) t n
          end
      | None => run (k None) t n
      end
  | Fork k =>
      let (e1, n1) := run (k 0) t n in
      let (e2, n2) := run (k 1) t n1 in (e1 ++ e2, n2)
  | Wait k => run k t n
  | Print _ _ k => run k t n
  end.

(** What a command should start: a redirection replaces a descriptor, a pipe
    replaces the output of its left and the input of its right side. *)
Fixpoint started (c : cmd word) (t : fdtab) (n : nat) : list (list word * fdtab) * nat :=
  match c with
  | EXEC argv => (if bool_decide (argv = []) then [] else [(argv, t)], n)
  | REDIR c file mode fd =>
      if can_open file mode then started c (<[Z.to_nat fd := Some (DFile file mode)]> t) n else ([], n)
  | LIST l r =>
      let (e1, n1) := started l t n in
      let (e2, n2) := started r t n1 in (e1 ++ e2, n2)
  | PIPE l r =>
      let (e1, n1) := started l (<[1%nat := Some (DPipeW n)]> t) (S n) in
      let (e2, n2) := started r (<[0%nat := Some (DPipeR n)]> t) n1 in (e1 ++ e2, n2)
  | BACK c => started c t n
  end.
End run.

(** ** The shell starts what the command says *)

(** Descriptors 0, 1 and 2 are open and two entries are free. *)
Definition std (t : fdtab) : Prop := forall i, (i < 3)%nat -> exists d, t !! i = Some (Some d).
Definition two_free (t : fdtab) : Prop := exists i j, i <> j /\ t !! i = Some None /\ t !! j = Some None.
(** Redirections of standard input and output, all that the parser makes. *)
Fixpoint std_redirs (c : cmd word) : Prop :=
  match c with
  | EXEC _ => True
  | REDIR c _ _ fd => (fd = 0 \/ fd = 1) /\ std_redirs c
  | PIPE l r | LIST l r => std_redirs l /\ std_redirs r
  | BACK c => std_redirs c
  end.

Lemma lowest_at t i : t !! i = Some None -> (forall j, (j < i)%nat -> exists d, t !! j = Some (Some d)) -> lowest t = Some i.
Proof.
  revert i. induction t as [|[d|] t IH]; intros i Hi Hj; [done| |].
  - destruct i as [|i]; [done|]. simpl. rewrite (IH i); [done|done|]. intros j Hlt. apply (Hj (S j)). lia.
  - destruct i as [|i]; [done|]. destruct (Hj O) as [d Hd]; [lia|done].
Qed.
Lemma lowest_some t i : lowest t = Some i -> t !! i = Some None /\ forall j, (j < i)%nat -> exists d, t !! j = Some (Some d).
Proof.
  revert i. induction t as [|[d|] t IH]; intros i Hi; simpl in Hi; [done| |].
  - destruct (lowest t) as [k|] eqn:E; [|done]. injection Hi as <-. destruct (IH k eq_refl) as [H1 H2].
    split; [done|]. intros [|j] Hj; [by exists d|]. apply H2. lia.
  - injection Hi as <-. split; [done|]. lia.
Qed.
Lemma lowest_exists t i : t !! i = Some None -> is_Some (lowest t).
Proof.
  revert i. induction t as [|[d|] t IH]; intros i Hi; [done| |by eexists].
  destruct i as [|i]; [done|]. destruct (IH i Hi) as [k E]. simpl. rewrite E. by eexists.
Qed.

(** Closing a standard descriptor and taking the lowest free one. *)
Lemma put_std t fd d : std t -> (fd < 2)%nat -> put d (<[fd := None]> t) = Some (fd, <[fd := Some d]> t).
Proof.
  intros Hs Hfd. unfold put. rewrite (lowest_at _ fd).
  - by rewrite list_insert_insert_eq.
  - destruct (Hs fd) as [d' Hd']; [lia|]. apply list_lookup_insert_eq. by eapply lookup_lt_Some.
  - intros j Hj. destruct (Hs j) as [d' Hd']; [lia|]. exists d'. rewrite list_lookup_insert_ne by lia. done.
Qed.

Lemma std_insert t i d : std t -> std (<[i := Some d]> t).
Proof.
  intros Hs j Hj. destruct (Hs j Hj) as [d' Hd']. destruct (decide (i = j)) as [->|].
  - exists d. apply list_lookup_insert_eq. by eapply lookup_lt_Some.
  - exists d'. by rewrite list_lookup_insert_ne.
Qed.
Lemma two_free_insert t i d : std t -> (i < 3)%nat -> two_free t -> two_free (<[i := Some d]> t).
Proof.
  intros Hs Hi (a & b & Hab & Ha & Hb). destruct (Hs i Hi) as [d' Hd']. exists a, b.
  rewrite !list_lookup_insert_ne by congruence. done.
Qed.

(** The two ends of a pipe. *)
Lemma put_pipe t r w : std t -> two_free t -> exists p0 p1, let t0 := <[p0 := Some r]> t in let t1 := <[p1 := Some w]> t0 in
  put r t = Some (p0, t0) /\ put w t0 = Some (p1, t1) /\ (3 <= p0)%nat /\ (3 <= p1)%nat /\ p0 <> p1 /\
  t !! p0 = Some None /\ t !! p1 = Some None.
Proof.
  intros Hs (i & j & Hij & Hi & Hj). destruct (lowest_exists t i Hi) as [p0 E0]. destruct (lowest_some t p0 E0) as [H0 L0].
  assert (Hge : forall p, t !! p = Some None -> (3 <= p)%nat).
  { intros p Hp. destruct (decide (p < 3)%nat) as [Hl|]; [|lia]. destruct (Hs p Hl). congruence. }
  assert (exists k, k <> p0 /\ t !! k = Some None) as (k & Hk & Hk'); [destruct (decide (i = p0)); [exists j|exists i]; naive_solver|].
  destruct (lowest_exists (<[p0 := Some r]> t) k) as [p1 E1]; [by rewrite list_lookup_insert_ne|].
  destruct (lowest_some _ _ E1) as [H1 _].
  assert (p0 <> p1) as Hne by (intros <-; rewrite list_lookup_insert_eq in H1; [done|by eapply lookup_lt_Some]).
  rewrite list_lookup_insert_ne in H1 by done.
  exists p0, p1. unfold put. rewrite E0, E1. split_and!; auto.
Qed.

(** What a child of the pipe has when it has moved its end to [fd]. *)
Lemma pipe_child t p0 p1 r w fd d p k n can : std t -> (fd < 2)%nat -> (3 <= p0)%nat -> (3 <= p1)%nat -> p0 <> p1 ->
  t !! p0 = Some None -> t !! p1 = Some None -> (p = p0 /\ d = r \/ p = p1 /\ d = w) ->
  run can (Close (Z.of_nat fd) (Dup (Z.of_nat p) (Close (Z.of_nat p0) (Close (Z.of_nat p1) k))))
    (<[p1 := Some w]> (<[p0 := Some r]> t)) n = run can k (<[fd := Some d]> t) n.
Proof.
  intros Hs Hfd H0 H1 Hne L0 L1 Hp. set (t1 := <[p1 := Some w]> (<[p0 := Some r]> t)).
  assert (Hl0 := lookup_lt_Some _ _ _ L0). assert (Hl1 := lookup_lt_Some _ _ _ L1).
  cbn [run]. unfold close at 1 2. rewrite !Nat2Z.id.
  assert (Ep : <[fd := None]> t1 !! p = Some (Some d)).
  { rewrite list_lookup_insert_ne by lia. unfold t1. destruct Hp as [[-> ->]|[-> ->]].
    - rewrite list_lookup_insert_ne, list_lookup_insert_eq by done. done.
    - rewrite list_lookup_insert_eq by (by rewrite length_insert). done. }
  rewrite Ep, (put_std t1 fd d); [|by apply std_insert, std_insert|done]. f_equal. unfold close. rewrite !Nat2Z.id.
  apply list_eq. intros i.
  destruct (decide (i = p1)) as [->|]; [rewrite list_lookup_insert_eq, list_lookup_insert_ne by (unfold t1; rewrite ?length_insert; lia); done|].
  rewrite list_lookup_insert_ne by done.
  destruct (decide (i = p0)) as [->|]; [rewrite list_lookup_insert_eq, list_lookup_insert_ne by (unfold t1; rewrite ?length_insert; lia); done|].
  rewrite list_lookup_insert_ne by done.
  destruct (decide (i = fd)) as [->|]; [|by rewrite !list_lookup_insert_ne by done; unfold t1; rewrite !list_lookup_insert_ne].
  destruct (Hs fd) as [d' Hd']; [lia|]. assert (Hlf := lookup_lt_Some _ _ _ Hd').
  rewrite !list_lookup_insert_eq by (unfold t1; rewrite ?length_insert; done). done.
Qed.

(** C19 The shell runs commands with the right descriptors: the programs that
    [runcmd] starts, in order, are those of the command, each with exactly
    the shell's descriptors, its redirections, and its end of each pipe it is
    part of.  No program keeps another end of a pipe, so readers see the end
    of the file. *)
Theorem runcmd_starts can_open c : forall t n, std_redirs c -> std t -> two_free t ->
  run can_open (runcmd c) t n = started can_open c t n.
Proof.
  induction c as [argv|c IH file mode fd|l IHl r IHr|l IHl r IHr|c IH]; intros t n Hc Hs Hf; simpl in Hc.
  - simpl. by destruct (bool_decide (argv = [])).
  - destruct Hc as [Hfd Hc]. assert (Hz : (Z.to_nat fd < 2)%nat) by (destruct Hfd as [->| ->]; simpl; lia).
    cbn [runcmd run started]. destruct (can_open file mode); [|done]. unfold close.
    rewrite put_std by done. replace (Z.of_nat (Z.to_nat fd) <? 0) with false by lia.
    apply IH; [done|by apply std_insert|apply two_free_insert; [done|lia|done]].
  - destruct Hc as [Hl Hr]. destruct (put_pipe t (DPipeR n) (DPipeW n) Hs Hf) as (p0 & p1 & E0 & E1 & H0 & H1 & Hne & L0 & L1).
    cbn [runcmd run started]. rewrite E0, E1. cbn [fork1 run].
    change (0 =? -1) with false. change (1 =? -1) with false. change (0 =? 0) with true. change (1 =? 0) with false. cbv iota.
    rewrite (pipe_child t p0 p1 _ _ 1 (DPipeW n) p1) by (auto; lia).
    rewrite IHl by (try apply std_insert; try apply two_free_insert; auto; lia).
    destruct (started can_open l _ _) as [e1 n1]. cbn [fork1 run].
    change (0 =? -1) with false. change (1 =? -1) with false. change (0 =? 0) with true. change (1 =? 0) with false. cbv iota.
    rewrite (pipe_child t p0 p1 _ _ 0 (DPipeR n) p0) by (auto; lia).
    rewrite IHr by (try apply std_insert; try apply two_free_insert; auto; lia).
    destruct (started can_open r _ _) as [e2 n2]. cbn [run]. by rewrite app_nil_r.
  - destruct Hc as [Hl Hr]. cbn [runcmd fork1 run started]. simpl Z.eqb. cbv iota. rewrite IHl by done.
    destruct (started can_open l t n) as [e1 n1]. cbn [run]. by rewrite IHr.
  - cbn [runcmd fork1 run started]. simpl Z.eqb. cbv iota. rewrite IH by done.
    destruct (started can_open c t n) as [e1 n1]. cbn [run]. by rewrite app_nil_r.
Qed.

Definition console : fdtab := Some (DOther 0) :: Some (DOther 0) :: Some (DOther 0) :: replicate 13 None.

(** [a | b > f]. *)
Lemma runcmd_starts_witness :
  run (fun _ _ => true) (runcmd (PIPE (EXEC [[97]]) (REDIR (EXEC [[98]]) [102] 0x201 1))) console 7 =
  ([([[97]], <[1%nat := Some (DPipeW 7)]> console);
    ([[98]], <[1%nat := Some (DFile [102] 0x201)]> (<[0%nat := Some (DPipeR 7)]> console))], 8%nat).
Proof.
  rewrite (runcmd_starts (fun _ _ => true) (PIPE (EXEC [[97]]) (REDIR (EXEC [[98]]) [102] 0x201 1)) console 7).
  - done.
  - by simpl; auto.
  - intros i Hi. exists (DOther 0). by destruct i as [|[|[|i]]]; [..|lia].
  - by exists 3%nat, 4%nat.
Defined.

(** [main] removes the last byte of a [cd] line as its newline; on the last
    line of an input without one it removes a byte of the directory. *)
Theorem cd_chops : main 2 [99; 100; 32; 120; 121] = [Chdir [120]].
Proof. done. Qed.
End ShRun.
