(* ===== verification/Kernel.v ===== *)
(** * The kernel state and the arguments of system calls (file.h, pipe.c,
    trap.c: data; syscall.c: fetchint, fetchstr, argint, argptr, argstr)

    The file system's state, which contains the processes, the locks and the
    disk, with the memory allocator and physical memory, the table of open
    files, the pipes and the clock.  The routines of the layers below run on
    their part of it. *)

From S2P Require Import Prelude Params CString Spinlock Sched Bio Log Fs Kalloc Vm VmMap VmUser.

Definition NFILE : nat := 100.
Definition PIPESIZE : Z := 512.
Definition MAXARG : nat := 32.

(** ** Data *)

Inductive ftype := FD_NONE | FD_PIPE | FD_INODE.
#[global] Instance ftype_eq_dec : EqDecision ftype.
Proof. solve_decision. Defined.

(** [struct file]; [f_pipe] is the address of the pipe. *)
Record file := File {
  f_type : ftype; f_ref : Z; f_readable : bool; f_writable : bool;
  f_pipe : Z; f_ip : nat; f_off : Z }.

(** [struct pipe], without its lock. *)
Record pipe := Pipe {
  p_data : list Z; nread : Z; nwrite : Z; readopen : bool; writeopen : bool }.

Record kern_st := Kern {
  kfs : fs_st;
  kuse_lock : bool; kfreelist : Z; ram : mem;   (** [kmem] and physical memory *)
  files : list file;                            (** [ftable.file] *)
  pipes : Z -> pipe;                            (** the pipe in the page at an address *)
  ticks : Z }.

Definition set_kfs x s := Kern x (kuse_lock s) (kfreelist s) (ram s) (files s) (pipes s) (ticks s).
Definition set_ram x s := Kern (kfs s) (kuse_lock s) (kfreelist s) x (files s) (pipes s) (ticks s).
Definition set_files x s := Kern (kfs s) (kuse_lock s) (kfreelist s) (ram s) x (pipes s) (ticks s).
Definition set_pipes x s := Kern (kfs s) (kuse_lock s) (kfreelist s) (ram s) (files s) x (ticks s).
Definition set_ticks x s := Kern (kfs s) (kuse_lock s) (kfreelist s) (ram s) (files s) (pipes s) x.

(** ** Parts of the state *)

Definition sched_of (s : kern_st) : sched_st := bsched (lbio (flog (kfs s))).
Definition set_sched (x : sched_st) (s : kern_st) : kern_st :=
  set_kfs (lset flog_lens (lset lbio_lens (lset bsched_lens x (lbio (flog (kfs s)))) (flog (kfs s))) (kfs s)) s.

Definition kfs_lens : lens kern_st fs_st := Lens kfs set_kfs.
Definition ksched_lens : lens kern_st sched_st := Lens sched_of set_sched.
Definition kmem_lens : lens kern_st kmem_st :=
  Lens (fun s => KmemSt (mach (sched_of s)) (kuse_lock s) (kfreelist s) (ram s))
       (fun k s => let s := set_sched (lset mach_lens (kmach k) (sched_of s)) s in
          Kern (kfs s) (use_lock k) (freelist k) (kram k) (files s) (pipes s) (ticks s)).

#[global] Instance kfs_lens_ok : LensOk kfs_lens.
Proof. split; [done|done|by intros []]. Qed.
#[global] Instance ksched_lens_ok : LensOk ksched_lens.
Proof. split; [done|done|by intros [[[[]]]]]. Qed.
#[global] Instance kmem_lens_ok : LensOk kmem_lens.
Proof. split; [by intros []|done|by intros [[[[[]]]]]]. Qed.

Definition on_fs {A} (m : M fs_st A) : M kern_st A := lift kfs_lens m.
Definition on_sched {A} (m : M sched_st A) : M kern_st A := lift ksched_lens m.
Definition on_mem {A} (m : M kmem_st A) : M kern_st A := lift kmem_lens m.
Definition kacquire (l : lockid) : M kern_st unit := on_sched (Sched.acquire l).
Definition krelease (l : lockid) : M kern_st unit := on_sched (Sched.release l).
Definition kwakeup (c : chan) : M kern_st unit := on_sched (Sched.wakeup c).
Definition ksleep (c : chan) (l : lockid) : M kern_st unit := on_sched (Sched.sleep c (Some l)).

(** ** The current process *)

Definition cur_proc (s : sched_st) : option proc := i ← curproc s; procs s !! i.
(** [proc]; a null pointer faults in the kernel. *)
Definition myproc : M kern_st proc :=
  o ← gets (fun s => cur_proc (sched_of s));
  match (o : option proc) with Some p => mret p | None => panic "trap" end.
Definition upd_proc (i : nat) (f : proc -> proc) : M kern_st unit :=
  on_sched (modify (fun s => set_procs (alter f i (procs s)) s)).
Definition upd_myproc (f : proc -> proc) : M kern_st unit := on_sched (upd_cur f).

Definition set_sz x p := Proc x (pgdir p) (kstack p) (state p) (pid p) (parent p) (tf p) (p_context p)
  (pchan p) (killed p) (ofile p) (cwd p) (pname p).
Definition set_pgdir x p := Proc (sz p) x (kstack p) (state p) (pid p) (parent p) (tf p) (p_context p)
  (pchan p) (killed p) (ofile p) (cwd p) (pname p).
Definition set_kstack x p := Proc (sz p) (pgdir p) x (state p) (pid p) (parent p) (tf p) (p_context p)
  (pchan p) (killed p) (ofile p) (cwd p) (pname p).
Definition set_pid x p := Proc (sz p) (pgdir p) (kstack p) (state p) x (parent p) (tf p) (p_context p)
  (pchan p) (killed p) (ofile p) (cwd p) (pname p).
Definition set_parent x p := Proc (sz p) (pgdir p) (kstack p) (state p) (pid p) x (tf p) (p_context p)
  (pchan p) (killed p) (ofile p) (cwd p) (pname p).
Definition set_tf x p := Proc (sz p) (pgdir p) (kstack p) (state p) (pid p) (parent p) x (p_context p)
  (pchan p) (killed p) (ofile p) (cwd p) (pname p).
Definition set_context x p := Proc (sz p) (pgdir p) (kstack p) (state p) (pid p) (parent p) (tf p) x
  (pchan p) (killed p) (ofile p) (cwd p) (pname p).
Definition set_ofile x p := Proc (sz p) (pgdir p) (kstack p) (state p) (pid p) (parent p) (tf p) (p_context p)
  (pchan p) (killed p) x (cwd p) (pname p).
Definition set_cwd x p := Proc (sz p) (pgdir p) (kstack p) (state p) (pid p) (parent p) (tf p) (p_context p)
  (pchan p) (killed p) (ofile p) x (pname p).
Definition set_pname x p := Proc (sz p) (pgdir p) (kstack p) (state p) (pid p) (parent p) (tf p) (p_context p)
  (pchan p) (killed p) (ofile p) (cwd p) x.

(** ** User memory

    The kernel runs on the page table of the current process and uses user
    addresses directly; an address without a mapping faults, and a fault in
    the kernel is a panic in [trap]. *)

Definition uaddr (va : Z) : M kern_st Z :=
  p ← myproc;
  m ← gets ram;
  match mmu m (pgdir p) va with
  | Some e => mret (frame e + va mod 4096)
  | None => panic "trap"
  end.

Definition uload8 (va : Z) : M kern_st Z :=
  a ← uaddr va; m ← gets ram; mret (m a).
Fixpoint uload (va : Z) (n : nat) : M kern_st (list Z) :=
  match n with
  | O => mret []
  | S n => b ← uload8 va; l ← uload (va + 1) n; mret (b :: l)
  end.
Definition ustore8 (va b : Z) : M kern_st unit :=
  a ← uaddr va; modify (fun s => set_ram (upd (ram s) a b) s).
Fixpoint ustore (va : Z) (l : list Z) : M kern_st unit :=
  match l with
  | [] => mret ()
  | b :: l => ustore8 va b ;; ustore (va + 1) l
  end.
Definition uload32 (va : Z) : M kern_st Z := l ← uload va 4; mret (le_val l).

(** ** Arguments of system calls (syscall.c)

    [None] is the result -1. *)

Definition fetchint (addr : Z) : M kern_st (option Z) :=
  p ← myproc;
  if (sz p <=? addr) || (sz p <? u32 (addr + 4)) then mret None
  else w ← uload32 addr; mret (Some (s32 w)).

(** The scan for the NUL: the bytes of the string. *)
Fixpoint fetchstr_loop (fuel : nat) (s ep : Z) : M kern_st (option (list Z)) :=
  match fuel with
  | O => mret None
  | S fuel =>
      if negb (s <? ep) then mret None
      else
        b ← uload8 s;
        if b =? 0 then mret (Some [])
        else r ← fetchstr_loop fuel (s + 1) ep;
             mret (match (r : option (list Z)) with Some l => Some (b :: l) | None => None end)
  end.
(** The string at [addr], which the code passes on as a pointer. *)
Definition fetchstr (addr : Z) : M kern_st (option (list Z)) :=
  p ← myproc;
  if sz p <=? addr then mret None
  else fetchstr_loop (S (Z.to_nat (sz p - addr))) addr (sz p).

Definition argint (n : Z) : M kern_st (option Z) :=
  p ← myproc; fetchint (u32 (tf_esp (tf p) + 4 + 4 * n)).

Definition argptr (n size : Z) : M kern_st (option Z) :=
  r ← argint n;
  match (r : option Z) with
  | None => mret None
  | Some i =>
      p ← myproc;
      if (sz p <=? u32 i) || (sz p <? u32 (u32 i + size)) then mret None
      else mret (Some (u32 i))
  end.

Definition argstr (n : Z) : M kern_st (option (list Z)) :=
  r ← argint n;
  match (r : option Z) with
  | None => mret None
  | Some addr => fetchstr (u32 addr)
  end.

(** ** Laws *)

Section laws.
Context (ie : bool).

Lemma wp_kacquire L l s : locked_by ie L (sched_of s) -> l ∉ L -> Z.of_nat (length L) < 1000 ->
  wp (kacquire l) (fun _ s' => exists x, s' = set_sched x s /\ locked_by ie (l :: L) x /\ same_procs (sched_of s) x) s.
Proof.
  intros HL Hl Hn. apply wp_lift. eapply wp_mono; [by apply (Sched.wp_acquire ie L l)|]. intros _ x [H1 H2]. by exists x.
Qed.
Lemma wp_krelease L l s : locked_by ie (l :: L) (sched_of s) ->
  wp (krelease l) (fun _ s' => exists x, s' = set_sched x s /\ locked_by ie L x /\ same_procs (sched_of s) x) s.
Proof.
  intros HL. apply wp_lift. eapply wp_mono; [by apply (Sched.wp_release_hd ie L l)|]. intros _ x [H1 H2]. by exists x.
Qed.
Lemma wp_kwakeup L c s : locked_by ie L (sched_of s) -> Lptable ∉ L -> Z.of_nat (length L) < 1000 ->
  wp (kwakeup c) (fun _ s' => exists x, s' = set_sched x s /\ locked_by ie L x /\ woken c (sched_of s) x) s.
Proof.
  intros HL Hl Hn. apply wp_lift. eapply wp_mono; [by apply (Sched.wp_wakeup ie L c)|]. intros _ x [H1 H2]. by exists x.
Qed.
Lemma runs_ksleep c l s i p Q : locked_by ie [l] (sched_of s) -> curproc (sched_of s) = Some i ->
  procs (sched_of s) !! i = Some p ->
  runs (ksleep c l) Q (fun s' => exists x, s' = set_sched x s /\ locked_by ie [Lptable] x /\
    procs x = alter (asleep c) i (procs (sched_of s)) /\ curproc x = Some i) s.
Proof.
  intros HL Hc Hp. apply runs_lift. destruct (Sched.sleep_blocks ie c l (sched_of s) i p HL Hc Hp) as (x & E & H1 & H2 & H3).
  unfold runs. simpl. rewrite E. by exists x.
Qed.
End laws.

Lemma wp_myproc (Q : proc -> kern_st -> Prop) p s : cur_proc (sched_of s) = Some p -> Q p s -> wp myproc Q s.
Proof. intros Hp HQ. unfold myproc. apply wp_bind, wp_gets. by rewrite Hp. Qed.

Lemma sched_of_set x s : sched_of (set_sched x s) = x.
Proof. done. Qed.

Lemma cur_proc_same s x : same_procs s x -> cur_proc x = cur_proc s.
Proof. intros (H1 & H2 & _). unfold cur_proc. by rewrite H1, H2. Qed.
