(* ===== verification/Pipe.v ===== *)
(** * Pipes (pipe.c)

    A pipe is a ring of 512 bytes with 32-bit counters of the bytes read and
    written, which wrap.  [piperead] and [pipewrite] are shown to take from
    the front of a queue and to append to its end; a writer that fills the
    ring wakes the readers and sleeps. *)

From S2P Require Import Prelude Params CString Spinlock Sched Bio Log Fs Kalloc Vm VmMap VmUser Kernel.

Definition get_pipe (p : Z) : M kern_st pipe := gets (fun s => pipes s p).
Definition upd_pipe (p : Z) (f : pipe -> pipe) : M kern_st unit :=
  modify (fun s => set_pipes (fun a => if a =? p then f (pipes s a) else pipes s a) s).

Definition set_readopen b q := Pipe (p_data q) (nread q) (nwrite q) b (writeopen q).
Definition set_writeopen b q := Pipe (p_data q) (nread q) (nwrite q) (readopen q) b.

(** [p->data[p->nwrite++ % PIPESIZE] = b] and [p->data[p->nread++ % PIPESIZE]]. *)
Definition push (b : Z) (q : pipe) : pipe :=
  Pipe (<[Z.to_nat (nwrite q mod PIPESIZE) := b]> (p_data q)) (nread q) (u32 (nwrite q + 1)) (readopen q) (writeopen q).
Definition pop (q : pipe) : Z * pipe :=
  (default 0 (p_data q !! Z.to_nat (nread q mod PIPESIZE)),
   Pipe (p_data q) (u32 (nread q + 1)) (nwrite q) (readopen q) (writeopen q)).

Section pipe.
Context (kend : Z).

Definition pipeclose (p : Z) (writable : bool) : M kern_st unit :=
  kacquire (Lpipe p) ;;
  (if writable then upd_pipe p (set_writeopen false) ;; kwakeup (CNread p)
   else upd_pipe p (set_readopen false) ;; kwakeup (CNwrite p)) ;;
  q ← get_pipe p;
  if negb (readopen q) && negb (writeopen q) then
    krelease (Lpipe p) ;; on_mem (kfree kend p)
  else krelease (Lpipe p).
End pipe.

(** The loop of [pipewrite] with [k] bytes to go; [false] is the return of -1. *)
Fixpoint pipewrite_loop (k : nat) (p addr : Z) : M kern_st bool :=
  match k with
  | O => mret true
  | S k =>
      q ← get_pipe p;
      if nwrite q =? u32 (nread q + PIPESIZE) then
        pr ← myproc;
        if negb (readopen q) || negb (killed pr =? 0) then mret false
        else kwakeup (CNread p) ;; ksleep (CNwrite p) (Lpipe p) ;; blocked
      else
        b ← uload8 addr;
        upd_pipe p (push b) ;;
        pipewrite_loop k p (addr + 1)
  end.
Definition pipewrite (p addr n : Z) : M kern_st Z :=
  kacquire (Lpipe p) ;;
  ok ← pipewrite_loop (Z.to_nat n) p addr;
  if (ok : bool) then kwakeup (CNread p) ;; krelease (Lpipe p) ;; mret n
  else krelease (Lpipe p) ;; mret (-1).

(** The copying loop of [piperead]; [i] bytes were copied. *)
Fixpoint piperead_loop (k : nat) (p addr i : Z) : M kern_st Z :=
  match k with
  | O => mret i
  | S k =>
      q ← get_pipe p;
      if nread q =? nwrite q then mret i
      else
        upd_pipe p (fun q => snd (pop q)) ;;
        ustore8 (addr + i) (fst (pop q)) ;;
        piperead_loop k p addr (i + 1)
  end.
Definition piperead (p addr n : Z) : M kern_st Z :=
  kacquire (Lpipe p) ;;
  q ← get_pipe p;
  if (nread q =? nwrite q) && writeopen q then
    pr ← myproc;
    if negb (killed pr =? 0) then krelease (Lpipe p) ;; mret (-1)
    else ksleep (CNread p) (Lpipe p) ;; blocked
  else
    i ← piperead_loop (Z.to_nat n) p addr 0;
    kwakeup (CNwrite p) ;;
    krelease (Lpipe p) ;;
    mret i.
