(* ===== verification/FileC.v ===== *)
(** * Open files (file.c, and pipealloc of pipe.c)

    The table of open files with its reference counts.  Reading and writing
    dispatch on the kind of file; writes to inodes are cut into transactions
    that fit the log. *)

From S2P Require Import Prelude Params CString Spinlock Sched Bio Log Fs Kalloc Vm VmMap VmUser Kernel Pipe.

Definition upd_file (f : nat) (g : file -> file) : M kern_st unit :=
  modify (fun s => set_files (alter g f (files s)) s).
(** [*f]; the pointer is an index that the kernel obtained from the table. *)
Definition get_file (f : nat) : M kern_st file :=
  o ← gets (fun s => files s !! f);
  match (o : option file) with Some x => mret x | None => panic "trap" end.

Definition set_f_ref x f := File (f_type f) x (f_readable f) (f_writable f) (f_pipe f) (f_ip f) (f_off f).
Definition set_f_type x f := File x (f_ref f) (f_readable f) (f_writable f) (f_pipe f) (f_ip f) (f_off f).
Definition set_f_off x f := File (f_type f) (f_ref f) (f_readable f) (f_writable f) (f_pipe f) (f_ip f) x.

(** An index for a new file: the first one without references. *)
Definition filealloc : M kern_st (option nat) :=
  kacquire Lftable ;;
  l ← gets files;
  match list_find (fun f => f_ref f = 0) l with
  | Some (i, _) => upd_file i (set_f_ref 1) ;; krelease Lftable ;; mret (Some i)
  | None => krelease Lftable ;; mret None
  end.

Definition filedup (f : nat) : M kern_st nat :=
  kacquire Lftable ;;
  x ← get_file f;
  if f_ref x <? 1 then panic "filedup"
  else upd_file f (fun x => set_f_ref (s32 (f_ref x + 1)) x) ;; krelease Lftable ;; mret f.

Section filec.
Context (kend : Z).
Context (dev_read : Z -> option (nat -> Z -> M fs_st (Z * list Z))).
Context (dev_write : Z -> option (nat -> list Z -> M fs_st Z)).

Definition fileclose (f : nat) : M kern_st unit :=
  kacquire Lftable ;;
  x ← get_file f;
  if f_ref x <? 1 then panic "fileclose"
  else
    upd_file f (set_f_ref (f_ref x - 1)) ;;
    if 0 <? f_ref x - 1 then krelease Lftable
    else
      ff ← get_file f;
      upd_file f (fun x => set_f_type FD_NONE (set_f_ref 0 x)) ;;
      krelease Lftable ;;
      match f_type ff with
      | FD_PIPE => pipeclose kend (f_pipe ff) (f_writable ff)
      | FD_INODE => on_fs fs_begin_op ;; on_fs (iput (f_ip ff)) ;; on_fs fs_end_op
      | FD_NONE => mret ()
      end.

Definition filestat (f : nat) : M kern_st (option stat) :=
  x ← get_file f;
  match f_type x with
  | FD_INODE =>
      on_fs (ilock (f_ip x)) ;;
      st ← on_fs (stati (f_ip x));
      on_fs (iunlock (f_ip x)) ;;
      mret (Some st)
  | _ => mret None
  end.

(** [readi] fills the user buffer; the bytes are stored before the inode is
    unlocked. *)
Definition fileread (f : nat) (addr n : Z) : M kern_st Z :=
  x ← get_file f;
  if negb (f_readable x) then mret (-1)
  else match f_type x with
  | FD_PIPE => piperead (f_pipe x) addr n
  | FD_INODE =>
      on_fs (ilock (f_ip x)) ;;
      '(r, l) ← on_fs (readi dev_read (f_ip x) (f_off x) (u32 n));
      ustore addr l ;;
      when (0 <? r) (upd_file f (fun x => set_f_off (u32 (f_off x + r)) x)) ;;
      on_fs (iunlock (f_ip x)) ;;
      mret r
  | FD_NONE => panic "fileread"
  end.

(** [((LOGSIZE-1-1-2) / 2) * 512]. *)
Definition filewrite_max : Z := (Z.of_nat LOGSIZE - 1 - 1 - 2) / 2 * 512.

(** The loop of [filewrite]: the value of [i] at its end. *)
Fixpoint filewrite_loop (fuel f : nat) (addr n i : Z) : M kern_st Z :=
  match fuel with
  | O => mret i
  | S fuel =>
      if negb (i <? n) then mret i
      else
        let n1 := if filewrite_max <? n - i then filewrite_max else n - i in
        x ← get_file f;
        on_fs fs_begin_op ;;
        on_fs (ilock (f_ip x)) ;;
        src ← uload (addr + i) (Z.to_nat n1);
        r ← on_fs (writei dev_write (f_ip x) src (f_off x));
        when (0 <? r) (upd_file f (fun x => set_f_off (u32 (f_off x + r)) x)) ;;
        on_fs (iunlock (f_ip x)) ;;
        on_fs fs_end_op ;;
        if r <? 0 then mret i
        else if negb (r =? n1) then panic "short filewrite"
        else filewrite_loop fuel f addr n (i + r)
  end.
Definition filewrite (f : nat) (addr n : Z) : M kern_st Z :=
  x ← get_file f;
  if negb (f_writable x) then mret (-1)
  else match f_type x with
  | FD_PIPE => pipewrite (f_pipe x) addr n
  | FD_INODE =>
      i ← filewrite_loop (S (Z.to_nat (n / filewrite_max + 1))) f addr n 0;
      mret (if i =? n then n else -1)
  | FD_NONE => panic "filewrite"
  end.

(** [pipealloc]: the files of the two ends.  The ring keeps the bytes of the
    page; its first byte is behind the 52 bytes of the lock. *)
Definition new_pipe (m : mem) (p : Z) : pipe := Pipe (loadn m (p + 52) (Z.to_nat PIPESIZE)) 0 0 true true.
Definition close_some (o : option nat) : M kern_st unit :=
  match o with Some f => fileclose f | None => mret () end.
Definition pipealloc : M kern_st (option (nat * nat)) :=
  f0 ← filealloc;
  f1 ← (match (f0 : option nat) with Some _ => filealloc | None => mret None end);
  match f0, (f1 : option nat) with
  | Some a, Some b =>
      p ← on_mem kalloc;
      if p =? 0 then close_some f0 ;; close_some f1 ;; mret None
      else
        modify (fun s => set_pipes (fun x => if x =? p then new_pipe (ram s) p else pipes s x) s) ;;
        on_sched (modify (fun s => lset mach_lens
          (upd_lock (Lpipe p) (Spinlock.initlock "pipe" (locks (mach s) (Lpipe p))) (mach s)) s)) ;;
        upd_file a (fun x => File FD_PIPE (f_ref x) true false p (f_ip x) (f_off x)) ;;
        upd_file b (fun x => File FD_PIPE (f_ref x) false true p (f_ip x) (f_off x)) ;;
        mret (Some (a, b))
  | _, _ => close_some f0 ;; close_some f1 ;; mret None
  end.
End filec.
