(* ===== verification/ProcC.v ===== *)
(** * Processes (proc.c; vm.c: switchuvm)

    Creation, growth, exit and reaping of processes, and the scheduler's
    choice.  The addresses of [forkret], of the kernel's end and data and the
    bytes of [initcode] come from the linker and are parameters. *)

From S2P Require Import Prelude Params CString Spinlock Sched Bio Log Fs Kalloc Vm VmMap VmUser Kernel Pipe FileC.

Definition set_eax x t := Trapframe (tf_edi t) (tf_esi t) (tf_ebp t) (tf_oesp t) (tf_ebx t) (tf_edx t)
  (tf_ecx t) x (tf_gs t) (tf_fs t) (tf_es t) (tf_ds t) (tf_trapno t) (tf_err t) (tf_eip t) (tf_cs t)
  (tf_eflags t) (tf_esp t) (tf_ss t).

(** [safestrcpy(dst, src, n)] on the bytes of a buffer and of a string. *)
Definition safestrcpy_l (dst src : list Z) (n : nat) : list Z :=
  let t := str_take (n - 1) src in t ++ 0 :: drop (S (length t)) dst.

(** Loading the task register and [cr3]: the address space in use is the one
    of the current process. *)
Definition switchuvm (p : proc) : M kern_st unit :=
  on_sched (lift mach_lens (modify (fun m => set_mcpu (pushcli (mcpu m)) m))) ;;
  if pgdir p =? 0 then panic "switchuvm: no pgdir"
  else
    c ← gets (fun s => popcli (mcpu (mach (sched_of s))));
    match (c : string + cpu) with
    | inl msg => panic msg
    | inr c => on_sched (lift mach_lens (modify (set_mcpu c)))
    end.

Definition get_proc (i : nat) : M kern_st proc :=
  o ← gets (fun s => procs (sched_of s) !! i);
  match (o : option proc) with Some p => mret p | None => panic "trap" end.

Definition pinit : M kern_st unit :=
  on_sched (modify (fun s => lset mach_lens
    (upd_lock Lptable (Spinlock.initlock "ptable" (locks (mach s) Lptable)) (mach s)) s)).

Section procc.
Context (kend kdata forkret : Z) (initcode : list Z).
Context (dev_read : Z -> option (nat -> Z -> M fs_st (Z * list Z))).

Definition new_context : context := Context_ 0 0 0 0 forkret.

(** The index of the new process; [None] is the null pointer. *)
Definition allocproc : M kern_st (option nat) :=
  kacquire Lptable ;;
  ps ← gets (fun s => procs (sched_of s));
  match list_find (fun p => state p = UNUSED) ps with
  | None => krelease Lptable ;; mret None
  | Some (i, _) =>
      upd_proc i (set_state EMBRYO) ;;
      n ← gets (fun s => nextpid (sched_of s));
      upd_proc i (set_pid n) ;;
      on_sched (modify (fun s => SchedSt (mach s) (procs s) (curproc s) (s32 (n + 1)) (initproc s))) ;;
      krelease Lptable ;;
      k ← on_mem kalloc;
      upd_proc i (set_kstack k) ;;
      if k =? 0 then upd_proc i (set_state UNUSED) ;; mret None
      else upd_proc i (set_context new_context) ;; mret (Some i)
  end.

Definition user_tf : trapframe :=
  let ds := Z.lor (Z.shiftl SEG_UDATA 3) DPL_USER in
  Trapframe 0 0 0 0 0 0 0 0 0 0 ds ds 0 0 0 (Z.lor (Z.shiftl SEG_UCODE 3) DPL_USER) FL_IF PGSIZE ds.

Definition userinit : M kern_st unit :=
  o ← allocproc;
  match (o : option nat) with
  | None => panic "trap"
  | Some i =>
      on_sched (modify (fun s => SchedSt (mach s) (procs s) (curproc s) (nextpid s) (Some i))) ;;
      d ← on_mem (setupkvm kdata);
      upd_proc i (set_pgdir d) ;;
      if d =? 0 then panic "userinit: out of memory?"
      else
        on_mem (inituvm d initcode) ;;
        upd_proc i (set_sz PGSIZE) ;;
        upd_proc i (set_tf user_tf) ;;
        upd_proc i (fun p => set_pname (safestrcpy_l (pname p) [105; 110; 105; 116; 99; 111; 100; 101] 16) p) ;;
        c ← on_fs (namei dev_read [47]);
        upd_proc i (set_cwd c) ;;
        upd_proc i (set_state RUNNABLE)
  end.

Definition growproc (n : Z) : M kern_st Z :=
  p ← myproc;
  r ← (if 0 <? n then on_mem (allocuvm kend (pgdir p) (sz p) (u32 (sz p + n)))
       else if n <? 0 then on_mem (deallocuvm kend (pgdir p) (sz p) (u32 (sz p + n)))
       else mret (sz p));
  if negb (n =? 0) && (r =? 0) then mret (-1)
  else
    upd_myproc (set_sz r) ;;
    p ← myproc;
    switchuvm p ;;
    mret 0.

(** The loop of [fork] over the descriptors. *)
Fixpoint fork_files (fuel fd np : nat) : M kern_st unit :=
  match fuel with
  | O => mret ()
  | S fuel =>
      p ← myproc;
      match mjoin (ofile p !! fd) with
      | Some f => g ← filedup f; upd_proc np (fun q => set_ofile (<[fd := Some g]> (ofile q)) q)
      | None => mret ()
      end ;;
      fork_files fuel (S fd) np
  end.

Definition fork : M kern_st Z :=
  o ← allocproc;
  match (o : option nat) with
  | None => mret (-1)
  | Some np =>
      p ← myproc;
      d ← on_mem (copyuvm kend kdata (pgdir p) (sz p));
      upd_proc np (set_pgdir d) ;;
      if d =? 0 then
        q ← get_proc np;
        on_mem (kfree kend (kstack q)) ;;
        upd_proc np (set_kstack 0) ;;
        upd_proc np (set_state UNUSED) ;;
        mret (-1)
      else
        me ← gets (fun s => curproc (sched_of s));
        upd_proc np (fun q => set_tf (set_eax 0 (tf p)) (set_parent me (set_sz (sz p) q))) ;;
        fork_files NOFILE 0 np ;;
        match cwd p with
        | None => panic "trap"
        | Some ip => c ← on_fs (idup ip); upd_proc np (set_cwd (Some c))
        end ;;
        upd_proc np (fun q => set_pname (safestrcpy_l (pname q) (pname p) 16) q) ;;
        q ← get_proc np;
        kacquire Lptable ;;
        upd_proc np (set_state RUNNABLE) ;;
        krelease Lptable ;;
        mret (pid q)
  end.

(** The loop of [exit] over the descriptors. *)
Fixpoint exit_files (fuel fd : nat) : M kern_st unit :=
  match fuel with
  | O => mret ()
  | S fuel =>
      p ← myproc;
      match mjoin (ofile p !! fd) with
      | Some f => fileclose kend f ;; upd_myproc (fun q => set_ofile (<[fd := None]> (ofile q)) q)
      | None => mret ()
      end ;;
      exit_files fuel (S fd)
  end.

(** [exit] up to the first lock: files, then the current directory. *)
Definition exit_close : M kern_st unit :=
  exit_files NOFILE 0 ;;
  p ← myproc;
  on_fs fs_begin_op ;;
  match cwd p with Some ip => on_fs (iput ip) | None => panic "trap" end ;;
  on_fs fs_end_op ;;
  upd_myproc (set_cwd None).

(** The loop of [exit] over the process table: children of [me] go to [init],
    which is woken for a zombie. *)
Fixpoint reparent (n i me : nat) (init : option nat) : M sched_st unit :=
  match n with
  | O => mret ()
  | S n =>
      o ← gets (fun s => procs s !! i);
      match (o : option proc) with
      | Some p =>
          when (bool_decide (parent p = Some me))
            (modify (fun s => set_procs (alter (set_parent init) i (procs s)) s) ;;
             when (bool_decide (state p = ZOMBIE)) (wakeup1 (match init with Some k => CProc k | None => CNull end)))
      | None => mret ()
      end ;;
      reparent n (S i) me init
  end.

Definition exit_sched (me : nat) (par : option nat) : M sched_st unit :=
  Sched.acquire Lptable ;;
  wakeup1 (match par with Some k => CProc k | None => CNull end) ;;
  n ← gets (fun s => length (procs s));
  init ← gets initproc;
  reparent n 0 me init ;;
  upd_cur (set_state ZOMBIE) ;;
  sched ;;
  panic "zombie exit".

Definition exit : M kern_st unit :=
  me ← gets (fun s => curproc (sched_of s));
  init ← gets (fun s => initproc (sched_of s));
  if bool_decide (me = init) then panic "init exiting"
  else match (me : option nat) with
  | None => panic "trap"
  | Some me =>
      exit_close ;;
      p ← myproc;
      on_sched (exit_sched me (parent p))
  end.

(** A zombie's entry after [wait]. *)
Definition reaped (p : proc) : proc :=
  Proc (sz p) (pgdir p) 0 UNUSED 0 None (tf p) (p_context p) (pchan p) 0 (ofile p) (cwd p) (<[0%nat := 0]> (pname p)).

(** One scan of [wait]'s loop: the first zombie child, else whether there are
    children. *)
Definition wait : M kern_st Z :=
  kacquire Lptable ;;
  me ← gets (fun s => curproc (sched_of s));
  ps ← gets (fun s => procs (sched_of s));
  match list_find (fun p => parent p = me /\ state p = ZOMBIE) ps with
  | Some (i, p) =>
      on_mem (kfree kend (kstack p)) ;;
      on_mem (freevm kend (pgdir p)) ;;
      upd_proc i reaped ;;
      krelease Lptable ;;
      mret (pid p)
  | None =>
      p ← myproc;
      if negb (existsb (fun p => bool_decide (parent p = me)) ps) || negb (killed p =? 0) then
        krelease Lptable ;; mret (-1)
      else
        match (me : option nat) with
        | Some me => ksleep (CProc me) Lptable ;; blocked
        | None => panic "trap"
        end
  end.

(** The scheduler's scan from entry [i] on: the next runnable process is made
    the current one; [None] at the end of the table. *)
Fixpoint scheduler_from (fuel i : nat) : M kern_st (option nat) :=
  match fuel with
  | O => mret None
  | S fuel =>
      o ← gets (fun s => procs (sched_of s) !! i);
      match (o : option proc) with
      | None => mret None
      | Some p =>
          if negb (bool_decide (state p = RUNNABLE)) then scheduler_from fuel (S i)
          else
            on_sched (modify (fun s => SchedSt (mach s) (procs s) (Some i) (nextpid s) (initproc s))) ;;
            switchuvm p ;;
            upd_proc i (set_state RUNNING) ;;
            mret (Some i)
      end
  end.
(** [proc = 0] when the process has switched back. *)
Definition scheduler_back : M kern_st unit :=
  on_sched (modify (fun s => SchedSt (mach s) (procs s) None (nextpid s) (initproc s))).

(** A process's first steps in the kernel; [first] is the static variable. *)
Definition forkret_ (first : bool) : M kern_st bool :=
  krelease Lptable ;;
  when first (on_fs (iinit ROOTDEV) ;; on_fs (lift flog_lens (initlog ROOTDEV))) ;;
  mret false.
End procc.
