(* ===== verification/Exec.v ===== *)
(** * Program execution (exec.c; vm.c: loaduvm; elf.h)

    [exec] reads an ELF file through the file system, builds a new address
    space, pushes the arguments and commits, or leaves the process as it
    was. *)

From S2P Require Import Prelude Params CString Spinlock Sched Bio Log Fs Kalloc Vm VmMap VmUser Kernel Pipe FileC ProcC.

Definition ELF_PROG_LOAD : Z := 1.

(** [struct elfhdr] (52 bytes) and [struct proghdr] (32 bytes): the fields
    that are used. *)
Record elfhdr := Elfhdr { e_magic : Z; e_entry : Z; e_phoff : Z; e_phnum : Z }.
Definition decode_elfhdr (l : list Z) : elfhdr :=
  Elfhdr (le_val (slice 0 4 l)) (le_val (slice 24 4 l)) (le_val (slice 28 4 l)) (le_val (slice 44 2 l)).
Record proghdr := Proghdr { ph_type : Z; ph_off : Z; ph_vaddr : Z; ph_filesz : Z; ph_memsz : Z }.
Definition decode_proghdr (l : list Z) : proghdr :=
  Proghdr (le_val (slice 0 4 l)) (le_val (slice 4 4 l)) (le_val (slice 8 4 l)) (le_val (slice 16 4 l)) (le_val (slice 20 4 l)).

Section exec.
Context (kend kdata : Z).
(** The bytes that the variable [elf] has on the stack before it is read. *)
Context (junk : list Z).
Context (dev_read : Z -> option (nat -> Z -> M fs_st (Z * list Z))).

Fixpoint loaduvm_loop (fuel : nat) (pgdir addr : Z) (ip : nat) (offset sz i : Z) : M kern_st Z :=
  match fuel with
  | O => mret 0
  | S fuel =>
      if negb (i <? sz) then mret 0
      else
        pte ← on_mem (walkpgdir pgdir (u32 (addr + i)) false);
        if pte =? 0 then panic "loaduvm: address should exist"
        else
          m ← gets ram;
          let pa := PTE_ADDR (load32 m pte) in
          let n := if sz - i <? PGSIZE then sz - i else PGSIZE in
          '(r, l) ← on_fs (readi dev_read ip (u32 (offset + i)) n);
          modify (fun s => set_ram (store (ram s) (p2v pa) l) s) ;;
          if negb (r =? n) then mret (-1)
          else loaduvm_loop fuel pgdir addr ip offset sz (i + PGSIZE)
  end.
Definition loaduvm (pgdir addr : Z) (ip : nat) (offset sz : Z) : M kern_st Z :=
  if negb (addr mod PGSIZE =? 0) then panic "loaduvm: addr must be page aligned"
  else loaduvm_loop (S (Z.to_nat (sz / PGSIZE + 1))) pgdir addr ip offset sz 0.

(** The loop over the program headers: the new size, or [None] for
    [goto bad]. *)
Fixpoint load_segments (k : nat) (pgdir : Z) (ip : nat) (off sz : Z) : M kern_st (option Z) :=
  match k with
  | O => mret (Some sz)
  | S k =>
      '(r, l) ← on_fs (readi dev_read ip (u32 off) 32);
      if negb (r =? 32) then mret None
      else
        let ph := decode_proghdr l in
        if negb (ph_type ph =? ELF_PROG_LOAD) then load_segments k pgdir ip (s32 (off + 32)) sz
        else if ph_memsz ph <? ph_filesz ph then mret None
        else
          sz' ← on_mem (allocuvm kend pgdir sz (u32 (ph_vaddr ph + ph_memsz ph)));
          if sz' =? 0 then mret None
          else
            r ← loaduvm pgdir (ph_vaddr ph) ip (ph_off ph) (ph_filesz ph);
            if r <? 0 then mret None
            else load_segments k pgdir ip (s32 (off + 32)) sz'
  end.

(** Pushing the argument strings: the stack pointer and the addresses, or
    [None] for [goto bad]. *)
Fixpoint push_args (argv : list (list Z)) (argc : nat) (pgdir sp : Z) : M kern_st (option (Z * list Z)) :=
  match argv with
  | [] => mret (Some (sp, []))
  | a :: argv =>
      if bool_decide (MAXARG <= argc)%nat then mret None
      else
        let sp := Z.land (u32 (sp - (Z.of_nat (length a) + 1))) (u32 (Z.lnot 3)) in
        r ← on_mem (copyout pgdir sp (a ++ [0]));
        if r <? 0 then mret None
        else
          o ← push_args argv (S argc) pgdir sp;
          mret (match (o : option (Z * list Z)) with Some (sp', l) => Some (sp', sp :: l) | None => None end)
  end.

(** [ustack]: the fake return address, [argc], [argv] and the pointers. *)
Definition ustack (sp : Z) (args : list Z) : list Z :=
  let argc := Z.of_nat (length args) in
  [0xffffffff; argc; u32 (sp - (argc + 1) * 4)] ++ args ++ [0].
Definition words (l : list Z) : list Z := concat (le_bytes 4 <$> l).

(** The last element of the path. *)
Fixpoint last_elem (s last : list Z) : list Z :=
  match s with
  | [] => last
  | c :: s => last_elem s (if c =? 47 then s else last)
  end.

Definition bad (pgdir : Z) (ip : option nat) : M kern_st Z :=
  when (negb (pgdir =? 0)) (on_mem (freevm kend pgdir)) ;;
  match ip with
  | Some ip => on_fs (iunlockput ip) ;; on_fs fs_end_op
  | None => mret ()
  end ;;
  mret (-1).

(** From the stack on, with the image loaded: [sz] bytes at [pgdir]. *)
Definition exec_commit (path : list Z) (argv : list (list Z)) (elf : elfhdr) (pgdir0 sz0 : Z) : M kern_st Z :=
  let sz1 := PGROUNDUP sz0 in
  sz ← on_mem (allocuvm kend pgdir0 sz1 (u32 (sz1 + 2 * PGSIZE)));
  if sz =? 0 then bad pgdir0 None
  else
    on_mem (clearpteu pgdir0 (u32 (sz - 2 * PGSIZE))) ;;
    o ← push_args argv 0 pgdir0 sz;
    match (o : option (Z * list Z)) with
    | None => bad pgdir0 None
    | Some (sp, args) =>
        let st := ustack sp args in
        let sp := u32 (sp - (3 + Z.of_nat (length args) + 1) * 4) in
        r ← on_mem (copyout pgdir0 sp (words st));
        if r <? 0 then bad pgdir0 None
        else
          upd_myproc (fun p => set_pname (safestrcpy_l (pname p) (last_elem path path) 16) p) ;;
          p ← myproc;
          upd_myproc (fun p => set_tf
            (let t := tf p in
             Trapframe (tf_edi t) (tf_esi t) (tf_ebp t) (tf_oesp t) (tf_ebx t) (tf_edx t) (tf_ecx t) (tf_eax t)
               (tf_gs t) (tf_fs t) (tf_es t) (tf_ds t) (tf_trapno t) (tf_err t) (e_entry elf) (tf_cs t)
               (tf_eflags t) sp (tf_ss t))
            (set_sz sz (set_pgdir pgdir0 p))) ;;
          p' ← myproc;
          switchuvm p' ;;
          on_mem (freevm kend (pgdir p)) ;;
          mret 0
    end.

Definition exec (path : list Z) (argv : list (list Z)) : M kern_st Z :=
  on_fs fs_begin_op ;;
  o ← on_fs (namei dev_read path);
  match (o : option nat) with
  | None => on_fs fs_end_op ;; mret (-1)
  | Some ip =>
      on_fs (ilock ip) ;;
      '(r, l) ← on_fs (readi dev_read ip 0 52);
      if u32 r <? 52 then bad 0 (Some ip)
      else
        let elf := decode_elfhdr (l ++ drop (length l) junk) in
        if negb (e_magic elf =? ELF_MAGIC) then bad 0 (Some ip)
        else
          d ← on_mem (setupkvm kdata);
          if d =? 0 then bad 0 (Some ip)
          else
            o ← load_segments (Z.to_nat (e_phnum elf)) d ip (s32 (e_phoff elf)) 0;
            match (o : option Z) with
            | None => bad d (Some ip)
            | Some sz =>
                on_fs (iunlockput ip) ;;
                on_fs fs_end_op ;;
                exec_commit path argv elf d sz
            end
  end.
End exec.
