(* ===== verification/Sysfile.v ===== *)
(** * System calls on files (sysfile.c)

    Argument checking, descriptors, and the calls that change the directory
    tree, each within one transaction. *)

From S2P Require Import Prelude Params CString Spinlock Sched Bio Log Fs Kalloc Vm VmMap VmUser Kernel Pipe FileC ProcC Exec.


(** The descriptor and its file. *)
Definition argfd (n : Z) : M kern_st (option (nat * nat)) :=
  r ← argint n;
  match (r : option Z) with
  | None => mret None
  | Some fd =>
      if (fd <? 0) || (Z.of_nat NOFILE <=? fd) then mret None
      else
        p ← myproc;
        match mjoin (ofile p !! Z.to_nat fd) with
        | None => mret None
        | Some f => mret (Some (Z.to_nat fd, f))
        end
  end.

Definition fdalloc (f : nat) : M kern_st (option nat) :=
  p ← myproc;
  match list_find (fun o => o = None) (take NOFILE (ofile p)) with
  | Some (fd, _) => upd_myproc (fun q => set_ofile (<[fd := Some f]> (ofile q)) q) ;; mret (Some fd)
  | None => mret None
  end.

Definition set_fd (fd : nat) (o : option nat) : M kern_st unit :=
  upd_myproc (fun q => set_ofile (<[fd := o]> (ofile q)) q).

Definition sys_dup : M kern_st Z :=
  r ← argfd 0;
  match (r : option (nat * nat)) with
  | None => mret (-1)
  | Some (_, f) =>
      o ← fdalloc f;
      match (o : option nat) with
      | None => mret (-1)
      | Some fd => filedup f ;; mret (Z.of_nat fd)
      end
  end.

Section sysfile.
Context (kend kdata : Z) (junk : list Z).
Context (dev_read : Z -> option (nat -> Z -> M fs_st (Z * list Z))).
Context (dev_write : Z -> option (nat -> list Z -> M fs_st Z)).

(** The arguments of [sys_read] and [sys_write]: file, buffer, count. *)
Definition arg_rw : M kern_st (option (nat * Z * Z)) :=
  r ← argfd 0;
  match (r : option (nat * nat)) with
  | None => mret None
  | Some (_, f) =>
      o ← argint 2;
      match (o : option Z) with
      | None => mret None
      | Some n =>
          q ← argptr 1 n;
          match (q : option Z) with
          | None => mret None
          | Some p => mret (Some (f, p, n))
          end
      end
  end.
Definition sys_read : M kern_st Z :=
  r ← arg_rw;
  match (r : option (nat * Z * Z)) with
  | None => mret (-1)
  | Some (f, p, n) => fileread dev_read f p n
  end.
Definition sys_write : M kern_st Z :=
  r ← arg_rw;
  match (r : option (nat * Z * Z)) with
  | None => mret (-1)
  | Some (f, p, n) => filewrite dev_write f p n
  end.

Definition sys_close : M kern_st Z :=
  r ← argfd 0;
  match (r : option (nat * nat)) with
  | None => mret (-1)
  | Some (fd, f) => set_fd fd None ;; fileclose kend f ;; mret 0
  end.

(** [struct stat] has 20 bytes; its padding is not written. *)
Definition ustore_stat (a : Z) (st : stat) : M kern_st unit :=
  ustore a (le_bytes 2 (st_type st)) ;;
  ustore (a + 4) (le_bytes 4 (st_dev st)) ;;
  ustore (a + 8) (le_bytes 4 (st_ino st)) ;;
  ustore (a + 12) (le_bytes 2 (st_nlink st)) ;;
  ustore (a + 16) (le_bytes 4 (st_size st)).
Definition sys_fstat : M kern_st Z :=
  r ← argfd 0;
  match (r : option (nat * nat)) with
  | None => mret (-1)
  | Some (_, f) =>
      q ← argptr 1 20;
      match (q : option Z) with
      | None => mret (-1)
      | Some a =>
          o ← filestat f;
          match (o : option stat) with
          | None => mret (-1)
          | Some st => ustore_stat a st ;; mret 0
          end
      end
  end.

(** [name] before [nameiparent] fills it; what is behind the NUL is never
    read. *)
Definition name0 : list Z := replicate DIRSIZ 0.
Definition add_nlink (d : Z) (ip : nat) : M fs_st unit :=
  upd_ino ip (fun x => set_i_nlink (s16 (i_nlink x + d)) x) ;; iupdate ip.

(** [sys_link] on the file system: [old] and [new] are the paths. *)
Definition link_bad (ip : nat) : M fs_st Z :=
  ilock ip ;; add_nlink (-1) ip ;; iunlockput ip ;; fs_end_op ;; mret (-1).
(** From [ilock(dp)] on. *)
Definition link_at (ip dp : nat) (name : list Z) : M fs_st Z :=
  d ← ino dp;
  i ← ino ip;
  r ← (if negb (i_dev d =? i_dev i) then mret (-1) else dirlink dev_read dev_write dp name (i_inum i));
  if r <? 0 then iunlockput dp ;; link_bad ip
  else iunlockput dp ;; iput ip ;; fs_end_op ;; mret 0.
Definition link (old new : list Z) : M fs_st Z :=
  fs_begin_op ;;
  o ← namei dev_read old;
  match (o : option nat) with
  | None => fs_end_op ;; mret (-1)
  | Some ip =>
      ilock ip ;;
      i ← ino ip;
      if i_type i =? T_DIR then iunlockput ip ;; fs_end_op ;; mret (-1)
      else
        add_nlink 1 ip ;;
        iunlock ip ;;
        '(o, name) ← nameiparent dev_read new name0;
        match (o : option nat) with
        | None => link_bad ip
        | Some dp =>
            ilock dp ;;
            link_at ip dp name
        end
  end.
Definition sys_link : M kern_st Z :=
  a ← argstr 0;
  match (a : option (list Z)) with
  | None => mret (-1)
  | Some old =>
      b ← argstr 1;
      match (b : option (list Z)) with
      | None => mret (-1)
      | Some new => on_fs (link old new)
      end
  end.

Fixpoint isdirempty_loop (fuel dp : nat) (off : Z) : M fs_st bool :=
  match fuel with
  | O => mret true
  | S fuel =>
      i ← ino dp;
      if negb (off <? i_size i) then mret true
      else
        '(r, de) ← readi dev_read dp off 16;
        if negb (r =? 16) then panic "isdirempty: readi"
        else if negb (de_inum de =? 0) then mret false
        else isdirempty_loop fuel dp (off + 16)
  end.
Definition isdirempty (dp : nat) : M fs_st bool :=
  i ← ino dp; isdirempty_loop (S (Z.to_nat (i_size i / 16))) dp 32.

Definition unlink_bad (dp : nat) : M fs_st Z := iunlockput dp ;; fs_end_op ;; mret (-1).

(** From the entry that was found at [off] on. *)
Definition unlink_at (dp ip : nat) (off : Z) : M fs_st Z :=
  ilock ip ;;
  i ← ino ip;
  if i_nlink i <? 1 then panic "unlink: nlink < 1"
  else
    e ← (if i_type i =? T_DIR then isdirempty ip else mret true);
    if negb e then iunlockput ip ;; unlink_bad dp
    else
      r ← writei dev_write dp (replicate 16 0) off;
      if negb (r =? 16) then panic "unlink: writei"
      else
        when (i_type i =? T_DIR) (add_nlink (-1) dp) ;;
        iunlockput dp ;; add_nlink (-1) ip ;; iunlockput ip ;; fs_end_op ;; mret 0.
(** [sys_unlink] on the file system. *)
Definition unlink (path : list Z) : M fs_st Z :=
  fs_begin_op ;;
  '(o, name) ← nameiparent dev_read path name0;
  match (o : option nat) with
  | None => fs_end_op ;; mret (-1)
  | Some dp =>
      ilock dp ;;
      if (namecmp name (DOT ++ [0]) =? 0) || (namecmp name (DOTDOT ++ [0]) =? 0) then unlink_bad dp
      else
        r ← dirlookup dev_read dp name;
        match (r : option (nat * Z)) with
        | None => unlink_bad dp
        | Some (ip, off) => unlink_at dp ip off
        end
  end.
Definition sys_unlink : M kern_st Z :=
  a ← argstr 0;
  match (a : option (list Z)) with
  | None => mret (-1)
  | Some path => on_fs (unlink path)
  end.

Definition set_i_node (major minor nlink : Z) (i : inode) : inode :=
  Inode (i_dev i) (i_inum i) (i_ref i) (i_flags i) (i_type i) major minor nlink (i_size i) (i_addrs i).

(** The new inode, locked; [None] is the null pointer. *)
Definition create (path : list Z) (type major minor : Z) : M fs_st (option nat) :=
  '(o, name) ← nameiparent dev_read path name0;
  match (o : option nat) with
  | None => mret None
  | Some dp =>
      ilock dp ;;
      r ← dirlookup dev_read dp name;
      match (r : option (nat * Z)) with
      | Some (ip, _) =>
          iunlockput dp ;;
          ilock ip ;;
          i ← ino ip;
          if (type =? T_FILE) && (i_type i =? T_FILE) then mret (Some ip)
          else iunlockput ip ;; mret None
      | None =>
          d ← ino dp;
          ip ← ialloc (i_dev d) type;
          ilock ip ;;
          upd_ino ip (set_i_node major minor 1) ;;
          iupdate ip ;;
          i ← ino ip;
          when (type =? T_DIR)
            (add_nlink 1 dp ;;
             r ← dirlink dev_read dev_write ip (DOT ++ [0]) (i_inum i);
             r' ← (if r <? 0 then mret (-1) else dirlink dev_read dev_write ip (DOTDOT ++ [0]) (i_inum d));
             if (r <? 0) || (r' <? 0) then panic "create dots" else mret ()) ;;
          r ← dirlink dev_read dev_write dp name (i_inum i);
          if r <? 0 then panic "create: dirlink"
          else iunlockput dp ;; mret (Some ip)
      end
  end.

(** The inode of [sys_open], locked; the transaction is over when there is
    none. *)
Definition open_inode (path : list Z) (omode : Z) : M fs_st (option nat) :=
  fs_begin_op ;;
  if has omode O_CREATE then
    o ← create path T_FILE 0 0;
    match (o : option nat) with
    | None => fs_end_op ;; mret None
    | Some ip => mret (Some ip)
    end
  else
    o ← namei dev_read path;
    match (o : option nat) with
    | None => fs_end_op ;; mret None
    | Some ip =>
        ilock ip ;;
        i ← ino ip;
        if (i_type i =? T_DIR) && negb (omode =? O_RDONLY) then iunlockput ip ;; fs_end_op ;; mret None
        else mret (Some ip)
    end.

Definition open (path : list Z) (omode : Z) : M kern_st Z :=
  o ← on_fs (open_inode path omode);
  match (o : option nat) with
  | None => mret (-1)
  | Some ip =>
      f ← filealloc;
      fd ← (match (f : option nat) with Some f => fdalloc f | None => mret None end);
      match f, (fd : option nat) with
      | Some f, Some fd =>
          on_fs (iunlock ip) ;;
          on_fs fs_end_op ;;
          upd_file f (fun x => File FD_INODE (f_ref x) (negb (has omode O_WRONLY))
            (has omode O_WRONLY || has omode O_RDWR) (f_pipe x) ip 0) ;;
          mret (Z.of_nat fd)
      | f, _ =>
          match f with Some f => fileclose kend f | None => mret () end ;;
          on_fs (iunlockput ip) ;;
          on_fs fs_end_op ;;
          mret (-1)
      end
  end.
Definition sys_open : M kern_st Z :=
  a ← argstr 0;
  match (a : option (list Z)) with
  | None => mret (-1)
  | Some path =>
      o ← argint 1;
      match (o : option Z) with
      | None => mret (-1)
      | Some omode => open path omode
      end
  end.

(** The end of [sys_mkdir] and [sys_mknod]: [create] was tried. *)
Definition made (o : option nat) : M fs_st Z :=
  match o with
  | None => fs_end_op ;; mret (-1)
  | Some ip => iunlockput ip ;; fs_end_op ;; mret 0
  end.
Definition sys_mkdir : M kern_st Z :=
  on_fs fs_begin_op ;;
  a ← argstr 0;
  match (a : option (list Z)) with
  | None => on_fs (made None)
  | Some path => on_fs (o ← create path T_DIR 0 0; made o)
  end.
Definition sys_mknod : M kern_st Z :=
  on_fs fs_begin_op ;;
  a ← argstr 0;
  match (a : option (list Z)) with
  | None => on_fs (made None)
  | Some path =>
      x ← argint 1;
      match (x : option Z) with
      | None => on_fs (made None)
      | Some major =>
          y ← argint 2;
          match (y : option Z) with
          | None => on_fs (made None)
          | Some minor => on_fs (o ← create path T_DEV (s16 major) (s16 minor); made o)
          end
      end
  end.

Definition sys_chdir : M kern_st Z :=
  on_fs fs_begin_op ;;
  a ← argstr 0;
  o ← (match (a : option (list Z)) with Some path => on_fs (namei dev_read path) | None => mret None end);
  match (o : option nat) with
  | None => on_fs fs_end_op ;; mret (-1)
  | Some ip =>
      on_fs (ilock ip) ;;
      i ← on_fs (ino ip);
      if negb (i_type i =? T_DIR) then on_fs (iunlockput ip) ;; on_fs fs_end_op ;; mret (-1)
      else
        on_fs (iunlock ip) ;;
        p ← myproc;
        match cwd p with Some c => on_fs (iput c) | None => panic "trap" end ;;
        on_fs fs_end_op ;;
        upd_myproc (set_cwd (Some ip)) ;;
        mret 0
  end.

(** The loop of [sys_exec]: the arguments, or [None] for the return of -1. *)
Fixpoint fetch_args (fuel : nat) (i uargv : Z) : M kern_st (option (list (list Z))) :=
  match fuel with
  | O => mret None
  | S fuel =>
      r ← fetchint (u32 (uargv + 4 * i));
      match (r : option Z) with
      | None => mret None
      | Some uarg =>
          if uarg =? 0 then mret (Some [])
          else
            a ← fetchstr (u32 uarg);
            match (a : option (list Z)) with
            | None => mret None
            | Some s =>
                o ← fetch_args fuel (i + 1) uargv;
                mret (match (o : option (list (list Z))) with Some l => Some (s :: l) | None => None end)
            end
      end
  end.
Definition sys_exec : M kern_st Z :=
  a ← argstr 0;
  match (a : option (list Z)) with
  | None => mret (-1)
  | Some path =>
      u ← argint 1;
      match (u : option Z) with
      | None => mret (-1)
      | Some uargv =>
          o ← fetch_args MAXARG 0 (u32 uargv);
          match (o : option (list (list Z))) with
          | None => mret (-1)
          | Some argv => exec kend kdata junk dev_read path argv
          end
      end
  end.

Definition sys_pipe : M kern_st Z :=
  q ← argptr 0 8;
  match (q : option Z) with
  | None => mret (-1)
  | Some a =>
      o ← pipealloc kend;
      match (o : option (nat * nat)) with
      | None => mret (-1)
      | Some (rf, wf) =>
          fd0 ← fdalloc rf;
          fd1 ← (match (fd0 : option nat) with Some _ => fdalloc wf | None => mret None end);
          match fd0, (fd1 : option nat) with
          | Some fd0, Some fd1 =>
              ustore a (le_bytes 4 (Z.of_nat fd0)) ;;
              ustore (a + 4) (le_bytes 4 (Z.of_nat fd1)) ;;
              mret 0
          | fd0, _ =>
              match fd0 with Some fd => set_fd fd None | None => mret () end ;;
              fileclose kend rf ;;
              fileclose kend wf ;;
              mret (-1)
          end
      end
  end.
End sysfile.
