(* ===== verification/FsCalls.v ===== *)
(** * The calls that change the directory tree (sysfile.c)

    [unlink], [link] and [create] as whole transactions: on a disk in order
    each one takes the tree [abs] to the tree that the abstract functions
    [aunlink], [alink] and [acreate] give, or fails where they do and leaves
    it as it was, and the disk is in order again. *)

From S2P Require Import Prelude Params CString Spinlock Sched Ring Bio Log Crash Logop Txn Fs FsBlocks FsFile FsData FsInode FsIcache FsDir FsIalloc FsPath FsTree FsAbs FsOps FsDemo FsProps Sysfile.

(** ** What the calls do to the tree *)

Definition dir_empty (d : list Z) : bool := forallb (vacant d) (seq 2 (dir_entries d - 2)).
Definition is_dots (e : list Z) : bool := bool_decide (str_take DIRSIZ e = DOT) || bool_decide (str_take DIRSIZ e = DOTDOT).

(** The directory of the last element of the path, and that element. *)
Definition aparent (t : atree) (n : Z) (es : list (list Z)) : option (Z * node * list Z) :=
  match aresolve t true n es, last es with
  | Some d, Some e => match t d with Some nd => Some (d, nd, e) | None => None end
  | _, _ => None
  end.

(** The entry is removed; its inode is freed with its last link unless it is
    in use. *)
Definition aunlink (busy : Z -> bool) (t : atree) (n : Z) (es : list (list Z)) : option atree :=
  match aparent t n es with
  | None => None
  | Some (d, nd, e) =>
      if is_dots e then None
      else
        match dir_find e (n_data nd) with
        | None => None
        | Some k =>
            let c := de_inum (dent (n_data nd) k) in
            match t c with
            | None => None
            | Some cd =>
                if (n_type cd =? T_DIR) && negb (dir_empty (n_data cd)) then None
                else
                  let t' := tree_unlinked t d nd k c cd in
                  Some (if (n_nlink cd =? 1) && negb (busy c) then <[c := None]> t' else t')
            end
        end
  end.

(** A second name for a file that is not a directory. *)
Definition alink (t : atree) (n : Z) (es : list (list Z)) (n' : Z) (es' : list (list Z)) : option atree :=
  match aresolve t false n es with
  | None => None
  | Some m =>
      match t m with
      | None => None
      | Some cd =>
          if n_type cd =? T_DIR then None
          else
            match aparent t n' es' with
            | None => None
            | Some (d, nd, e) =>
                match dir_find e (n_data nd) with
                | Some _ => None
                | None => Some (tree_linked t d nd m cd e)
                end
            end
      end
  end.

(** A new file, device or directory with inode [m]; an existing file is opened. *)
Definition dots (m d : Z) : list Z := linked (linked [] m DOT) d DOTDOT.
Definition acreate (m : Z) (t : atree) (type major minor : Z) (n : Z) (es : list (list Z)) : option (Z * atree) :=
  match aparent t n es with
  | None => None
  | Some (d, nd, e) =>
      match dir_find e (n_data nd) with
      | Some k =>
          let c := de_inum (dent (n_data nd) k) in
          match t c with
          | Some cd => if (type =? T_FILE) && (n_type cd =? T_FILE) then Some (c, t) else None
          | None => None
          end
      | None =>
          let cd := Node type major minor 0 (if type =? T_DIR then dots m d else []) in
          let t' := <[m := Some cd]> t in
          Some (m, if type =? T_DIR then tree_mkdired t' d nd m cd e else tree_linked t' d nd m cd e)
      end
  end.

Lemma dot_slot m : 0 < m < 65536 -> (length (linked [] m DOT) mod 16 = 0)%nat /\ dir_slot (linked [] m DOT) = 1%nat /\
  forall k e n, ent (linked [] m DOT) k e n <-> k = 0%nat /\ e = DOT /\ n = m.
Proof.
  intros Hm. assert (H0 : (length ([] : list Z) mod 16 = 0)%nat) by done. assert (Hmod := linked_mod [] H0 m DOT). split; [done|].
  assert (He : forall k e n, ent (linked [] m DOT) k e n <-> k = 0%nat /\ e = DOT /\ n = m).
  { intros k e n. rewrite (ent_linked [] H0) by done. change (dir_slot []) with 0%nat. change (str_take DIRSIZ DOT) with DOT.
    split; [|naive_solver]. intros [(Hk & _)|?]; [change (dir_entries []) with 0%nat in Hk; lia|naive_solver]. }
  split; [|done]. pose proof (linked_entries [] m DOT H0) as Hn. change (dir_slot []) with 0%nat in Hn. change (dir_entries []) with 0%nat in Hn. simpl in Hn.
  unfold dir_slot. rewrite Hn. cbn [first_from]. destruct (vacant (linked [] m DOT) 0) eqn:Ev; [|done].
  assert (H1 : ent (linked [] m DOT) 0 DOT m) by (by apply He). destruct H1 as (_ & E & Hz & _). unfold vacant in Ev. lia.
Qed.

Lemma dot_find m : 0 < m < 65536 -> dir_find DOTDOT (linked [] m DOT) = None.
Proof.
  intros Hm. destruct (dir_find DOTDOT _) as [k|] eqn:E; [|done]. apply dir_find_some in E. by apply (dot_slot m Hm) in E as (_ & ? & _).
Qed.

Lemma dots_spec m d : 0 < m < 65536 -> 0 < d < 65536 -> (length (dots m d) mod 16 = 0)%nat /\
  forall k e n, ent (dots m d) k e n <-> k = 0%nat /\ e = DOT /\ n = m \/ k = 1%nat /\ e = DOTDOT /\ n = d.
Proof.
  intros Hm Hd. destruct (dot_slot m Hm) as (Hmod & Hs & He). split; [by apply linked_mod|].
  intros k e n. unfold dots. rewrite ent_linked by done. by rewrite Hs, He.
Qed.

Lemma dir_empty_spec d : dir_empty d = true <-> forall k e n, (2 <= k)%nat -> ~ ent d k e n.
Proof.
  unfold dir_empty. rewrite forallb_forall. setoid_rewrite in_seq. split.
  - intros H k e n Hk (Hlt & E & Hn & _). specialize (H k ltac:(lia)). unfold vacant in H. lia.
  - intros H k Hk. unfold vacant. destruct (Z.eqb_spec (de_inum (dent d k)) 0) as [|Hn]; [done|]. exfalso.
    eapply (H k); [lia|]. split_and!; [lia|done|done|done].
Qed.

Lemma relinked_aparent_none t t' n es : relinked t t' -> aparent t' n es = None -> aparent t n es = None.
Proof.
  intros H. unfold aparent. rewrite (relinked_resolve t t' true es H n). destruct (aresolve t true n es) as [d|]; [|done].
  destruct (last es); [|done]. destruct (H d); [done|done].
Qed.

Lemma relinked_aparent t t' n es d nd e : relinked t t' -> aparent t' n es = Some (d, nd, e) -> t d = Some nd -> aparent t n es = Some (d, nd, e).
Proof.
  intros H. unfold aparent. rewrite (relinked_resolve t t' true es H n). destruct (aresolve t true n es) as [d'|]; [|done].
  destruct (last es) as [e'|]; [|done]. destruct (t' d') as [nd'|]; [|done]. intros [= -> -> ->] ->. done.
Qed.

Section spec.
Context (t : atree).
Hypothesis Ht : tree_inv t.

Lemma aparent_dir n es d nd e : alive t n -> aparent t n es = Some (d, nd, e) -> adir t d nd.
Proof.
  intros Hn. unfold aparent. destruct (aresolve t true n es) as [d'|] eqn:E; [|done]. destruct (last es); [|done].
  destruct (t d') as [nd'|] eqn:Ed; [|done]. intros [= <- <- <-].
  destruct (aresolve_alive t true es (tree_walkable _ Ht) n d' Hn E) as [_ Hd]. destruct (Hd eq_refl) as (nd & Had). destruct Had as (E' & ?).
  rewrite Ed in E'. injection E' as ->. by split.
Qed.

(** The dots are the first two entries. *)
Lemma find_not_dots d nd e k : adir t d nd -> dir_find e (n_data nd) = Some k -> is_dots e = false -> (2 <= k)%nat.
Proof.
  intros Hd Hk%dir_find_some Hdots. apply orb_false_iff in Hdots as [H0%bool_decide_eq_false H1%bool_decide_eq_false].
  assert (Hr : refers t d k (str_take DIRSIZ e) (de_inum (dent (n_data nd) k))) by (by exists nd).
  destruct k as [|[|k]]; [| |lia]; exfalso.
  - destruct (refers_fun _ _ _ _ _ _ _ Hr (ti_dot _ Ht _ _ Hd)). congruence.
  - destruct (ti_dotdot _ Ht _ _ Hd) as [p Hp]. destruct (refers_fun _ _ _ _ _ _ _ Hr Hp). congruence.
Qed.

Lemma nlink_pos c cd : t c = Some cd -> n_nlink cd <> 0 -> 1 <= n_nlink cd.
Proof. intros E Hn. destruct (ti_links _ Ht _ _ E) as (X & _ & El). lia. Qed.

(** Removing a name keeps the tree in order. *)
Lemma aunlink_inv busy n es t' : alive t n -> aunlink busy t n es = Some t' -> tree_inv t'.
Proof.
  intros Hn. unfold aunlink. destruct (aparent t n es) as [[[d nd] e]|] eqn:Ep; [|done]. apply aparent_dir in Ep as Hd; [|done].
  destruct (is_dots e) eqn:Edots; [done|]. destruct (dir_find e (n_data nd)) as [k|] eqn:Ek; [|done]. cbv zeta.
  destruct (t _) as [cd|] eqn:Ec; [|done]. destruct (_ && _) eqn:Ee; [done|].
  assert (Hinv : tree_inv (tree_unlinked t d nd k (de_inum (dent (n_data nd) k)) cd)).
  { eapply tree_unlink; [done|done|by apply dir_find_some|by eapply find_not_dots|done|].
    intros Hty. rewrite Hty in Ee. simpl in Ee. apply negb_false_iff in Ee. by apply dir_empty_spec. }
  intros [= <-]. clear Ee. destruct (_ && _) eqn:Ef; [|done]. apply andb_true_iff in Ef as [Hone%Z.eqb_eq _].
  eapply tree_free; [done|unfold tree_unlinked; by rewrite fn_lookup_insert|]. simpl. lia.
Qed.

Lemma alink_inv n es n' es' t' : alive t n' -> alink t n es n' es' = Some t' -> tree_inv t'.
Proof.
  intros Hn. unfold alink. destruct (aresolve t false n es) as [m|]; [|done]. destruct (t m) as [cd|] eqn:Em; [|done].
  destruct (Z.eqb_spec (n_type cd) T_DIR) as [|Hty]; [done|]. destruct (aparent t n' es') as [[[d nd] e]|] eqn:Ep; [|done].
  apply aparent_dir in Ep; [|done]. destruct (dir_find e (n_data nd)) eqn:Ek; [done|]. intros [= <-]. apply tree_link; try done.
  destruct (ti_links _ Ht _ _ Em) as (X & _ & El). lia.
Qed.

Lemma acreate_inv m type major minor n es c' t' : alive t n -> t m = None -> 1 <= m < 65536 -> acreate m t type major minor n es = Some (c', t') -> tree_inv t'.
Proof.
  intros Hn Hm Hr. unfold acreate. destruct (aparent t n es) as [[[d nd] e]|] eqn:Ep; [|done]. apply aparent_dir in Ep as Hd; [|done].
  destruct (dir_find e (n_data nd)) as [k|] eqn:Ek; cbv zeta.
  { destruct (t (de_inum (dent (n_data nd) k))); [|done]. destruct (_ && _); [|done]. by intros [= <- <-]. }
  set (cd := Node type major minor 0 _). intros [= <- <-]. assert (Hdr := ti_range _ Ht _ _ (proj1 Hd)).
  assert (Ht1 : tree_inv (<[m := Some cd]> t)) by (by apply tree_alloc).
  assert (Hd1 : adir (<[m := Some cd]> t) d nd).
  { destruct Hd as (E & ?). split; [|done]. rewrite fn_lookup_insert_ne; [done|]. intros ->. congruence. }
  assert (Hc1 : (<[m := Some cd]> t) m = Some cd) by apply fn_lookup_insert.
  destruct (Z.eqb_spec type T_DIR) as [Hty|Hty].
  - destruct (dots_spec m d) as [Hmod He]; [lia|lia|]. by apply tree_mkdir.
  - apply tree_link; try done.
Qed.
End spec.

(** ** The state between two calls *)

Section calls.
Context (dsz : Z) (geo : log) (c : option nat).
Hypothesis Hcap : size geo - 1 <= Z.of_nat LOGSIZE.
Hypothesis Hbig : 24 <= size geo.
Context (x : superblock) (nmeta : Z).
Hypothesis Hly : layout dsz (home dsz geo) x nmeta.
Hypothesis Hsb : home dsz geo 1.
Hypothesis Hone : sb_size x <= BPB.
Notation abs := (abs x).
Notation files_ok := (files_ok x nmeta).
Notation fs_inv := (fs_inv x nmeta).

(** No call is running; the disk reads as [v]; slot [j] of the inode cache has
    [r j] references, all to inode [id j], and none is locked. *)
Record fs_rest (v : Z -> list Z) (id r : nat -> Z) (s : fs_st) : Prop := {
  fr_log : resting dsz geo c v (flog s);
  fr_sb : sb s = x;
  fr_cache : cinv x v id r ∅ (icache s) }.

Definition in_use (id r : nat -> Z) (n : Z) : bool := existsb (fun j => (0 <? r j) && (id j =? n)) (seq 0 NINODE).

Lemma in_use_spec id r n : in_use id r n = true <-> exists j, (j < NINODE)%nat /\ 0 < r j /\ id j = n.
Proof.
  unfold in_use. rewrite existsb_exists. setoid_rewrite in_seq. setoid_rewrite andb_true_iff. setoid_rewrite Z.ltb_lt. setoid_rewrite Z.eqb_eq.
  split; intros (j & ?); exists j; naive_solver lia.
Qed.

(** A call that starts in [s0]. *)
Context (s0 : fs_st).
Notation dk := (disk (lbio (flog s0))).
Notation tr := (wtrace (lbio (flog s0))).

#[local] Instance calls_store : TxnStore dsz (Z.to_nat (size geo - 1)) (home dsz geo) (txn dsz geo c dk tr) (txn_locked dsz geo c dk tr) :=
  txn_store dsz geo c dk tr Hcap.
Notation CS := (CS (T := txn dsz geo c dk tr) x).

Definition fs_end (v : Z -> list Z) (id r : nat -> Z) (s : fs_st) : Prop :=
  fs_rest v id r s /\ atomic dsz geo dk tr dk v (flog s).

Lemma wp_fs_begin v id r : fs_rest v id r s0 -> wp fs_begin_op (fun _ s' => CS ∅ v id r ∅ s') s0.
Proof.
  intros [Hl Hs Hc]. unfold fs_begin_op. apply wp_lift. eapply wp_mono; [by eapply wp_begin_txn|]. intros [] l Hl'.
  exists (icache s0). by split_and!.
Qed.

Lemma wp_fs_end L v id r s : CS L v id r ∅ s -> files_ok v -> (base.size L < NBUF)%nat ->
  wp fs_end_op (fun _ s' => exists v', fs_end v' id r s' /\ files_ok v' /\ pointwise_relation Z eq (abs v') (abs v)) s.
Proof.
  intros (ic & (HT & Hic & Hs) & Hc) Hf Hroom. unfold fs_end_op. apply wp_lift. eapply wp_mono; [by eapply wp_end_txn|].
  intros [] l [(v' & Hl & Hsame) Hat]. exists v'. split; [|split; [by eapply same_files; eauto|by eapply same_abs; eauto]].
  split; [|by eapply atomic_ext]. split; [done|done|]. simpl. rewrite Hic. eapply cinv_view; [done|]. intros j Hj Hp.
  destruct (cv_slot _ _ _ _ _ _ Hc j Hj Hp) as (_ & _ & [Ha _] & _). eapply same_inode; [exact Hly|done|lia].
Qed.

(** The end of a call that found nothing to do. *)
Lemma wp_give_up L v id r s : CS L v id r ∅ s -> fs_inv v -> (base.size L < NBUF)%nat ->
  wp (fs_end_op ;; mret (-1)) (fun res s' => exists v', fs_end v' id r s' /\ fs_inv v' /\ res = -1 /\ pointwise_relation Z eq (abs v') (abs v)) s.
Proof.
  intros HC [Hf Ht] Hroom. wp_call wp_fs_end; [done|done|done|]. intros [] s1 (v' & H1 & Hf' & E). apply wp_ret.
  exists v'. split_and!; [done| |done|done]. split; [done|]. by rewrite E.
Qed.

(** The machine stops after some of the disk writes of the call and starts
    again: the disk that recovery leaves is in order, and its tree is the one
    before the call or the one after it. *)
Definition recovers (v v' : Z -> list Z) (s' : fs_st) : Prop :=
  exists ws, wtrace (lbio (flog s')) = tr ++ ws /\
  forall p crash, p `prefix_of` ws -> booted dsz geo (apply_writes p dk) crash ->
    wp recover_from_log (fun _ q => let d := disk (lbio q) in
      fs_inv d /\ (pointwise_relation Z eq (abs d) (abs v) \/ pointwise_relation Z eq (abs d) (abs v'))) crash.

Lemma same_inv v v' : fs_inv v -> (forall b, home dsz geo b -> v' b = v b) -> fs_inv v' /\ pointwise_relation Z eq (abs v') (abs v).
Proof.
  intros [Hf Ht] E. assert (Ea : pointwise_relation Z eq (abs v') (abs v)) by (by eapply same_abs; eauto).
  split; [|done]. split; [by eapply same_files; eauto|]. by rewrite Ea.
Qed.

Lemma end_recovers v id r v' id' r' s' : fs_rest v id r s0 -> fs_inv v -> fs_end v' id' r' s' -> fs_inv v' -> recovers v v' s'.
Proof.
  intros [Hl _ _] Hi [_ (ws & Ew & Hat)] Hi'. exists ws. split; [done|]. intros p crash Hp Hb.
  eapply wp_mono; [by apply (Hat p)|]. intros [] q [[_ E]|[_ E]].
  - destruct (same_inv v (disk (lbio q)) Hi) as [? ?]; [|by auto]. intros b Hh. rewrite E by done. by eapply resting_disk.
  - destruct (same_inv v' (disk (lbio q)) Hi' E) as [? ?]. by auto.
Qed.

(** ** Pieces of the calls *)

Context (dev_read : Z -> option (nat -> Z -> M fs_st (Z * list Z))).
Context (dev_write : Z -> option (nat -> list Z -> M fs_st Z)).

Lemma node_nlink v n nd : files_ok v -> abs v n = Some nd -> is_s16 (n_nlink nd).
Proof. intros Hf (Ha & _ & -> & _)%abs_some. apply (fo_dinode _ _ _ _ (fs_file _ _ _ Hf n Ha)). Qed.

Section pieces.
Context (v : Z -> list Z) (L : gset Z) (id r : nat -> Z) (B : gset nat) (ip : nat) (nd : node).
Hypothesis Hfiles : files_ok v.
Hypothesis HB : ip ∈ B.
Hypothesis Hnd : abs v (id ip) = Some nd.
Hypothesis Hroom : (base.size L < NBUF)%nat.

Lemma CS_add_nlink d s : CS L v id r B s -> is_s16 (n_nlink nd + d) -> (base.size L < Z.to_nat (size geo - 1))%nat ->
  wp (add_nlink d ip) (fun _ s' => exists L' v', CS L' v' id r B s' /\ changed x nmeta L L' v v' (id ip) (Some (add_links d nd)) 1 0) s.
Proof.
  intros HC Hs Hc. unfold add_nlink. eapply (CS_update x nmeta Hly); [done|done|done|done|done|done|by intros|].
  intros i Hcp Hok. assert (El : i_nlink i = n_nlink nd).
  { destruct (abs_some _ _ _ _ Hnd) as (_ & _ & -> & _). by rewrite (copy_nlink _ _ _ _ Hcp). }
  rewrite s16_small by (by rewrite El). split; [|done]. destruct Hok. split; try done. simpl. by rewrite El.
Qed.

Hypothesis Hty : n_type nd = T_DIR.
Hypothesis Hmod : (length (n_data nd) mod 16 = 0)%nat.

Lemma CS_isdirempty_loop fuel : forall k s, CS L v id r B s -> (dir_entries (n_data nd) <= k + fuel)%nat ->
  wp (isdirempty_loop dev_read fuel ip (16 * Z.of_nat k)) (fun e s' =>
    e = forallb (vacant (n_data nd)) (seq k (dir_entries (n_data nd) - k)) /\ CS L v id r B s') s.
Proof.
  induction fuel as [|fuel IH]; intros k s HC Hk; cbn [isdirempty_loop].
  { apply wp_ret. split; [|done]. by replace (dir_entries (n_data nd) - k)%nat with 0%nat by lia. }
  wp_call CS_ino; [done|done|]. intros i ? [-> Hcp]. destruct (dir_copy x nmeta L v (id ip) nd i) as [Edat Hrd]; try done.
  pose proof (dir_size _ _ _ _ _ _ Hrd) as Hsz. rewrite Edat in Hsz. destruct (Z.ltb_spec (16 * Z.of_nat k) (i_size i)) as [Hlt|Hge]; simpl negb; cbv iota.
  2:{ apply wp_ret. split; [|done]. by replace (dir_entries (n_data nd) - k)%nat with 0%nat by lia. }
  wp_call (CS_read_dirent x nmeta Hly dev_read); [done|done|done|done|done|done|done|lia|]. intros res s1 [-> H1]. simpl negb. cbv iota.
  replace (dir_entries (n_data nd) - k)%nat with (S (dir_entries (n_data nd) - S k)) by lia. cbn [seq forallb]. unfold vacant at 1.
  destruct (de_inum (dent (n_data nd) k) =? 0); simpl; [|by apply wp_ret].
  replace (16 * Z.of_nat k + 16) with (16 * Z.of_nat (S k)) by lia. apply IH; [done|lia].
Qed.

Lemma CS_isdirempty s : CS L v id r B s ->
  wp (isdirempty dev_read ip) (fun e s' => e = dir_empty (n_data nd) /\ CS L v id r B s') s.
Proof.
  intros HC. unfold isdirempty. wp_call CS_ino; [done|done|]. intros i ? [-> Hcp]. destruct (dir_copy x nmeta L v (id ip) nd i) as [Edat Hrd]; try done.
  pose proof (dir_size _ _ _ _ _ _ Hrd) as Hsz. rewrite Edat in Hsz. change 32 with (16 * Z.of_nat 2). apply CS_isdirempty_loop; [done|]. zlia.
Qed.
End pieces.

(** Slot [ip] has one more reference, to inode [n], in [id'] and [r']. *)
Record held (ip : nat) (n : Z) (id r id' r' : nat -> Z) : Prop := {
  hd_lt : (ip < NINODE)%nat;
  hd_pos : 0 <= r ip;
  hd_id : id' ip = n;
  hd_ref : forall j, r' j = r j + if decide (j = ip) then 1 else 0;
  hd_old : forall j, (j < NINODE)%nat -> 0 < r j -> id' j = id j }.

Lemma held_take ip n id r : (ip < NINODE)%nat -> 0 <= r ip -> (0 < r ip -> id ip = n) -> held ip n id r (<[ip := n]> id) (<[ip := r ip + 1]> r).
Proof.
  intros Hip Hp Hid. split; [done|done|by rewrite fn_lookup_insert|..].
  - intros j. case_decide as E; [subst; by rewrite fn_lookup_insert|]. rewrite fn_lookup_insert_ne by done. lia.
  - intros j Hj Hr. destruct (decide (j = ip)) as [->|]; [rewrite fn_lookup_insert; by rewrite Hid|by rewrite fn_lookup_insert_ne].
Qed.

Lemma held_ref ip n id r id' r' : held ip n id r id' r' -> r' ip = r ip + 1.
Proof. intros H. by rewrite (hd_ref _ _ _ _ _ _ H), decide_True. Qed.

Lemma held_le ip n id r id' r' j : held ip n id r id' r' -> r j <= r' j.
Proof. intros H. rewrite (hd_ref _ _ _ _ _ _ H j). case_decide; lia. Qed.

Lemma held_ne ip n id r id' r' j : held ip n id r id' r' -> j <> ip -> r' j = r j.
Proof. intros H Hj. rewrite (hd_ref _ _ _ _ _ _ H), decide_False by done. lia. Qed.

Lemma held_drop L v id r id' r' B ip n s : held ip n id r id' r' -> CS L v id' (<[ip := r' ip - 1]> r') B s -> CS L v id r B s.
Proof.
  intros Hh H'. assert (Er := held_ref _ _ _ _ _ _ Hh). eapply CS_ext; [exact H'|..].
  - intros j. destruct (decide (j = ip)) as [->|]; [rewrite fn_lookup_insert; lia|].
    by rewrite fn_lookup_insert_ne, (held_ne _ _ _ _ _ _ _ Hh).
  - intros j Hj Hp. symmetry. apply (hd_old _ _ _ _ _ _ Hh); [done|]. destruct (decide (j = ip)) as [->|].
    + rewrite fn_lookup_insert in Hp. lia.
    + by rewrite fn_lookup_insert_ne, (held_ne _ _ _ _ _ _ _ Hh) in Hp by done.
Qed.

(** The inode of slot [ip] is unlocked and its reference given back. *)
Lemma CS_drop L v id r id' r' B ip n nd s : CS L v id' r' B s -> held ip n id r id' r' -> ip ∈ B -> abs v n = Some nd -> n_nlink nd <> 0 ->
  wp (iunlockput ip) (fun _ s' => CS L v id r (B ∖ {[ip]}) s') s.
Proof.
  intros HC Hh HB Hn Hl. destruct (abs_some _ _ _ _ Hn) as (_ & _ & El & _).
  wp_call (CS_iunlockput x nmeta Hly); [done|done|right; rewrite (hd_id _ _ _ _ _ _ Hh); congruence|]. intros [] s' H'. by eapply held_drop.
Qed.

(** ** unlink *)

Definition failed (id r : nat -> Z) (v : Z -> list Z) (res : Z) (s' : fs_st) : Prop :=
  exists v', fs_end v' id r s' /\ fs_inv v' /\ res = -1 /\ pointwise_relation Z eq (abs v') (abs v).

Lemma wp_unlink_bad L v id r id1 r1 dp d nd s : CS L v id1 r1 {[dp]} s -> held dp d id r id1 r1 -> fs_inv v ->
  abs v d = Some nd -> n_nlink nd <> 0 -> (base.size L < NBUF)%nat -> wp (unlink_bad dp) (failed id r v) s.
Proof.
  intros HC Hh Hi Hd Hl Hroom. unfold unlink_bad. wp_call CS_drop; [done|done|set_solver|done|done|]. intros [] s1 H1.
  rewrite difference_diag_L in H1. by eapply wp_give_up.
Qed.

Section commit.
Context (v : Z -> list Z) (id r id1 r1 id2 r2 : nat -> Z) (dp ip : nat) (d : Z) (nd : node) (k : nat) (e : list Z) (n : Z) (cd : node).
Hypothesis Hinv : fs_inv v.
Hypothesis Hd : adir (abs v) d nd.
Hypothesis Hent : ent (n_data nd) k e n.
Hypothesis Hk : (2 <= k)%nat.
Hypothesis Hn : abs v n = Some cd.
Hypothesis Hempty : n_type cd = T_DIR -> forall k e n, (2 <= k)%nat -> ~ ent (n_data cd) k e n.
Hypothesis Hh1 : held dp d id r id1 r1.
Hypothesis Hh2 : held ip n id1 r1 id2 r2.
Hypothesis Hne : dp <> ip.

Let t' := tree_unlinked (abs v) d nd k n cd.

Lemma commit_dir : adir t' d (dir_unlinked nd k cd) /\ t' n = Some (add_links (-1) cd) /\ n <> d /\ id2 dp = d /\ r2 dp = r dp + 1.
Proof.
  destruct Hinv as [_ Ht]. assert (Hnd : n <> d) by (by eapply unlink_ne).
  split; [apply (proj2 (unlinked_adir (abs v) d nd k e n cd Ht Hd Hent Hk Hn Hempty d _)); by right|]. split; [unfold t', tree_unlinked; by rewrite fn_lookup_insert|]. split; [done|].
  assert (E1 := held_ref _ _ _ _ _ _ Hh1). assert (P1 := hd_pos _ _ _ _ _ _ Hh1).
  rewrite (hd_old _ _ _ _ _ _ Hh2), (hd_id _ _ _ _ _ _ Hh1), (hd_ref _ _ _ _ _ _ Hh2), decide_False; try done; [lia|apply Hh1|lia].
Qed.

(** The entry is cleared, and with it the link of the subdirectory's "..". *)
Lemma wp_unlink_entry {A} (K : M fs_st A) Q B s : CS ∅ v id2 r2 B s -> dp ∈ B ->
  (forall L' v' s', CS L' v' id2 r2 B s' -> files_ok v' -> (base.size L' <= 6)%nat ->
     pointwise_relation Z eq (abs v') (<[d := Some (dir_unlinked nd k cd)]> (abs v)) -> wp K Q s') ->
  wp (res ← writei dev_write dp (replicate 16 0) (16 * Z.of_nat k);
      if negb (res =? 16) then panic "unlink: writei" else when (n_type cd =? T_DIR) (add_nlink (-1) dp) ;; K) Q s.
Proof.
  intros HC HB HK. destruct commit_dir as (Hd' & _ & _ & Eid & _). destruct Hinv as [Hf Ht]. pose proof (ti_mod _ Ht _ _ Hd) as Hmod. destruct Hd as (Ed & Hty & Hl). assert (Hz : base.size (∅ : gset Z) = 0%nat) by apply size_empty.
  wp_call (CS_writei x nmeta Hly dev_read dev_write ∅ v id2 r2 B dp nd s); rewrite ?Eid, ?Hz; try done; try (unfold NBUF; lia); [by destruct Hent|by apply Forall_replicate|].
  intros res s1 (-> & L1 & v1 & H1 & [Hf1 Ht1 Hl1 _]). rewrite Hz in Hl1. simpl negb. cbv iota.
  destruct (Z.eqb_spec (n_type cd) T_DIR) as [Hcd|Hcd]; simpl when.
  - wp_call (CS_add_nlink v1 L1 id2 r2 B dp (set_n_data (erased k (n_data nd)) nd)); try done; try (unfold NBUF; lia).
    + rewrite Eid, Ht1. by rewrite fn_lookup_insert.
    + simpl. pose proof (node_nlink v d nd Hf Ed). pose proof (nlink_pos _ Ht _ _ Ed Hl). unfold is_s16 in *. lia.
    + intros [] s2 (L2 & v2 & H2 & [Hf2 Ht2 Hl2 _]). apply (HK L2 v2); [done|done|lia|]. rewrite Eid in Ht2.
      intros j. rewrite (Ht2 j). unfold dir_unlinked. rewrite Hcd. simpl. destruct (decide (j = d)) as [->|]; [by rewrite !fn_lookup_insert|].
      rewrite !fn_lookup_insert_ne by done. rewrite (Ht1 j). by rewrite fn_lookup_insert_ne.
  - apply wp_bind, wp_ret. apply (HK L1 v1); [done|done|lia|]. intros j. rewrite (Ht1 j). unfold dir_unlinked.
    rewrite (proj2 (Z.eqb_neq _ _) Hcd). destruct (decide (j = d)) as [->|]; [|by rewrite !fn_lookup_insert_ne]. rewrite !fn_lookup_insert.
    unfold add_links, set_n_nlink. simpl. by rewrite Z.add_0_r.
Qed.

Lemma commit_ids j : (j < NINODE)%nat -> 0 < r j -> 0 < r2 j /\ id2 j = id j.
Proof.
  intros Hj Hp. pose proof (held_le _ _ _ _ _ _ j Hh1). pose proof (held_le _ _ _ _ _ _ j Hh2). split; [lia|].
  rewrite (hd_old _ _ _ _ _ _ Hh2) by (done || lia). by apply (hd_old _ _ _ _ _ _ Hh1).
Qed.

Lemma commit_refs j : <[ip := r ip]> (<[dp := r2 dp - 1]> r2) j = r j.
Proof.
  destruct (decide (j = ip)) as [->|Hi]; [by rewrite fn_lookup_insert|]. rewrite fn_lookup_insert_ne by done.
  destruct (decide (j = dp)) as [->|Hp].
  - rewrite fn_lookup_insert, (held_ne _ _ _ _ _ _ _ Hh2), (held_ref _ _ _ _ _ _ Hh1) by done. lia.
  - rewrite fn_lookup_insert_ne by done. rewrite (held_ne _ _ _ _ _ _ _ Hh2), (held_ne _ _ _ _ _ _ _ Hh1) by done. done.
Qed.

Lemma commit_ip : r2 ip = r ip + 1 /\ 0 <= r ip.
Proof.
  assert (E : r1 ip = r ip) by (apply (held_ne _ _ _ _ _ _ _ Hh1); congruence). rewrite <- E.
  split; [by apply (held_ref _ _ _ _ _ _ Hh2)|apply Hh2].
Qed.

Lemma ref_in_use L v' B s : CS L v' id2 r2 B s -> in_use id r n = negb (r ip =? 0).
Proof.
  intros (ic & _ & Hc). destruct commit_ip as [E Hp0]. assert (Hip := hd_lt _ _ _ _ _ _ Hh2). assert (Ein := hd_id _ _ _ _ _ _ Hh2).
  apply eq_bool_prop_intro. rewrite !Is_true_true, in_use_spec, negb_true_iff, Z.eqb_neq. split.
  - intros (j & Hj & Hp & Ej). destruct (commit_ids j Hj Hp) as [Hp2 E2].
    assert (j = ip) as <-; [|lia]. apply (cv_uniq _ _ _ _ _ _ Hc); [done|done|done|lia|congruence].
  - intros Hz. exists ip. split; [done|]. split; [lia|]. rewrite <- Ein. symmetry. apply commit_ids; [done|lia].
Qed.

(** The tree at the end: the inode is freed with its last link unless it is in use. *)
Definition unlink_tree : atree := if (n_nlink cd =? 1) && negb (in_use id r n) then <[n := None]> t' else t'.

Definition unlink_done (res : Z) (s' : fs_st) : Prop :=
  exists v', fs_end v' id r s' /\ files_ok v' /\ res = 0 /\ pointwise_relation Z eq (abs v') unlink_tree.

Lemma wp_unlink_end L v1 s : CS L v1 id2 (<[ip := r ip]> (<[dp := r2 dp - 1]> r2)) ∅ s -> files_ok v1 -> (base.size L <= 9)%nat ->
  pointwise_relation Z eq (abs v1) unlink_tree -> wp (fs_end_op ;; mret 0) unlink_done s.
Proof.
  intros HC Hf1 HL E1. wp_call (wp_fs_end L v1 id r); [|done|unfold NBUF; lia|].
  - eapply CS_ext; [exact HC|intros j; by rewrite commit_refs|]. intros j Hj. rewrite commit_refs. intros Hp. symmetry. by apply commit_ids.
  - intros [] s' (v' & H' & Hf' & E'). apply wp_ret. exists v'. split_and!; [done|done|done|]. by rewrite E'.
Qed.

(** The inode loses a link and its reference is given back. *)
Lemma wp_unlink_node L v1 s : CS L v1 id2 (<[dp := r2 dp - 1]> r2) {[ip]} s -> files_ok v1 -> (base.size L <= 6)%nat ->
  pointwise_relation Z eq (abs v1) (<[d := Some (dir_unlinked nd k cd)]> (abs v)) -> in_use id r n = negb (r ip =? 0) ->
  wp (add_nlink (-1) ip ;; iunlockput ip ;; fs_end_op ;; mret 0) unlink_done s.
Proof.
  intros HC Hf1 HL E1 Euse. destruct commit_dir as (_ & Et & Hnd & _ & _). destruct commit_ip as [Er2 Hp0]. destruct Hinv as [Hf Ht].
  assert (Hcn : abs v1 n = Some cd) by (rewrite (E1 n); by rewrite fn_lookup_insert_ne). assert (Ein := hd_id _ _ _ _ _ _ Hh2).
  assert (Hnl : 1 <= n_nlink cd) by (eapply nlink_pos; [done|done|by eapply unlink_linked]).
  wp_call (CS_add_nlink v1 L id2 (<[dp := r2 dp - 1]> r2) {[ip]} ip cd Hf1); [set_solver|by rewrite Ein|unfold NBUF; lia|done| |lia|].
  { pose proof (node_nlink v n cd Hf Hn). unfold is_s16 in *. lia. }
  intros [] s2 (L2 & v2 & H2 & [Hf2 E2 Hl2 _]). rewrite Ein in E2. set (r3 := <[dp := r2 dp - 1]> r2) in *.
  assert (Er3 : r3 ip = r ip + 1) by (unfold r3; rewrite fn_lookup_insert_ne by done; lia).
  assert (E2' : pointwise_relation Z eq (abs v2) t').
  { intros j. rewrite (E2 j). unfold t', tree_unlinked. destruct (decide (j = n)) as [->|]; [by rewrite !fn_lookup_insert|].
    rewrite !fn_lookup_insert_ne by done. by rewrite (E1 j). }
  assert (Hln : d_nlink (disk_inode x v2 n) = n_nlink cd - 1).
  { assert (En : abs v2 n = Some (add_links (-1) cd)) by (by rewrite (E2' n)). by destruct (abs_some _ _ _ _ En) as (_ & _ & <- & _). }
  destruct (decide (n_nlink cd = 1 /\ r ip = 0)) as [[El Ez]|Hno].
  - wp_call (CS_reclaim x nmeta Hly Hone); [done|done|set_solver|lia|rewrite Ein; lia|unfold NBUF; lia|lia|].
    intros [] s3 (L3 & v3 & H3 & [Hf3 E3 Hl3 _]). rewrite difference_diag_L in H3. apply (wp_unlink_end L3 v3); [by rewrite Ez|done|lia|].
    rewrite Ein in E3. unfold unlink_tree. rewrite Euse, El, Ez. simpl. intros j. rewrite (E3 j).
    destruct (decide (j = n)) as [->|]; [by rewrite !fn_lookup_insert|]. rewrite !fn_lookup_insert_ne by done. apply E2'.
  - wp_call (CS_iunlockput x nmeta Hly); [done|set_solver|rewrite Ein, Er3; lia|]. intros [] s3 H3. rewrite difference_diag_L in H3.
    apply (wp_unlink_end L2 v2); [by replace (r ip) with (r3 ip - 1) by lia|done|lia|].
    unfold unlink_tree. rewrite Euse. destruct (Z.eqb_spec (n_nlink cd) 1), (Z.eqb_spec (r ip) 0); simpl; try done. lia.
Qed.

Lemma wp_unlink_finish L v1 s : CS L v1 id2 r2 ({[ip]} ∪ {[dp]}) s -> files_ok v1 -> (base.size L <= 6)%nat ->
  pointwise_relation Z eq (abs v1) (<[d := Some (dir_unlinked nd k cd)]> (abs v)) ->
  wp (iunlockput dp ;; add_nlink (-1) ip ;; iunlockput ip ;; fs_end_op ;; mret 0) unlink_done s.
Proof.
  intros HC Hf1 HL E1. destruct commit_dir as (Hd' & _ & _ & Eid & _).
  assert (Hdn : abs v1 d = Some (dir_unlinked nd k cd)) by (rewrite (E1 d); by rewrite fn_lookup_insert).
  wp_call (CS_iunlockput x nmeta Hly); [done|set_solver| |].
  { right. rewrite Eid. destruct (abs_some _ _ _ _ Hdn) as (_ & _ & <- & _). apply Hd'. }
  intros [] s1 H1. replace (({[ip]} ∪ {[dp]}) ∖ {[dp]}) with ({[ip]} : gset nat) in H1 by set_solver.
  eapply wp_unlink_node; try done. by eapply ref_in_use.
Qed.

(** From the entry that was found to the end of the call. *)
Lemma wp_unlink_found s : CS ∅ v id2 r2 {[dp]} s ->
  wp (unlink_at dev_read dev_write dp ip (16 * Z.of_nat k)) unlink_done s.
Proof.
  intros HC. unfold unlink_at. destruct commit_ip as [Er2 Hp0]. assert (Ein := hd_id _ _ _ _ _ _ Hh2). assert (Hi := Hinv). destruct Hi as [Hf Ht].
  assert (Hz : base.size (∅ : gset Z) = 0%nat) by apply size_empty.
  wp_call (CS_ilock x nmeta Hly); [done|apply Hh2|lia|set_solver|rewrite Hz; unfold NBUF; lia|]. intros [] s1 H1.
  wp_call CS_ino; [done|set_solver|]. intros i ? [-> Hcp]. rewrite Ein in Hcp. destruct (abs_some _ _ _ _ Hn) as (_ & Ety & El & _).
  assert (Hnl : 1 <= n_nlink cd) by (eapply nlink_pos; [done|done|by eapply unlink_linked]).
  rewrite (copy_nlink _ _ _ _ Hcp), (copy_type _ _ _ _ Hcp), <- El, <- Ety. replace (n_nlink cd <? 1) with false by lia.
  eapply wp_seq with (R := fun e s' => e = true /\ CS ∅ v id2 r2 ({[ip]} ∪ {[dp]}) s').
  { destruct (Z.eqb_spec (n_type cd) T_DIR) as [Hty|]; [|by apply wp_ret].
    eapply wp_mono; [eapply (CS_isdirempty v ∅ id2 r2 _ ip cd); try done; [set_solver|by rewrite Ein|rewrite Hz; unfold NBUF; lia|]|].
    - eapply (ti_mod _ Ht n). split_and!; [done|done|lia].
    - intros e' s' [-> H']. split; [|done]. by apply dir_empty_spec, Hempty. }
  intros e' s2 [-> H2]. simpl negb. cbv iota. eapply wp_unlink_entry; [done|set_solver|]. intros. by eapply wp_unlink_finish.
Qed.
End commit.

(** A directory that is not empty stays. *)
Lemma wp_unlink_nonempty v id r id1 r1 id2 r2 dp ip d nd n cd off s : fs_inv v -> adir (abs v) d nd -> adir (abs v) n cd -> dir_empty (n_data cd) = false ->
  held dp d id r id1 r1 -> held ip n id1 r1 id2 r2 -> dp <> ip -> CS ∅ v id2 r2 {[dp]} s ->
  wp (unlink_at dev_read dev_write dp ip off) (failed id r v) s.
Proof.
  intros Hi Hd Hn Hne Hh1 Hh2 Hdp HC. unfold unlink_at. assert (Ein := hd_id _ _ _ _ _ _ Hh2). assert (Hz : base.size (∅ : gset Z) = 0%nat) by apply size_empty.
  assert (Er := held_ref _ _ _ _ _ _ Hh2). assert (Hp0 := hd_pos _ _ _ _ _ _ Hh2). assert (Hmod := ti_mod _ (fi_tree _ _ _ Hi) _ _ Hn). destruct Hn as (En & Ety & El).
  wp_call (CS_ilock x nmeta Hly); [done|apply Hh2|lia|set_solver|rewrite Hz; unfold NBUF; lia|]. intros [] s1 H1.
  wp_call CS_ino; [done|set_solver|]. intros i ? [-> Hcp]. rewrite Ein in Hcp. destruct (abs_some _ _ _ _ En) as (_ & Ety' & El' & _).
  pose proof (nlink_pos _ (fi_tree _ _ _ Hi) _ _ En El). rewrite (copy_nlink _ _ _ _ Hcp), (copy_type _ _ _ _ Hcp), <- El', <- Ety', Ety.
  replace (n_nlink cd <? 1) with false by lia. simpl Z.eqb. cbv iota.
  wp_call (CS_isdirempty v ∅ id2 r2 ({[ip]} ∪ {[dp]}) ip cd (fi_files _ _ _ Hi)); [set_solver|by rewrite Ein|rewrite Hz; unfold NBUF; lia|done|done|done|].
  intros e s2 [-> H2]. rewrite Hne. simpl negb. cbv iota. wp_call CS_drop; [done|done|set_solver|done|done|]. intros [] s3 H3.
  replace (({[ip]} ∪ {[dp]}) ∖ {[ip]}) with ({[dp]} : gset nat) in H3 by set_solver.
  destruct Hd as (? & _ & ?). eapply wp_unlink_bad; try done. rewrite Hz. unfold NBUF. lia.
Qed.

(** The parent directory of a path, reached and locked. *)
Lemma wp_lock_parent {A} (K : nat -> list Z -> M fs_st A) (N : M fs_st A) Q L v id r path n k s : files_ok v -> walkable (abs v) -> CS L v id r ∅ s ->
  origin x c v id r path n -> Forall (fun b => b <> 0) path -> room (S (S k)) r -> (base.size L < NBUF)%nat ->
  (forall s', aparent (abs v) n (elems path) = None -> CS L v id r ∅ s' -> wp N Q s') ->
  (forall dp d nd e name id1 r1 s', aparent (abs v) n (elems path) = Some (d, nd, e) -> adir (abs v) d nd -> last (elems path) = Some e ->
     str_take DIRSIZ name = str_take DIRSIZ e -> held dp d id r id1 r1 -> room (S k) r1 -> CS L v id1 r1 ({[dp]} ∪ ∅) s' -> wp (K dp name) Q s') ->
  wp ('(o, name) ← nameiparent dev_read path name0;
      match (o : option nat) with None => N | Some dp => ilock dp ;; K dp name end) Q s.
Proof.
  intros Hf Hw HC Ho Hp Hr Hz HN HK. destruct (origin_starts x c L v id r Hw path n s HC Ho) as [_ Hal].
  wp_call (CS_nameiparent x nmeta Hly dev_read c L v id r Hf Hw path n k s HC Ho Hp); [done|done|done|].
  intros [o name] s1. cbn [fst snd]. unfold aparent in HN, HK. destruct (aresolve (abs v) true n (elems path)) as [d|] eqn:Ed.
  - intros (dp & e & -> & Hl & Hname & H1 & Hdp & Hid). rewrite Hl in HN, HK.
    destruct (aresolve_alive (abs v) true (elems path) Hw n d Hal Ed) as [_ Had]. destruct (Had eq_refl) as (nd & Hd). rewrite (proj1 Hd) in HK.
    assert (Hp0 : 0 <= r dp) by (by apply Hr).
    wp_call (CS_ilock x nmeta Hly); [done|done|rewrite fn_lookup_insert; lia|set_solver|done|]. intros [] s2 H2.
    eapply HK; try done; [by apply held_take|by apply room_take].
  - intros [-> H1]. apply HN; [done|done].
Qed.

(** The outcome of a call whose effect on the tree is [o]. *)
Definition outcome (id r : nat -> Z) (v : Z -> list Z) (o : option atree) (res : Z) (s' : fs_st) : Prop :=
  exists v', fs_rest v' id r s' /\ fs_inv v' /\ recovers v v' s' /\
    match o with
    | Some t => res = 0 /\ pointwise_relation Z eq (abs v') t
    | None => res = -1 /\ pointwise_relation Z eq (abs v') (abs v)
    end.

Section outcome.
Context (v : Z -> list Z) (id r : nat -> Z).
Hypothesis Hrest : fs_rest v id r s0.
Hypothesis Hinv : fs_inv v.

Lemma failed_outcome {m : M fs_st Z} s : wp m (failed id r v) s -> wp m (outcome id r v None) s.
Proof.
  intros H. eapply wp_mono; [exact H|]. intros res s' (v' & He & ? & ? & ?). exists v'. split_and!; [apply He|done|by eapply end_recovers|done|done].
Qed.

Lemma done_outcome v' t s' : fs_end v' id r s' -> files_ok v' -> pointwise_relation Z eq (abs v') t -> tree_inv t -> outcome id r v (Some t) 0 s'.
Proof.
  intros He Hf E Ht. assert (Hi : fs_inv v') by (split; [done|by rewrite E]). exists v'. split_and!; [apply He|done|by eapply end_recovers|done|done].
Qed.
End outcome.

Lemma wp_unlink_at v id r id1 r1 dp ip d nd e k s : let m := de_inum (dent (n_data nd) k) in
  fs_rest v id r s0 -> fs_inv v -> adir (abs v) d nd -> is_dots e = false -> dir_find e (n_data nd) = Some k -> held dp d id r id1 r1 ->
  (ip < NINODE)%nat -> 0 <= r1 ip -> (0 < r1 ip -> id1 ip = m) -> CS ∅ v (<[ip := m]> id1) (<[ip := r1 ip + 1]> r1) {[dp]} s ->
  exists cd, abs v m = Some cd /\
  ((forall t, (if (n_type cd =? T_DIR) && negb (dir_empty (n_data cd)) then None else Some (unlink_tree v id r d nd k m cd)) = Some t -> tree_inv t) ->
   wp (unlink_at dev_read dev_write dp ip (16 * Z.of_nat k)) (outcome id r v
    (if (n_type cd =? T_DIR) && negb (dir_empty (n_data cd)) then None else Some (unlink_tree v id r d nd k m cd))) s).
Proof.
  intros m Hrest Hi Hd Edots Ek Hh1 Hip Hp0 Hid HC. assert (Hent := dir_find_some _ _ _ Ek). fold m in Hent. assert (Ht := fi_tree _ _ _ Hi).
  assert (Hk : (2 <= k)%nat) by (by eapply find_not_dots). assert (Hm : refers (abs v) d k (str_take DIRSIZ e) m) by (by exists nd).
  destruct (refers_live _ _ _ _ _ Ht Hm) as (cd & Ec & El). exists cd. split; [done|]. intros Hspec.
  assert (Hne : m <> d) by (by apply (ti_child _ Ht _ _ _ _ Hm)).
  assert (Hh2 : held ip m id1 r1 (<[ip := m]> id1) (<[ip := r1 ip + 1]> r1)) by (by apply held_take).
  assert (Hdp : dp <> ip).
  { intros <-. apply Hne. rewrite <- (hd_id _ _ _ _ _ _ Hh1). symmetry. apply Hid. rewrite (held_ref _ _ _ _ _ _ Hh1).
    pose proof (hd_pos _ _ _ _ _ _ Hh1). lia. }
  destruct ((n_type cd =? T_DIR) && negb (dir_empty (n_data cd))) eqn:Ee.
  - apply andb_true_iff in Ee as [Hty%Z.eqb_eq Hemp%negb_true_iff]. eapply failed_outcome; [done|done|].
    eapply (wp_unlink_nonempty v id r id1 r1); [done|done|by split_and!|done..].
  - eapply wp_mono; [eapply (wp_unlink_found v id r id1 r1); try done|].
    + intros Hty. rewrite Hty in Ee. apply dir_empty_spec. by destruct (dir_empty (n_data cd)).
    + intros ? s' (v' & Hr' & Hf' & -> & E'). eapply done_outcome; try done. by apply Hspec.
Qed.

(** C3 [unlink] removes the name from the directory tree as [aunlink] says:
    the entry goes, a removed subdirectory takes the link of its ".." from the
    parent, and the inode loses a link and is freed with its blocks when that
    was the last one and nobody has the file open; "." and "..", missing names
    and directories that are not empty are refused and change nothing.  The
    disk is in order afterwards, every reference taken is given back, and after
    a crash at any disk write recovery finds the old tree or the new one. *)
Theorem unlink_refines v id r path n :
  fs_rest v id r s0 -> fs_inv v -> origin x c v id r path n -> Forall (fun b => b <> 0) path -> room 2 r ->
  wp (unlink dev_read dev_write path) (outcome id r v (aunlink (in_use id r) (abs v) n (elems path))) s0.
Proof.
  intros Hrest Hi Ho Hp Hr. assert (Hw := tree_walkable _ (fi_tree _ _ _ Hi)).
  assert (Hz : (base.size (∅ : gset Z) < NBUF)%nat) by (rewrite size_empty; unfold NBUF; lia).
  unfold unlink. wp_call wp_fs_begin; [done|]. intros [] s1 H1. destruct (origin_starts x c ∅ v id r Hw path n s1 H1 Ho) as [_ Hal].
  pose proof (fun t => aunlink_inv (abs v) (fi_tree _ _ _ Hi) (in_use id r) n (elems path) t Hal) as Hspec.
  eapply (wp_lock_parent _ _ _ ∅ v id r path n); [apply Hi|done|done|done|done|done|done|..].
  { intros s2 Ep H2. unfold aunlink. rewrite Ep. eapply failed_outcome; [done|done|]. by eapply wp_give_up. }
  intros dp d nd e name id1 r1 s2 Ep Hd _ Hname Hh1 Hr1 H2. rewrite union_empty_r_L in H2. unfold aunlink in *. rewrite Ep in *.
  assert (Hbad : forall s', CS ∅ v id1 r1 {[dp]} s' -> wp (unlink_bad dp) (outcome id r v None) s')
    by (intros; eapply failed_outcome; [done|done|]; destruct Hd as (? & _ & ?); by eapply wp_unlink_bad).
  rewrite !namecmp_zero, Hname. change (str_take DIRSIZ (DOT ++ [0])) with DOT. change (str_take DIRSIZ (DOTDOT ++ [0])) with DOTDOT. fold (is_dots e).
  destruct (is_dots e) eqn:Edots; [by apply Hbad|].
  wp_call (CS_dirlookup x nmeta Hly dev_read); [done|apply Hi|done|set_solver|by rewrite (hd_id _ _ _ _ _ _ Hh1)|done|done|].
  rewrite (dir_find_ext _ _ _ Hname). intros res s3 H3. destruct (dir_find e (n_data nd)) as [k|] eqn:Ek; [|destruct H3 as [-> H3]; by apply Hbad].
  destruct H3 as (ip & -> & H3 & Hip & Hid). cbv zeta in *.
  destruct (wp_unlink_at v id r id1 r1 dp ip d nd e k s3) as (cd & Ec & Hwp); try done; [by apply Hr1|].
  rewrite Ec in *. by apply Hwp.
Qed.

(** ** link *)

Lemma CS_ino_id L v id r B ip s : CS L v id r B s -> (ip < NINODE)%nat -> 0 < r ip ->
  wp (ino ip) (fun i s' => s' = s /\ i_dev i = 1 /\ i_inum i = id ip) s.
Proof.
  intros (ic & HT & Hc) Hip Hp. eapply wp_mono; [by eapply FT_ino|]. intros i s' [-> ->]. split; [done|].
  by destruct (cv_slot _ _ _ _ _ _ Hc ip Hip Hp) as (? & ? & _).
Qed.

Section link.
Context (v : Z -> list Z) (id r id1 r1 : nat -> Z) (ip : nat) (m : Z) (cd : node).
Hypothesis Hinv : fs_inv v.
Hypothesis Hm : abs v m = Some cd.
Hypothesis Hlive : n_nlink cd <> 0.
Hypothesis Hmax : n_nlink cd < 32767.
Hypothesis Hh : held ip m id r id1 r1.

Let t1 := <[m := Some (add_links 1 cd)]> (abs v).

Lemma link_nlink : 1 <= n_nlink cd /\ is_s16 (n_nlink cd).
Proof. destruct Hinv as [Hf Ht]. split; [by eapply nlink_pos|by eapply node_nlink]. Qed.

(** The link count is set back. *)
Lemma wp_link_bad L v1 s : CS L v1 id1 r1 ∅ s -> files_ok v1 -> (base.size L <= 6)%nat -> pointwise_relation Z eq (abs v1) t1 ->
  wp (link_bad ip) (failed id r v) s.
Proof.
  intros HC Hf1 HL E1. destruct link_nlink as [Hp Hs]. assert (Ein := hd_id _ _ _ _ _ _ Hh). assert (Er := held_ref _ _ _ _ _ _ Hh).
  assert (Hp0 := hd_pos _ _ _ _ _ _ Hh). assert (E1m : abs v1 m = Some (add_links 1 cd)) by (rewrite (E1 m); unfold t1; by rewrite fn_lookup_insert).
  unfold link_bad. wp_call (CS_ilock x nmeta Hly); [done|apply Hh|lia|set_solver|unfold NBUF; lia|]. intros [] s1 H1.
  wp_call (CS_add_nlink v1 L id1 r1 ({[ip]} ∪ ∅) ip (add_links 1 cd) Hf1); [set_solver|by rewrite Ein|unfold NBUF; lia|done| |lia|].
  { simpl. unfold is_s16 in *. lia. }
  intros [] s2 (L2 & v2 & H2 & [Hf2 E2 Hl2 _]). rewrite Ein in E2.
  assert (E2' : pointwise_relation Z eq (abs v2) (abs v)).
  { intros j. rewrite (E2 j). destruct (decide (j = m)) as [->|].
    - rewrite fn_lookup_insert, Hm. unfold add_links, set_n_nlink. simpl. replace (n_nlink cd + 1 + -1) with (n_nlink cd) by lia. by destruct cd.
    - rewrite fn_lookup_insert_ne by done. rewrite (E1 j). unfold t1. by rewrite fn_lookup_insert_ne. }
  assert (Hi2 : fs_inv v2) by (split; [done|rewrite E2'; apply Hinv]).
  wp_call (CS_drop L2 v2 id r id1 r1); [done|done|set_solver|rewrite (E2' m); done|done|]. intros [] s3 H3.
  replace (({[ip]} ∪ ∅) ∖ {[ip]}) with (∅ : gset nat) in H3 by set_solver.
  eapply wp_mono; [eapply wp_give_up; [done|done|unfold NBUF; lia]|]. intros res s' (v' & ? & ? & ? & E'). exists v'. split_and!; try done. by rewrite E', E2'.
Qed.

Hypothesis Hfile : n_type cd <> T_DIR.

Section entry.
Context (L : gset Z) (v1 : Z -> list Z) (id2 r2 : nat -> Z) (dp : nat) (d : Z) (nd : node) (e name : list Z).
Hypothesis Hf1 : files_ok v1.
Hypothesis HL : (base.size L <= 1)%nat.
Hypothesis E1 : pointwise_relation Z eq (abs v1) t1.
Hypothesis Hd : adir (abs v1) d nd.
Hypothesis Hname : str_take DIRSIZ name = str_take DIRSIZ e.
Hypothesis Hh2 : held dp d id1 r1 id2 r2.

Lemma link_facts : d <> m /\ dp <> ip /\ adir (abs v) d nd /\ id2 ip = m /\ 0 < r2 ip /\ id2 dp = d.
Proof.
  assert (Ep := held_ref _ _ _ _ _ _ Hh). assert (Hp0 := hd_pos _ _ _ _ _ _ Hh). assert (Hle := held_le _ _ _ _ _ _ ip Hh2).
  assert (Hdm : d <> m).
  { intros ->. destruct Hd as (E & Hty & _). rewrite (E1 m) in E. unfold t1 in E. rewrite fn_lookup_insert in E. injection E as <-. done. }
  assert (Ei : id2 ip = m) by (rewrite (hd_old _ _ _ _ _ _ Hh2), (hd_id _ _ _ _ _ _ Hh); [done|apply Hh|lia]). assert (Ed := hd_id _ _ _ _ _ _ Hh2).
  split_and!; [done|congruence| |done|lia|done]. destruct Hd as (E & ? & ?). split; [|done]. rewrite (E1 d) in E. unfold t1 in E.
  by rewrite fn_lookup_insert_ne in E.
Qed.

(** The name is taken. *)
Lemma wp_link_exists k s : CS L v1 id2 r2 ({[dp]} ∪ ∅) s -> walkable (abs v1) -> room 1 r2 -> dir_find e (n_data nd) = Some k ->
  wp (link_at dev_read dev_write ip dp name) (failed id r v) s.
Proof.
  intros HC Hw Hr Hk. destruct link_facts as (Hdm & Hdi & Had & Ei & Hpi & Ed). unfold link_at.
  wp_call CS_ino_id; [done|apply Hh2| |]. { rewrite (held_ref _ _ _ _ _ _ Hh2). pose proof (hd_pos _ _ _ _ _ _ Hh2). lia. }
  intros i1 ? (-> & -> & _). wp_call CS_ino_id; [done|apply Hh|done|]. intros i2 ? (-> & -> & ->). rewrite Ei. simpl negb. cbv iota.
  wp_call (CS_dirlink_exists x nmeta Hly dev_read dev_write); [done|done|done|set_solver|by rewrite Ed|unfold NBUF; lia|done|rewrite (dir_find_ext _ _ _ Hname); done|].
  intros res s1 [-> H1]. change (-1 <? 0) with true. cbv iota. destruct Hd as (Hd1 & _ & Hd2). wp_call (CS_drop L v1 id1 r1 id2 r2 ({[dp]} ∪ ∅) dp d nd); [done|done|set_solver|done|done|].
  intros [] s2 H2. replace (({[dp]} ∪ ∅) ∖ {[dp]}) with (∅ : gset nat) in H2 by set_solver. eapply wp_link_bad; [done|done|lia|done].
Qed.

(** The name is new. *)
Lemma wp_link_new s : fs_rest v id r s0 -> CS L v1 id2 r2 ({[dp]} ∪ ∅) s -> dir_find e (n_data nd) = None -> bytes_ok e -> Z.of_nat (dir_slot (n_data nd)) < 4480 ->
  (2 <= nfree x v1)%nat -> tree_inv (tree_linked (abs v) d nd m cd e) ->
  wp (link_at dev_read dev_write ip dp name) (outcome id r v (Some (tree_linked (abs v) d nd m cd e))) s.
Proof.
  intros Hrest HC Hk He Hfull Hnf Hspec. destruct link_facts as (Hdm & Hdi & Had & Ei & Hpi & Ed). assert (Ht := fi_tree _ _ _ Hinv). unfold link_at.
  assert (Hp2 : 0 < r2 dp) by (rewrite (held_ref _ _ _ _ _ _ Hh2); pose proof (hd_pos _ _ _ _ _ _ Hh2); lia).
  wp_call CS_ino_id; [done|apply Hh2|done|]. intros i1 ? (-> & -> & _). wp_call CS_ino_id; [done|apply Hh|done|]. intros i2 ? (-> & -> & ->).
  rewrite Ei. simpl negb. cbv iota. destruct Hd as (Hd1 & Hty & Hd2). assert (Hmod := ti_mod _ Ht _ _ Had). pose proof (ti_range _ Ht _ _ Hm).
  wp_call (CS_dirlink x nmeta Hly dev_read dev_write L v1 id2 r2 ({[dp]} ∪ ∅) dp nd s HC Hf1); try done; rewrite ?Ed; try done; try (unfold NBUF; lia); try lia.
  { set_solver. } { by rewrite (dir_find_ext _ _ _ Hname). } { rewrite Hname. by apply str_take_ok. }
  intros res s1 (-> & L2 & v2 & H2 & [Hf2 E2 Hl2 _]). change (0 <? 0) with false. cbv iota.
  assert (E2' : pointwise_relation Z eq (abs v2) (tree_linked (abs v) d nd m cd e)).
  { intros j. rewrite (E2 j). unfold tree_linked. destruct (decide (j = d)) as [->|].
    - rewrite fn_lookup_insert, fn_lookup_insert_ne, fn_lookup_insert by done. unfold linked, strncpy_l. by rewrite Hname.
    - rewrite fn_lookup_insert_ne by done. rewrite (E1 j). unfold t1. destruct (decide (j = m)) as [->|]; [by rewrite !fn_lookup_insert|]. by rewrite !fn_lookup_insert_ne. }
  wp_call (CS_drop L2 v2 id1 r1 id2 r2 _ dp d (set_n_data (linked (n_data nd) m name) nd)); [done|done|set_solver|by rewrite (E2 d), fn_lookup_insert|done|].
  intros [] s2 H3. replace (({[dp]} ∪ ∅) ∖ {[dp]}) with (∅ : gset nat) in H3 by set_solver.
  assert (Em : abs v2 m = Some (add_links 1 cd)) by (rewrite (E2' m); unfold tree_linked; by rewrite fn_lookup_insert).
  destruct (abs_some _ _ _ _ Em) as (_ & _ & El & _). destruct link_nlink as [Hl1 _].
  assert (Er := held_ref _ _ _ _ _ _ Hh). assert (Hp0 := hd_pos _ _ _ _ _ _ Hh).
  wp_call CS_iput; [done|apply Hh|lia|set_solver|right; rewrite (hd_id _ _ _ _ _ _ Hh), <- El; simpl; lia|]. intros [] s3 H4.
  wp_call (wp_fs_end L2 v2 id r); [|done|unfold NBUF; lia|].
  { by eapply held_drop. }
  intros [] s4 (v4 & H5 & Hf4 & E4). apply wp_ret. eapply done_outcome; try done. by rewrite E4.
Qed.
End entry.
End link.

Lemma origin_held v v1 id r id1 r1 ip m path n : origin x c v id r path n -> held ip m id r id1 r1 -> relinked (abs v) (abs v1) ->
  origin x c v1 id1 r1 path n.
Proof.
  unfold origin. intros Ho Hh Hr. case_decide; [done|]. destruct Ho as (jp & -> & Hj & Hp & <- & Hal). pose proof (held_le _ _ _ _ _ _ jp Hh).
  exists jp. split_and!; [done|done|lia|by apply (hd_old _ _ _ _ _ _ Hh)|]. by eapply relinked_alive.
Qed.

(** [link] from the second path on. *)
Lemma wp_link_name v id r id1 r1 ip m cd L v1 new n' s : fs_rest v id r s0 -> fs_inv v -> abs v m = Some cd -> n_nlink cd <> 0 -> n_nlink cd < 32767 -> n_type cd <> T_DIR ->
  held ip m id r id1 r1 -> files_ok v1 -> (base.size L <= 1)%nat -> pointwise_relation Z eq (abs v1) (<[m := Some (add_links 1 cd)]> (abs v)) ->
  (nfree x v <= nfree x v1 + 0)%nat -> CS L v1 id1 r1 ∅ s ->
  origin x c v id r new n' -> Forall (fun b => b <> 0) new -> bytes_ok new -> room 2 r1 ->
  (forall d nd e, aparent (abs v) n' (elems new) = Some (d, nd, e) -> Z.of_nat (dir_slot (n_data nd)) < 4480) -> (2 <= nfree x v)%nat ->
  (forall t, match aparent (abs v) n' (elems new) with
    | None => None
    | Some (d, nd, e) => match dir_find e (n_data nd) with Some _ => None | None => Some (tree_linked (abs v) d nd m cd e) end
    end = Some t -> tree_inv t) ->
  wp ('(o, name) ← nameiparent dev_read new name0;
      match (o : option nat) with None => link_bad ip | Some dp => ilock dp ;; link_at dev_read dev_write ip dp name end)
    (outcome id r v match aparent (abs v) n' (elems new) with
      | None => None
      | Some (d, nd, e) => match dir_find e (n_data nd) with Some _ => None | None => Some (tree_linked (abs v) d nd m cd e) end
      end) s.
Proof.
  intros Hrest Hi Hm Hl Hmax Hfile Hh Hf1 HL E1 Hn1 H5 Ho' Hnew Hb Hr Hfull Hnf Hspec. destruct (link_nlink v m cd Hi Hm Hl) as [Hl1 _].
  assert (Hrel : relinked (abs v) (abs v1)) by (rewrite E1; apply relinked_links; [done|lia]). assert (Hw := tree_walkable _ (fi_tree _ _ _ Hi)).
  eapply (wp_lock_parent _ _ _ L v1 id1 r1 new n' 0); [done|by eapply relinked_walkable|done|by eapply origin_held|done|done|unfold NBUF; lia|..].
  { intros s6 Ep H6. rewrite (relinked_aparent_none _ _ _ _ Hrel Ep). eapply failed_outcome; [done|done|]. eapply (wp_link_bad v id r id1 r1); try done. lia. }
  intros dp d nd e name id2 r2 s6 Ep Hd Hlast Hname Hh2 Hr2 H6.
  destruct (link_facts v id r id1 r1 ip m cd Hh Hfile L v1 id2 r2 dp d nd HL E1 Hd Hh2) as (_ & _ & Had & _).
  rewrite (relinked_aparent _ _ _ _ _ _ _ Hrel Ep (proj1 Had)) in Hspec, Hfull |- *. destruct (dir_find e (n_data nd)) as [k|] eqn:Ek.
  - eapply failed_outcome; [done|done|]. eapply (wp_link_exists v id r id1 r1); try done. by eapply relinked_walkable.
  - eapply (wp_link_new v id r id1 r1); try done; [|by eapply Hfull|lia|by apply Hspec].
    apply last_Some_elem_of in Hlast. apply (elems_ok is_u8) in Hb. by eapply Forall_forall in Hlast.
Qed.

(** C5 [link] gives the file a second name as [alink] says: the new entry is
    added and the inode has one link more; it refuses a missing file, a
    directory, a missing directory of the new name and a name that is taken,
    and then the link count that it had raised is back.  After a crash at any
    disk write recovery finds the old tree or the new one. *)
Theorem link_refines v id r old new n n' :
  fs_rest v id r s0 -> fs_inv v -> origin x c v id r old n -> origin x c v id r new n' ->
  Forall (fun b => b <> 0) old -> Forall (fun b => b <> 0) new -> bytes_ok new -> room 3 r ->
  (forall m cd, aresolve (abs v) false n (elems old) = Some m -> abs v m = Some cd -> n_nlink cd < 32767) ->
  (forall d nd e, aparent (abs v) n' (elems new) = Some (d, nd, e) -> Z.of_nat (dir_slot (n_data nd)) < 4480) ->
  (2 <= nfree x v)%nat ->
  wp (link dev_read dev_write old new) (outcome id r v (alink (abs v) n (elems old) n' (elems new))) s0.
Proof.
  intros Hrest Hi Ho Ho' Hold Hnew Hb Hr Hmax Hfull Hnf. assert (Hw := tree_walkable _ (fi_tree _ _ _ Hi)).
  assert (Hz : base.size (∅ : gset Z) = 0%nat) by apply size_empty.
  assert (Hz' : (base.size (∅ : gset Z) < NBUF)%nat) by (rewrite Hz; unfold NBUF; lia).
  unfold link. wp_call wp_fs_begin; [done|]. intros [] s1 H1. destruct (origin_starts x c ∅ v id r Hw old n s1 H1 Ho) as [_ Hal].
  destruct (origin_starts x c ∅ v id r Hw new n' s1 H1 Ho') as [_ Hal'].
  pose proof (fun t => alink_inv (abs v) (fi_tree _ _ _ Hi) n (elems old) n' (elems new) t Hal') as Hspec.
  wp_call (CS_namei x nmeta Hly dev_read c ∅ v id r (fi_files _ _ _ Hi) Hw old n 1 s1 H1 Ho Hold Hz' Hr). unfold alink in *.
  destruct (aresolve (abs v) false n (elems old)) as [m|] eqn:Em.
  2:{ intros res s2 [-> H2]. eapply failed_outcome; [done|done|]. by eapply wp_give_up. }
  intros res s2 (ip & -> & H2 & Hip & Hid). assert (Hh : held ip m id r (<[ip := m]> id) (<[ip := r ip + 1]> r)) by (apply held_take; [done|by apply Hr|done]).
  apply room_take with (ip := ip) in Hr. set (id1 := <[ip := m]> id) in *. set (r1 := <[ip := r ip + 1]> r) in *. assert (Ein := hd_id _ _ _ _ _ _ Hh).
  destruct (aresolve_alive (abs v) false (elems old) Hw n m Hal Em) as [(cd & Hm & Hl) _]. rewrite Hm in *. specialize (Hmax m cd eq_refl Hm).
  assert (Hp1 : 0 < r1 ip) by (rewrite (held_ref _ _ _ _ _ _ Hh); pose proof (hd_pos _ _ _ _ _ _ Hh); lia).
  wp_call (CS_ilock x nmeta Hly); [done|done|done|set_solver|done|]. intros [] s3 H3. rewrite union_empty_r_L in H3.
  wp_call CS_ino; [done|set_solver|]. intros i ? [-> Hcp]. rewrite Ein in Hcp. destruct (abs_some _ _ _ _ Hm) as (_ & Ety & _).
  rewrite (copy_type _ _ _ _ Hcp), <- Ety. destruct (Z.eqb_spec (n_type cd) T_DIR) as [|Hfile]; [eapply failed_outcome; [done|done|]; by eapply (wp_unlink_bad ∅ v id r id1 r1)|].
  destruct (link_nlink v m cd Hi Hm Hl) as [Hl1 Hl2].
  wp_call (CS_add_nlink v ∅ id1 r1 {[ip]} ip cd (fi_files _ _ _ Hi)); [set_solver|by rewrite Ein|done|done|unfold is_s16 in *; lia|lia|].
  intros [] s4 (L1 & v1 & H4 & [Hf1 E1 Hl3 Hn1]). rewrite Ein in E1. rewrite Hz in Hl3.
  wp_call (CS_iunlock x nmeta Hly); [done|set_solver|]. intros [] s5 H5. rewrite difference_diag_L in H5.
  eapply (wp_link_name v id r id1 r1); try done; lia.
Qed.

(** ** create *)

Lemma held_swap dp d ip m id r id1 r1 id2 r2 : held dp d id r id1 r1 -> held ip m id1 r1 id2 r2 -> held ip m id r id2 (<[dp := r2 dp - 1]> r2).
Proof.
  intros Hh1 Hh2. assert (Hp := hd_pos _ _ _ _ _ _ Hh1). assert (Hp2 := hd_pos _ _ _ _ _ _ Hh2). split; [apply Hh2| |apply Hh2|..].
  - pose proof (hd_ref _ _ _ _ _ _ Hh1 ip) as E. case_decide; subst; lia.
  - intros j. pose proof (hd_ref _ _ _ _ _ _ Hh1 j) as E1. pose proof (hd_ref _ _ _ _ _ _ Hh2 j) as E2.
    destruct (decide (j = dp)) as [->|]; [rewrite fn_lookup_insert|rewrite fn_lookup_insert_ne by done]; lia.
  - intros j Hj Hr. pose proof (held_le _ _ _ _ _ _ j Hh1). rewrite (hd_old _ _ _ _ _ _ Hh2) by (done || lia). by apply (hd_old _ _ _ _ _ _ Hh1).
Qed.

(** What [create] leaves: the inode [m], locked, in the tree [t]. *)
Definition created (id r : nat -> Z) (m : Z) (t : atree) (o : option nat) (s : fs_st) : Prop :=
  exists ip id' r' L v, o = Some ip /\ held ip m id r id' r' /\ CS L v id' r' {[ip]} s /\ files_ok v /\ pointwise_relation Z eq (abs v) t /\
    alive t m /\ (base.size L <= 18)%nat.

Lemma created_ext id r m t t' o s : pointwise_relation Z eq t t' -> created id r m t o s -> created id r m t' o s.
Proof.
  intros Et (ip & id' & r' & L & v & -> & Hh & HC & Hf & E & (md & Hm & Hl) & HL). exists ip, id', r', L, v.
  split_and!; try done; [by rewrite E|]. exists md. by rewrite <- (Et m).
Qed.

(** The name exists. *)
Lemma wp_create_old v id r id1 r1 id2 r2 dp ip d nd m cd type s : fs_inv v -> adir (abs v) d nd -> held dp d id r id1 r1 -> held ip m id1 r1 id2 r2 ->
  abs v m = Some cd -> n_nlink cd <> 0 -> CS ∅ v id2 r2 {[dp]} s ->
  wp (iunlockput dp ;; ilock ip ;; i ← ino ip;
      if (type =? T_FILE) && (i_type i =? T_FILE) then mret (Some ip) else iunlockput ip ;; mret None)
    (fun o s' => if (type =? T_FILE) && (n_type cd =? T_FILE) then created id r m (abs v) o s' else o = None /\ CS ∅ v id r ∅ s') s.
Proof.
  intros Hi (Hd & _ & Hl) Hh1 Hh2 Hm Hlm HC. assert (Hz : base.size (∅ : gset Z) = 0%nat) by apply size_empty.
  assert (Hh := held_swap _ _ _ _ _ _ _ _ _ _ Hh1 Hh2). assert (Hp := hd_pos _ _ _ _ _ _ Hh). assert (Er := held_ref _ _ _ _ _ _ Hh).
  assert (Hdp : id2 dp = d).
  { rewrite (hd_old _ _ _ _ _ _ Hh2); [apply Hh1|apply Hh1|]. rewrite (held_ref _ _ _ _ _ _ Hh1). pose proof (hd_pos _ _ _ _ _ _ Hh1). lia. }
  wp_call (CS_iunlockput x nmeta Hly); [done|set_solver| |].
  { right. rewrite Hdp. destruct (abs_some _ _ _ _ Hd) as (_ & _ & <- & _). done. }
  intros [] s1 H1. rewrite difference_diag_L in H1.
  wp_call (CS_ilock x nmeta Hly); [done|apply Hh|lia|set_solver|rewrite Hz; unfold NBUF; lia|]. intros [] s2 H2. rewrite union_empty_r_L in H2.
  wp_call CS_ino; [done|set_solver|]. intros i ? [-> Hcp]. rewrite (hd_id _ _ _ _ _ _ Hh) in Hcp.
  destruct (abs_some _ _ _ _ Hm) as (_ & Ety & _). rewrite (copy_type _ _ _ _ Hcp), <- Ety. destruct (_ && _).
  - apply wp_ret. eexists ip, id2, _, ∅, v. split_and!; try done; [apply Hi|by exists cd|rewrite Hz; lia].
  - wp_call (CS_drop ∅ v id r id2 (<[dp := r2 dp - 1]> r2) {[ip]} ip m cd); [done|done|set_solver|done|done|]. intros [] s3 H3.
    rewrite difference_diag_L in H3. by apply wp_ret.
Qed.

Section fresh.
Context (v : Z -> list Z) (id r id1 r1 : nat -> Z) (dp : nat) (d : Z) (nd : node) (e name : list Z) (m type major minor : Z).
Hypothesis Hinv : fs_inv v.
Hypothesis Hd : adir (abs v) d nd.
Hypothesis Hh1 : held dp d id r id1 r1.
Hypothesis Hfree : free_inode x v m.
Hypothesis Hname : str_take DIRSIZ name = str_take DIRSIZ e.
Hypothesis He : bytes_ok e.
Hypothesis Hfind : dir_find e (n_data nd) = None.
Hypothesis Htype : is_s16 type /\ type <> 0.
Hypothesis Hdev : is_s16 major /\ is_s16 minor.
Hypothesis Hfull : Z.of_nat (dir_slot (n_data nd)) < 4480.
Hypothesis Hblocks : (6 <= nfree x v)%nat.
(** A directory entry has 16 bits for the inode. *)
Hypothesis Hino : sb_ninodes x <= 65536.

Lemma fresh_facts : abs v m = None /\ m <> d /\ 1 <= m < 65536 /\ 1 <= d < 65536 /\ 0 < r1 dp /\ id1 dp = d.
Proof.
  destruct Hfree as (Hr & Ht & _). assert (Hn : abs v m = None) by (unfold FsAbs.abs; rewrite decide_False; [done|by intros [_ ?]]).
  assert (Hdr := ti_range _ (fi_tree _ _ _ Hinv) _ _ (proj1 Hd)).
  split_and!; try done; try lia; [intros ->; destruct Hd; congruence| |by apply Hh1].
  - rewrite (held_ref _ _ _ _ _ _ Hh1). pose proof (hd_pos _ _ _ _ _ _ Hh1). lia.
Qed.

(** The inode is taken and written with one link. *)
Lemma wp_create_node {A} (K : nat -> M fs_st A) Q s : CS ∅ v id1 r1 {[dp]} s -> room 1 r1 ->
  (forall ip id2 r2 L v1 s', held ip m id1 r1 id2 r2 -> dp <> ip -> CS L v1 id2 r2 ({[ip]} ∪ {[dp]}) s' -> files_ok v1 -> (base.size L <= 2)%nat ->
     pointwise_relation Z eq (abs v1) (<[m := Some (Node type major minor 1 [])]> (abs v)) -> (6 <= nfree x v1)%nat -> wp (K ip) Q s') ->
  wp (ip ← ialloc 1 type; ilock ip ;; upd_ino ip (set_i_node major minor 1) ;; iupdate ip ;; K ip) Q s.
Proof.
  intros HC Hr HK. destruct fresh_facts as (Hm & Hmd & Hmr & _ & Hp & _). assert (Hz : base.size (∅ : gset Z) = 0%nat) by apply size_empty.
  wp_call (CS_ialloc x nmeta Hly); [done|apply Hinv|done|apply Htype|apply Htype|rewrite Hz; unfold NBUF; lia|rewrite Hz; lia|done|].
  intros ip s1 (L1 & v1 & H1 & [Hf1 E1 Hl1 Hn1] & Hip & Hrz). rewrite Hz in Hl1.
  assert (Hh2 : held ip m id1 r1 (<[ip := m]> id1) (<[ip := r1 ip + 1]> r1)) by (apply held_take; [done|lia|lia]). rewrite Hrz in Hh2. simpl in Hh2.
  assert (Hdp : dp <> ip) by (intros ->; lia).
  wp_call (CS_ilock x nmeta Hly); [done|done|rewrite fn_lookup_insert; lia|set_solver|unfold NBUF; lia|]. intros [] s2 H2.
  assert (E1m : abs v1 m = Some (Node type 0 0 0 [])) by (rewrite (E1 m); by rewrite fn_lookup_insert). rewrite <- bind_assoc_wp.
  wp_call (CS_update x nmeta Hly L1 v1 (<[ip := m]> id1) (<[ip := 1]> r1) ({[ip]} ∪ {[dp]}) ip s2 H2 Hf1 ltac:(set_solver) ltac:(unfold NBUF; lia) ltac:(lia)
    (set_i_node major minor 1) (fun k => Node (n_type k) major minor 1 (n_data k)) (Node type 0 0 0 [])); [by rewrite fn_lookup_insert|done| |].
  { intros i Hcp []. split; [|done]. split; try done; simpl; by destruct Hdev. }
  rewrite fn_lookup_insert. intros [] s3 (L2 & v2 & H3 & [Hf2 E2 Hl2 Hn2]). eapply (HK ip _ _ L2 v2); try done; [lia| |lia].
  intros j. rewrite (E2 j). destruct (decide (j = m)) as [->|]; [by rewrite !fn_lookup_insert|]. rewrite !fn_lookup_insert_ne by done. rewrite (E1 j).
  by rewrite fn_lookup_insert_ne.
Qed.

(** A new directory gets its dots, and its parent a link. *)
Lemma wp_create_dots L v1 id2 r2 B ip s : CS L v1 id2 r2 B s -> ip ∈ B -> dp ∈ B -> id2 ip = m -> id2 dp = d -> files_ok v1 -> (base.size L <= 2)%nat ->
  pointwise_relation Z eq (abs v1) (<[m := Some (Node T_DIR major minor 1 [])]> (abs v)) -> (6 <= nfree x v1)%nat -> n_nlink nd < 32767 ->
  wp (add_nlink 1 dp ;;
      r ← dirlink dev_read dev_write ip (DOT ++ [0]) m;
      r' ← (if r <? 0 then mret (-1) else dirlink dev_read dev_write ip (DOTDOT ++ [0]) d);
      if (r <? 0) || (r' <? 0) then panic "create dots" else mret ())
    (fun _ s' => exists L' v', CS L' v' id2 r2 B s' /\ files_ok v' /\ (base.size L' <= 13)%nat /\ (2 <= nfree x v')%nat /\
       pointwise_relation Z eq (abs v') (<[m := Some (Node T_DIR major minor 1 (dots m d))]> (<[d := Some (add_links 1 nd)]> (abs v)))) s.
Proof.
  intros HC HBi HBd Ei Ed Hf1 HL E1 Hn1 Hmax. destruct fresh_facts as (_ & Hmd & Hmr & Hdr & _). destruct Hinv as [Hf Ht]. destruct Hd as (Hdn & _ & Hl).
  pose proof (nlink_pos _ Ht _ _ Hdn Hl).
  wp_call (CS_add_nlink v1 L id2 r2 B dp nd Hf1); [done|rewrite Ed, (E1 d); by rewrite fn_lookup_insert_ne|unfold NBUF; lia|done|unfold is_s16; lia|lia|].
  intros [] s1 (L1 & v2 & H1 & [Hf2 E2 Hl2 Hn2]). rewrite Ed in E2. destruct (dot_slot m) as (Hmod & Hslot & _); [lia|].
  wp_call (CS_dirlink x nmeta Hly dev_read dev_write L1 v2 id2 r2 B ip (Node T_DIR major minor 1 []) s1 H1 Hf2); try done; try (unfold NBUF; lia); try lia.
  { rewrite Ei, (E2 m), fn_lookup_insert_ne, (E1 m) by done. by rewrite fn_lookup_insert. } { repeat constructor; done. }
  intros res s2 (-> & L2 & v3 & H2 & [Hf3 E3 Hl3 Hn3]). rewrite Ei in E3. change (0 <? 0) with false. cbv iota.
  change (linked (n_data (Node T_DIR major minor 1 [])) m (DOT ++ [0])) with (linked [] m DOT) in E3.
  wp_call (CS_dirlink x nmeta Hly dev_read dev_write L2 v3 id2 r2 B ip (Node T_DIR major minor 1 (linked [] m DOT)) s2 H2 Hf3); try done; try (unfold NBUF; lia); try lia.
  { rewrite Ei, (E3 m). by rewrite fn_lookup_insert. } { apply (dot_find m). lia. } { repeat constructor; done. } { simpl n_data. rewrite Hslot. lia. }
  intros res s3 (-> & L3 & v4 & H3 & [Hf4 E4 Hl4 Hn4]). rewrite Ei in E4. change (0 <? 0) with false. cbv iota. simpl orb. cbv iota. apply wp_ret.
  exists L3, v4. split_and!; [done|done|lia|lia|]. intros j. rewrite (E4 j). destruct (decide (j = m)) as [->|]; [by rewrite !fn_lookup_insert|].
  rewrite !fn_lookup_insert_ne by done. rewrite (E3 j). rewrite fn_lookup_insert_ne by done. rewrite (E2 j).
  destruct (decide (j = d)) as [->|]; [by rewrite !fn_lookup_insert|]. rewrite !fn_lookup_insert_ne by done. rewrite (E1 j). by rewrite fn_lookup_insert_ne.
Qed.

(** The entry of the new inode. *)
Lemma wp_create_entry L v1 id2 r2 ip nd' s : CS L v1 id2 r2 ({[ip]} ∪ {[dp]}) s -> held ip m id1 r1 id2 r2 -> dp <> ip -> files_ok v1 ->
  (base.size L <= 13)%nat -> (2 <= nfree x v1)%nat -> abs v1 d = Some nd' -> n_type nd' = T_DIR -> n_nlink nd' <> 0 -> n_data nd' = n_data nd -> alive (abs v1) m ->
  wp (r ← dirlink dev_read dev_write dp name m;
      if r <? 0 then panic "create: dirlink" else iunlockput dp ;; mret (Some ip))
    (created id r m (<[d := Some (set_n_data (linked (n_data nd) m e) nd')]> (abs v1))) s.
Proof.
  intros HC Hh2 Hdp Hf1 HL Hn1 Hd1 Hty1 Hl1 Edat (md & Hm1 & Hm2). destruct fresh_facts as (_ & Hmd & Hmr & Hdr & Hp & Eid). assert (Hmod := ti_mod _ (fi_tree _ _ _ Hinv) _ _ Hd).
  assert (Ed : id2 dp = d) by (rewrite (hd_old _ _ _ _ _ _ Hh2); [done|apply Hh1|done]).
  wp_call (CS_dirlink x nmeta Hly dev_read dev_write L v1 id2 r2 ({[ip]} ∪ {[dp]}) dp nd' s HC Hf1); try done; rewrite ?Edat, ?Ed; try done; try (unfold NBUF; lia); try lia.
  { set_solver. } { by rewrite (dir_find_ext _ _ _ Hname). } { rewrite Hname. by apply str_take_ok. }
  intros res s1 (-> & L2 & v2 & H2 & [Hf2 E2 Hl2 _]). change (0 <? 0) with false. cbv iota.
  assert (E2' : pointwise_relation Z eq (abs v2) (<[d := Some (set_n_data (linked (n_data nd) m e) nd')]> (abs v1))).
  { rewrite E2. unfold linked, strncpy_l. by rewrite Hname. }
  wp_call (CS_iunlockput x nmeta Hly); [done|set_solver| |].
  { right. rewrite Ed. assert (E : abs v2 d = Some (set_n_data (linked (n_data nd) m e) nd')) by (rewrite (E2' d); by rewrite fn_lookup_insert).
    destruct (abs_some _ _ _ _ E) as (_ & _ & <- & _). done. }
  intros [] s2 H3. apply wp_ret. eexists ip, id2, _, L2, v2. split; [done|]. split; [by eapply held_swap|]. split; [|split_and!; [done|done|exists md; split; [by rewrite fn_lookup_insert_ne|done]|lia]].
  replace ({[ip]} : gset nat) with (({[ip]} ∪ {[dp]}) ∖ {[dp]} : gset nat) by set_solver. done.
Qed.

Lemma wp_create_new s : CS ∅ v id1 r1 {[dp]} s -> room 1 r1 -> (type = T_DIR -> n_nlink nd < 32767) ->
  wp (p ← ino dp;
      ip ← ialloc (i_dev p) type;
      ilock ip ;;
      upd_ino ip (set_i_node major minor 1) ;;
      iupdate ip ;;
      i ← ino ip;
      when (type =? T_DIR)
        (add_nlink 1 dp ;;
         r ← dirlink dev_read dev_write ip (DOT ++ [0]) (i_inum i);
         r' ← (if r <? 0 then mret (-1) else dirlink dev_read dev_write ip (DOTDOT ++ [0]) (i_inum p));
         if (r <? 0) || (r' <? 0) then panic "create dots" else mret ()) ;;
      r ← dirlink dev_read dev_write dp name (i_inum i);
      if r <? 0 then panic "create: dirlink" else iunlockput dp ;; mret (Some ip))
    (created id r m (let cd := Node type major minor 0 (if type =? T_DIR then dots m d else []) in
       if type =? T_DIR then tree_mkdired (<[m := Some cd]> (abs v)) d nd m cd e else tree_linked (<[m := Some cd]> (abs v)) d nd m cd e)) s.
Proof.
  intros HC Hr Hmax. destruct fresh_facts as (Hm & Hmd & Hmr & Hdr & Hp & Eid). destruct Hd as (Hd1 & Hd2 & Hd3). pose proof (nlink_pos _ (fi_tree _ _ _ Hinv) _ _ Hd1 Hd3) as Hnp.
  wp_call CS_ino_id; [done|apply Hh1|done|]. intros p ? (-> & -> & ->). rewrite Eid. eapply wp_create_node; [done|done|].
  intros ip id2 r2 L v1 s1 Hh2 Hdp H1 Hf1 HL E1 Hn1. assert (Ei := hd_id _ _ _ _ _ _ Hh2). assert (Hip := held_ref _ _ _ _ _ _ Hh2). pose proof (hd_pos _ _ _ _ _ _ Hh2).
  assert (Edp : id2 dp = d) by (rewrite (hd_old _ _ _ _ _ _ Hh2); [done|apply Hh1|done]).
  wp_call CS_ino_id; [done|apply Hh2|lia|]. intros i ? (-> & _ & ->). rewrite Ei. cbv zeta. destruct (Z.eqb_spec type T_DIR) as [Hty|Hty]; simpl when.
  - rewrite Hty in E1. wp_call wp_create_dots; [done|set_solver|set_solver|done|done|done|done|done|done|auto|]. intros [] s2 (L2 & v2 & H2 & Hf2 & HL2 & Hn2 & E2).
    assert (E2d : abs v2 d = Some (add_links 1 nd)) by (rewrite (E2 d), fn_lookup_insert_ne by done; by rewrite fn_lookup_insert).
    eapply wp_mono; [eapply (wp_create_entry L2 v2 id2 r2 ip (add_links 1 nd)); try done; [simpl; lia|eexists; rewrite (E2 m), fn_lookup_insert; done]|].
    intros o s3. apply created_ext.
    intros j. unfold tree_mkdired. rewrite Hty. destruct (decide (j = m)) as [->|].
    + rewrite fn_lookup_insert_ne, (E2 m) by done. by rewrite !fn_lookup_insert.
    + rewrite (fn_lookup_insert_ne _ m j) by done. destruct (decide (j = d)) as [->|]; [by rewrite !fn_lookup_insert|]. rewrite !fn_lookup_insert_ne by done.
        rewrite (E2 j). by rewrite !fn_lookup_insert_ne.
  - apply wp_bind, wp_ret. assert (E1d : abs v1 d = Some nd) by (rewrite (E1 d); by rewrite fn_lookup_insert_ne).
    eapply wp_mono; [eapply (wp_create_entry L v1 id2 r2 ip nd); try done; [lia|lia|eexists; rewrite (E1 m), fn_lookup_insert; done]|].
    intros o s3. apply created_ext.
    intros j. unfold tree_linked. destruct (decide (j = m)) as [->|].
    + rewrite fn_lookup_insert_ne, (E1 m) by done. by rewrite !fn_lookup_insert.
    + rewrite (fn_lookup_insert_ne _ m j) by done. destruct (decide (j = d)) as [->|]; [by rewrite !fn_lookup_insert|]. rewrite !fn_lookup_insert_ne by done.
        rewrite (E1 j). by rewrite !fn_lookup_insert_ne.
Qed.
End fresh.

Section create.
Context (v : Z -> list Z) (id r : nat -> Z) (path : list Z) (n m type major minor : Z).
Hypothesis Hinv : fs_inv v.
Hypothesis Horigin : origin x c v id r path n.
Hypothesis Hpath : Forall (fun b => b <> 0) path.
Hypothesis Hbytes : bytes_ok path.
Hypothesis Hslots : room 2 r.
Hypothesis Hfree : free_inode x v m.
Hypothesis Htype : is_s16 type /\ type <> 0.
Hypothesis Hdev : is_s16 major /\ is_s16 minor.
Hypothesis Hroom : forall d nd e, aparent (abs v) n (elems path) = Some (d, nd, e) ->
  Z.of_nat (dir_slot (n_data nd)) < 4480 /\ (type = T_DIR -> n_nlink nd < 32767).
Hypothesis Hblocks : (6 <= nfree x v)%nat.
Hypothesis Hino : sb_ninodes x <= 65536.

(** [create] within a transaction. *)
Lemma wp_create s : CS ∅ v id r ∅ s ->
  wp (create dev_read dev_write path type major minor) (fun o s' =>
    match acreate m (abs v) type major minor n (elems path) with
    | Some (m', t) => created id r m' t o s'
    | None => o = None /\ CS ∅ v id r ∅ s'
    end) s.
Proof.
  intros HC. assert (Hw := tree_walkable _ (fi_tree _ _ _ Hinv)). assert (Hz : (base.size (∅ : gset Z) < NBUF)%nat) by (rewrite size_empty; unfold NBUF; lia).
  unfold create, acreate. eapply (wp_lock_parent _ _ _ ∅ v id r path n 0); [apply Hinv|done|done|done|done|done|done|..].
  { intros s' Ep H'. rewrite Ep. by apply wp_ret. }
  intros dp d nd e name id1 r1 s1 Ep Hd Hlast Hname Hh1 Hr1 H1. rewrite union_empty_r_L in H1. rewrite Ep. destruct (Hroom d nd e Ep) as [Hfull Hmax].
  wp_call (CS_dirlookup x nmeta Hly dev_read); [done|apply Hinv|done|set_solver|by rewrite (hd_id _ _ _ _ _ _ Hh1)|done|done|].
  rewrite (dir_find_ext _ _ _ Hname). intros res s2 H2. destruct (dir_find e (n_data nd)) as [k|] eqn:Ek.
  - destruct H2 as (ip & -> & H2 & Hip & Hid). cbv zeta in *. set (m' := de_inum (dent (n_data nd) k)) in *.
    assert (Hent := dir_find_some _ _ _ Ek). destruct (refers_live _ d k (str_take DIRSIZ e) m' (fi_tree _ _ _ Hinv)) as (cd & Ec & El); [by exists nd|].
    rewrite Ec. eapply wp_mono; [eapply (wp_create_old v id r id1 r1); try done; apply held_take; [done|by apply Hr1|done]|].
    intros o s3. by destruct (_ && _).
  - destruct H2 as [-> H2]. cbv zeta. eapply (wp_create_new v id r id1 r1 dp d nd e name m type major minor); try done.
    apply last_Some_elem_of in Hlast. pose proof (elems_ok is_u8 _ Hbytes) as Hb. by eapply Forall_forall in Hlast.
Qed.

(** C4 [create] between [begin_op] and the end of [sys_mkdir] or [sys_mknod]:
    the tree becomes the one that [acreate] gives.  A new inode is the first
    free one; it gets the type, the device numbers, one link and an entry in
    its directory, and a new directory gets "." and ".." and gives its parent
    a link; a name that exists and a missing directory are refused.  After a
    crash at any disk write recovery finds the old tree or the new one. *)
Theorem create_refines : fs_rest v id r s0 ->
  wp (fs_begin_op ;; o ← create dev_read dev_write path type major minor; made o)
    (outcome id r v (snd <$> acreate m (abs v) type major minor n (elems path))) s0.
Proof.
  intros Hrest. assert (Hw := tree_walkable _ (fi_tree _ _ _ Hinv)). wp_call wp_fs_begin; [done|]. intros [] s1 H1.
  destruct (origin_starts x c ∅ v id r Hw path n s1 H1 Horigin) as [_ Hal].
  assert (Hm : abs v m = None /\ 1 <= m < 65536).
  { destruct Hfree as (Hr & Ht & _). split; [unfold FsAbs.abs; rewrite decide_False; [done|by intros [_ ?]]|lia]. }
  pose proof (fun c' t' => acreate_inv (abs v) (fi_tree _ _ _ Hinv) m type major minor n (elems path) c' t' Hal (proj1 Hm) (proj2 Hm)) as Hspec.
  wp_call wp_create; [done|]. intros o s2 H2. destruct (acreate _ _ _ _ _ _ _) as [[m' t]|]; simpl.
  - destruct H2 as (ip & id' & r' & L & v' & -> & Hh & HC & Hf & E & (md & Em & El) & HL). unfold made.
    wp_call (CS_drop L v' id r id' r' {[ip]} ip m' md); [done|done|set_solver|by rewrite (E m')|done|]. intros [] s3 H3. rewrite difference_diag_L in H3.
    wp_call wp_fs_end; [done|done|unfold NBUF; lia|]. intros [] s4 (v4 & H4 & Hf4 & E4). apply wp_ret.
    eapply done_outcome; try done; [by rewrite E4|by eapply Hspec].
  - destruct H2 as [-> H2]. eapply failed_outcome; [done|done|]. unfold made. eapply wp_give_up; [done|done|rewrite size_empty; unfold NBUF; lia].
Qed.
End create.
End calls.

(** ** Instances *)

Definition no_refs : nat -> Z := fun _ => 0.

Lemma demo_rest : exists s, fs_rest 1000 mkfs_log None demo_sb demo_fs no_refs no_refs s.
Proof.
  destruct demo_resting as (l & Hl & _). exists (FsSt l (fun _ => Inode 0 0 0 0 0 0 0 0 0 []) demo_sb). split; [done|done|].
  by split.
Qed.

Lemma demo_room k : (k <= 50)%nat -> room k no_refs.
Proof.
  intros Hk. split; [unfold no_refs; lia|]. exists (list_to_set (seq 0 50)). split; [rewrite size_list_to_set by apply NoDup_seq; by rewrite length_seq|].
  intros a Ha%elem_of_list_to_set%elem_of_seq. split; [unfold NINODE; lia|done].
Qed.

(** "rm /a": the file is gone. *)
Lemma unlink_refines_witness : exists s, wp (unlink no_read no_write [47; 97]) (fun res s' => res = 0 /\ exists v',
  fs_rest 1000 mkfs_log None demo_sb v' no_refs no_refs s' /\ fs_inv demo_sb 59 v' /\ abs demo_sb v' 2 = None) s.
Proof.
  destruct demo_rest as [s Hs]. exists s. eapply wp_mono.
  - apply (unlink_refines 1000 mkfs_log None ltac:(vm_compute; done) ltac:(vm_compute; done) demo_sb 59 demo_layout ltac:(split; vm_compute; auto; done)
      ltac:(vm_compute; done) s no_read no_write demo_fs no_refs no_refs [47; 97] 1 Hs demo_inv); [done|repeat constructor; done|apply demo_room; lia].
  - intros res s' (v' & Hr & Hi & _ & Ho).
    assert (E : match aunlink (in_use no_refs no_refs) (abs demo_sb demo_fs) 1 (elems [47; 97]) with Some t => t 2 = None | None => False end) by (vm_compute; reflexivity).
    destruct (aunlink _ _ _ _) as [t|]; [|done]. destruct Ho as [-> Et]. split; [done|]. exists v'. split_and!; [done|done|]. by rewrite (Et 2).
Defined.

(** "ln /a /b": the file has two links. *)
Lemma link_refines_witness : exists s, wp (link no_read no_write [47; 97] [47; 98]) (fun res s' => res = 0 /\ exists v',
  fs_rest 1000 mkfs_log None demo_sb v' no_refs no_refs s' /\ fs_inv demo_sb 59 v' /\ (n_nlink <$> abs demo_sb v' 2) = Some 2) s.
Proof.
  destruct demo_rest as [s Hs]. exists s. eapply wp_mono.
  - apply (link_refines 1000 mkfs_log None ltac:(vm_compute; done) ltac:(vm_compute; done) demo_sb 59 demo_layout ltac:(split; vm_compute; auto; done)
      ltac:(vm_compute; done) s no_read no_write demo_fs no_refs no_refs [47; 97] [47; 98] 1 1 Hs demo_inv);
      [done|done|repeat constructor; done|repeat constructor; done|repeat constructor; done|apply demo_room; lia|..].
    + intros m cd E Em. assert (E' : aresolve (abs demo_sb demo_fs) false 1 (elems [47; 97]) = Some 2) by (vm_compute; reflexivity).
      rewrite E' in E. injection E as <-. assert (H : (n_nlink <$> abs demo_sb demo_fs 2) = Some 1) by (vm_compute; reflexivity). rewrite Em in H. injection H as ->. done.
    + intros d nd e E. assert (H : option_map (fun p => dir_slot (n_data (snd (fst p)))) (aparent (abs demo_sb demo_fs) 1 (elems [47; 98])) = Some 3%nat) by (vm_compute; reflexivity).
      rewrite E in H. injection H as ->. done.
    + apply Nat.leb_le. vm_compute. reflexivity.
  - intros res s' (v' & Hr & Hi & _ & Ho).
    assert (E : match alink (abs demo_sb demo_fs) 1 (elems [47; 97]) 1 (elems [47; 98]) with Some t => (n_nlink <$> t 2) = Some 2 | None => False end) by (vm_compute; reflexivity).
    destruct (alink _ _ _ _ _) as [t|]; [|done]. destruct Ho as [-> Et]. split; [done|]. exists v'. split_and!; [done|done|]. by rewrite (Et 2).
Defined.

(** "mkdir /d": inode 3 is a directory with its dots. *)
Lemma create_refines_witness : exists s, wp (fs_begin_op ;; o ← create no_read no_write [47; 100] T_DIR 0 0; made o) (fun res s' => res = 0 /\ exists v',
  fs_rest 1000 mkfs_log None demo_sb v' no_refs no_refs s' /\ fs_inv demo_sb 59 v' /\ abs demo_sb v' 3 = Some (Node T_DIR 0 0 1 (dots 3 1))) s.
Proof.
  destruct demo_rest as [s Hs]. exists s. eapply wp_mono.
  - apply (create_refines 1000 mkfs_log None ltac:(vm_compute; done) ltac:(vm_compute; done) demo_sb 59 demo_layout ltac:(split; vm_compute; auto; done)
      ltac:(vm_compute; done) s no_read no_write demo_fs no_refs no_refs [47; 100] 1 3 T_DIR 0 0 demo_inv);
      [done|repeat constructor; done|repeat constructor; done|apply demo_room; lia| |done|done|..|done].
    + split; [simpl; lia|]. split; [vm_compute; reflexivity|]. intros j Hj. assert (j = 1 \/ j = 2) as [->| ->] by lia; vm_compute; done.
    + intros d nd e E. assert (H : option_map (fun p => (dir_slot (n_data (snd (fst p))), n_nlink (snd (fst p)))) (aparent (abs demo_sb demo_fs) 1 (elems [47; 100])) = Some (3%nat, 1)) by (vm_compute; reflexivity).
      rewrite E in H. injection H as -> ->. done.
    + apply Nat.leb_le. vm_compute. reflexivity.
    + done.
  - intros res s' (v' & Hr & Hi & _ & Ho).
    assert (E : match acreate 3 (abs demo_sb demo_fs) T_DIR 0 0 1 (elems [47; 100]) with Some (_, t) => t 3 = Some (Node T_DIR 0 0 1 (dots 3 1)) | None => False end) by (vm_compute; reflexivity).
    destruct (acreate _ _ _ _ _ _ _) as [[m t]|]; [|done]. destruct Ho as [-> Et]. split; [done|]. exists v'. split_and!; [done|done|]. by rewrite (Et 3).
Defined.
