(* ===== verification/Syscall.v ===== *)
(** * System calls and traps (syscall.c: syscall; sysproc.c; trap.c: trap)

    The dispatch on the call number, the calls on processes and time, and the
    handler of system calls, interrupts and faults.  The interrupt handlers of
    the devices are parameters. *)

From S2P Require Import Prelude Params CString Spinlock Sched Bio Log Fs Kalloc Vm VmMap VmUser Kernel Pipe FileC ProcC Exec Sysfile.

(** ** Numbers (syscall.h, traps.h) *)

Definition SYS_fork : Z := 1.
Definition SYS_exit : Z := 2.
Definition SYS_wait : Z := 3.
Definition SYS_pipe : Z := 4.
Definition SYS_read : Z := 5.
Definition SYS_kill : Z := 6.
Definition SYS_exec : Z := 7.
Definition SYS_fstat : Z := 8.
Definition SYS_chdir : Z := 9.
Definition SYS_dup : Z := 10.
Definition SYS_getpid : Z := 11.
Definition SYS_sbrk : Z := 12.
Definition SYS_sleep : Z := 13.
Definition SYS_uptime : Z := 14.
Definition SYS_open : Z := 15.
Definition SYS_write : Z := 16.
Definition SYS_mknod : Z := 17.
Definition SYS_unlink : Z := 18.
Definition SYS_link : Z := 19.
Definition SYS_mkdir : Z := 20.
Definition SYS_close : Z := 21.

(** ** Time *)

Definition sys_getpid : M kern_st Z := p ← myproc; mret (pid p).

Definition sys_kill : M kern_st Z :=
  o ← argint 0;
  match (o : option Z) with
  | None => mret (-1)
  | Some id => on_sched (kill id)
  end.

(** The loop [while(ticks - ticks0 < n)], to which the process comes back from
    [sleep]; the comparison is unsigned. *)
Definition sleep_loop (ticks0 n : Z) : M kern_st Z :=
  t ← gets ticks;
  if u32 (t - ticks0) <? u32 n then
    p ← myproc;
    if negb (killed p =? 0) then krelease Ltime ;; mret (-1)
    else ksleep CTicks Ltime ;; blocked
  else krelease Ltime ;; mret 0.
Definition sys_sleep : M kern_st Z :=
  o ← argint 0;
  match (o : option Z) with
  | None => mret (-1)
  | Some n => kacquire Ltime ;; ticks0 ← gets ticks; sleep_loop ticks0 n
  end.

Definition sys_uptime : M kern_st Z :=
  kacquire Ltime ;; x ← gets ticks; krelease Ltime ;; mret (s32 x).

Section syscall.
Context (kend kdata forkret : Z) (junk : list Z).
Context (dev_read : Z -> option (nat -> Z -> M fs_st (Z * list Z))).
Context (dev_write : Z -> option (nat -> list Z -> M fs_st Z)).

Definition sys_fork : M kern_st Z := fork kend kdata forkret.
Definition sys_exit : M kern_st Z := exit kend ;; mret 0.
Definition sys_wait : M kern_st Z := wait kend.

Definition sys_sbrk : M kern_st Z :=
  o ← argint 0;
  match (o : option Z) with
  | None => mret (-1)
  | Some n =>
      p ← myproc;
      r ← growproc kend n;
      if r <? 0 then mret (-1) else mret (s32 (sz p))
  end.

(** The table [syscalls]. *)
Definition syscalls (num : Z) : option (M kern_st Z) :=
  if num =? SYS_fork then Some sys_fork
  else if num =? SYS_exit then Some sys_exit
  else if num =? SYS_wait then Some sys_wait
  else if num =? SYS_pipe then Some (sys_pipe kend)
  else if num =? SYS_read then Some (sys_read dev_read)
  else if num =? SYS_kill then Some sys_kill
  else if num =? SYS_exec then Some (sys_exec kend kdata junk dev_read)
  else if num =? SYS_fstat then Some sys_fstat
  else if num =? SYS_chdir then Some (sys_chdir dev_read)
  else if num =? SYS_dup then Some sys_dup
  else if num =? SYS_getpid then Some sys_getpid
  else if num =? SYS_sbrk then Some sys_sbrk
  else if num =? SYS_sleep then Some sys_sleep
  else if num =? SYS_uptime then Some sys_uptime
  else if num =? SYS_open then Some (sys_open kend dev_read dev_write)
  else if num =? SYS_write then Some (sys_write dev_write)
  else if num =? SYS_mknod then Some (sys_mknod dev_read dev_write)
  else if num =? SYS_unlink then Some (sys_unlink dev_read dev_write)
  else if num =? SYS_link then Some (sys_link dev_read dev_write)
  else if num =? SYS_mkdir then Some (sys_mkdir dev_read dev_write)
  else if num =? SYS_close then Some (sys_close kend)
  else None.

Definition set_result (r : Z) : M kern_st unit := upd_myproc (fun p => set_tf (set_eax (u32 r) (tf p)) p).

(** The message about an unknown call goes to the console. *)
Definition syscall : M kern_st unit :=
  p ← myproc;
  match syscalls (s32 (tf_eax (tf p))) with
  | Some f => r ← f; set_result r
  | None => set_result (-1)
  end.

(** ** Traps *)

(** The handlers of device interrupts. *)
Context (ideintr kbdintr uartintr : M kern_st unit).

(** [ticks++] on the first processor. *)
Definition timer (cpuid : nat) : M kern_st unit :=
  when (bool_decide (cpuid = O))
    (kacquire Ltime ;;
     modify (fun s => set_ticks (u32 (ticks s + 1)) s) ;;
     kwakeup CTicks ;;
     krelease Ltime).

Definition exit_if_killed (cs : Z) : M kern_st unit :=
  o ← gets (fun s => cur_proc (sched_of s));
  match (o : option proc) with
  | Some p => when (negb (killed p =? 0) && (Z.land cs 3 =? DPL_USER)) (exit kend)
  | None => mret ()
  end.

Definition trap (t : trapframe) : M kern_st unit :=
  if tf_trapno t =? T_SYSCALL then
    p ← myproc;
    when (negb (killed p =? 0)) (exit kend) ;;
    upd_myproc (set_tf t) ;;
    syscall ;;
    p ← myproc;
    when (negb (killed p =? 0)) (exit kend)
  else
    let no := tf_trapno t in
    me ← gets (fun s => me (mach (sched_of s)));
    (if no =? T_IRQ0 + IRQ_TIMER then timer me
     else if no =? T_IRQ0 + IRQ_IDE then ideintr
     else if no =? T_IRQ0 + IRQ_IDE + 1 then mret ()
     else if no =? T_IRQ0 + IRQ_KBD then kbdintr
     else if no =? T_IRQ0 + IRQ_COM1 then uartintr
     else if (no =? T_IRQ0 + 7) || (no =? T_IRQ0 + IRQ_SPURIOUS) then mret ()
     else
       o ← gets (fun s => cur_proc (sched_of s));
       match (o : option proc) with
       | None => panic "trap"
       | Some _ =>
           if Z.land (tf_cs t) 3 =? 0 then panic "trap"
           else upd_myproc (set_killed 1)
       end) ;;
    exit_if_killed (tf_cs t) ;;
    o ← gets (fun s => cur_proc (sched_of s));
    match (o : option proc) with
    | Some p => when (bool_decide (state p = RUNNING) && (no =? T_IRQ0 + IRQ_TIMER)) (on_sched yield)
    | None => mret ()
    end ;;
    exit_if_killed (tf_cs t).
End syscall.
