(* ===== verification/KernDemo.v ===== *)
(** * A concrete kernel

    One running process with one user page and an open file, an unused process
    slot, eighty free pages, and a pipe whose counters are about to wrap; and
    the same kernel with a zombie child in the slot. *)

From S2P Require Import Prelude Params CString Spinlock Sched Bio Log Fs Kalloc Vm VmMap VmUser VmCopy VmOut VmProps Kernel Pipe.

Definition demo_proc : proc :=
  set_cwd (Some 0%nat) (set_ofile (Some 0%nat :: replicate 15 None) (set_pgdir demo_dir proc1)).
Definition free_proc : proc :=
  Proc 0 0 0 UNUSED 0 None tf0 (Context_ 0 0 0 0 0) CNull 0 (replicate NOFILE None) None (replicate 16 0).
Definition demo_sched : sched_st := SchedSt boot_machine [demo_proc; free_proc] (Some 0%nat) 2 (Some 0%nat).
Definition demo_bio : bio_st := lset bsched_lens demo_sched (boot_bio blank 1000).
Definition no_file : file := File FD_NONE 0 false false 0 0 0.
Definition demo_file : file := File FD_PIPE 1 true true 0x80204000 0 0.
Definition wrapping_pipe : pipe := Pipe (replicate 512 7) 4294967295 1 true true.
Definition demo_kern : kern_st :=
  Kern (FsSt (LogSt demo_bio (Log 2 30 0 0 1 0 (replicate 30 0)))
          (fun _ => Inode 0 0 0 0 0 0 0 0 0 (replicate 13 0)) (Superblock 1000 941 200 30 2 32 58))
    true 0x80210000 (kram (demo_space 80)) (demo_file :: replicate 99 no_file) (fun _ => wrapping_pipe) 0.

Lemma demo_kern_sched : sched_of demo_kern = demo_sched.
Proof. done. Qed.

Lemma demo_kern_mem : kmem_ok demo_kend true [] demo_free (lget kmem_lens demo_kern).
Proof. apply demo_space_kmem. Qed.

Definition zombie_proc : proc := set_parent (Some 0%nat) (set_state ZOMBIE (set_pid 2 (set_kstack 0x80203000
  (set_pgdir demo_dir free_proc)))).
Definition zombie_kern : kern_st :=
  set_sched (SchedSt boot_machine [demo_proc; zombie_proc] (Some 0%nat) 3 (Some 0%nat)) demo_kern.
