(* ===== verification/PipeProps.v ===== *)
(** * A pipe is a queue (pipe.c)

    The bytes in the ring form a queue; the counters may wrap around because
    the size of the ring divides 2^32.  [pipewrite] appends the user's bytes,
    [piperead] moves bytes from the front to the user's buffer, and a process
    sleeps exactly when the ring is full, or empty with a writer left. *)

From S2P Require Import Prelude Params CString Spinlock Sched Bio Log Fs Kalloc Vm VmMap VmUser VmCopy VmOut VmProps Kernel Pipe KernDemo.

(** ** The queue *)

Definition count (q : pipe) : nat := Z.to_nat (u32 (nwrite q - nread q)).
Definition nth_byte (q : pipe) (k : nat) : Z := default 0 (p_data q !! Z.to_nat ((nread q + Z.of_nat k) mod PIPESIZE)).
Definition queue (q : pipe) : list Z := nth_byte q <$> seq 0 (count q).

Record pipe_ok (q : pipe) : Prop := {
  po_data : length (p_data q) = Z.to_nat PIPESIZE;
  po_read : is_u32 (nread q);
  po_write : is_u32 (nwrite q);
  po_count : (count q <= Z.to_nat PIPESIZE)%nat }.

Lemma length_queue q : length (queue q) = count q.
Proof. unfold queue. by rewrite length_fmap, length_seq. Qed.

Lemma full_count q : pipe_ok q -> (nwrite q =? u32 (nread q + PIPESIZE)) = bool_decide (count q = Z.to_nat PIPESIZE).
Proof.
  intros [_ Hr Hw _]. unfold count, PIPESIZE in *. case_bool_decide as H; zlia.
Qed.
Lemma empty_count q : pipe_ok q -> (nread q =? nwrite q) = bool_decide (count q = 0%nat).
Proof. intros [_ Hr Hw _]. unfold count in *. case_bool_decide as H; zlia. Qed.

(** Counters that wrap do not disturb the position in the ring. *)
Lemma u32_mod_ring x : u32 x mod PIPESIZE = x mod PIPESIZE.
Proof. unfold PIPESIZE. zlia. Qed.

Lemma push_queue b q : pipe_ok q -> count q <> Z.to_nat PIPESIZE ->
  pipe_ok (push b q) /\ queue (push b q) = queue q ++ [b] /\ readopen (push b q) = readopen q.
Proof.
  intros Hok Hne. pose proof Hok as [Hd Hr Hw Hc]. unfold PIPESIZE in *.
  assert (Hcount : count (push b q) = S (count q)) by (unfold count, push in *; simpl; zlia).
  split; [split; [by simpl; rewrite length_insert|done|simpl; zlia|rewrite Hcount; unfold PIPESIZE; lia]|]. split; [|done].
  unfold queue. rewrite Hcount, seq_S, fmap_app. simpl. f_equal; [apply list_fmap_ext|f_equal].
  - intros k x [-> Hk]%lookup_seq. unfold nth_byte, push, PIPESIZE. simpl.
    rewrite list_lookup_insert_ne; [done|]. unfold count in *. zlia.
  - unfold nth_byte, push, PIPESIZE. simpl.
    replace ((nread q + Z.of_nat (count q)) mod 512) with (nwrite q mod 512) by (unfold count; zlia).
    rewrite list_lookup_insert_eq; [done|]. rewrite Hd. zlia.
Qed.

Lemma pop_queue q : pipe_ok q -> count q <> 0%nat ->
  pipe_ok (snd (pop q)) /\ queue q = fst (pop q) :: queue (snd (pop q)) /\ writeopen (snd (pop q)) = writeopen q.
Proof.
  intros Hok Hne. pose proof Hok as [Hd Hr Hw Hc]. unfold PIPESIZE in *.
  assert (Hcount : count q = S (count (snd (pop q)))) by (unfold count, pop in *; simpl; zlia).
  split; [split; [done|simpl; zlia|done|unfold PIPESIZE; lia]|]. split; [|done].
  unfold queue. rewrite Hcount. cbn [seq fmap list_fmap]. f_equal.
  - unfold nth_byte, pop. simpl. by rewrite Z.add_0_r.
  - rewrite <- fmap_S_seq, <- list_fmap_compose. apply list_fmap_ext. intros k x _. unfold nth_byte, pop. simpl.
    f_equal. f_equal. f_equal. unfold PIPESIZE. zlia.
Qed.

(** ** Operations on the kernel state *)

(** Nothing but the pipe [p0] changed. *)
Record same_but_pipe (p0 : Z) (s s' : kern_st) : Prop := {
  sb_kfs : kfs s' = kfs s; sb_ram : ram s' = ram s; sb_files : files s' = files s;
  sb_free : kfreelist s' = kfreelist s; sb_ticks : ticks s' = ticks s;
  sb_pipes : forall a, a <> p0 -> pipes s' a = pipes s a }.

Lemma same_but_pipe_refl p0 s : same_but_pipe p0 s s.
Proof. done. Qed.
Lemma same_but_pipe_trans p0 s1 s2 s3 : same_but_pipe p0 s1 s2 -> same_but_pipe p0 s2 s3 -> same_but_pipe p0 s1 s3.
Proof. intros [] []. split; try congruence. intros a Ha. by rewrite sb_pipes1, sb_pipes0. Qed.

Lemma wp_upd_pipe p0 f s (Q : unit -> kern_st -> Prop) :
  (forall s', same_but_pipe p0 s s' -> pipes s' p0 = f (pipes s p0) -> Q () s') -> wp (upd_pipe p0 f) Q s.
Proof.
  intros HQ. apply wp_modify, HQ; [split; try done|]; simpl; [|by rewrite Z.eqb_refl].
  intros a Ha. by rewrite (proj2 (Z.eqb_neq a p0)).
Qed.

(** The [k] bytes at a user address. *)
Definition user_bytes (m : mem) (tabs : gmap Z Z) (va : Z) (k : nat) : list Z :=
  (fun j => m (user_phys m tabs (va + Z.of_nat j))) <$> seq 0 k.

Lemma user_bytes_S m tabs va k : user_bytes m tabs va (S k) = m (user_phys m tabs va) :: user_bytes m tabs (va + 1) k.
Proof.
  unfold user_bytes. cbn [seq fmap list_fmap]. rewrite Z.add_0_r. f_equal.
  rewrite <- fmap_S_seq, <- list_fmap_compose. apply list_fmap_ext. intros j x _. simpl. do 2 f_equal. lia.
Qed.
Lemma length_user_bytes m tabs va k : length (user_bytes m tabs va k) = k.
Proof. unfold user_bytes. by rewrite length_fmap, length_seq. Qed.

Section specs.
Context (kend : Z) (ie : bool) (p0 : Z) (tabs : gmap Z Z) (lo hi : Z) (i : nat) (p : proc).
Hypothesis Hend : KERNLINK <= kend.
Hypothesis Hlo : 0 <= lo.
Hypothesis Hhi : hi <= 524288.

(** Process [i] runs in the kernel with the locks [L], and its user pages from
    [lo] to [hi] are mapped. *)
Record running (L : list lockid) (s : kern_st) : Prop := {
  ru_locks : locked_by ie L (sched_of s);
  ru_cur : curproc (sched_of s) = Some i;
  ru_proc : procs (sched_of s) !! i = Some p;
  ru_user : writable_user kend (pgdir p) tabs lo hi (ram s) }.

Lemma running_cur L s : running L s -> cur_proc (sched_of s) = Some p.
Proof. intros []. unfold cur_proc. rewrite ru_cur0. done. Qed.

Lemma running_same L s s' : running L s -> kfs s' = kfs s -> ram s' = ram s -> running L s'.
Proof. intros [] E1 E2. unfold sched_of in *. split; unfold sched_of; rewrite ?E1, ?E2; done. Qed.

Lemma running_sched L L' s x : running L s -> locked_by ie L' x -> same_procs (sched_of s) x -> running L' (set_sched x s).
Proof. intros [] HL (H1 & H2 & _). split; rewrite ?sched_of_set; [done|congruence|congruence|done]. Qed.

Lemma wp_uaddr L va s : running L s -> lo <= va / 4096 < hi ->
  wp (uaddr va) (fun r s' => r = user_phys (ram s) tabs va /\ s' = s) s.
Proof.
  intros Hr Hva. unfold uaddr. eapply wp_bind, wp_myproc; [by eapply running_cur|]. apply wp_bind, wp_gets.
  destruct Hr as [_ _ _ [Hpt _ Hm]]. destruct (Hm _ Hva) as (e & He & _).
  rewrite (mmu_mapped kend (Hend0 kend Hend) _ _ tabs) by (done || zlia). rewrite He. apply wp_ret. split; [|done].
  unfold user_phys. by rewrite He.
Qed.

Lemma wp_uload8 L va s : running L s -> lo <= va / 4096 < hi ->
  wp (uload8 va) (fun r s' => r = ram s (user_phys (ram s) tabs va) /\ s' = s) s.
Proof.
  intros Hr Hva. unfold uload8. wp_call (wp_uaddr L va); [done|done|]. intros r s' [-> ->]. apply wp_bind, wp_gets. done.
Qed.

Lemma wp_ustore8 L va b s : running L s -> lo <= va / 4096 < hi ->
  wp (ustore8 va b) (fun _ s' => s' = set_ram (upd (ram s) (user_phys (ram s) tabs va) b) s /\ running L s' /\
    forall j, mapped (ram s') tabs j = mapped (ram s) tabs j) s.
Proof.
  intros Hr Hva. unfold ustore8. wp_call (wp_uaddr L va); [done|done|]. intros a s' [-> ->]. apply wp_modify.
  split; [done|]. pose proof Hr as [Hl Hc Hp Hu]. destruct (wu_map _ _ _ _ _ _ Hu _ Hva) as (e & He & _).
  destruct (writable_user_store kend (pgdir p) tabs lo hi (ram s) (upd (ram s) (user_phys (ram s) tabs va) b) (va / 4096) e)
    as [Hu' Hm]; [done|done|done| |by split; [split|]].
  intros x Hx. unfold upd. destruct (Z.eqb_spec x (user_phys (ram s) tabs va)) as [->|]; [|done]. destruct Hx.
  unfold user_phys. rewrite He. pose proof (Z.mod_pos_bound va 4096). unfold in_page. lia.
Qed.

(** ** Writing *)

(** What a writer that sleeps leaves: [j] bytes fitted, the readers are awake
    and the writer is on the queue of [nwrite]. *)
Definition writer_sleeps (k : nat) (addr : Z) (s s' : kern_st) : Prop := exists j, (j < k)%nat /\
  let q := pipes s p0 in let q' := pipes s' p0 in
  pipe_ok q' /\ queue q' = queue q ++ take j (user_bytes (ram s) tabs addr k) /\ count q' = Z.to_nat PIPESIZE /\
  readopen q = true /\ killed p = 0 /\ ram s' = ram s /\ locked_by ie [Lptable] (sched_of s') /\
  procs (sched_of s') = alter (asleep (CNwrite p0)) i (wake (CNread p0) <$> procs (sched_of s)).

(** What the loop returns: all bytes fitted, or the ring is full and there is
    no point in waiting. *)
Definition write_result (k : nat) (addr : Z) (s : kern_st) (ok : bool) (s' : kern_st) : Prop :=
  let q := pipes s p0 in let q' := pipes s' p0 in
  same_but_pipe p0 s s' /\ pipe_ok q' /\ readopen q' = readopen q /\ exists j, (j <= k)%nat /\
    queue q' = queue q ++ take j (user_bytes (ram s) tabs addr k) /\
    if ok then j = k else (j < k)%nat /\ count q' = Z.to_nat PIPESIZE /\ (readopen q = false \/ killed p <> 0).

Lemma runs_pipewrite_loop k : forall addr s, running [Lpipe p0] s -> pipe_ok (pipes s p0) ->
  lo <= addr / 4096 -> addr + Z.of_nat k <= 4096 * hi ->
  runs (pipewrite_loop k p0 addr) (write_result k addr s) (writer_sleeps k addr s) s.
Proof.
  induction k as [|k IH]; intros addr s Hr Hok H1 H2; cbn [pipewrite_loop].
  { unfold runs. simpl. split; [done|]. split; [done|]. split; [done|]. exists O. simpl. by rewrite app_nil_r. }
  apply runs_gets. rewrite full_count by done. case_bool_decide as Hfull.
  - eapply runs_call; [eapply (wp_myproc (fun a s' => a = p /\ s' = s)); [by eapply running_cur|done]|].
    intros a s' [-> ->]. destruct (negb (readopen (pipes s p0)) || negb (killed p =? 0)) eqn:E.
    { unfold runs. simpl. split; [done|]. split; [done|]. split; [done|]. exists O. rewrite app_nil_r.
      split; [lia|]. split; [done|]. split; [lia|]. split; [done|]. destruct (readopen (pipes s p0)); [right; lia|by left]. }
    eapply runs_call; [apply (wp_kwakeup ie [Lpipe p0]); [apply Hr|set_solver|simpl; lia]|].
    intros [] s' (x & -> & HL & Hw). pose proof Hr as [_ Hc Hp _]. destruct Hw as (Hwp & Hwc & _).
    assert (Hx : procs x !! i = Some (wake (CNread p0) p)) by (rewrite Hwp, list_lookup_fmap, Hp; done).
    eapply runs_seq; [eapply runs_mono; [eapply (runs_ksleep ie (CNwrite p0) (Lpipe p0) _ i _ (fun _ _ => False)); [exact HL|by rewrite sched_of_set, Hwc|exact Hx]|done|]|done].
    intros s' (y & -> & HLy & Hpy & _). exists O. cbv zeta. rewrite !sched_of_set in *. rewrite app_nil_r. rewrite Hpy, Hwp.
    destruct (readopen (pipes s p0)) eqn:Eo; [|done].
    split_and!; try done; try lia.
  - eapply runs_call; [apply (wp_uload8 [Lpipe p0]); [done|zlia]|]. intros b s' [-> ->].
    destruct (push_queue (ram s (user_phys (ram s) tabs addr)) (pipes s p0) Hok Hfull) as (Hok' & Hq' & Hro).
    eapply runs_call; [apply (wp_upd_pipe p0 _ s (fun _ s' => same_but_pipe p0 s s' /\ pipes s' p0 = push (ram s (user_phys (ram s) tabs addr)) (pipes s p0))); done|].
    intros [] s1 [Hsb Hp1]. rewrite <- Hp1 in Hok', Hq', Hro.
    eapply runs_mono; [apply (IH (addr + 1) s1)|..]; try done; try zlia; [by eapply running_same; [|apply Hsb|apply Hsb]|..].
    + intros ok s2 (Hsb2 & Hok2 & Hro2 & j & Hj & Hq2 & Hcase). split; [by eapply same_but_pipe_trans|]. split; [done|].
      split; [congruence|]. exists (S j). split; [lia|]. rewrite user_bytes_S. cbn [take].
      rewrite (sb_ram _ _ _ Hsb), Hq', <- app_assoc in Hq2. split; [done|].
      destruct ok; [lia|]. destruct Hcase as (? & ? & ?). split; [lia|]. split; [done|]. congruence.
    + intros s2 (j & Hj & Hok2 & Hq2 & Hc2 & Hr2 & Hk2 & Hm2 & HL2 & Hp2). exists (S j). split; [lia|]. cbv zeta.
      rewrite user_bytes_S. cbn [take]. rewrite (sb_ram _ _ _ Hsb), Hq', <- app_assoc in Hq2.
      assert (Es : sched_of s1 = sched_of s) by (unfold sched_of; by rewrite (sb_kfs _ _ _ Hsb)). rewrite Es in Hp2.
      split_and!; try done; [congruence|]. by rewrite Hm2, (sb_ram _ _ _ Hsb).
Qed.

Lemma writer_sleeps_same k addr s1 s s' : writer_sleeps k addr s1 s' -> pipes s1 p0 = pipes s p0 -> ram s1 = ram s ->
  procs (sched_of s1) = procs (sched_of s) -> writer_sleeps k addr s s'.
Proof.
  intros (j & Hj & H) Ep Em Es. exists j. split; [done|]. cbv zeta in *. by rewrite <- Ep, <- Em, <- Es.
Qed.

Lemma runs_pipewrite addr n s : running [] s -> pipe_ok (pipes s p0) -> 0 <= n ->
  lo <= addr / 4096 -> addr + n <= 4096 * hi ->
  let q := pipes s p0 in let bs := user_bytes (ram s) tabs addr (Z.to_nat n) in
  runs (pipewrite p0 addr n) (fun r s' => let q' := pipes s' p0 in
      locked_by ie [] (sched_of s') /\ ram s' = ram s /\ pipe_ok q' /\
      (r = n /\ queue q' = queue q ++ bs \/
       r = -1 /\ (exists j, (j < length bs)%nat /\ queue q' = queue q ++ take j bs) /\ count q' = Z.to_nat PIPESIZE /\
         (readopen q = false \/ killed p <> 0)))
    (writer_sleeps (Z.to_nat n) addr s) s.
Proof.
  intros Hr Hok Hn H1 H2 q bs. unfold pipewrite.
  eapply runs_call; [apply (wp_kacquire ie []); [apply Hr|by apply not_elem_of_nil|simpl; lia]|].
  intros [] s1 (x & -> & HL & Hsp).
  eapply runs_seq; [eapply runs_mono; [apply (runs_pipewrite_loop (Z.to_nat n) addr)| |]|].
  - by eapply running_sched.
  - done.
  - done.
  - lia.
  - intros ok s2 H. exact H.
  - intros s2 H. eapply writer_sleeps_same; [exact H|done|done|]. rewrite sched_of_set. by destruct Hsp as (? & _).
  - intros ok s2 (Hsb & Hok2 & _ & j & Hj & Hq & Hcase). apply runs_wp.
    assert (HL2 : locked_by ie [Lpipe p0] (sched_of s2)) by (unfold sched_of in *; by rewrite (sb_kfs _ _ _ Hsb)).
    assert (Em : ram s2 = ram s) by apply Hsb. destruct ok.
    + wp_call (wp_kwakeup ie [Lpipe p0]); [done|set_solver|simpl; lia|]. intros [] s3 (y & -> & HLy & _).
      wp_call (wp_krelease ie []); [done|]. intros [] s4 (z & -> & HLz & _). apply wp_ret.
      split; [done|]. split; [done|]. split; [done|]. left. split; [done|]. subst j.
      rewrite take_ge in Hq by (by rewrite length_user_bytes). done.
    + wp_call (wp_krelease ie []); [done|]. intros [] s4 (z & -> & HLz & _). apply wp_ret.
      split; [done|]. split; [done|]. split; [done|]. right. destruct Hcase as (? & ? & ?). split; [done|].
      split; [|done]. exists j. unfold bs. rewrite length_user_bytes. done.
Qed.

(** ** Reading *)

Lemma wp_piperead_loop k : forall addr n s, running [Lpipe p0] s -> pipe_ok (pipes s p0) ->
  lo <= (addr + n) / 4096 -> addr + n + Z.of_nat k <= 4096 * hi ->
  wp (piperead_loop k p0 addr n) (fun r s' =>
    let q := pipes s p0 in let q' := pipes s' p0 in let j := Nat.min k (count q) in
    r = n + Z.of_nat j /\ pipe_ok q' /\ queue q' = drop j (queue q) /\ running [Lpipe p0] s' /\
    written tabs (addr + n) (take j (queue q)) (ram s) (ram s')) s.
Proof.
  induction k as [|k IH]; intros addr n s Hr Hok H1 H2; cbn [piperead_loop].
  { apply wp_ret. cbv zeta. simpl. split; [lia|]. split; [done|]. split; [done|]. split; [done|]. by split. }
  apply wp_bind, wp_gets. rewrite empty_count by done. case_bool_decide as He.
  { apply wp_ret. cbv zeta. rewrite He, Nat.min_0_r. simpl. split; [lia|]. split; [done|]. split; [done|]. split; [done|]. by split. }
  destruct (pop_queue (pipes s p0) Hok He) as (Hok1 & Hq1 & _).
  apply wp_bind, wp_upd_pipe. intros s1 Hsb Hp1. set (b := fst (pop (pipes s p0))) in *.
  assert (Hr1 : running [Lpipe p0] s1) by (eapply running_same; [done|apply Hsb|apply Hsb]).
  wp_call (wp_ustore8 [Lpipe p0]); [done|zlia|]. intros [] s2 (E2 & Hr2 & Hm2).
  assert (Ep2 : pipes s2 p0 = snd (pop (pipes s p0))) by (by rewrite E2). rewrite <- Ep2 in Hok1, Hq1.
  eapply wp_mono; [apply (IH addr (n + 1) s2); [done|done|zlia|lia]|].
  intros r s3 (-> & Hok3 & Hq3 & Hr3 & Hw3). cbv zeta.
  assert (Hc : count (pipes s p0) = S (count (pipes s2 p0))) by (rewrite <- !length_queue, Hq1; done).
  rewrite Hc, Hq1. cbn [Nat.min drop take]. split; [lia|]. split; [done|]. split; [done|]. split; [done|].
  rewrite <- (sb_ram _ _ _ Hsb). replace (addr + (n + 1)) with (addr + n + 1) in Hw3 by lia.
  eapply (written_cons kend (pgdir p) tabs lo hi); [apply Hr1|done| | |exact Hw3|done].
  - rewrite length_take, length_queue. lia.
  - by rewrite E2.
Qed.

(** A reader that sleeps. *)
Definition reader_sleeps (s s' : kern_st) : Prop :=
  pipes s' p0 = pipes s p0 /\ ram s' = ram s /\ writeopen (pipes s p0) = true /\ queue (pipes s p0) = [] /\ killed p = 0 /\
  locked_by ie [Lptable] (sched_of s') /\ procs (sched_of s') = alter (asleep (CNread p0)) i (procs (sched_of s)).

Lemma queue_nil q : pipe_ok q -> queue q = [] <-> count q = 0%nat.
Proof. intros _. rewrite <- length_queue. split; [by intros ->|apply nil_length_inv]. Qed.

Lemma runs_piperead addr n s : running [] s -> pipe_ok (pipes s p0) -> 0 <= n ->
  lo <= addr / 4096 -> addr + n <= 4096 * hi ->
  let q := pipes s p0 in
  runs (piperead p0 addr n) (fun r s' => let q' := pipes s' p0 in
      locked_by ie [] (sched_of s') /\ pipe_ok q' /\
      (r = -1 /\ queue q = [] /\ writeopen q = true /\ killed p <> 0 /\ q' = q /\ ram s' = ram s \/
       exists j, j = Nat.min (Z.to_nat n) (length (queue q)) /\ r = Z.of_nat j /\ (queue q = [] -> writeopen q = false) /\
         queue q' = drop j (queue q) /\ written tabs addr (take j (queue q)) (ram s) (ram s')))
    (reader_sleeps s) s.
Proof.
  intros Hr Hok Hn H1 H2 q. unfold piperead.
  eapply runs_call; [apply (wp_kacquire ie []); [apply Hr|by apply not_elem_of_nil|simpl; lia]|].
  intros [] s1 (x & -> & HL & Hsp). assert (Hr1 : running [Lpipe p0] (set_sched x s)) by (by eapply running_sched).
  apply runs_gets. change (pipes (set_sched x s) p0) with q. rewrite empty_count by done.
  destruct (bool_decide (count q = 0%nat) && writeopen q) eqn:E.
  - apply andb_true_iff in E as [E%bool_decide_eq_true Ew]. assert (Hq : queue q = []) by (by apply queue_nil).
    eapply runs_call; [eapply (wp_myproc (fun a s' => a = p /\ s' = set_sched x s)); [by eapply running_cur|done]|].
    intros a s' [-> ->]. destruct (Z.eqb_spec (killed p) 0) as [Ek|Ek]; simpl.
    + eapply runs_seq; [eapply runs_mono;
        [eapply (runs_ksleep ie (CNread p0) (Lpipe p0) _ i p (fun _ _ => False)); [exact HL|apply Hr1|apply Hr1]|done|]|done].
      intros s' (y & -> & HLy & Hpy & _). destruct Hsp as (Hpx & _). rewrite !sched_of_set, Hpx in Hpy.
      split_and!; done.
    + apply runs_wp. wp_call (wp_krelease ie []); [done|]. intros [] s4 (z & -> & HLz & _). apply wp_ret.
      split; [done|]. split; [done|]. left. split_and!; done.
  - apply runs_wp. wp_call (wp_piperead_loop (Z.to_nat n) addr 0); [exact Hr1|done|by rewrite Z.add_0_r|lia|].
    intros r s2 (-> & Hok2 & Hq2 & Hr2 & Hw2). rewrite Z.add_0_r in Hw2.
    wp_call (wp_kwakeup ie [Lpipe p0]); [apply Hr2|set_solver|simpl; lia|]. intros [] s3 (y & -> & HLy & _).
    wp_call (wp_krelease ie []); [done|]. intros [] s4 (z & -> & HLz & _). apply wp_ret.
    split; [done|]. split; [done|]. right. exists (Nat.min (Z.to_nat n) (length (queue q))). rewrite length_queue.
    split; [done|]. split; [done|]. split; [|done]. intros Hq%queue_nil; [|done]. rewrite bool_decide_true in E by done. done.
Qed.
End specs.

(** ** The properties *)

(** C15 [pipewrite] appends: it returns [n] with all bytes of the user's buffer
    at the end of the queue; or -1, when the ring filled up and no reader is
    left or the process was killed; or it sleeps on a full ring, with the
    readers awake and the lock of the pipe free.  What was queued before and
    the bytes that fitted are in order in every case, also when the counters
    wrap. *)
Theorem pipewrite_appends kend ie p0 tabs lo hi i p addr n s :
  KERNLINK <= kend -> 0 <= lo -> hi <= 524288 -> running kend ie tabs lo hi i p [] s -> pipe_ok (pipes s p0) -> 0 <= n ->
  lo <= addr / 4096 -> addr + n <= 4096 * hi ->
  let q := pipes s p0 in let bs := user_bytes (ram s) tabs addr (Z.to_nat n) in
  runs (pipewrite p0 addr n) (fun r s' => let q' := pipes s' p0 in
      locked_by ie [] (sched_of s') /\ ram s' = ram s /\ pipe_ok q' /\
      (r = n /\ queue q' = queue q ++ bs \/
       r = -1 /\ (exists j, (j < length bs)%nat /\ queue q' = queue q ++ take j bs) /\ count q' = Z.to_nat PIPESIZE /\
         (readopen q = false \/ killed p <> 0)))
    (writer_sleeps ie p0 tabs i p (Z.to_nat n) addr s) s.
Proof. intros Hend Hlo Hhi. by apply runs_pipewrite. Qed.

(** C16 [piperead] takes from the front: it returns how many bytes there were,
    at most [n], and these are the oldest ones, now in the user's buffer; or
    -1 for a killed process; or it sleeps, only while the queue is empty and a
    writer is left. *)
Theorem piperead_takes kend ie p0 tabs lo hi i p addr n s :
  KERNLINK <= kend -> 0 <= lo -> hi <= 524288 -> running kend ie tabs lo hi i p [] s -> pipe_ok (pipes s p0) -> 0 <= n ->
  lo <= addr / 4096 -> addr + n <= 4096 * hi ->
  let q := pipes s p0 in
  runs (piperead p0 addr n) (fun r s' => let q' := pipes s' p0 in
      locked_by ie [] (sched_of s') /\ pipe_ok q' /\
      (r = -1 /\ queue q = [] /\ writeopen q = true /\ killed p <> 0 /\ q' = q /\ ram s' = ram s \/
       exists j, j = Nat.min (Z.to_nat n) (length (queue q)) /\ r = Z.of_nat j /\ (queue q = [] -> writeopen q = false) /\
         queue q' = drop j (queue q) /\ written tabs addr (take j (queue q)) (ram s) (ram s')))
    (reader_sleeps ie p0 i p s) s.
Proof. intros Hend Hlo Hhi. by apply runs_piperead. Qed.

Lemma demo_running : running demo_kend true demo_tabs 0 1 0 demo_proc [] demo_kern.
Proof. split; [apply boot_lockstate|done|done|apply demo_writable]. Qed.
Lemma demo_pipe_ok : pipe_ok (pipes demo_kern 5).
Proof. split; [done|done|done|]. by apply (bool_decide_unpack _); vm_compute. Qed.

Lemma pipewrite_appends_witness :
  runs (pipewrite 5 16 3) (fun r s' => r = 3 /\ queue (pipes s' 5) = [7; 7; 0; 0; 0] \/ r = -1) (fun _ => True) demo_kern.
Proof.
  eapply runs_mono; [apply (pipewrite_appends demo_kend true 5 demo_tabs 0 1 0 demo_proc 16 3 demo_kern)| |done].
  - done.
  - done.
  - done.
  - apply demo_running.
  - apply demo_pipe_ok.
  - done.
  - done.
  - done.
  - intros r s' (_ & _ & _ & [[-> Hq]|[-> _]]); [left|by right]. split; [done|]. rewrite Hq. by vm_compute.
Defined.

Lemma piperead_takes_witness :
  runs (piperead 5 16 3) (fun r s' => r = -1 \/ r = 2 /\ queue (pipes s' 5) = []) (fun _ => True) demo_kern.
Proof.
  eapply runs_mono; [apply (piperead_takes demo_kend true 5 demo_tabs 0 1 0 demo_proc 16 3 demo_kern)| |done].
  - done.
  - done.
  - done.
  - apply demo_running.
  - apply demo_pipe_ok.
  - done.
  - done.
  - done.
  - intros r s' (_ & _ & [[-> _]|(j & -> & -> & _ & Hq & _)]); [by left|right]. split; [by vm_compute|]. rewrite Hq. by vm_compute.
Defined.
