(* ===== verification/ProcProps.v ===== *)
(** * What the process calls guarantee (proc.c)

    [fork] makes a copy of the caller, [exit] hands over to the parent and to
    [init], [wait] gives everything back, and [kill] with the pid of unused
    slots harms a process that does not exist yet. *)

From S2P Require Import Prelude Params CString Spinlock Sched Bio Log Fs Kalloc Vm VmMap VmUser VmCopy VmOut VmProps Kernel Pipe FileC ProcC KernDemo.

Section procs.
Context (kend : Z) (ie : bool).
Hypothesis Hend : KERNLINK <= kend.

(** ** The allocator inside the kernel *)

Lemma kmem_relock L L' free k m : kmem_ok kend ie L free k -> lockstate ie L' m -> Lkmem ∉ L' ->
  Z.of_nat (length L') + 1 < 2147483647 -> kmem_ok kend ie L' free (KmemSt m (use_lock k) (freelist k) (kram k)).
Proof. intros [] H1 H2 H3. by split. Qed.

Definition kmem_in (L : list lockid) (free : list Z) (s : kern_st) : Prop := kmem_ok kend ie L free (lget kmem_lens s).

Lemma kmem_in_locked L free s : kmem_in L free s -> locked_by ie L (sched_of s).
Proof. intros [H _ _ _ _ _]. exact H. Qed.

(** Taking and giving back other locks. *)
Lemma kmem_in_sched L L' free s x : kmem_in L free s -> locked_by ie L' x -> Lkmem ∉ L' -> Z.of_nat (length L') < 1000 ->
  kmem_in L' free (set_sched x s).
Proof. intros Hk HL Hn Hl. apply (kmem_relock L L' free _ (mach x) Hk); [done|done|lia]. Qed.

(** A routine of the allocator on the kernel: the process table stays. *)
Lemma wp_on_mem {A} (m : M kmem_st A) (Q : A -> kern_st -> Prop) s :
  wp m (fun a k => Q a (lset kmem_lens k s)) (lget kmem_lens s) -> wp (on_mem m) Q s.
Proof. apply wp_lift. Qed.

Lemma kmem_in_set L free k s : kmem_ok kend ie L free k -> kmem_in L free (lset kmem_lens k s).
Proof. unfold kmem_in. by rewrite lget_lset. Qed.

Lemma wp_upd_proc i f s (Q : unit -> kern_st -> Prop) :
  Q () (set_sched (set_procs (alter f i (procs (sched_of s))) (sched_of s)) s) -> wp (upd_proc i f) Q s.
Proof. intros HQ. apply wp_lift, wp_modify. exact HQ. Qed.

(** ** wait *)

Lemma vs_relock L L' free pg tabs k m : vs kend ie L free pg tabs k -> lockstate ie L' m -> Lkmem ∉ L' ->
  Z.of_nat (length L') + 1 < 2147483647 -> vs kend ie L' free pg tabs (KmemSt m (use_lock k) (freelist k) (kram k)).
Proof. intros [Hk Hp Hs] H1 H2 H3. split; [by eapply kmem_relock|done|done]. Qed.

Lemma wp_wait me i p tabs free s :
  curproc (sched_of s) = Some me ->
  list_find (fun p => parent p = Some me /\ state p = ZOMBIE) (procs (sched_of s)) = Some (i, p) ->
  vs kend ie [] free (pgdir p) tabs (lget kmem_lens s) -> user_ok kend (ram s) (pgdir p) tabs free 0 524288 ->
  ram_page kend (kstack p) -> kstack p ∉ free -> ~ space_page (ram s) (pgdir p) tabs (kstack p) ->
  wp (wait kend) (fun r s' => r = pid p /\ procs (sched_of s') = alter reaped i (procs (sched_of s)) /\
    exists fs, kmem_in [] (fs ++ kstack p :: free) s' /\ forall q, q ∈ fs <-> space_page (ram s) (pgdir p) tabs q) s.
Proof.
  intros Hme Hfind Hvs Huo Hk Hkf Hks. unfold wait.
  assert (HL : locked_by ie [] (sched_of s)) by (by apply (kmem_in_locked [] free), Hvs).
  wp_call (wp_kacquire ie []); [done|by apply not_elem_of_nil|simpl; lia|]. intros [] s1 (x & -> & HLx & Hpx & Hcx & _).
  apply wp_bind, wp_gets, wp_bind, wp_gets. rewrite !sched_of_set, Hpx, Hcx, Hme, Hfind.
  assert (Hvs1 : vs kend ie [Lptable] free (pgdir p) tabs (lget kmem_lens (set_sched x s))).
  { apply (vs_relock [] [Lptable] free (pgdir p) tabs (lget kmem_lens s) (mach x) Hvs); [done|set_solver|simpl; lia]. }
  apply wp_bind, wp_on_mem.
  wp_call (wp_free_page kend Hend ie [Lptable] free (pgdir p) tabs (kstack p)); [done|done| |done|].
  { intros Ht. apply Hks. by left. }
  intros [] k1 (Hvs2 & Hmap & Hmem).
  assert (Hsp : forall q, space_page (kram k1) (pgdir p) tabs q <-> space_page (ram s) (pgdir p) tabs q).
  { intros q. unfold space_page. by setoid_rewrite Hmap. }
  apply wp_bind, wp_on_mem. rewrite lget_lset.
  wp_call (wp_freevm kend Hend ie [Lptable] (pgdir p) tabs (kstack p :: free)); [done| |].
  { split.
    - intros n e Hn He. rewrite Hmap in He. destruct (uo_page _ _ _ _ _ _ _ Huo n e Hn He) as (H1 & H2 & H3).
      split; [done|]. split; [done|]. apply not_elem_of_cons. split; [|done]. intros E. apply Hks. right. by exists n, e.
    - intros n n' e e' Hn Hn' He He'. rewrite Hmap in He, He'. by apply (uo_inj _ _ _ _ _ _ _ Huo). }
  intros [] k2 (fs & Hk2 & Hfs & _).
  apply wp_bind, wp_upd_proc. wp_call (wp_krelease ie []); [exact (ko_lock _ _ _ _ _ Hk2)|].
  intros [] s2 (y & -> & HLy & Hpy & _). apply wp_ret. split; [done|]. split.
  - rewrite sched_of_set, Hpy. cbn. by rewrite Hpx.
  - exists fs. split; [|intros q; rewrite Hfs; apply Hsp].
    apply (kmem_relock [Lptable] [] _ _ (mach y) Hk2); [done|by apply not_elem_of_nil|simpl; lia].
Qed.

(** ** The state between the steps of [fork] *)

Context (me : nat).

Record KS (L : list lockid) (free : list Z) (ps : list proc) (n : Z) (fl : list file) (ic : nat -> inode)
    (m : mem) (s : kern_st) : Prop := {
  KS_mem : kmem_in L free s;
  KS_procs : procs (sched_of s) = ps;
  KS_cur : curproc (sched_of s) = Some me;
  KS_next : nextpid (sched_of s) = n;
  KS_files : files s = fl;
  KS_icache : icache (kfs s) = ic;
  KS_ram : ram s = m }.

Lemma KS_sched L L' free ps n fl ic m s x : KS L free ps n fl ic m s -> locked_by ie L' x -> Lkmem ∉ L' ->
  Z.of_nat (length L') < 1000 -> same_procs (sched_of s) x -> KS L' free ps n fl ic m (set_sched x s).
Proof.
  intros [] HL Hk Hn (H1 & H2 & H3 & _). split; rewrite ?sched_of_set; try done; try congruence.
  by eapply kmem_in_sched.
Qed.
Lemma wp_KS_acquire l free ps n fl ic m s : KS [] free ps n fl ic m s -> l <> Lkmem ->
  wp (kacquire l) (fun _ s' => KS [l] free ps n fl ic m s') s.
Proof.
  intros HK Hl. eapply wp_mono; [apply (wp_kacquire ie [])|].
  - apply (kmem_in_locked _ _ _ (KS_mem _ _ _ _ _ _ _ _ HK)).
  - apply not_elem_of_nil.
  - done.
  - intros _ s' (x & -> & HLx & Hs). eapply KS_sched; try done. set_solver.
Qed.
Lemma wp_KS_release l free ps n fl ic m s : KS [l] free ps n fl ic m s ->
  wp (krelease l) (fun _ s' => KS [] free ps n fl ic m s') s.
Proof.
  intros HK. eapply wp_mono; [apply (wp_krelease ie [])|].
  - apply (kmem_in_locked _ _ _ (KS_mem _ _ _ _ _ _ _ _ HK)).
  - intros _ s' (x & -> & HLx & Hs). eapply KS_sched; try done. set_solver.
Qed.
Lemma wp_KS_upd i f L free ps n fl ic m s : KS L free ps n fl ic m s ->
  wp (upd_proc i f) (fun _ s' => KS L free (alter f i ps) n fl ic m s') s.
Proof. intros []. apply wp_upd_proc. split; try done. cbn. by subst. Qed.
Lemma wp_KS_mem {A} (c : M kmem_st A) (R : A -> list Z -> mem -> Prop) L free ps n fl ic m s : KS L free ps n fl ic m s ->
  (forall k, kmem_ok kend ie L free k -> kram k = m ->
     wp c (fun a k' => exists free', kmem_ok kend ie L free' k' /\ R a free' (kram k')) k) ->
  wp (on_mem c) (fun a s' => exists free' m', KS L free' ps n fl ic m' s' /\ R a free' m') s.
Proof.
  intros [] Hc. apply wp_on_mem. eapply wp_mono; [by apply Hc|]. intros a k (free' & Hk & HR).
  exists free', (kram k). split; [|done]. split; try done. by apply kmem_in_set.
Qed.
Lemma wp_KS_myproc L free ps n fl ic m p s : KS L free ps n fl ic m s -> ps !! me = Some p ->
  wp myproc (fun q s' => q = p /\ KS L free ps n fl ic m s') s.
Proof.
  intros HK Hp. apply (wp_myproc _ p); [|done]. unfold cur_proc.
  by rewrite (KS_cur _ _ _ _ _ _ _ _ HK), (KS_procs _ _ _ _ _ _ _ _ HK).
Qed.
Lemma wp_KS_proc i L free ps n fl ic m p s : KS L free ps n fl ic m s -> ps !! i = Some p ->
  wp (get_proc i) (fun q s' => q = p /\ KS L free ps n fl ic m s') s.
Proof. intros HK Hp. unfold get_proc. apply wp_bind, wp_gets. by rewrite (KS_procs _ _ _ _ _ _ _ _ HK), Hp. Qed.

Definition fs_set_sched (x : sched_st) (f : fs_st) : fs_st :=
  lset flog_lens (lset lbio_lens (lset bsched_lens x (lbio (flog f))) (flog f)) f.

Lemma wp_fs_lock L l f : locked_by ie L (bsched (lbio (flog f))) -> l ∉ L -> Z.of_nat (length L) < 1000 ->
  wp (fs_acquire l) (fun _ f' => exists x, f' = fs_set_sched x f /\ locked_by ie (l :: L) x /\
    same_procs (bsched (lbio (flog f))) x) f.
Proof.
  intros HL Hl Hn. do 3 apply wp_lift. eapply wp_mono; [by apply (Sched.wp_acquire ie L l)|]. intros _ x [H1 H2]. by exists x.
Qed.
Lemma wp_fs_unlock L l f : locked_by ie (l :: L) (bsched (lbio (flog f))) ->
  wp (fs_release l) (fun _ f' => exists x, f' = fs_set_sched x f /\ locked_by ie L x /\
    same_procs (bsched (lbio (flog f))) x) f.
Proof.
  intros HL. do 3 apply wp_lift. eapply wp_mono; [by apply (Sched.wp_release_hd ie L l)|]. intros _ x [H1 H2]. by exists x.
Qed.

Lemma wp_KS_idup ip free ps n fl ic m s : KS [] free ps n fl ic m s ->
  wp (on_fs (idup ip)) (fun r s' => r = ip /\
    KS [] free ps n fl (alter (fun x => set_i_ref (s32 (i_ref x + 1)) x) ip ic) m s') s.
Proof.
  intros HK. apply wp_lift. unfold idup. cbn [lget kfs_lens].
  wp_call (wp_fs_lock []); [apply (kmem_in_locked _ _ _ (KS_mem _ _ _ _ _ _ _ _ HK))|apply not_elem_of_nil|done|].
  intros [] f1 (x & -> & HLx & Hx). unfold upd_ino. apply wp_bind, wp_modify.
  wp_call (wp_fs_unlock []); [exact HLx|]. intros [] f2 (y & -> & HLy & Hy). apply wp_ret. split; [done|].
  assert (Hxy : same_procs (sched_of s) y) by (eapply same_procs_trans; [exact Hx|exact Hy]).
  pose proof (KS_sched [] [] free ps n fl ic m s y HK HLy (not_elem_of_nil _) eq_refl Hxy) as HK'.
  destruct HK' as [H1 H2 H3 H4 H5 H6 H7]. split; try done. cbn. by rewrite <- H6.
Qed.

Lemma wp_KS_filedup f x free ps n fl ic m s : KS [] free ps n fl ic m s -> fl !! f = Some x -> 1 <= f_ref x < 2147483647 ->
  wp (filedup f) (fun r s' => r = f /\ KS [] free ps n (<[f := set_f_ref (f_ref x + 1) x]> fl) ic m s') s.
Proof.
  intros HK Hf Hx. unfold filedup. wp_call wp_KS_acquire; [done|done|]. intros [] s1 HK1.
  unfold get_file. apply wp_bind, wp_bind, wp_gets. rewrite (KS_files _ _ _ _ _ _ _ _ HK1), Hf. apply wp_ret.
  replace (f_ref x <? 1) with false by lia. apply wp_bind, wp_modify.
  wp_call (wp_KS_release Lftable free ps n (<[f := set_f_ref (f_ref x + 1) x]> fl) ic m).
  { destruct HK1. split; try done. cbn. subst fl. apply list_eq. intros j. destruct (decide (j = f)) as [->|Hj].
    - rewrite list_lookup_alter_eq, list_lookup_insert_eq by (by eapply lookup_lt_Some). rewrite Hf. simpl. by rewrite s32_small by (unfold is_s32; lia).
    - by rewrite list_lookup_alter_ne, list_lookup_insert_ne by congruence. }
  intros [] s2 HK2. by apply wp_ret.
Qed.

(** ** fork *)

Context (ps : list proc) (np : nat).

(** The state with entry [np] of the table replaced. *)
Notation KP q L free n fl ic m := (KS L free (<[np := q]> ps) n fl ic m).

Lemma wp_KP_upd f q L free n fl ic m s : (np < length ps)%nat -> KP q L free n fl ic m s ->
  wp (upd_proc np f) (fun _ s' => KP (f q) L free n fl ic m s') s.
Proof.
  intros Hnp HK. eapply wp_mono; [by apply wp_KS_upd|]. intros [] s' HK'.
  enough (E : alter f np (<[np := q]> ps) = <[np := f q]> ps) by (by rewrite <- E).
  clear HK'. apply list_eq. intros j. destruct (decide (j = np)) as [->|Hj].
  - by rewrite list_lookup_alter_eq, !list_lookup_insert_eq.
  - by rewrite list_lookup_alter_ne, !list_lookup_insert_ne by congruence.
Qed.

Lemma wp_KS_next L free ps' n fl ic m s : KS L free ps' n fl ic m s ->
  wp (on_sched (modify (fun s => SchedSt (mach s) (procs s) (curproc s) (s32 (n + 1)) (initproc s))))
    (fun _ s' => KS L free ps' (s32 (n + 1)) fl ic m s') s.
Proof. intros []. apply wp_lift, wp_modify. by split. Qed.

Context (kdata forkret : Z).
Hypothesis Hdata : kdata mod 4096 = 0 /\ KERNLINK < kdata < KERNBASE + PHYSTOP.

Definition embryo (q : proc) (n k : Z) : proc := set_kstack k (set_pid n (set_state EMBRYO q)).

Lemma wp_allocproc q free n fl ic m s : KS [] free ps n fl ic m s ->
  list_find (fun p => state p = UNUSED) ps = Some (np, q) ->
  wp (allocproc forkret) (fun r s' => match free with
    | [] => r = None /\ KP (set_state UNUSED (embryo q n 0)) [] [] (s32 (n + 1)) fl ic m s'
    | k :: free' => r = Some np /\ KP (set_context (new_context forkret) (embryo q n k)) [] free' (s32 (n + 1)) fl ic m s'
    end) s.
Proof.
  intros HK Hq. unfold allocproc. wp_call wp_KS_acquire; [done|done|]. intros [] s1 HK1.
  apply wp_bind, wp_gets. rewrite (KS_procs _ _ _ _ _ _ _ _ HK1), Hq.
  apply list_find_Some in Hq as (Hq & _ & _). assert (Hnp : (np < length ps)%nat) by (by eapply lookup_lt_Some).
  rewrite <- (list_insert_id _ _ _ Hq) in HK1.
  wp_call wp_KP_upd; [done|done|]. intros [] s2 HK2.
  apply wp_bind, wp_gets. rewrite (KS_next _ _ _ _ _ _ _ _ HK2).
  wp_call wp_KP_upd; [done|done|]. intros [] s3 HK3.
  wp_call wp_KS_next; [done|]. intros [] s4 HK4.
  wp_call wp_KS_release; [done|]. intros [] s5 HK5.
  wp_call (wp_KS_mem kalloc (fun r free' m' => m' = m /\ match free with
    | [] => r = 0 /\ free' = [] | k :: free'' => r = k /\ free' = free'' end)); [done| |].
  { intros k Hk Em. eapply wp_mono; [by apply (wp_kalloc kend (Hend0 kend Hend))|]. intros r k' (E1 & _ & Hr).
    destruct free as [|p free]; destruct Hr as [-> Hr]; eexists; (split; [done|]); rewrite E1; by split_and!. }
  intros k s6 (free' & m' & HK6 & -> & Hk).
  wp_call wp_KP_upd; [done|done|]. intros [] s7 HK7.
  destruct free as [|p free]; destruct Hk as [-> ->].
  - rewrite Z.eqb_refl. wp_call wp_KP_upd; [done|done|]. intros [] s8 HK8. apply wp_ret. by split.
  - assert (Hp : ram_page kend p) by (apply (Forall_inv (ko_pages _ _ _ _ _ (KS_mem _ _ _ _ _ _ _ _ HK)))).
    destruct (ram_page_range kend (Hend0 kend Hend) p Hp) as [Hp1 _].
    rewrite (proj2 (Z.eqb_neq p 0)) by (unfold KERNBASE in *; lia).
    wp_call wp_KP_upd; [done|done|]. intros [] s8 HK8. apply wp_ret. by split.
Qed.

(** References taken by copying a descriptor table. *)
Definition uses (l : list (option nat)) (f : nat) : Z := Z.of_nat (length (filter (fun o => o = Some f) l)).
Definition dups (l : list (option nat)) (fl fl' : list file) : Prop :=
  forall f, fl' !! f = (fun x => set_f_ref (f_ref x + uses l f) x) <$> fl !! f.

Lemma uses_snoc l o f : uses (l ++ [o]) f = uses l f + if decide (o = Some f) then 1 else 0.
Proof.
  unfold uses. rewrite filter_app, length_app. destruct (decide (o = Some f)) as [E|E].
  - rewrite (filter_cons_True _ o []) by done. simpl. lia.
  - rewrite (filter_cons_False _ o []) by done. simpl. lia.
Qed.
Lemma uses_le l f : 0 <= uses l f <= Z.of_nat (length l).
Proof. unfold uses. pose proof (length_filter (fun o => o = Some f) l). lia. Qed.

Lemma wp_fork_files p q pre rest free n fl fl' ic m s :
  KP (set_ofile (pre ++ replicate (length rest) None) q) [] free n fl' ic m s -> (np < length ps)%nat -> me <> np ->
  ps !! me = Some p -> ofile p = pre ++ rest -> Z.of_nat (length (ofile p)) <= 1000 ->
  (forall f, Some f ∈ ofile p -> exists x, fl !! f = Some x /\ 1 <= f_ref x < 2147480000) -> dups pre fl fl' ->
  wp (fork_files (length rest) (length pre) np) (fun _ s' => exists fl'', dups (ofile p) fl fl'' /\
    KP (set_ofile (ofile p) q) [] free n fl'' ic m s') s.
Proof.
  revert pre fl' s. induction rest as [|o rest IH]; intros pre fl' s HK Hnp Hme Hp Ho Hlen Hfl Hd; simpl.
  { apply wp_ret. exists fl'. rewrite Ho. simpl in *. by rewrite app_nil_r in *. }
  wp_call wp_KS_myproc; [exact HK|by rewrite list_lookup_insert_ne|]. intros _ s1 [-> HK1].
  assert (E : mjoin (ofile p !! length pre) = o) by (by rewrite Ho, lookup_app_r, Nat.sub_diag by lia). rewrite E.
  replace (S (length pre)) with (length (pre ++ [o])) by (rewrite length_app; simpl; lia).
  destruct o as [f|].
  - assert (Hin : Some f ∈ ofile p) by (rewrite Ho; set_solver).
    destruct (Hfl f Hin) as (x & Hx & Hr). pose proof (Hd f) as Hf. rewrite Hx in Hf. simpl in Hf.
    assert (Hu := uses_le pre f). rewrite Ho, length_app in Hlen.
    apply wp_bind. wp_call wp_KS_filedup; [exact HK1|exact Hf|simpl; lia|]. intros _ s2 [-> HK2].
    eapply wp_mono; [apply wp_KP_upd; [done|exact HK2]|]. intros [] s3 HK3.
    eapply IH; try done; [|by rewrite <- app_assoc|by rewrite Ho, length_app|].
    + rewrite <- app_assoc. simpl in HK3 |- *.
      rewrite insert_app_r_alt, Nat.sub_diag in HK3 by lia. exact HK3.
    + intros g. rewrite uses_snoc. destruct (decide (g = f)) as [->|Hg].
      * rewrite list_lookup_insert_eq by (by eapply lookup_lt_Some). rewrite Hx, decide_True by done. simpl.
        unfold set_f_ref. simpl. do 2 f_equal. lia.
      * rewrite list_lookup_insert_ne by congruence. rewrite decide_False, Z.add_0_r by congruence. apply Hd.
  - apply wp_bind, wp_ret. eapply IH; try done; [by rewrite <- app_assoc|by rewrite <- app_assoc|].
    intros g. rewrite uses_snoc, decide_False, Z.add_0_r by done. apply Hd.
Qed.

(** The entry of the child [q] becomes. *)
Definition child_of (p q : proc) (d k n : Z) : proc :=
  Proc (sz p) d k RUNNABLE n (Some me) (set_eax 0 (tf p)) (new_context forkret) (pchan q) (killed q) (ofile p) (cwd p)
    (safestrcpy_l (pname q) (pname p) 16).

(** What [fork] needs of its caller [p] and of the slot [q]. *)
Record fork_ready (p q : proc) (ip : nat) (tabs : gmap Z Z) (free : list Z) (fl : list file) (m : mem) : Prop := {
  fr_me : ps !! me = Some p;
  fr_run : state p = RUNNING;
  fr_slot : list_find (fun p => state p = UNUSED) ps = Some (np, q);
  fr_clear : ofile q = replicate NOFILE None;
  fr_files : length (ofile p) = NOFILE /\
    forall f, Some f ∈ ofile p -> exists x, fl !! f = Some x /\ 1 <= f_ref x < 2147480000;
  fr_cwd : cwd p = Some ip;
  fr_pt : pt_ok kend m (pgdir p) tabs;
  fr_apart : forall a, space_page m (pgdir p) tabs a -> ram_page kend a /\ a ∉ free;
  fr_size : 0 <= sz p < KERNBASE;
  fr_user : forall k, 0 <= k < page_end (sz p) -> is_Some (mapped m tabs k) }.

(** The caller's memory is as it was. *)
Definition kept (m m' : mem) (d : Z) (tabs : gmap Z Z) : Prop :=
  forall q a, space_page m d tabs q -> in_page q a -> m' a = m a.

Definition forked (p q : proc) (ip : nat) (tabs : gmap Z Z) (free : list Z) (n : Z) (fl : list file)
    (ic : nat -> inode) (m : mem) (r : Z) (s' : kern_st) : Prop :=
  exists d k free1 free' fl' m', r = n /\ free = k :: free1 /\ (forall a, a ∈ free' -> a ∈ free1) /\
    KP (child_of p q d k n) [] free' (s32 (n + 1)) fl' (alter (fun x => set_i_ref (s32 (i_ref x + 1)) x) ip ic) m' s' /\
    dups (ofile p) fl fl' /\ kept m m' (pgdir p) tabs /\ same_user m (pgdir p) free1 (sz p) m' d.

Definition fork_failed (p : proc) (tabs : gmap Z Z) (free : list Z) (n : Z) (fl : list file)
    (ic : nat -> inode) (m : mem) (r : Z) (s' : kern_st) : Prop :=
  exists q' free' m', r = -1 /\ state q' = UNUSED /\ kstack q' = 0 /\ (forall a, a ∈ free' -> a ∈ free) /\
    KP q' [] free' (s32 (n + 1)) fl ic m' s' /\ kept m m' (pgdir p) tabs /\ Z.of_nat (length free) <= 1027 + page_end (sz p).

(** The part of [fork] after the address space is copied. *)
Definition fork_rest (p : proc) : M kern_st Z :=
  me ← gets (fun s => curproc (sched_of s));
  upd_proc np (fun q => set_tf (set_eax 0 (tf p)) (set_parent me (set_sz (sz p) q))) ;;
  fork_files NOFILE 0 np ;;
  match cwd p with
  | None => panic "trap"
  | Some ip => c ← on_fs (idup ip); upd_proc np (set_cwd (Some c))
  end ;;
  upd_proc np (fun q => set_pname (safestrcpy_l (pname q) (pname p) 16) q) ;;
  q ← get_proc np;
  kacquire Lptable ;;
  upd_proc np (set_state RUNNABLE) ;;
  krelease Lptable ;;
  mret (pid q).

Lemma wp_fork_rest p q ip tabs free0 free d k n n' fl ic m m' s : fork_ready p q ip tabs free0 fl m ->
  KP (set_pgdir d (set_context (new_context forkret) (embryo q n k))) [] free n' fl ic m' s ->
  wp (fork_rest p) (fun r s' => exists fl', r = n /\ dups (ofile p) fl fl' /\
    KP (child_of p q d k n) [] free n' fl' (alter (fun x => set_i_ref (s32 (i_ref x + 1)) x) ip ic) m' s') s.
Proof.
  intros [Hme Hrun Hslot Hclr [Hlen Hfl] Hcwd _ _ _ _] HK. unfold fork_rest.
  apply list_find_Some in Hslot as (Hq & Hu & _). assert (Hnp : (np < length ps)%nat) by (by eapply lookup_lt_Some).
  assert (Hne : me <> np) by (intros ->; congruence).
  apply wp_bind, wp_gets. rewrite (KS_cur _ _ _ _ _ _ _ _ HK).
  wp_call wp_KP_upd; [done|done|]. intros [] s1 HK1.
  rewrite <- Hlen. wp_call (wp_fork_files p (set_tf (set_eax 0 (tf p)) (set_parent (Some me) (set_sz (sz p)
    (set_pgdir d (set_context (new_context forkret) (embryo q n k)))))) [] (ofile p) free n' fl fl).
  - rewrite Hlen, app_nil_l, <- Hclr. exact HK1.
  - done.
  - done.
  - done.
  - done.
  - rewrite Hlen. done.
  - done.
  - intros f. unfold uses. simpl. destruct (fl !! f) as [[]|]; simpl; [|done]. unfold set_f_ref. simpl. by rewrite Z.add_0_r.
  - rewrite Hcwd. intros [] s2 (fl' & Hd & HK2). apply wp_bind. wp_call wp_KS_idup; [done|]. intros _ s3 [-> HK3].
    eapply wp_mono; [by apply wp_KP_upd|]. intros [] s4 HK4.
    wp_call wp_KP_upd; [done|done|]. intros [] s5 HK5.
    wp_call wp_KS_proc; [done|by apply list_lookup_insert_eq|]. intros _ s6 [-> HK6].
    wp_call wp_KS_acquire; [done|done|]. intros [] s7 HK7.
    wp_call wp_KP_upd; [done|done|]. intros [] s8 HK8.
    wp_call wp_KS_release; [done|]. intros [] s9 HK9. apply wp_ret. exists fl'. split; [done|]. split; [done|].
    unfold child_of. rewrite Hcwd. exact HK9.
Qed.

Lemma wp_fork p q ip tabs free n fl ic m s : fork_ready p q ip tabs free fl m -> KS [] free ps n fl ic m s ->
  wp (fork kend kdata forkret) (fun r s' =>
    forked p q ip tabs free n fl ic m r s' \/ fork_failed p tabs free n fl ic m r s') s.
Proof.
  intros Hrdy HK. pose proof Hrdy as [Hme Hrun Hslot _ _ _ Hpt Hap Hsz Hmap].
  pose proof Hslot as Hslot'. apply list_find_Some in Hslot' as (Hq & Hu & _).
  assert (Hnp : (np < length ps)%nat) by (by eapply lookup_lt_Some).
  assert (Hne : me <> np) by (intros ->; congruence).
  pose proof (KS_mem _ _ _ _ _ _ _ _ HK) as Hk. unfold fork.
  wp_call wp_allocproc; [done|done|]. intros r s1 H1. destruct free as [|k free]; destruct H1 as [-> HK1].
  { apply wp_ret. right. exists (set_state UNUSED (embryo q n 0)), [], m. simpl. split_and!; (done || unfold page_end; zlia). }
  pose proof (ko_nodup _ _ _ _ _ Hk) as Hnd. apply NoDup_cons in Hnd as [Hkf Hnd].
  pose proof (Forall_inv (ko_pages _ _ _ _ _ Hk)) as Hpk.
  wp_call wp_KS_myproc; [done|by rewrite list_lookup_insert_ne|]. intros _ s2 [-> HK2].
  wp_call (wp_KS_mem (copyuvm kend kdata (pgdir p) (sz p)) (fun r free' m' => kept m m' (pgdir p) tabs /\
    (forall a, a ∈ free' -> a ∈ free) /\ (r <> 0 -> same_user m (pgdir p) free (sz p) m' r) /\
    (r = 0 -> Z.of_nat (length free) <= 1026 + page_end (sz p)))); [done| |].
  { intros k0 Hk0 <-. eapply wp_mono; [eapply (wp_copyuvm kend Hend ie [] (kram k0) (pgdir p) tabs free); try done; [|apply Hk0]|].
    - intros a Ha. destruct (Hap a Ha). split; [done|]. set_solver.
    - intros d k' (Hkp & free' & H1 & H2 & H3 & H4). by exists free'. }
  intros d s3 (free' & m' & HK3 & Hkept & Hsub & Hsame & Hfew).
  wp_call wp_KP_upd; [done|done|]. intros [] s4 HK4.
  destruct (Z.eqb_spec d 0) as [->|Hd].
  - wp_call wp_KS_proc; [done|by apply list_lookup_insert_eq|]. intros _ s5 [-> HK5]. simpl kstack.
    wp_call (wp_KS_mem (kfree kend k) (fun _ free'' m'' => free'' = k :: free' /\ forall a, ~ in_page k a -> m'' a = m' a)); [done| |].
    { intros k0 Hk0 <-. eapply wp_mono; [apply (wp_kfree kend (Hend0 kend Hend) ie [] free'); [done|done|set_solver]|].
      intros [] k' (H1 & _ & H2). by exists (k :: free'). }
    intros [] s6 (? & m'' & HK6 & -> & Hm'').
    wp_call wp_KP_upd; [done|done|]. intros [] s7 HK7. wp_call wp_KP_upd; [done|done|]. intros [] s8 HK8.
    apply wp_ret. right. exists (set_state UNUSED (set_kstack 0 (set_pgdir 0 (set_context (new_context forkret) (embryo q n k))))), (k :: free'), m''.
    do 3 (split; [done|]). split; [set_solver|]. split; [exact HK8|].
    split; [|specialize (Hfew eq_refl); simpl length; lia].
    intros b a Hb Ha. rewrite Hm''; [by apply (Hkept b)|]. intros Ha'. destruct (Hap b Hb) as [[Hb1 _] Hb2].
    destruct Hpk as [Hpk _]. rewrite (in_page_unique b k a) in Hb2; [set_solver|done..].
  - eapply wp_mono; [by eapply wp_fork_rest|]. intros r s' (fl' & -> & Hdup & HK').
    left. exists d, k, free, free', fl', m'. split_and!; try done. by apply Hsame.
Qed.
End procs.

(** ** exit *)

Section exiting.
Context (me : nat) (init : option nat).

Definition adopt (p : proc) : proc := if bool_decide (parent p = Some me) then set_parent init p else p.
Definition chan_of (o : option nat) : chan := match o with Some k => CProc k | None => CNull end.
Definition wake_if (z : bool) (p : proc) : proc := if z then wake (chan_of init) p else p.
Definition zombie_child (p : proc) : bool := bool_decide (parent p = Some me) && bool_decide (state p = ZOMBIE).

Lemma wake_same c p : parent (wake c p) = parent p /\ (state (wake c p) = ZOMBIE <-> state p = ZOMBIE) /\
  set_parent init (wake c p) = wake c (set_parent init p) /\ wake c (wake c p) = wake c p.
Proof.
  unfold wake. destruct (bool_decide (state p = SLEEPING) && bool_decide (pchan p = c)) eqn:E; simpl; rewrite ?E; [|done].
  apply andb_prop in E as [E _]. apply bool_decide_eq_true in E. rewrite E. by split_and!.
Qed.
Lemma zombies_wake c l : existsb zombie_child (wake c <$> l) = existsb zombie_child l.
Proof.
  induction l as [|q l IH]; [done|]. rewrite fmap_cons. cbn [existsb]. rewrite IH. unfold zombie_child at 1 3.
  destruct (wake_same c q) as (-> & Hq & _). by rewrite (bool_decide_ext _ _ Hq).
Qed.
Lemma wake_if_same z p : parent (wake_if z p) = parent p /\ (state (wake_if z p) = ZOMBIE <-> state p = ZOMBIE) /\
  adopt (wake_if z p) = wake_if z (adopt p).
Proof.
  unfold wake_if, adopt. destruct z; [|done]. destruct (wake_same (chan_of init) p) as (-> & H1 & H2 & _).
  split_and!; try done; by case_bool_decide.
Qed.
Lemma wake_if_or z z' p : wake_if z' (wake_if z p) = wake_if (z || z') p.
Proof. destruct z, z'; try done. simpl. apply wake_same. Qed.

Lemma wp_reparent pre post s : procs s = wake_if (existsb zombie_child pre) <$> (adopt <$> pre) ++ post ->
  wp (reparent (length post) (length pre) me init) (fun _ s' =>
    s' = set_procs (wake_if (existsb zombie_child (pre ++ post)) <$> (adopt <$> pre ++ post)) s) s.
Proof.
  revert pre s. induction post as [|p post IH]; intros pre s Hs; simpl.
  { apply wp_ret. rewrite !app_nil_r in *. rewrite <- Hs. by destruct s. }
  set (z := existsb zombie_child pre) in *.
  assert (Hp : procs s !! length pre = Some (wake_if z p)).
  { rewrite Hs, fmap_app, lookup_app_r; rewrite !length_fmap; [|done]. by rewrite Nat.sub_diag. }
  apply wp_bind, wp_gets. rewrite Hp. replace (S (length pre)) with (length (pre ++ [p])) by (rewrite length_app; simpl; lia).
  destruct (wake_if_same z p) as (E1 & E2 & E3). rewrite E1.
  assert (Hn : (wake_if (existsb zombie_child (pre ++ [p])) <$> (adopt <$> pre ++ [p]) ++ post) =
    wake_if (zombie_child p) <$> alter adopt (length pre) (procs s)).
  { rewrite Hs, existsb_app. fold z. simpl. rewrite orb_false_r, !fmap_app. simpl.
    rewrite alter_app_r_alt by (by rewrite !length_fmap). rewrite !length_fmap, Nat.sub_diag. simpl.
    rewrite fmap_app. simpl. rewrite E3, wake_if_or, <- app_assoc. simpl. rewrite <- !list_fmap_compose.
    f_equal; [|f_equal]; apply list_fmap_ext; intros; simpl; by rewrite wake_if_or. }
  assert (Hgo : forall s1, procs s1 = wake_if (zombie_child p) <$> alter adopt (length pre) (procs s) ->
    mach s1 = mach s -> curproc s1 = curproc s -> nextpid s1 = nextpid s -> initproc s1 = initproc s ->
    wp (reparent (length post) (length (pre ++ [p])) me init) (fun _ s' =>
      s' = set_procs (wake_if (existsb zombie_child (pre ++ p :: post)) <$> (adopt <$> pre ++ p :: post)) s) s1).
  { intros s1 Hs1 ? ? ? ?. eapply wp_mono; [apply IH; by rewrite Hs1, <- Hn|]. intros _ s' ->.
    rewrite <- app_assoc. unfold set_procs. by f_equal. }
  clear IH. apply wp_bind, wp_when; intros Hpar.
  - apply bool_decide_eq_true in Hpar. apply wp_bind, wp_modify.
    assert (Ea : alter (set_parent init) (length pre) (procs s) = alter adopt (length pre) (procs s)).
    { apply list_alter_ext; [|done]. intros q Hq. rewrite Hp in Hq. injection Hq as <-. unfold adopt.
      by rewrite E1, bool_decide_eq_true_2. }
    apply wp_when; intros Hz; unfold zombie_child in Hgo; rewrite (bool_decide_eq_true_2 _ Hpar) in Hgo; simpl in Hgo.
    + apply wp_modify, Hgo; try done. simpl. apply bool_decide_eq_true, E2 in Hz.
      rewrite (bool_decide_eq_true_2 _ Hz), Ea. reflexivity.
    + apply Hgo; try done. simpl. apply bool_decide_eq_false in Hz. rewrite bool_decide_eq_false_2 by (by rewrite <- E2).
      by rewrite Ea, list_fmap_id.
  - apply Hgo; try done. apply bool_decide_eq_false in Hpar. unfold zombie_child. rewrite bool_decide_eq_false_2 by done. simpl.
    rewrite list_fmap_id. symmetry. rewrite <- (list_alter_id id (procs s) (length pre)) at 2 by done.
    apply list_alter_ext; [|done]. intros q Hq. rewrite Hp in Hq. injection Hq as <-. unfold adopt.
    by rewrite E1, bool_decide_eq_false_2.
Qed.
End exiting.

Lemma wp_exit_sched ie me par s p : locked_by ie [] s -> curproc s = Some me -> procs s !! me = Some p ->
  exists s', exit_sched me par s = Blocked s' /\ locked_by ie [Lptable] s' /\
    procs s' = alter (set_state ZOMBIE) me (wake_if (initproc s) (existsb (zombie_child me) (procs s)) <$>
      (adopt me (initproc s) <$> (wake (chan_of par) <$> procs s))).
Proof.
  intros HL Hc Hp. unfold exit_sched.
  pose proof (wp_acquire ie [] Lptable s HL ltac:(set_solver) ltac:(done)) as ([] & s1 & E1 & HL1 & (Hp1 & Hc1 & _ & Hi1 & _))%wp_ok.
  unfold mbind at 1, M_bind at 1. rewrite E1. clear E1.
  unfold mbind at 1, M_bind at 1. unfold wakeup1 at 1, modify at 1.
  unfold mbind at 1, M_bind at 1. unfold gets at 1. unfold mbind at 1, M_bind at 1. unfold gets at 1. simpl procs. simpl initproc.
  set (s2 := set_procs (wake _ <$> procs s1) s1).
  pose proof (wp_reparent me (initproc s1) [] (procs s2) s2) as Hre. simpl in Hre. rewrite list_fmap_id in Hre.
  specialize (Hre eq_refl). apply wp_ok in Hre as ([] & s3 & E3 & Hs3). simpl length in E3.
  unfold mbind at 1, M_bind at 1. rewrite E3. clear E3.
  unfold upd_cur, gets, modify, mbind, M_bind. simpl.
  assert (Hc3 : curproc s3 = Some me) by (rewrite Hs3; simpl; congruence). rewrite Hc3.
  set (s4 := set_procs _ s3).
  assert (E4 : procs s4 = alter (set_state ZOMBIE) me (wake_if (initproc s) (existsb (zombie_child me) (procs s)) <$>
      (adopt me (initproc s) <$> (wake (chan_of par) <$> procs s)))).
  { unfold s4, s2 in *. rewrite Hs3. cbn. rewrite Hi1, <- Hp1, <- (zombies_wake me None (chan_of par) (procs s1)). reflexivity. }
  assert (HL4 : locked_by ie [Lptable] s4) by (unfold s4; rewrite Hs3; exact HL1).
  exists s4. split_and!; [|done|done].
  erewrite (sched_blocked ie s4 me); try done.
  - rewrite E4, list_lookup_alter_eq, !list_lookup_fmap, Hp. done.
  - done.
Qed.



Lemma demo_ready : fork_ready demo_kend 0 (procs demo_sched) 1 demo_proc free_proc 0 demo_tabs demo_free
  (files demo_kern) (ram demo_kern).
Proof.
  split; try done.
  - split; [done|]. intros f Hf. exists demo_file. assert (f = 0%nat) as -> by (by apply elem_of_cons in Hf as [[= ->]|Hf%elem_of_replicate]; naive_solver).
    done.
  - apply (demo_space_pt 80), demo_entries_80.
  - intros a Ha%(demo_space_pages 80 demo_entries_80). split; [by destruct Ha as [->|[->| ->]]; vm_compute|].
    intros Hin%demo_sep. tauto.
  - change (page_end (sz demo_proc)) with 1. intros k Hk. change (ram demo_kern) with (kram (demo_space 80)).
    rewrite (proj2 (demo_space_pt 80 demo_entries_80)). by replace (k =? 0) with true by lia.
Qed.
Lemma demo_KS : KS demo_kend true 0 [] demo_free (procs demo_sched) 2 (files demo_kern) (icache (kfs demo_kern)) (ram demo_kern) demo_kern.
Proof. split; [exact demo_kern_mem|done..]. Qed.


(** C14 [wait] with a zombie child returns the pid of the first one, frees its
    slot and gives back all its memory: the free list has its kernel stack and
    exactly the pages of its address space added, and no page twice. *)
Theorem wait_reaps kend ie me i p tabs free s :
  KERNLINK <= kend -> curproc (sched_of s) = Some me ->
  list_find (fun p => parent p = Some me /\ state p = ZOMBIE) (procs (sched_of s)) = Some (i, p) ->
  vs kend ie [] free (pgdir p) tabs (lget kmem_lens s) -> user_ok kend (ram s) (pgdir p) tabs free 0 524288 ->
  ram_page kend (kstack p) -> kstack p ∉ free -> ~ space_page (ram s) (pgdir p) tabs (kstack p) ->
  wp (wait kend) (fun r s' => r = pid p /\ locked_by ie [] (sched_of s') /\
    procs (sched_of s') = alter reaped i (procs (sched_of s)) /\
    exists fs, kmem_in kend ie [] (fs ++ kstack p :: free) s' /\ NoDup (fs ++ kstack p :: free) /\
      forall q, q ∈ fs <-> space_page (ram s) (pgdir p) tabs q) s.
Proof.
  intros Hend Hme Hfind Hvs Huo Hk Hkf Hks. eapply wp_mono; [by apply (wp_wait kend ie Hend me i p tabs free)|].
  intros r s' (-> & Hps & fs & Hm & Hfs). split; [done|]. split; [exact (ko_lock _ _ _ _ _ Hm)|]. split; [done|].
  exists fs. split; [done|]. split; [exact (ko_nodup _ _ _ _ _ Hm)|done].
Qed.

Lemma wait_reaps_witness : wp (wait demo_kend) (fun r s' => r = 2) zombie_kern.
Proof.
  eapply wp_mono; [apply (wait_reaps demo_kend true 0 1 zombie_proc demo_tabs demo_free)|].
  - done.
  - done.
  - by vm_compute.
  - exact demo_vs.
  - exact demo_user.
  - by vm_compute.
  - apply (bool_decide_unpack _). by vm_compute.
  - intros Hp%(demo_space_pages 80 demo_entries_80). by destruct Hp as [|[|]].
  - intros r s' (-> & _). done.
Defined.

(** [kill(0)] finds the first unused slot, whose pid is 0, and marks it; neither
    [allocproc] nor [fork] clears the mark: the next process is killed at
    birth. *)
Theorem kill_zero_poisons kend ie forkret me ps np q k free n fl ic m s :
  KERNLINK <= kend -> KS kend ie me [] (k :: free) ps n fl ic m s ->
  list_find (fun p => state p = UNUSED) ps = Some (np, q) -> list_find (fun p => pid p = 0) ps = Some (np, q) ->
  wp (on_sched (kill 0) ;; allocproc forkret) (fun r s' => r = Some np /\
    exists q', procs (sched_of s') !! np = Some q' /\ state q' = EMBRYO /\ pid q' = n /\ killed q' = 1) s.
Proof.
  intros Hend HK Hu Hz. destruct (list_find_Some (fun p => state p = UNUSED) ps np q) as [Hu' _].
  destruct (Hu' Hu) as (Hq & Hst & Hmin). apply wp_bind, wp_lift.
  eapply wp_mono; [apply (wp_kill ie), (kmem_in_locked _ _ _ _ _ (KS_mem _ _ _ _ _ _ _ _ _ _ _ HK))|].
  cbn [lget ksched_lens]. rewrite (KS_procs _ _ _ _ _ _ _ _ _ _ _ HK), Hz. intros r x (HLx & Hcx & Hnx & _ & Hpx).
  assert (HK1 : KS kend ie me [] (k :: free) (alter kill_proc np ps) n fl ic m (set_sched x s)).
  { destruct HK. split; try done; rewrite ?sched_of_set; try congruence.
    eapply kmem_in_sched; [done|done|set_solver|done]. }
  assert (Hf : list_find (fun p => state p = UNUSED) (alter kill_proc np ps) = Some (np, kill_proc q)).
  { apply list_find_Some. rewrite list_lookup_alter_eq, Hq. split; [done|]. split.
    - unfold kill_proc. simpl. by rewrite Hst.
    - intros j y Hy Hj. rewrite list_lookup_alter_ne in Hy by lia. by eapply Hmin. }
  eapply wp_mono; [by apply (wp_allocproc kend ie Hend me (alter kill_proc np ps) np forkret (kill_proc q) (k :: free) n fl ic m)|]. cbv beta iota. intros r' s' [-> HK'].
  split; [done|]. eexists. rewrite (KS_procs _ _ _ _ _ _ _ _ _ _ _ HK'). split.
  { apply list_lookup_insert_eq. rewrite length_alter. by eapply lookup_lt_Some. }
  unfold kill_proc. by case_bool_decide.
Qed.

Lemma kill_zero_poisons_witness :
  wp (on_sched (kill 0) ;; allocproc 0x80103000) (fun r s' => exists q', procs (sched_of s') !! 1%nat = Some q' /\ killed q' = 1) demo_kern.
Proof.
  eapply wp_mono; [apply (kill_zero_poisons demo_kend true 0x80103000 0 (procs demo_sched) 1 free_proc 0x80210000 (tail demo_free) 2
    (files demo_kern) (icache (kfs demo_kern)) (ram demo_kern))|].
  - done.
  - exact demo_KS.
  - by vm_compute.
  - by vm_compute.
  - intros r s' (_ & q' & H1 & _ & _ & H2). by exists q'.
Defined.

(** [init] asleep in [wait], the exiting process, and its zombie child. *)
Definition exit_demo : sched_st :=
  SchedSt boot_machine
    [set_chan (CProc 0) (set_state SLEEPING proc1); set_parent (Some 0%nat) proc1;
     set_parent (Some 1%nat) (set_state ZOMBIE proc1)] (Some 1%nat) 4 (Some 0%nat).

