(* ===== verification/ExecProps.v ===== *)
(** * What the loader does not check (exec.c)

    [exec] rejects a segment that ends in kernel space by the result of
    [allocuvm], but computes the segment's end modulo 2^32. *)

From S2P Require Import Prelude Params CString Spinlock Sched Bio Log Fs Kalloc Vm VmMap VmUser Kernel Pipe FileC ProcC Exec.

Section segment.
Context (kend : Z) (dev_read : Z -> option (nat -> Z -> M fs_st (Z * list Z))).
Hypothesis Hend : KERNBASE <= kend.
Context (pgdir : Z) (tabs : gmap Z Z) (ip : nat).

(** One page of a file goes to the page that the directory has for [va],
    whoever owns it. *)
Lemma loaduvm_page va e off n data s f : pt_ok kend (ram s) pgdir tabs -> 0 <= va < 4294967296 -> va mod 4096 = 0 ->
  mapped (ram s) tabs (va / 4096) = Some e -> 0 < n <= 4096 -> readi dev_read ip (u32 off) n (kfs s) = Ok (n, data) f ->
  wp (loaduvm dev_read pgdir va ip off n) (fun r s' => r = 0 /\
    s' = set_ram (store (ram s) (p2v (PTE_ADDR e)) data) (set_kfs f s)) s.
Proof.
  intros Hpt Hva Hal He Hn Hr. unfold loaduvm, PGSIZE. rewrite (proj2 (Z.eqb_eq _ _) Hal). simpl negb. cbn [loaduvm_loop].
  replace (0 <? n) with true by lia. simpl negb. rewrite (Z.add_0_r va), (u32_small va) by done. apply wp_bind, wp_lift.
  eapply wp_mono; [by apply (wp_walk_found kend Hend (ram s) pgdir tabs); auto|]. intros r k [-> Hpte].
  unfold mapped in He. rewrite PDX_eq in Hpte by done. rewrite PTX_eq in Hpte.
  replace (va / 4194304) with (va / 4096 / 1024) in Hpte by (rewrite Z.div_div by lia; done).
  destruct (tabs !! (va / 4096 / 1024)) as [t|] eqn:Et; [|done].
  destruct (has (load32 (ram s) (t + 4 * ((va / 4096) mod 1024))) PTE_P); [|done]. injection He as He.
  destruct (pt_tab _ _ _ _ Hpt _ _ Et) as (_ & Htp & _). destruct (ram_page_range kend Hend t Htp) as [Ht1 _].
  rewrite (proj2 (Z.eqb_neq r 0)) by (unfold KERNBASE in *; zlia).
  rewrite lset_lget. apply wp_bind, wp_gets. subst r. rewrite He.
  replace (if n - 0 <? PGSIZE then n - 0 else PGSIZE) with n by (unfold PGSIZE; destruct (n - 0 <? 4096) eqn:?; lia).
  rewrite (Z.add_0_r off). apply wp_bind, wp_lift. unfold wp at 1. cbn [lget kfs_lens]. rewrite Hr.
  apply wp_bind, wp_modify. rewrite Z.eqb_refl. simpl negb.
  destruct (Z.to_nat (n / 4096 + 1)) as [|fuel]; cbn [loaduvm_loop]; [by apply wp_ret|].
  replace (0 + PGSIZE <? n) with false by (unfold PGSIZE; lia). by apply wp_ret.
Qed.

(** A segment whose address plus size wraps below the present size passes
    [exec]'s checks although it lies in kernel space, and its contents are
    stored over the kernel page there: the end is not checked for overflow.
    The hypotheses on [readi] say only what the file holds. *)
Theorem segment_overwrites_kernel off sz e hdr data s f f' :
  let ph := decode_proghdr hdr in
  pt_ok kend (ram s) pgdir tabs -> readi dev_read ip (u32 off) 32 (kfs s) = Ok (32, hdr) f ->
  ph_type ph = ELF_PROG_LOAD -> 0 < ph_filesz ph <= 4096 -> ph_filesz ph <= ph_memsz ph ->
  KERNBASE <= ph_vaddr ph < 4294967296 -> ph_vaddr ph mod 4096 = 0 -> u32 (ph_vaddr ph + ph_memsz ph) < sz < KERNBASE ->
  mapped (ram s) tabs (ph_vaddr ph / 4096) = Some e ->
  readi dev_read ip (u32 (ph_off ph)) (ph_filesz ph) f = Ok (ph_filesz ph, data) f' ->
  wp (load_segments kend dev_read 1 pgdir ip off sz) (fun r s' => r = Some sz /\
    ram s' = store (ram s) (p2v (PTE_ADDR e)) data) s.
Proof.
  intros ph Hpt Hr Hty Hfs Hms Hva Hal Hend' He Hr'. cbn [load_segments].
  apply wp_bind, wp_lift. unfold wp at 1. cbn [lget kfs_lens]. rewrite Hr. cbv beta iota zeta. rewrite Z.eqb_refl. cbn [negb]. fold ph. rewrite Hty, Z.eqb_refl. cbn [negb].
  replace (ph_memsz ph <? ph_filesz ph) with false by lia.
  pose proof (u32_range (ph_vaddr ph + ph_memsz ph)) as Hu. unfold is_u32 in Hu.
  unfold allocuvm. replace (KERNBASE <=? _) with false by lia. replace (_ <? sz) with true by lia.
  apply wp_bind, wp_lift, wp_ret. rewrite (proj2 (Z.eqb_neq sz 0)) by lia. rewrite lset_lget.
  apply wp_bind. eapply wp_mono; [by apply (loaduvm_page (ph_vaddr ph) e (ph_off ph) (ph_filesz ph) data (set_kfs f s) f'); try done; unfold KERNBASE in *; lia|].
  intros r s' [-> ->]. by apply wp_ret.
Qed.
End segment.
